(* ===== verification/_CoqProject ===== *)
-Q . S2P
Prelude.v
Layout.v
CString.v
Spinlock.v
Kalloc.v
Vm.v
AddrSpace.v
State.v
Sched.v
Sleeplock.v
Bio.v
Cache.v
Ide.v
IdeQueue.v
Log.v
Journal.v
Trans.v
Fs.v
Blocks.v
Inode.v
Dir.v
Mkfs.v
Image.v
Console.v
Pipe.v
File.v
FileOps.v
Proc.v
Kbd.v
Syscall.v
Sysfile.v
Exec.v
Boot.v
Trap.v
Segments.v
Scheduler.v
Machine.v
UserMem.v
Fork.v
Isolation.v
Grep.v
Umalloc.v
Sh.v
Utils.v
Progs.v
