(* ===== verification/Prelude.v ===== *)
(** * xv6: a verification of the kernel and of some of its user programs

    The program is an xv6 for the x86 (src/), extended with lazy allocation of
    user memory, several schedulers, extent files, symbolic links and some
    system calls.  This library models the C code of the kernel from the page
    allocator to the system calls, of the boot loader and the interrupt
    controllers, of the shell, grep, find, ls, uniq and the smaller commands, of
    the user-level allocator and printf, and of the program mkfs that makes the
    file system, and proves what each part promises the others.

    ** How the code is modelled

    An [int] or [uint] is a [Z] kept in range by the wrap-around functions of
    this file; memory that is shared through pointers (pages, page tables, free
    lists, kernel stacks) is a map from addresses to bytes (Layout).  A C
    function that changes the state is a computation [M S A] of this file: from
    the locks held, the running process and the state it comes to an end
    ([Done]), calls panic ([Panic]), gives up the processor in a given state
    ([Sleep]), or does what C leaves undefined or leaves its fuel ([Undef]).
    [S] is [kmem], the memory with its free list, in Kalloc and Vm, and [kernel],
    the record of all tables of the kernel, from State on.  An index into a table
    stands for a pointer to its element.  A computation ends where the process
    gives up the processor; a process that is woken starts the loop around the
    call to [sleep] again, and what else it did before in the same system call is
    not resumed.  Where processors or
    processes interleave between any two statements, the code is a transition
    system with a program counter per processor or process ([Spinlock.Spin],
    [Sleeplock.Protocol]).

    ** The parts

    - Prelude: machine integers, the computations and their equations ([run]),
      lemmas shared by all files.  Layout: src/param.h, src/memlayout.h,
      src/mmu.h.  CString: src/string.c and the pure part of src/ulib.c.
    - Spinlock: src/spinlock.c, as [Cli] (pushcli and popcli), [Spin] (the code
      with its atomic exchange) and [Locks] (the contract the other files use).
    - Kalloc: src/kalloc.c.  Vm: src/vm.c and the page fault handlers of
      src/trap.c.  AddrSpace: the contract of Vm, in terms of the memory a user
      program sees.
    - State: the structures of the kernel.  Sched: [sched], [sleep], [wakeup] and
      the choices of the schedulers of src/proc.c.  Sleeplock: src/sleeplock.c.
    - Bio: src/bio.c and src/memide.c; Ide: src/ide.c.  The class [DiskDriver]
      is what the buffer cache asks of a driver.  Cache: the correctness of Bio.
      IdeQueue: of the request queue of Ide.
    - Log: src/log.c.  Journal: crashes at any write to the disk, recovery.
      Trans: the contract of the log for the file system.
    - Fs: src/fs.c.  Blocks: the correctness of its block allocation.  Inode: of
      inodes on the disk and of reading and writing files.  Dir: of directories.
    - Mkfs: src/mkfs.c, on a host file with the laws of the class
      [HostFileLaws].  Image: what the image it describes would be.
    - Console: src/console.c.  Pipe: src/pipe.c.  File: src/file.c.  The class
      [Devsw] is the table of device drivers.  FileOps: the correctness of
      [fileread] and [filewrite].
    - Proc: creation and end of processes of src/proc.c.  Kbd: src/kbd.c, the
      input of src/uart.c and the process listing.  Syscall: src/syscall.c.
      Sysfile: src/sysfile.c.  Exec: src/exec.c.  Trap: [trap] of src/trap.c,
      and src/sysproc.c.
    - Segments: the descriptor tables of src/mmu.h and src/x86.h, as [seginit]
      and [switchuvm] of src/vm.c and [tvinit] and [idtinit] of src/trap.c fill
      them.  Scheduler: the loops [scheduler] of src/proc.c.
    - Boot: src/bootmain.c, on a drive with the laws of the class [DriveLaws].
      Machine: the tables of processors of src/mp.c, the interrupt controllers of
      src/ioapic.c, src/picirq.c and src/lapic.c, and the clock of src/lapic.c;
      the registers are a function of their numbers or the list of writes to
      them.
    - UserMem: the arguments of system calls and the accesses of the kernel to
      user memory.  Fork: the correctness of [fork] and [wait].  Isolation: what
      a process in the kernel may do to the entries of the others.
    - Grep: src/grep.c.  Umalloc: src/umalloc.c.  Sh: src/sh.c.  Utils:
      src/printf.c, src/wc.c, src/cat.c and src/find.c.  Progs: src/uniq.c,
      src/ls.c, src/echo.c, src/mkdir.c, src/rm.c, src/kill.c, src/ln.c and
      src/sleep.c.

    ** What is proved

    - Locks: the exchange-based code on any number of processors is an execution
      of the abstract locks; mutual exclusion; for sleep locks also that no
      wakeup is lost.
    - Memory: [kalloc] hands out no page twice; building, growing, shrinking,
      copying and freeing an address space have the effect on user memory and on
      the pool of pages that they should, also when memory runs out; two faults
      of the lazy allocation are proved to stop the kernel.
    - Disk: the IDE driver serves the requests for its two drives in order and
      wakes who waits for them, also after an error; the buffer cache shows one content per block and keeps its list in order of
      use; a transaction reaches the disk entirely or not at all
      wherever the machine stops, recovery can be interrupted and repeated, and
      the log has room for the operations that are admitted - except on the log
      that src/mkfs.c makes, which is a block short.
    - Files: blocks are allocated and freed one by one, an inode that is written
      is the one that is read, [filewrite] stores exactly the bytes it is given,
      atomically with respect to crashes and recovery up to a size, and [fileread]
      reads them back (both for files within their direct blocks); a name linked
      into a directory is found there, and no other name is affected; one address too many in the inode on the disk and the filling of
      gaps are proved wrong, and that mkfs stops at an assertion before it
      builds anything, or writes past an array when a file is too big.  (Image also
      has what the rest of mkfs would build: the kernel would find the files under
      their names.)
    - Processes: [fork] copies the caller, [wait] gives back what its child had;
      no trap of a process disturbs another up to where it gives up the processor,
      nor is a pid given twice before their counter overflows; an interrupt of user
      code enters the kernel at its vector and on the stack of the process; the
      round robin scheduler runs every runnable process once in each round, the
      others choose a least process of their order; pipes deliver bytes in order.
    - System calls: strings and pointers are taken only from below the size of
      the process, which [sbrk] does not bound; bytes stored for the user are
      what the user loads.
    - Console: typing a text on a US keyboard delivers it; the ring buffer of
      [consoleintr] implements a line editor, a reader gets the first line,
      output never leaves the screen.
    - Machine: the boot loader puts every segment of the kernel into memory; the
      processors of the tables are found, and a table with an entry of an unknown
      kind makes [mpinit] loop for ever; a line of the I/O APIC is masked unless
      it is enabled and goes to the processor it is enabled for; the clock gives
      the date it shows.
    - User programs: [malloc] and [free], on what [sbrk] gives, keep blocks disjoint; the parser of the
      shell terminates and inverts printing, its words become C strings in
      place, a pipeline connects its two ends and nothing else, the lines typed
      are run in order; grep's matcher decides the language of its pattern, and
      its loop prints the lines that match when reads end at line ends, and
      loses others; wc counts its input however it is read; find does not go on
      after the first directory it descends into; uniq prints each group of equal
      lines, ls the entries of a directory, echo its arguments.

    ** Fuel

    Loops that are not structural are given fuel, and run out of it only with
    [Undef] (or [None], [Stuck]).  It is the number of rounds the C loop can
    make: pages of a range for the loops of Kalloc and Vm, buffers for the list
    of Bio, characters for the loops of Console, Sh and Grep, headers for the
    list of Umalloc, sectors and program headers for Boot, polls of the drive
    until it is ready ([d_polls]), entries of the table and reads of the clock
    for Machine.  The theorems state that the functions return, so that the
    fuel is enough where their hypotheses hold.

    ** What is not modelled

    Assembly (boot, trap entry, and [swtch], a parameter of Scheduler), the order
    of start-up in src/main.c and src/init.c, the set-up of the serial port, and
    the remaining user programs, which test the system or show it.  Interrupts do
    not occur inside a computation of [M]; the locks of the contract [Locks], which
    keep them off, are what makes that sound. *)

From stdpp Require Export base gmap list strings sets numbers fin_maps.
From Stdlib Require Export ZArith Lia.
Set Default Goal Selector "!".
#[export] Set Default Goal Selector "!".
Open Scope Z_scope.

(** ** Machine integers

    A C [uint], [ushort] or [uchar] is a [Z] kept in range by the wrap
    functions below, an [int] is a [Z] kept in the signed range by [i32]. *)

Definition u8 (z : Z) : Z := z mod 2 ^ 8.
Definition u16 (z : Z) : Z := z mod 2 ^ 16.
Definition u32 (z : Z) : Z := z mod 2 ^ 32.
Definition i32 (z : Z) : Z := (z + 2 ^ 31) mod 2 ^ 32 - 2 ^ 31.
Definition i16 (z : Z) : Z := (z + 2 ^ 15) mod 2 ^ 16 - 2 ^ 15.

(** [uint_ok z] holds when [z] is a value of type [uint]. *)
Definition uint_ok (z : Z) : Prop := 0 <= z < 2 ^ 32.
Definition byte_ok (z : Z) : Prop := 0 <= z < 2 ^ 8.

Create HintDb word.
Create Rewrite HintDb word_rw.

(** [word] closes goals about wrapped integers by unfolding the wraps and
    turning division and modulus into linear equations. *)
Ltac word_unfold :=
  unfold u8, u16, u32, i32, i16, uint_ok, byte_ok in *;
  change (2 ^ 8) with 256 in *; change (2 ^ 15) with 32768 in *;
  change (2 ^ 16) with 65536 in *;
  change (2 ^ 31) with 2147483648 in *; change (2 ^ 32) with 4294967296 in *.
Ltac word := word_unfold; Z.to_euclidean_division_equations; lia.

Lemma u32_range z : uint_ok (u32 z).
Proof. word. Qed.

Lemma u8_range z : byte_ok (u8 z).
Proof. word. Qed.

Lemma u32_id z : uint_ok z -> u32 z = z.
Proof. intros. word. Qed.

Lemma u8_id z : byte_ok z -> u8 z = z.
Proof. intros. word. Qed.

Lemma u32_idemp z : u32 (u32 z) = u32 z.
Proof. apply u32_id, u32_range. Qed.

Lemma u32_add_l a b : u32 (u32 a + b) = u32 (a + b).
Proof. unfold u32. by rewrite Zplus_mod_idemp_l. Qed.

Lemma u32_add_r a b : u32 (a + u32 b) = u32 (a + b).
Proof. unfold u32. by rewrite Zplus_mod_idemp_r. Qed.

Lemma u32_sub_l a b : u32 (u32 a - b) = u32 (a - b).
Proof. unfold u32. by rewrite Zminus_mod_idemp_l. Qed.

Lemma u32_sub_r a b : u32 (a - u32 b) = u32 (a - b).
Proof. unfold u32. by rewrite Zminus_mod_idemp_r. Qed.

Lemma i32_id z : - 2 ^ 31 <= z < 2 ^ 31 -> i32 z = z.
Proof. intros. word. Qed.

#[export] Hint Resolve u32_range u8_range : word.
#[export] Hint Rewrite u32_idemp u32_add_l u32_add_r u32_sub_l u32_sub_r : word_rw.

(** ** Sets *)

Lemma elem_of_size_pos `{Countable K} (X : gset K) (x : K) : x ∈ X -> (0 < size X)%nat.
Proof.
  intros Hx. destruct (decide (size X = 0%nat)) as [E|]; [|lia].
  apply size_empty_iff in E. set_solver.
Qed.

(** ** Lists *)

Lemma alter_insert_at {A} (f : A -> A) (l : list A) i x : l !! i = Some x -> alter f i l = <[i := f x]> l.
Proof. intros Hi. rewrite list_insert_alter. apply list_alter_ext; [|done]. intros y Hy. by simplify_eq. Qed.

Lemma filter_all {A} (P : A -> Prop) `{!forall x, Decision (P x)} (l : list A) : Forall P l -> filter P l = l.
Proof. induction 1 as [|x l Hx _ IH]; [done|]. by rewrite filter_cons_True, IH. Qed.

Lemma nodup_length_le {A} (l k : list A) : NoDup l -> (forall x, x ∈ l -> x ∈ k) -> (length l <= length k)%nat.
Proof. intros Hn Hs. by apply submseteq_length, NoDup_submseteq. Qed.

(** ** Kernel computations

    Kernel code runs on one CPU on behalf of one process: the ambient context
    of a computation is the set of spin locks that CPU holds and the index of
    the process it runs ([myproc()]).  A call either returns, or panics, or
    puts the process to sleep on a channel (the caller is resumed at the head
    of the waiting loop after a wakeup), or has undefined behaviour (a null
    pointer is dereferenced, an array is indexed out of its bounds). *)

Abbreviation lockid := (string * Z)%type.

Record ctx := Ctx { held : gset lockid; cur : Z }.

Inductive res (S A : Type) : Type :=
  | Done (a : A) (c : ctx) (s : S)
  | Panic (msg : string)
  | Sleep (chan : Z) (s : S)
  | Undef (why : string).
Arguments Done {S A} a c s.
Arguments Panic {S A} msg.
Arguments Sleep {S A} chan s.
Arguments Undef {S A} why.

Definition M (S A : Type) : Type := ctx -> S -> res S A.

#[export] Instance M_ret S : MRet (M S) := fun A a c s => Done a c s.
#[export] Instance M_bind S : MBind (M S) := fun A B k m c s =>
  match m c s with
  | Done a c' s' => k a c' s'
  | Panic msg => Panic msg
  | Sleep chan s' => Sleep chan s'
  | Undef why => Undef why
  end.

Section ops.
Context {S : Type}.

Definition gets {A} (f : S -> A) : M S A := fun c s => Done (f s) c s.
Definition modify (f : S -> S) : M S unit := fun c s => Done tt c (f s).
Definition panic {A} (msg : string) : M S A := fun _ _ => Panic msg.
Definition undef {A} (why : string) : M S A := fun _ _ => Undef why.
Definition sleep_on {A} (chan : Z) : M S A := fun _ s => Sleep chan s.
Definition ask : M S ctx := fun c s => Done c c s.
Definition set_held (h : gset lockid) : M S unit :=
  fun c s => Done tt (Ctx h (cur c)) s.
Definition when (b : bool) (m : M S unit) : M S unit :=
  if b then m else mret tt.
(** [++] on an [int]: its overflow is undefined. *)
Definition incr_int (z : Z) : M S Z :=
  if z <? 2 ^ 31 - 1 then mret (z + 1) else undef "signed overflow".
End ops.

(** Running a sequence whose first part returns, panics or sleeps. *)
Section run.
Context {S A B : Type} (m : M S A) (k : A -> M S B).

Lemma bind_Done c s a c' s' : m c s = Done a c' s' -> (m ≫= k) c s = k a c' s'.
Proof. unfold mbind, M_bind. by intros ->. Qed.

Lemma bind_Panic c s msg : m c s = Panic msg -> (m ≫= k) c s = Panic msg.
Proof. unfold mbind, M_bind. by intros ->. Qed.

Lemma bind_Sleep c s chan s' : m c s = Sleep chan s' -> (m ≫= k) c s = Sleep chan s'.
Proof. unfold mbind, M_bind. by intros ->. Qed.

Lemma bind_Done_inv c s b c' s' : (m ≫= k) c s = Done b c' s' ->
  exists a c1 s1, m c s = Done a c1 s1 /\ k a c1 s1 = Done b c' s'.
Proof. unfold mbind, M_bind. destruct (m c s) as [a c1 s1| | |]; intros E; [by exists a, c1, s1|discriminate..]. Qed.
End run.

Lemma bind_gets {S A B} (f : S -> A) (k : A -> M S B) c s : (gets f ≫= k) c s = k (f s) c s.
Proof. done. Qed.

Lemma bind_modify {S B} (f : S -> S) (k : unit -> M S B) c s :
  (modify f ≫= k) c s = k tt c (f s).
Proof. done. Qed.

Lemma bind_ret {S A B} (a : A) (k : A -> M S B) c s : (mret a ≫= k) c s = k a c s.
Proof. done. Qed.

Lemma bind_ask {S B} (k : ctx -> M S B) c s : (ask ≫= k) c s = k c c s.
Proof. done. Qed.

Lemma bind_incr_int {S B} z (k : Z -> M S B) c s : z < 2 ^ 31 - 1 -> (incr_int z ≫= k) c s = k (z + 1) c s.
Proof. intros Hz. unfold incr_int. by rewrite (proj2 (Z.ltb_lt _ _) Hz). Qed.

Lemma bind_assoc {S A B D} (m : M S A) (f : A -> M S B) (k : B -> M S D) c s :
  ((m ≫= f) ≫= k) c s = (m ≫= fun x => f x ≫= k) c s.
Proof. unfold mbind, M_bind. by destruct (m c s). Qed.

Create Rewrite HintDb run.
#[export] Hint Rewrite @bind_gets @bind_modify @bind_ret @bind_ask @bind_assoc : run.

Lemma ctx_eta c : Ctx (held c) (cur c) = c.
Proof. by destruct c. Qed.

(** ** Running a part of a larger state *)

Record lens (S T : Type) := Lens {
  lget : S -> T;
  lset : T -> S -> S;
  lget_lset : forall t s, lget (lset t s) = t;
  lset_lget : forall s, lset (lget s) s = s;
  lset_lset : forall t t' s, lset t (lset t' s) = lset t s;
}.
Arguments Lens {S T} lget lset.
Arguments lget {S T} _ s.
Arguments lset {S T} _ t s.
Arguments lget_lset {S T} _ t s.
Arguments lset_lget {S T} _ s.
Arguments lset_lset {S T} _ t t' s.

Definition zoom {S T A} (l : lens S T) (m : M T A) : M S A := fun c s =>
  match m c (lget l s) with
  | Done a c' t => Done a c' (lset l t s)
  | Panic msg => Panic msg
  | Sleep chan t => Sleep chan (lset l t s)
  | Undef why => Undef why
  end.

(** ** Specifications of computations

    [wp m Q c s]: run from context [c] and state [s], [m] returns, and what it
    returns satisfies [Q].  A panic, a sleep and undefined behaviour all
    falsify it, so it is a total-correctness judgement. *)

Definition wp {S A} (m : M S A) (Q : A -> ctx -> S -> Prop) (c : ctx) (s : S) : Prop :=
  match m c s with Done a c' s' => Q a c' s' | _ => False end.

Section wp.
Context {S : Type}.

Lemma wp_ret {A} (a : A) Q c (s : S) : Q a c s -> wp (mret a) Q c s.
Proof. done. Qed.

Lemma wp_bind {A B} (m : M S A) (k : A -> M S B) Q c s :
  wp m (fun a c' s' => wp (k a) Q c' s') c s -> wp (m ≫= k) Q c s.
Proof. unfold wp, mbind, M_bind. by destruct (m c s). Qed.

Lemma wp_mono {A} (m : M S A) (Q Q' : A -> ctx -> S -> Prop) c s :
  wp m Q c s -> (forall a c' s', Q a c' s' -> Q' a c' s') -> wp m Q' c s.
Proof. unfold wp. destruct (m c s); naive_solver. Qed.

Lemma wp_gets {A} (f : S -> A) Q c s : Q (f s) c s -> wp (gets f) Q c s.
Proof. done. Qed.

Lemma wp_modify f Q c (s : S) : Q tt c (f s) -> wp (modify f) Q c s.
Proof. done. Qed.

Lemma wp_ask Q c (s : S) : Q c c s -> wp ask Q c s.
Proof. done. Qed.

Lemma wp_when (b : bool) (m : M S unit) Q c s :
  (b = true -> wp m Q c s) -> (b = false -> Q tt c s) -> wp (when b m) Q c s.
Proof. destruct b; unfold when, wp; naive_solver. Qed.

Lemma wp_zoom {T A} (l : lens S T) (m : M T A) Q c s :
  wp m (fun a c' t => Q a c' (lset l t s)) c (lget l s) -> wp (zoom l m) Q c s.
Proof. unfold wp, zoom. by destruct (m c (lget l s)). Qed.

Lemma wp_done {A} (m : M S A) Q c s :
  wp m Q c s <-> exists a c' s', m c s = Done a c' s' /\ Q a c' s'.
Proof. unfold wp. destruct (m c s); naive_solver. Qed.
End wp.

Create HintDb wp.
#[export] Hint Resolve wp_ret wp_gets wp_modify wp_ask : wp.

(** One step of symbolic execution of a [wp] goal. *)
Ltac wp_step :=
  lazymatch goal with
  | |- wp (mbind _ _) _ _ _ => apply wp_bind
  | |- wp (mret _) _ _ _ => apply wp_ret
  | |- wp (gets _) _ _ _ => apply wp_gets
  | |- wp (modify _) _ _ _ => apply wp_modify
  | |- wp ask _ _ _ => apply wp_ask
  | |- wp (when _ _) _ _ _ => apply wp_when; intros
  | |- wp (zoom _ _) _ _ _ => apply wp_zoom
  | |- wp (if ?b then _ else _) _ _ _ => destruct b eqn:?
  end; cbv beta.
Ltac wp_steps := repeat wp_step.
