(* ===== verification/Layout.v ===== *)
(** * Sizes, address arithmetic and byte memory

    The constants of src/param.h, src/memlayout.h, src/mmu.h and src/fs.h, the
    address macros built from them, and the byte-addressed memory that
    src/string.c, src/kalloc.c and src/vm.c work on. *)

From S2P Require Import Prelude.

(** ** src/param.h *)

Definition NPROC : Z := 64.
Definition KSTACKSIZE : Z := 4096.
Definition NCPU : Z := 8.
Definition NOFILE : Z := 16.
Definition NFILE : Z := 100.
Definition NINODE : Z := 50.
Definition NDEV : Z := 10.
Definition ROOTDEV : Z := 1.
Definition MAXARG : Z := 32.
Definition MAXOPBLOCKS : Z := 10.
Definition LOGSIZE : Z := MAXOPBLOCKS * 3.
Definition NBUF : Z := MAXOPBLOCKS * 3.
Definition FSSIZE : Z := 250000.

(** ** src/memlayout.h *)

Definition EXTMEM : Z := 0x100000.
Definition PHYSTOP : Z := 0xE000000.
Definition DEVSPACE : Z := 0xFE000000.
Definition KERNBASE : Z := 0x80000000.
Definition KERNLINK : Z := KERNBASE + EXTMEM.

Definition V2P (a : Z) : Z := u32 (u32 a - KERNBASE).
Definition P2V (a : Z) : Z := u32 (a + KERNBASE).

(** ** src/mmu.h *)

Definition PGSIZE : Z := 4096.
Definition NPDENTRIES : Z := 1024.
Definition NPTENTRIES : Z := 1024.
Definition PTXSHIFT : Z := 12.
Definition PDXSHIFT : Z := 22.

Definition PTE_P : Z := 0x001.
Definition PTE_W : Z := 0x002.
Definition PTE_U : Z := 0x004.
Definition PTE_PS : Z := 0x080.

Definition FL_IF : Z := 0x200.
Definition SEG_KCODE : Z := 1.
Definition SEG_KDATA : Z := 2.
Definition SEG_UCODE : Z := 3.
Definition SEG_UDATA : Z := 4.
Definition SEG_TSS : Z := 5.
Definition DPL_USER : Z := 3.

Definition PDX (va : Z) : Z := Z.land (Z.shiftr (u32 va) PDXSHIFT) 0x3FF.
Definition PTX (va : Z) : Z := Z.land (Z.shiftr (u32 va) PTXSHIFT) 0x3FF.
Definition PGADDR (d t o : Z) : Z :=
  u32 (Z.lor (Z.lor (Z.shiftl d PDXSHIFT) (Z.shiftl t PTXSHIFT)) o).
Definition PGROUNDUP (sz : Z) : Z :=
  Z.land (u32 (sz + PGSIZE - 1)) (u32 (Z.lnot (PGSIZE - 1))).
Definition PGROUNDDOWN (a : Z) : Z := Z.land (u32 a) (u32 (Z.lnot (PGSIZE - 1))).
Definition PTE_ADDR (pte : Z) : Z := Z.land (u32 pte) (u32 (Z.lnot 0xFFF)).
Definition PTE_FLAGS (pte : Z) : Z := Z.land (u32 pte) 0xFFF.

(** A page-aligned address. *)
Definition aligned (a : Z) : Prop := a mod PGSIZE = 0.

(** Arithmetic over the layout constants. *)
Ltac sizes :=
  unfold aligned, KERNLINK, KERNBASE, EXTMEM, PHYSTOP, DEVSPACE, PGSIZE, KSTACKSIZE,
    NPDENTRIES, NPTENTRIES in *.
Ltac addr := sizes; word.

(** ** Byte memory *)

Abbreviation mem := (gmap Z Z).

Definition rd (m : mem) (a : Z) : Z := default 0 (m !! a).
Definition wr (m : mem) (a v : Z) : mem := <[a := u8 v]> m.

(** A [uint] in memory, least significant byte first. *)
Definition rd32 (m : mem) (a : Z) : Z :=
  rd m a + 2 ^ 8 * rd m (a + 1) + 2 ^ 16 * rd m (a + 2) + 2 ^ 24 * rd m (a + 3).
Definition wr32 (m : mem) (a v : Z) : mem :=
  wr (wr (wr (wr m a v) (a + 1) (v / 2 ^ 8)) (a + 2) (v / 2 ^ 16)) (a + 3) (v / 2 ^ 24).

(** Every byte of memory is a byte. *)
Definition mem_ok (m : mem) : Prop := forall a, byte_ok (rd m a).

Lemma rd_wr m a v b : rd (wr m a v) b = if decide (a = b) then u8 v else rd m b.
Proof. unfold rd, wr. rewrite lookup_insert. by case_decide. Qed.

Lemma rd_wr_eq m a v : rd (wr m a v) a = u8 v.
Proof. rewrite rd_wr. by case_decide. Qed.

Lemma rd_wr_ne m a v b : a <> b -> rd (wr m a v) b = rd m b.
Proof. intros. rewrite rd_wr. by case_decide. Qed.

Lemma mem_ok_wr m a v : mem_ok m -> mem_ok (wr m a v).
Proof. intros Hm b. rewrite rd_wr. case_decide; [apply u8_range|apply Hm]. Qed.

Lemma mem_ok_wr32 m a v : mem_ok m -> mem_ok (wr32 m a v).
Proof. intros. by repeat apply mem_ok_wr. Qed.

Lemma rd_wr32_ne m a v b : b < a \/ a + 4 <= b -> rd (wr32 m a v) b = rd m b.
Proof. intros. unfold wr32. by rewrite !rd_wr_ne by lia. Qed.

Lemma rd32_wr32_eq m a v : uint_ok v -> rd32 (wr32 m a v) a = v.
Proof.
  intros Hv. unfold rd32, wr32.
  rewrite rd_wr_eq, !(rd_wr_ne _ (a + 3)), !rd_wr_eq by lia.
  rewrite !(rd_wr_ne _ (a + 2)), rd_wr_eq, !(rd_wr_ne _ (a + 1)), rd_wr_eq by lia.
  change (2 ^ 16) with 65536; change (2 ^ 24) with 16777216. word.
Qed.

Lemma rd32_ext m m' a : (forall b, a <= b < a + 4 -> rd m b = rd m' b) -> rd32 m a = rd32 m' a.
Proof. intros H. unfold rd32. by rewrite !H by lia. Qed.

Lemma rd32_wr32_ne m a v b : b + 4 <= a \/ a + 4 <= b -> rd32 (wr32 m a v) b = rd32 m b.
Proof. intros. apply rd32_ext. intros. apply rd_wr32_ne. lia. Qed.

Lemma rd32_range m a : mem_ok m -> uint_ok (rd32 m a).
Proof.
  intros Hm. pose proof (Hm a); pose proof (Hm (a + 1)); pose proof (Hm (a + 2));
    pose proof (Hm (a + 3)). unfold rd32.
  change (2 ^ 16) with 65536; change (2 ^ 24) with 16777216. word.
Qed.

#[export] Hint Resolve mem_ok_wr mem_ok_wr32 rd32_range : word.

(** ** The address macros as arithmetic *)

Lemma land_ones_mod a n : 0 <= n -> Z.land a (2 ^ n - 1) = a mod 2 ^ n.
Proof. intros. rewrite <- Z.land_ones by done. by rewrite Z.ones_equiv, Z.sub_1_r. Qed.

Lemma land_hi a : uint_ok a -> Z.land a 0xFFFFF000 = a - a mod 4096.
Proof.
  intros Ha.
  replace 0xFFFFF000 with (Z.ldiff (Z.ones 32) (Z.ones 12)) by reflexivity.
  rewrite Z.ldiff_land, Z.land_assoc, <- Z.ldiff_land, Z.land_ones, Z.ldiff_ones_r by lia.
  rewrite Z.shiftr_div_pow2, Z.shiftl_mul_pow2 by lia.
  change (2 ^ 12) with 4096. change (2 ^ 32) with 4294967296. word.
Qed.

Lemma PGROUNDDOWN_eq a : uint_ok a -> PGROUNDDOWN a = a - a mod PGSIZE.
Proof. intros. unfold PGROUNDDOWN. rewrite u32_id by done. by apply land_hi. Qed.

Lemma PGROUNDUP_eq sz : 0 <= sz -> sz + PGSIZE - 1 < 2 ^ 32 ->
  PGROUNDUP sz = (sz + PGSIZE - 1) - (sz + PGSIZE - 1) mod PGSIZE.
Proof.
  intros. unfold PGROUNDUP, PGSIZE in *. rewrite u32_id by word.
  apply land_hi. word.
Qed.

Lemma PTE_ADDR_eq a : uint_ok a -> PTE_ADDR a = a - a mod PGSIZE.
Proof. intros. unfold PTE_ADDR. rewrite u32_id by done. by apply land_hi. Qed.

Lemma PTE_FLAGS_eq a : uint_ok a -> PTE_FLAGS a = a mod PGSIZE.
Proof.
  intros. unfold PTE_FLAGS. rewrite u32_id by done.
  apply (land_ones_mod a 12). lia.
Qed.

Lemma PDX_eq va : uint_ok va -> PDX va = va / 2 ^ 22.
Proof.
  intros. unfold PDX. rewrite u32_id by done. change 0x3FF with (2 ^ 10 - 1).
  rewrite land_ones_mod, Z.shiftr_div_pow2 by (unfold PDXSHIFT; lia).
  unfold PDXSHIFT. change (2 ^ 22) with 4194304. change (2 ^ 10) with 1024. word.
Qed.

Lemma PTX_eq va : uint_ok va -> PTX va = (va / 2 ^ 12) mod 1024.
Proof.
  intros. unfold PTX. rewrite u32_id by done. change 0x3FF with (2 ^ 10 - 1).
  by rewrite land_ones_mod, Z.shiftr_div_pow2 by (unfold PTXSHIFT; lia).
Qed.

(** An aligned address or-ed with low bits is their sum. *)
Lemma lor_aligned a f : aligned a -> 0 <= f < PGSIZE -> Z.lor a f = a + f.
Proof.
  intros Ha Hf. symmetry. rewrite <- Z.lxor_lor; [apply Z.add_nocarry_lxor|].
  all: apply Z.bits_inj'; intros n Hn; rewrite Z.land_spec, Z.bits_0;
    unfold aligned, PGSIZE in *; change 4096 with (2 ^ 12) in *.
  all: destruct (decide (n < 12)).
  1, 3: replace a with (a / 2 ^ 12 * 2 ^ 12) by
      (pose proof (Z.div_mod a (2 ^ 12)); lia);
    rewrite Z.mul_pow2_bits_low by lia; done.
  all: replace f with (f mod 2 ^ 12) by (apply Z.mod_small; lia);
    rewrite Z.mod_pow2_bits_high by lia; apply andb_false_r.
Qed.

Lemma lor_bound a b n : 0 <= n -> 0 <= a < 2 ^ n -> 0 <= b < 2 ^ n -> 0 <= Z.lor a b < 2 ^ n.
Proof.
  intros Hn Ha Hb. replace (Z.lor a b) with (Z.lor a b mod 2 ^ n).
  { apply Z.mod_pos_bound. lia. }
  rewrite <- Z.land_ones, Z.land_lor_distr_l, !Z.land_ones by lia.
  by rewrite !Z.mod_small.
Qed.

Lemma PDX_range va : 0 <= PDX va < NPDENTRIES.
Proof.
  unfold PDX. change 0x3FF with (2 ^ 10 - 1). rewrite land_ones_mod by lia.
  unfold NPDENTRIES. apply Z.mod_pos_bound. lia.
Qed.

Lemma PTX_range va : 0 <= PTX va < NPTENTRIES.
Proof.
  unfold PTX. change 0x3FF with (2 ^ 10 - 1). rewrite land_ones_mod by lia.
  unfold NPTENTRIES. apply Z.mod_pos_bound. lia.
Qed.

(** [PGADDR] puts an address together from the indexes [PDX] and [PTX] take
    it apart into. *)
Lemma PGADDR_eq d t o :
  0 <= d < NPDENTRIES -> 0 <= t < NPTENTRIES -> 0 <= o < PGSIZE ->
  PGADDR d t o = d * 2 ^ 22 + t * 2 ^ 12 + o.
Proof.
  unfold NPDENTRIES, NPTENTRIES, PGADDR, PGSIZE, PDXSHIFT, PTXSHIFT. intros.
  assert (Z.lor (Z.shiftl d 22) (Z.shiftl t 12) = d * 2 ^ 22 + t * 2 ^ 12) as ->.
  { change 22 with (10 + 12) at 1. rewrite <- (Z.shiftl_shiftl d 10 12), <- Z.shiftl_lor by lia.
    replace (Z.lor (Z.shiftl d 10) t) with (d * 2 ^ 10 + t).
    { rewrite Z.shiftl_mul_pow2 by lia. change (2 ^ 10) with 1024. change (2 ^ 12) with 4096. change (2 ^ 22) with 4194304. lia. }
    rewrite <- (Z.shiftl_mul_pow2 d 10) by lia.
    rewrite <- Z.lxor_lor; [apply Z.add_nocarry_lxor|].
    all: apply Z.bits_inj'; intros n Hn; rewrite Z.land_spec, Z.bits_0.
    all: destruct (decide (n < 10)); [by rewrite Z.shiftl_spec_low by lia|].
    all: replace t with (t mod 2 ^ 10) by (apply Z.mod_small; lia);
      rewrite Z.mod_pow2_bits_high by lia; apply andb_false_r. }
  change (2 ^ 12) with 4096. change (2 ^ 22) with 4194304.
  rewrite lor_aligned by (unfold aligned, PGSIZE; word).
  apply u32_id. word.
Qed.

Lemma PGADDR_PDX_PTX va : uint_ok va -> PGADDR (PDX va) (PTX va) (va mod PGSIZE) = va.
Proof.
  intros Hva. pose proof (PDX_range va) as Hd. pose proof (PTX_range va) as Ht.
  rewrite (PGADDR_eq _ _ _ Hd Ht) by (apply Z.mod_pos_bound; done).
  rewrite PDX_eq, PTX_eq by done. unfold PGSIZE.
  change (2 ^ 12) with 4096. change (2 ^ 22) with 4194304. word.
Qed.

Lemma P2V_eq a : 0 <= a < KERNBASE -> P2V a = a + KERNBASE.
Proof. intros. unfold P2V, KERNBASE in *. apply u32_id. word. Qed.

Lemma V2P_eq a : KERNBASE <= a < 2 ^ 32 -> V2P a = a - KERNBASE.
Proof. intros. unfold V2P, KERNBASE in *. rewrite !u32_id; word. Qed.
