(* ===== verification/CString.v ===== *)
(** * Memory and string routines (src/string.c, src/ulib.c)

    Routines that write through pointers that may alias ([memset], [memmove])
    work on the byte memory of Layout.  A [const char *] that is only read
    forwards is the list of the bytes from the pointer to the end of the object
    it points into; running off the end of that list is [None]. *)

From Stdlib Require Import Ascii String.
From S2P Require Import Prelude Layout.

(** The characters of a string literal, without the NUL. *)
Definition literal (s : string) : list Z := (fun a => Z.of_nat (nat_of_ascii a)) <$> list_ascii_of_string s.

(** ** x86 string stores (src/x86.h) *)

Fixpoint stosb (m : mem) (addr data : Z) (cnt : nat) : mem :=
  match cnt with
  | O => m
  | S cnt' => stosb (wr m addr data) (addr + 1) data cnt'
  end.

Fixpoint stosl (m : mem) (addr data : Z) (cnt : nat) : mem :=
  match cnt with
  | O => m
  | S cnt' => stosl (wr32 m addr data) (addr + 4) data cnt'
  end.

(** ** src/string.c *)

Definition memset (m : mem) (dst c n : Z) : mem :=
  if (dst mod 4 =? 0) && (n mod 4 =? 0) then
    let c := Z.land c 0xFF in
    stosl m dst
      (Z.lor (Z.lor (Z.lor (Z.shiftl c 24) (Z.shiftl c 16)) (Z.shiftl c 8)) c)
      (Z.to_nat (n / 4))
  else stosb m dst c (Z.to_nat n).

Fixpoint memcmp (s1 s2 : list Z) (n : nat) {struct n} : option Z :=
  match n with
  | O => Some 0
  | S n' =>
    match s1, s2 with
    | a :: s1', b :: s2' => if a =? b then memcmp s1' s2' n' else Some (a - b)
    | _, _ => None
    end
  end.

(** [while(n-- > 0) *d++ = *s++] and [while(n-- > 0) *--d = *--s]. *)
Fixpoint copy_up (m : mem) (d s : Z) (n : nat) : mem :=
  match n with
  | O => m
  | S n' => copy_up (wr m d (rd m s)) (d + 1) (s + 1) n'
  end.

Fixpoint copy_down (m : mem) (d s : Z) (n : nat) : mem :=
  match n with
  | O => m
  | S n' => copy_down (wr m (d - 1) (rd m (s - 1))) (d - 1) (s - 1) n'
  end.

Definition memmove (m : mem) (dst src n : Z) : mem :=
  if (src <? dst) && (src + n >? dst)
  then copy_down m (dst + n) (src + n) (Z.to_nat n)
  else copy_up m dst src (Z.to_nat n).

Definition memcpy (m : mem) (dst src n : Z) : mem := memmove m dst src n.

Fixpoint strncmp (p q : list Z) (n : nat) {struct n} : option Z :=
  match n with
  | O => Some 0
  | S n' =>
    match p, q with
    | a :: p', b :: q' =>
      if negb (a =? 0) && (a =? b) then strncmp p' q' n' else Some (a - b)
    | _, _ => None
    end
  end.

(** The copying loop of [strncpy] and [safestrcpy]: the bytes written and what
    is left of the count after the loop's exit. *)
Fixpoint copy_str (t : list Z) (n : nat) {struct n} : option (list Z * nat) :=
  match n with
  | O => Some ([], O)
  | S n' =>
    match t with
    | [] => None
    | a :: t' =>
      if a =? 0 then Some ([a], n')
      else '(w, k) ← copy_str t' n'; Some (a :: w, k)
    end
  end.

(** What [strncpy(s, t, n)] writes at [s]: the string, then zeroes. *)
Definition strncpy (t : list Z) (n : Z) : option (list Z) :=
  '(w, k) ← copy_str t (Z.to_nat n); Some (w ++ replicate k 0).

(** What [safestrcpy(s, t, n)] writes at [s]. *)
Definition safestrcpy (t : list Z) (n : Z) : option (list Z) :=
  if n <=? 0 then Some []
  else '(w, _) ← copy_str t (Z.to_nat (n - 1)); Some (w ++ [0]).

Fixpoint strlen (s : list Z) : option Z :=
  match s with
  | [] => None
  | a :: s' => if a =? 0 then Some 0 else (Z.add 1) <$> strlen s'
  end.

(** ** src/ulib.c *)

Fixpoint strcmp (p q : list Z) : option Z :=
  match p, q with
  | a :: p', b :: q' =>
    if negb (a =? 0) && (a =? b) then strcmp p' q' else Some (a - b)
  | _, _ => None
  end.

(** What [strcpy(s, t)] writes at [s]. *)
Fixpoint strcpy (t : list Z) : option (list Z) :=
  match t with
  | [] => None
  | a :: t' => if a =? 0 then Some [a] else (cons a) <$> strcpy t'
  end.

(** The offset of the first [c] in [s]; [Some None] is the null pointer. *)
Fixpoint strchr (s : list Z) (c : Z) : option (option Z) :=
  match s with
  | [] => None
  | a :: s' =>
    if a =? 0 then Some None
    else if a =? c then Some (Some 0)
    else option_map (option_map (Z.add 1)) (strchr s' c)
  end.

Fixpoint atoi_loop (s : list Z) (n : Z) : option Z :=
  match s with
  | [] => None
  | a :: s' =>
    if (48 <=? a) && (a <=? 57) then atoi_loop s' (i32 (n * 10 + a - 48)) else Some n
  end.
Definition atoi (s : list Z) : option Z := atoi_loop s 0.

Definition umemset (m : mem) (dst c n : Z) : mem := stosb m dst c (Z.to_nat n).
Definition umemmove (m : mem) (vdst vsrc n : Z) : mem := copy_up m vdst vsrc (Z.to_nat n).

(** ** Lemmas *)

Lemma stosb_spec n m addr c a :
  rd (stosb m addr c n) a =
  if decide (addr <= a < addr + Z.of_nat n) then u8 c else rd m a.
Proof.
  revert m addr. induction n as [|n IH]; intros m addr; cbn [stosb].
  { by rewrite decide_False by lia. }
  rewrite IH, rd_wr. repeat case_decide; try lia; done.
Qed.

Lemma mem_ok_stosb n m addr c : mem_ok m -> mem_ok (stosb m addr c n).
Proof. revert m addr. induction n; cbn [stosb]; eauto with word. Qed.

Lemma rd_wr32 m a v b :
  rd (wr32 m a v) b =
  if decide (a <= b < a + 4) then u8 (v / 2 ^ (8 * (b - a))) else rd m b.
Proof.
  case_decide; [|apply rd_wr32_ne; lia].
  assert (b = a \/ b = a + 1 \/ b = a + 2 \/ b = a + 3) as [->|[->|[->| ->]]] by lia.
  all: unfold wr32.
  - rewrite !rd_wr_ne, rd_wr_eq, Z.sub_diag by lia. by rewrite Z.div_1_r.
  - rewrite !(rd_wr_ne _ (_ + _)), rd_wr_eq by lia. by replace (a + 1 - a) with 1 by lia.
  - rewrite !(rd_wr_ne _ (a + 3)), rd_wr_eq by lia. by replace (a + 2 - a) with 2 by lia.
  - rewrite rd_wr_eq. by replace (a + 3 - a) with 3 by lia.
Qed.

(** Each byte of the word [memset] stores is the byte to set. *)
Lemma fill_word_bytes c k : 0 <= k < 4 -> byte_ok c ->
  u8 (Z.lor (Z.lor (Z.lor (Z.shiftl c 24) (Z.shiftl c 16)) (Z.shiftl c 8)) c / 2 ^ (8 * k)) = c.
Proof.
  intros Hk Hc. rewrite <- Z.shiftr_div_pow2 by lia. unfold u8.
  rewrite <- Z.land_ones by lia. apply Z.bits_inj'. intros n Hn.
  rewrite Z.land_spec, Z.testbit_ones_nonneg, Z.shiftr_spec, !Z.lor_spec by lia.
  rewrite !Z.shiftl_spec by lia.
  assert (Hout : forall i, i < 0 \/ 8 <= i -> Z.testbit c i = false).
  { intros i [Hi|Hi]; [by apply Z.testbit_neg_r|].
    replace c with (c mod 2 ^ 8) by (apply Z.mod_small; apply Hc).
    by apply Z.mod_pow2_bits_high; lia. }
  destruct (Z.ltb_spec n 8) as [Hlt|Hge].
  2:{ by rewrite andb_false_r, Hout by lia. }
  rewrite andb_true_r.
  assert (k = 0 \/ k = 1 \/ k = 2 \/ k = 3) as [->|[->|[->| ->]]] by lia.
  all: rewrite ?(Hout (n + 8 * _)) by lia.
  - rewrite !(Hout (_ - _)) by lia. cbn. f_equal; lia.
  - rewrite (Hout (n + 8 * 1 - 24)), (Hout (n + 8 * 1 - 16)) by lia.
    rewrite orb_false_r. cbn. f_equal; lia.
  - rewrite (Hout (n + 8 * 2 - 24)), (Hout (n + 8 * 2 - 8)) by lia.
    rewrite !orb_false_r. cbn. f_equal; lia.
  - rewrite (Hout (n + 8 * 3 - 16)), (Hout (n + 8 * 3 - 8)) by lia.
    rewrite !orb_false_r. f_equal; lia.
Qed.

Lemma stosl_spec n m addr v c a :
  (forall k, 0 <= k < 4 -> u8 (v / 2 ^ (8 * k)) = c) ->
  rd (stosl m addr v n) a =
  if decide (addr <= a < addr + 4 * Z.of_nat n) then c else rd m a.
Proof.
  intros Hv. revert m addr. induction n as [|n IH]; intros m addr; cbn [stosl].
  { by rewrite decide_False by lia. }
  rewrite IH, rd_wr32. repeat case_decide; try lia; try done. apply Hv. lia.
Qed.

(** The word-at-a-time and the byte-at-a-time path of [memset] do the same. *)
Lemma rd_memset m dst c n a : 0 <= n ->
  rd (memset m dst c n) a = if decide (dst <= a < dst + n) then u8 c else rd m a.
Proof.
  intros Hn. unfold memset. destruct (_ && _) eqn:E.
  - apply andb_true_iff in E as [_ E]. apply Z.eqb_eq in E.
    rewrite (stosl_spec _ _ _ _ (u8 c)).
    { rewrite Z2Nat.id by word. replace (4 * (n / 4)) with n by word. done. }
    intros k Hk. change 0xFF with (2 ^ 8 - 1). rewrite land_ones_mod by lia.
    apply fill_word_bytes; [done|apply u8_range].
  - rewrite stosb_spec, Z2Nat.id by done. done.
Qed.

Lemma mem_ok_memset m dst c n : 0 <= n -> mem_ok m -> mem_ok (memset m dst c n).
Proof. intros Hn Hm a. rewrite rd_memset by done. case_decide; [apply u8_range|apply Hm]. Qed.

Lemma rd_copy_up n m d s a : mem_ok m -> d <= s \/ s + Z.of_nat n <= d ->
  rd (copy_up m d s n) a =
  if decide (d <= a < d + Z.of_nat n) then rd m (s + (a - d)) else rd m a.
Proof.
  intros Hm Hov. revert m d s Hm Hov. induction n as [|n IH]; intros m d s Hm Hov; cbn [copy_up].
  { by rewrite decide_False by lia. }
  rewrite IH by (eauto with word || lia). rewrite !rd_wr.
  repeat case_decide; try lia; try done.
  - f_equal; lia.
  - rewrite u8_id by apply Hm. f_equal; lia.
Qed.

Lemma rd_copy_down n m d s a : mem_ok m -> s <= d \/ d <= s - Z.of_nat n ->
  rd (copy_down m d s n) a =
  if decide (d - Z.of_nat n <= a < d) then rd m (s + (a - d)) else rd m a.
Proof.
  intros Hm Hov. revert m d s Hm Hov. induction n as [|n IH]; intros m d s Hm Hov; cbn [copy_down].
  { by rewrite decide_False by lia. }
  rewrite IH by (eauto with word || lia). rewrite !rd_wr.
  repeat case_decide; try lia; try done.
  - f_equal; lia.
  - rewrite u8_id by apply Hm. f_equal; lia.
Qed.

Lemma rd_memmove m dst src n a : mem_ok m -> 0 <= n ->
  rd (memmove m dst src n) a =
  if decide (dst <= a < dst + n) then rd m (src + (a - dst)) else rd m a.
Proof.
  intros Hm Hn. unfold memmove. destruct (_ && _) eqn:E.
  - rewrite rd_copy_down, Z2Nat.id by (done || lia).
    repeat case_decide; try lia; try done. f_equal; lia.
  - rewrite rd_copy_up, Z2Nat.id by (done || lia). done.
Qed.

Lemma mem_ok_memmove m dst src n : 0 <= n -> mem_ok m -> mem_ok (memmove m dst src n).
Proof. intros Hn Hm a. rewrite rd_memmove by done. case_decide; apply Hm. Qed.

#[export] Hint Resolve mem_ok_stosb mem_ok_memset mem_ok_memmove : word.

(** ** C strings bounded by a count *)

(** The characters of [l] before its first NUL, [n] at most. *)
Fixpoint cprefix (n : nat) (l : list Z) : list Z :=
  match n, l with
  | S n', a :: l' => if a =? 0 then [] else a :: cprefix n' l'
  | _, _ => []
  end.

Lemma strncmp_refl_copy t n w k : copy_str t n = Some (w, k) ->
  strncmp t (w ++ replicate k 0) n = Some 0 /\ length (w ++ replicate k 0) = n /\
  cprefix n (w ++ replicate k 0) = cprefix n t.
Proof.
  revert t w k. induction n as [|n IH]; intros t w k H.
  { cbn in H. by simplify_eq/=. }
  destruct t as [|a t]; cbn in H; [done|].
  destruct (Z.eqb_spec a 0) as [->|Hne].
  - simplify_eq/=. by rewrite length_replicate.
  - destruct (copy_str t n) as [[w' k']|] eqn:E; cbn in H; [|done].
    simplify_eq/=. destruct (IH _ _ _ E) as (IH1 & IH2 & IH3).
    apply Z.eqb_neq in Hne. by rewrite Hne, Z.eqb_refl, IH1, IH2, IH3.
Qed.

Lemma copy_str_defined t n : (n <= length t)%nat \/ 0 ∈ t -> is_Some (copy_str t n).
Proof.
  revert t. induction n as [|n IH]; intros t H; [by eexists|].
  destruct t as [|a t]; cbn.
  { destruct H as [H|H]; [cbn in H; lia|set_solver]. }
  destruct (Z.eqb_spec a 0) as [->|Hne]; [by eexists|].
  destruct (IH t) as [[w k] ->]; [|by eexists].
  destruct H as [H|H]; [left; cbn in H; lia|right; set_solver].
Qed.

Lemma strncmp_zero_iff p q n r :
  strncmp p q n = Some r -> (r = 0 <-> cprefix n p = cprefix n q).
Proof.
  revert p q. induction n as [|n IH]; intros p q H; [cbn in H; naive_solver|].
  destruct p as [|a p], q as [|b q]; try done. cbn in *.
  destruct (Z.eqb_spec a 0) as [->|Ha]; cbn in *.
  { injection H as <-. destruct (Z.eqb_spec b 0); split; lia || congruence. }
  destruct (Z.eqb_spec a b) as [->|Hab]; cbn in *.
  - rewrite (IH _ _ H). apply Z.eqb_neq in Ha. rewrite Ha. split; congruence.
  - injection H as <-. destruct (Z.eqb_spec b 0); split; lia || congruence.
Qed.

(** [memmove] (src/string.c) copies [n] bytes as if through a temporary:
    afterwards byte [dst + i] holds what [src + i] held before, for every
    overlap of the two ranges, and every other byte is unchanged. *)
Theorem memmove_spec (m : mem) (dst src n a : Z) :
  mem_ok m -> 0 <= n ->
  rd (memmove m dst src n) a =
  if decide (dst <= a < dst + n) then rd m (src + (a - dst)) else rd m a.
Proof. apply rd_memmove. Qed.

Lemma memmove_spec_witness :
  let m := list_to_map [(10, 1); (11, 2); (12, 3); (13, 4)] : mem in
  rd (memmove m 11 10 3) 13 = 3.
Proof.
  cbv zeta. rewrite (memmove_spec _ 11 10 3 13).
  - reflexivity.
  - intros a. unfold rd. destruct (_ !! a) as [v|] eqn:E; cbn; [|word].
    apply elem_of_list_to_map_2 in E. set_unfold in E. word_unfold. naive_solver lia.
  - lia.
Defined.

(** [memset]'s word-at-a-time path, taken for an aligned destination and
    length, leaves the same memory as a byte-at-a-time store. *)
Theorem memset_paths_agree (m : mem) (dst c n a : Z) :
  0 <= n -> rd (memset m dst c n) a = rd (stosb m dst c (Z.to_nat n)) a.
Proof. intros Hn. by rewrite rd_memset, stosb_spec, Z2Nat.id by done. Qed.

Lemma memset_paths_agree_witness :
  rd (memset ∅ 8 0x1A7 8) 13 = rd (stosb ∅ 8 0x1A7 8) 13 /\ rd (memset ∅ 8 0x1A7 8) 13 = 0xA7.
Proof. split; [by apply (memset_paths_agree ∅ 8 0x1A7 8 13)|reflexivity]. Defined.

(** A directory entry's name written with [strncpy(de.name, name, n)] fills
    the field exactly, and [strncmp] against it matches a name precisely when
    both have the same first [n] characters; in particular the name matches
    its own entry. *)
Theorem strncpy_strncmp (name w other : list Z) (n r : Z) :
  strncpy name n = Some w -> 0 <= n ->
  Z.of_nat (length w) = n /\ strncmp name w (Z.to_nat n) = Some 0 /\
  (strncmp other w (Z.to_nat n) = Some r ->
   (r = 0 <-> cprefix (Z.to_nat n) other = cprefix (Z.to_nat n) name)).
Proof.
  intros H Hn. unfold strncpy in H.
  destruct (copy_str name (Z.to_nat n)) as [[w' k]|] eqn:E; cbn in H; [|done].
  simplify_eq/=. destruct (strncmp_refl_copy _ _ _ _ E) as (H1 & H2 & H3).
  split; [lia|]. split; [done|]. intros Hr. by rewrite (strncmp_zero_iff _ _ _ _ Hr), H3.
Qed.

Lemma strncpy_strncmp_witness :
  strncmp [97; 98; 0] [97; 98; 0; 0; 0] 5 = Some 0.
Proof. apply (strncpy_strncmp [97; 98; 0] [97; 98; 0; 0; 0] [97; 0] 5 0); reflexivity || lia. Defined.
