(* ===== verification/Spinlock.v ===== *)
(** * Spin locks (src/spinlock.c)

    [Cli] models [pushcli]/[popcli] on one CPU.  [Spin] is the detailed model
    of [acquire]/[release] on several CPUs, with the atomic [xchg] and the
    stores around it as separate steps of a transition system.  [Locks] is the
    abstract contract the rest of the kernel is modelled against (a CPU holds a
    set of locks, a lock has at most one holder); the detailed model refines it. *)

From stdpp Require Import functions.
From S2P Require Import Prelude Layout.

(** ** Interrupt nesting: struct cpu's [ncli] and [intena] *)

Module Cli.

Record cpu := Cpu {
  ncli : Z;        (* depth of pushcli nesting *)
  intena : bool;   (* were interrupts enabled before pushcli? *)
  iflag : bool;    (* the CPU's FL_IF *)
}.

Definition pushcli (c : cpu) : cpu :=
  let eflags := iflag c in
  {| ncli := ncli c + 1;
     intena := if ncli c =? 0 then eflags else intena c;
     iflag := false |}.

Definition popcli (c : cpu) : string + cpu :=
  if iflag c then inl "popcli - interruptible"%string
  else
    let n := ncli c - 1 in
    if n <? 0 then inl "popcli"%string
    else inr {| ncli := n; intena := intena c;
                iflag := if (n =? 0) && intena c then true else iflag c |}.

(** [mycpu()]: panics with interrupts enabled, else finds the entry of
    [cpus[]] with this CPU's APIC id. *)
Fixpoint find_apic (apicids : list Z) (apicid : Z) (i : nat) : option nat :=
  match apicids with
  | [] => None
  | a :: l => if a =? apicid then Some i else find_apic l apicid (S i)
  end.

Definition mycpu (apicids : list Z) (lapicid : Z) (c : cpu) : string + nat :=
  if iflag c then inl "mycpu called with interrupts enabled"%string
  else match find_apic apicids lapicid 0 with
       | Some i => inr i
       | None => inl "unknown apicid"%string
       end.

(** [k] nested [pushcli]s, and [k] [popcli]s. *)
Fixpoint pushes (k : nat) (c : cpu) : cpu :=
  match k with O => c | S k' => pushes k' (pushcli c) end.
Fixpoint pops (k : nat) (c : cpu) : string + cpu :=
  match k with
  | O => inr c
  | S k' => match popcli c with inl e => inl e | inr c' => pops k' c' end
  end.

(** What holds between calls: a CPU inside a [pushcli] has interrupts off. *)
Definition cpu_ok (c : cpu) : Prop := 0 <= ncli c /\ (0 < ncli c -> iflag c = false).

Lemma pushcli_ok c : cpu_ok c -> cpu_ok (pushcli c).
Proof. unfold cpu_ok. cbn. intuition lia. Qed.

Lemma pushcli_pos c : cpu_ok c -> 0 < ncli (pushcli c).
Proof. unfold cpu_ok. cbn. lia. Qed.

Lemma popcli_pos c : cpu_ok c -> 1 < ncli c ->
  popcli c = inr (Cpu (ncli c - 1) (intena c) false).
Proof.
  intros [_ H] Hn. unfold popcli. rewrite H by lia.
  rewrite (proj2 (Z.ltb_ge _ _)), (proj2 (Z.eqb_neq _ _)) by lia. done.
Qed.

Lemma popcli_pushcli c : cpu_ok c -> exists c', popcli (pushcli c) = inr c' /\
  ncli c' = ncli c /\ iflag c' = iflag c /\ (0 < ncli c -> intena c' = intena c).
Proof.
  intros [H0 H]. unfold popcli, pushcli. cbn.
  replace (ncli c + 1 - 1) with (ncli c) by lia.
  rewrite (proj2 (Z.ltb_ge _ _)) by lia. eexists. split; [done|]. cbn.
  destruct (Z.eqb_spec (ncli c) 0) as [E|E]; cbn.
  - destruct (iflag c) eqn:Ef; repeat split; lia.
  - rewrite H by lia. done.
Qed.

Lemma pushes_eq k c : (0 < k)%nat -> 0 <= ncli c -> pushes k c =
  Cpu (ncli c + Z.of_nat k) (if ncli c =? 0 then iflag c else intena c) false.
Proof.
  revert c. induction k as [|k IH]; intros c Hk Hc; [lia|]. cbn [pushes].
  destruct k as [|k].
  { cbn [pushes]. unfold pushcli. do 2 f_equal. }
  rewrite IH by (cbn; lia). cbn [ncli intena iflag pushcli].
  rewrite (proj2 (Z.eqb_neq (ncli c + 1) 0)) by lia. f_equal. lia.
Qed.

Lemma pops_inside k n i : Z.of_nat k < n -> pops k (Cpu n i false) = inr (Cpu (n - Z.of_nat k) i false).
Proof.
  revert n. induction k as [|k IH]; intros n Hn; cbn [pops].
  { do 2 f_equal. lia. }
  rewrite popcli_pos by (unfold cpu_ok; cbn; lia || done). cbn [ncli intena].
  rewrite IH by lia. do 2 f_equal. lia.
Qed.

Lemma pops_snoc k c : pops (S k) c =
  match pops k c with inl e => inl e | inr c' => popcli c' end.
Proof.
  revert c. induction k as [|k IH]; intros c.
  { cbn. by destruct (popcli c). }
  cbn [pops] in *. destruct (popcli c) as [e|c']; [done|]. rewrite <- IH. done.
Qed.

(** [pushcli]/[popcli] nest: after [k] pushes it takes [k] pops to get
    back, with interrupts off until the last of them and then exactly as they
    were before the first push, whatever their setting and the depth were. *)
Theorem cli_nesting (c : cpu) (k : nat) :
  cpu_ok c ->
  (forall j, (j < k)%nat -> exists c1, pops j (pushes k c) = inr c1 /\ iflag c1 = false) /\
  exists c2, pops k (pushes k c) = inr c2 /\ ncli c2 = ncli c /\ iflag c2 = iflag c.
Proof.
  intros [H0 H1]. destruct (decide (k = O)) as [->|Hk].
  { split; [lia|]. by exists c. }
  rewrite pushes_eq by lia. split.
  - intros j Hj. rewrite pops_inside by lia. by eexists.
  - destruct k as [|k]; [lia|]. rewrite pops_snoc, pops_inside by lia. unfold popcli. cbn.
    rewrite (proj2 (Z.ltb_ge _ _)) by lia. eexists. split; [done|]. cbn.
    split; [lia|]. destruct (Z.eqb_spec (ncli c) 0) as [E|E].
    + replace (_ =? 0) with true by (symmetry; apply Z.eqb_eq; lia). by destruct (iflag c).
    + replace (_ =? 0) with false by (symmetry; apply Z.eqb_neq; lia). by rewrite H1 by lia.
Qed.

Lemma cli_nesting_witness :
  exists c2, pops 3 (pushes 3 (Cpu 0 false true)) = inr c2 /\ ncli c2 = 0 /\ iflag c2 = true.
Proof. apply (cli_nesting (Cpu 0 false true) 3). split; cbn; lia || done. Defined.

End Cli.

(** ** The abstract contract *)

Module Locks.

(** [owner !! lk] is the CPU that holds [lk]. *)
Inductive event := Acquired (i : nat) (lk : lockid) | Released (i : nat) (lk : lockid).

Inductive step : gmap lockid nat -> event -> gmap lockid nat -> Prop :=
  | step_acquired o i lk : o !! lk = None -> step o (Acquired i lk) (<[lk := i]> o)
  | step_released o i lk : o !! lk = Some i -> step o (Released i lk) (delete lk o).

Inductive steps : gmap lockid nat -> list event -> gmap lockid nat -> Prop :=
  | steps_nil o : steps o [] o
  | steps_snoc o l o' e o'' : steps o l o' -> step o' e o'' -> steps o (l ++ [e]) o''.

End Locks.

(** ** [acquire] and [release] as kernel computations

    On one CPU, by the contract above: taking a lock this CPU already holds
    panics, and so does releasing one it does not hold. *)

Section kernel.
Context {S : Type}.

Definition holding (lk : lockid) : M S bool :=
  c ← ask; mret (bool_decide (lk ∈ held c)).

Definition acquire (lk : lockid) : M S unit :=
  h ← holding lk;
  if h : bool then panic "acquire"
  else c ← ask; set_held ({[lk]} ∪ held c).

Definition release (lk : lockid) : M S unit :=
  h ← holding lk;
  if h : bool then c ← ask; set_held (held c ∖ {[lk]})
  else panic "release".

Lemma acquire_eq lk c (s : S) : lk ∉ held c ->
  acquire lk c s = Done tt (Ctx ({[lk]} ∪ held c) (cur c)) s.
Proof.
  intros. unfold acquire, holding, mbind, M_bind, ask, mret, M_ret.
  by rewrite bool_decide_eq_false_2.
Qed.

Lemma acquire_held lk c (s : S) : lk ∈ held c -> acquire lk c s = Panic "acquire".
Proof.
  intros. unfold acquire, holding, mbind, M_bind, ask, mret, M_ret.
  by rewrite bool_decide_eq_true_2.
Qed.

Lemma release_eq lk c (s : S) : lk ∈ held c ->
  release lk c s = Done tt (Ctx (held c ∖ {[lk]}) (cur c)) s.
Proof.
  intros. unfold release, holding, mbind, M_bind, ask, mret, M_ret.
  by rewrite bool_decide_eq_true_2.
Qed.

(** Releasing the lock taken last gives back the context it was taken in. *)
Lemma release_acquired lk h p (s : S) : lk ∉ h ->
  release lk (Ctx ({[lk]} ∪ h) p) s = Done tt (Ctx h p) s.
Proof.
  intros. rewrite release_eq by (cbn; set_solver). cbn.
  by replace (({[lk]} ∪ h) ∖ {[lk]}) with h by set_solver.
Qed.

(** What runs between an [acquire] and the matching [release]. *)
Lemma bind_acquire {B} lk (k : unit -> M S B) c s : lk ∉ held c ->
  (acquire lk ≫= k) c s = k tt (Ctx ({[lk]} ∪ held c) (cur c)) s.
Proof. intros. apply bind_Done. by apply acquire_eq. Qed.

Lemma bind_release {B} lk (k : unit -> M S B) c s : lk ∉ held c ->
  (release lk ≫= k) (Ctx ({[lk]} ∪ held c) (cur c)) s = k tt c s.
Proof. intros. apply bind_Done. rewrite release_acquired by done. by rewrite ctx_eta. Qed.

Lemma bind_holding {B} lk (k : bool -> M S B) c s :
  (holding lk ≫= k) c s = k (bool_decide (lk ∈ held c)) c s.
Proof. done. Qed.

Lemma wp_acquire lk Q c (s : S) : lk ∉ held c ->
  Q tt (Ctx ({[lk]} ∪ held c) (cur c)) s -> wp (acquire lk) Q c s.
Proof. intros. unfold wp. by rewrite acquire_eq. Qed.

Lemma wp_release lk Q h p (s : S) : lk ∉ h ->
  Q tt (Ctx h p) s -> wp (release lk) Q (Ctx ({[lk]} ∪ h) p) s.
Proof. intros. unfold wp. by rewrite release_acquired. Qed.
End kernel.

(** ** The detailed model: several CPUs, one memory operation at a time *)

Module Spin.
Import Cli Locks.

Record spinlock := SpinLock { locked : Z; lcpu : option nat }.

Definition initlock : spinlock := SpinLock 0 None.

(** Where a CPU is inside [acquire] or [release]. *)
Inductive pc :=
  | Idle                       (* in neither *)
  | Spinning (lk : lockid)     (* at [while(xchg(&lk->locked, 1) != 0)] *)
  | Taken (lk : lockid)        (* [xchg] returned 0, [lk->cpu] not yet set *)
  | Releasing (lk : lockid).   (* [lk->cpu] cleared, [lk->locked] not yet *)

(** [own] is a ghost: the locks whose [xchg] this CPU won and whose final
    store of [release] it has not done. *)
Record core := Core { cc : cpu; at_pc : pc; own : gset lockid }.

Record mach := Mach { lks : lockid -> spinlock; cores : nat -> core }.

Definition init : mach :=
  {| lks := fun _ => initlock;
     cores := fun _ => Core (Cpu 0 false false) Idle ∅ |}.

(** [lock->locked && lock->cpu == mycpu()] *)
Definition holding (st : mach) (i : nat) (lk : lockid) : bool :=
  negb (locked (lks st lk) =? 0) && bool_decide (lcpu (lks st lk) = Some i).

(** The atomic exchange of [lk->locked] with 1. *)
Definition xchg (l : spinlock) : Z * spinlock := (locked l, SpinLock 1 (lcpu l)).

Definition set_core (i : nat) (k : core) (st : mach) : mach :=
  Mach (lks st) (<[i := k]> (cores st)).
Definition set_lock (lk : lockid) (l : spinlock) (st : mach) : mach :=
  Mach (<[lk := l]> (lks st)) (cores st).

Inductive step : mach -> option event -> mach -> Prop :=
  | step_acquire st i lk :
      at_pc (cores st i) = Idle -> holding st i lk = false ->
      step st None
        (set_core i (Core (pushcli (cc (cores st i))) (Spinning lk) (own (cores st i))) st)
  | step_busy st i lk r l :
      at_pc (cores st i) = Spinning lk -> xchg (lks st lk) = (r, l) -> r <> 0 ->
      step st None (set_lock lk l st)
  | step_taken st i lk r l :
      at_pc (cores st i) = Spinning lk -> xchg (lks st lk) = (r, l) -> r = 0 ->
      step st (Some (Acquired i lk))
        (set_core i (Core (cc (cores st i)) (Taken lk) ({[lk]} ∪ own (cores st i)))
           (set_lock lk l st))
  | step_record st i lk :
      at_pc (cores st i) = Taken lk ->
      step st None
        (set_core i (Core (cc (cores st i)) Idle (own (cores st i)))
           (set_lock lk (SpinLock (locked (lks st lk)) (Some i)) st))
  | step_release st i lk :
      at_pc (cores st i) = Idle -> holding st i lk = true ->
      step st None
        (set_core i (Core (cc (cores st i)) (Releasing lk) (own (cores st i)))
           (set_lock lk (SpinLock (locked (lks st lk)) None) st))
  | step_released st i lk c' :
      at_pc (cores st i) = Releasing lk -> popcli (cc (cores st i)) = inr c' ->
      step st (Some (Released i lk))
        (set_core i (Core c' Idle (own (cores st i) ∖ {[lk]}))
           (set_lock lk (SpinLock 0 (lcpu (lks st lk))) st))
  | step_intr st i b :
      at_pc (cores st i) = Idle -> ncli (cc (cores st i)) = 0 ->
      step st None
        (set_core i (Core (Cpu 0 (intena (cc (cores st i))) b) Idle (own (cores st i))) st).

(** Executions and the acquisitions and releases they perform. *)
Inductive exec : list event -> mach -> Prop :=
  | exec_init : exec [] init
  | exec_silent l st st' : exec l st -> step st None st' -> exec l st'
  | exec_event l st e st' : exec l st -> step st (Some e) st' -> exec (l ++ [e]) st'.

Definition spins (p : pc) : Z := match p with Spinning _ => 1 | _ => 0 end.

Record inv (st : mach) : Prop := Inv {
  inv_ncli : forall i, cpu_ok (cc (cores st i)) /\
    ncli (cc (cores st i)) = Z.of_nat (size (own (cores st i))) + spins (at_pc (cores st i));
  inv_own : forall i lk, lk ∈ own (cores st i) ->
    locked (lks st lk) = 1 /\ forall j, lk ∈ own (cores st j) -> j = i;
  inv_lcpu : forall i lk, lcpu (lks st lk) = Some i -> lk ∈ own (cores st i);
  inv_pc : forall i lk, at_pc (cores st i) = Taken lk \/ at_pc (cores st i) = Releasing lk ->
    lk ∈ own (cores st i) /\ lcpu (lks st lk) = None;
}.

Lemma inv_init : inv init.
Proof.
  split; cbn.
  - intros i. split; [split; cbn; lia|]. by rewrite size_empty.
  - set_solver.
  - done.
  - naive_solver.
Qed.

(** Case analysis on which CPU and which lock a function update is about. *)
Ltac upd :=
  repeat match goal with
  | |- context [<[?i := _]> _ ?j] =>
    destruct (decide (i = j)) as [<-|?];
    [rewrite !fn_lookup_insert in * | rewrite !fn_lookup_insert_ne in * by done]
  | H : context [<[?i := _]> _ ?j] |- _ =>
    destruct (decide (i = j)) as [<-|?];
    [rewrite !fn_lookup_insert in * | rewrite !fn_lookup_insert_ne in * by done]
  end; cbn in *.

Section preservation.
Context (st : mach) (i : nat) (lk : lockid) (I : inv st).

Lemma unowned : locked (lks st lk) = 0 -> forall k, lk ∉ own (cores st k).
Proof. intros H k Hk. destruct (inv_own _ I _ _ Hk). lia. Qed.

Lemma inv_acquire : at_pc (cores st i) = Idle ->
  inv (set_core i (Core (pushcli (cc (cores st i))) (Spinning lk) (own (cores st i))) st).
Proof.
  intros Hpc. destruct I as [In Io Il Ip]. split; cbn.
  - intros j. upd; [|apply In]. destruct (In i) as [H1 H2]. rewrite Hpc in H2. cbn in H2.
    split; [by apply pushcli_ok|]. lia.
  - intros j lk' Hj. assert (Ho : lk' ∈ own (cores st j)) by (upd; done).
    destruct (Io _ _ Ho) as [? Hu]. split; [done|]. intros k Hk. apply Hu. upd; done.
  - intros j lk' Hj. upd; by apply Il.
  - intros j lk' Hj. upd; [naive_solver|by apply Ip].
Qed.

Lemma inv_busy : locked (lks st lk) <> 0 ->
  inv (set_lock lk (SpinLock 1 (lcpu (lks st lk))) st).
Proof.
  intros Hr. destruct I as [In Io Il Ip]. split; cbn.
  - apply In.
  - intros j lk' Hj. destruct (Io _ _ Hj). upd; done.
  - intros j lk' Hj. apply Il. upd; done.
  - intros j lk' Hj. destruct (Ip _ _ Hj). upd; done.
Qed.

Lemma inv_taken : at_pc (cores st i) = Spinning lk -> locked (lks st lk) = 0 ->
  inv (set_core i (Core (cc (cores st i)) (Taken lk) ({[lk]} ∪ own (cores st i)))
         (set_lock lk (SpinLock 1 (lcpu (lks st lk))) st)).
Proof.
  intros Hpc Hr. pose proof (unowned Hr) as Hf. destruct I as [In Io Il Ip]. split; cbn.
  - intros j. upd; [|apply In]. destruct (In i) as [H1 H2]. rewrite Hpc in H2. cbn in H2.
    split; [done|]. rewrite size_union, size_singleton by set_solver. lia.
  - intros j lk' Hj. destruct (decide (lk = lk')) as [<-|Hne].
    + rewrite fn_lookup_insert. split; [done|]. intros k Hk.
      assert (j = i) by (upd; naive_solver). upd; naive_solver.
    + rewrite fn_lookup_insert_ne by done.
      assert (Ho : lk' ∈ own (cores st j)) by (upd; set_solver).
      destruct (Io _ _ Ho) as [? Hu]. split; [done|]. intros k Hk. apply Hu. upd; set_solver.
  - intros j lk' Hj. assert (lcpu (lks st lk') = Some j) as Hl%Il by (upd; done).
    upd; set_solver.
  - intros j lk' Hj. destruct (decide (i = j)) as [<-|Hne].
    + rewrite fn_lookup_insert in *. cbn in *. destruct Hj as [[= <-]|]; [|done].
      rewrite fn_lookup_insert. cbn. split; [set_solver|].
      destruct (lcpu (lks st lk)) as [k|] eqn:El; [|done]. apply Il in El. by apply Hf in El.
    + rewrite fn_lookup_insert_ne in * by done. destruct (Ip _ _ Hj). upd; done.
Qed.

Lemma inv_record : at_pc (cores st i) = Taken lk ->
  inv (set_core i (Core (cc (cores st i)) Idle (own (cores st i)))
         (set_lock lk (SpinLock (locked (lks st lk)) (Some i)) st)).
Proof.
  intros Hpc. destruct I as [In Io Il Ip]. destruct (Ip i lk (or_introl Hpc)) as [Hi _].
  split; cbn.
  - intros j. upd; [|apply In]. destruct (In i) as [H1 H2]. by rewrite Hpc in H2.
  - intros j lk' Hj. assert (Ho : lk' ∈ own (cores st j)) by (upd; done).
    destruct (Io _ _ Ho) as [? Hu]. split; [upd; done|]. intros k Hk. apply Hu. upd; done.
  - intros j lk' Hj. upd; naive_solver.
  - intros j lk' Hj. destruct (decide (i = j)) as [<-|Hne].
    { rewrite fn_lookup_insert in Hj. naive_solver. }
    rewrite fn_lookup_insert_ne in * by done. destruct (Ip _ _ Hj) as [Ho ?].
    split; [done|]. upd; [|done]. by destruct (Io _ _ Ho) as [_ Hu], (Hne (Hu _ Hi)).
Qed.

Lemma inv_release : at_pc (cores st i) = Idle -> lcpu (lks st lk) = Some i ->
  inv (set_core i (Core (cc (cores st i)) (Releasing lk) (own (cores st i)))
         (set_lock lk (SpinLock (locked (lks st lk)) None) st)).
Proof.
  intros Hpc Hl. destruct I as [In Io Il Ip]. pose proof (Il _ _ Hl) as Hi. split; cbn.
  - intros j. upd; [|apply In]. destruct (In i) as [H1 H2]. by rewrite Hpc in H2.
  - intros j lk' Hj. assert (Ho : lk' ∈ own (cores st j)) by (upd; done).
    destruct (Io _ _ Ho) as [? Hu]. split; [upd; done|]. intros k Hk. apply Hu. upd; done.
  - intros j lk' Hj. upd; naive_solver.
  - intros j lk' Hj. destruct (decide (i = j)) as [<-|Hne].
    + rewrite fn_lookup_insert in *. cbn in *. destruct Hj as [|[= <-]]; [done|].
      by rewrite fn_lookup_insert.
    + rewrite fn_lookup_insert_ne in * by done. destruct (Ip _ _ Hj). upd; done.
Qed.

(** [release]'s [popcli] does not panic. *)
Lemma release_pops : at_pc (cores st i) = Releasing lk ->
  exists c', popcli (cc (cores st i)) = inr c' /\ cpu_ok c' /\
    ncli c' = ncli (cc (cores st i)) - 1.
Proof.
  intros Hpc. destruct I as [In Io Il Ip]. destruct (In i) as [[H0 H1] H2].
  destruct (Ip i lk (or_intror Hpc)) as [Hi _]. rewrite Hpc in H2. cbn in H2.
  assert (0 < ncli (cc (cores st i))).
  { pose proof (elem_of_size_pos _ _ Hi). lia. }
  unfold popcli. rewrite H1, (proj2 (Z.ltb_ge _ _)) by lia. eexists. split; [done|].
  unfold cpu_ok. cbn. repeat split; try lia.
  intros. by rewrite (proj2 (Z.eqb_neq _ _)) by lia.
Qed.

Lemma inv_released c' : at_pc (cores st i) = Releasing lk -> popcli (cc (cores st i)) = inr c' ->
  inv (set_core i (Core c' Idle (own (cores st i) ∖ {[lk]}))
         (set_lock lk (SpinLock 0 (lcpu (lks st lk))) st)).
Proof.
  intros Hpc Hpop. destruct (release_pops Hpc) as (c2 & Hc2 & Hok & Hn).
  rewrite Hpop in Hc2. injection Hc2 as <-.
  destruct I as [In Io Il Ip]. destruct (Ip i lk (or_intror Hpc)) as [Hi Hl]. split; cbn.
  - intros j. upd; [|apply In]. destruct (In i) as [H1 H2]. rewrite Hpc in H2. cbn in H2.
    split; [done|]. rewrite size_difference, size_singleton by set_solver.
    pose proof (elem_of_size_pos _ _ Hi). lia.
  - intros j lk' Hj. assert (Ho : lk' ∈ own (cores st j)) by (upd; set_solver).
    destruct (Io _ _ Ho) as [? Hu]. destruct (decide (lk = lk')) as [<-|Hne].
    { assert (i = j) as <- by by apply Hu. rewrite fn_lookup_insert in Hj. set_solver. }
    rewrite fn_lookup_insert_ne by done. split; [done|]. intros k Hk. apply Hu.
    upd; set_solver.
  - intros j lk' Hj. destruct (decide (lk = lk')) as [<-|Hne].
    { rewrite fn_lookup_insert in Hj. cbn in Hj. congruence. }
    rewrite fn_lookup_insert_ne in Hj by done. apply Il in Hj. upd; set_solver.
  - intros j lk' Hj. destruct (decide (i = j)) as [<-|Hne].
    { rewrite fn_lookup_insert in Hj. naive_solver. }
    rewrite fn_lookup_insert_ne in * by done. destruct (Ip _ _ Hj) as [Ho ?]. upd; done.
Qed.

Lemma inv_intr b : at_pc (cores st i) = Idle -> ncli (cc (cores st i)) = 0 ->
  inv (set_core i (Core (Cpu 0 (intena (cc (cores st i))) b) Idle (own (cores st i))) st).
Proof.
  intros Hpc Hn. destruct I as [In Io Il Ip]. split; cbn.
  - intros j. upd; [|apply In]. destruct (In i) as [H1 H2]. rewrite Hpc in H2. cbn in H2.
    split; [split; cbn; lia|lia].
  - intros j lk' Hj. assert (Ho : lk' ∈ own (cores st j)) by (upd; done).
    destruct (Io _ _ Ho) as [? Hu]. split; [done|]. intros k Hk. apply Hu. upd; done.
  - intros j lk' Hj. upd; by apply Il.
  - intros j lk' Hj. upd; [naive_solver|by apply Ip].
Qed.
End preservation.

Lemma holding_true st i lk : holding st i lk = true -> lcpu (lks st lk) = Some i.
Proof. unfold holding. rewrite andb_true_iff, bool_decide_eq_true. naive_solver. Qed.

Lemma step_inv st e st' : inv st -> step st e st' -> inv st'.
Proof.
  intros I Hstep. destruct Hstep; unfold xchg in *; simplify_eq;
    eauto using inv_acquire, inv_busy, inv_taken, inv_record, inv_release, inv_released,
      inv_intr, holding_true.
Qed.

Lemma exec_inv l st : exec l st -> inv st.
Proof. induction 1; eauto using inv_init, step_inv. Qed.

(** The abstract owner map of a machine state. *)
Definition abs (st : mach) (o : gmap lockid nat) : Prop :=
  forall lk i, o !! lk = Some i <-> lk ∈ own (cores st i).

Lemma abs_silent st st' o : abs st o -> step st None st' -> abs st' o.
Proof. intros Ha Hs lk i. rewrite (Ha lk i). inversion Hs; subst; cbn; upd; done. Qed.

Lemma abs_event st e st' o : inv st -> abs st o -> step st (Some e) st' ->
  exists o', Locks.step o e o' /\ abs st' o'.
Proof.
  intros I Ha Hs. inversion Hs as [| |? i lk r l Hpc Hx Hr| | |? i lk c' Hpc Hpop|]; subst.
  - injection Hx as Hx _. exists (<[lk := i]> o). split.
    + constructor. destruct (o !! lk) as [k|] eqn:E; [|done].
      apply Ha in E. by apply unowned in E.
    + intros lk' j. rewrite lookup_insert_Some, (Ha lk' j). cbn.
      assert (lk ∉ own (cores st j)) by by apply unowned.
      destruct (decide (lk = lk')) as [<-|]; upd; set_solver.
  - exists (delete lk o). destruct (inv_pc _ I i lk (or_intror Hpc)) as [Hi _]. split.
    + constructor. by apply Ha.
    + intros lk' j. rewrite lookup_delete_Some, (Ha lk' j). cbn.
      destruct (inv_own _ I _ _ Hi) as [_ Hu]. upd; [set_solver|].
      split; [naive_solver|]. intros Hj. split; [|done]. intros <-. by apply Hu in Hj.
Qed.

(** An execution in which CPU 0 wins a lock while CPU 1 spins on it. *)
Definition ex_lock : lockid := ("ptable"%string, 0).

Lemma ex_exec : exists st, exec [Acquired 0 ex_lock] st /\
  ex_lock ∈ own (cores st 0) /\ at_pc (cores st 1) = Spinning ex_lock.
Proof.
  eexists. split.
  - eapply (exec_event []).
    + eapply exec_silent.
      * eapply exec_silent; [apply exec_init|]. by apply (step_acquire _ 0 ex_lock).
      * by apply (step_acquire _ 1 ex_lock).
    + by eapply (step_taken _ 0 ex_lock).
  - cbn. split; [apply elem_of_union_l, elem_of_singleton_2|]; done.
Qed.

(** Mutual exclusion.  In every state several CPUs running the
    interleaved stores of [acquire] and [release] can reach, no lock is owned
    by two CPUs; a CPU that owns one has interrupts disabled and its [ncli] is
    the number of locks it owns (plus one while it spins); and a [release] in
    progress never panics in [popcli]. *)
Theorem spin_mutual_exclusion (l : list event) (st : mach) (i j : nat) (lk : lockid) :
  exec l st -> lk ∈ own (cores st i) ->
  (lk ∈ own (cores st j) -> j = i) /\
  iflag (cc (cores st i)) = false /\
  ncli (cc (cores st i)) = Z.of_nat (size (own (cores st i))) + spins (at_pc (cores st i)) /\
  (at_pc (cores st i) = Releasing lk -> exists c', popcli (cc (cores st i)) = inr c').
Proof.
  intros Hx Hi. pose proof (exec_inv _ _ Hx) as I.
  destruct (inv_own _ I _ _ Hi) as [_ Hu]. destruct (inv_ncli _ I i) as [[H0 H1] H2].
  split; [apply Hu|]. split.
  - apply H1. pose proof (elem_of_size_pos _ _ Hi). destruct (at_pc _); cbn in *; lia.
  - split; [done|]. intros Hpc. destruct (release_pops _ _ _ I Hpc) as (c' & ? & _). eauto.
Qed.

Lemma spin_mutual_exclusion_witness : exists st,
  exec [Acquired 0 ex_lock] st /\ iflag (cc (cores st 0)) = false.
Proof.
  destruct ex_exec as (st & Hx & Ho & _). exists st. split; [done|].
  apply (spin_mutual_exclusion [Acquired 0 ex_lock] st 0 1 ex_lock Hx Ho).
Defined.

(** C8: refinement.  Every execution of the detailed lock implementation
    performs a sequence of acquisitions and releases that the abstract
    contract allows, from no owner to the owners of the state reached. *)
Theorem spin_refines_locks (l : list event) (st : mach) :
  exec l st -> exists o, Locks.steps ∅ l o /\ abs st o.
Proof.
  induction 1 as [|l st st' Hx (o & Ho & Ha) Hs|l st e st' Hx (o & Ho & Ha) Hs].
  - exists ∅. split; [constructor|]. intros lk i. rewrite lookup_empty. set_solver.
  - eauto using abs_silent.
  - destruct (abs_event _ _ _ _ (exec_inv _ _ Hx) Ha Hs) as (o' & ? & ?).
    eexists. split; [by econstructor|done].
Qed.

Lemma spin_refines_locks_witness : exists st o,
  exec [Acquired 0 ex_lock] st /\ Locks.steps ∅ [Acquired 0 ex_lock] o /\ o !! ex_lock = Some 0%nat.
Proof.
  destruct ex_exec as (st & Hx & Hi & _).
  destruct (spin_refines_locks [Acquired 0 ex_lock] st Hx) as (o & Ho & Ha).
  exists st, o. split; [done|]. split; [done|]. by apply Ha.
Defined.

End Spin.
