(* ===== verification/Kalloc.v ===== *)
(** * Physical page allocator (src/kalloc.c)

    The free pages form a linked list threaded through the pages themselves:
    the first word of a free page is the address of the next one.  The model
    keeps that list in the byte memory; [free_list] relates it to the list of
    the pages on it. *)

From S2P Require Import Prelude Layout CString Spinlock.

Record kmem := Kmem { pm : mem; freelist : Z; use_lock : bool }.

Definition set_pm (f : mem -> mem) (s : kmem) : kmem := Kmem (f (pm s)) (freelist s) (use_lock s).
Definition set_freelist (p : Z) (s : kmem) : kmem := Kmem (pm s) p (use_lock s).
Definition set_use_lock (b : bool) (s : kmem) : kmem := Kmem (pm s) (freelist s) b.

Definition kmem_lock : lockid := ("kmem"%string, 0).

(** The pages that fit between an aligned [p] and [vend]. *)
Definition pages (p : Z) (n : nat) : list Z := (fun i => p + PGSIZE * i) <$> seqZ 0 (Z.of_nat n).

Lemma pages_S p n : pages p (S n) = p :: pages (p + PGSIZE) n.
Proof.
  unfold pages. rewrite seqZ_cons by lia. cbn. f_equal; [lia|].
  replace (Z.pred (Z.of_nat (S n))) with (Z.of_nat n) by lia.
  change (Z.succ 0) with 1. rewrite <- (fmap_add_seqZ 1 0), <- list_fmap_compose.
  apply list_fmap_ext. intros i x _. cbn. lia.
Qed.

Lemma elem_of_pages p n q : q ∈ pages p n <-> exists i, 0 <= i < Z.of_nat n /\ q = p + PGSIZE * i.
Proof.
  unfold pages. rewrite list_elem_of_fmap. setoid_rewrite elem_of_seqZ.
  split; intros (i & Hi); exists i; intuition lia.
Qed.

Lemma aligned_disjoint p q a : aligned p -> aligned q -> p <> q ->
  p <= a < p + PGSIZE -> ~ q <= a < q + PGSIZE.
Proof. intros. addr. Qed.

Section kalloc.
(** [end], the first address after the kernel image, is set by the linker. *)
Context (kend : Z).

Definition kfree (v : Z) : M kmem unit :=
  if negb (u32 v mod PGSIZE =? 0) || (v <? kend) || (V2P v >=? PHYSTOP)
  then panic "kfree"
  else
    modify (set_pm (fun m => memset m v 1 PGSIZE));;
    ul ← gets use_lock;
    when ul (acquire kmem_lock);;
    fl ← gets freelist;
    modify (set_pm (fun m => wr32 m v fl));;
    modify (set_freelist v);;
    ul ← gets use_lock;
    when ul (release kmem_lock).

Definition kalloc : M kmem Z :=
  ul ← gets use_lock;
  when ul (acquire kmem_lock);;
  r ← gets freelist;
  when (negb (r =? 0)) (modify (fun s => set_freelist (rd32 (pm s) r) s));;
  ul ← gets use_lock;
  when ul (release kmem_lock);;
  mret r.

(** [for(; p + PGSIZE <= vend; p += PGSIZE) kfree(p)], at most [fuel] rounds. *)
Fixpoint freerange_loop (fuel : nat) (p vend : Z) : M kmem unit :=
  match fuel with
  | O => undef "freerange: out of fuel"
  | S fuel' =>
    if p + PGSIZE <=? vend
    then kfree p;; freerange_loop fuel' (p + PGSIZE) vend
    else mret tt
  end.

Definition freerange (vstart vend : Z) : M kmem unit :=
  let p := PGROUNDUP vstart in
  freerange_loop (S (Z.to_nat ((vend - p) / PGSIZE))) p vend.

Definition kinit1 (vstart vend : Z) : M kmem unit :=
  modify (set_use_lock false);; freerange vstart vend.

Definition kinit2 (vstart vend : Z) : M kmem unit :=
  freerange vstart vend;; modify (set_use_lock true).

(** ** The invariant *)

(** A page [kfree] accepts. *)
Definition page_ok (p : Z) : Prop := aligned p /\ kend <= p < KERNBASE + PHYSTOP.

Fixpoint free_list (m : mem) (head : Z) (l : list Z) : Prop :=
  match l with
  | [] => head = 0
  | p :: l' => head = p /\ free_list m (rd32 m p) l'
  end.

Record kmem_ok (s : kmem) (l : list Z) : Prop := KmemOk {
  ko_mem : mem_ok (pm s);
  ko_list : free_list (pm s) (freelist s) l;
  ko_nodup : NoDup l;
  ko_pages : Forall page_ok l;
}.

(** The linker places [end] above the kernel's load address and below the top
    of physical memory (src/kernel.ld, src/memlayout.h). *)
Context (Hend : KERNLINK <= kend <= KERNBASE + PHYSTOP).

(** The context a call needs: the allocator's lock is free once locking is on. *)
Definition can_lock (c : ctx) (s : kmem) : Prop :=
  use_lock s = true -> kmem_lock ∉ held c.

Lemma page_ok_range p : page_ok p -> KERNLINK <= p /\ p + PGSIZE <= KERNBASE + PHYSTOP.
Proof.
  intros [Ha ?]. addr.
Qed.

Lemma page_ok_nonzero p : page_ok p -> p <> 0.
Proof. intros []. addr. Qed.

Lemma free_list_unique m h l : forall l', free_list m h l -> free_list m h l' -> Forall page_ok l -> Forall page_ok l' -> l = l'.
Proof.
  revert h. induction l as [|p l IH]; intros h [|p' l'] H1 H2 F1 F2; [done|..]; cbn in H1, H2.
  - destruct H2 as [-> _]. apply Forall_cons in F2 as [Hp _]. by apply page_ok_nonzero in Hp.
  - destruct H1 as [-> _]. apply Forall_cons in F1 as [Hp _]. by apply page_ok_nonzero in Hp.
  - destruct H1 as [-> H1], H2 as [<- H2]. apply Forall_cons in F1 as [_ F1], F2 as [_ F2]. f_equal. by eapply IH.
Qed.

Lemma free_list_ext m m' h l :
  (forall p a, p ∈ l -> p <= a < p + 4 -> rd m' a = rd m a) ->
  free_list m h l -> free_list m' h l.
Proof.
  revert h. induction l as [|p l IH]; intros h Hm; cbn; [done|].
  intros [-> Hl]. split; [done|].
  rewrite (rd32_ext m' m) by (intros; apply (Hm p); set_solver).
  apply IH; [|done]. intros q a Hq. apply Hm. set_solver.
Qed.

Lemma kmem_ok_unique s l l' : kmem_ok s l -> kmem_ok s l' -> l = l'.
Proof. intros [] []. by eapply free_list_unique. Qed.

(** Memory outside the free pages can change freely. *)
Lemma kmem_ok_frame s l m' :
  kmem_ok s l -> mem_ok m' ->
  (forall p a, p ∈ l -> p <= a < p + PGSIZE -> rd m' a = rd (pm s) a) ->
  kmem_ok (set_pm (fun _ => m') s) l.
Proof.
  intros [Hm Hl Hn Hp] Hm' Hext. split; try done. cbn.
  apply (free_list_ext (pm s)); [|done].
  intros p a Hp' Ha. apply (Hext p); [done|]. unfold PGSIZE. lia.
Qed.

Definition kfreed (v : Z) (s : kmem) : kmem :=
  Kmem (wr32 (memset (pm s) v 1 PGSIZE) v (freelist s)) v (use_lock s).

Lemma kfree_run v c s : page_ok v -> can_lock c s -> kfree v c s = Done tt c (kfreed v s).
Proof.
  intros Hv Hc. pose proof (page_ok_range _ Hv) as Hr. destruct Hv as [Ha [Hlo Hhi]].
  unfold kfree. rewrite u32_id by addr. rewrite (proj2 (Z.eqb_eq _ _) Ha).
  rewrite (proj2 (Z.ltb_ge _ _)) by lia. rewrite V2P_eq by addr.
  rewrite Z.geb_leb, (proj2 (Z.leb_gt _ _)) by addr. cbn [negb orb].
  autorewrite with run. cbn [use_lock set_pm]. destruct (use_lock s) eqn:Eu; cbn [when].
  - rewrite bind_acquire by auto. autorewrite with run. cbn [use_lock set_freelist set_pm].
    rewrite Eu. cbn [when]. rewrite release_acquired by auto. by rewrite ctx_eta.
  - autorewrite with run. cbn [use_lock set_freelist set_pm]. by rewrite Eu.
Qed.

(** [kfree] panics on every address that is not a page it could have given out. *)
Lemma kfree_panics v c s : uint_ok v -> ~ page_ok v -> kfree v c s = Panic "kfree".
Proof.
  intros Hu Hv. unfold kfree. destruct (_ || _) eqn:E; [done|]. contradict Hv.
  apply orb_false_iff in E as [[E1 E2]%orb_false_iff E3]. rewrite u32_id in E1 by done.
  apply negb_false_iff, Z.eqb_eq in E1. apply Z.ltb_ge in E2.
  rewrite V2P_eq in E3 by addr. split; [done|]. lia.
Qed.

Lemma kfreed_mem v s a : page_ok v -> ~ v <= a < v + PGSIZE -> rd (pm (kfreed v s)) a = rd (pm s) a.
Proof.
  intros Hv Ha. cbn. rewrite rd_wr32_ne by (unfold PGSIZE in *; lia).
  rewrite rd_memset by done. by rewrite decide_False.
Qed.

Lemma free_list_head m h l : free_list m h l -> Forall page_ok l -> uint_ok h.
Proof.
  destruct l as [|p l]; cbn; [word|]. intros [-> _] [Hp _]%Forall_cons.
  apply page_ok_range in Hp. addr.
Qed.

Lemma kfreed_ok v s l : kmem_ok s l -> page_ok v -> v ∉ l -> kmem_ok (kfreed v s) (v :: l).
Proof.
  intros [Hm Hl Hn Hp] Hv Hvl. split; cbn.
  - apply mem_ok_wr32. by apply mem_ok_memset.
  - split; [done|]. rewrite rd32_wr32_eq by by eapply free_list_head.
    eapply free_list_ext; [|done]. intros p a Hpl Ha.
    rewrite Forall_forall in Hp. destruct (Hp _ Hpl) as [Hap _].
    apply (kfreed_mem v); [done|]. apply (aligned_disjoint p); [done|apply Hv| |].
    + intros ->. done.
    + unfold PGSIZE. lia.
  - by constructor.
  - by constructor.
Qed.

Lemma kalloc_run c s l : kmem_ok s l -> can_lock c s ->
  kalloc c s = match l with
               | [] => Done 0 c s
               | p :: _ => Done p c (set_freelist (rd32 (pm s) p) s)
               end.
Proof.
  intros [Hm Hl Hn Hp] Hc. unfold kalloc. autorewrite with run.
  destruct l as [|p l]; cbn in Hl.
  - destruct (use_lock s) eqn:Eu; cbn [when].
    + rewrite bind_acquire by auto. autorewrite with run. rewrite Hl. cbn [Z.eqb negb when].
      autorewrite with run. rewrite Eu. cbn [when]. by rewrite bind_release by auto.
    + autorewrite with run. rewrite Hl. cbn [Z.eqb negb when]. autorewrite with run. by rewrite Eu.
  - destruct Hl as [Hl _]. apply Forall_cons in Hp as [Hp%page_ok_nonzero _].
    apply Z.eqb_neq in Hp.
    destruct (use_lock s) eqn:Eu; cbn [when].
    + rewrite bind_acquire by auto. autorewrite with run. rewrite Hl, Hp. cbn [negb when].
      autorewrite with run. cbn [use_lock set_freelist]. rewrite Eu. cbn [when].
      by rewrite bind_release by auto.
    + autorewrite with run. rewrite Hl, Hp. cbn [negb when].
      autorewrite with run. cbn [use_lock set_freelist]. by rewrite Eu.
Qed.

Lemma kalloc_ok s p l : kmem_ok s (p :: l) -> kmem_ok (set_freelist (rd32 (pm s) p) s) l.
Proof.
  intros [Hm [Hh Hl] [Hpl Hn]%NoDup_cons [Hp Hps]%Forall_cons]. by split.
Qed.

(** ** Initialisation *)

Lemma freerange_loop_run n fuel p vend c s l :
  (n < fuel)%nat -> aligned p -> kend <= p -> vend <= KERNBASE + PHYSTOP ->
  p + PGSIZE * Z.of_nat n <= vend < p + PGSIZE * (Z.of_nat n + 1) ->
  kmem_ok s l -> can_lock c s -> (forall q, q ∈ pages p n -> q ∉ l) ->
  exists s', freerange_loop fuel p vend c s = Done tt c s' /\
    kmem_ok s' (reverse (pages p n) ++ l) /\ use_lock s' = use_lock s /\
    (forall a, ~ p <= a < vend -> rd (pm s') a = rd (pm s) a).
Proof.
  revert n p s l. induction fuel as [|fuel IH]; intros n p s l Hf Ha Hp Hv Hn Hs Hc Hd; [lia|].
  cbn [freerange_loop]. destruct n as [|n].
  { rewrite (proj2 (Z.leb_gt _ _)) by (sizes; lia). by exists s. }
  rewrite (proj2 (Z.leb_le _ _)) by (sizes; lia).
  assert (page_ok p) as Hpp by (split; [done|sizes; lia]).
  erewrite bind_Done by by apply kfree_run.
  rewrite pages_S in Hd |- *.
  destruct (IH n (p + PGSIZE) (kfreed p s) (p :: l)) as (s' & -> & Hs' & Hu & Hm); try done.
  - lia.
  - addr.
  - sizes; lia.
  - lia.
  - apply kfreed_ok; [done|done|]. apply Hd. set_solver.
  - intros q Hq. assert (q <> p); [|set_solver]. apply elem_of_pages in Hq as (i & Hi & ->).
    sizes; lia.
  - exists s'. split; [done|]. split; [by rewrite reverse_cons, <- app_assoc|]. split; [done|].
    intros a Hout. rewrite Hm by (sizes; lia). apply kfreed_mem; [done|sizes; lia].
Qed.

(** ** What a client of the allocator relies on

    [client c s live]: [s] can be reached from a well-formed allocator by
    calls of [kalloc] and [kfree] and by stores into pages the client holds;
    [live] are the pages it was given and has not returned. *)
Inductive client (c : ctx) : kmem -> gset Z -> Prop :=
  | client_start s l : kmem_ok s l -> client c s ∅
  | client_alloc s live p s' : client c s live -> kalloc c s = Done p c s' -> p <> 0 ->
      client c s' ({[p]} ∪ live)
  | client_nomem s live s' : client c s live -> kalloc c s = Done 0 c s' -> client c s' live
  | client_free s live v s' : client c s live -> v ∈ live -> kfree v c s = Done tt c s' ->
      client c s' (live ∖ {[v]})
  | client_store s live m' : client c s live -> mem_ok m' ->
      (forall a, rd m' a <> rd (pm s) a -> exists p, p ∈ live /\ p <= a < p + PGSIZE) ->
      client c (set_pm (fun _ => m') s) live.

Definition client_inv (s : kmem) (live : gset Z) (l : list Z) : Prop :=
  kmem_ok s l /\ (forall p, p ∈ live -> page_ok p /\ p ∉ l).

Lemma client_inv_alloc c s live l p s' : client_inv s live l -> kmem_lock ∉ held c ->
  kalloc c s = Done p c s' ->
  (p = 0 /\ l = [] /\ s' = s) \/
  (exists l', l = p :: l' /\ p ∉ live /\ page_ok p /\ client_inv s' ({[p]} ∪ live) l').
Proof.
  intros [Hs Hl] Hc Hk. rewrite (kalloc_run c s l Hs) in Hk by by intros ?.
  destruct l as [|q l]; simplify_eq; [by left|right].
  exists l. split; [done|]. pose proof (ko_nodup _ _ Hs) as [Hpl _]%NoDup_cons.
  pose proof (ko_pages _ _ Hs) as [Hp _]%Forall_cons.
  split; [intros Hin; apply Hl in Hin as [_ Hin]; set_solver|]. split; [done|].
  split; [by apply kalloc_ok|]. intros r [->%elem_of_singleton|Hr]%elem_of_union; [done|].
  destruct (Hl _ Hr). split; [done|]. set_solver.
Qed.

Lemma client_inv_free c s live l v : client_inv s live l -> kmem_lock ∉ held c -> v ∈ live ->
  kfree v c s = Done tt c (kfreed v s) /\ client_inv (kfreed v s) (live ∖ {[v]}) (v :: l).
Proof.
  intros [Hs Hl] Hc Hv. destruct (Hl _ Hv) as [Hp Hn]. split.
  - apply kfree_run; [done|by intros ?].
  - split; [by apply kfreed_ok|]. intros p [Hp' Hne]%elem_of_difference.
    destruct (Hl _ Hp'). split; [done|]. set_solver.
Qed.

Lemma client_has_inv c s live : client c s live -> kmem_lock ∉ held c ->
  exists l, client_inv s live l.
Proof.
  intros Hcl Hc. induction Hcl as [s l Hs|s live p s' _ (l & IH) Hk Hp|s live s' _ (l & IH) Hk
    |s live v s' _ (l & IH) Hv Hk|s live m' _ (l & IH) Hm' Hst].
  - exists l. split; [done|set_solver].
  - destruct (client_inv_alloc _ _ _ _ _ _ IH Hc Hk) as [(? & _)|(l' & _ & _ & _ & ?)]; eauto. done.
  - destruct (client_inv_alloc _ _ _ _ _ _ IH Hc Hk) as [(_ & _ & ->)|(l' & _ & _ & ?%page_ok_nonzero & _)]; eauto. done.
  - destruct (client_inv_free _ _ _ _ _ IH Hc Hv) as [Hk' ?]. rewrite Hk' in Hk.
    simplify_eq. eauto.
  - exists l. destruct IH as [Hs Hl]. split; [|done]. apply kmem_ok_frame; [done..|].
    intros p a Hp Ha. destruct (decide (rd m' a = rd (pm s) a)) as [|Hne]; [done|].
    destruct (Hst a Hne) as (q & Hq & Hqa). destruct (Hl _ Hq) as [[Haq _] Hql].
    pose proof (ko_pages _ _ Hs) as Hps. rewrite Forall_forall in Hps.
    destruct (Hps _ Hp) as [Hap _]. exfalso. apply (aligned_disjoint p q a); try done.
    intros ->. done.
Qed.
End kalloc.

(** C10: pages are handed out exclusively.  Whatever sequence of allocations,
    frees and stores into its own pages a client has made, [kalloc] returns
    (it does not panic or loop), and returns either 0 or a page-aligned page of
    physical memory above the kernel image that the client does not already
    hold; and [kfree] of any page the client holds returns. *)
Theorem kalloc_exclusive (kend : Z) (c : ctx) (s : kmem) (live : gset Z) :
  KERNLINK <= kend <= KERNBASE + PHYSTOP -> kmem_lock ∉ held c -> client kend c s live ->
  (exists p s', kalloc c s = Done p c s' /\ (p = 0 \/ (page_ok kend p /\ p ∉ live))) /\
  (forall v, v ∈ live -> exists s', kfree kend v c s = Done tt c s').
Proof.
  intros He Hc Hcl. destruct (client_has_inv kend He _ _ _ Hcl Hc) as [l Hi]. split.
  - pose proof (kalloc_run kend He c s l (proj1 Hi)) as Hk.
    destruct l as [|p l].
    + exists 0, s. split; [by apply Hk; intros ?|]. by left.
    + exists p. eexists. split; [by apply Hk; intros ?|]. right.
      destruct (client_inv_alloc kend He _ _ _ _ _ _ Hi Hc (Hk (fun _ => Hc)))
        as [(_ & [=] & _)|(l' & _ & ? & ? & _)]. done.
  - intros v Hv. eexists. by apply (client_inv_free kend He _ _ _ _ _ Hi Hc Hv).
Qed.

Lemma mem_ok_empty : mem_ok ∅.
Proof. intros a. unfold rd. rewrite lookup_empty. cbn. word. Qed.

Lemma kmem_ok_empty kend b : kmem_ok kend (Kmem ∅ 0 b) [].
Proof. split; [apply mem_ok_empty|done|constructor|constructor]. Qed.

Lemma kalloc_exclusive_witness :
  exists p s', kalloc (Ctx ∅ 0) (Kmem ∅ 0 true) = Done p (Ctx ∅ 0) s' /\
    (p = 0 \/ (page_ok KERNLINK p /\ p ∉ (∅ : gset Z))).
Proof.
  apply (kalloc_exclusive KERNLINK (Ctx ∅ 0) (Kmem ∅ 0 true) ∅).
  - addr.
  - cbn. set_solver.
  - apply (client_start _ _ _ []), kmem_ok_empty.
Defined.

(** What [freerange] does, with the memory it leaves alone. *)
Lemma freerange_run (kend vstart vend : Z) (c : ctx) (s : kmem) (l : list Z) :
  KERNLINK <= kend <= vstart -> vstart <= vend <= KERNBASE + PHYSTOP ->
  can_lock c s -> kmem_ok kend s l ->
  (forall q, q ∈ l -> ~ (vstart <= q < vend)) ->
  exists s' l', freerange kend vstart vend c s = Done tt c s' /\ kmem_ok kend s' l' /\
    (forall q, q ∈ l' <-> q ∈ l \/ (aligned q /\ vstart <= q /\ q + PGSIZE <= vend)) /\
    use_lock s' = use_lock s /\ (forall a, ~ vstart <= a < vend -> rd (pm s') a = rd (pm s) a).
Proof.
  intros He Hv Hc Hs Hd. unfold freerange.
  assert (PGROUNDUP vstart = (vstart + PGSIZE - 1) - (vstart + PGSIZE - 1) mod PGSIZE) as Hp
    by (apply PGROUNDUP_eq; addr).
  set (p := PGROUNDUP vstart) in *. set (n := Z.to_nat ((vend - p) / PGSIZE)).
  destruct (decide (p <= vend)) as [Hle|Hgt].
  - assert (Z.of_nat n = (vend - p) / PGSIZE) as Hn by (unfold n; rewrite Z2Nat.id; addr).
    destruct (freerange_loop_run kend ltac:(lia) n (S n) p vend c s l) as (s' & -> & Hs' & Hu & Hm); try done.
    + lia.
    + addr.
    + addr.
    + lia.
    + rewrite Hn. addr.
    + intros q (i & Hi & ->)%elem_of_pages Hq. apply (Hd _ Hq). rewrite Hn in Hi. addr.
    + exists s', (reverse (pages p n) ++ l). split; [done|]. split; [done|]. split; [|split; [done|intros a Ha; apply Hm; addr]]. intros q.
      rewrite elem_of_app, elem_of_reverse, elem_of_pages, Hn. split.
      * intros [(i & Hi & ->)|Hq]; [right|by left]. addr.
      * intros [Hq|(Ha & Hlo & Hhi)]; [by right|left]. exists ((q - p) / PGSIZE). addr.
  - assert (n = O) as -> by (unfold n; addr). cbn [freerange_loop].
    rewrite (proj2 (Z.leb_gt _ _)) by (sizes; lia). exists s, l. split; [done|]. split; [done|]. split; [|done].
    intros q. split; [by left|]. intros [|(Ha & Hlo & Hhi)]; [done|]. addr.
Qed.

(** [freerange] (and so [kinit1] and [kinit2]) puts exactly the whole pages
    of the range on the free list: afterwards a page is free if it was free
    before or is page-aligned and lies between [vstart] and [vend]. *)
Theorem freerange_frees (kend vstart vend : Z) (c : ctx) (s : kmem) (l : list Z) :
  KERNLINK <= kend <= vstart -> vstart <= vend <= KERNBASE + PHYSTOP ->
  can_lock c s -> kmem_ok kend s l ->
  (forall q, q ∈ l -> ~ (vstart <= q < vend)) ->
  exists s' l', freerange kend vstart vend c s = Done tt c s' /\ kmem_ok kend s' l' /\
    (forall q, q ∈ l' <-> q ∈ l \/ (aligned q /\ vstart <= q /\ q + PGSIZE <= vend)).
Proof.
  intros He Hv Hc Hs Hd. destruct (freerange_run kend vstart vend c s l He Hv Hc Hs Hd) as (s' & l' & E & Hk & Hq & _). by exists s', l'.
Qed.

Lemma freerange_frees_witness : exists s' l',
  freerange KERNLINK (KERNLINK + 5) (KERNLINK + 3 * PGSIZE) (Ctx ∅ 0) (Kmem ∅ 0 false)
    = Done tt (Ctx ∅ 0) s' /\ kmem_ok KERNLINK s' l' /\
  (forall q, q ∈ l' <-> q ∈ ([] : list Z) \/
    (aligned q /\ KERNLINK + 5 <= q /\ q + PGSIZE <= KERNLINK + 3 * PGSIZE)).
Proof.
  apply (freerange_frees KERNLINK (KERNLINK + 5) (KERNLINK + 3 * PGSIZE)).
  - addr.
  - addr.
  - done.
  - apply kmem_ok_empty.
  - set_solver.
Defined.
