(* ===== verification/Vm.v ===== *)
(** * Page tables and address spaces (src/vm.c)

    Page directories and page tables are pages of the byte memory, read and
    written a word at a time as the MMU sees them.  A null [pte_t*] is 0. *)

From S2P Require Import Prelude Layout CString Spinlock Kalloc.

Section vm.
(** [end] and [data] are set by the linker. *)
Context (kend kdata : Z).

Definition load (a : Z) : M kmem Z := gets (fun s => rd32 (pm s) a).
Definition store (a v : Z) : M kmem unit := modify (set_pm (fun m => wr32 m a (u32 v))).
Definition bit_set (v f : Z) : bool := negb (Z.land v f =? 0).

Definition walkpgdir (pgdir va : Z) (alloc : bool) : M kmem Z :=
  let pde := pgdir + 4 * PDX va in
  e ← load pde;
  if bit_set e PTE_P then mret (P2V (PTE_ADDR e) + 4 * PTX va)
  else if negb alloc then mret 0
  else
    pgtab ← kalloc;
    if pgtab =? 0 then mret 0
    else
      modify (set_pm (fun m => memset m pgtab 0 PGSIZE));;
      store pde (Z.lor (Z.lor (Z.lor (V2P pgtab) PTE_P) PTE_W) PTE_U);;
      mret (pgtab + 4 * PTX va).

(** The [for(;;)] of [mappages]; a run visits [fuel] pages at most. *)
Fixpoint mappages_loop (fuel : nat) (pgdir a last pa perm : Z) : M kmem Z :=
  match fuel with
  | O => undef "mappages: out of fuel"
  | S fuel' =>
    pte ← walkpgdir pgdir a true;
    if pte =? 0 then mret (-1)
    else
      e ← load pte;
      if bit_set e PTE_P then panic "remap"
      else
        store pte (Z.lor (Z.lor pa perm) PTE_P);;
        if a =? last then mret 0
        else mappages_loop fuel' pgdir (u32 (a + PGSIZE)) last (u32 (pa + PGSIZE)) perm
  end.

Definition mappages (pgdir va size pa perm : Z) : M kmem Z :=
  let a := PGROUNDDOWN va in
  let last := PGROUNDDOWN (u32 (va + size - 1)) in
  mappages_loop (S (Z.to_nat (u32 (last - a) / PGSIZE))) pgdir a last pa perm.

(** [for(; a < oldsz; a += PGSIZE)] of [deallocuvm]. *)
Fixpoint dealloc_loop (fuel : nat) (pgdir a oldsz : Z) : M kmem unit :=
  match fuel with
  | O => undef "deallocuvm: out of fuel"
  | S fuel' =>
    if a <? oldsz then
      pte ← walkpgdir pgdir a false;
      if pte =? 0 then
        dealloc_loop fuel' pgdir (u32 (u32 (PGADDR (PDX a + 1) 0 0 - PGSIZE) + PGSIZE)) oldsz
      else
        e ← load pte;
        if bit_set e PTE_P then
          let pa := PTE_ADDR e in
          if pa =? 0 then panic "kfree"
          else
            kfree kend (P2V pa);;
            store pte 0;;
            dealloc_loop fuel' pgdir (u32 (a + PGSIZE)) oldsz
        else dealloc_loop fuel' pgdir (u32 (a + PGSIZE)) oldsz
    else mret tt
  end.

Definition deallocuvm (pgdir oldsz newsz : Z) : M kmem Z :=
  if newsz >=? oldsz then mret oldsz
  else
    let a := PGROUNDUP newsz in
    dealloc_loop (S (Z.to_nat (oldsz / PGSIZE + 1))) pgdir a oldsz;;
    mret newsz.

(** [for(i = 0; i < NPDENTRIES; i++)] of [freevm]. *)
Fixpoint free_tables (n : nat) (pgdir i : Z) : M kmem unit :=
  match n with
  | O => mret tt
  | S n' =>
    e ← load (pgdir + 4 * i);
    (if bit_set e PTE_P then kfree kend (P2V (PTE_ADDR e)) else mret tt);;
    free_tables n' pgdir (i + 1)
  end.

Definition freevm (pgdir : Z) : M kmem unit :=
  if pgdir =? 0 then panic "freevm: no pgdir"
  else
    deallocuvm pgdir KERNBASE 0;;
    free_tables (Z.to_nat NPDENTRIES) pgdir 0;;
    kfree kend pgdir.

Fixpoint allocuvm_loop (fuel : nat) (pgdir a oldsz newsz : Z) : M kmem Z :=
  match fuel with
  | O => undef "allocuvm: out of fuel"
  | S fuel' =>
    if a <? newsz then
      mem ← kalloc;
      if mem =? 0 then deallocuvm pgdir newsz oldsz;; mret 0
      else
        modify (set_pm (fun m => memset m mem 0 PGSIZE));;
        r ← mappages pgdir a PGSIZE (V2P mem) (Z.lor PTE_W PTE_U);
        if r <? 0 then deallocuvm pgdir newsz oldsz;; kfree kend mem;; mret 0
        else allocuvm_loop fuel' pgdir (u32 (a + PGSIZE)) oldsz newsz
    else mret newsz
  end.

Definition allocuvm (pgdir oldsz newsz : Z) : M kmem Z :=
  if newsz >=? KERNBASE then mret 0
  else if newsz <? oldsz then mret oldsz
  else allocuvm_loop (S (Z.to_nat (newsz / PGSIZE + 1))) pgdir (PGROUNDUP oldsz) oldsz newsz.

(** The kernel's mappings, present in every page table. *)
Record kmap_entry := Kmap { virt : Z; phys_start : Z; phys_end : Z; kperm : Z }.
Definition kmap : list kmap_entry :=
  [ Kmap KERNBASE 0 EXTMEM PTE_W;
    Kmap KERNLINK (V2P KERNLINK) (V2P kdata) 0;
    Kmap kdata (V2P kdata) PHYSTOP PTE_W;
    Kmap DEVSPACE DEVSPACE 0 PTE_W ].

Fixpoint setupkvm_loop (ks : list kmap_entry) (pgdir : Z) : M kmem Z :=
  match ks with
  | [] => mret pgdir
  | k :: ks' =>
    r ← mappages pgdir (virt k) (u32 (phys_end k - phys_start k)) (phys_start k) (kperm k);
    if r <? 0 then freevm pgdir;; mret 0
    else setupkvm_loop ks' pgdir
  end.

Definition setupkvm : M kmem Z :=
  pgdir ← kalloc;
  if pgdir =? 0 then mret 0
  else
    modify (set_pm (fun m => memset m pgdir 0 PGSIZE));;
    if P2V PHYSTOP >? DEVSPACE then panic "PHYSTOP too high"
    else setupkvm_loop kmap pgdir.

Definition clearpteu (pgdir uva : Z) : M kmem unit :=
  pte ← walkpgdir pgdir uva false;
  if pte =? 0 then panic "clearpteu"
  else e ← load pte; store pte (Z.land e (u32 (Z.lnot PTE_U))).

Fixpoint copyuvm_loop (fuel : nat) (pgdir d i sz : Z) : M kmem Z :=
  match fuel with
  | O => undef "copyuvm: out of fuel"
  | S fuel' =>
    if i <? sz then
      pte ← walkpgdir pgdir i false;
      if pte =? 0 then panic "copyuvm: pte should exist"
      else
        e ← load pte;
        if negb (bit_set e PTE_P) then panic "copyuvm: page not present"
        else
          let pa := PTE_ADDR e in
          let flags := PTE_FLAGS e in
          mem ← kalloc;
          if mem =? 0 then freevm d;; mret 0
          else
            modify (set_pm (fun m => memmove m mem (P2V pa) PGSIZE));;
            r ← mappages d i PGSIZE (V2P mem) flags;
            if r <? 0 then kfree kend mem;; freevm d;; mret 0
            else copyuvm_loop fuel' pgdir d (u32 (i + PGSIZE)) sz
    else mret d
  end.

Definition copyuvm (pgdir sz : Z) : M kmem Z :=
  d ← setupkvm;
  if d =? 0 then mret 0
  else copyuvm_loop (S (Z.to_nat (sz / PGSIZE + 1))) pgdir d 0 sz.

(** The null [pte] of an address without a page table is dereferenced. *)
Definition uva2ka (pgdir uva : Z) : M kmem Z :=
  pte ← walkpgdir pgdir uva false;
  if pte =? 0 then undef "uva2ka: null pte"
  else
    e ← load pte;
    if negb (bit_set e PTE_P) then mret 0
    else if negb (bit_set e PTE_U) then mret 0
    else mret (P2V (PTE_ADDR e)).

Fixpoint wr_bytes (m : mem) (a : Z) (l : list Z) : mem :=
  match l with [] => m | x :: l' => wr_bytes (wr m a x) (a + 1) l' end.

(** [buf] are the bytes at the source pointer. *)
Fixpoint copyout_loop (fuel : nat) (pgdir va : Z) (buf : list Z) (len : Z) : M kmem Z :=
  match fuel with
  | O => undef "copyout: out of fuel"
  | S fuel' =>
    if len >? 0 then
      let va0 := PGROUNDDOWN va in
      pa0 ← uva2ka pgdir va0;
      if pa0 =? 0 then mret (-1)
      else
        let n := PGSIZE - (va - va0) in
        let n := if n >? len then len else n in
        modify (set_pm (fun m => wr_bytes m (pa0 + (va - va0)) (take (Z.to_nat n) buf)));;
        copyout_loop fuel' pgdir (u32 (va0 + PGSIZE)) (drop (Z.to_nat n) buf) (len - n)
    else mret 0
  end.

Definition copyout (pgdir va : Z) (p : list Z) (len : Z) : M kmem Z :=
  copyout_loop (S (Z.to_nat (len / PGSIZE + 2))) pgdir va p len.

(** [init] is the address of the code to load, already in memory. *)
Definition inituvm (pgdir init sz : Z) : M kmem unit :=
  if sz >=? PGSIZE then panic "inituvm: more than a page"
  else
    mem ← kalloc;
    modify (set_pm (fun m => memset m mem 0 PGSIZE));;
    mappages pgdir 0 PGSIZE (V2P mem) (Z.lor PTE_W PTE_U);;
    modify (set_pm (fun m => memmove m mem init sz)).

(** The body of [case T_PGFLT] of the LAZY [trap] (src/trap.c): [true] is the
    normal return, [false] the jump to [bad], which kills the process.  This is
    what it does to the memory; Trap has the case with its message. *)
Definition lazy_fault (pgdir cr2 : Z) : M kmem bool :=
  mem ← kalloc;
  if mem =? 0 then mret false
  else
    modify (set_pm (fun m => memset m mem 0 PGSIZE));;
    let va := PGROUNDDOWN cr2 in
    r ← mappages pgdir va PGSIZE (V2P mem) (Z.lor PTE_W PTE_U);
    if r <? 0 then kfree kend mem;; mret false
    else mret true.

(** The body of [case T_PGFLT] of the LOCALITY [trap], without its messages. *)
Fixpoint locality_loop (n : nat) (pgdir start i : Z) : M kmem bool :=
  match n with
  | O => mret true
  | S n' =>
    mem ← kalloc;
    if mem =? 0 then mret false
    else
      modify (set_pm (fun m => memset m mem 0 PGSIZE));;
      let va := u32 (start + i * PGSIZE) in
      r ← mappages pgdir va PGSIZE (V2P mem) (Z.lor PTE_W PTE_U);
      if r <? 0 then kfree kend mem;; mret false
      else locality_loop n' pgdir start (i + 1)
  end.

Definition locality_fault (pgdir cr2 : Z) : M kmem bool :=
  let con_pages := 3%nat in
  locality_loop con_pages pgdir (PGROUNDDOWN cr2) 0.
End vm.

(** ** Well-formed page tables

    [tabs !! i] is the page table page the [i]-th directory entry points to. *)

Definition in_page (p a : Z) : Prop := p <= a < p + PGSIZE.

Section proofs.
Context (kend kdata : Z).
Context (Hend : KERNLINK <= kend <= KERNBASE + PHYSTOP).
Context (c : ctx) (Hc : kmem_lock ∉ held c).

Local Abbreviation page_ok := (page_ok kend).
Local Abbreviation kmem_ok := (kmem_ok kend).

Record pt_ok (m : mem) (pgdir : Z) (tabs : gmap Z Z) : Prop := PtOk {
  pt_dir : page_ok pgdir;
  pt_some : forall i t, tabs !! i = Some t ->
    0 <= i < NPDENTRIES /\ page_ok t /\ t <> pgdir /\ rd32 m (pgdir + 4 * i) = V2P t + 7;
  pt_none : forall i, 0 <= i < NPDENTRIES -> tabs !! i = None ->
    bit_set (rd32 m (pgdir + 4 * i)) PTE_P = false;
  pt_inj : forall i j t, tabs !! i = Some t -> tabs !! j = Some t -> i = j;
}.

(** The page table entry of a virtual address, 0 where there is no table. *)
Definition pte_val (m : mem) (tabs : gmap Z Z) (va : Z) : Z :=
  match tabs !! PDX va with
  | Some t => rd32 m (t + 4 * PTX va)
  | None => 0
  end.

(** An address space of a kernel whose free pages are [l]. *)
Record vm_st (s : kmem) (l : list Z) (pgdir : Z) (tabs : gmap Z Z) : Prop := VmSt {
  vs_kmem : kmem_ok s l;
  vs_pt : pt_ok (pm s) pgdir tabs;
  vs_dir : pgdir ∉ l;
  vs_tabs : forall i t, tabs !! i = Some t -> t ∉ l;
}.

(** Memory is the same outside the directory and the tables. *)
Definition same_outside (m m' : mem) (pgdir : Z) (tabs : gmap Z Z) : Prop :=
  forall a, ~ in_page pgdir a -> (forall i t, tabs !! i = Some t -> ~ in_page t a) ->
  rd m' a = rd m a.

(** What walking and mapping may do to an address space: take pages off the
    free list for new tables, and write directory and tables. *)
Record grows (pgdir : Z) (s : kmem) (l : list Z) (tabs : gmap Z Z)
    (s' : kmem) (l' : list Z) (tabs' : gmap Z Z) : Prop := Grows {
  gr_st : vm_st s' l' pgdir tabs';
  gr_sub : tabs ⊆ tabs';
  gr_fresh : exists fresh, l = fresh ++ l' /\
    forall t, t ∈ fresh <-> exists i, tabs' !! i = Some t /\ tabs !! i = None;
  gr_mem : same_outside (pm s) (pm s') pgdir tabs';
}.

Lemma no_fresh (l : list Z) (tabs : gmap Z Z) : exists fresh, l = fresh ++ l /\
  forall t, t ∈ fresh <-> exists i, tabs !! i = Some t /\ tabs !! i = None.
Proof.
  exists []. split; [done|]. intros t. split; [by intros ?%elem_of_nil|]. intros (? & ? & ?). congruence.
Qed.

Lemma grows_refl pgdir s l tabs : vm_st s l pgdir tabs -> grows pgdir s l tabs s l tabs.
Proof. split; try done. by apply no_fresh. Qed.

Lemma grows_trans pgdir s l tabs s1 l1 tabs1 s2 l2 tabs2 :
  grows pgdir s l tabs s1 l1 tabs1 -> grows pgdir s1 l1 tabs1 s2 l2 tabs2 ->
  grows pgdir s l tabs s2 l2 tabs2.
Proof.
  intros [H1 H2 (f1 & -> & Hf1) Hm1] [G1 G2 (f2 & -> & Hf2) Hm2]. split; [done| |..].
  - by etransitivity.
  - exists (f1 ++ f2). split; [by rewrite app_assoc|]. intros t. rewrite elem_of_app, Hf1, Hf2. split.
    + intros [(i & Hi & Hn)|(i & Hi & Hn)]; exists i.
      * split; [by eapply lookup_weaken|done].
      * split; [done|]. by eapply lookup_weaken_None.
    + intros (i & Ht & Hn). destruct (tabs1 !! i) as [t'|] eqn:E.
      * left. exists i. rewrite (lookup_weaken _ _ _ _ E G2) in Ht. by simplify_eq.
      * right. by exists i.
  - intros a Ha Ht. rewrite Hm2 by done. apply Hm1; [done|].
    intros i t Hi. apply (Ht i). by eapply lookup_weaken.
Qed.

Lemma page_range p : page_ok p -> KERNLINK <= p /\ p + PGSIZE <= KERNBASE + PHYSTOP /\ aligned p.
Proof. intros Hp. pose proof (page_ok_range _ Hend _ Hp). destruct Hp. tauto. Qed.

(** The entry [walkpgdir] stores leads back to the table it was made from. *)
Lemma pde_table t : page_ok t ->
  P2V (PTE_ADDR (V2P t + 7)) = t /\ bit_set (V2P t + 7) PTE_P = true /\
  Z.lor (Z.lor (Z.lor (V2P t) PTE_P) PTE_W) PTE_U = V2P t + 7 /\ uint_ok (V2P t + 7).
Proof.
  intros (H1 & H2 & H3)%page_range. rewrite V2P_eq by addr.
  split; [|split; [|split]].
  - rewrite PTE_ADDR_eq by addr. rewrite P2V_eq by addr. addr.
  - unfold bit_set, PTE_P. change 1 with (2 ^ 1 - 1). rewrite land_ones_mod by lia.
    change (2 ^ 1) with 2. apply negb_true_iff, Z.eqb_neq. addr.
  - rewrite <- !Z.lor_assoc. change (Z.lor PTE_P (Z.lor PTE_W PTE_U)) with 7.
    apply lor_aligned; addr.
  - addr.
Qed.

Lemma word_in_page p i : 0 <= i < 1024 -> forall b, p + 4 * i <= b < p + 4 * i + 4 -> in_page p b.
Proof. unfold in_page, PGSIZE. lia. Qed.

Lemma pages_apart p q a : page_ok p -> page_ok q -> p <> q -> in_page p a -> ~ in_page q a.
Proof. intros [? _] [? _] ?. by apply aligned_disjoint. Qed.

(** ** [walkpgdir] *)

Definition walked (tabs : gmap Z Z) (va : Z) : Z :=
  match tabs !! PDX va with Some t => t + 4 * PTX va | None => 0 end.

Lemma walk_found s pgdir tabs va t alloc : pt_ok (pm s) pgdir tabs -> tabs !! PDX va = Some t ->
  walkpgdir pgdir va alloc c s = Done (t + 4 * PTX va) c s.
Proof.
  intros Hpt Ht. unfold walkpgdir, load. autorewrite with run.
  destruct (pt_some _ _ _ Hpt _ _ Ht) as (_ & Hp & _ & ->).
  destruct (pde_table _ Hp) as (H1 & H2 & _). by rewrite H2, H1.
Qed.

Lemma walk_noalloc s pgdir tabs va : pt_ok (pm s) pgdir tabs ->
  walkpgdir pgdir va false c s = Done (walked tabs va) c s.
Proof.
  intros Hpt. unfold walked. destruct (tabs !! PDX va) as [t|] eqn:Ht; [by eapply walk_found|].
  unfold walkpgdir, load. autorewrite with run.
  by rewrite (pt_none _ _ _ Hpt) by (done || apply PDX_range).
Qed.

Definition add_table (pgdir i t : Z) (s : kmem) : kmem :=
  Kmem (wr32 (memset (pm s) t 0 PGSIZE) (pgdir + 4 * i) (V2P t + 7))
    (rd32 (pm s) t) (use_lock s).

Lemma walk_alloc s pgdir tabs va l : kmem_ok s l -> pt_ok (pm s) pgdir tabs ->
  tabs !! PDX va = None ->
  walkpgdir pgdir va true c s =
  match l with
  | [] => Done 0 c s
  | t :: _ => Done (t + 4 * PTX va) c (add_table pgdir (PDX va) t s)
  end.
Proof.
  intros Hk Hpt Ht. unfold walkpgdir, load. autorewrite with run.
  rewrite (pt_none _ _ _ Hpt) by (done || apply PDX_range). cbn [negb].
  pose proof (kalloc_run kend Hend c s l Hk (fun _ => Hc)) as Hr. destruct l as [|t l].
  - by erewrite bind_Done by exact Hr.
  - erewrite bind_Done by exact Hr.
    pose proof (ko_pages _ _ _ Hk) as [Hp _]%Forall_cons.
    rewrite (proj2 (Z.eqb_neq _ _) (page_ok_nonzero _ Hend _ Hp)).
    unfold store. autorewrite with run. destruct (pde_table _ Hp) as (_ & _ & E & Hu).
    rewrite E, u32_id by done. done.
Qed.

Lemma add_table_mem pgdir i t s a : page_ok pgdir -> page_ok t -> t <> pgdir -> 0 <= i < NPDENTRIES ->
  (~ in_page t a -> ~ (pgdir + 4 * i <= a < pgdir + 4 * i + 4) ->
   rd (pm (add_table pgdir i t s)) a = rd (pm s) a) /\
  (in_page t a -> rd (pm (add_table pgdir i t s)) a = 0).
Proof.
  intros Hd Ht Hne Hi. cbn. split.
  - intros Ha Hw. rewrite rd_wr32_ne, rd_memset by (done || lia). by rewrite decide_False.
  - intros Ha. rewrite rd_wr32_ne, rd_memset; [by rewrite decide_True|done|].
    pose proof (word_in_page pgdir i Hi a). pose proof (pages_apart t pgdir a Ht Hd Hne Ha).
    unfold in_page in *. lia.
Qed.

Lemma rd32_zero m a : (forall b, a <= b < a + 4 -> rd m b = 0) -> rd32 m a = 0.
Proof. intros H. unfold rd32. by rewrite !H by lia. Qed.

Lemma add_table_grows s t l pgdir tabs i :
  vm_st s (t :: l) pgdir tabs -> 0 <= i < NPDENTRIES -> tabs !! i = None ->
  grows pgdir s (t :: l) tabs (add_table pgdir i t s) l (<[i := t]> tabs) /\
  forall va, pte_val (pm (add_table pgdir i t s)) (<[i := t]> tabs) va = pte_val (pm s) tabs va.
Proof.
  intros [Hk Hpt Hd Htl] Hi Hn. destruct Hpt as [Hpd Hps Hpn Hpi].
  pose proof (ko_pages _ _ _ Hk) as [Ht Hl]%Forall_cons.
  pose proof (ko_nodup _ _ _ Hk) as [Htl' _]%NoDup_cons.
  assert (t <> pgdir) as Hne by set_solver.
  pose proof (fun a => add_table_mem pgdir i t s a Hpd Ht Hne Hi) as Hm.
  assert (Hold : forall j t', tabs !! j = Some t' -> t' <> t) by (intros ?? ?%Htl; set_solver).
  split; [split|].
  - split.
    + apply (kmem_ok_frame kend Hend (set_freelist (rd32 (pm s) t) s) l _ (kalloc_ok _ _ _ _ Hk)).
      * apply mem_ok_wr32, mem_ok_memset; [done|]. apply Hk.
      * intros p a Hp Ha. rewrite Forall_forall in Hl. pose proof (Hl _ Hp) as Hpp. apply Hm.
        -- apply (pages_apart p); [done..| |done]. set_solver.
        -- intros Hw. apply (pages_apart p pgdir a); [done..|set_solver|done|].
           by apply (word_in_page pgdir i).
    + split; [done| |..].
      * intros j t' [[<- <-]|[Hji Hj]]%lookup_insert_Some.
        -- split; [done|]. split; [done|]. split; [done|]. apply rd32_wr32_eq.
           by apply pde_table.
        -- destruct (Hps _ _ Hj) as (? & ? & ? & <-). repeat (split; [done|]).
           apply rd32_ext. intros b Hb. apply Hm.
           ++ apply (pages_apart pgdir); [done..|]. by apply (word_in_page pgdir j).
           ++ lia.
      * intros j Hj [Hjn Hji]%lookup_insert_None. rewrite <- (Hpn j) by done. f_equal.
        apply rd32_ext. intros b Hb. apply Hm; [|lia].
        apply (pages_apart pgdir); [done..|]. by apply (word_in_page pgdir j).
      * intros j j' t' [[<- <-]|[? Hj]]%lookup_insert_Some [[<- ?]|[? Hj']]%lookup_insert_Some; subst.
        -- done.
        -- by apply Hold in Hj'.
        -- by apply Hold in Hj.
        -- by eapply Hpi.
    + set_solver.
    + intros j t' [[<- <-]|[? Hj]]%lookup_insert_Some; [done|]. apply Htl in Hj. set_solver.
  - by apply insert_subseteq.
  - exists [t]. split; [done|]. intros t'. rewrite list_elem_of_singleton. split.
    + intros ->. exists i. by rewrite lookup_insert_eq.
    + intros (j & [[<- <-]|[? Hj]]%lookup_insert_Some & Hj'); [done|congruence].
  - intros a Ha Hta. apply Hm.
    + apply (Hta i). by rewrite lookup_insert_eq.
    + intros Hw. apply Ha. by apply (word_in_page pgdir i).
  - intros va. unfold pte_val. pose proof (PTX_range va) as Hx.
    destruct (decide (i = PDX va)) as [->|Hiv].
    + rewrite lookup_insert_eq, Hn. apply rd32_zero. intros b Hb. apply Hm.
      by apply (word_in_page t (PTX va)).
    + rewrite lookup_insert_ne by done. destruct (tabs !! PDX va) as [t'|] eqn:E; [|done].
      destruct (Hps _ _ E) as (_ & Hpt' & Hnd & _). apply rd32_ext. intros b Hb.
      assert (in_page t' b) by by apply (word_in_page t' (PTX va)). apply Hm.
      * apply (pages_apart t'); [done..| |done]. by eapply Hold.
      * intros Hw. apply (pages_apart t' pgdir b); try done. by apply (word_in_page pgdir i).
Qed.

(** ** Writing one entry *)

Lemma same_page va va' : uint_ok va -> uint_ok va' -> aligned va -> aligned va' ->
  PDX va = PDX va' -> PTX va = PTX va' -> va = va'.
Proof.
  intros H1 H2 H3 H4 H5 H6. rewrite <- (PGADDR_PDX_PTX va), <- (PGADDR_PDX_PTX va') by done.
  by rewrite H3, H4, H5, H6.
Qed.

Lemma set_pte_ok s l pgdir tabs va t v :
  vm_st s l pgdir tabs -> tabs !! PDX va = Some t -> uint_ok v ->
  uint_ok va -> aligned va ->
  let s' := set_pm (fun m => wr32 m (t + 4 * PTX va) v) s in
  grows pgdir s l tabs s' l tabs /\
  forall va', uint_ok va' -> aligned va' ->
    pte_val (pm s') tabs va' = if decide (va' = va) then v else pte_val (pm s) tabs va'.
Proof.
  intros [Hk Hpt Hd Htl] Ht Hv Hu Ha s'. destruct Hpt as [Hpd Hps Hpn Hpi].
  destruct (Hps _ _ Ht) as (Hi & Hpt & Hne & _). pose proof (PTX_range va) as Hx.
  assert (Hm : forall a, ~ in_page t a -> rd (pm s') a = rd (pm s) a).
  { intros a Hnp. cbn. apply rd_wr32_ne. pose proof (word_in_page t (PTX va) Hx a).
    unfold in_page in *. lia. }
  assert (Hdir : forall j, 0 <= j < NPDENTRIES ->
    rd32 (pm s') (pgdir + 4 * j) = rd32 (pm s) (pgdir + 4 * j)).
  { intros j Hj. apply rd32_ext. intros b Hb. apply Hm. apply (pages_apart pgdir); [done..|].
    by apply (word_in_page pgdir j). }
  split; [split; [split|done|by apply no_fresh|]|].
  - apply (kmem_ok_frame kend Hend s l _ Hk); [apply mem_ok_wr32, Hk|].
    intros p a Hp Hpa. apply Hm. pose proof (ko_pages _ _ _ Hk) as Hl.
    rewrite Forall_forall in Hl. apply (pages_apart p); [by apply Hl|done| |done].
    intros ->. by apply Htl in Ht.
  - split; [done| |..].
    + intros i' t' Hi'. destruct (Hps _ _ Hi') as (? & ? & ? & <-). by rewrite Hdir.
    + intros j Hj Hjn. by rewrite Hdir, (Hpn j).
    + done.
  - done.
  - done.
  - intros a Ha' Hta. apply Hm. by eapply Hta.
  - intros va' Hu' Ha'. unfold pte_val. pose proof (PTX_range va') as Hx'. case_decide as E.
    + subst. rewrite Ht. by apply rd32_wr32_eq.
    + destruct (tabs !! PDX va') as [t'|] eqn:Ht'; [|done].
      destruct (decide (t' = t)) as [->|Hnt].
      * apply rd32_wr32_ne. assert (PTX va <> PTX va'); [|lia].
        intros Hp. apply E. apply same_page; try done. by eapply Hpi.
      * destruct (Hps _ _ Ht') as (_ & Hpt' & _). apply rd32_ext. intros b Hb. apply Hm.
        apply (pages_apart t'); [done..|]. by apply (word_in_page t' (PTX va')).
Qed.

(** ** [mappages] *)

Definition mk_pte (pa perm : Z) : Z := Z.lor (Z.lor pa perm) PTE_P.

Lemma mk_pte_ok pa perm : aligned pa -> 0 <= pa < 2 ^ 32 -> 0 <= perm < PGSIZE ->
  mk_pte pa perm = pa + Z.lor perm PTE_P /\ 0 <= Z.lor perm PTE_P < PGSIZE /\
  uint_ok (mk_pte pa perm) /\ bit_set (mk_pte pa perm) PTE_P = true /\
  PTE_ADDR (mk_pte pa perm) = pa.
Proof.
  intros Ha Hp Hf. unfold mk_pte. rewrite <- Z.lor_assoc.
  assert (Hb : 0 <= Z.lor perm PTE_P < 2 ^ 12) by (apply lor_bound; sizes; unfold PTE_P; lia).
  change (2 ^ 12) with PGSIZE in Hb. rewrite lor_aligned by done.
  split; [done|]. split; [done|]. assert (uint_ok (pa + Z.lor perm PTE_P)) as Hu by addr.
  split; [done|]. split.
  - rewrite <- lor_aligned by done. unfold bit_set.
    rewrite !Z.land_lor_distr_l, Z.land_diag, Z.lor_assoc. apply negb_true_iff, Z.eqb_neq.
    intros [_ ?]%Z.lor_eq_0_iff. done.
  - rewrite PTE_ADDR_eq by done. addr.
Qed.

(** The tables that are new are those of addresses in [P]. *)
Definition new_tables (P : Z -> Prop) (tabs tabs' : gmap Z Z) : Prop :=
  forall i, is_Some (tabs' !! i) -> is_Some (tabs !! i) \/ exists va, P va /\ i = PDX va.

Lemma new_tables_refl P tabs : new_tables P tabs tabs.
Proof. intros i. by left. Qed.

Lemma new_tables_mono (P P' : Z -> Prop) tabs tabs' : (forall va, P va -> P' va) -> new_tables P tabs tabs' -> new_tables P' tabs tabs'.
Proof. intros HP H i Hi. destruct (H i Hi) as [?|(va & ? & ?)]; [by left|right; exists va; auto]. Qed.

Lemma new_tables_trans P tabs tabs1 tabs2 : new_tables P tabs tabs1 -> new_tables P tabs1 tabs2 -> new_tables P tabs tabs2.
Proof. intros H1 H2 i Hi. destruct (H2 i Hi) as [Hi1|?]; [by apply H1|by right]. Qed.

Lemma walk_or_alloc s l pgdir tabs a : vm_st s l pgdir tabs ->
  (l = [] /\ tabs !! PDX a = None /\ walkpgdir pgdir a true c s = Done 0 c s) \/
  exists t s1 l1 tabs1,
    walkpgdir pgdir a true c s = Done (t + 4 * PTX a) c s1 /\
    tabs1 !! PDX a = Some t /\ t + 4 * PTX a <> 0 /\ grows pgdir s l tabs s1 l1 tabs1 /\
    (forall va, pte_val (pm s1) tabs1 va = pte_val (pm s) tabs va) /\
    (l1 = l \/ (tabs !! PDX a = None /\ l = t :: l1)) /\ new_tables (eq a) tabs tabs1.
Proof.
  intros Hs. pose proof (PTX_range a) as Hx.
  assert (Hnz : forall t, page_ok t -> t + 4 * PTX a <> 0)
    by (intros t (? & _)%page_range; sizes; lia).
  destruct (tabs !! PDX a) as [t|] eqn:Ht.
  - right. exists t, s, l, tabs. split; [eapply walk_found; [apply Hs|done]|].
    split; [done|]. split; [|split; [by apply grows_refl|by eauto using new_tables_refl]].
    apply Hnz. by apply (pt_some _ _ _ (vs_pt _ _ _ _ Hs) _ _ Ht).
  - pose proof (walk_alloc s pgdir tabs a l (vs_kmem _ _ _ _ Hs) (vs_pt _ _ _ _ Hs) Ht) as Hw.
    destruct l as [|t l]; [by left|right].
    destruct (add_table_grows s t l pgdir tabs (PDX a) Hs (PDX_range a) Ht) as [Hg Hv].
    assert (Hnew : new_tables (eq a) tabs (<[PDX a := t]> tabs)).
    { intros i [x Hi]. destruct (decide (PDX a = i)) as [<-|Hne]; [right; by exists a|]. rewrite lookup_insert_ne in Hi by done. by left. }
    eexists t, _, l, _. split; [exact Hw|]. split; [by rewrite lookup_insert_eq|].
    split; [|by eauto 6]. apply Hnz.
    by pose proof (ko_pages _ _ _ (vs_kmem _ _ _ _ Hs)) as [Hp _]%Forall_cons.
Qed.

(** One round of [mappages]: it fails for want of a page for the table, or
    sets the entry of [a]. *)
Lemma map_one s l pgdir tabs a v : vm_st s l pgdir tabs -> uint_ok a -> aligned a -> uint_ok v ->
  (l = [] /\ walkpgdir pgdir a true c s = Done 0 c s) \/
  exists pte s1 s2 l2 tabs2,
    walkpgdir pgdir a true c s = Done pte c s1 /\ pte <> 0 /\
    rd32 (pm s1) pte = pte_val (pm s) tabs a /\
    set_pm (fun m => wr32 m pte v) s1 = s2 /\ grows pgdir s l tabs s2 l2 tabs2 /\ (length l <= S (length l2))%nat /\ new_tables (eq a) tabs tabs2 /\
    forall va, uint_ok va -> aligned va ->
      pte_val (pm s2) tabs2 va = if decide (va = a) then v else pte_val (pm s) tabs va.
Proof.
  intros Hs Hu Ha Hv. destruct (walk_or_alloc s l pgdir tabs a Hs)
    as [(-> & _ & Hw)|(t & s1 & l1 & tabs1 & Hw & Ht & Hnz & Hg & Hp & Hl & Hnew)]; [by left|right].
  destruct (set_pte_ok s1 l1 pgdir tabs1 a t v (gr_st _ _ _ _ _ _ _ Hg) Ht Hv Hu Ha) as [Hg2 Hp2].
  eexists _, s1, _, l1, tabs1. split; [exact Hw|]. split; [done|]. split.
  { rewrite <- (Hp a). unfold pte_val. by rewrite Ht. }
  split; [reflexivity|]. split; [by eapply grows_trans|]. split; [destruct Hl as [->|[_ ->]]; cbn; lia|]. split; [done|].
  intros va Hva Hal. rewrite Hp2 by done. case_decide; [done|]. apply Hp.
Qed.

Lemma mappages_loop_run n : forall fuel s l pgdir tabs a pa perm,
  (n < fuel)%nat -> vm_st s l pgdir tabs ->
  aligned a -> 0 <= a -> a + PGSIZE * Z.of_nat n < 2 ^ 32 ->
  aligned pa -> 0 <= pa -> pa + PGSIZE * Z.of_nat n < 2 ^ 32 -> 0 <= perm < PGSIZE ->
  (forall i, 0 <= i <= Z.of_nat n ->
     bit_set (pte_val (pm s) tabs (a + PGSIZE * i)) PTE_P = false) ->
  exists r s' l' tabs' k,
    mappages_loop fuel pgdir a (a + PGSIZE * Z.of_nat n) pa perm c s = Done r c s' /\
    grows pgdir s l tabs s' l' tabs' /\
    ((r = 0 /\ k = Z.of_nat n + 1) \/ (r = -1 /\ l' = [] /\ 0 <= k <= Z.of_nat n)) /\
    new_tables (fun va => a <= va < a + PGSIZE * (Z.of_nat n + 1)) tabs tabs' /\
    forall va, uint_ok va -> aligned va ->
      pte_val (pm s') tabs' va =
      if decide (a <= va < a + PGSIZE * k) then mk_pte (pa + (va - a)) perm
      else pte_val (pm s) tabs va.
Proof.
  induction n as [|n IH]; intros fuel s l pgdir tabs a pa perm Hf Hs Ha Ha0 Ha1 Hp Hp0 Hp1 Hperm Hnp;
    (destruct fuel as [|fuel]; [lia|]); cbn [mappages_loop].
  all: destruct (mk_pte_ok pa perm) as (_ & _ & Hu & _); [done|sizes; lia|done|].
  all: assert (uint_ok a) as Hau by (sizes; word_unfold; lia).
  all: assert (Hnp0 : bit_set (pte_val (pm s) tabs a) PTE_P = false)
    by (rewrite <- (Hnp 0) by lia; repeat f_equal; lia).
  all: destruct (map_one s l pgdir tabs a _ Hs Hau Ha Hu)
    as [(-> & Hw)|(pte & s1 & s2 & l2 & tabs2 & Hw & Hnz & He & Hs2 & Hg & _ & Hnew & Hv)];
    rewrite (bind_Done _ _ _ _ _ _ _ Hw); cbn [Z.eqb].
  1, 3: exists (-1), s, [], tabs, 0; split; [done|]; split; [by apply grows_refl|];
    split; [right; split_and!; done || lia|]; split; [apply new_tables_refl|]; intros; by rewrite decide_False by lia.
  all: assert (Hnew' : forall m, 0 <= m -> new_tables (fun va => a <= va < a + PGSIZE * (m + 1)) tabs tabs2)
    by (intros m Hm; apply (new_tables_mono (eq a)); [intros va <-; sizes; lia|done]).
  all: rewrite (proj2 (Z.eqb_neq _ _) Hnz); unfold load, store; autorewrite with run;
    rewrite He, Hnp0; autorewrite with run; fold (mk_pte pa perm); rewrite (u32_id _ Hu), Hs2.
  - rewrite (proj2 (Z.eqb_eq _ _)) by lia. exists 0, s2, l2, tabs2, 1.
    split; [done|]. split; [done|]. split; [by left|]. split; [by apply Hnew'|]. intros va Hva Hal. rewrite Hv by done.
    destruct (decide (va = a)) as [->|Hne].
    + rewrite decide_True by (sizes; lia). by replace (pa + (a - a)) with pa by lia.
    + rewrite decide_False; [done|]. addr.
  - rewrite (proj2 (Z.eqb_neq _ _)) by (sizes; lia).
    rewrite (u32_id (a + _)), (u32_id (pa + _)) by (sizes; word_unfold; lia).
    destruct (IH fuel s2 l2 pgdir tabs2 (a + PGSIZE) (pa + PGSIZE) perm)
      as (r & s' & l' & tabs' & k & Hr & Hg' & Hk & Hn' & Hv');
      [lia|apply Hg|addr|sizes; lia|sizes; lia|addr|sizes; lia|sizes; lia|done| |].
    + intros i Hi. rewrite Hv by addr. rewrite decide_False by (sizes; lia).
      replace (a + PGSIZE + PGSIZE * i) with (a + PGSIZE * (i + 1)) by lia. apply Hnp. lia.
    + replace (a + PGSIZE * Z.of_nat (S n)) with (a + PGSIZE + PGSIZE * Z.of_nat n) by lia.
      exists r, s', l', tabs', (k + 1). split; [exact Hr|]. split; [by eapply grows_trans|].
      split; [destruct Hk as [[??]|(?&?&?)]; [left|right]; split_and!; done || lia|].
      split; [apply (new_tables_trans _ _ tabs2); [apply Hnew'; lia|]; eapply new_tables_mono; [|exact Hn']; intros va Hva; cbn beta in *; sizes; lia|].
      assert (0 <= k) by (destruct Hk as [[??]|(?&?&?)]; lia).
      intros va Hva Hal. rewrite Hv' by done. destruct (decide (va = a)) as [->|Hne].
      * rewrite decide_False, decide_True by (sizes; lia). rewrite Hv, decide_True by done.
        by replace (pa + (a - a)) with pa by lia.
      * destruct (decide (a + PGSIZE <= va < _)).
        -- rewrite decide_True by (sizes; lia). f_equal. lia.
        -- rewrite Hv, decide_False by done. rewrite decide_False; [done|]. addr.
Qed.

(** ** User pages *)

Definition present (m : mem) (tabs : gmap Z Z) (va : Z) : bool := bit_set (pte_val m tabs va) PTE_P.
Definition frame (m : mem) (tabs : gmap Z Z) (va : Z) : Z := P2V (PTE_ADDR (pte_val m tabs va)).

Definition page_va (va : Z) : Prop := uint_ok va /\ aligned va.

(** Every present user page is a physical page of its own, neither free nor
    a page of the page table. *)
Record user_ok (m : mem) (l : list Z) (pgdir : Z) (tabs : gmap Z Z) : Prop := UserOk {
  uo_page : forall va, page_va va -> va < KERNBASE -> present m tabs va = true ->
    page_ok (frame m tabs va) /\ frame m tabs va ∉ l /\ frame m tabs va <> pgdir /\
    forall i, tabs !! i <> Some (frame m tabs va);
  uo_inj : forall va va', page_va va -> page_va va' -> va < KERNBASE -> va' < KERNBASE ->
    present m tabs va = true -> present m tabs va' = true ->
    frame m tabs va = frame m tabs va' -> va = va';
}.

Lemma present_ext m tabs m' tabs' va : pte_val m' tabs' va = pte_val m tabs va ->
  present m' tabs' va = present m tabs va /\ frame m' tabs' va = frame m tabs va.
Proof. unfold present, frame. by intros ->. Qed.

(** The page table is what its own pages hold. *)
Lemma pt_ext m m' pgdir tabs : pt_ok m pgdir tabs ->
  (forall a, in_page pgdir a -> rd m' a = rd m a) ->
  (forall i t a, tabs !! i = Some t -> in_page t a -> rd m' a = rd m a) ->
  pt_ok m' pgdir tabs /\ forall va, pte_val m' tabs va = pte_val m tabs va.
Proof.
  intros [Hd Hs Hn Hi] Hm Ht.
  assert (Hdir : forall i, 0 <= i < NPDENTRIES -> rd32 m' (pgdir + 4 * i) = rd32 m (pgdir + 4 * i)).
  { intros i Hr. apply rd32_ext. intros b Hb. apply Hm. by apply (word_in_page pgdir i). }
  split; [split; [done| |..]|].
  - intros i t Hit. destruct (Hs _ _ Hit) as (? & ? & ? & <-). by rewrite Hdir.
  - intros i Hr Hin. by rewrite Hdir, Hn.
  - done.
  - intros va. unfold pte_val. destruct (tabs !! PDX va) as [t|] eqn:E; [|done].
    apply rd32_ext. intros b Hb. apply (Ht (PDX va) t); [done|].
    apply (word_in_page t (PTX va)); [apply PTX_range|done].
Qed.

Lemma free_frame s l pgdir tabs f : vm_st s l pgdir tabs ->
  page_ok f -> f ∉ l -> f <> pgdir -> (forall i, tabs !! i <> Some f) ->
  kfree kend f c s = Done tt c (kfreed f s) /\
  vm_st (kfreed f s) (f :: l) pgdir tabs /\
  forall va, pte_val (pm (kfreed f s)) tabs va = pte_val (pm s) tabs va.
Proof.
  intros [Hk Hpt Hd Htl] Hf Hfl Hfd Hft. split; [apply kfree_run; [done..|by intros ?]|].
  destruct (pt_ext (pm s) (pm (kfreed f s)) pgdir tabs Hpt) as [Hpt' Hv].
  - intros a Ha. apply (kfreed_mem kend); [done..|].
    apply (pages_apart pgdir f a); [apply Hpt|done..].
  - intros i t a Ht Ha. apply (kfreed_mem kend); [done..|].
    apply (pages_apart t f a); [by apply (pt_some _ _ _ Hpt _ _ Ht)|done| |done].
    intros ->. by eapply Hft.
  - split; [|done]. split; [by apply kfreed_ok|done|set_solver|].
    intros i t Ht. apply not_elem_of_cons. split; [|by eapply Htl]. intros ->. by eapply Hft.
Qed.

(** ** [deallocuvm] *)

(** The free list, the entries and the memory after the present pages of
    [a, b) have been freed. *)
Record deallocated (a b pgdir : Z) (tabs : gmap Z Z) (s : kmem) (l : list Z)
    (s' : kmem) (l' : list Z) : Prop := Deallocated {
  de_st : vm_st s' l' pgdir tabs;
  de_user : user_ok (pm s') l' pgdir tabs;
  de_pte : forall va, page_va va -> pte_val (pm s') tabs va =
    if decide (a <= va < b /\ present (pm s) tabs va = true) then 0 else pte_val (pm s) tabs va;
  de_free : forall f, f ∈ l' <-> f ∈ l \/ exists va, page_va va /\ a <= va < b /\
    present (pm s) tabs va = true /\ frame (pm s) tabs va = f;
  de_mem : forall x, ~ in_page pgdir x -> (forall i t, tabs !! i = Some t -> ~ in_page t x) ->
    (forall p, p ∈ l' -> ~ in_page p x) -> rd (pm s') x = rd (pm s) x;
}.

Lemma not_present_zero tabs m va : pte_val m tabs va = 0 -> present m tabs va = false.
Proof. unfold present. by intros ->. Qed.

Lemma deallocated_skip a a' b pgdir tabs s l s' l' :
  deallocated a' b pgdir tabs s l s' l' -> a <= a' ->
  (forall va, page_va va -> a <= va < a' -> va < b -> present (pm s) tabs va = false) ->
  deallocated a b pgdir tabs s l s' l'.
Proof.
  intros [H1 H2 H3 H4 H5] Ha Hn. split; try done.
  - intros va Hva. rewrite H3 by done. destruct (decide (a' <= va < b /\ _)) as [[? Hp]|Hd].
    + by rewrite decide_True by (split; [lia|done]).
    + rewrite decide_False; [done|]. intros [Hr Hp]. destruct (decide (a' <= va)).
      * apply Hd. split; [lia|done].
      * rewrite Hn in Hp by (done || lia). done.
  - intros f. rewrite H4. apply or_iff_compat_l. split.
    + intros (va & ? & ? & ?). exists va. split; [done|]. split; [lia|done].
    + intros (va & ? & ? & Hp & ?). exists va. split; [done|]. split; [|done].
      destruct (decide (a' <= va)); [lia|]. rewrite Hn in Hp by (done || lia). done.
Qed.

Lemma deallocated_nil a b pgdir tabs s l : vm_st s l pgdir tabs -> user_ok (pm s) l pgdir tabs ->
  b <= a -> deallocated a b pgdir tabs s l s l.
Proof.
  intros. split; try done.
  - intros. by rewrite decide_False by lia.
  - intros f. split; [by left|]. intros [|(? & ? & ? & _)]; [done|lia].
Qed.

(** One page freed and its entry cleared. *)
Lemma dealloc_one s l pgdir tabs a b t : vm_st s l pgdir tabs -> user_ok (pm s) l pgdir tabs ->
  page_va a -> a < b <= KERNBASE -> present (pm s) tabs a = true -> tabs !! PDX a = Some t ->
  let f := frame (pm s) tabs a in
  let s1 := set_pm (fun m => wr32 m (t + 4 * PTX a) 0) (kfreed f s) in
  kfree kend f c s = Done tt c (kfreed f s) /\
  deallocated a (a + 1) pgdir tabs s l s1 (f :: l).
Proof.
  intros Hs Hu Ha Hab Hp Ht f s1. destruct (uo_page _ _ _ _ Hu a Ha ltac:(lia) Hp) as (Hf & Hfl & Hfd & Hft).
  destruct (free_frame s l pgdir tabs f Hs Hf Hfl Hfd Hft) as (Hk & Hs1 & Hv1). split; [exact Hk|].
  destruct (set_pte_ok _ _ _ _ a t 0 Hs1 Ht ltac:(word) (proj1 Ha) (proj2 Ha)) as [Hg Hv2].
  fold s1 in Hg, Hv2.
  assert (Hv : forall va, page_va va ->
    pte_val (pm s1) tabs va = if decide (va = a) then 0 else pte_val (pm s) tabs va).
  { intros va [? ?]. rewrite Hv2 by done. case_decide; [done|]. apply Hv1. }
  assert (Hpr : forall va, page_va va -> present (pm s1) tabs va = true ->
    va <> a /\ present (pm s) tabs va = true /\ frame (pm s1) tabs va = frame (pm s) tabs va).
  { intros va Hva Hpv. specialize (Hv va Hva). case_decide as E.
    - rewrite not_present_zero in Hpv by done. done.
    - destruct (present_ext _ _ _ _ _ Hv) as [<- ?]. done. }
  split.
  - apply Hg.
  - split.
    + intros va Hva Hk' Hpv. destruct (Hpr va Hva Hpv) as (Hne & Hps & ->).
      destruct (uo_page _ _ _ _ Hu va Hva Hk' Hps) as (? & ? & ? & ?). split_and!; try done.
      apply not_elem_of_cons. split; [|done]. intros E. apply Hne.
      by apply (uo_inj _ _ _ _ Hu va a Hva Ha Hk' ltac:(lia) Hps Hp).
    + intros va va' Hva Hva' Hk1 Hk2 Hp1 Hp2. destruct (Hpr va Hva Hp1) as (_ & ? & ->).
      destruct (Hpr va' Hva' Hp2) as (_ & ? & ->). by apply (uo_inj _ _ _ _ Hu).
  - intros va Hva. rewrite Hv by done. destruct (decide (va = a)) as [->|Hne].
    + rewrite decide_True; [done|]. split; [lia|done].
    + rewrite decide_False; [done|]. lia.
  - intros g. rewrite elem_of_cons. split.
    + intros [->|?]; [right|by left]. exists a. split; [done|]. split; [lia|done].
    + intros [?|(va & _ & Hr & _ & <-)]; [by right|left]. unfold f. f_equal. lia.
  - intros x Hd Hts Hl. etransitivity; [by apply (gr_mem _ _ _ _ _ _ _ Hg)|].
    apply (kfreed_mem kend); [done|]. apply Hl. by left.
Qed.

Lemma deallocated_trans a a1 b pgdir tabs s l s1 l1 s2 l2 :
  deallocated a (a + 1) pgdir tabs s l s1 l1 -> deallocated a1 b pgdir tabs s1 l1 s2 l2 ->
  a + PGSIZE = a1 -> aligned a -> a < b ->
  deallocated a b pgdir tabs s l s2 l2.
Proof.
  intros [_ _ Hp1 Hf1 Hm1] [H1 H2 Hp2 Hf2 Hm2] Ha1 Ha Hab.
  assert (Hcase : forall va, page_va va -> a <= va < b ->
    va = a \/ (a1 <= va < b)) by (intros va [_ ?] ?; addr).
  assert (Hold : forall va, page_va va -> a1 <= va -> pte_val (pm s1) tabs va = pte_val (pm s) tabs va).
  { intros va Hva ?. rewrite Hp1 by done. rewrite decide_False; [done|]. sizes; lia. }
  split; try done.
  - intros va Hva. rewrite Hp2 by done. destruct (decide (a1 <= va < b /\ _)) as [[Hr Hp]|Hn].
    + destruct (present_ext _ _ _ _ _ (Hold va Hva ltac:(lia))) as [E _]. rewrite E in Hp.
      rewrite decide_True; [done|]. split; [sizes; lia|done].
    + rewrite Hp1 by done. destruct (decide (a <= va < a + 1 /\ _)) as [[Hr Hp]|Hn1].
      * rewrite decide_True; [done|]. split; [lia|done].
      * rewrite decide_False; [done|]. intros [Hr Hp]. destruct (Hcase va Hva Hr) as [->|Hr'].
        -- apply Hn1. split; [lia|done].
        -- apply Hn. split; [done|].
           by destruct (present_ext _ _ _ _ _ (Hold va Hva ltac:(lia))) as [-> _].
  - intros f. rewrite Hf2, Hf1. split.
    + intros [[?|(va & Hva & Hr & Hp & Hf)]|(va & Hva & Hr & Hp & Hf)];
        [by left|right; exists va; split; [done|]..].
      * split; [lia|done].
      * destruct (present_ext _ _ _ _ _ (Hold va Hva ltac:(lia))) as [E1 E2].
        rewrite <- E1, <- E2. split; [sizes; lia|done].
    + intros [?|(va & Hva & Hr & Hp & Hf)]; [by left; left|].
      destruct (Hcase va Hva Hr) as [->|Hr']; [left; right|right].
      * exists a. split; [done|]. split; [lia|done].
      * exists va. destruct (present_ext _ _ _ _ _ (Hold va Hva ltac:(lia))) as [-> ->]. done.
  - intros x Hd Ht Hl. rewrite Hm2 by done. apply Hm1; [done..|]. intros p Hp. apply Hl.
    apply Hf2. by left.
Qed.

Lemma frame_pa m tabs va : page_ok (frame m tabs va) -> PTE_ADDR (pte_val m tabs va) <> 0.
Proof. unfold frame. intros (H & _)%page_range E. rewrite E in H. by rewrite P2V_eq in H by addr. Qed.

Lemma next_table a : uint_ok a -> aligned a -> a < KERNBASE ->
  let a' := u32 (u32 (PGADDR (PDX a + 1) 0 0 - PGSIZE) + PGSIZE) in
  aligned a' /\ a + PGSIZE <= a' <= KERNBASE /\
  forall va, uint_ok va -> a <= va < a' -> PDX va = PDX a.
Proof.
  intros Hu Ha Hk a'. unfold a'. autorewrite with word_rw. rewrite Z.sub_add.
  rewrite (PDX_eq a), PGADDR_eq by (sizes; change (2 ^ 22) with 4194304; word).
  sizes. change (2 ^ 22) with 4194304. change (2 ^ 12) with 4096. split_and!; [word..|].
  intros va Hva Hr. rewrite PDX_eq by done. change (2 ^ 22) with 4194304. word.
Qed.

Lemma dealloc_loop_run fuel : forall s l pgdir tabs a b,
  (0 < fuel)%nat -> b - a <= PGSIZE * (Z.of_nat fuel - 1) -> b <= KERNBASE ->
  0 <= a < 2 ^ 32 -> aligned a -> vm_st s l pgdir tabs -> user_ok (pm s) l pgdir tabs ->
  exists s' l', dealloc_loop kend fuel pgdir a b c s = Done tt c s' /\
    deallocated a b pgdir tabs s l s' l'.
Proof.
  induction fuel as [|fuel IH]; intros s l pgdir tabs a b Hf Hb Hk Ha Hal Hs Hu; [lia|].
  cbn [dealloc_loop]. destruct (Z.ltb_spec a b) as [Hab|Hab];
    [|exists s, l; split; [done|]; by apply deallocated_nil].
  assert (1 <= Z.of_nat fuel) by (sizes; lia).
  rewrite (bind_Done _ _ _ _ _ _ _ (walk_noalloc s pgdir tabs a (vs_pt _ _ _ _ Hs))).
  unfold walked. destruct (tabs !! PDX a) as [t|] eqn:Ht.
  - assert (t + 4 * PTX a <> 0) as Hnz.
    { destruct (pt_some _ _ _ (vs_pt _ _ _ _ Hs) _ _ Ht) as (_ & (? & _)%page_range & _).
      pose proof (PTX_range a). sizes. lia. }
    rewrite (proj2 (Z.eqb_neq _ _) Hnz). unfold load, store. autorewrite with run.
    assert (rd32 (pm s) (t + 4 * PTX a) = pte_val (pm s) tabs a) as -> by (unfold pte_val; by rewrite Ht).
    rewrite (u32_id (a + PGSIZE)) by (sizes; word_unfold; lia).
    fold (present (pm s) tabs a). destruct (present (pm s) tabs a) eqn:Hp.
    + destruct (dealloc_one s l pgdir tabs a b t Hs Hu) as [Hkf Hd]; [done|lia|done..|].
      destruct (uo_page _ _ _ _ Hu a) as (Hf' & _); [done|lia|done|].
      rewrite (proj2 (Z.eqb_neq _ _) (frame_pa _ _ _ Hf')).
      rewrite (bind_Done _ _ _ _ _ _ _ Hkf). autorewrite with run. change (u32 0) with 0.
      destruct Hd as [Hs1 Hu1 ?? ?].
      destruct (IH _ _ pgdir tabs (a + PGSIZE) b ltac:(lia) ltac:(lia) Hk ltac:(sizes; lia)
        ltac:(addr) Hs1 Hu1) as (s' & l' & -> & Hd').
      exists s', l'. split; [done|]. by eapply deallocated_trans.
    + destruct (IH s l pgdir tabs (a + PGSIZE) b ltac:(lia) ltac:(lia) Hk ltac:(sizes; lia)
        ltac:(addr) Hs Hu) as (s' & l' & -> & Hd').
      exists s', l'. split; [done|]. eapply deallocated_skip; [done|sizes; lia|].
      intros va [_ ?] ? _. by assert (va = a) as -> by addr.
  - cbn [Z.eqb]. destruct (next_table a Ha Hal ltac:(lia)) as (Hal' & Hr & Hx).
    set (a' := u32 _) in *. destruct (IH s l pgdir tabs a' b ltac:(lia) ltac:(lia) Hk ltac:(sizes; lia) Hal' Hs Hu)
      as (s' & l' & -> & Hd').
    exists s', l'. split; [done|]. eapply deallocated_skip; [done|sizes; lia|].
    intros va [? ?] ? _. apply not_present_zero. unfold pte_val. by rewrite Hx, Ht.
Qed.

Lemma deallocuvm_run s l pgdir tabs oldsz newsz : 0 <= newsz -> newsz < oldsz <= KERNBASE ->
  vm_st s l pgdir tabs -> user_ok (pm s) l pgdir tabs ->
  exists s' l', deallocuvm kend pgdir oldsz newsz c s = Done newsz c s' /\
    deallocated (PGROUNDUP newsz) oldsz pgdir tabs s l s' l'.
Proof.
  intros Hn Ho Hs Hu. unfold deallocuvm. rewrite Z.geb_leb, (proj2 (Z.leb_gt _ _)) by lia.
  assert (Hr : PGROUNDUP newsz = (newsz + PGSIZE - 1) - (newsz + PGSIZE - 1) mod PGSIZE)
    by (apply PGROUNDUP_eq; addr).
  destruct (dealloc_loop_run (S (Z.to_nat (oldsz / PGSIZE + 1))) s l pgdir tabs (PGROUNDUP newsz) oldsz)
    as (s' & l' & He & Hd); try done.
  - lia.
  - rewrite Nat2Z.inj_succ, Z2Nat.id by addr. addr.
  - lia.
  - rewrite Hr. addr.
  - rewrite Hr. addr.
  - exists s', l'. split; [|done]. by rewrite (bind_Done _ _ _ _ _ _ _ He).
Qed.

(** ** [freevm] *)

(** The part of a directory [free_tables] has still to visit. *)
Record dir_from (i : Z) (m : mem) (l : list Z) (pgdir : Z) (tabs : gmap Z Z) : Prop := DirFrom {
  df_dir : page_ok pgdir /\ pgdir ∉ l;
  df_some : forall j t, i <= j -> tabs !! j = Some t ->
    j < NPDENTRIES /\ page_ok t /\ t <> pgdir /\ t ∉ l /\ rd32 m (pgdir + 4 * j) = V2P t + 7;
  df_none : forall j, i <= j < NPDENTRIES -> tabs !! j = None ->
    bit_set (rd32 m (pgdir + 4 * j)) PTE_P = false;
  df_inj : forall j j' t, tabs !! j = Some t -> tabs !! j' = Some t -> j = j';
}.

Lemma dir_from_free i s l pgdir tabs t : 0 <= i -> dir_from i (pm s) l pgdir tabs ->
  tabs !! i = Some t -> dir_from (i + 1) (pm (kfreed t s)) (t :: l) pgdir tabs.
Proof.
  intros Hi0 [Hd Hs Hn Hinj] Ht. destruct (Hs i t ltac:(lia) Ht) as (Hi & Hp & Hne & Hl & _).
  assert (Hdir : forall j, 0 <= j < NPDENTRIES ->
    rd32 (pm (kfreed t s)) (pgdir + 4 * j) = rd32 (pm s) (pgdir + 4 * j)).
  { intros j Hj. apply rd32_ext. intros b Hb. apply (kfreed_mem kend); [done|].
    apply (pages_apart pgdir t b); [apply Hd|done..|]. by apply (word_in_page pgdir j). }
  split; [|intros j t' Hj Ht'|intros j Hj Ht'|done].
  - split; [apply Hd|]. apply not_elem_of_cons. split; [done|apply Hd].
  - destruct (Hs j t' ltac:(lia) Ht') as (? & ? & ? & ? & <-). split_and!; try done.
    + apply not_elem_of_cons. split; [|done]. intros ->. pose proof (Hinj _ _ _ Ht Ht'). lia.
    + apply Hdir. lia.
  - rewrite Hdir by lia. apply Hn; [lia|done].
Qed.

Lemma dir_from_skip i m l pgdir tabs : dir_from i m l pgdir tabs -> dir_from (i + 1) m l pgdir tabs.
Proof.
  intros [Hd Hs Hn Hinj]. split; [done| | |done].
  - intros j t Hj. apply Hs. lia.
  - intros j Hj. apply Hn. lia.
Qed.

Lemma free_tables_run n : forall i s l pgdir tabs, 0 <= i -> i + Z.of_nat n = NPDENTRIES ->
  kmem_ok s l -> dir_from i (pm s) l pgdir tabs ->
  exists s' l', free_tables kend n pgdir i c s = Done tt c s' /\ kmem_ok s' l' /\ pgdir ∉ l' /\
    (forall p, p ∈ l' <-> p ∈ l \/ exists j, i <= j /\ tabs !! j = Some p) /\
    (forall x, (forall p, p ∈ l' -> ~ in_page p x) -> rd (pm s') x = rd (pm s) x).
Proof.
  induction n as [|n IH]; intros i s l pgdir tabs Hi Hn Hk Hd; cbn [free_tables].
  - exists s, l. split; [done|]. split; [done|]. split; [apply Hd|]. split; [|done].
    intros p. split; [by left|]. intros [|(j & Hj & Ht)]; [done|].
    apply (df_some _ _ _ _ _ Hd) in Ht as (? & _); lia.
  - unfold load. autorewrite with run. destruct (tabs !! i) as [t|] eqn:Ht.
    + destruct (df_some _ _ _ _ _ Hd i t ltac:(lia) Ht) as (_ & Hp & _ & Hl & ->).
      destruct (pde_table t Hp) as (-> & -> & _).
      rewrite (bind_Done _ _ _ _ _ _ _ (kfree_run kend Hend t c s Hp (fun _ => Hc))).
      destruct (IH (i + 1) (kfreed t s) (t :: l) pgdir tabs ltac:(lia) ltac:(lia)
        (kfreed_ok kend Hend _ _ _ Hk Hp Hl) (dir_from_free _ _ _ _ _ _ Hi Hd Ht))
        as (s' & l' & -> & Hk' & Hd' & Hf & Hm).
      exists s', l'. split; [done|]. split; [done|]. split; [done|]. split.
      * intros p. rewrite Hf, elem_of_cons. split.
        -- intros [[->|?]|(j & ? & ?)]; [right; exists i; split; [lia|done]|by left|].
           right. exists j. split; [lia|done].
        -- intros [?|(j & Hj & Hjt)]; [by left; right|]. destruct (decide (j = i)) as [->|].
           ++ left. left. congruence.
           ++ right. exists j. split; [lia|done].
      * intros x Hx. rewrite Hm by done. apply (kfreed_mem kend); [done|]. apply Hx, Hf.
        left. by left.
    + rewrite (df_none _ _ _ _ _ Hd) by (done || lia). autorewrite with run.
      destruct (IH (i + 1) s l pgdir tabs ltac:(lia) ltac:(lia) Hk (dir_from_skip _ _ _ _ _ Hd))
        as (s' & l' & -> & Hk' & Hd' & Hf & Hm).
      exists s', l'. split; [done|]. split; [done|]. split; [done|]. split; [|done].
      intros p. rewrite Hf. split; (intros [?|(j & Hj & Hjt)]; [by left|right; exists j; split; [|done]]).
      * lia.
      * destruct (decide (j = i)) as [->|]; [congruence|lia].
Qed.

Lemma vm_dir_from s l pgdir tabs : vm_st s l pgdir tabs -> dir_from 0 (pm s) l pgdir tabs.
Proof.
  intros [Hk [Hd Hs Hn Hi] Hdl Htl]. split; [done| | |done].
  - intros j t _ Ht. destruct (Hs _ _ Ht) as (? & ? & ? & ?). split_and!; try done; [lia|].
    by eapply Htl.
  - intros j Hj. by apply Hn.
Qed.

(** The pages an address space is made of. *)
Definition owns (m : mem) (pgdir : Z) (tabs : gmap Z Z) (p : Z) : Prop :=
  p = pgdir \/ (exists i, tabs !! i = Some p) \/
  exists va, page_va va /\ va < KERNBASE /\ present m tabs va = true /\ frame m tabs va = p.

Lemma freevm_run s l pgdir tabs : vm_st s l pgdir tabs -> user_ok (pm s) l pgdir tabs ->
  exists s' l', freevm kend pgdir c s = Done tt c s' /\ kmem_ok s' l' /\
    (forall p, p ∈ l' <-> p ∈ l \/ owns (pm s) pgdir tabs p) /\
    (forall x, (forall p, p ∈ l' -> ~ in_page p x) -> rd (pm s') x = rd (pm s) x).
Proof.
  intros Hs Hu. unfold freevm. pose proof (vs_pt _ _ _ _ Hs) as Hpt.
  rewrite (proj2 (Z.eqb_neq _ _) (page_ok_nonzero kend Hend _ (pt_dir _ _ _ Hpt))).
  destruct (deallocuvm_run s l pgdir tabs KERNBASE 0 ltac:(lia) ltac:(sizes; lia) Hs Hu)
    as (s1 & l1 & Hd & [Hs1 _ _ Hf1 Hm1]).
  rewrite (bind_Done _ _ _ _ _ _ _ Hd).
  destruct (free_tables_run (Z.to_nat NPDENTRIES) 0 s1 l1 pgdir tabs ltac:(lia) eq_refl
    (vs_kmem _ _ _ _ Hs1) (vm_dir_from _ _ _ _ Hs1)) as (s2 & l2 & Ht & Hk2 & Hd2 & Hf2 & Hm2).
  rewrite (bind_Done _ _ _ _ _ _ _ Ht).
  rewrite (kfree_run kend Hend pgdir c s2 (pt_dir _ _ _ Hpt) (fun _ => Hc)).
  exists (kfreed pgdir s2), (pgdir :: l2). split; [done|].
  split; [apply kfreed_ok; [done..|by apply Hpt|done]|]. change (PGROUNDUP 0) with 0 in Hf1.
  assert (Hl2 : forall p, p ∈ pgdir :: l2 <-> p ∈ l \/ owns (pm s) pgdir tabs p).
  { intros p. unfold owns. rewrite elem_of_cons, Hf2, Hf1. split.
    - intros [?|[[?|(va & Hva & Hr & ? & ?)]|(j & _ & ?)]]; eauto 6. right. right. right.
      exists va. split_and!; try done. lia.
    - intros [?|[?|[(j & Hj)|(va & Hva & Hr & ? & ?)]]]; eauto.
      + right. right. exists j. split; [|done]. by apply (pt_some _ _ _ Hpt) in Hj as ([] & _).
      + right. left. right. exists va. split_and!; try done. destruct Hva as [[] _]. lia. }
  split; [done|]. intros x Hx. rewrite (kfreed_mem kend); [|apply Hpt|apply Hx; by left].
  rewrite Hm2 by (intros p Hp; apply Hx; by right).
  apply Hm1; [apply Hx; by left| |].
  - intros i t Hi. apply Hx. apply Hl2. right. right. left. by exists i.
  - intros p Hp. apply Hx. right. apply Hf2. by left.
Qed.

(** ** Adding a page to an address space *)

Definition space (s : kmem) (l : list Z) (pgdir : Z) (tabs : gmap Z Z) : Prop :=
  vm_st s l pgdir tabs /\ user_ok (pm s) l pgdir tabs.

(** A page that is neither free nor part of the address space. *)
Definition spare (s : kmem) (l : list Z) (pgdir : Z) (tabs : gmap Z Z) (f : Z) : Prop :=
  page_ok f /\ f ∉ l /\ ~ owns (pm s) pgdir tabs f.

Lemma owns_not_free s l pgdir tabs p : space s l pgdir tabs -> owns (pm s) pgdir tabs p ->
  page_ok p /\ p ∉ l.
Proof.
  intros [Hs Hu] [->|[(i & Hi)|(va & Hva & Hk & Hp & <-)]].
  - split; [apply Hs|apply Hs].
  - split; [by apply (pt_some _ _ _ (vs_pt _ _ _ _ Hs) _ _ Hi)|by apply (vs_tabs _ _ _ _ Hs) in Hi].
  - by destruct (uo_page _ _ _ _ Hu va Hva Hk Hp) as (? & ? & _).
Qed.

Lemma space_ext s l s' l' pgdir tabs : space s l pgdir tabs -> kmem_ok s' l' ->
  (forall p, p ∈ l' -> ~ owns (pm s) pgdir tabs p) ->
  (forall a, in_page pgdir a -> rd (pm s') a = rd (pm s) a) ->
  (forall i t a, tabs !! i = Some t -> in_page t a -> rd (pm s') a = rd (pm s) a) ->
  space s' l' pgdir tabs /\ forall va, pte_val (pm s') tabs va = pte_val (pm s) tabs va.
Proof.
  intros [[_ Hpt _ _] [Hu1 Hu2]] Hk Hl Hd Ht.
  destruct (pt_ext (pm s) (pm s') pgdir tabs Hpt Hd Ht) as [Hpt' Hv]. split; [|done].
  assert (He : forall va, present (pm s') tabs va = present (pm s) tabs va /\
    frame (pm s') tabs va = frame (pm s) tabs va) by (intros va; by apply present_ext).
  split; split; try done.
  - intros Hx. apply (Hl pgdir Hx). by left.
  - intros i t Hi Hx. apply (Hl t Hx). right. left. by exists i.
  - intros va Hva Hk'. destruct (He va) as [-> ->]. intros Hp.
    destruct (Hu1 va Hva Hk' Hp) as (? & _ & ? & ?). split_and!; try done.
    intros Hx. apply (Hl _ Hx). right. right. by exists va.
  - intros va va' Hva Hva' Hk1 Hk2. destruct (He va) as [-> ->], (He va') as [-> ->].
    by apply Hu2.
Qed.

Lemma owns_ext m m' pgdir tabs p : (forall va, pte_val m' tabs va = pte_val m tabs va) ->
  owns m' pgdir tabs p <-> owns m pgdir tabs p.
Proof.
  intros Hv. unfold owns, present, frame. by setoid_rewrite Hv.
Qed.

Lemma take_page s f l pgdir tabs : space s (f :: l) pgdir tabs ->
  let s1 := set_freelist (rd32 (pm s) f) s in
  kalloc c s = Done f c s1 /\ f <> 0 /\ space s1 l pgdir tabs /\ spare s1 l pgdir tabs f.
Proof.
  intros Hs s1. pose proof (vs_kmem _ _ _ _ (proj1 Hs)) as Hk.
  pose proof (ko_pages _ _ _ Hk) as [Hf _]%Forall_cons.
  pose proof (ko_nodup _ _ _ Hk) as [Hn _]%NoDup_cons.
  split; [exact (kalloc_run kend Hend c s _ Hk (fun _ => Hc))|].
  split; [by eapply page_ok_nonzero|]. split.
  - apply (space_ext s (f :: l) s1 l pgdir tabs Hs); [by apply kalloc_ok| |done..].
    intros p Hp Ho. apply (owns_not_free _ _ _ _ _ Hs) in Ho as [_ Ho]. apply Ho. by right.
  - split; [done|]. split; [done|]. intros Ho. apply (owns_not_free _ _ _ _ _ Hs) in Ho as [_ Ho].
    apply Ho. by left.
Qed.

Lemma no_page s pgdir tabs : space s [] pgdir tabs -> kalloc c s = Done 0 c s.
Proof. intros [Hs _]. exact (kalloc_run kend Hend c s _ (vs_kmem _ _ _ _ Hs) (fun _ => Hc)). Qed.

Lemma fill_page s l pgdir tabs f m' : space s l pgdir tabs -> spare s l pgdir tabs f ->
  mem_ok m' -> (forall a, ~ in_page f a -> rd m' a = rd (pm s) a) ->
  let s1 := set_pm (fun _ => m') s in
  space s1 l pgdir tabs /\ spare s1 l pgdir tabs f /\
  forall va, pte_val (pm s1) tabs va = pte_val (pm s) tabs va.
Proof.
  intros Hs (Hf & Hfl & Hfo) Hm' Hm s1.
  destruct (space_ext s l s1 l pgdir tabs Hs) as [Hs1 Hv].
  - apply (kmem_ok_frame kend Hend s); [apply Hs|done|]. intros p a Hp Ha. apply Hm.
    pose proof (ko_pages _ _ _ (vs_kmem _ _ _ _ (proj1 Hs))) as Hl. rewrite Forall_forall in Hl.
    apply (pages_apart p); [by apply Hl|done|congruence|done].
  - intros p Hp Ho. by apply (owns_not_free _ _ _ _ _ Hs) in Ho as [_ ?].
  - intros a Ha. apply Hm. apply (pages_apart pgdir); [apply Hs|done| |done].
    intros <-. apply Hfo. by left.
  - intros i t a Hi Ha. apply Hm. apply (pages_apart t); [|done| |done].
    + by apply (pt_some _ _ _ (vs_pt _ _ _ _ (proj1 Hs)) _ _ Hi).
    + intros ->. apply Hfo. right. left. by exists i.
  - split; [done|]. split; [|done]. split; [done|]. split; [done|]. by rewrite (owns_ext (pm s)).
Qed.

Lemma mappages_one pgdir va pa perm s : page_va va ->
  mappages pgdir va PGSIZE pa perm c s = mappages_loop 1 pgdir va va pa perm c s.
Proof.
  intros [Hu Ha]. unfold mappages. rewrite (u32_id (va + PGSIZE - 1)) by addr.
  rewrite !PGROUNDDOWN_eq by addr.
  replace (va - va mod PGSIZE) with va by addr.
  replace (va + PGSIZE - 1 - (va + PGSIZE - 1) mod PGSIZE) with va by addr.
  rewrite Z.sub_diag. done.
Qed.

Lemma map_present s l pgdir tabs va pa perm : vm_st s l pgdir tabs -> page_va va ->
  present (pm s) tabs va = true -> mappages pgdir va PGSIZE pa perm c s = Panic "remap".
Proof.
  intros Hs Hva Hp. rewrite mappages_one by done. cbn [mappages_loop]. unfold present, pte_val in Hp.
  destruct (tabs !! PDX va) as [t|] eqn:Ht; [|done].
  rewrite (bind_Done _ _ _ _ _ _ _ (walk_found s pgdir tabs va t true (vs_pt _ _ _ _ Hs) Ht)).
  destruct (pt_some _ _ _ (vs_pt _ _ _ _ Hs) _ _ Ht) as (_ & (? & _)%page_range & _).
  pose proof (PTX_range va). rewrite (proj2 (Z.eqb_neq _ _)) by (sizes; lia).
  unfold load. autorewrite with run. by rewrite Hp.
Qed.

(** [s'] maps [va] to [f] and is otherwise the address space of [s]. *)
Record page_added (pgdir va f perm : Z) (s : kmem) (l : list Z) (tabs : gmap Z Z)
    (s' : kmem) (l' : list Z) (tabs' : gmap Z Z) : Prop := PageAdded {
  pa_space : space s' l' pgdir tabs';
  pa_grows : grows pgdir s l tabs s' l' tabs';
  pa_pte : forall va', page_va va' -> pte_val (pm s') tabs' va' =
    if decide (va' = va) then mk_pte (V2P f) perm else pte_val (pm s) tabs va';
  pa_count : (length l <= S (length l'))%nat;
}.

Lemma mk_pte_frame f perm : page_ok f -> 0 <= perm < PGSIZE ->
  bit_set (mk_pte (V2P f) perm) PTE_P = true /\ P2V (PTE_ADDR (mk_pte (V2P f) perm)) = f /\
  uint_ok (mk_pte (V2P f) perm).
Proof.
  intros (H1 & H2 & H3)%page_range Hp. rewrite V2P_eq by addr.
  destruct (mk_pte_ok (f - KERNBASE) perm) as (_ & _ & ? & ? & ->); [addr|addr|done|].
  rewrite P2V_eq by addr. split_and!; [done|lia|done].
Qed.

Lemma map_frame s l pgdir tabs va f perm : space s l pgdir tabs -> spare s l pgdir tabs f ->
  page_va va -> present (pm s) tabs va = false -> 0 <= perm < PGSIZE ->
  (l = [] /\ mappages pgdir va PGSIZE (V2P f) perm c s = Done (-1) c s) \/
  exists s' l' tabs', mappages pgdir va PGSIZE (V2P f) perm c s = Done 0 c s' /\
    page_added pgdir va f perm s l tabs s' l' tabs'.
Proof.
  intros [Hs Hu] (Hf & Hfl & Hfo) Hva Hp Hperm. rewrite mappages_one by done.
  destruct (mk_pte_frame f perm Hf Hperm) as (Hpr & Hfr & Hv). cbn [mappages_loop].
  destruct (map_one s l pgdir tabs va _ Hs (proj1 Hva) (proj2 Hva) Hv)
    as [(-> & Hw)|(pte & s1 & s2 & l2 & tabs2 & Hw & Hnz & He & Hs2 & Hg & Hlen & _ & Hpt)];
    rewrite (bind_Done _ _ _ _ _ _ _ Hw); [by left|right].
  rewrite (proj2 (Z.eqb_neq _ _) Hnz). unfold load, store. autorewrite with run.
  rewrite He. fold (present (pm s) tabs va). rewrite Hp. autorewrite with run.
  fold (mk_pte (V2P f) perm). rewrite (u32_id _ Hv), Hs2, Z.eqb_refl.
  exists s2, l2, tabs2. split; [done|]. split; [split; [apply Hg|]|done|by intros va' []; apply Hpt|done].
  destruct (gr_fresh _ _ _ _ _ _ _ Hg) as (fresh & -> & Hfresh).
  assert (Hnt : forall i, tabs2 !! i <> Some f).
  { intros i Hi. destruct (tabs !! i) as [t|] eqn:Ht.
    - apply Hfo. right. left. exists i. by rewrite (lookup_weaken _ _ _ _ Ht (gr_sub _ _ _ _ _ _ _ Hg)) in Hi; simplify_eq.
    - apply Hfl. apply elem_of_app. left. apply Hfresh. by exists i. }
  assert (Hold : forall va', page_va va' -> va' <> va ->
    present (pm s2) tabs2 va' = present (pm s) tabs va' /\
    frame (pm s2) tabs2 va' = frame (pm s) tabs va').
  { intros va' [] ?. apply present_ext. rewrite Hpt by done. by rewrite decide_False. }
  assert (Hnew : frame (pm s2) tabs2 va = f).
  { unfold frame. rewrite Hpt by apply Hva. by rewrite decide_True. }
  assert (Hown : forall va', page_va va' -> va' < KERNBASE -> present (pm s) tabs va' = true ->
    frame (pm s) tabs va' <> f).
  { intros va' ? ? ? E. apply Hfo. right. right. by exists va'. }
  split.
  - intros va' Hva' Hk Hp'. destruct (decide (va' = va)) as [->|Hne].
    + rewrite Hnew. split_and!; [done|set_solver| |done]. intros ->. apply Hfo. by left.
    + destruct (Hold va' Hva' Hne) as [E1 ->]. rewrite E1 in Hp'.
      destruct (uo_page _ _ _ _ Hu va' Hva' Hk Hp') as (? & Hn & ? & Hnt').
      split_and!; [done|set_solver|done|]. intros i Hi. destruct (tabs !! i) as [t|] eqn:Ht.
      * apply (Hnt' i). by rewrite (lookup_weaken _ _ _ _ Ht (gr_sub _ _ _ _ _ _ _ Hg)) in Hi; simplify_eq.
      * apply Hn. apply elem_of_app. left. apply Hfresh. by exists i.
  - intros v1 v2 H1 H2 Hk1 Hk2 Hp1 Hp2 E.
    destruct (decide (v1 = va)) as [->|Hn1], (decide (v2 = va)) as [->|Hn2]; [done|..].
    + destruct (Hold v2 H2 Hn2) as [E1 E2]. rewrite Hnew, E2 in E. rewrite E1 in Hp2.
      by destruct (Hown v2 H2 Hk2 Hp2).
    + destruct (Hold v1 H1 Hn1) as [E1 E2]. rewrite Hnew, E2 in E. rewrite E1 in Hp1.
      by destruct (Hown v1 H1 Hk1 Hp1).
    + destruct (Hold v1 H1 Hn1) as [E1 E2], (Hold v2 H2 Hn2) as [E3 E4].
      rewrite E2, E4 in E. rewrite E1 in Hp1. rewrite E3 in Hp2. by apply (uo_inj _ _ _ _ Hu).
Qed.

(** ** The user's view

    [umem] is what user code can read: a partial function from user
    addresses to bytes.  The operations on address spaces are specified by
    what they do to it. *)

Definition pg (x : Z) : Z := x - x mod PGSIZE.

Definition umem (m : mem) (tabs : gmap Z Z) (x : Z) : option Z :=
  if present m tabs (pg x) then Some (rd m (frame m tabs (pg x) + x mod PGSIZE)) else None.

Definition user_addr (x : Z) : Prop := 0 <= x < KERNBASE.

Lemma pg_va x : user_addr x -> page_va (pg x) /\ pg x < KERNBASE /\ 0 <= x mod PGSIZE < PGSIZE.
Proof. unfold user_addr, pg, page_va. intros. split_and!; addr. Qed.

Lemma pg_same va x : aligned va -> pg x = va <-> va <= x < va + PGSIZE.
Proof. unfold pg. intros. addr. Qed.

Lemma in_frame f x : in_page f (f + x mod PGSIZE).
Proof. unfold in_page. pose proof (Z.mod_pos_bound x PGSIZE). sizes. lia. Qed.

Lemma umem_same m tabs m' tabs' x :
  pte_val m' tabs' (pg x) = pte_val m tabs (pg x) ->
  (present m tabs (pg x) = true ->
   rd m' (frame m tabs (pg x) + x mod PGSIZE) = rd m (frame m tabs (pg x) + x mod PGSIZE)) ->
  umem m' tabs' x = umem m tabs x.
Proof.
  intros Hv Hm. unfold umem. destruct (present_ext _ _ _ _ _ Hv) as [-> ->].
  destruct (present m tabs (pg x)); [by rewrite Hm|done].
Qed.

(** Frames are not part of the page table. *)
Lemma frame_apart s l pgdir tabs va a : space s l pgdir tabs -> page_va va -> va < KERNBASE ->
  present (pm s) tabs va = true -> in_page (frame (pm s) tabs va) a ->
  ~ in_page pgdir a /\ (forall i t, tabs !! i = Some t -> ~ in_page t a) /\
  (forall p, p ∈ l -> ~ in_page p a).
Proof.
  intros [Hs Hu] Hva Hk Hp Ha. destruct (uo_page _ _ _ _ Hu va Hva Hk Hp) as (Hf & Hl & Hd & Ht).
  split_and!.
  - by apply (pages_apart (frame (pm s) tabs va)); [|apply Hs|..].
  - intros i t Hi. apply (pages_apart (frame (pm s) tabs va)); [done| | |done].
    + by apply (pt_some _ _ _ (vs_pt _ _ _ _ Hs) _ _ Hi).
    + intros <-. by apply (Ht i).
  - intros p Hpl. apply (pages_apart (frame (pm s) tabs va)); [done| |congruence|done].
    pose proof (ko_pages _ _ _ (vs_kmem _ _ _ _ Hs)) as Hps. rewrite Forall_forall in Hps. by apply Hps.
Qed.

Lemma umem_added pgdir va f perm s l tabs s' l' tabs' x :
  page_added pgdir va f perm s l tabs s' l' tabs' -> spare s l pgdir tabs f ->
  0 <= perm < PGSIZE -> va < KERNBASE -> page_va va -> user_addr x ->
  umem (pm s') tabs' x =
  if decide (pg x = va) then Some (rd (pm s) (f + x mod PGSIZE)) else umem (pm s) tabs x.
Proof.
  intros [Hs Hg Hv] (Hf & _) Hperm Hk Hva Hx. destruct (pg_va x Hx) as (Hpv & Hpk & _).
  pose proof (Hv (pg x) Hpv) as E. destruct (decide (pg x = va)) as [Ex|Hne].
  - destruct (mk_pte_frame f perm Hf Hperm) as (Hp & Hfr & _).
    assert (present (pm s') tabs' (pg x) = true /\ frame (pm s') tabs' (pg x) = f) as [Hp' Hf']
      by (unfold present, frame; by rewrite E).
    unfold umem. rewrite Hp'. f_equal.
    destruct (frame_apart s' l' pgdir tabs' (pg x) (f + x mod PGSIZE) Hs Hpv Hpk Hp')
      as (Hd & Ht & _); [rewrite Hf'; apply in_frame|].
    rewrite Hf'. by apply (gr_mem _ _ _ _ _ _ _ Hg).
  - apply umem_same; [done|]. intros Hp. destruct (present_ext _ _ _ _ _ E) as [E1 E2].
    destruct (frame_apart s' l' pgdir tabs' (pg x) (frame (pm s) tabs (pg x) + x mod PGSIZE) Hs Hpv Hpk)
      as (Hd & Ht & _); [by rewrite E1|rewrite E2; apply in_frame|].
    by apply (gr_mem _ _ _ _ _ _ _ Hg).
Qed.

Lemma umem_dealloc a b pgdir tabs s l s' l' x :
  deallocated a b pgdir tabs s l s' l' -> user_addr x ->
  umem (pm s') tabs x = if decide (a <= pg x < b) then None else umem (pm s) tabs x.
Proof.
  intros [Hs Hu Hv Hf Hm] Hx. destruct (pg_va x Hx) as (Hpv & Hpk & _).
  pose proof (Hv (pg x) Hpv) as E. destruct (decide (a <= pg x < b /\ _)) as [[Hr Hp]|Hn].
  - rewrite decide_True by done. unfold umem. by rewrite not_present_zero.
  - destruct (decide (a <= pg x < b)) as [Hr|Hr].
    + unfold umem. destruct (present_ext _ _ _ _ _ E) as [-> _].
      destruct (present (pm s) tabs (pg x)) eqn:Hp; [|done]. by destruct Hn.
    + apply umem_same; [done|]. intros Hp. destruct (present_ext _ _ _ _ _ E) as [E1 E2].
      destruct (frame_apart s' l' pgdir tabs (pg x) (frame (pm s) tabs (pg x) + x mod PGSIZE)
        (conj Hs Hu) Hpv Hpk) as (Hd & Ht & Hl); [by rewrite E1|rewrite E2; apply in_frame|].
      by apply Hm.
Qed.

Lemma umem_fill s l pgdir tabs f m' x : space s l pgdir tabs -> spare s l pgdir tabs f ->
  (forall a, ~ in_page f a -> rd m' a = rd (pm s) a) ->
  (forall va, pte_val m' tabs va = pte_val (pm s) tabs va) -> user_addr x ->
  umem m' tabs x = umem (pm s) tabs x.
Proof.
  intros [Hs Hu] (Hf & _ & Ho) Hm Hv Hx. destruct (pg_va x Hx) as (Hpv & Hpk & _).
  apply umem_same; [apply Hv|]. intros Hp. apply Hm.
  destruct (uo_page _ _ _ _ Hu _ Hpv Hpk Hp) as (Hfp & _).
  apply (pages_apart (frame (pm s) tabs (pg x)) f); [done..| |apply in_frame].
  intros E. apply Ho. right. right. by exists (pg x).
Qed.

(** Pages move from the free list to the address space, none is lost. *)
Lemma owns_added pgdir va f perm s l tabs s' l' tabs' p :
  page_added pgdir va f perm s l tabs s' l' tabs' -> page_ok f -> 0 <= perm < PGSIZE ->
  page_va va -> va < KERNBASE -> present (pm s) tabs va = false ->
  (p = f \/ p ∈ l) \/ owns (pm s) pgdir tabs p <-> p ∈ l' \/ owns (pm s') pgdir tabs' p.
Proof.
  intros [_ Hg Hv] Hf Hperm Hva Hk Hnp. destruct (mk_pte_frame f perm Hf Hperm) as (Hp & Hfr & _).
  destruct (gr_fresh _ _ _ _ _ _ _ Hg) as (fresh & -> & Hfresh). pose proof (gr_sub _ _ _ _ _ _ _ Hg) as Hsub.
  assert (Hnew : present (pm s') tabs' va = true /\ frame (pm s') tabs' va = f).
  { unfold present, frame. rewrite Hv, decide_True by done. done. }
  assert (Hold : forall v, page_va v -> v <> va -> present (pm s') tabs' v = present (pm s) tabs v /\
    frame (pm s') tabs' v = frame (pm s) tabs v).
  { intros v ? ?. apply present_ext. rewrite Hv by done. by rewrite decide_False. }
  rewrite elem_of_app, Hfresh. unfold owns. split.
  - intros [[->|[(i & Hi & _)|?]]|[->|[(i & Hi)|(v & ? & ? & ? & ?)]]]; eauto 6.
    + right. right. right. exists va. by destruct Hnew.
    + right. right. left. exists i. by eapply lookup_weaken.
    + right. right. right. exists v. destruct (Hold v) as [-> ->]; [done| |done]. congruence.
  - intros [?|[->|[(i & Hi)|(v & ? & ? & Hpv & Hfv)]]]; eauto 6.
    + destruct (tabs !! i) as [t|] eqn:Ht; [|eauto 6]. right. right. left. exists i.
      rewrite (lookup_weaken _ _ _ _ Ht Hsub) in Hi. by simplify_eq.
    + destruct (decide (v = va)) as [->|Hne].
      * left. left. destruct Hnew as [_ E]. congruence.
      * right. right. right. exists v. by destruct (Hold v) as [<- <-].
Qed.

(** Allocating a page, filling it and mapping it at [va], the sequence
    [allocuvm], [copyuvm] and the page fault handlers share. *)
Inductive new_page (fill : Z -> mem -> mem) (perm : Z) (s : kmem) (l : list Z) (pgdir : Z)
    (tabs : gmap Z Z) (va : Z) : Prop :=
  | new_none : l = [] -> kalloc c s = Done 0 c s -> new_page fill perm s l pgdir tabs va
  | new_nomap f s0 s1 : l = [f] -> kalloc c s = Done f c s0 -> f <> 0 ->
      set_pm (fill f) s0 = s1 -> space s1 [] pgdir tabs -> spare s1 [] pgdir tabs f ->
      (forall va, pte_val (pm s1) tabs va = pte_val (pm s) tabs va) ->
      (forall x, user_addr x -> umem (pm s1) tabs x = umem (pm s) tabs x) ->
      (forall a, ~ in_page f a -> rd (pm s1) a = rd (pm s) a) ->
      mappages pgdir va PGSIZE (V2P f) perm c s1 = Done (-1) c s1 ->
      new_page fill perm s l pgdir tabs va
  | new_mapped f l1 s0 s1 s' l' tabs' : l = f :: l1 -> kalloc c s = Done f c s0 -> f <> 0 ->
      set_pm (fill f) s0 = s1 ->
      mappages pgdir va PGSIZE (V2P f) perm c s1 = Done 0 c s' ->
      space s' l' pgdir tabs' ->
      (forall va', page_va va' -> pte_val (pm s') tabs' va' =
        if decide (va' = va) then mk_pte (V2P f) perm else pte_val (pm s) tabs va') ->
      (forall x, user_addr x -> umem (pm s') tabs' x =
        if decide (pg x = va) then Some (rd (fill f (pm s)) (f + x mod PGSIZE))
        else umem (pm s) tabs x) ->
      (forall p, p ∈ l \/ owns (pm s) pgdir tabs p <-> p ∈ l' \/ owns (pm s') pgdir tabs' p) ->
      (forall a, ~ owns (pm s') pgdir tabs' (pg a) -> rd (pm s') a = rd (pm s) a) ->
      (length l <= S (S (length l')))%nat ->
      new_page fill perm s l pgdir tabs va.

Lemma in_page_pg p a : aligned p -> in_page p a <-> pg a = p.
Proof. unfold in_page, pg. intros. addr. Qed.

Lemma new_page_run fill perm s l pgdir tabs va : space s l pgdir tabs ->
  page_va va -> va < KERNBASE -> present (pm s) tabs va = false -> 0 <= perm < PGSIZE ->
  (forall f m, mem_ok m -> mem_ok (fill f m)) ->
  (forall f m a, mem_ok m -> page_ok f -> ~ in_page f a -> rd (fill f m) a = rd m a) ->
  new_page fill perm s l pgdir tabs va.
Proof.
  intros Hs Hva Hk Hp Hperm Hmo Hmf. pose proof (ko_mem _ _ _ (vs_kmem _ _ _ _ (proj1 Hs))) as Hmem.
  destruct l as [|f l]; [by apply new_none; [|eapply no_page]|].
  destruct (take_page s f l pgdir tabs Hs) as (Hka & Hnz & Hs0 & Hsp).
  set (s0 := set_freelist (rd32 (pm s) f) s) in *.
  destruct (fill_page s0 l pgdir tabs f (fill f (pm s)) Hs0 Hsp) as (Hs1 & Hsp1 & Hv1).
  { by apply Hmo. }
  { intros a Ha. apply Hmf; [done|apply Hsp|done]. }
  assert (Hu1 : forall x, user_addr x -> umem (fill f (pm s)) tabs x = umem (pm s) tabs x).
  { intros x Hx. apply (umem_fill s0 l pgdir tabs f); try done.
    intros a Ha. apply Hmf; [done|apply Hsp|done]. }
  change (set_pm (fun _ => fill f (pm s)) s0) with (set_pm (fill f) s0) in *.
  set (s1 := set_pm (fill f) s0) in *.
  destruct (map_frame s1 l pgdir tabs va f perm Hs1 Hsp1 Hva) as [(-> & Hm)|(s' & l' & tabs' & Hm & Ha)].
  - destruct (present_ext _ _ _ _ _ (Hv1 va)) as [-> _]. done.
  - done.
  - eapply new_nomap; try done. intros a Ha. apply Hmf; [done|apply Hsp|done].
  - eapply (new_mapped _ _ _ _ _ _ _ f l s0 s1 s' l' tabs'); try done.
    + apply Ha.
    + intros va' Hva'. rewrite (pa_pte _ _ _ _ _ _ _ _ _ _ Ha) by done. case_decide; [done|apply Hv1].
    + intros x Hx. rewrite (umem_added _ _ _ _ _ _ _ _ _ _ x Ha) by done.
      case_decide; [done|by apply Hu1].
    + intros p. rewrite <- (owns_added _ _ _ _ _ _ _ _ _ _ p Ha); [|apply Hsp|done|done|done|].
      * rewrite elem_of_cons, (owns_ext (pm s) (pm s1)) by done. tauto.
      * by destruct (present_ext _ _ _ _ _ (Hv1 va)) as [-> _].
    + intros a Hno. destruct Ha as [Hs' Hg Hpt _]. transitivity (rd (pm s1) a).
      * apply (gr_mem _ _ _ _ _ _ _ Hg).
        -- rewrite in_page_pg by apply (pt_dir _ _ _ (vs_pt _ _ _ _ (proj1 Hs))). intros E. apply Hno. by left.
        -- intros i t Hi. rewrite in_page_pg; [intros E; apply Hno; right; left; exists i; congruence|].
           by apply (pt_some _ _ _ (vs_pt _ _ _ _ (proj1 Hs')) _ _ Hi).
      * apply Hmf; [done|apply Hsp|]. rewrite in_page_pg by apply Hsp. intros E. apply Hno. right. right.
        exists va. split; [done|]. split; [done|]. unfold present, frame. rewrite Hpt by done.
        rewrite decide_True by done. destruct (mk_pte_frame f perm) as (? & ? & _); [apply Hsp|done|].
        split; [done|congruence].
    + pose proof (pa_count _ _ _ _ _ _ _ _ _ _ Ha). cbn. lia.
Qed.

Lemma free_spare s l pgdir tabs f : space s l pgdir tabs -> spare s l pgdir tabs f ->
  kfree kend f c s = Done tt c (kfreed f s) /\ space (kfreed f s) (f :: l) pgdir tabs /\
  (forall va, pte_val (pm (kfreed f s)) tabs va = pte_val (pm s) tabs va) /\
  forall x, user_addr x -> umem (pm (kfreed f s)) tabs x = umem (pm s) tabs x.
Proof.
  intros Hs (Hf & Hfl & Ho). destruct (free_frame s l pgdir tabs f (proj1 Hs) Hf Hfl) as (Hk & Hs' & Hv).
  { intros ->. apply Ho. by left. }
  { intros i Hi. apply Ho. right. left. by exists i. }
  split; [done|]. split; [split; [done|]|split; [done|]].
  - destruct Hs as [Hs [Hu1 Hu2]].
    assert (He : forall va, present (pm (kfreed f s)) tabs va = present (pm s) tabs va /\
      frame (pm (kfreed f s)) tabs va = frame (pm s) tabs va) by (intros va; by apply present_ext).
    split.
    + intros va Hva Hk'. destruct (He va) as [-> ->]. intros Hp.
      destruct (Hu1 va Hva Hk' Hp) as (? & ? & ? & ?). split_and!; try done.
      apply not_elem_of_cons. split; [|done]. intros E. apply Ho. right. right. by exists va.
    + intros va va' Hva Hva' Hk1 Hk2. destruct (He va) as [-> ->], (He va') as [-> ->]. by apply Hu2.
  - intros x Hx. apply (umem_fill s l pgdir tabs f); [done..| |done|done].
    intros a Ha. by apply (kfreed_mem kend).
Qed.

Lemma dealloc_spare a b s l s' l' pgdir tabs f : b <= KERNBASE -> 0 <= a ->
  deallocated a b pgdir tabs s l s' l' -> spare s l pgdir tabs f -> spare s' l' pgdir tabs f.
Proof.
  intros Hb Ha [Hs Hu Hv Hf Hm] (Hfp & Hfl & Ho). split; [done|]. split.
  - rewrite Hf. intros [?|(va & Hva & Hr & Hp & E)]; [done|]. apply Ho. right. right.
    exists va. split_and!; try done. lia.
  - intros [->|[(i & Hi)|(va & Hva & Hr & Hp & E)]]; apply Ho; [by left|by right; left; exists i|].
    right. right. pose proof (Hv va Hva) as E'. case_decide as Hd.
    + rewrite not_present_zero in Hp by done. done.
    + destruct (present_ext _ _ _ _ _ E') as [E1 E2]. exists va. by rewrite <- E1, <- E2.
Qed.

(** ** [allocuvm] *)

Definition zeroed (f : Z) (m : mem) : mem := memset m f 0 PGSIZE.

Lemma zeroed_ok f m : mem_ok m -> mem_ok (zeroed f m).
Proof. intros. by apply mem_ok_memset. Qed.

Lemma zeroed_out f m a : mem_ok m -> page_ok f -> ~ in_page f a -> rd (zeroed f m) a = rd m a.
Proof. intros _ _ Ha. unfold zeroed. rewrite rd_memset by done. by rewrite decide_False. Qed.

Lemma zeroed_in f m x : rd (zeroed f m) (f + x mod PGSIZE) = 0.
Proof. unfold zeroed. rewrite rd_memset by done. by rewrite decide_True by apply in_frame. Qed.

Definition wu : Z := Z.lor PTE_W PTE_U.

Lemma wu_ok : 0 <= wu < PGSIZE.
Proof. done. Qed.

(** What [allocuvm] returns, and the user's memory afterwards. *)
Definition alloc_result (lo a newsz r : Z) (u u' : Z -> option Z) : Prop :=
  (r = newsz /\ forall x, user_addr x ->
     u' x = if decide (a <= pg x < newsz) then Some 0 else u x) \/
  (r = 0 /\ forall x, user_addr x ->
     u' x = if decide (lo <= pg x < newsz) then None else u x).

Lemma alloc_result_step lo a newsz r u u1 u' : aligned a -> lo <= a < newsz -> newsz <= KERNBASE ->
  (forall x, user_addr x -> u1 x = if decide (pg x = a) then Some 0 else u x) ->
  alloc_result lo (a + PGSIZE) newsz r u1 u' -> alloc_result lo a newsz r u u'.
Proof.
  intros Ha Hlo Hk H1 [[-> H2]|[-> H2]]; [left|right]; (split; [done|]); intros x Hx;
    rewrite H2, H1 by done.
  - assert (aligned (pg x)) by (unfold pg; addr). destruct (decide (pg x = a)) as [->|Hne].
    + rewrite decide_False, decide_True by (sizes; lia). done.
    + destruct (decide (a + PGSIZE <= pg x < newsz)).
      * by rewrite decide_True by (sizes; lia).
      * by rewrite decide_False by addr.
  - destruct (decide (lo <= pg x < newsz)); [done|]. by rewrite decide_False by lia.
Qed.

Lemma allocuvm_loop_run fuel : forall s l pgdir tabs a oldsz newsz,
  (0 < fuel)%nat -> newsz - a <= PGSIZE * (Z.of_nat fuel - 1) -> newsz < KERNBASE ->
  0 <= oldsz -> oldsz <= PGROUNDUP oldsz <= a -> a < 2 ^ 32 -> aligned a -> space s l pgdir tabs ->
  (forall va, page_va va -> a <= va < newsz -> present (pm s) tabs va = false) ->
  exists r s' l' tabs', allocuvm_loop kend fuel pgdir a oldsz newsz c s = Done r c s' /\
    space s' l' pgdir tabs' /\
    alloc_result (PGROUNDUP oldsz) a newsz r (umem (pm s) tabs) (umem (pm s') tabs').
Proof.
  induction fuel as [|fuel IH]; intros s l pgdir tabs a oldsz newsz Hf Hfu Hk Ho Hlo Ha32 Ha Hs Hn; [lia|].
  cbn [allocuvm_loop]. destruct (Z.ltb_spec a newsz) as [Han|Han].
  2:{ exists newsz, s, l, tabs. split; [done|]. split; [done|]. left. split; [done|].
      intros x _. by rewrite decide_False by lia. }
  assert (page_va a) as Hva by (split; [word_unfold; lia|done]).
  destruct (new_page_run zeroed wu s l pgdir tabs a Hs Hva ltac:(lia) ltac:(apply Hn; [done|lia])
    wu_ok zeroed_ok zeroed_out)
    as [-> Hka|f s0 s1 -> Hka Hnz Hs1 Hsp1 Hspf Hv1 Hu1 _ Hm|f l1 s0 s1 s' l' tabs' -> Hka Hnz Hs1 Hm Hsp' Hv' Hu' _ _ _];
    rewrite (bind_Done _ _ _ _ _ _ _ Hka).
  - cbn [Z.eqb]. destruct (deallocuvm_run s [] pgdir tabs newsz oldsz ltac:(lia) ltac:(lia)
      (proj1 Hs) (proj2 Hs)) as (s' & l' & Hd & Hde).
    rewrite (bind_Done _ _ _ _ _ _ _ Hd). exists 0, s', l', tabs. split; [done|].
    split; [split; apply Hde|]. right. split; [done|]. intros x Hx. by apply (umem_dealloc _ _ _ _ _ _ _ _ _ Hde).
  - rewrite (proj2 (Z.eqb_neq _ _) Hnz). autorewrite with run.
    change (set_pm (fun m => memset m f 0 PGSIZE) s0) with (set_pm (zeroed f) s0). rewrite Hs1.
    rewrite (bind_Done _ _ _ _ _ _ _ Hm). cbn [Z.ltb Z.compare].
    destruct (deallocuvm_run s1 [] pgdir tabs newsz oldsz ltac:(lia) ltac:(lia)
      (proj1 Hsp1) (proj2 Hsp1)) as (s' & l' & Hd & Hde).
    rewrite (bind_Done _ _ _ _ _ _ _ Hd).
    destruct (free_spare s' l' pgdir tabs f) as (Hkf & Hs' & _ & Hu'); [split; apply Hde| |].
    { eapply dealloc_spare; [| |exact Hde|exact Hspf]; lia. }
    rewrite (bind_Done _ _ _ _ _ _ _ Hkf). exists 0, (kfreed f s'), (f :: l'), tabs.
    split; [done|]. split; [done|]. right. split; [done|]. intros x Hx. rewrite Hu' by done.
    rewrite (umem_dealloc _ _ _ _ _ _ _ _ _ Hde) by done. case_decide; [done|by apply Hu1].
  - rewrite (proj2 (Z.eqb_neq _ _) Hnz). autorewrite with run.
    change (set_pm (fun m => memset m f 0 PGSIZE) s0) with (set_pm (zeroed f) s0). rewrite Hs1.
    rewrite (bind_Done _ _ _ _ _ _ _ Hm). cbn [Z.ltb Z.compare].
    rewrite u32_id by (sizes; word_unfold; lia).
    destruct (IH s' l' pgdir tabs' (a + PGSIZE) oldsz newsz) as (r & s2 & l2 & tabs2 & -> & Hs2 & Hr);
      [sizes; lia|lia|done|done|sizes; lia|sizes; lia|addr|done| |].
    + intros va Hva' Hr. destruct (present_ext _ _ _ _ _ (eq_trans (Hv' va Hva')
        ltac:(by rewrite decide_False by (sizes; lia)))) as [-> _]. apply Hn; [done|sizes; lia].
    + exists r, s2, l2, tabs2. split; [done|]. split; [done|].
      eapply alloc_result_step; [done|lia|lia| |exact Hr]. intros x Hx. cbn beta. rewrite Hu' by done.
      case_decide; [|done]. by rewrite zeroed_in.
Qed.

(** ** [setupkvm] *)

Lemma mappages_run n s l pgdir tabs va pa perm : vm_st s l pgdir tabs ->
  page_va va -> va + PGSIZE * (Z.of_nat n + 1) <= 2 ^ 32 ->
  aligned pa -> 0 <= pa -> pa + PGSIZE * (Z.of_nat n + 1) <= 2 ^ 32 -> 0 <= perm < PGSIZE ->
  (forall v, page_va v -> va <= v < va + PGSIZE * (Z.of_nat n + 1) -> present (pm s) tabs v = false) ->
  exists r s' l' tabs' k,
    mappages pgdir va (PGSIZE * (Z.of_nat n + 1)) pa perm c s = Done r c s' /\
    grows pgdir s l tabs s' l' tabs' /\
    ((r = 0 /\ k = Z.of_nat n + 1) \/ (r = -1 /\ l' = [] /\ 0 <= k <= Z.of_nat n)) /\
    new_tables (fun v => va <= v < va + PGSIZE * (Z.of_nat n + 1)) tabs tabs' /\
    forall v, page_va v -> pte_val (pm s') tabs' v =
      if decide (va <= v < va + PGSIZE * k) then mk_pte (pa + (v - va)) perm
      else pte_val (pm s) tabs v.
Proof.
  intros Hs [Hu Ha] Hv Hpa Hpa0 Hpa1 Hperm Hn. unfold mappages.
  rewrite (u32_id (_ + _ - 1)) by (sizes; word_unfold; lia).
  rewrite !PGROUNDDOWN_eq by addr.
  replace (va - va mod PGSIZE) with va by addr.
  replace (_ - _ mod PGSIZE) with (va + PGSIZE * Z.of_nat n) by addr.
  replace (va + PGSIZE * Z.of_nat n - va) with (PGSIZE * Z.of_nat n) by lia.
  rewrite u32_id by (sizes; word_unfold; lia). rewrite (Z.mul_comm PGSIZE), Z.div_mul, Nat2Z.id, (Z.mul_comm _ PGSIZE) by done.
  destruct (mappages_loop_run n (S n) s l pgdir tabs va pa perm) as (r & s' & l' & tabs' & k & H1 & H2 & H3 & H4 & H5);
    try done; try (sizes; word_unfold; lia).
  - intros i Hi. apply Hn; [split|]; addr.
  - exists r, s', l', tabs', k. split_and!; try done. intros v []. by apply H5.
Qed.

Definition ksize (k : kmap_entry) : Z := u32 (phys_end k - phys_start k).
Definition in_region (k : kmap_entry) (va : Z) : Prop := virt k <= va < virt k + ksize k.

Record region_ok (k : kmap_entry) : Prop := RegionOk {
  rg_virt : page_va (virt k);
  rg_kern : KERNBASE <= virt k;
  rg_top : virt k + ksize k <= 2 ^ 32;
  rg_phys : aligned (phys_start k) /\ 0 <= phys_start k /\ phys_start k + ksize k <= 2 ^ 32;
  rg_size : aligned (ksize k) /\ 0 < ksize k;
  rg_perm : 0 <= kperm k < PGSIZE;
}.

Definition apart (k k' : kmap_entry) : Prop := forall va, in_region k va -> ~ in_region k' va.

(** The entry a list of regions gives an address. *)
Fixpoint kpte (ks : list kmap_entry) (va old : Z) : Z :=
  match ks with
  | [] => old
  | k :: ks' =>
    if decide (in_region k va) then mk_pte (phys_start k + (va - virt k)) (kperm k)
    else kpte ks' va old
  end.

(** An address space with no user pages. *)
Definition bare (s : kmem) (l : list Z) (pgdir : Z) (tabs : gmap Z Z) : Prop :=
  vm_st s l pgdir tabs /\ forall va, page_va va -> va < KERNBASE -> pte_val (pm s) tabs va = 0.

Lemma bare_space s l pgdir tabs : bare s l pgdir tabs -> space s l pgdir tabs.
Proof.
  intros [Hs Hz]. split; [done|]. split.
  - intros va Hva Hk Hp. by rewrite not_present_zero in Hp by auto.
  - intros va va' Hva _ Hk _ Hp. by rewrite not_present_zero in Hp by auto.
Qed.

Lemma bare_owns s l pgdir tabs p : bare s l pgdir tabs ->
  owns (pm s) pgdir tabs p <-> p = pgdir \/ exists i, tabs !! i = Some p.
Proof.
  intros [Hs Hz]. unfold owns. split; [|tauto].
  intros [?|[?|(va & Hva & Hk & Hp & _)]]; eauto. by rewrite not_present_zero in Hp by auto.
Qed.

Lemma grows_owns pgdir s l tabs s' l' tabs' p : grows pgdir s l tabs s' l' tabs' ->
  bare s l pgdir tabs -> bare s' l' pgdir tabs' ->
  p ∈ l \/ owns (pm s) pgdir tabs p <-> p ∈ l' \/ owns (pm s') pgdir tabs' p.
Proof.
  intros [_ Hsub (fresh & -> & Hf) _] Hb Hb'. rewrite (bare_owns _ _ _ _ _ Hb), (bare_owns _ _ _ _ _ Hb').
  rewrite elem_of_app, Hf. split.
  - intros [[(i & ? & _)|?]|[?|(i & Hi)]]; eauto.
    right. right. exists i. by eapply lookup_weaken.
  - intros [?|[?|(i & Hi)]]; eauto. destruct (tabs !! i) as [t|] eqn:Ht; [|eauto].
    right. right. exists i. rewrite (lookup_weaken _ _ _ _ Ht Hsub) in Hi. by simplify_eq.
Qed.

(** What building an address space leaves: nothing, with every page back on
    the free list, or a new space made of pages that were free. *)
Definition built (ks : list kmap_entry) (L : list Z) (m : mem) (old : Z -> Z) (pgdir r : Z) (s' : kmem) : Prop :=
  (r = 0 /\ exists l', kmem_ok s' l' /\ (forall p, p ∈ l' <-> p ∈ L) /\
     (forall a, pg a ∉ L -> rd (pm s') a = rd m a)) \/
  (r = pgdir /\ exists l' tabs', bare s' l' pgdir tabs' /\
     (forall va, page_va va -> pte_val (pm s') tabs' va = kpte ks va (old va)) /\
     (forall p, p ∈ L <-> p ∈ l' \/ owns (pm s') pgdir tabs' p) /\
     (forall a, pg a ∉ L -> rd (pm s') a = rd m a)).

Fixpoint regions_apart (ks : list kmap_entry) : Prop :=
  match ks with [] => True | k :: ks' => Forall (apart k) ks' /\ regions_apart ks' end.

Lemma kpte_out ks va x : (forall k, k ∈ ks -> ~ in_region k va) -> kpte ks va x = x.
Proof.
  induction ks as [|k ks IH]; intros H; cbn; [done|]. rewrite decide_False by (apply H; by left).
  apply IH. intros k' Hk. apply H. by right.
Qed.

Lemma map_region k s l pgdir tabs : region_ok k -> bare s l pgdir tabs ->
  (forall va, page_va va -> in_region k va -> present (pm s) tabs va = false) ->
  exists r s' l' tabs',
    mappages pgdir (virt k) (u32 (phys_end k - phys_start k)) (phys_start k) (kperm k) c s = Done r c s' /\
    grows pgdir s l tabs s' l' tabs' /\ bare s' l' pgdir tabs' /\ new_tables (in_region k) tabs tabs' /\
    ((r = -1 /\ l' = []) \/ (r = 0 /\ forall va, page_va va -> pte_val (pm s') tabs' va =
       if decide (in_region k va) then mk_pte (phys_start k + (va - virt k)) (kperm k)
       else pte_val (pm s) tabs va)).
Proof.
  intros [Hv Hk Ht (Hp1 & Hp2 & Hp3) (Hs1 & Hs2) Hpm] [Hs Hz] Hn. fold (ksize k).
  set (n := Z.to_nat (ksize k / PGSIZE - 1)).
  assert (ksize k = PGSIZE * (Z.of_nat n + 1)) as E by (unfold n; rewrite Z2Nat.id; addr).
  unfold in_region in *. rewrite E in *.
  destruct (mappages_run n s l pgdir tabs (virt k) (phys_start k) (kperm k))
    as (r & s' & l' & tabs' & k' & -> & Hg & Hr & Hnew & Hpte); try done.
  assert (k' <= Z.of_nat n + 1) as Hk' by (destruct Hr as [[??]|(?&?&?)]; lia).
  exists r, s', l', tabs'. split; [done|]. split; [done|]. split.
  - split; [apply Hg|]. intros va Hva Hlo. rewrite Hpte by done. rewrite decide_False by (sizes; lia). auto.
  - split; [exact Hnew|]. destruct Hr as [[-> ->]|(-> & -> & _)]; [right|by left]. done.
Qed.

Lemma setupkvm_loop_run L m0 ks : forall s l pgdir tabs,
  bare s l pgdir tabs -> Forall region_ok ks -> regions_apart ks ->
  (forall k va, k ∈ ks -> page_va va -> in_region k va -> present (pm s) tabs va = false) ->
  (forall p, p ∈ L <-> p ∈ l \/ owns (pm s) pgdir tabs p) ->
  (forall a, pg a ∉ L -> rd (pm s) a = rd m0 a) ->
  exists r s', setupkvm_loop kend ks pgdir c s = Done r c s' /\
    built ks L m0 (pte_val (pm s) tabs) pgdir r s'.
Proof.
  induction ks as [|k ks IH]; intros s l pgdir tabs Hb Hok Hap Hn HL Hm; cbn [setupkvm_loop].
  - exists pgdir, s. split; [done|]. right. split; [done|]. by exists l, tabs.
  - apply Forall_cons in Hok as [Hk Hok]. destruct Hap as [Hka Hap]. rewrite Forall_forall in Hka.
    destruct (map_region k s l pgdir tabs Hk Hb) as (r & s1 & l1 & tabs1 & Hr & Hg & Hb1 & _ & Hcase).
    { intros va. apply Hn. by left. }
    rewrite (bind_Done _ _ _ _ _ _ _ Hr).
    assert (HL1 : forall p, p ∈ L <-> p ∈ l1 \/ owns (pm s1) pgdir tabs1 p).
    { intros p. rewrite HL. by eapply grows_owns. }
    assert (Hm1 : forall a, pg a ∉ L -> rd (pm s1) a = rd m0 a).
    { intros a Ha. rewrite <- Hm by done. apply (gr_mem _ _ _ _ _ _ _ Hg).
      - rewrite in_page_pg by apply (pt_dir _ _ _ (vs_pt _ _ _ _ (proj1 Hb))). intros E. apply Ha, HL1.
        right. by left.
      - intros i t Hi. rewrite in_page_pg by by apply (pt_some _ _ _ (vs_pt _ _ _ _ (proj1 Hb1)) _ _ Hi).
        intros E. apply Ha, HL1. right. right. left. exists i. congruence. }
    destruct Hcase as [[-> _]|[-> Hpte]]; cbn [Z.ltb Z.compare].
    + destruct (bare_space _ _ _ _ Hb1) as [Hs1 Hu1].
      destruct (freevm_run s1 l1 pgdir tabs1 Hs1 Hu1) as (s' & l' & Hf & Hk' & Hl' & Hm').
      rewrite (bind_Done _ _ _ _ _ _ _ Hf). exists 0, s'. split; [done|]. left. split; [done|].
      exists l'. split; [done|]. split; [intros p; by rewrite Hl', HL1|].
      intros a Ha. rewrite Hm'; [by apply Hm1|]. intros p Hp.
      rewrite in_page_pg; [intros <-; by apply Ha, HL1, Hl'|].
      pose proof (ko_pages _ _ _ Hk') as Hps. rewrite Forall_forall in Hps. by apply Hps.
    + destruct (IH s1 l1 pgdir tabs1 Hb1 Hok Hap) as (r & s' & -> & Hr'); [|done|done|].
      * intros k' va Hk' Hva Hin. destruct (present_ext _ _ _ _ _ (eq_trans (Hpte va Hva)
          ltac:(rewrite decide_False by (intros ?; by eapply Hka); done))) as [-> _].
        apply (Hn k'); [by right|done..].
      * exists r, s'. split; [done|]. destruct Hr' as [?|[-> (l' & tabs' & ? & Hp' & ?)]]; [by left|right].
        split; [done|]. exists l', tabs'. split; [done|]. split; [|done].
        intros va Hva. rewrite Hp', Hpte by done. cbn [kpte]. destruct (decide (in_region k va)); [|done].
        apply kpte_out. intros k' Hk'' ?. by eapply Hka.
Qed.

(** [data], the end of the kernel's read-only part, is page-aligned and lies
    between the kernel's load address and [end] (src/kernel.ld). *)
Context (Hdata : aligned kdata /\ KERNLINK < kdata < KERNBASE + PHYSTOP).

Lemma kmap_ok : Forall region_ok (kmap kdata) /\ regions_apart (kmap kdata).
Proof.
  assert (V2P kdata = kdata - KERNBASE) as Hd by (apply V2P_eq; addr).
  assert (V2P KERNLINK = EXTMEM) as Hl by done. unfold kmap. rewrite Hd, Hl. split.
  - repeat constructor; unfold ksize; cbn [virt phys_start phys_end kperm]; try done; try addr.
  - cbn [regions_apart]. unfold apart, in_region, ksize. cbn [virt phys_start phys_end kperm].
    split_and!; repeat constructor; cbn [virt phys_start phys_end kperm]; intros; addr.
Qed.

(** A zeroed page is an empty page directory. *)
Lemma empty_dir s f l : kmem_ok s (f :: l) ->
  bare (set_pm (zeroed f) (set_freelist (rd32 (pm s) f) s)) l f ∅.
Proof.
  intros Hk. pose proof (ko_pages _ _ _ Hk) as [Hf Hl]%Forall_cons.
  pose proof (ko_nodup _ _ _ Hk) as [Hn _]%NoDup_cons. rewrite Forall_forall in Hl.
  split; [|done]. split; [|split; try done| done| done].
  - apply (kmem_ok_frame kend Hend (set_freelist (rd32 (pm s) f) s) l (zeroed f (pm s)) (kalloc_ok _ _ _ _ Hk)).
    + apply zeroed_ok, Hk.
    + intros p a Hp Ha. apply zeroed_out; [apply Hk|done|].
      apply (pages_apart p f a); [by apply Hl|done|congruence|done].
  - intros i Hi _. cbn. rewrite rd32_zero; [done|]. intros b Hb. unfold zeroed.
    rewrite rd_memset by done. rewrite decide_True; [done|]. by apply (word_in_page f i).
Qed.

Definition kernel_pte (va : Z) : Z := kpte (kmap kdata) va 0.

Definition back (L : list Z) (m : mem) (s' : kmem) : Prop :=
  exists l', kmem_ok s' l' /\ (forall p, p ∈ l' <-> p ∈ L) /\
    (forall a, pg a ∉ L -> rd (pm s') a = rd m a).

Lemma setupkvm_run s L : kmem_ok s L ->
  exists r s', setupkvm kend kdata c s = Done r c s' /\
    ((r = 0 /\ back L (pm s) s') \/
     (r <> 0 /\ exists l' tabs', bare s' l' r tabs' /\
       (forall va, page_va va -> pte_val (pm s') tabs' va = kernel_pte va) /\
       (forall p, p ∈ L <-> p ∈ l' \/ owns (pm s') r tabs' p) /\
       (forall a, pg a ∉ L -> rd (pm s') a = rd (pm s) a))).
Proof.
  intros Hk. unfold setupkvm. pose proof (kalloc_run kend Hend c s L Hk (fun _ => Hc)) as Hka.
  destruct L as [|f L].
  { rewrite (bind_Done _ _ _ _ _ _ _ Hka). exists 0, s. split; [done|]. left. split; [done|]. by exists []. }
  rewrite (bind_Done _ _ _ _ _ _ _ Hka). pose proof (ko_pages _ _ _ Hk) as [Hf _]%Forall_cons.
  pose proof (page_ok_nonzero kend Hend _ Hf) as Hnz. rewrite (proj2 (Z.eqb_neq _ _) Hnz).
  autorewrite with run. change (P2V PHYSTOP >? DEVSPACE) with false. cbn match.
  pose proof (empty_dir s f L Hk) as Hb. unfold zeroed at 1 in Hb.
  set (s1 := set_pm (fun m => memset m f 0 PGSIZE) _) in *.
  destruct kmap_ok as [Hok Hap].
  destruct (setupkvm_loop_run (f :: L) (pm s) (kmap kdata) s1 L f ∅ Hb Hok Hap) as (r & s' & -> & Hr).
  - done.
  - intros p. rewrite (bare_owns _ _ _ _ _ Hb), elem_of_cons. split; [tauto|].
    intros [?|[?|(i & [=])]]; tauto.
  - intros a Ha. apply zeroed_out; [apply Hk|done|]. rewrite in_page_pg by apply Hf. intros E. apply Ha, elem_of_cons. by left.
  - exists r, s'. split; [done|]. destruct Hr as [[-> ?]|(-> & l' & tabs' & ? & ? & ? & ?)]; [by left|right].
    split; [done|]. by exists l', tabs'.
Qed.

(** The pages that building an address space takes: all there are if it fails. *)
Definition in_regions (ks : list kmap_entry) (va : Z) : Prop := exists k, k ∈ ks /\ in_region k va.

Lemma setupkvm_loop_pages ks : forall s l pgdir tabs r s',
  bare s l pgdir tabs -> Forall region_ok ks -> regions_apart ks ->
  (forall k va, k ∈ ks -> page_va va -> in_region k va -> present (pm s) tabs va = false) ->
  setupkvm_loop kend ks pgdir c s = Done r c s' ->
  exists l1 tabs1, tabs ⊆ tabs1 /\ new_tables (in_regions ks) tabs tabs1 /\ ((r = 0 /\ l1 = []) \/ (r = pgdir /\ kmem_ok s' l1)) /\
    forall p, p ∈ l -> p ∈ l1 \/ exists i, tabs1 !! i = Some p.
Proof.
  induction ks as [|k ks IH]; intros s l pgdir tabs r s' Hb Hok Hap Hn; cbn [setupkvm_loop].
  - intros E. injection E as <- <-. exists l, tabs. split; [done|]. split; [apply new_tables_refl|]. split; [right; split; [done|apply Hb]|by left].
  - apply Forall_cons in Hok as [Hk Hok]. destruct Hap as [Hka Hap]. rewrite Forall_forall in Hka.
    destruct (map_region k s l pgdir tabs Hk Hb) as (r1 & s1 & l1 & tabs1 & Hr & Hg & Hb1 & Hnew & Hcase); [intros va; apply Hn; by left|].
    rewrite (bind_Done _ _ _ _ _ _ _ Hr). destruct (gr_fresh _ _ _ _ _ _ _ Hg) as (fresh & -> & Hf).
    assert (Hnew' : new_tables (in_regions (k :: ks)) tabs tabs1) by (apply (new_tables_mono (in_region k)); [intros va Hva; exists k; by split; [left|]|done]).
    destruct Hcase as [[-> ->]|[-> Hpte]]; cbn [Z.ltb Z.compare].
    + intros (? & ? & ? & _ & E)%bind_Done_inv. injection E as <- <-. exists [], tabs1. split; [apply Hg|]. split; [done|]. split; [by left|].
      intros p Hp. right. rewrite app_nil_r in Hp. apply Hf in Hp as (i & ? & _). by exists i.
    + intros E. destruct (IH s1 l1 pgdir tabs1 r s' Hb1 Hok Hap) as (l2 & tabs2 & S2 & N2 & C2 & P2); [|exact E|].
      { intros k' va Hk' Hva Hin. destruct (present_ext _ _ _ _ _ (eq_trans (Hpte va Hva)
          ltac:(rewrite decide_False by (intros ?; by eapply Hka); done))) as [-> _]. apply (Hn k'); [by right|done..]. }
      exists l2, tabs2. split; [etransitivity; [apply Hg|done]|]. split.
      { eapply new_tables_trans; [exact Hnew'|]. eapply new_tables_mono; [|exact N2]. intros va (k' & ? & ?). exists k'. by split; [right|]. }
      split; [done|]. intros p [Hp|Hp]%elem_of_app; [|by apply P2]. apply Hf in Hp as (i & Hi & _). right. exists i. by eapply lookup_weaken.
Qed.

(** The directory entries that the kernel's mappings use: 64 of them. *)
Definition kernel_slots : list Z := seqZ 512 56 ++ seqZ 1016 8.

Lemma kmap_slots va : in_regions (kmap kdata) va -> PDX va ∈ kernel_slots.
Proof.
  intros (k & Hk & Hin). assert (V2P kdata = kdata - KERNBASE) as Hd by (apply V2P_eq; addr).
  assert (Hva : KERNBASE <= va < KERNBASE + PHYSTOP \/ DEVSPACE <= va < 2 ^ 32).
  { unfold kmap in Hk. rewrite Hd in Hk. change (V2P KERNLINK) with EXTMEM in Hk. unfold in_region, ksize in Hin.
    repeat (apply elem_of_cons in Hk as [->|Hk]; [cbn [virt phys_start phys_end] in Hin; addr|]). by apply not_elem_of_nil in Hk. }
  unfold kernel_slots. rewrite elem_of_app, !elem_of_seqZ. rewrite PDX_eq by addr. change (2 ^ 22) with 4194304. addr.
Qed.

(** [setupkvm] takes 65 pages: it succeeds if there are more, and leaves the rest. *)
Lemma setupkvm_pages s L r s' : kmem_ok s L -> setupkvm kend kdata c s = Done r c s' ->
  (r = 0 /\ (length L <= 65)%nat) \/ r <> 0 /\ exists l', kmem_ok s' l' /\ (length L <= length l' + 65)%nat.
Proof.
  intros Hk. unfold setupkvm. pose proof (kalloc_run kend Hend c s L Hk (fun _ => Hc)) as Hka.
  destruct L as [|f L]; rewrite (bind_Done _ _ _ _ _ _ _ Hka).
  { intros E. injection E as <- <-. left. cbn. split; [done|lia]. }
  pose proof (ko_pages _ _ _ Hk) as [Hf _]%Forall_cons. rewrite (proj2 (Z.eqb_neq _ _) (page_ok_nonzero kend Hend _ Hf)).
  autorewrite with run. change (P2V PHYSTOP >? DEVSPACE) with false. cbn match. pose proof (empty_dir s f L Hk) as Hb. unfold zeroed at 1 in Hb.
  intros E. destruct kmap_ok as [Hok Hap].
  destruct (setupkvm_loop_pages (kmap kdata) _ _ _ _ r s' Hb Hok Hap ltac:(done) E) as (l1 & tabs1 & _ & Hnew & Hcase & Hp).
  assert (Hlen : (length (f :: L) <= length l1 + 65)%nat); [|destruct Hcase as [[-> ->]|[-> ?]]; [by left|right; split; [by eapply page_ok_nonzero|by exists l1]]].
  assert (Hkeys : (length (map_to_list tabs1).*1 <= length kernel_slots)%nat).
  { apply nodup_length_le; [apply NoDup_fst_map_to_list|]. intros i ([i' t] & -> & Hi%elem_of_map_to_list)%list_elem_of_fmap.
    destruct (Hnew i') as [[? [=]]|(va & Hva & ->)]; [by eexists|]. by apply kmap_slots. }
  assert (Hpages : (length (f :: L) <= length (l1 ++ f :: (map_to_list tabs1).*2))%nat).
  { apply nodup_length_le; [apply (ko_nodup _ _ _ Hk)|]. intros p [->|Hin]%elem_of_cons; rewrite elem_of_app, elem_of_cons; [by auto|].
    destruct (Hp p Hin) as [?|(i & Hi)]; [by auto|]. right. right. apply list_elem_of_fmap. exists (i, p). split; [done|]. by apply elem_of_map_to_list. }
  rewrite length_app in Hpages. cbn [length] in *. rewrite length_fmap in Hkeys, Hpages. change (length kernel_slots) with 64%nat in Hkeys. lia.
Qed.

(** ** [copyuvm] *)

(** Memory outside the pages [L] is that of [m]. *)
Definition same_off (L : list Z) (m m' : mem) : Prop := forall a, pg a ∉ L -> rd m' a = rd m a.

(** An address space does not notice changes of free pages. *)
Lemma space_same_off s0 L pgdir tabs m' : space s0 L pgdir tabs -> same_off L (pm s0) m' ->
  pt_ok m' pgdir tabs /\ (forall va, pte_val m' tabs va = pte_val (pm s0) tabs va) /\
  (forall x, user_addr x -> umem m' tabs x = umem (pm s0) tabs x).
Proof.
  intros Hs Hm.
  assert (Hown : forall p a, owns (pm s0) pgdir tabs p -> in_page p a -> rd m' a = rd (pm s0) a).
  { intros p a Ho Ha. destruct (owns_not_free _ _ _ _ _ Hs Ho) as [Hp Hl]. apply Hm.
    apply in_page_pg in Ha as ->; [done|apply Hp]. }
  destruct (pt_ext (pm s0) m' pgdir tabs (vs_pt _ _ _ _ (proj1 Hs))) as [Hpt Hv].
  { intros a. apply Hown. by left. }
  { intros i t a Hi. apply Hown. right. left. by exists i. }
  split; [done|]. split; [done|]. intros x Hx. destruct (pg_va x Hx) as (Hpv & Hpk & _).
  apply umem_same; [done|]. intros Hp. apply (Hown (frame (pm s0) tabs (pg x))); [|apply in_frame].
  right. right. by exists (pg x).
Qed.

(** The child's address space when the parent's pages below [i] are copied. *)
Record child (L : list Z) (m0 : mem) (tabsp : gmap Z Z) (i : Z)
    (s : kmem) (l : list Z) (d : Z) (tabs : gmap Z Z) : Prop := Child {
  ch_space : space s l d tabs;
  ch_pages : forall p, p ∈ L <-> p ∈ l \/ owns (pm s) d tabs p;
  ch_mem : same_off L m0 (pm s);
  ch_user : forall x, user_addr x ->
    umem (pm s) tabs x = if decide (pg x < i) then umem m0 tabsp x else None;
  ch_flags : forall va, page_va va -> va < i -> va < KERNBASE ->
    PTE_FLAGS (pte_val (pm s) tabs va) = PTE_FLAGS (pte_val m0 tabsp va);
  ch_kernel : forall va, page_va va -> KERNBASE <= va -> pte_val (pm s) tabs va = kernel_pte va;
}.

Definition copied (src f : Z) (m : mem) : mem := memmove m f src PGSIZE.

Lemma copied_ok src f m : mem_ok m -> mem_ok (copied src f m).
Proof. intros. by apply mem_ok_memmove. Qed.

Lemma copied_out src f m a : mem_ok m -> page_ok f -> ~ in_page f a -> rd (copied src f m) a = rd m a.
Proof. intros Hm _ Ha. unfold copied. rewrite rd_memmove by done. by rewrite decide_False. Qed.

Lemma copied_in src f m x : mem_ok m -> rd (copied src f m) (f + x mod PGSIZE) = rd m (src + x mod PGSIZE).
Proof.
  intros Hm. unfold copied. rewrite rd_memmove by done. rewrite decide_True by apply in_frame. f_equal. lia.
Qed.

Lemma flags_ok e : uint_ok e -> bit_set e PTE_P = true ->
  0 <= PTE_FLAGS e < PGSIZE /\ Z.lor (PTE_FLAGS e) PTE_P = PTE_FLAGS e.
Proof.
  intros Hu Hp. rewrite PTE_FLAGS_eq by done. split; [apply Z.mod_pos_bound; done|].
  unfold bit_set, PTE_P in *. apply negb_true_iff, Z.eqb_neq in Hp.
  change 1 with (Z.ones 1) in *. rewrite Z.land_ones in Hp by lia. change PGSIZE with (2 ^ 12).
  rewrite <- Z.land_ones by lia. apply Z.bits_inj'. intros n Hn. rewrite Z.lor_spec, Z.land_spec.
  destruct (decide (n = 0)) as [->|]; [|rewrite (Z.ones_spec_high 1) by lia; by rewrite orb_false_r].
  rewrite Z.bit0_odd, <- Z.negb_even. change (2 ^ 1) with 2 in Hp.
  destruct (Z.even e) eqn:Ee; [|done]. apply Z.even_spec in Ee as [k ->].
  rewrite Z.mul_comm, Z.mod_mul in Hp by lia. done.
Qed.

Lemma mk_pte_flags f perm : page_ok f -> 0 <= perm < PGSIZE -> PTE_FLAGS (mk_pte (V2P f) perm) = Z.lor perm PTE_P.
Proof.
  intros Hf Hp. destruct (mk_pte_frame f perm Hf Hp) as (_ & _ & Hu).
  apply page_range in Hf as (? & ? & ?). rewrite V2P_eq in * by addr.
  destruct (mk_pte_ok (f - KERNBASE) perm) as (E & ? & _); [addr|addr|done|].
  rewrite PTE_FLAGS_eq by done. rewrite E. addr.
Qed.

Lemma umem_none m tabs va : page_va va -> umem m tabs va = None -> present m tabs va = false.
Proof.
  intros [_ Ha]. unfold umem. replace (pg va) with va by (unfold pg; addr). by destruct (present _ _ _).
Qed.

Lemma pte_val_range m tabs va : mem_ok m -> uint_ok (pte_val m tabs va).
Proof. intros Hm. unfold pte_val. destruct (tabs !! PDX va); [by apply rd32_range|word]. Qed.

Lemma child_step L s0 pgdir tabsp i s l d tabs f s' l' tabs' :
  space s0 L pgdir tabsp -> page_va i -> i < KERNBASE -> present (pm s0) tabsp i = true ->
  page_ok f -> child L (pm s0) tabsp i s l d tabs ->
  let e := pte_val (pm s0) tabsp i in
  space s' l' d tabs' ->
  (forall va, page_va va -> pte_val (pm s') tabs' va =
    if decide (va = i) then mk_pte (V2P f) (PTE_FLAGS e) else pte_val (pm s) tabs va) ->
  (forall x, user_addr x -> umem (pm s') tabs' x =
    if decide (pg x = i) then Some (rd (copied (P2V (PTE_ADDR e)) f (pm s)) (f + x mod PGSIZE))
    else umem (pm s) tabs x) ->
  (forall p, p ∈ l \/ owns (pm s) d tabs p <-> p ∈ l' \/ owns (pm s') d tabs' p) ->
  (forall a, ~ owns (pm s') d tabs' (pg a) -> rd (pm s') a = rd (pm s) a) ->
  child L (pm s0) tabsp (i + PGSIZE) s' l' d tabs'.
Proof.
  intros Hs0 Hi Hk Hp Hf [Hsp Hpg Hm Hu Hfl Hke] e Hs' Hpte Hum Hcons Hmem.
  pose proof (ko_mem _ _ _ (vs_kmem _ _ _ _ (proj1 Hs0))) as Hmo.
  destruct (flags_ok e (pte_val_range _ _ _ Hmo) Hp) as [Hfr Hfo].
  assert (Hstep : forall va, aligned va -> va < i + PGSIZE <-> va = i \/ va < i).
  { intros va Hva. destruct Hi as [_ Hi]. addr. }
  split; [done|..].
  - intros p. by rewrite Hpg, Hcons.
  - intros a Ha. rewrite Hmem, Hm; [done..|]. intros Ho. apply Ha, Hpg, Hcons. by right.
  - intros x Hx. rewrite Hum by done. assert (aligned (pg x)) as Hpa by (unfold pg; addr).
    destruct (decide (pg x = i)) as [E|Hne].
    + rewrite decide_True by (apply Hstep; [done|by left]).
      rewrite copied_in by apply (ko_mem _ _ _ (vs_kmem _ _ _ _ (proj1 Hsp))).
      unfold umem. rewrite E, Hp. f_equal. change (P2V (PTE_ADDR e)) with (frame (pm s0) tabsp i).
      apply Hm. destruct (owns_not_free _ _ _ _ (frame (pm s0) tabsp i) Hs0) as [Hfp Hfl0];
        [right; right; by exists i|].
      assert (in_page (frame (pm s0) tabsp i) (frame (pm s0) tabsp i + x mod PGSIZE)) as Hin by apply in_frame.
      apply in_page_pg in Hin as ->; [done|apply Hfp].
    + rewrite Hu by done. destruct (decide (pg x < i)).
      * by rewrite decide_True by (apply Hstep; [done|by right]).
      * rewrite decide_False; [done|]. rewrite Hstep by done. lia.
  - intros va Hva Hlt Hkb. rewrite Hpte by done. destruct (decide (va = i)) as [->|Hne].
    + rewrite mk_pte_flags by done. by rewrite Hfo.
    + apply Hfl; [done| |done]. apply Hstep in Hlt; [lia|apply Hva].
  - intros va Hva Hkb. rewrite Hpte by done. rewrite decide_False by lia. by apply Hke.
Qed.

Lemma child_free L m0 tabsp i s l d tabs : child L m0 tabsp i s l d tabs ->
  exists s', freevm kend d c s = Done tt c s' /\ back L m0 s'.
Proof.
  intros [[Hs Hu] Hpg Hm _ _ _]. destruct (freevm_run s l d tabs Hs Hu) as (s' & l' & Hf & Hk & Hl & Hm').
  exists s'. split; [done|]. exists l'. split; [done|]. split; [intros p; by rewrite Hl, Hpg|].
  intros a Ha. rewrite Hm'; [by apply Hm|]. intros p Hp. pose proof (ko_pages _ _ _ Hk) as Hps.
  rewrite Forall_forall in Hps. rewrite in_page_pg by by apply Hps. intros <-. by apply Ha, Hpg, Hl.
Qed.

(** Giving back the page that could not be mapped. *)
Lemma child_refuse L s0 pgdir tabsp i s d tabs f s1 :
  space s0 L pgdir tabsp -> child L (pm s0) tabsp i s [f] d tabs ->
  space s1 [] d tabs -> spare s1 [] d tabs f ->
  (forall va, pte_val (pm s1) tabs va = pte_val (pm s) tabs va) ->
  (forall x, user_addr x -> umem (pm s1) tabs x = umem (pm s) tabs x) ->
  (forall a, ~ in_page f a -> rd (pm s1) a = rd (pm s) a) ->
  kfree kend f c s1 = Done tt c (kfreed f s1) /\
  child L (pm s0) tabsp i (kfreed f s1) [f] d tabs.
Proof.
  intros Hs0 [Hsp Hpg Hm Hu Hfl Hke] Hs1 Hspf Hv Hum Hoff.
  destruct (free_spare s1 [] d tabs f Hs1 Hspf) as (Hk & Hs2 & Hv2 & Hu2). split; [done|].
  split; [done|..].
  - intros p. rewrite Hpg, (owns_ext (pm s1) (pm (kfreed f s1))), (owns_ext (pm s) (pm s1)) by done. done.
  - intros a Ha. assert (~ in_page f a) as Hfa.
    { rewrite in_page_pg by apply Hspf. intros E. apply Ha, Hpg. left. rewrite E. by left. }
    rewrite (kfreed_mem kend), Hoff by (done || apply Hspf). by apply Hm.
  - intros x Hx. rewrite Hu2, Hum by done. by apply Hu.
  - intros va Hva Hlt Hkb. rewrite Hv2, Hv. by apply Hfl.
  - intros va Hva Hkb. rewrite Hv2, Hv. by apply Hke.
Qed.

(** One round of the loop of [copyuvm] on a present page. *)
Lemma copyuvm_round fuel s0 L pgdir tabsp i sz s l d tabs :
  i < sz -> sz <= KERNBASE -> page_va i -> space s0 L pgdir tabsp ->
  present (pm s0) tabsp i = true -> child L (pm s0) tabsp i s l d tabs ->
  (exists s', copyuvm_loop kend (S fuel) pgdir d i sz c s = Done 0 c s' /\ back L (pm s0) s' /\ (length l <= 1)%nat) \/
  exists s' l' tabs', child L (pm s0) tabsp (i + PGSIZE) s' l' d tabs' /\ (length l <= S (S (length l')))%nat /\
    copyuvm_loop kend (S fuel) pgdir d i sz c s = copyuvm_loop kend fuel pgdir d (i + PGSIZE) sz c s'.
Proof.
  intros His Hsz Hi Hs0 Hp Hch. cbn [copyuvm_loop]. rewrite (proj2 (Z.ltb_lt _ _)) by lia.
  pose proof Hp as Hp'. unfold present in Hp'.
  destruct (space_same_off s0 L pgdir tabsp (pm s) Hs0 (ch_mem _ _ _ _ _ _ _ _ Hch)) as (Hpt & Hpv & _).
  rewrite (bind_Done _ _ _ _ _ _ _ (walk_noalloc s pgdir tabsp i Hpt)). unfold walked.
  pose proof (Hpv i) as Hpi. unfold present, pte_val in Hp. unfold pte_val at 1 in Hpi.
  destruct (tabsp !! PDX i) as [t|] eqn:Ht; [|done]. fold (pte_val (pm s0) tabsp i) in Hpi.
  destruct (pt_some _ _ _ Hpt _ _ Ht) as (_ & (? & _)%page_range & _). pose proof (PTX_range i).
  rewrite (proj2 (Z.eqb_neq (t + _) 0)) by (sizes; lia). unfold load. autorewrite with run. rewrite Hpi.
  rewrite Hp'. cbn [negb].
  set (e := pte_val (pm s0) tabsp i) in *.
  destruct (flags_ok e (pte_val_range _ _ _ (ko_mem _ _ _ (vs_kmem _ _ _ _ (proj1 Hs0)))) Hp') as [Hfr _].
  assert (Hnp : present (pm s) tabs i = false).
  { apply umem_none; [done|]. rewrite (ch_user _ _ _ _ _ _ _ _ Hch) by (destruct Hi as [[] _]; unfold user_addr; lia).
    rewrite decide_False; [done|]. destruct Hi as [_ Hi]. unfold pg. addr. }
  destruct (new_page_run (copied (P2V (PTE_ADDR e))) (PTE_FLAGS e) s l d tabs i
    (ch_space _ _ _ _ _ _ _ _ Hch) Hi ltac:(lia) Hnp Hfr (copied_ok _) (copied_out _))
    as [-> Hka|f s1 s2 -> Hka Hnz Hs2 Hsp2 Hspf Hv2 Hu2 Hm2 Hmap|f l1 s1 s2 s' l' tabs' -> Hka Hnz Hs2 Hmap Hsp' Hv' Hu' Hc' Hm' Hn'];
    rewrite (bind_Done _ _ _ _ _ _ _ Hka).
  - destruct (child_free _ _ _ _ _ _ _ _ Hch) as (s' & Hfv & Hb). cbn [Z.eqb].
    rewrite (bind_Done _ _ _ _ _ _ _ Hfv). left. exists s'. split; [done|]. split; [done|]. cbn; lia.
  - rewrite (proj2 (Z.eqb_neq f 0) Hnz). autorewrite with run.
    change (set_pm (fun m => memmove m f (P2V (PTE_ADDR e)) PGSIZE) s1) with (set_pm (copied (P2V (PTE_ADDR e)) f) s1).
    rewrite Hs2, (bind_Done _ _ _ _ _ _ _ Hmap). cbn [Z.ltb Z.compare].
    destruct (child_refuse L s0 pgdir tabsp i s d tabs f s2 Hs0 Hch Hsp2 Hspf Hv2 Hu2 Hm2) as (Hkf & Hch').
    rewrite (bind_Done _ _ _ _ _ _ _ Hkf).
    destruct (child_free _ _ _ _ _ _ _ _ Hch') as (s' & Hfv & Hb).
    rewrite (bind_Done _ _ _ _ _ _ _ Hfv). left. exists s'. split; [done|]. split; [done|]. cbn; lia.
  - rewrite (proj2 (Z.eqb_neq f 0) Hnz). autorewrite with run.
    change (set_pm (fun m => memmove m f (P2V (PTE_ADDR e)) PGSIZE) s1) with (set_pm (copied (P2V (PTE_ADDR e)) f) s1).
    rewrite Hs2, (bind_Done _ _ _ _ _ _ _ Hmap). cbn [Z.ltb Z.compare].
    rewrite u32_id by (destruct Hi as [Hi _]; sizes; word_unfold; lia).
    assert (Hf' : page_ok f).
    { pose proof (ko_pages _ _ _ (vs_kmem _ _ _ _ (proj1 (ch_space _ _ _ _ _ _ _ _ Hch)))) as [? _]%Forall_cons. done. }
    pose proof (child_step L s0 pgdir tabsp i s _ d tabs f s' l' tabs' Hs0 Hi ltac:(lia) Hp' Hf' Hch Hsp' Hv' Hu' Hc' Hm') as Hch'.
    right. by exists s', l', tabs'.
Qed.

(** The pages that [sz] bytes take. *)
Definition pages_of (sz : Z) : Z := (sz + PGSIZE - 1) / PGSIZE.

(** Each page takes another one and at most one page table. *)
Lemma copyuvm_loop_run fuel : forall s0 L pgdir tabsp i sz s l d tabs,
  (0 < fuel)%nat -> sz - i <= PGSIZE * (Z.of_nat fuel - 1) -> sz <= KERNBASE ->
  page_va i -> space s0 L pgdir tabsp ->
  (forall va, page_va va -> va < sz -> present (pm s0) tabsp va = true) ->
  child L (pm s0) tabsp i s l d tabs ->
  exists r s', copyuvm_loop kend fuel pgdir d i sz c s = Done r c s' /\
    ((r = 0 /\ back L (pm s0) s' /\ Z.of_nat (length l) < 2 * pages_of (sz - i)) \/
     (r = d /\ exists j l' tabs', child L (pm s0) tabsp j s' l' d tabs' /\ sz <= j /\ page_va j /\
        (j <= i \/ j < sz + PGSIZE))).
Proof.
  induction fuel as [|fuel IH]; intros s0 L pgdir tabsp i sz s l d tabs Hf Hfu Hsz Hi Hs0 Hall Hch; [lia|].
  destruct (decide (i < sz)) as [His|His].
  2:{ cbn [copyuvm_loop]. rewrite (proj2 (Z.ltb_ge _ _)) by lia. exists d, s. split; [done|]. right.
      split; [done|]. exists i, l, tabs. split_and!; try done; [lia|]. by left. }
  destruct (copyuvm_round fuel s0 L pgdir tabsp i sz s l d tabs His Hsz Hi Hs0 (Hall i Hi His) Hch)
    as [(s' & -> & Hb & Hn)|(s' & l' & tabs' & Hch' & Hn & ->)].
  - exists 0, s'. split; [done|]. left. split; [done|]. split; [done|]. unfold pages_of. addr.
  - destruct (IH s0 L pgdir tabsp (i + PGSIZE) sz s' l' d tabs') as (r & s3 & -> & Hr); try done.
    + sizes; lia.
    + lia.
    + destruct Hi. split; addr.
    + exists r, s3. split; [done|]. destruct Hr as [(-> & ? & Hn')|(-> & j & l3 & tabs3 & ? & ? & ? & ?)]; [left|right].
      { split; [done|]. split; [done|]. unfold pages_of in *. replace (sz - i + PGSIZE - 1) with (sz - (i + PGSIZE) + PGSIZE - 1 + 1 * PGSIZE) by lia. rewrite Z.div_add by done. lia. }
      split; [done|]. exists j, l3, tabs3. split_and!; try done. lia.
Qed.

Lemma bare_child s0 L tabsp s l d tabs : bare s l d tabs ->
  (forall va, page_va va -> pte_val (pm s) tabs va = kernel_pte va) ->
  (forall p, p ∈ L <-> p ∈ l \/ owns (pm s) d tabs p) -> same_off L (pm s0) (pm s) ->
  child L (pm s0) tabsp 0 s l d tabs.
Proof.
  intros Hb Hk Hp Hm. split; try done.
  - by apply bare_space.
  - intros x Hx. destruct (pg_va x Hx) as (Hpv & Hpk & _). pose proof (proj1 (proj1 Hpv)).
    rewrite decide_False by lia. unfold umem. rewrite not_present_zero; [done|]. by apply Hb.
  - intros va [[] _] ?. lia.
  - auto.
Qed.

Lemma copyuvm_run s L pgdir tabs sz : space s L pgdir tabs -> 0 <= sz <= KERNBASE ->
  (forall va, page_va va -> va < sz -> present (pm s) tabs va = true) ->
  exists r s', copyuvm kend kdata pgdir sz c s = Done r c s' /\
    ((r = 0 /\ back L (pm s) s' /\ Z.of_nat (length L) <= 65 + 2 * pages_of sz) \/
     (r <> 0 /\ exists j l' tabs', child L (pm s) tabs j s' l' r tabs' /\ sz <= j /\ page_va j /\
        (j <= 0 \/ j < sz + PGSIZE))).
Proof.
  intros Hs Hsz Hall. unfold copyuvm.
  destruct (setupkvm_run s L (vs_kmem _ _ _ _ (proj1 Hs))) as (d & s1 & Hd & Hcase).
  rewrite (bind_Done _ _ _ _ _ _ _ Hd). pose proof (setupkvm_pages s L d s1 (vs_kmem _ _ _ _ (proj1 Hs)) Hd) as Hcount.
  destruct Hcase as [(-> & Hb)|(Hnz & l1 & tabs1 & Hb & Hk & Hp & Hm)].
  { exists 0, s1. split; [done|]. left. split; [done|]. split; [done|]. destruct Hcount as [[_ ?]|[? _]]; [|done]. assert (0 <= pages_of sz) by (unfold pages_of; addr). lia. }
  destruct Hcount as [[? _]|(_ & l1' & Hk1 & Hn1)]; [done|]. rewrite (kmem_ok_unique kend Hend s1 l1' l1) in Hn1 by (done || apply Hb).
  rewrite (proj2 (Z.eqb_neq d 0) Hnz).
  destruct (copyuvm_loop_run (S (Z.to_nat (sz / PGSIZE + 1))) s L pgdir tabs 0 sz s1 l1 d tabs1)
    as (r & s' & -> & Hr); try done.
  - lia.
  - rewrite Nat2Z.inj_succ, Z2Nat.id by addr. addr.
  - lia.
  - by apply bare_child.
  - exists r, s'. split; [done|]. destruct Hr as [(-> & ? & Hn)|(-> & ?)]; [left|by right]. rewrite Z.sub_0_r in Hn. split; [done|]. split; [done|]. lia.
Qed.

(** ** The page fault handlers *)

(** The handler, with the page table entries and the rest of memory. *)
Lemma lazy_fault_full s l pgdir tabs cr2 : space s l pgdir tabs -> user_addr cr2 ->
  present (pm s) tabs (pg cr2) = false ->
  exists (r : bool) s' l' tabs', lazy_fault kend pgdir cr2 c s = Done r c s' /\
    space s' l' pgdir tabs' /\ (r = false -> (length l <= 1)%nat) /\ (length l <= S (S (length l')))%nat /\
    (forall x, user_addr x -> umem (pm s') tabs' x =
      if decide (r = true /\ pg x = pg cr2) then Some 0 else umem (pm s) tabs x) /\
    (exists f, forall va, page_va va -> pte_val (pm s') tabs' va =
      if decide (r = true /\ va = pg cr2) then mk_pte (V2P f) wu else pte_val (pm s) tabs va) /\
    (forall q, q ∈ l \/ owns (pm s) pgdir tabs q <-> q ∈ l' \/ owns (pm s') pgdir tabs' q) /\
    (forall a, pg a ∉ l -> ~ owns (pm s) pgdir tabs (pg a) -> rd (pm s') a = rd (pm s) a).
Proof.
  intros Hs Hx Hp. destruct (pg_va cr2 Hx) as (Hpv & Hpk & _). unfold lazy_fault.
  rewrite PGROUNDDOWN_eq by (unfold user_addr in *; addr). fold (pg cr2).
  destruct (new_page_run zeroed wu s l pgdir tabs (pg cr2) Hs Hpv Hpk Hp wu_ok zeroed_ok zeroed_out)
    as [-> Hka|f s0 s1 -> Hka Hnz Hs1 Hsp1 Hspf Hv1 Hu1 Hm1 Hm|f l1 s0 s1 s' l' tabs' -> Hka Hnz Hs1 Hm Hsp' Hv' Hu' Ho' Hm' Hn'];
    rewrite (bind_Done _ _ _ _ _ _ _ Hka).
  - exists false, s, [], tabs. split; [done|]. split; [done|]. split; [cbn; lia|]. split; [cbn; lia|].
    split; [intros x _; by rewrite decide_False by naive_solver|]. split; [exists 0; intros va _; by rewrite decide_False by naive_solver|]. done.
  - rewrite (proj2 (Z.eqb_neq _ _) Hnz). autorewrite with run.
    change (set_pm (fun m => memset m f 0 PGSIZE) s0) with (set_pm (zeroed f) s0).
    rewrite Hs1, (bind_Done _ _ _ _ _ _ _ Hm). cbn [Z.ltb Z.compare].
    destruct (free_spare s1 [] pgdir tabs f Hsp1 Hspf) as (Hkf & Hs' & Hv' & Hu').
    rewrite (bind_Done _ _ _ _ _ _ _ Hkf). exists false, (kfreed f s1), [f], tabs.
    split; [done|]. split; [done|]. split; [cbn; lia|]. split; [cbn; lia|].
    split; [intros x Hxx; rewrite decide_False by naive_solver; by rewrite Hu', Hu1|].
    split; [exists 0; intros va _; rewrite decide_False by naive_solver; by rewrite Hv', Hv1|].
    split; [intros q; rewrite (owns_ext (pm s1) (pm (kfreed f s1))), (owns_ext (pm s) (pm s1)) by done; done|].
    intros a Ha _. rewrite list_elem_of_singleton, <- in_page_pg in Ha by apply Hspf.
    by rewrite (kfreed_mem kend), Hm1 by (done || apply Hspf).
  - rewrite (proj2 (Z.eqb_neq _ _) Hnz). autorewrite with run.
    change (set_pm (fun m => memset m f 0 PGSIZE) s0) with (set_pm (zeroed f) s0).
    rewrite Hs1, (bind_Done _ _ _ _ _ _ _ Hm). cbn [Z.ltb Z.compare].
    exists true, s', l', tabs'. split; [done|]. split; [done|]. split; [done|]. split; [done|].
    split; [intros x Hxx; rewrite Hu' by done; rewrite zeroed_in; repeat case_decide; naive_solver|].
    split; [exists f; intros va Hva; rewrite Hv' by done; repeat case_decide; naive_solver|].
    split; [done|]. intros a Ha Hno. apply Hm'. intros Ho. destruct (proj2 (Ho' (pg a)) (or_intror Ho)); done.
Qed.

Lemma lazy_fault_run s l pgdir tabs cr2 : space s l pgdir tabs -> user_addr cr2 ->
  present (pm s) tabs (pg cr2) = false ->
  exists (r : bool) s' l' tabs', lazy_fault kend pgdir cr2 c s = Done r c s' /\
    space s' l' pgdir tabs' /\ (r = false -> (length l <= 1)%nat) /\
    forall x, user_addr x -> umem (pm s') tabs' x =
      if decide (r = true /\ pg x = pg cr2) then Some 0 else umem (pm s) tabs x.
Proof.
  intros Hs Hx Hp. destruct (lazy_fault_full s l pgdir tabs cr2 Hs Hx Hp) as (r & s' & l' & tabs' & Hr & Hs' & Hl & _ & Hu & _).
  exists r, s', l', tabs'. done.
Qed.

(** Storing a byte at a user address whose page is present. *)
(** Writing a page of the address space. *)
Lemma frame_store s l pgdir tabs va m' : space s l pgdir tabs -> page_va va -> va < KERNBASE -> present (pm s) tabs va = true -> mem_ok m' ->
  (forall a, ~ in_page (frame (pm s) tabs va) a -> rd m' a = rd (pm s) a) ->
  let s' := set_pm (fun _ => m') s in
  space s' l pgdir tabs /\ (forall va, pte_val (pm s') tabs va = pte_val (pm s) tabs va) /\
  (forall y, user_addr y -> umem (pm s') tabs y = if decide (pg y = va) then Some (rd m' (frame (pm s) tabs va + y mod PGSIZE)) else umem (pm s) tabs y) /\
  (forall a, ~ owns (pm s) pgdir tabs (pg a) -> rd (pm s') a = rd (pm s) a).
Proof.
  intros Hs Hva Hk Hp Hmo Hw s'. destruct (uo_page _ _ _ _ (proj2 Hs) _ Hva Hk Hp) as (Hf & _ & _ & _).
  pose proof (frame_apart s l pgdir tabs va) as Hap. destruct (space_ext s l s' l pgdir tabs Hs) as [Hs' Hv].
  - apply (kmem_ok_frame kend Hend s); [apply Hs|done|]. intros q b Hq Hb. apply Hw. intros Hin. by apply (proj2 (proj2 (Hap b Hs Hva Hk Hp Hin)) q).
  - intros q Hq Ho. by apply (owns_not_free _ _ _ _ _ Hs) in Ho as [_ ?].
  - intros b Hb. apply Hw. intros Hin. by apply (proj1 (Hap b Hs Hva Hk Hp Hin)).
  - intros i t b Hi Hb. apply Hw. intros Hin. by apply (proj1 (proj2 (Hap b Hs Hva Hk Hp Hin)) i t).
  - split; [done|]. split; [done|]. split.
    + intros y Hy. destruct (decide (pg y = va)) as [<-|Hne].
      * unfold umem. destruct (present_ext _ _ _ _ _ (Hv (pg y))) as [-> ->]. by rewrite Hp.
      * apply umem_same; [apply Hv|]. intros Hpy. apply Hw. destruct (pg_va y Hy) as (Hpvy & Hpky & _). intros Hin. apply Hne.
        apply (uo_inj _ _ _ _ (proj2 Hs)); try done. destruct (uo_page _ _ _ _ (proj2 Hs) _ Hpvy Hpky Hpy) as (Hfy & _).
        pose proof (in_frame (frame (pm s) tabs (pg y)) y) as Hiny. apply in_page_pg in Hin; [|apply Hf]. apply in_page_pg in Hiny; [|apply Hfy]. congruence.
    + intros b Ho. apply Hw. intros Hin. apply Ho. right. right. exists va. split_and!; try done. symmetry. apply in_page_pg; [apply Hf|done].
Qed.

Lemma user_store s l pgdir tabs x v : space s l pgdir tabs -> user_addr x -> present (pm s) tabs (pg x) = true ->
  let s' := set_pm (fun m => wr m (frame m tabs (pg x) + x mod PGSIZE) v) s in
  space s' l pgdir tabs /\ (forall va, pte_val (pm s') tabs va = pte_val (pm s) tabs va) /\
  (forall y, user_addr y -> umem (pm s') tabs y = if decide (y = x) then Some (u8 v) else umem (pm s) tabs y) /\
  (forall a, ~ owns (pm s) pgdir tabs (pg a) -> rd (pm s') a = rd (pm s) a).
Proof.
  intros Hs Hx Hp s'. destruct (pg_va x Hx) as (Hpv & Hpk & _). set (a := frame (pm s) tabs (pg x) + x mod PGSIZE) in *.
  assert (Hw : forall b, b <> a -> rd (pm s') b = rd (pm s) b) by (intros b Hb; cbn; by rewrite rd_wr_ne by done).
  destruct (frame_store s l pgdir tabs (pg x) (pm s') Hs Hpv Hpk Hp) as (Hs' & Hv & Hu & Ho).
  - apply mem_ok_wr, Hs.
  - intros b Hb. apply Hw. intros ->. apply Hb, in_frame.
  - split; [done|]. split; [done|]. split; [|done]. intros y Hy. change (umem (pm s') tabs y) with (umem (pm (set_pm (fun _ => pm s') s)) tabs y). rewrite Hu by done.
    destruct (decide (y = x)) as [->|Hne]; [rewrite decide_True by done; f_equal; apply rd_wr_eq|]. destruct (decide (pg y = pg x)) as [E|]; [|done].
    unfold umem. rewrite E, Hp. f_equal. apply Hw. unfold a, pg in *. addr.
Qed.

(** [inituvm] makes a page at address 0 with the code. *)
Lemma inituvm_run s l pgdir tabs init sz : space s l pgdir tabs -> present (pm s) tabs 0 = false -> (2 <= length l)%nat -> 0 <= sz < PGSIZE ->
  (forall a, init <= a < init + sz -> pg a ∉ l /\ ~ owns (pm s) pgdir tabs (pg a)) ->
  exists s' l' tabs', inituvm pgdir init sz c s = Done tt c s' /\ space s' l' pgdir tabs' /\
    (forall va, page_va va -> va <> 0 -> pte_val (pm s') tabs' va = pte_val (pm s) tabs va) /\
    (forall x, user_addr x -> umem (pm s') tabs' x = if decide (pg x = 0) then Some (if decide (x < sz) then rd (pm s) (init + x) else 0) else umem (pm s) tabs x) /\
    (forall p, p ∈ l \/ owns (pm s) pgdir tabs p <-> p ∈ l' \/ owns (pm s') pgdir tabs' p) /\
    (forall a, ~ owns (pm s') pgdir tabs' (pg a) -> rd (pm s') a = rd (pm s) a) /\ (length l <= S (S (length l')))%nat.
Proof.
  clear kdata Hdata. intros Hs Hp Hlen Hsz Hsrc. assert (Hva : page_va 0) by done. pose proof wu_ok as Hwu.
  destruct (new_page_run zeroed wu s l pgdir tabs 0 Hs Hva ltac:(done) Hp Hwu zeroed_ok zeroed_out) as [->|? ? ? -> |f l1 s0 s1 s' l' tabs' -> Ek Hf E1 Em Hs' Hpte Hu Hpg Hout Hl'].
  1, 2: cbn in Hlen; lia.
  assert (Hfr : present (pm s') tabs' 0 = true /\ frame (pm s') tabs' 0 = f).
  { unfold present, frame. rewrite Hpte by done. rewrite decide_True by done. assert (Hfo : page_ok f) by (pose proof (ko_pages _ _ _ (vs_kmem _ _ _ _ (proj1 Hs))) as [? _]%Forall_cons; done).
    by destruct (mk_pte_frame f wu Hfo Hwu) as (? & ? & _). }
  destruct Hfr as [Hpr Hfr]. pose proof (ko_mem _ _ _ (vs_kmem _ _ _ _ (proj1 Hs'))) as Hmo.
  destruct (frame_store s' l' pgdir tabs' 0 (memmove (pm s') f init sz) Hs' Hva ltac:(done) Hpr) as (Hs2 & Hv2 & Hu2 & Ho2).
  { apply mem_ok_memmove; [lia|done]. }
  { intros a Ha. rewrite Hfr in Ha. rewrite rd_memmove by (done || lia). rewrite decide_False; [done|]. unfold in_page in Ha. lia. }
  assert (Hown : forall p, owns (memmove (pm s') f init sz) pgdir tabs' p <-> owns (pm s') pgdir tabs' p) by (intros p; by apply owns_ext).
  eexists _, l', tabs'. split.
  { unfold inituvm. rewrite Z.geb_leb, (proj2 (Z.leb_gt _ _)) by lia. rewrite (bind_Done _ _ _ _ _ _ _ Ek). rewrite bind_modify.
    change (set_pm (fun m => memset m f 0 PGSIZE) s0) with (set_pm (zeroed f) s0). rewrite E1. fold wu. rewrite (bind_Done _ _ _ _ _ _ _ Em). reflexivity. }
  change (set_pm (fun m => memmove m f init sz) s') with (set_pm (fun _ => memmove (pm s') f init sz) s'). split; [done|]. split.
  { intros va H1 H2. rewrite Hv2, Hpte by done. by rewrite decide_False. }
  split.
  { intros x Hx. rewrite Hu2 by done. case_decide as E; [|rewrite Hu by done; by rewrite decide_False]. f_equal. rewrite Hfr.
    assert (Hx' : x mod PGSIZE = x) by (unfold pg in E; addr). rewrite Hx', rd_memmove by (done || lia). destruct (decide (x < sz)) as [Hlt|Hge].
    - rewrite decide_True by (unfold user_addr in Hx; lia). replace (init + (f + x - f)) with (init + x) by lia. apply Hout. intros Ho.
      destruct (Hsrc (init + x)) as [Hn1 Hn2]; [unfold user_addr in Hx; lia|]. destruct (proj2 (Hpg _) (or_intror Ho)); done.
    - rewrite decide_False by lia. specialize (Hu x Hx). rewrite decide_True in Hu by done. unfold umem in Hu. rewrite E, Hpr, Hfr, zeroed_in, Hx' in Hu. by injection Hu. }
  split; [intros p; by rewrite Hpg, Hown|]. split; [|done].
  intros a Ho. rewrite Hown in Ho. rewrite Ho2 by done. by apply Hout.
Qed.

Lemma lazy_fault_present s f l pgdir tabs cr2 : space s (f :: l) pgdir tabs -> uint_ok cr2 ->
  present (pm s) tabs (pg cr2) = true -> lazy_fault kend pgdir cr2 c s = Panic "remap".
Proof.
  intros Hs Hx Hp. assert (page_va (pg cr2)) as Hpv by (unfold pg; split; addr).
  unfold lazy_fault. rewrite PGROUNDDOWN_eq by addr. fold (pg cr2).
  destruct (take_page s f l pgdir tabs Hs) as (Hka & Hnz & Hs0 & Hsp).
  rewrite (bind_Done _ _ _ _ _ _ _ Hka), (proj2 (Z.eqb_neq _ _) Hnz). autorewrite with run.
  set (s0 := set_freelist _ s) in *. pose proof (ko_mem _ _ _ (vs_kmem _ _ _ _ (proj1 Hs))) as Hmo.
  destruct (fill_page s0 l pgdir tabs f (zeroed f (pm s)) Hs0 Hsp) as (Hs1 & _ & Hv1).
  { by apply zeroed_ok. }
  { intros a Ha. apply zeroed_out; [done|apply Hsp|done]. }
  change (set_pm (fun _ => zeroed f (pm s)) s0) with (set_pm (fun m => memset m f 0 PGSIZE) s0) in *.
  apply bind_Panic. eapply map_present; [apply Hs1|done|].
  by destruct (present_ext _ _ _ _ _ (Hv1 (pg cr2))) as [-> _].
Qed.

(** A page below [sz] that was never touched stops the copy. *)
Definition no_child (L : list Z) (m : mem) (r : res kmem Z) : Prop :=
  r = Panic "copyuvm: pte should exist" \/ r = Panic "copyuvm: page not present" \/
  exists s', r = Done 0 c s' /\ back L m s'.

Lemma copyuvm_loop_hole fuel : forall s0 L pgdir tabsp i sz s l d tabs va,
  sz - i <= PGSIZE * (Z.of_nat fuel - 1) -> sz <= KERNBASE ->
  page_va i -> space s0 L pgdir tabsp ->
  page_va va -> i <= va < sz -> present (pm s0) tabsp va = false ->
  child L (pm s0) tabsp i s l d tabs ->
  no_child L (pm s0) (copyuvm_loop kend fuel pgdir d i sz c s).
Proof.
  induction fuel as [|fuel IH]; intros s0 L pgdir tabsp i sz s l d tabs va Hfu Hsz Hi Hs0 Hva Hr Hnp Hch;
    [sizes; lia|].
  destruct (present (pm s0) tabsp i) eqn:Hp.
  - destruct (copyuvm_round fuel s0 L pgdir tabsp i sz s l d tabs ltac:(lia) Hsz Hi Hs0 Hp Hch)
      as [(s' & -> & Hb & _)|(s' & l' & tabs' & Hch' & _ & ->)]; [right; right; by exists s'|].
    assert (i <> va) by congruence. destruct Hi as [? Hi], Hva as [? Hva].
    eapply (IH _ _ _ _ _ _ _ _ _ _ va); try done; [lia|split; addr|addr].
  - cbn [copyuvm_loop]. rewrite (proj2 (Z.ltb_lt _ _)) by lia.
    destruct (space_same_off s0 L pgdir tabsp (pm s) Hs0 (ch_mem _ _ _ _ _ _ _ _ Hch)) as (Hpt & Hpv & _).
    rewrite (bind_Done _ _ _ _ _ _ _ (walk_noalloc s pgdir tabsp i Hpt)).
    destruct (walked tabsp i =? 0) eqn:Ew; [by left|]. unfold walked in Ew |- *.
    unfold present in Hp. rewrite <- (Hpv i) in Hp. unfold pte_val in Hp.
    destruct (tabsp !! PDX i); [|done]. unfold load. autorewrite with run. rewrite Hp. right. by left.
Qed.

(** One round of the LOCALITY handler is the LAZY handler at another page. *)
Lemma locality_round n pgdir start i s : page_va start -> 0 <= i -> start + i * PGSIZE < 2 ^ 32 ->
  locality_loop kend (S n) pgdir start i c s =
  (r ← lazy_fault kend pgdir (start + i * PGSIZE);
   if (r : bool) then locality_loop kend n pgdir start (i + 1) else mret false) c s.
Proof.
  intros [Hu Ha] Hi Hs. cbn [locality_loop]. unfold lazy_fault.
  rewrite PGROUNDDOWN_eq, u32_id by addr.
  replace (start + i * PGSIZE - (start + i * PGSIZE) mod PGSIZE) with (start + i * PGSIZE) by addr.
  unfold mbind, M_bind. destruct (kalloc c s) as [mem c' s'| | |]; [|done..].
  destruct (mem =? 0); [done|]. cbn [modify].
  destruct (mappages _ _ _ _ _ c' _) as [r c'' s''| | |]; [|done..].
  destruct (r <? 0); [|done]. by destruct (kfree kend mem c'' s'').
Qed.

Lemma locality_loop_run n : forall s l pgdir tabs start i, space s l pgdir tabs ->
  page_va start -> 0 <= i -> start + (i + Z.of_nat n) * PGSIZE <= KERNBASE ->
  (forall va, page_va va -> start + i * PGSIZE <= va < start + (i + Z.of_nat n) * PGSIZE ->
     present (pm s) tabs va = false) ->
  exists (r : bool) s' l' tabs' k, locality_loop kend n pgdir start i c s = Done r c s' /\
    space s' l' pgdir tabs' /\ i <= k <= i + Z.of_nat n /\ (r = true -> k = i + Z.of_nat n) /\
    forall x, user_addr x -> umem (pm s') tabs' x =
      if decide (start + i * PGSIZE <= pg x < start + k * PGSIZE) then Some 0
      else umem (pm s) tabs x.
Proof.
  induction n as [|n IH]; intros s l pgdir tabs start i Hs Hst Hi Hk Hn.
  { exists true, s, l, tabs, i. split; [done|]. split; [done|]. split; [lia|]. split; [lia|].
    intros x _. by rewrite decide_False by lia. }
  rewrite locality_round by (done || (sizes; lia)). set (a := start + i * PGSIZE) in *.
  assert (aligned a) as Ha by (destruct Hst; unfold a; addr).
  assert (user_addr a) as Hua by (destruct Hst as [[] _]; unfold user_addr, a; sizes; lia).
  assert (pg a = a) as Hpa by (unfold pg; addr). assert (page_va a) as Hpva by (rewrite <- Hpa; by apply pg_va).
  assert (Hpn : present (pm s) tabs (pg a) = false).
  { rewrite Hpa. apply Hn; [done|]. unfold a. sizes; lia. }
  destruct (lazy_fault_run s l pgdir tabs a Hs Hua Hpn) as (r & s1 & l1 & tabs1 & Hr & Hs1 & _ & Hu1).
  rewrite (bind_Done _ _ _ _ _ _ _ Hr). rewrite Hpa in Hu1. destruct r.
  - destruct (IH s1 l1 pgdir tabs1 start (i + 1)) as (r & s' & l' & tabs' & k & -> & Hs' & Hkr & Hrk & Hu');
      [done..|lia|sizes; lia| |].
    + intros va Hva Hr'. pose proof (Hu1 va) as Hx. rewrite decide_False in Hx; cycle 1.
      { destruct Hva as [_ Hva]. unfold pg, a. intros [_ ?]. addr. }
      assert (user_addr va) as Huv by (destruct Hva as [[] _]; unfold user_addr; sizes; lia).
      apply umem_none; [done|]. rewrite Hx by done. unfold umem.
      replace (pg va) with va by (destruct Hva; unfold pg; addr). rewrite Hn; [done|done|sizes; lia].
    + exists r, s', l', tabs', k. split; [done|]. split; [done|]. split; [lia|]. split; [intros Ht; specialize (Hrk Ht); lia|].
      intros x Hx. rewrite Hu', Hu1 by done. assert (aligned (pg x)) by (unfold pg; addr).
      destruct (decide (start + (i + 1) * PGSIZE <= pg x < start + k * PGSIZE)).
      * rewrite decide_True by (unfold a; sizes; lia). done.
      * destruct (decide (pg x = a)) as [E|E].
        -- rewrite decide_True by done. rewrite decide_True by (unfold a in *; sizes; lia). done.
        -- rewrite decide_False by naive_solver. rewrite decide_False by (unfold a in *; addr). done.
  - exists false, s1, l1, tabs1, i. split; [done|]. split; [done|]. split; [lia|]. split; [done|].
    intros x Hx. rewrite Hu1 by done. rewrite decide_False by naive_solver.
    by rewrite decide_False by (unfold a; lia).
Qed.
End proofs.
