(* ===== verification/AddrSpace.v ===== *)
(** * Address spaces: the contract of src/vm.c

    The theorems of this file say what the operations on page tables do to the
    memory user code sees ([umem], a partial function from user addresses to
    bytes) and to the pool of physical pages.  [space kend s l pgdir tabs]
    says that in state [s] the free pages are [l] and [pgdir] is a well-formed
    address space with the page tables [tabs]; [owns] are the physical pages it
    is made of. *)

From S2P Require Import Prelude Layout CString Spinlock Kalloc Vm.

(** The bounds the linker script and the memory layout give [end] and [data]. *)
Definition end_ok (kend : Z) : Prop := KERNLINK <= kend <= KERNBASE + PHYSTOP.
Definition data_ok (kdata : Z) : Prop := aligned kdata /\ KERNLINK < kdata < KERNBASE + PHYSTOP.

(** ** Example states *)

Definition ex_ctx : ctx := Ctx ∅ 0.
Definition ex_page (n : Z) : Z := KERNLINK + PGSIZE * n.
Definition ex_state : kmem := Kmem (wr32 ∅ (ex_page 1) (ex_page 2)) (ex_page 1) true.

Lemma ex_page_ok n : 0 <= n < 100 -> page_ok KERNLINK (ex_page n).
Proof. unfold page_ok, ex_page. intros. split; addr. Qed.

Lemma ex_end_ok : end_ok KERNLINK.
Proof. unfold end_ok. addr. Qed.

Lemma ex_data_ok : data_ok (ex_page 1).
Proof. unfold data_ok, ex_page. addr. Qed.

Lemma ex_lock : kmem_lock ∉ held ex_ctx.
Proof. cbn. set_solver. Qed.

Lemma ex_kmem_ok : kmem_ok KERNLINK ex_state [ex_page 1; ex_page 2].
Proof.
  split.
  - apply mem_ok_wr32, mem_ok_empty.
  - split; [done|]. cbn [pm ex_state]. rewrite rd32_wr32_eq by (unfold ex_page; addr). split; [done|].
    rewrite rd32_wr32_ne by (unfold ex_page; addr). done.
  - apply NoDup_cons. split; [|apply NoDup_singleton]. intros H%list_elem_of_singleton.
    unfold ex_page in H. addr.
  - repeat constructor; apply ex_page_ok; lia.
Qed.

(** An empty page directory, with two free pages left. *)
Lemma ex_space : space KERNLINK ex_state [ex_page 1; ex_page 2] (ex_page 0) ∅.
Proof.
  apply bare_space. split; [|done]. split; [apply ex_kmem_ok| | |done].
  - split; [by apply ex_page_ok| |..]; try done.
    intros i Hi _. cbn [pm ex_state]. rewrite rd32_wr32_ne by (unfold ex_page; sizes; lia). done.
  - rewrite !not_elem_of_cons. unfold ex_page. split_and!; [addr|addr|apply not_elem_of_nil].
Qed.

(** ** Building and destroying *)

(** [setupkvm] either returns 0, with the free pages and all other memory as
    they were, or a page directory made of pages that were free, whose entries
    for all of virtual memory are exactly those the [kmap] table prescribes
    (kernel text read-only, the rest of physical memory and the devices
    writable, no entry below KERNBASE). *)
Theorem setupkvm_maps_kernel kend kdata c s L :
  end_ok kend -> data_ok kdata -> kmem_lock ∉ held c -> kmem_ok kend s L ->
  exists r s', setupkvm kend kdata c s = Done r c s' /\
    ((r = 0 /\ back kend L (pm s) s') \/
     (r <> 0 /\ exists l' tabs', space kend s' l' r tabs' /\
       (forall va, page_va va -> pte_val (pm s') tabs' va = kernel_pte kdata va) /\
       (forall p, p ∈ L <-> p ∈ l' \/ owns (pm s') r tabs' p) /\
       same_off L (pm s) (pm s'))).
Proof.
  intros He Hd Hc Hk. destruct (setupkvm_run kend kdata He c Hc Hd s L Hk)
    as (r & s' & Hr & [?|(Hnz & l' & tabs' & Hb & Hv & Hp & Hm)]); exists r, s'; split; [done| |done|].
  - by left.
  - right. split; [done|]. exists l', tabs'. split_and!; try done. by apply bare_space.
Qed.

Lemma setupkvm_maps_kernel_witness : exists r s',
  setupkvm KERNLINK (ex_page 1) ex_ctx ex_state = Done r ex_ctx s'.
Proof.
  destruct (setupkvm_maps_kernel KERNLINK (ex_page 1) ex_ctx ex_state [ex_page 1; ex_page 2])
    as (r & s' & H & _).
  - exact ex_end_ok.
  - exact ex_data_ok.
  - exact ex_lock.
  - exact ex_kmem_ok.
  - exists r, s'. exact H.
Defined.

(** C27: [freevm] returns to the allocator exactly the pages an address space
    is made of (the directory, the page tables, the present user pages), each
    once, and changes no memory outside the free pages. *)
Theorem freevm_frees_all kend c s l pgdir tabs :
  end_ok kend -> kmem_lock ∉ held c -> space kend s l pgdir tabs ->
  exists s' l', freevm kend pgdir c s = Done tt c s' /\ kmem_ok kend s' l' /\
    (forall p, p ∈ l' <-> p ∈ l \/ owns (pm s) pgdir tabs p) /\
    same_off l' (pm s) (pm s').
Proof.
  intros He Hc [Hs Hu]. destruct (freevm_run kend He c Hc s l pgdir tabs Hs Hu)
    as (s' & l' & Hf & Hk & Hp & Hm). exists s', l'. split_and!; try done.
  intros a Ha. apply Hm. intros p Hpl. pose proof (ko_pages _ _ _ Hk) as Hps.
  rewrite Forall_forall in Hps. rewrite in_page_pg by by apply Hps. intros <-. done.
Qed.

Lemma freevm_frees_all_witness : exists s' (l' : list Z),
  freevm KERNLINK (ex_page 0) ex_ctx ex_state = Done tt ex_ctx s' /\ ex_page 0 ∈ l'.
Proof.
  destruct (freevm_frees_all KERNLINK ex_ctx ex_state [ex_page 1; ex_page 2] (ex_page 0) ∅)
    as (s' & l' & H & _ & Hp & _).
  - exact ex_end_ok.
  - exact ex_lock.
  - exact ex_space.
  - exists s', l'. split; [exact H|]. apply Hp. right. left. reflexivity.
Defined.

(** ** Growing and shrinking *)

(** [allocuvm] grows an address space: on success it returns the new size
    and the pages between the old and the new size read as zeroes; when memory
    runs out it returns 0 and none of the new pages is left; either way every
    other user address reads as before and the address space is well formed. *)
Theorem allocuvm_zero_fills kend c s l pgdir tabs oldsz newsz :
  end_ok kend -> kmem_lock ∉ held c -> space kend s l pgdir tabs ->
  0 <= oldsz <= newsz -> newsz < KERNBASE ->
  (forall va, page_va va -> PGROUNDUP oldsz <= va < newsz -> present (pm s) tabs va = false) ->
  exists r s' l' tabs', allocuvm kend pgdir oldsz newsz c s = Done r c s' /\
    space kend s' l' pgdir tabs' /\
    alloc_result (PGROUNDUP oldsz) (PGROUNDUP oldsz) newsz r (umem (pm s) tabs) (umem (pm s') tabs').
Proof.
  intros He Hc Hs Ho Hk Hn. unfold allocuvm. rewrite Z.geb_leb, (proj2 (Z.leb_gt _ _)) by lia.
  rewrite (proj2 (Z.ltb_ge _ _)) by lia.
  assert (Hr : PGROUNDUP oldsz = (oldsz + PGSIZE - 1) - (oldsz + PGSIZE - 1) mod PGSIZE)
    by (apply PGROUNDUP_eq; addr).
  apply (allocuvm_loop_run kend He c Hc _ s l); try done.
  - lia.
  - rewrite Nat2Z.inj_succ, Z2Nat.id by addr. rewrite Hr. addr.
  - lia.
  - rewrite Hr. addr.
  - rewrite Hr. addr.
  - rewrite Hr. addr.
Qed.

Lemma allocuvm_zero_fills_witness : exists r s',
  allocuvm KERNLINK (ex_page 0) 0 5000 ex_ctx ex_state = Done r ex_ctx s'.
Proof.
  destruct (allocuvm_zero_fills KERNLINK ex_ctx ex_state [ex_page 1; ex_page 2] (ex_page 0) ∅ 0 5000)
    as (r & s' & _ & _ & H & _).
  - exact ex_end_ok.
  - exact ex_lock.
  - exact ex_space.
  - lia.
  - addr.
  - reflexivity.
  - exists r, s'. exact H.
Defined.

(** [deallocuvm] shrinks an address space: it returns the new size, the
    pages between the new and the old size are gone from the user's view and
    back on the free list, and every other user address reads as before. *)
Theorem deallocuvm_frees kend c s l pgdir tabs oldsz newsz :
  end_ok kend -> kmem_lock ∉ held c -> space kend s l pgdir tabs ->
  0 <= newsz < oldsz -> oldsz <= KERNBASE ->
  exists s' l', deallocuvm kend pgdir oldsz newsz c s = Done newsz c s' /\
    space kend s' l' pgdir tabs /\
    (forall x, user_addr x -> umem (pm s') tabs x =
       if decide (PGROUNDUP newsz <= pg x < oldsz) then None else umem (pm s) tabs x) /\
    (forall f, f ∈ l' <-> f ∈ l \/ exists va, page_va va /\ PGROUNDUP newsz <= va < oldsz /\
       present (pm s) tabs va = true /\ frame (pm s) tabs va = f).
Proof.
  intros He Hc [Hs Hu] Hn Ho.
  destruct (deallocuvm_run kend He c Hc s l pgdir tabs oldsz newsz ltac:(lia) ltac:(lia) Hs Hu)
    as (s' & l' & Hr & Hd). exists s', l'. split; [done|]. split; [split; apply Hd|]. split.
  - intros x Hx. by eapply umem_dealloc.
  - apply Hd.
Qed.

Lemma deallocuvm_frees_witness : exists s',
  deallocuvm KERNLINK (ex_page 0) 9000 100 ex_ctx ex_state = Done 100 ex_ctx s'.
Proof.
  destruct (deallocuvm_frees KERNLINK ex_ctx ex_state [ex_page 1; ex_page 2] (ex_page 0) ∅ 9000 100)
    as (s' & _ & H & _).
  - exact ex_end_ok.
  - exact ex_lock.
  - exact ex_space.
  - lia.
  - addr.
  - exists s'. exact H.
Defined.

(** ** Copying (fork) *)

(** Memory with an empty page directory and 96 free pages. *)
Lemma ex_pool : exists s L, space KERNLINK s L (ex_page 0) ∅ /\ (96 <= length L)%nat /\ (forall p, p ∈ L -> ex_page 4 <= p).
Proof.
  destruct (freerange_run KERNLINK (ex_page 4) (ex_page 100) ex_ctx (Kmem ∅ 0 true) []) as (s & L & _ & Hk & HL & _ & Hm).
  { unfold ex_page. addr. } { unfold ex_page. addr. } { intros _. apply ex_lock. } { by apply kmem_ok_empty. } { intros q Hq. by apply not_elem_of_nil in Hq. }
  assert (Hlo : forall p, p ∈ L -> ex_page 4 <= p) by (intros p [Hp|Hp]%HL; [by apply not_elem_of_nil in Hp|lia]).
  exists s, L. split; [|split; [|exact Hlo]].
  - apply bare_space. split; [|done]. split; [done| | |done].
    + split; [by apply ex_page_ok| |..]; try done. intros i Hi _. rewrite rd32_zero; [done|]. intros k Hk'. rewrite Hm; [done|]. clear Hlo HL Hm. unfold ex_page in *. sizes. lia.
    + intros Hin%Hlo. unfold ex_page in Hin. sizes. lia.
  - assert (Hn : (length (ex_page <$> seqZ 4 96) <= length L)%nat); [|by rewrite length_fmap in Hn; rewrite length_seqZ in Hn].
    apply nodup_length_le; [apply NoDup_fmap_2_strong; [intros x y _ _ E; unfold ex_page in E; sizes; lia|apply NoDup_seqZ]|].
    intros p (n & -> & Hn%elem_of_seqZ)%list_elem_of_fmap. apply HL. right. unfold ex_page. addr.
Qed.

(** An address space with one user page, at address 0, and 94 free pages. *)
Lemma ex_user : exists s L tabs,
  space KERNLINK s L (ex_page 0) tabs /\ present (pm s) tabs 0 = true /\ (94 <= length L)%nat /\
  (forall p, p ∈ L -> ex_page 4 <= p \/ p = ex_page 0).
Proof.
  destruct ex_pool as (s & L & Hs & HL & Hlo). assert (Hva : page_va 0) by (split; addr).
  destruct (new_page_run KERNLINK ex_end_ok ex_ctx ex_lock zeroed wu s L (ex_page 0) ∅ 0 Hs Hva) as [-> _|f s0 s1 -> _|f l1 s0 s1 s' l' tabs' -> _ _ _ _ Hs' Hv _ Hown _ Hn];
    [addr|reflexivity|apply wu_ok|apply zeroed_ok|apply zeroed_out|cbn in HL; lia|cbn in HL; lia|].
  exists s', l', tabs'. split; [done|]. split; [|split; [lia|]].
  - unfold present. rewrite Hv, decide_True by done.
    assert (Hf : page_ok KERNLINK f) by (by pose proof (ko_pages _ _ _ (vs_kmem _ _ _ _ _ (proj1 Hs))) as [? _]%Forall_cons).
    by destruct (mk_pte_frame KERNLINK ex_end_ok f wu Hf wu_ok) as (Hp & _ & _).
  - intros p Hp. destruct (proj2 (Hown p) (or_introl Hp)) as [?|[->|[(i & Hi)|(va & _ & _ & Hpv & _)]]]; [left; by apply Hlo|by right|by rewrite lookup_empty in Hi|done].
Qed.

(** C6: [copyuvm] gives the child a copy of the parent's memory.  If every page
    below [sz] is present (it panics otherwise) it returns, and the parent's view
    is unchanged.  It returns 0, with the free pages as they were, only if no more
    pages are free than the 65 of the kernel's mappings and two for each page of
    the parent.  Otherwise it returns a new address space, disjoint from the
    parent's since made of free pages, that reads below [sz] as the parent does,
    with the same page flags, and has the kernel's mappings and nothing else. *)
Theorem copyuvm_copies kend kdata c s L pgdir tabs sz :
  end_ok kend -> data_ok kdata -> kmem_lock ∉ held c -> space kend s L pgdir tabs ->
  0 <= sz <= KERNBASE ->
  (forall va, page_va va -> va < sz -> present (pm s) tabs va = true) ->
  exists r s', copyuvm kend kdata pgdir sz c s = Done r c s' /\
    (forall x, user_addr x -> umem (pm s') tabs x = umem (pm s) tabs x) /\
    ((r = 0 /\ back kend L (pm s) s' /\ Z.of_nat (length L) <= 65 + 2 * pages_of sz) \/
     (r <> 0 /\ exists l' tabs', space kend s' l' r tabs' /\
       (forall p, p ∈ L <-> p ∈ l' \/ owns (pm s') r tabs' p) /\
       (forall x, user_addr x -> umem (pm s') tabs' x =
          if decide (pg x < sz) then umem (pm s) tabs x else None) /\
       (forall va, page_va va -> va < sz ->
          PTE_FLAGS (pte_val (pm s') tabs' va) = PTE_FLAGS (pte_val (pm s) tabs va)) /\
       (forall va, page_va va -> KERNBASE <= va -> pte_val (pm s') tabs' va = kernel_pte kdata va))).
Proof.
  intros He Hd Hc Hs Hsz Hall.
  destruct (copyuvm_run kend kdata He c Hc Hd s L pgdir tabs sz Hs Hsz Hall)
    as (r & s' & Hr & Hcase). exists r, s'. split; [done|].
  destruct Hcase as [(-> & Hb & Hn)|(Hnz & j & l' & tabs' & Hch & Hj & Hpj & Hj')].
  - split; [|by left]. destruct Hb as (l' & _ & _ & Hm). by apply (space_same_off kend s L pgdir tabs).
  - destruct Hch as [Hsp Hpg Hm Hu Hfl Hk].
    split; [by apply (space_same_off kend s L pgdir tabs)|].
    right. split; [done|]. exists l', tabs'. split_and!; try done.
    + intros x Hx. rewrite Hu by done. pose proof (proj1 (proj1 (pg_va x Hx))) as [].
      destruct Hpj as [_ Hpj]. assert (aligned (pg x)) by (unfold pg; addr).
      assert (pg x < j <-> pg x < sz) as E by addr. by repeat case_decide; tauto || lia.
    + intros va Hva Hlt. apply Hfl; [done|lia|lia].
Qed.

(** A process with one page is copied; byte 5 is one of its bytes. *)
Lemma copyuvm_copies_witness : exists s tabs d s' tabs' (b : Z),
  copyuvm KERNLINK (ex_page 1) (ex_page 0) 100 ex_ctx s = Done d ex_ctx s' /\ d <> 0 /\
  umem (pm s) tabs 5 = Some b /\ umem (pm s') tabs' 5 = Some b.
Proof.
  destruct ex_user as (s & L & tabs & Hs & Hp & HL & _).
  destruct (copyuvm_copies KERNLINK (ex_page 1) ex_ctx s L (ex_page 0) tabs 100) as (r & s' & E & _ & [(_ & _ & Hn)|(Hnz & l' & tabs' & _ & _ & Hu & _)]).
  - exact ex_end_ok.
  - exact ex_data_ok.
  - exact ex_lock.
  - exact Hs.
  - addr.
  - intros va [Hu Ha] Hva. replace va with 0 by addr. exact Hp.
  - change (pages_of 100) with 1 in Hn. lia.
  - assert (Hb : exists b, umem (pm s) tabs 5 = Some b) by (unfold umem; change (pg 5) with 0; rewrite Hp; by eexists). destruct Hb as [b Hb].
    exists s, tabs, r, s', tabs', b. split; [exact E|]. split; [exact Hnz|]. split; [exact Hb|].
    rewrite Hu by (unfold user_addr; addr). rewrite decide_True by (change (pg 5) with 0; lia). exact Hb.
Defined.

(** C39: [copyuvm] cannot copy an address space with a hole.  If some page below
    [sz] is not present, as after a lazily granted [sbrk], no child is made:
    the kernel panics, unless memory ran out first. *)
Theorem copyuvm_hole_panics kend kdata c s L pgdir tabs sz va :
  end_ok kend -> data_ok kdata -> kmem_lock ∉ held c -> space kend s L pgdir tabs ->
  sz <= KERNBASE -> page_va va -> va < sz -> present (pm s) tabs va = false ->
  no_child kend c L (pm s) (copyuvm kend kdata pgdir sz c s).
Proof.
  intros He Hd Hc Hs Hsz Hva Hlt Hnp. unfold copyuvm.
  destruct (setupkvm_run kend kdata He c Hc Hd s L (vs_kmem _ _ _ _ _ (proj1 Hs)))
    as (d & s1 & Hr & Hcase). rewrite (bind_Done _ _ _ _ _ _ _ Hr).
  destruct Hcase as [(-> & Hb)|(Hnz & l1 & tabs1 & Hb & Hk & Hp & Hm)].
  { right. right. by exists s1. }
  rewrite (proj2 (Z.eqb_neq d 0) Hnz). pose proof (proj1 Hva) as [].
  apply (copyuvm_loop_hole kend kdata He c Hc _ s L pgdir tabs 0 sz s1 l1 d tabs1 va); try done.
  - rewrite Nat2Z.inj_succ, Z2Nat.id by addr. addr.
  - by apply bare_child.
Qed.

Lemma copyuvm_hole_panics_witness :
  no_child KERNLINK ex_ctx [ex_page 1; ex_page 2] (pm ex_state)
    (copyuvm KERNLINK (ex_page 1) (ex_page 0) 100 ex_ctx ex_state).
Proof.
  apply (copyuvm_hole_panics KERNLINK (ex_page 1) ex_ctx ex_state _ (ex_page 0) ∅ 100 0).
  - exact ex_end_ok.
  - exact ex_data_ok.
  - exact ex_lock.
  - exact ex_space.
  - addr.
  - split; addr.
  - lia.
  - reflexivity.
Defined.

(** ** Page faults *)

(** The LAZY page fault handler serves a fault on an absent user page: it
    returns, and on success the faulting page reads as zeroes and every other
    user address as before; it asks for the process to be killed only when at
    most one page was free, and then the user's memory is unchanged. *)
Theorem lazy_fault_zero_fills kend c s l pgdir tabs cr2 :
  end_ok kend -> kmem_lock ∉ held c -> space kend s l pgdir tabs ->
  user_addr cr2 -> present (pm s) tabs (pg cr2) = false ->
  exists (r : bool) s' l' tabs', lazy_fault kend pgdir cr2 c s = Done r c s' /\
    space kend s' l' pgdir tabs' /\ (r = false -> (length l <= 1)%nat) /\
    forall x, user_addr x -> umem (pm s') tabs' x =
      if decide (r = true /\ pg x = pg cr2) then Some 0 else umem (pm s) tabs x.
Proof.
  intros He Hc. apply (lazy_fault_run kend (ex_page 1) He c Hc ex_data_ok).
Qed.

Lemma lazy_fault_zero_fills_witness : exists s' tabs',
  lazy_fault KERNLINK (ex_page 0) 5000 ex_ctx ex_state = Done true ex_ctx s' /\
  umem (pm s') tabs' 5001 = Some 0.
Proof.
  destruct (lazy_fault_zero_fills KERNLINK ex_ctx ex_state [ex_page 1; ex_page 2] (ex_page 0) ∅ 5000)
    as (r & s' & l' & tabs' & H & _ & Hr & Hu).
  - exact ex_end_ok.
  - exact ex_lock.
  - exact ex_space.
  - unfold user_addr. addr.
  - reflexivity.
  - exists s', tabs'. destruct r.
    + split; [exact H|]. rewrite Hu by (unfold user_addr; addr). reflexivity.
    + specialize (Hr eq_refl). cbn in Hr. lia.
Defined.

(** The LAZY handler does not look at why the access faulted: a fault on a
    present page (a user access to a kernel address or to the guard page
    below the stack) makes the kernel panic. *)
Theorem lazy_fault_protection_panics kend c s f l pgdir tabs cr2 :
  end_ok kend -> kmem_lock ∉ held c -> space kend s (f :: l) pgdir tabs ->
  uint_ok cr2 -> present (pm s) tabs (pg cr2) = true ->
  lazy_fault kend pgdir cr2 c s = Panic "remap".
Proof.
  intros He Hc. apply (lazy_fault_present kend (ex_page 1) He c Hc).
Qed.

Lemma lazy_fault_protection_panics_witness : exists s tabs,
  present (pm s) tabs 0 = true /\ lazy_fault KERNLINK (ex_page 0) 7 ex_ctx s = Panic "remap".
Proof.
  destruct ex_user as (s & [|f L] & tabs & Hs & Hp & HL & _); [cbn in HL; lia|]. exists s, tabs. split; [exact Hp|].
  apply (lazy_fault_protection_panics KERNLINK ex_ctx s f L (ex_page 0) tabs 7).
  - exact ex_end_ok.
  - exact ex_lock.
  - exact Hs.
  - word.
  - exact Hp.
Defined.

(** The LOCALITY page fault handler maps the faulting page and the two
    after it, when none of the three is present: on success all three read as
    zeroes, on failure (memory ran out) an initial part of them does; every
    other user address reads as before. *)
Theorem locality_fault_zero_fills kend c s l pgdir tabs cr2 :
  end_ok kend -> kmem_lock ∉ held c -> space kend s l pgdir tabs ->
  0 <= cr2 -> pg cr2 + 3 * PGSIZE <= KERNBASE ->
  (forall va, page_va va -> pg cr2 <= va < pg cr2 + 3 * PGSIZE -> present (pm s) tabs va = false) ->
  exists (r : bool) s' l' tabs' k, locality_fault kend pgdir cr2 c s = Done r c s' /\
    space kend s' l' pgdir tabs' /\ 0 <= k <= 3 /\ (r = true -> k = 3) /\
    forall x, user_addr x -> umem (pm s') tabs' x =
      if decide (pg cr2 <= pg x < pg cr2 + k * PGSIZE) then Some 0 else umem (pm s) tabs x.
Proof.
  intros He Hc Hs H0 Hk Hn. unfold locality_fault.
  rewrite PGROUNDDOWN_eq by (unfold pg in *; addr). fold (pg cr2).
  assert (page_va (pg cr2)) as Hp by (unfold pg in *; split; addr).
  destruct (locality_loop_run kend (ex_page 1) He c Hc ex_data_ok 3 s l pgdir tabs (pg cr2) 0 Hs Hp)
    as (r & s' & l' & tabs' & k & Hr & Hs' & Hkr & Hrk & Hu); [lia|done| |].
  - intros va Hva Hr. apply Hn; [done|sizes; lia].
  - exists r, s', l', tabs', k. split_and!; try done; try lia. intros x Hx. rewrite Hu by done.
    by rewrite Z.mul_0_l, Z.add_0_r.
Qed.

Lemma locality_fault_zero_fills_witness : exists r s',
  locality_fault KERNLINK (ex_page 0) 5000 ex_ctx ex_state = Done r ex_ctx s'.
Proof.
  destruct (locality_fault_zero_fills KERNLINK ex_ctx ex_state [ex_page 1; ex_page 2] (ex_page 0) ∅ 5000)
    as (r & s' & _ & _ & _ & H & _).
  - exact ex_end_ok.
  - exact ex_lock.
  - exact ex_space.
  - lia.
  - unfold pg. addr.
  - reflexivity.
  - exists r, s'. exact H.
Defined.
