(* ===== verification/State.v ===== *)
(** * The kernel's state

    The C structures of the process table, the buffer cache, the log, the
    inode cache, the file table and the pipes as records, the global variables
    that hold them as one record [kernel], and access to arrays of structures.
    An index into a C array stands for a pointer to its element; a null pointer
    is [None].  Each [set_] function is the assignment to one field. *)

From S2P Require Import Prelude Layout CString Spinlock Kalloc.

Inductive procstate := UNUSED | EMBRYO | SLEEPING | RUNNABLE | RUNNING | ZOMBIE.
#[export] Instance procstate_eq_dec : EqDecision procstate.
Proof. solve_decision. Defined.

Inductive fdtype := FD_NONE | FD_PIPE | FD_INODE.
#[export] Instance fdtype_eq_dec : EqDecision fdtype.
Proof. solve_decision. Defined.

(** A sleep lock; its spin lock is one of the locks of the context. *)
Record sleeplock := SleepLock { sl_locked : bool; sl_pid : Z }.

(** One process table entry, struct proc. *)
Record proc := Proc {
  p_sz : Z; p_pgdir : Z; p_kstack : Z; p_state : procstate; p_pid : Z; p_parent : option nat;
  p_parentThread : option nat; p_ustack : Z; p_tf : Z; p_context : Z; p_chan : Z; p_killed :
  bool; p_ofile : list (option nat); p_cwd : option nat; p_name : list Z; p_priority : Z;
  p_end_time : Z; p_turnaround_time : Z; p_creation_time : Z; p_wait_time : Z; p_start_time :
  Z; p_ticks_runs : Z; }.

Definition set_p_sz (v : Z) (r : proc) : proc :=
  Proc v (p_pgdir r) (p_kstack r) (p_state r) (p_pid r) (p_parent r) (p_parentThread r)
    (p_ustack r) (p_tf r) (p_context r) (p_chan r) (p_killed r) (p_ofile r) (p_cwd r) (p_name r)
    (p_priority r) (p_end_time r) (p_turnaround_time r) (p_creation_time r) (p_wait_time r)
    (p_start_time r) (p_ticks_runs r).
Definition set_p_pgdir (v : Z) (r : proc) : proc :=
  Proc (p_sz r) v (p_kstack r) (p_state r) (p_pid r) (p_parent r) (p_parentThread r) (p_ustack r)
    (p_tf r) (p_context r) (p_chan r) (p_killed r) (p_ofile r) (p_cwd r) (p_name r) (p_priority r)
    (p_end_time r) (p_turnaround_time r) (p_creation_time r) (p_wait_time r) (p_start_time r)
    (p_ticks_runs r).
Definition set_p_kstack (v : Z) (r : proc) : proc :=
  Proc (p_sz r) (p_pgdir r) v (p_state r) (p_pid r) (p_parent r) (p_parentThread r) (p_ustack r)
    (p_tf r) (p_context r) (p_chan r) (p_killed r) (p_ofile r) (p_cwd r) (p_name r) (p_priority r)
    (p_end_time r) (p_turnaround_time r) (p_creation_time r) (p_wait_time r) (p_start_time r)
    (p_ticks_runs r).
Definition set_p_state (v : procstate) (r : proc) : proc :=
  Proc (p_sz r) (p_pgdir r) (p_kstack r) v (p_pid r) (p_parent r) (p_parentThread r) (p_ustack r)
    (p_tf r) (p_context r) (p_chan r) (p_killed r) (p_ofile r) (p_cwd r) (p_name r) (p_priority r)
    (p_end_time r) (p_turnaround_time r) (p_creation_time r) (p_wait_time r) (p_start_time r)
    (p_ticks_runs r).
Definition set_p_pid (v : Z) (r : proc) : proc :=
  Proc (p_sz r) (p_pgdir r) (p_kstack r) (p_state r) v (p_parent r) (p_parentThread r)
    (p_ustack r) (p_tf r) (p_context r) (p_chan r) (p_killed r) (p_ofile r) (p_cwd r) (p_name r)
    (p_priority r) (p_end_time r) (p_turnaround_time r) (p_creation_time r) (p_wait_time r)
    (p_start_time r) (p_ticks_runs r).
Definition set_p_parent (v : option nat) (r : proc) : proc :=
  Proc (p_sz r) (p_pgdir r) (p_kstack r) (p_state r) (p_pid r) v (p_parentThread r) (p_ustack r)
    (p_tf r) (p_context r) (p_chan r) (p_killed r) (p_ofile r) (p_cwd r) (p_name r) (p_priority r)
    (p_end_time r) (p_turnaround_time r) (p_creation_time r) (p_wait_time r) (p_start_time r)
    (p_ticks_runs r).
Definition set_p_parentThread (v : option nat) (r : proc) : proc :=
  Proc (p_sz r) (p_pgdir r) (p_kstack r) (p_state r) (p_pid r) (p_parent r) v (p_ustack r)
    (p_tf r) (p_context r) (p_chan r) (p_killed r) (p_ofile r) (p_cwd r) (p_name r) (p_priority r)
    (p_end_time r) (p_turnaround_time r) (p_creation_time r) (p_wait_time r) (p_start_time r)
    (p_ticks_runs r).
Definition set_p_ustack (v : Z) (r : proc) : proc :=
  Proc (p_sz r) (p_pgdir r) (p_kstack r) (p_state r) (p_pid r) (p_parent r) (p_parentThread r) v
    (p_tf r) (p_context r) (p_chan r) (p_killed r) (p_ofile r) (p_cwd r) (p_name r) (p_priority r)
    (p_end_time r) (p_turnaround_time r) (p_creation_time r) (p_wait_time r) (p_start_time r)
    (p_ticks_runs r).
Definition set_p_tf (v : Z) (r : proc) : proc :=
  Proc (p_sz r) (p_pgdir r) (p_kstack r) (p_state r) (p_pid r) (p_parent r) (p_parentThread r)
    (p_ustack r) v (p_context r) (p_chan r) (p_killed r) (p_ofile r) (p_cwd r) (p_name r)
    (p_priority r) (p_end_time r) (p_turnaround_time r) (p_creation_time r) (p_wait_time r)
    (p_start_time r) (p_ticks_runs r).
Definition set_p_context (v : Z) (r : proc) : proc :=
  Proc (p_sz r) (p_pgdir r) (p_kstack r) (p_state r) (p_pid r) (p_parent r) (p_parentThread r)
    (p_ustack r) (p_tf r) v (p_chan r) (p_killed r) (p_ofile r) (p_cwd r) (p_name r) (p_priority r)
    (p_end_time r) (p_turnaround_time r) (p_creation_time r) (p_wait_time r) (p_start_time r)
    (p_ticks_runs r).
Definition set_p_chan (v : Z) (r : proc) : proc :=
  Proc (p_sz r) (p_pgdir r) (p_kstack r) (p_state r) (p_pid r) (p_parent r) (p_parentThread r)
    (p_ustack r) (p_tf r) (p_context r) v (p_killed r) (p_ofile r) (p_cwd r) (p_name r)
    (p_priority r) (p_end_time r) (p_turnaround_time r) (p_creation_time r) (p_wait_time r)
    (p_start_time r) (p_ticks_runs r).
Definition set_p_killed (v : bool) (r : proc) : proc :=
  Proc (p_sz r) (p_pgdir r) (p_kstack r) (p_state r) (p_pid r) (p_parent r) (p_parentThread r)
    (p_ustack r) (p_tf r) (p_context r) (p_chan r) v (p_ofile r) (p_cwd r) (p_name r) (p_priority r)
    (p_end_time r) (p_turnaround_time r) (p_creation_time r) (p_wait_time r) (p_start_time r)
    (p_ticks_runs r).
Definition set_p_ofile (v : list (option nat)) (r : proc) : proc :=
  Proc (p_sz r) (p_pgdir r) (p_kstack r) (p_state r) (p_pid r) (p_parent r) (p_parentThread r)
    (p_ustack r) (p_tf r) (p_context r) (p_chan r) (p_killed r) v (p_cwd r) (p_name r)
    (p_priority r) (p_end_time r) (p_turnaround_time r) (p_creation_time r) (p_wait_time r)
    (p_start_time r) (p_ticks_runs r).
Definition set_p_cwd (v : option nat) (r : proc) : proc :=
  Proc (p_sz r) (p_pgdir r) (p_kstack r) (p_state r) (p_pid r) (p_parent r) (p_parentThread r)
    (p_ustack r) (p_tf r) (p_context r) (p_chan r) (p_killed r) (p_ofile r) v (p_name r)
    (p_priority r) (p_end_time r) (p_turnaround_time r) (p_creation_time r) (p_wait_time r)
    (p_start_time r) (p_ticks_runs r).
Definition set_p_name (v : list Z) (r : proc) : proc :=
  Proc (p_sz r) (p_pgdir r) (p_kstack r) (p_state r) (p_pid r) (p_parent r) (p_parentThread r)
    (p_ustack r) (p_tf r) (p_context r) (p_chan r) (p_killed r) (p_ofile r) (p_cwd r) v
    (p_priority r) (p_end_time r) (p_turnaround_time r) (p_creation_time r) (p_wait_time r)
    (p_start_time r) (p_ticks_runs r).
Definition set_p_priority (v : Z) (r : proc) : proc :=
  Proc (p_sz r) (p_pgdir r) (p_kstack r) (p_state r) (p_pid r) (p_parent r) (p_parentThread r)
    (p_ustack r) (p_tf r) (p_context r) (p_chan r) (p_killed r) (p_ofile r) (p_cwd r) (p_name r) v
    (p_end_time r) (p_turnaround_time r) (p_creation_time r) (p_wait_time r) (p_start_time r)
    (p_ticks_runs r).
Definition set_p_end_time (v : Z) (r : proc) : proc :=
  Proc (p_sz r) (p_pgdir r) (p_kstack r) (p_state r) (p_pid r) (p_parent r) (p_parentThread r)
    (p_ustack r) (p_tf r) (p_context r) (p_chan r) (p_killed r) (p_ofile r) (p_cwd r) (p_name r)
    (p_priority r) v (p_turnaround_time r) (p_creation_time r) (p_wait_time r) (p_start_time r)
    (p_ticks_runs r).
Definition set_p_turnaround_time (v : Z) (r : proc) : proc :=
  Proc (p_sz r) (p_pgdir r) (p_kstack r) (p_state r) (p_pid r) (p_parent r) (p_parentThread r)
    (p_ustack r) (p_tf r) (p_context r) (p_chan r) (p_killed r) (p_ofile r) (p_cwd r) (p_name r)
    (p_priority r) (p_end_time r) v (p_creation_time r) (p_wait_time r) (p_start_time r)
    (p_ticks_runs r).
Definition set_p_creation_time (v : Z) (r : proc) : proc :=
  Proc (p_sz r) (p_pgdir r) (p_kstack r) (p_state r) (p_pid r) (p_parent r) (p_parentThread r)
    (p_ustack r) (p_tf r) (p_context r) (p_chan r) (p_killed r) (p_ofile r) (p_cwd r) (p_name r)
    (p_priority r) (p_end_time r) (p_turnaround_time r) v (p_wait_time r) (p_start_time r)
    (p_ticks_runs r).
Definition set_p_wait_time (v : Z) (r : proc) : proc :=
  Proc (p_sz r) (p_pgdir r) (p_kstack r) (p_state r) (p_pid r) (p_parent r) (p_parentThread r)
    (p_ustack r) (p_tf r) (p_context r) (p_chan r) (p_killed r) (p_ofile r) (p_cwd r) (p_name r)
    (p_priority r) (p_end_time r) (p_turnaround_time r) (p_creation_time r) v (p_start_time r)
    (p_ticks_runs r).
Definition set_p_start_time (v : Z) (r : proc) : proc :=
  Proc (p_sz r) (p_pgdir r) (p_kstack r) (p_state r) (p_pid r) (p_parent r) (p_parentThread r)
    (p_ustack r) (p_tf r) (p_context r) (p_chan r) (p_killed r) (p_ofile r) (p_cwd r) (p_name r)
    (p_priority r) (p_end_time r) (p_turnaround_time r) (p_creation_time r) (p_wait_time r) v
    (p_ticks_runs r).
Definition set_p_ticks_runs (v : Z) (r : proc) : proc :=
  Proc (p_sz r) (p_pgdir r) (p_kstack r) (p_state r) (p_pid r) (p_parent r) (p_parentThread r)
    (p_ustack r) (p_tf r) (p_context r) (p_chan r) (p_killed r) (p_ofile r) (p_cwd r) (p_name r)
    (p_priority r) (p_end_time r) (p_turnaround_time r) (p_creation_time r) (p_wait_time r)
    (p_start_time r) v.

(** A disk block buffer, struct buf (src/buf.h). *)
Record buf := Buf {
  b_flags : Z; b_dev : Z; b_blockno : Z; b_lock : sleeplock; b_refcnt : Z; b_prev : nat;
  b_next : nat; b_qnext : option nat; b_data : list Z; }.

Definition set_b_flags (v : Z) (r : buf) : buf :=
  Buf v (b_dev r) (b_blockno r) (b_lock r) (b_refcnt r) (b_prev r) (b_next r) (b_qnext r)
    (b_data r).
Definition set_b_dev (v : Z) (r : buf) : buf :=
  Buf (b_flags r) v (b_blockno r) (b_lock r) (b_refcnt r) (b_prev r) (b_next r) (b_qnext r)
    (b_data r).
Definition set_b_blockno (v : Z) (r : buf) : buf :=
  Buf (b_flags r) (b_dev r) v (b_lock r) (b_refcnt r) (b_prev r) (b_next r) (b_qnext r)
    (b_data r).
Definition set_b_lock (v : sleeplock) (r : buf) : buf :=
  Buf (b_flags r) (b_dev r) (b_blockno r) v (b_refcnt r) (b_prev r) (b_next r) (b_qnext r)
    (b_data r).
Definition set_b_refcnt (v : Z) (r : buf) : buf :=
  Buf (b_flags r) (b_dev r) (b_blockno r) (b_lock r) v (b_prev r) (b_next r) (b_qnext r)
    (b_data r).
Definition set_b_prev (v : nat) (r : buf) : buf :=
  Buf (b_flags r) (b_dev r) (b_blockno r) (b_lock r) (b_refcnt r) v (b_next r) (b_qnext r)
    (b_data r).
Definition set_b_next (v : nat) (r : buf) : buf :=
  Buf (b_flags r) (b_dev r) (b_blockno r) (b_lock r) (b_refcnt r) (b_prev r) v (b_qnext r)
    (b_data r).
Definition set_b_qnext (v : option nat) (r : buf) : buf :=
  Buf (b_flags r) (b_dev r) (b_blockno r) (b_lock r) (b_refcnt r) (b_prev r) (b_next r) v
    (b_data r).
Definition set_b_data (v : list Z) (r : buf) : buf :=
  Buf (b_flags r) (b_dev r) (b_blockno r) (b_lock r) (b_refcnt r) (b_prev r) (b_next r)
    (b_qnext r) v.

(** Struct log with its header (src/log.c). *)
Record logst := Log {
  l_start : Z; l_size : Z; l_outstanding : Z; l_committing : bool; l_dev : Z; l_n : Z; l_block
  : list Z; }.

Definition set_l_start (v : Z) (r : logst) : logst :=
  Log v (l_size r) (l_outstanding r) (l_committing r) (l_dev r) (l_n r) (l_block r).
Definition set_l_size (v : Z) (r : logst) : logst :=
  Log (l_start r) v (l_outstanding r) (l_committing r) (l_dev r) (l_n r) (l_block r).
Definition set_l_outstanding (v : Z) (r : logst) : logst :=
  Log (l_start r) (l_size r) v (l_committing r) (l_dev r) (l_n r) (l_block r).
Definition set_l_committing (v : bool) (r : logst) : logst :=
  Log (l_start r) (l_size r) (l_outstanding r) v (l_dev r) (l_n r) (l_block r).
Definition set_l_dev (v : Z) (r : logst) : logst :=
  Log (l_start r) (l_size r) (l_outstanding r) (l_committing r) v (l_n r) (l_block r).
Definition set_l_n (v : Z) (r : logst) : logst :=
  Log (l_start r) (l_size r) (l_outstanding r) (l_committing r) (l_dev r) v (l_block r).
Definition set_l_block (v : list Z) (r : logst) : logst :=
  Log (l_start r) (l_size r) (l_outstanding r) (l_committing r) (l_dev r) (l_n r) v.

(** The in-memory inode, struct inode (src/file.h). *)
Record inode := Inode {
  i_dev : Z; i_inum : Z; i_ref : Z; i_lock : sleeplock; i_valid : bool; i_type : Z; i_major :
  Z; i_minor : Z; i_nlink : Z; i_size : Z; i_addrs : list Z; }.

Definition set_i_dev (v : Z) (r : inode) : inode :=
  Inode v (i_inum r) (i_ref r) (i_lock r) (i_valid r) (i_type r) (i_major r) (i_minor r)
    (i_nlink r) (i_size r) (i_addrs r).
Definition set_i_inum (v : Z) (r : inode) : inode :=
  Inode (i_dev r) v (i_ref r) (i_lock r) (i_valid r) (i_type r) (i_major r) (i_minor r)
    (i_nlink r) (i_size r) (i_addrs r).
Definition set_i_ref (v : Z) (r : inode) : inode :=
  Inode (i_dev r) (i_inum r) v (i_lock r) (i_valid r) (i_type r) (i_major r) (i_minor r)
    (i_nlink r) (i_size r) (i_addrs r).
Definition set_i_lock (v : sleeplock) (r : inode) : inode :=
  Inode (i_dev r) (i_inum r) (i_ref r) v (i_valid r) (i_type r) (i_major r) (i_minor r)
    (i_nlink r) (i_size r) (i_addrs r).
Definition set_i_valid (v : bool) (r : inode) : inode :=
  Inode (i_dev r) (i_inum r) (i_ref r) (i_lock r) v (i_type r) (i_major r) (i_minor r) (i_nlink r)
    (i_size r) (i_addrs r).
Definition set_i_type (v : Z) (r : inode) : inode :=
  Inode (i_dev r) (i_inum r) (i_ref r) (i_lock r) (i_valid r) v (i_major r) (i_minor r)
    (i_nlink r) (i_size r) (i_addrs r).
Definition set_i_major (v : Z) (r : inode) : inode :=
  Inode (i_dev r) (i_inum r) (i_ref r) (i_lock r) (i_valid r) (i_type r) v (i_minor r) (i_nlink r)
    (i_size r) (i_addrs r).
Definition set_i_minor (v : Z) (r : inode) : inode :=
  Inode (i_dev r) (i_inum r) (i_ref r) (i_lock r) (i_valid r) (i_type r) (i_major r) v (i_nlink r)
    (i_size r) (i_addrs r).
Definition set_i_nlink (v : Z) (r : inode) : inode :=
  Inode (i_dev r) (i_inum r) (i_ref r) (i_lock r) (i_valid r) (i_type r) (i_major r) (i_minor r) v
    (i_size r) (i_addrs r).
Definition set_i_size (v : Z) (r : inode) : inode :=
  Inode (i_dev r) (i_inum r) (i_ref r) (i_lock r) (i_valid r) (i_type r) (i_major r) (i_minor r)
    (i_nlink r) v (i_addrs r).
Definition set_i_addrs (v : list Z) (r : inode) : inode :=
  Inode (i_dev r) (i_inum r) (i_ref r) (i_lock r) (i_valid r) (i_type r) (i_major r) (i_minor r)
    (i_nlink r) (i_size r) v.

(** An open file, struct file (src/file.h). *)
Record file := File {
  f_type : fdtype; f_ref : Z; f_readable : bool; f_writable : bool; f_pipe : Z; f_ip : option
  nat; f_off : Z; }.

Definition set_f_type (v : fdtype) (r : file) : file :=
  File v (f_ref r) (f_readable r) (f_writable r) (f_pipe r) (f_ip r) (f_off r).
Definition set_f_ref (v : Z) (r : file) : file :=
  File (f_type r) v (f_readable r) (f_writable r) (f_pipe r) (f_ip r) (f_off r).
Definition set_f_readable (v : bool) (r : file) : file :=
  File (f_type r) (f_ref r) v (f_writable r) (f_pipe r) (f_ip r) (f_off r).
Definition set_f_writable (v : bool) (r : file) : file :=
  File (f_type r) (f_ref r) (f_readable r) v (f_pipe r) (f_ip r) (f_off r).
Definition set_f_pipe (v : Z) (r : file) : file :=
  File (f_type r) (f_ref r) (f_readable r) (f_writable r) v (f_ip r) (f_off r).
Definition set_f_ip (v : option nat) (r : file) : file :=
  File (f_type r) (f_ref r) (f_readable r) (f_writable r) (f_pipe r) v (f_off r).
Definition set_f_off (v : Z) (r : file) : file :=
  File (f_type r) (f_ref r) (f_readable r) (f_writable r) (f_pipe r) (f_ip r) v.

(** Struct pipe (src/pipe.c). *)
Record pipe := Pipe {
  pi_data : list Z; pi_nread : Z; pi_nwrite : Z; pi_readopen : bool; pi_writeopen : bool; }.

Definition set_pi_data (v : list Z) (r : pipe) : pipe :=
  Pipe v (pi_nread r) (pi_nwrite r) (pi_readopen r) (pi_writeopen r).
Definition set_pi_nread (v : Z) (r : pipe) : pipe :=
  Pipe (pi_data r) v (pi_nwrite r) (pi_readopen r) (pi_writeopen r).
Definition set_pi_nwrite (v : Z) (r : pipe) : pipe :=
  Pipe (pi_data r) (pi_nread r) v (pi_readopen r) (pi_writeopen r).
Definition set_pi_readopen (v : bool) (r : pipe) : pipe :=
  Pipe (pi_data r) (pi_nread r) (pi_nwrite r) v (pi_writeopen r).
Definition set_pi_writeopen (v : bool) (r : pipe) : pipe :=
  Pipe (pi_data r) (pi_nread r) (pi_nwrite r) (pi_readopen r) v.

(** The console (src/console.c): the input ring, the cursor and CGA cells, and the characters sent to the serial port so far. *)
Record console := Console {
  c_buf : list Z; c_r : Z; c_w : Z; c_e : Z; c_pos : Z; c_crt : gmap Z Z; c_serial : list Z; }.

Definition set_c_buf (v : list Z) (r : console) : console :=
  Console v (c_r r) (c_w r) (c_e r) (c_pos r) (c_crt r) (c_serial r).
Definition set_c_r (v : Z) (r : console) : console :=
  Console (c_buf r) v (c_w r) (c_e r) (c_pos r) (c_crt r) (c_serial r).
Definition set_c_w (v : Z) (r : console) : console :=
  Console (c_buf r) (c_r r) v (c_e r) (c_pos r) (c_crt r) (c_serial r).
Definition set_c_e (v : Z) (r : console) : console :=
  Console (c_buf r) (c_r r) (c_w r) v (c_pos r) (c_crt r) (c_serial r).
Definition set_c_pos (v : Z) (r : console) : console :=
  Console (c_buf r) (c_r r) (c_w r) (c_e r) v (c_crt r) (c_serial r).
Definition set_c_crt (v : gmap Z Z) (r : console) : console :=
  Console (c_buf r) (c_r r) (c_w r) (c_e r) (c_pos r) v (c_serial r).
Definition set_c_serial (v : list Z) (r : console) : console :=
  Console (c_buf r) (c_r r) (c_w r) (c_e r) (c_pos r) (c_crt r) v.

(** The super block (src/fs.h). *)
Record superblock := SuperBlock {
  sb_size : Z; sb_nblocks : Z; sb_ninodes : Z; sb_nlog : Z;
  sb_logstart : Z; sb_inodestart : Z; sb_bmapstart : Z }.

(** The disk: its blocks, and the contents it had before each write, the
    latest first, which are the states a crash can leave. *)
Record disk := Disk { d_size : Z; d_blocks : gmap Z (list Z); d_past : list (gmap Z (list Z)) }.

(** The kernel's global variables, and the two drives: [k_disk] is drive 1, which
    has the file system, [k_disk0] the one the machine boots from. *)
Record kernel := Kernel {
  k_mem : kmem; k_procs : list proc; k_initproc : option nat; k_nextpid : Z; k_ticks : Z;
  k_bufs : list buf; k_disk : disk; k_ideq : option nat; k_log : logst; k_sb : superblock;
  k_inodes : list inode; k_files : list file; k_pipes : gmap Z pipe; k_first : bool;
  k_havedisk1 : bool; k_cons : console; k_disk0 : disk; }.

Definition set_k_mem (v : kmem) (r : kernel) : kernel :=
  Kernel v (k_procs r) (k_initproc r) (k_nextpid r) (k_ticks r) (k_bufs r) (k_disk r) (k_ideq r)
    (k_log r) (k_sb r) (k_inodes r) (k_files r) (k_pipes r) (k_first r) (k_havedisk1 r) (k_cons r)
    (k_disk0 r).
Definition set_k_procs (v : list proc) (r : kernel) : kernel :=
  Kernel (k_mem r) v (k_initproc r) (k_nextpid r) (k_ticks r) (k_bufs r) (k_disk r) (k_ideq r)
    (k_log r) (k_sb r) (k_inodes r) (k_files r) (k_pipes r) (k_first r) (k_havedisk1 r) (k_cons r)
    (k_disk0 r).
Definition set_k_initproc (v : option nat) (r : kernel) : kernel :=
  Kernel (k_mem r) (k_procs r) v (k_nextpid r) (k_ticks r) (k_bufs r) (k_disk r) (k_ideq r)
    (k_log r) (k_sb r) (k_inodes r) (k_files r) (k_pipes r) (k_first r) (k_havedisk1 r) (k_cons r)
    (k_disk0 r).
Definition set_k_nextpid (v : Z) (r : kernel) : kernel :=
  Kernel (k_mem r) (k_procs r) (k_initproc r) v (k_ticks r) (k_bufs r) (k_disk r) (k_ideq r)
    (k_log r) (k_sb r) (k_inodes r) (k_files r) (k_pipes r) (k_first r) (k_havedisk1 r) (k_cons r)
    (k_disk0 r).
Definition set_k_ticks (v : Z) (r : kernel) : kernel :=
  Kernel (k_mem r) (k_procs r) (k_initproc r) (k_nextpid r) v (k_bufs r) (k_disk r) (k_ideq r)
    (k_log r) (k_sb r) (k_inodes r) (k_files r) (k_pipes r) (k_first r) (k_havedisk1 r) (k_cons r)
    (k_disk0 r).
Definition set_k_bufs (v : list buf) (r : kernel) : kernel :=
  Kernel (k_mem r) (k_procs r) (k_initproc r) (k_nextpid r) (k_ticks r) v (k_disk r) (k_ideq r)
    (k_log r) (k_sb r) (k_inodes r) (k_files r) (k_pipes r) (k_first r) (k_havedisk1 r) (k_cons r)
    (k_disk0 r).
Definition set_k_disk (v : disk) (r : kernel) : kernel :=
  Kernel (k_mem r) (k_procs r) (k_initproc r) (k_nextpid r) (k_ticks r) (k_bufs r) v (k_ideq r)
    (k_log r) (k_sb r) (k_inodes r) (k_files r) (k_pipes r) (k_first r) (k_havedisk1 r) (k_cons r)
    (k_disk0 r).
Definition set_k_ideq (v : option nat) (r : kernel) : kernel :=
  Kernel (k_mem r) (k_procs r) (k_initproc r) (k_nextpid r) (k_ticks r) (k_bufs r) (k_disk r) v
    (k_log r) (k_sb r) (k_inodes r) (k_files r) (k_pipes r) (k_first r) (k_havedisk1 r) (k_cons r)
    (k_disk0 r).
Definition set_k_log (v : logst) (r : kernel) : kernel :=
  Kernel (k_mem r) (k_procs r) (k_initproc r) (k_nextpid r) (k_ticks r) (k_bufs r) (k_disk r)
    (k_ideq r) v (k_sb r) (k_inodes r) (k_files r) (k_pipes r) (k_first r) (k_havedisk1 r)
    (k_cons r) (k_disk0 r).
Definition set_k_sb (v : superblock) (r : kernel) : kernel :=
  Kernel (k_mem r) (k_procs r) (k_initproc r) (k_nextpid r) (k_ticks r) (k_bufs r) (k_disk r)
    (k_ideq r) (k_log r) v (k_inodes r) (k_files r) (k_pipes r) (k_first r) (k_havedisk1 r)
    (k_cons r) (k_disk0 r).
Definition set_k_inodes (v : list inode) (r : kernel) : kernel :=
  Kernel (k_mem r) (k_procs r) (k_initproc r) (k_nextpid r) (k_ticks r) (k_bufs r) (k_disk r)
    (k_ideq r) (k_log r) (k_sb r) v (k_files r) (k_pipes r) (k_first r) (k_havedisk1 r) (k_cons r)
    (k_disk0 r).
Definition set_k_files (v : list file) (r : kernel) : kernel :=
  Kernel (k_mem r) (k_procs r) (k_initproc r) (k_nextpid r) (k_ticks r) (k_bufs r) (k_disk r)
    (k_ideq r) (k_log r) (k_sb r) (k_inodes r) v (k_pipes r) (k_first r) (k_havedisk1 r) (k_cons r)
    (k_disk0 r).
Definition set_k_pipes (v : gmap Z pipe) (r : kernel) : kernel :=
  Kernel (k_mem r) (k_procs r) (k_initproc r) (k_nextpid r) (k_ticks r) (k_bufs r) (k_disk r)
    (k_ideq r) (k_log r) (k_sb r) (k_inodes r) (k_files r) v (k_first r) (k_havedisk1 r) (k_cons r)
    (k_disk0 r).
Definition set_k_first (v : bool) (r : kernel) : kernel :=
  Kernel (k_mem r) (k_procs r) (k_initproc r) (k_nextpid r) (k_ticks r) (k_bufs r) (k_disk r)
    (k_ideq r) (k_log r) (k_sb r) (k_inodes r) (k_files r) (k_pipes r) v (k_havedisk1 r) (k_cons r)
    (k_disk0 r).
Definition set_k_havedisk1 (v : bool) (r : kernel) : kernel :=
  Kernel (k_mem r) (k_procs r) (k_initproc r) (k_nextpid r) (k_ticks r) (k_bufs r) (k_disk r)
    (k_ideq r) (k_log r) (k_sb r) (k_inodes r) (k_files r) (k_pipes r) (k_first r) v (k_cons r)
    (k_disk0 r).
Definition set_k_cons (v : console) (r : kernel) : kernel :=
  Kernel (k_mem r) (k_procs r) (k_initproc r) (k_nextpid r) (k_ticks r) (k_bufs r) (k_disk r)
    (k_ideq r) (k_log r) (k_sb r) (k_inodes r) (k_files r) (k_pipes r) (k_first r) (k_havedisk1 r)
    v (k_disk0 r).
Definition set_k_disk0 (v : disk) (r : kernel) : kernel :=
  Kernel (k_mem r) (k_procs r) (k_initproc r) (k_nextpid r) (k_ticks r) (k_bufs r) (k_disk r)
    (k_ideq r) (k_log r) (k_sb r) (k_inodes r) (k_files r) (k_pipes r) (k_first r) (k_havedisk1 r)
    (k_cons r) v.

(** The page allocator and the page tables are a part of the kernel. *)
Definition L_mem : lens kernel kmem.
Proof. refine (Lens k_mem set_k_mem _ _ _); by intros; destruct s. Defined.

(** ** Arrays of structures *)

Section array.
Context {A : Type} (get : kernel -> list A) (put : list A -> kernel -> kernel).

Definition elem_at (i : nat) : M kernel A := fun c s =>
  match get s !! i with
  | Some a => Done a c s
  | None => Undef "array index out of bounds"
  end.

Definition elem_upd (i : nat) (f : A -> A) : M kernel unit := fun c s =>
  match get s !! i with
  | Some a => Done tt c (put (<[i := f a]> (get s)) s)
  | None => Undef "array index out of bounds"
  end.

Lemma bind_elem_at {B} i a (k : A -> M kernel B) c s :
  get s !! i = Some a -> (elem_at i ≫= k) c s = k a c s.
Proof. intros E. unfold mbind, M_bind, elem_at. by rewrite E. Qed.

Lemma elem_upd_run i a f c s :
  get s !! i = Some a -> elem_upd i f c s = Done tt c (put (<[i := f a]> (get s)) s).
Proof. intros E. unfold elem_upd. by rewrite E. Qed.

Lemma bind_elem_upd {B} i a f (k : unit -> M kernel B) c s :
  get s !! i = Some a ->
  (elem_upd i f ≫= k) c s = k tt c (put (<[i := f a]> (get s)) s).
Proof. intros E. unfold mbind, M_bind. by rewrite (elem_upd_run i a). Qed.
End array.

Definition proc_at := elem_at k_procs.
Definition upd_proc := elem_upd k_procs set_k_procs.
Definition buf_at := elem_at k_bufs.
Definition upd_buf := elem_upd k_bufs set_k_bufs.
Definition inode_at := elem_at k_inodes.
Definition upd_inode := elem_upd k_inodes set_k_inodes.
Definition file_at := elem_at k_files.
Definition upd_file := elem_upd k_files set_k_files.

Definition get_log : M kernel logst := gets k_log.
Definition upd_log (f : logst -> logst) : M kernel unit := modify (fun s => set_k_log (f (k_log s)) s).

(** ** Addresses of static objects

    Processes sleep on addresses.  The static objects of the kernel get
    distinct small numbers; the other channels are addresses of pages. *)
Definition chan_proc (p : nat) : Z := 1000 + Z.of_nat p.
Definition chan_buf_lock (i : nat) : Z := 2000 + Z.of_nat i.
Definition chan_inode_lock (i : nat) : Z := 3000 + Z.of_nat i.
Definition chan_buf (i : nat) : Z := 4000 + Z.of_nat i.
Definition chan_log : Z := 5000.
Definition chan_ticks : Z := 5001.
Definition chan_input : Z := 5002.

(** ** Words in byte arrays (structures in disk blocks) *)

Definition byte_at (l : list Z) (o : Z) : Z := default 0 (l !! Z.to_nat o).
Definition get16 (l : list Z) (o : Z) : Z := byte_at l o + 2 ^ 8 * byte_at l (o + 1).
Definition get32 (l : list Z) (o : Z) : Z :=
  get16 l o + 2 ^ 16 * get16 l (o + 2).
Definition put8 (l : list Z) (o v : Z) : list Z := <[Z.to_nat o := u8 v]> l.
Definition put16 (l : list Z) (o v : Z) : list Z := put8 (put8 l o v) (o + 1) (Z.shiftr v 8).
Definition put32 (l : list Z) (o v : Z) : list Z := put16 (put16 l o v) (o + 2) (Z.shiftr v 16).
(** [memmove] of [v] to offset [o]. *)
Definition put_bytes (l : list Z) (o : Z) (v : list Z) : list Z :=
  foldl (fun l '(i, x) => put8 l (o + i) x) l (zip (seqZ 0 (Z.of_nat (length v))) v).
(** [n] bytes from offset [o]. *)
Definition get_bytes (l : list Z) (o : Z) (n : Z) : list Z :=
  (fun i => byte_at l (o + i)) <$> seqZ 0 n.

Lemma put8_length l o v : length (put8 l o v) = length l.
Proof. apply length_insert. Qed.
Lemma put16_length l o v : length (put16 l o v) = length l.
Proof. unfold put16. by rewrite !put8_length. Qed.
Lemma put32_length l o v : length (put32 l o v) = length l.
Proof. unfold put32. by rewrite !put16_length. Qed.

Lemma byte_at_put8 l o v x : 0 <= o < Z.of_nat (length l) -> 0 <= x ->
  byte_at (put8 l o v) x = if decide (x = o) then u8 v else byte_at l x.
Proof.
  intros Ho Hx. unfold byte_at, put8. case_decide as E.
  - rewrite E, list_lookup_insert_eq by lia. reflexivity.
  - rewrite list_lookup_insert_ne; [reflexivity|]. lia.
Qed.

(** A word written into a block is read back, and does not disturb the others. *)
Lemma get32_put32 l o v : 0 <= o -> o + 4 <= Z.of_nat (length l) -> uint_ok v -> get32 (put32 l o v) o = v.
Proof.
  intros Ho Hl Hv. unfold get32, get16, put32, put16.
  rewrite !byte_at_put8 by (rewrite ?put8_length; lia).
  repeat first [rewrite decide_True by lia | rewrite decide_False by lia].
  rewrite !Z.shiftr_div_pow2 by lia. change (2 ^ 8) with 256. change (2 ^ 16) with 65536. word.
Qed.

Lemma get32_put32_ne l o v x : 0 <= o -> o + 4 <= Z.of_nat (length l) -> 0 <= x -> x + 4 <= o \/ o + 4 <= x ->
  get32 (put32 l o v) x = get32 l x.
Proof.
  intros Ho Hl Hx Hd. unfold get32, get16, put32, put16.
  rewrite !byte_at_put8 by (rewrite ?put8_length; lia).
  by repeat rewrite decide_False by lia.
Qed.
