(* ===== verification/Sched.v ===== *)
(** * Processes: sleeping, waking and scheduling (src/proc.c)

    The part of src/proc.c that moves processes between the states of the
    process table.  A call that switches to the scheduler ends the computation
    with [Sleep]: the process gives up the CPU in the state reached. *)

From S2P Require Import Prelude Layout CString Spinlock Kalloc State.

Definition ptable_lock : lockid := ("ptable"%string, 0).
Definition tickslock : lockid := ("time"%string, 0).

(** [myproc()] where the code dereferences the result. *)
Definition myproc : M kernel nat :=
  c ← ask;
  if cur c <? 0 then undef "myproc() is null" else mret (Z.to_nat (cur c)).

Definition mypid : M kernel Z := p ← myproc; pr ← proc_at p; mret (p_pid pr).

Definition state_is (st : procstate) (p : proc) : bool := bool_decide (p_state p = st).

(** [mycpu()->ncli] is the number of spin locks held by the CPU.  As [ptable.lock]
    is held, interrupts are off, which is what the last test of [sched] asks. *)
Definition sched {A} (p : nat) (chan : Z) : M kernel A :=
  h ← holding ptable_lock;
  if negb h then panic "sched ptable.lock" else
  c ← ask;
  if negb (bool_decide (size (held c) = 1%nat)) then panic "sched locks" else
  pr ← proc_at p;
  if state_is RUNNING pr then panic "sched running" else
  sleep_on chan.

Definition sleep {A} (chan : Z) (lk : lockid) : M kernel A :=
  c ← ask;
  if cur c <? 0 then panic "sleep" else
  let p := Z.to_nat (cur c) in
  when (negb (bool_decide (lk = ptable_lock))) (acquire ptable_lock;; release lk);;
  upd_proc p (set_p_chan chan);;
  upd_proc p (set_p_state SLEEPING);;
  sched p chan.

(** What [sleep] does once the scheduler runs the process again. *)
Definition awakened (lk : lockid) : M kernel unit :=
  p ← myproc;
  upd_proc p (set_p_chan 0);;
  when (negb (bool_decide (lk = ptable_lock))) (release ptable_lock;; acquire lk).

Definition wake_one (chan : Z) (p : proc) : proc :=
  if state_is SLEEPING p && (p_chan p =? chan) then set_p_state RUNNABLE p else p.

Definition wakeup1 (chan : Z) : M kernel unit :=
  modify (fun s => set_k_procs (wake_one chan <$> k_procs s) s).

Definition wakeup (chan : Z) : M kernel unit :=
  acquire ptable_lock;; wakeup1 chan;; release ptable_lock.

Definition yield : M kernel unit :=
  acquire ptable_lock;;
  p ← myproc;
  upd_proc p (set_p_state RUNNABLE);;
  sched p 0.

(** The first entry of the table that satisfies [f]. *)
Fixpoint find_proc (f : proc -> bool) (ps : list proc) (i : nat) : option nat :=
  match ps with
  | [] => None
  | p :: ps' => if f p then Some i else find_proc f ps' (S i)
  end.

Definition kill (pid : Z) : M kernel Z :=
  acquire ptable_lock;;
  ps ← gets k_procs;
  match find_proc (fun p => p_pid p =? pid) ps 0 with
  | Some i =>
    upd_proc i (set_p_killed true);;
    pr ← proc_at i;
    when (state_is SLEEPING pr) (upd_proc i (set_p_state RUNNABLE));;
    release ptable_lock;;
    mret 0
  | None => release ptable_lock;; mret (-1)
  end.

(** ** Choosing a process *)

(** The loops of the FIFO and PRIORITY builds. *)
Fixpoint select_loop (better : proc -> proc -> bool) (ps : list proc) (i : nat)
    (selected : option (nat * proc)) : option nat :=
  match ps with
  | [] => fst <$> selected
  | p :: ps' =>
    if negb (state_is RUNNABLE p) then select_loop better ps' (S i) selected
    else
      match selected with
      | None => select_loop better ps' (S i) (Some (i, p))
      | Some (_, q) =>
        select_loop better ps' (S i) (if better p q then Some (i, p) else selected)
      end
  end.

(** FIFO: [p->creation_time < selected->creation_time]. *)
Definition fifo_select (ps : list proc) : option nat :=
  select_loop (fun p q => p_creation_time p <? p_creation_time q) ps 0 None.

(** PRIORITY: [selected->priority > p->priority]. *)
Definition priority_select (ps : list proc) : option nat :=
  select_loop (fun p q => p_priority q >? p_priority p) ps 0 None.

(** ** Scheduling information for user programs *)

Definition NPRIORITIES : Z := 3.
Definition HIGH : Z := 0.
Definition MEDIUM : Z := 1.
Definition LOW : Z := 2.

Definition set_sched_priority (priority : Z) : M kernel Z :=
  if (priority <? 0) || (priority >? NPRIORITIES - 1) then mret (-1)
  else p ← myproc; upd_proc p (set_p_priority priority);; mret 0.

Definition active (p : proc) : bool := state_is RUNNABLE p || state_is RUNNING p.

Definition get_sched_priority (pid : Z) : M kernel Z :=
  acquire ptable_lock;;
  ps ← gets k_procs;
  match find_proc (fun p => (p_pid p =? pid) && active p) ps 0 with
  | Some i => release ptable_lock;; pr ← proc_at i; mret (p_priority pr)
  | None => release ptable_lock;; mret (-1)
  end.

(** [None]: the loop ended without [break]. *)
Fixpoint fifo_loop (ps : list proc) (pid position : Z) : option Z :=
  match ps with
  | [] => None
  | p :: ps' =>
    if active p || state_is SLEEPING p then
      if p_pid p =? pid then Some position else fifo_loop ps' pid (position + 1)
    else fifo_loop ps' pid position
  end.

Definition fifo_position (pid : Z) : M kernel Z :=
  acquire ptable_lock;;
  ps ← gets k_procs;
  let found := fifo_loop ps pid 0 in
  release ptable_lock;;
  mret (default (-1) found).

(** [arg0] is the first argument of the system call, which [ticks_running]
    fetches again instead of using its parameter. *)
Definition ticks_running (arg0 : option Z) (pid : Z) : M kernel Z :=
  match arg0 with
  | None => mret (-1)
  | Some tar_pid =>
    acquire ptable_lock;;
    ps ← gets k_procs;
    match find_proc (fun p => p_pid p =? tar_pid) ps 0 with
    | Some i =>
      pr ← proc_at i;
      let acc_ticks := if state_is UNUSED pr then -1 else p_ticks_runs pr in
      release ptable_lock;; mret acc_ticks
    | None => release ptable_lock;; mret (-1)
    end
  end.

(** ** Running the operations *)

Lemma find_proc_Some f ps i j : find_proc f ps i = Some j <->
  exists p, (i <= j)%nat /\ ps !! (j - i)%nat = Some p /\ f p = true /\
    forall k q, (k < j - i)%nat -> ps !! k = Some q -> f q = false.
Proof.
  revert i. induction ps as [|p ps IH]; intros i; cbn [find_proc].
  - split; [done|]. intros (p & _ & Hp & _). by rewrite lookup_nil in Hp.
  - destruct (f p) eqn:Hf.
    + split.
      * intros [= <-]. exists p. rewrite Nat.sub_diag. split_and!; [lia|done|done|lia].
      * intros (q & Hij & Hq & Hfq & Hno). destruct (decide (i = j)) as [->|Hne]; [done|].
        by rewrite (Hno 0%nat p) in Hf by (done || lia).
    + rewrite IH. split.
      * intros (q & Hij & Hq & Hfq & Hno). exists q. replace (j - i)%nat with (S (j - S i)) by lia.
        split_and!; [lia|done|done|]. intros [|k] q' Hk Hq'; cbn in Hq'; [congruence|].
        apply (Hno k); [lia|done].
      * intros (q & Hij & Hq & Hfq & Hno). destruct (decide (i = j)) as [->|Hne].
        { rewrite Nat.sub_diag in Hq. cbn in Hq. congruence. }
        replace (j - i)%nat with (S (j - S i)) in Hq, Hno by lia. exists q.
        split_and!; [lia|done|done|]. intros k q' Hk Hq'. apply (Hno (S k)); [lia|done].
Qed.

Lemma find_proc_None f ps i : find_proc f ps i = None <-> forall k p, ps !! k = Some p -> f p = false.
Proof.
  revert i. induction ps as [|p ps IH]; intros i; cbn [find_proc].
  - split; [|done]. intros _ k p Hp. by rewrite lookup_nil in Hp.
  - destruct (f p) eqn:Hf.
    + split; [done|]. intros H. by rewrite (H 0%nat p) in Hf.
    + rewrite IH. split.
      * intros H [|k] q Hq; cbn in Hq; [congruence|by eapply H].
      * intros H k q Hq. by apply (H (S k)).
Qed.

(** The process [c] runs on behalf of. *)
Definition runs (c : ctx) (s : kernel) (p : nat) (pr : proc) : Prop :=
  cur c = Z.of_nat p /\ k_procs s !! p = Some pr.

(** A small state for examples: process 0 runs, the tables are otherwise empty. *)
Definition ex_proc : proc :=
  Proc 0 0 0 RUNNING 1 None None 0 0 0 0 false (replicate 16 None) None (replicate 16 0) MEDIUM 0 0 0 0 0 0.
Definition ex_kernel : kernel :=
  Kernel (Kmem ∅ 0 false) [ex_proc] None 2 0 [] (Disk 0 ∅ []) None (Log 0 0 0 false 0 0 [])
    (SuperBlock 0 0 0 0 0 0 0) [] [] ∅ false false (Console [] 0 0 0 0 ∅ []) (Disk 0 ∅ []).
Definition ex_idle : ctx := Ctx ∅ 0.

Lemma ex_runs : runs ex_idle ex_kernel 0 ex_proc.
Proof. by split. Qed.

Lemma bind_myproc {B} c s p pr (k : nat -> M kernel B) : runs c s p pr -> (myproc ≫= k) c s = k p c s.
Proof.
  intros [Hc _]. unfold myproc, mbind, M_bind, ask. rewrite Hc, (proj2 (Z.ltb_ge _ _)) by lia.
  unfold mret, M_ret. by rewrite Nat2Z.id.
Qed.

Lemma bind_mypid {B} c s p pr (k : Z -> M kernel B) : runs c s p pr -> (mypid ≫= k) c s = k (p_pid pr) c s.
Proof.
  intros Hr. unfold mypid. autorewrite with run. erewrite bind_myproc by done. unfold proc_at.
  autorewrite with run. by erewrite bind_elem_at by apply Hr.
Qed.

(** The state after the sleepers on [chan] have been made runnable. *)
Definition woken (chan : Z) (s : kernel) : kernel := set_k_procs (wake_one chan <$> k_procs s) s.

Lemma wakeup_run chan c s : ptable_lock ∉ held c ->
  wakeup chan c s = Done tt c (woken chan s).
Proof.
  intros Hc. unfold wakeup. rewrite bind_acquire by done. unfold wakeup1. autorewrite with run.
  by rewrite release_acquired, ctx_eta.
Qed.

Definition asleep (chan : Z) (pr : proc) : proc := set_p_state SLEEPING (set_p_chan chan pr).

Lemma sched_switches {A} c s p pr chan : held c = {[ptable_lock]} ->
  k_procs s !! p = Some pr -> p_state pr <> RUNNING -> @sched A p chan c s = Sleep chan s.
Proof.
  intros Hh Hp Hr. unfold sched. rewrite bind_holding, Hh, bool_decide_eq_true_2 by set_solver.
  cbn [negb]. autorewrite with run. rewrite Hh, size_singleton.
  rewrite bool_decide_eq_true_2 by done. cbn [negb]. unfold proc_at. erewrite bind_elem_at by done.
  unfold state_is. by rewrite bool_decide_eq_false_2.
Qed.

(** The state after process [p] has gone to sleep on [chan]. *)
(** [sleep] returns only through the scheduler. *)
Lemma sched_not_done {A} p chan c s (a : A) c' s' : @sched A p chan c s <> Done a c' s'.
Proof.
  intros E. unfold sched in E. apply bind_Done_inv in E as (h & c1 & s1 & _ & E). destruct (negb h); [discriminate|].
  rewrite bind_ask in E. destruct (negb _); [discriminate|]. apply bind_Done_inv in E as (pr & c2 & s2 & _ & E).
  destruct (state_is _ pr); discriminate.
Qed.

Lemma sleep_not_done {A} chan lk c s (a : A) c' s' : @sleep A chan lk c s <> Done a c' s'.
Proof.
  intros E. unfold sleep in E. rewrite bind_ask in E. destruct (cur c <? 0); [discriminate|].
  apply bind_Done_inv in E as (? & c1 & s1 & _ & E). apply bind_Done_inv in E as (? & c2 & s2 & _ & E).
  apply bind_Done_inv in E as (? & c3 & s3 & _ & E). by apply sched_not_done in E.
Qed.

Definition slept (p : nat) (chan : Z) (s : kernel) : kernel :=
  set_k_procs (alter (asleep chan) p (k_procs s)) s.

Lemma sleep_run {A} c s p pr chan lk : runs c s p pr -> held c = {[lk]} -> lk <> ptable_lock ->
  @sleep A chan lk c s = Sleep chan (slept p chan s).
Proof.
  intros [Hc Hp] Hh Hlk. unfold sleep. autorewrite with run.
  rewrite Hc, (proj2 (Z.ltb_ge _ _)), Nat2Z.id by lia. rewrite bool_decide_eq_false_2 by done. cbn [negb when].
  autorewrite with run. rewrite bind_acquire by set_solver.
  erewrite bind_Done by (apply release_eq; cbn; set_solver). cbn [held cur].
  unfold upd_proc. erewrite bind_elem_upd by done. erewrite bind_elem_upd by (apply list_lookup_insert_eq; by eapply lookup_lt_Some).
  erewrite sched_switches; [| |cbn; apply list_lookup_insert_eq; rewrite length_insert; by eapply lookup_lt_Some|done].
  - cbn. rewrite list_insert_insert_eq. unfold slept. by erewrite alter_insert_at.
  - cbn. rewrite Hh. set_solver.
Qed.

Lemma runs_woken chan c s p pr : runs c s p pr -> p_state pr = RUNNING -> runs c (woken chan s) p pr.
Proof.
  intros [Hc Hp] Hst. split; [done|]. cbn. rewrite list_lookup_fmap, Hp. cbn. f_equal.
  unfold wake_one, state_is. by rewrite Hst, bool_decide_eq_false_2.
Qed.

(** Sleeping with a second lock held is caught. *)
Lemma sleep_locks {A} c s p pr chan lk lk' : runs c s p pr ->
  lk ∈ held c -> lk' ∈ held c -> lk' <> lk -> ptable_lock ∉ held c ->
  @sleep A chan lk c s = Panic "sched locks".
Proof.
  intros [Hc Hp] Hlk Hlk' Hne Hpt. assert (ptable_lock <> lk) as Hpl by (intros <-; done).
  assert (ptable_lock <> lk') as Hpl' by (intros <-; done).
  unfold sleep. autorewrite with run.
  rewrite Hc, (proj2 (Z.ltb_ge _ _)), Nat2Z.id by lia.
  rewrite bool_decide_eq_false_2 by done. cbn [negb when].
  autorewrite with run. rewrite bind_acquire by done.
  erewrite bind_Done by (apply release_eq; apply elem_of_union; by right). cbn [held cur].
  unfold upd_proc. erewrite bind_elem_upd by done.
  erewrite bind_elem_upd by (apply list_lookup_insert_eq; by eapply lookup_lt_Some).
  unfold sched. rewrite bind_holding. cbn [held]. set (h := (_ ∪ _) ∖ _).
  assert (ptable_lock ∈ h /\ lk' ∈ h) as [H1 H2] by (unfold h; clear -Hpl Hne Hlk'; set_solver).
  rewrite bool_decide_eq_true_2 by done. cbn [negb].
  autorewrite with run. rewrite bool_decide_eq_false_2; [done|]. cbn [held]. intros [x Hs]%size_1_elem_of.
  apply Hpl'. rewrite Hs in H1, H2. apply elem_of_singleton in H1, H2. congruence.
Qed.

(** ** The schedulers' choices *)

(** [j] is the first of the runnable processes with the least [m]. *)
Definition first_min (m : proc -> Z) (ps : list proc) (j : nat) : Prop :=
  exists p, ps !! j = Some p /\ p_state p = RUNNABLE /\
    forall k q, ps !! k = Some q -> p_state q = RUNNABLE -> m p <= m q /\ ((k < j)%nat -> m p < m q).

Definition none_runnable (ps : list proc) : Prop :=
  forall k q, ps !! k = Some q -> p_state q <> RUNNABLE.

Definition best (m : proc -> Z) (ps : list proc) (r : option nat) : Prop :=
  match r with None => none_runnable ps | Some j => first_min m ps j end.

Lemma first_min_snoc m ps j p q : first_min m ps j -> ps !! j = Some p ->
  (p_state q = RUNNABLE -> m p <= m q) -> first_min m (ps ++ [q]) j.
Proof.
  intros (p' & Hp' & Hr & Hmin) Hp Hq. assert (p' = p) as -> by congruence. exists p. split; [by apply lookup_app_l_Some|].
  split; [done|]. intros k q' Hk Hr'. apply lookup_snoc_Some in Hk as [[_ Hk]|[-> <-]]; [by apply Hmin|].
  split; [by apply Hq|]. apply lookup_lt_Some in Hp. lia.
Qed.

Lemma first_min_new m ps p q j : first_min m ps j -> ps !! j = Some p -> p_state q = RUNNABLE ->
  m q < m p -> first_min m (ps ++ [q]) (length ps).
Proof.
  intros (p' & Hp' & Hr & Hmin) Hp Hq Hlt. assert (p' = p) as -> by congruence. exists q.
  split; [by apply list_lookup_middle|]. split; [done|].
  intros k q' Hk Hr'. apply lookup_snoc_Some in Hk as [[? Hk]|[-> <-]]; [|lia].
  destruct (Hmin k q' Hk Hr'). lia.
Qed.

Lemma select_loop_best m better : (forall p q, better p q = (m p <? m q)) -> forall ps pre sel,
  match sel with
  | None => none_runnable pre
  | Some (j, p) => first_min m pre j /\ pre !! j = Some p
  end -> best m (pre ++ ps) (select_loop better ps (length pre) sel).
Proof.
  intros Hb. induction ps as [|q ps IH]; intros pre sel Hsel; cbn [select_loop].
  - rewrite app_nil_r. destruct sel as [[j p]|]; [apply Hsel|done].
  - replace (pre ++ q :: ps) with ((pre ++ [q]) ++ ps) by by rewrite <- app_assoc.
    replace (S (length pre)) with (length (pre ++ [q])) by (rewrite length_app; cbn; lia).
    destruct (state_is RUNNABLE q) eqn:Eq; unfold state_is in Eq; cbn [negb].
    + apply bool_decide_eq_true in Eq. destruct sel as [[j p]|].
      * destruct Hsel as [Hf Hp]. apply IH. rewrite Hb. destruct (Z.ltb_spec (m q) (m p)).
        -- split; [by eapply first_min_new|]. by apply list_lookup_middle.
        -- split; [eapply first_min_snoc; [done..|lia]|]. by apply lookup_app_l_Some.
      * apply IH. split; [|by apply list_lookup_middle]. exists q. split; [by apply list_lookup_middle|].
        split; [done|]. intros k q' Hk Hr. apply lookup_snoc_Some in Hk as [[_ Hk]|[-> <-]]; [|lia].
        by apply Hsel in Hk.
    + apply bool_decide_eq_false in Eq. apply IH. destruct sel as [[j p]|].
      * destruct Hsel as [Hf Hp]. split; [by eapply first_min_snoc|]. by apply lookup_app_l_Some.
      * intros k q' Hk. apply lookup_snoc_Some in Hk as [[_ Hk]|[-> <-]]; [by eapply Hsel|done].
Qed.

(** The PRIORITY scheduler runs a process exactly when one is runnable, and
    then the one with the numerically least (highest) priority, the first in
    the table among equals; the FIFO scheduler the one created first. *)
Theorem schedulers_choose_least (ps : list proc) :
  best p_priority ps (priority_select ps) /\ best p_creation_time ps (fifo_select ps).
Proof.
  split.
  - apply (select_loop_best p_priority _ (fun p q => Z.gtb_ltb _ _) ps [] None). intros k q Hk.
    by rewrite lookup_nil in Hk.
  - apply (select_loop_best p_creation_time _ (fun p q => eq_refl) ps [] None). intros k q Hk.
    by rewrite lookup_nil in Hk.
Qed.
