(* ===== verification/Sleeplock.v ===== *)
(** * Sleep locks (src/sleeplock.c)

    The code as kernel computations, and the protocol of [acquiresleep],
    [releasesleep], [sleep] and [wakeup] as a transition system of processes
    that interleave between any two statements. *)

From stdpp Require Import functions.
From S2P Require Import Prelude Layout CString Spinlock Kalloc State Sched.

(** ** The code *)

(** Sleep locks are fields of buffers and inodes. *)
Inductive slref := SlBuf (i : nat) | SlInode (i : nat).

Definition sl_chan (r : slref) : Z :=
  match r with SlBuf i => chan_buf_lock i | SlInode i => chan_inode_lock i end.

(** [lk->lk], the spin lock inside the sleep lock. *)
Definition sl_spin (r : slref) : lockid := ("sleep lock"%string, sl_chan r).

Definition sl_get (r : slref) : M kernel sleeplock :=
  match r with
  | SlBuf i => b ← buf_at i; mret (b_lock b)
  | SlInode i => ip ← inode_at i; mret (i_lock ip)
  end.

Definition sl_set (r : slref) (l : sleeplock) : M kernel unit :=
  match r with
  | SlBuf i => upd_buf i (set_b_lock l)
  | SlInode i => upd_inode i (set_i_lock l)
  end.

Definition initsleeplock (r : slref) : M kernel unit := sl_set r (SleepLock false 0).

(** [while (lk->locked) sleep(...)]: a process that is woken tests again. *)
Definition acquiresleep (r : slref) : M kernel unit :=
  acquire (sl_spin r);;
  l ← sl_get r;
  if sl_locked l then sleep (sl_chan r) (sl_spin r)
  else
    pid ← mypid;
    sl_set r (SleepLock true pid);;
    release (sl_spin r).

Definition releasesleep (r : slref) : M kernel unit :=
  acquire (sl_spin r);;
  sl_set r (SleepLock false 0);;
  wakeup (sl_chan r);;
  release (sl_spin r).

Definition holdingsleep (r : slref) : M kernel bool :=
  acquire (sl_spin r);;
  l ← sl_get r;
  pid ← mypid;
  let b := sl_locked l && (sl_pid l =? pid) in
  release (sl_spin r);;
  mret b.

(** ** The protocol *)

Module Protocol.

(** Where a process stands, for one sleep lock: *)
Inductive pc :=
  | Out      (* not using the lock *)
  | AWant    (* acquiresleep: at acquire(&lk->lk) *)
  | ATest    (* holds lk->lk, at the test of lk->locked *)
  | SWant    (* sleep: holds lk->lk, at acquire(&ptable.lock) *)
  | SBoth    (* sleep: holds both, at release(lk) *)
  | SMark    (* sleep: holds ptable.lock, at p->state = SLEEPING *)
  | Asleep   (* SLEEPING on the lock *)
  | Woken    (* RUNNABLE again, to reacquire lk->lk *)
  | Crit     (* has the sleep lock *)
  | RWant    (* releasesleep: at acquire(&lk->lk) *)
  | RSet     (* holds lk->lk, at lk->locked = 0 *)
  | WWant    (* wakeup: holds lk->lk, at acquire(&ptable.lock) *)
  | WScan    (* wakeup1: holds both, about to wake the sleepers *)
  | WRel.    (* holds lk->lk, at release(&lk->lk) *)
#[export] Instance pc_eq_dec : EqDecision pc.
Proof. solve_decision. Defined.

Record state := State {
  locked : bool;             (* lk->locked *)
  lk_by : option nat;        (* who holds lk->lk *)
  pt_by : option nat;        (* who holds ptable.lock for this lock's sake *)
  at_ : nat -> pc }.

Definition init : state := State false None None (fun _ => Out).

Definition wake (p : pc) : pc := match p with Asleep => Woken | p => p end.

(** [ptable.lock] may be taken for other reasons as well; such uses do not
    change the state of this lock and only delay the steps below. *)
Inductive step : state -> state -> Prop :=
  | s_call b k t f i : f i = Out -> step (State b k t f) (State b k t (<[i := AWant]> f))
  | s_acquire b t f i : f i = AWant -> step (State b None t f) (State b (Some i) t (<[i := ATest]> f))
  | s_busy k t f i : f i = ATest -> step (State true k t f) (State true k t (<[i := SWant]> f))
  | s_take t f i : f i = ATest -> step (State false (Some i) t f) (State true None t (<[i := Crit]> f))
  | s_ptable b k f i : f i = SWant -> step (State b k None f) (State b k (Some i) (<[i := SBoth]> f))
  | s_unlock b k t f i : f i = SBoth -> step (State b k t f) (State b None t (<[i := SMark]> f))
  | s_switch b k t f i : f i = SMark -> step (State b k t f) (State b k None (<[i := Asleep]> f))
  | s_resume b k t f i : f i = Woken -> step (State b k t f) (State b k t (<[i := AWant]> f))
  | s_release b k t f i : f i = Crit -> step (State b k t f) (State b k t (<[i := RWant]> f))
  | s_racquire b t f i : f i = RWant -> step (State b None t f) (State b (Some i) t (<[i := RSet]> f))
  | s_clear b k t f i : f i = RSet -> step (State b k t f) (State false k t (<[i := WWant]> f))
  | s_wptable b k f i : f i = WWant -> step (State b k None f) (State b k (Some i) (<[i := WScan]> f))
  | s_wake b k t f i : f i = WScan ->
      step (State b k t f) (State b k None (fun j => if decide (j = i) then WRel else wake (f j)))
  | s_done b k t f i : f i = WRel -> step (State b k t f) (State b None t (<[i := Out]> f)).

Inductive reachable : state -> Prop :=
  | r_init : reachable init
  | r_step st st' : reachable st -> step st st' -> reachable st'.

(** ** Its invariant *)

Definition holds_lk (p : pc) : bool :=
  match p with ATest | SWant | SBoth | RSet | WWant | WScan | WRel => true | _ => false end.
Definition holds_pt (p : pc) : bool :=
  match p with SBoth | SMark | WScan => true | _ => false end.
Definition owner (p : pc) : bool := match p with Crit | RWant | RSet => true | _ => false end.
Definition going_down (p : pc) : bool := match p with SMark | Asleep => true | _ => false end.

Record inv (st : state) : Prop := Inv {
  inv_lk : forall i, lk_by st = Some i <-> holds_lk (at_ st i) = true;
  inv_pt : forall i, pt_by st = Some i <-> holds_pt (at_ st i) = true;
  inv_own : forall i, owner (at_ st i) = true -> locked st = true;
  inv_one : forall i j, owner (at_ st i) = true -> owner (at_ st j) = true -> i = j;
  inv_has : locked st = true -> exists i, owner (at_ st i) = true;
  inv_test : forall i, at_ st i = SWant \/ at_ st i = SBoth -> locked st = true;
  (* a sleeper is waited for by the owner or by the process that will wake it *)
  inv_wake : forall i, going_down (at_ st i) = true ->
    locked st = true \/ exists j, at_ st j = WWant \/ at_ st j = WScan;
}.

Lemma sl_inv_init : inv init.
Proof. split; cbn; naive_solver. Qed.

(** The effect on a lock of a process that moves from [p] to [q]. *)
Definition lock_moves (hold : pc -> bool) (p q : pc) (i : nat) (k k' : option nat) : Prop :=
  if hold q then k' = Some i /\ (hold p = true \/ k = None)
  else k' = if hold p then None else k.

Lemma lock_moves_ok hold f i q k k' :
  (forall j, k = Some j <-> hold (f j) = true) -> lock_moves hold (f i) q i k k' ->
  forall j, k' = Some j <-> hold ((<[i := q]> f : nat -> pc) j) = true.
Proof.
  intros Hk Hm j. unfold lock_moves in Hm. pose proof (Hk i) as Hi. pose proof (Hk j) as Hj.
  destruct (decide (j = i)) as [->|Hne].
  - rewrite fn_lookup_insert. destruct (hold q); [destruct Hm as [-> _]; tauto|]. subst.
    destruct (hold (f i)); [split; congruence|exact Hi].
  - rewrite fn_lookup_insert_ne by done. destruct (hold q), (hold (f i)) eqn:E.
    + destruct Hm as [-> _]. by rewrite (proj2 Hi eq_refl) in Hj.
    + destruct Hm as [-> [?| ->]]; [done|]. rewrite <- Hj. split; congruence.
    + subst. rewrite (proj2 Hi eq_refl) in Hj. rewrite <- Hj. split; congruence.
    + by subst.
Qed.

(** A process [i] moves to [q]; the other processes stay. *)
Lemma inv_move b k t f i q b' k' t' :
  inv (State b k t f) ->
  lock_moves holds_lk (f i) q i k k' -> lock_moves holds_pt (f i) q i t t' ->
  (b' = b \/ (b' = true /\ b = false /\ owner q = true) \/
   (b' = false /\ owner (f i) = true /\ holds_lk (f i) = true /\ q = WWant)) ->
  (owner q = true -> b' = true /\ (owner (f i) = true \/ b = false)) ->
  (owner (f i) = true -> owner q = true \/ b' = false) ->
  (q = SWant \/ q = SBoth -> b' = true) -> (going_down q = true -> b' = true \/ holds_pt (f i) = true /\ going_down (f i) = true) ->
  (f i = WWant -> q = WScan) -> f i <> WScan ->
  inv (State b' k' t' (<[i := q]> f)).
Proof.
  intros [Hlk Hpt Hown Hone Hhas Htest Hwake] Mlk Mpt Hb Hq Hown' Htq Hgq Hww Hws. cbn in *.
  split; cbn.
  - by eapply lock_moves_ok.
  - by eapply lock_moves_ok.
  - intros j. destruct (decide (j = i)) as [->|Hne]; [rewrite fn_lookup_insert; intros Ho; by apply Hq|].
    rewrite fn_lookup_insert_ne by done. intros Ho. pose proof (Hown j Ho).
    destruct Hb as [->|[(-> & _)|(-> & Ho' & _)]]; [done..|]. by destruct (Hone i j Ho' Ho).
  - assert (Hex : forall j, j <> i -> owner q = true -> owner (f j) = true -> False).
    { intros j Hne Ho Hj. destruct (Hq Ho) as [_ [Hoi| ->]].
      - by destruct (Hone i j Hoi Hj).
      - by apply Hown in Hj. }
    intros j l. destruct (decide (j = i)) as [->|Hj], (decide (l = i)) as [->|Hl];
      rewrite ?fn_lookup_insert, ?fn_lookup_insert_ne by done; [done|..].
    + intros Ho Hol. by destruct (Hex l).
    + intros Hol Ho. by destruct (Hex j).
    + apply Hone.
  - intros Hbt. destruct Hb as [->|[(-> & _ & Ho)|(-> & _)]]; [|exists i; by rewrite fn_lookup_insert|done].
    destruct (Hhas Hbt) as [j Hj]. destruct (decide (j = i)) as [->|Hne].
    + exists i. rewrite fn_lookup_insert. destruct (Hown' Hj); [done|congruence].
    + exists j. by rewrite fn_lookup_insert_ne.
  - intros j. destruct (decide (j = i)) as [->|Hne]; [by rewrite fn_lookup_insert|].
    rewrite fn_lookup_insert_ne by done. intros Hj. pose proof (Htest j Hj) as Hbt.
    destruct Hb as [->|[(-> & _)|(-> & _ & Hh & _)]]; [done..|].
    assert (holds_lk (f j) = true) as Hhj by (by destruct Hj as [-> | ->]).
    apply Hlk in Hh, Hhj. congruence.
  - assert (Hkeep : forall j, going_down (f j) = true -> b' = true \/
      exists l, (<[i:=q]> f : nat -> pc) l = WWant \/ (<[i:=q]> f : nat -> pc) l = WScan).
    { intros j Hj. destruct (Hwake j Hj) as [Hbt|(l & Hl)].
      - destruct Hb as [->|[(-> & _)|(-> & _ & _ & ->)]]; [by left..|].
        right. exists i. rewrite fn_lookup_insert. by left.
      - right. exists l. destruct (decide (l = i)) as [->|Hli].
        + rewrite fn_lookup_insert. destruct Hl as [Hl|Hl]; [right; by apply Hww|done].
        + by rewrite fn_lookup_insert_ne. }
    intros j. destruct (decide (j = i)) as [->|Hne].
    + rewrite fn_lookup_insert. intros Hd. destruct (Hgq Hd) as [?|[_ ?]]; [by left|by apply (Hkeep i)].
    + rewrite fn_lookup_insert_ne by done. apply Hkeep.
Qed.

(** The process at [WScan] wakes everybody. *)
Lemma inv_wakes b k t f i : inv (State b k t f) -> f i = WScan ->
  inv (State b k None (fun j => if decide (j = i) then WRel else wake (f j))).
Proof.
  intros [Hlk Hpt Hown Hone Hhas Htest Hwake] E. cbn in *.
  assert (Hw : forall p, holds_lk (wake p) = holds_lk p /\ owner (wake p) = owner p /\
    holds_pt (wake p) = holds_pt p) by by intros [].
  assert (Hpti : forall j, j <> i -> holds_pt (f j) = false).
  { intros j Hne. destruct (holds_pt (f j)) eqn:Ej; [|done]. apply Hpt in Ej.
    assert (t = Some i) by (apply Hpt; by rewrite E). congruence. }
  split; cbn.
  - intros j. rewrite Hlk. case_decide as Hj; [by rewrite Hj, E|]. by rewrite (proj1 (Hw (f j))).
  - intros j. split; [done|]. case_decide as Hj; [done|]. by rewrite (proj2 (proj2 (Hw (f j)))), Hpti.
  - intros j. case_decide as Hj; [done|]. rewrite (proj1 (proj2 (Hw (f j)))). apply Hown.
  - intros j l. repeat case_decide; try done. rewrite !(fun p => proj1 (proj2 (Hw p))). apply Hone.
  - intros Hb. destruct (Hhas Hb) as [j Hj]. exists j. case_decide as Hji; [by rewrite Hji, E in Hj|].
    by rewrite (proj1 (proj2 (Hw (f j)))).
  - intros j. case_decide as Hj; [by intros []|]. intros Hs. apply (Htest j). destruct (f j); cbn in Hs; intuition discriminate.
  - intros j. case_decide as Hj; [done|]. specialize (Hpti j Hj). by destruct (f j).
Qed.

Lemma sl_step_inv st st' : inv st -> step st st' -> inv st'.
Proof.
  intros Hi Hs. destruct Hs as [b k t f i E|b t f i E|k t f i E|t f i E|b k f i E|b k t f i E|b k t f i E|b k t f i E
    |b k t f i E|b t f i E|b k t f i E|b k f i E|b k t f i E|b k t f i E]; [..|by eapply inv_wakes|];
    pose proof (inv_own _ Hi i) as Ho; pose proof (inv_test _ Hi i) as Ht;
    pose proof (proj2 (inv_lk _ Hi i)) as Hlk; cbn in Ho, Ht, Hlk; rewrite E in Ho, Ht, Hlk;
    eapply inv_move; try exact Hi; unfold lock_moves; rewrite ?E; cbn; try done; try tauto.
  all: try (by intros []).
  split; [|by left]. apply (inv_pt _ Hi). cbn. by rewrite E.
Qed.

Lemma reachable_inv st : reachable st -> inv st.
Proof. induction 1; [apply sl_inv_init|by eapply sl_step_inv]. Qed.

Definition ex_crit : state :=
  State true None None (<[0%nat := Crit]> (<[0%nat := ATest]> (<[0%nat := AWant]> (fun _ => Out)))).

Lemma ex_crit_reachable : reachable ex_crit.
Proof.
  eapply r_step; [eapply r_step; [eapply r_step; [apply r_init|]|]|].
  - by apply (s_call false None None (fun _ => Out) 0).
  - by apply (s_acquire false None _ 0).
  - by apply (s_take None _ 0).
Qed.

(** A sleep lock excludes: whatever the interleaving of acquiresleep,
    releasesleep, sleep and wakeup, two different processes never have the
    same sleep lock. *)
Theorem sleeplock_mutual_exclusion (st : state) (i j : nat) :
  reachable st -> at_ st i = Crit -> at_ st j = Crit -> i = j.
Proof. intros [_ _ _ Hone _ _ _]%reachable_inv Hi Hj. apply Hone; by rewrite ?Hi, ?Hj. Qed.

Lemma sleeplock_mutual_exclusion_witness : at_ ex_crit 0 = Crit /\ 0%nat = 0%nat.
Proof.
  split; [reflexivity|]. apply (sleeplock_mutual_exclusion ex_crit 0 0).
  - exact ex_crit_reachable.
  - reflexivity.
  - reflexivity.
Defined.

(** A second process that found the lock taken and went to sleep. *)
Definition ex_asleep : state :=
  State true None None (<[1%nat := Asleep]> (<[1%nat := SMark]> (<[1%nat := SBoth]> (<[1%nat := SWant]>
    (<[1%nat := ATest]> (<[1%nat := AWant]> (at_ ex_crit))))))).

Lemma ex_asleep_reachable : reachable ex_asleep.
Proof.
  pose proof ex_crit_reachable as H. unfold ex_crit in H.
  eapply r_step in H; [|by apply (s_call true None None _ 1)].
  eapply r_step in H; [|by apply (s_acquire true None _ 1)].
  eapply r_step in H; [|by apply (s_busy _ None _ 1)].
  eapply r_step in H; [|by apply (s_ptable true _ _ 1)].
  eapply r_step in H; [|by apply (s_unlock true _ _ _ 1)].
  eapply r_step in H; [|by apply (s_switch true _ _ _ 1)]. exact H.
Qed.

(** C31: No wakeup is lost.  Whatever the interleaving, when a process sleeps
    on a sleep lock, some process has the lock (and will wake the sleepers when
    it releases it), or one that just released it is inside [wakeup], about to
    wake them. *)
Theorem no_lost_wakeup (st : state) (i : nat) :
  reachable st -> at_ st i = Asleep ->
  exists j, owner (at_ st j) = true \/ at_ st j = WWant \/ at_ st j = WScan.
Proof.
  intros [_ _ _ _ Hhas _ Hw]%reachable_inv Hi. destruct (Hw i) as [Hl|(j & Hj)]; [by rewrite Hi| |].
  - destruct (Hhas Hl) as [j Hj]. exists j. by left.
  - exists j. by right.
Qed.

Lemma no_lost_wakeup_witness : at_ ex_asleep 1 = Asleep /\
  exists j, owner (at_ ex_asleep j) = true \/ at_ ex_asleep j = WWant \/ at_ ex_asleep j = WScan.
Proof.
  split; [reflexivity|]. apply (no_lost_wakeup ex_asleep 1).
  - exact ex_asleep_reachable.
  - reflexivity.
Defined.
End Protocol.

(** ** Running the code *)

(** The lock of buffer [i]. *)
Section buf_lock.
Context (c : ctx) (s : kernel) (p : nat) (pr : proc) (Hrun : runs c s p pr).
Context (i : nat) (b : buf) (Hb : k_bufs s !! i = Some b).

Definition lock_buf (l : sleeplock) : kernel := set_k_bufs (<[i := set_b_lock l b]> (k_bufs s)) s.

Lemma acquiresleep_free : sl_spin (SlBuf i) ∉ held c -> sl_locked (b_lock b) = false ->
  acquiresleep (SlBuf i) c s = Done tt c (lock_buf (SleepLock true (p_pid pr))).
Proof using Hrun Hb.
  intros Hl Hf. unfold acquiresleep. cbn [sl_get]. unfold buf_at. rewrite bind_acquire by done.
  autorewrite with run. erewrite bind_elem_at by done. autorewrite with run. rewrite Hf.
  erewrite bind_mypid by exact Hrun. cbn [sl_set]. unfold upd_buf. erewrite bind_elem_upd by done. by rewrite release_acquired, ctx_eta.
Qed.

Lemma acquiresleep_taken : held c = ∅ -> sl_locked (b_lock b) = true ->
  acquiresleep (SlBuf i) c s =
  Sleep (chan_buf_lock i) (slept p (chan_buf_lock i) s).
Proof using Hrun Hb.
  intros Hl Hf. unfold acquiresleep. cbn [sl_get]. unfold buf_at. rewrite bind_acquire by set_solver.
  autorewrite with run. erewrite bind_elem_at by done. autorewrite with run. rewrite Hf.
  eapply sleep_run; [done| |done]. cbn. rewrite Hl. set_solver.
Qed.

Lemma bind_holdingsleep {B} (k : bool -> M kernel B) : sl_spin (SlBuf i) ∉ held c ->
  (holdingsleep (SlBuf i) ≫= k) c s = k (sl_locked (b_lock b) && (sl_pid (b_lock b) =? p_pid pr)) c s.
Proof using Hrun Hb.
  intros Hl. unfold holdingsleep. cbn [sl_get]. unfold buf_at. autorewrite with run. rewrite bind_acquire by done.
  autorewrite with run. erewrite bind_elem_at by done. autorewrite with run.
  erewrite bind_mypid by exact Hrun. autorewrite with run. erewrite bind_Done by by apply release_acquired. by rewrite ctx_eta.
Qed.

Lemma releasesleep_run : sl_spin (SlBuf i) ∉ held c -> ptable_lock ∉ held c ->
  releasesleep (SlBuf i) c s =
  Done tt c (woken (chan_buf_lock i) (lock_buf (SleepLock false 0))).
Proof using Hb.
  intros Hl Hp. unfold releasesleep. rewrite bind_acquire by done. cbn [sl_set]. unfold upd_buf.
  erewrite bind_elem_upd by done.
  erewrite bind_Done by (apply wakeup_run; cbn [held]; apply not_elem_of_union; split; [by apply not_elem_of_singleton|done]).
  by rewrite release_acquired, ctx_eta.
Qed.
End buf_lock.
