(* ===== verification/Bio.v ===== *)
(** * The buffer cache (src/bio.c) and its disk drivers (src/memide.c)

    Buffers are the elements of [k_bufs]; the element [HEAD] after the last one
    is [bcache.head].  The rest of the kernel reaches the disk through the
    class [DiskDriver]; src/memide.c is its instance below, src/ide.c is
    modelled in [Ide]. *)

From S2P Require Import Prelude Layout CString Spinlock Kalloc State Sched Sleeplock.

Definition BSIZE : Z := 512.
Definition B_VALID : Z := 0x2.
Definition B_DIRTY : Z := 0x4.
Definition HEAD : nat := Z.to_nat NBUF.
Lemma HEAD_value : HEAD = 30%nat.
Proof. reflexivity. Qed.

Definition bcache_lock : lockid := ("bcache"%string, 0).

Definition has_flag (f flag : Z) : bool := negb (Z.land f flag =? 0).
Definition zero_block : list Z := replicate (Z.to_nat BSIZE) 0.
Definition rdblk (d : gmap Z (list Z)) (b : Z) : list Z := default zero_block (d !! b).

(** ** The disk *)

Class DiskDriver := iderw : nat -> M kernel unit.

Definition disk_write (blockno : Z) (data : list Z) (d : disk) : disk :=
  Disk (d_size d) (<[blockno := data]> (d_blocks d)) (d_blocks d :: d_past d).

(** src/memide.c *)
Definition memide_iderw (i : nat) : M kernel unit :=
  h ← holdingsleep (SlBuf i);
  if negb h then panic "iderw: buf not locked" else
  b ← buf_at i;
  if Z.land (b_flags b) (Z.lor B_VALID B_DIRTY) =? B_VALID then panic "iderw: nothing to do" else
  if negb (b_dev b =? 1) then panic "iderw: request not for disk 1" else
  d ← gets k_disk;
  if b_blockno b >=? d_size d then panic "iderw: block out of range" else
  (if has_flag (b_flags b) B_DIRTY then
     upd_buf i (fun b => set_b_flags (Z.land (b_flags b) (Z.lnot B_DIRTY)) b);;
     modify (fun s => set_k_disk (disk_write (b_blockno b) (b_data b) (k_disk s)) s)
   else upd_buf i (set_b_data (rdblk (d_blocks d) (b_blockno b))));;
  upd_buf i (fun b => set_b_flags (Z.lor (b_flags b) B_VALID) b).

#[export] Instance memide : DiskDriver := memide_iderw.

(** ** The cache *)

(** [for(b = bcache.buf; b < bcache.buf+NBUF; b++)] of [binit]. *)
Fixpoint binit_loop (n i : nat) : M kernel unit :=
  match n with
  | O => mret tt
  | S n' =>
    h ← buf_at HEAD;
    upd_buf i (set_b_next (b_next h));;
    upd_buf i (set_b_prev HEAD);;
    initsleeplock (SlBuf i);;
    upd_buf (b_next h) (set_b_prev i);;
    upd_buf HEAD (set_b_next i);;
    binit_loop n' (S i)
  end.

Definition binit : M kernel unit :=
  upd_buf HEAD (set_b_prev HEAD);;
  upd_buf HEAD (set_b_next HEAD);;
  binit_loop HEAD 0.

(** The two scans of [bget], at most [fuel] buffers long. *)
Fixpoint bget_hit (fuel : nat) (b : nat) (dev blockno : Z) : M kernel (option nat) :=
  match fuel with
  | O => undef "bget: out of fuel"
  | S fuel' =>
    if bool_decide (b = HEAD) then mret None
    else
      bp ← buf_at b;
      if (b_dev bp =? dev) && (b_blockno bp =? blockno) then mret (Some b)
      else bget_hit fuel' (b_next bp) dev blockno
  end.

Definition recyclable (b : buf) : bool := (b_refcnt b =? 0) && (Z.land (b_flags b) B_DIRTY =? 0).

Fixpoint bget_free (fuel : nat) (b : nat) : M kernel (option nat) :=
  match fuel with
  | O => undef "bget: out of fuel"
  | S fuel' =>
    if bool_decide (b = HEAD) then mret None
    else
      bp ← buf_at b;
      if recyclable bp then mret (Some b) else bget_free fuel' (b_prev bp)
  end.

Definition bget (dev blockno : Z) : M kernel nat :=
  acquire bcache_lock;;
  h ← buf_at HEAD;
  r ← bget_hit (S HEAD) (b_next h) dev blockno;
  match r with
  | Some b =>
    upd_buf b (fun bp => set_b_refcnt (u32 (b_refcnt bp + 1)) bp);;
    release bcache_lock;;
    acquiresleep (SlBuf b);;
    mret b
  | None =>
    h ← buf_at HEAD;
    r ← bget_free (S HEAD) (b_prev h);
    match r with
    | Some b =>
      upd_buf b (fun bp => set_b_refcnt 1 (set_b_flags 0 (set_b_blockno blockno (set_b_dev dev bp))));;
      release bcache_lock;;
      acquiresleep (SlBuf b);;
      mret b
    | None => panic "bget: no buffers"
    end
  end.

(** The pointer assignments of [brelse] that move [b] to the front. *)
Definition move_front (b : nat) : M kernel unit :=
  bp ← buf_at b;
  upd_buf (b_next bp) (set_b_prev (b_prev bp));;
  bp ← buf_at b;
  upd_buf (b_prev bp) (set_b_next (b_next bp));;
  h ← buf_at HEAD;
  upd_buf b (set_b_next (b_next h));;
  upd_buf b (set_b_prev HEAD);;
  h ← buf_at HEAD;
  upd_buf (b_next h) (set_b_prev b);;
  upd_buf HEAD (set_b_next b).

Definition brelse (b : nat) : M kernel unit :=
  h ← holdingsleep (SlBuf b);
  if negb h then panic "brelse" else
  releasesleep (SlBuf b);;
  acquire bcache_lock;;
  upd_buf b (fun bp => set_b_refcnt (u32 (b_refcnt bp - 1)) bp);;
  bp ← buf_at b;
  when (b_refcnt bp =? 0) (move_front b);;
  release bcache_lock.

Section driver.
Context `{DiskDriver}.

Definition bread (dev blockno : Z) : M kernel nat :=
  b ← bget dev blockno;
  bp ← buf_at b;
  when (Z.land (b_flags bp) B_VALID =? 0) (iderw b);;
  mret b.

Definition bwrite (b : nat) : M kernel unit :=
  h ← holdingsleep (SlBuf b);
  if negb h then panic "bwrite" else
  upd_buf b (fun bp => set_b_flags (Z.lor (b_flags bp) B_DIRTY) bp);;
  iderw b.
End driver.
