(* ===== verification/Cache.v ===== *)
(** * Correctness of the buffer cache (src/bio.c)

    The doubly linked list of src/bio.c is a list of buffers in order of use;
    on top of it, the cache gives the kernel a view of the disk in which every
    block has one content, whichever buffer or disk block holds it. *)

From stdpp Require Import functions.
From S2P Require Import Prelude Layout CString Spinlock Kalloc State Sched Sleeplock Bio.

#[local] Opaque HEAD.

(** ** Doubly linked lists

    [path nx pv a l z]: from [a], the successors [nx] lead through [l] to [z],
    and the predecessors [pv] lead back. *)

Section dll.
Implicit Types (nx pv : nat -> nat) (l : list nat).

Fixpoint path nx pv (a : nat) l (z : nat) : Prop :=
  match l with
  | [] => nx a = z /\ pv z = a
  | b :: l' => nx a = b /\ pv b = a /\ path nx pv b l' z
  end.

Lemma path_app nx pv a l1 b l2 z :
  path nx pv a (l1 ++ b :: l2) z <-> path nx pv a l1 b /\ path nx pv b l2 z.
Proof. revert a. induction l1 as [|x l1 IH]; intros a; cbn; [naive_solver|]. rewrite IH. naive_solver. Qed.

Lemma path_ext nx pv nx' pv' a l z : path nx pv a l z ->
  (forall x, x = a \/ x ∈ l -> nx' x = nx x) -> (forall x, x ∈ l \/ x = z -> pv' x = pv x) ->
  path nx' pv' a l z.
Proof.
  revert a. induction l as [|b l IH]; intros a; cbn.
  - intros [H1 H2] Hn Hp. by rewrite Hn, Hp by auto.
  - intros (<- & Hpv & Hl) Hn Hp. split; [apply Hn; by left|]. split.
    + rewrite Hp; [done|]. left. apply elem_of_cons. by left.
    + apply IH; [done| |].
      * intros x Hx. apply Hn. right. apply elem_of_cons. naive_solver.
      * intros x [Hx| ->]; apply Hp; [left; apply elem_of_cons; by right|by right].
Qed.

(** Where a path starts and ends. *)
Lemma path_first nx pv a l z : path nx pv a l z -> nx a = default z (head l).
Proof. destruct l; cbn; naive_solver. Qed.

Lemma path_last nx pv a l z : path nx pv a l z -> pv z = default a (last l).
Proof.
  revert a. induction l as [|b l IH]; intros a; cbn [path]; [naive_solver|].
  intros (_ & _ & Hl). rewrite (IH b Hl). rewrite last_cons. by destruct (last l).
Qed.

(** Unlinking [b]. *)
Lemma path_unlink nx pv x l1 b l2 y : path nx pv x l1 b -> path nx pv b l2 y ->
  NoDup (x :: l1 ++ l2) -> NoDup (l1 ++ l2 ++ [y]) ->
  path (<[pv b := nx b]> nx) (<[nx b := pv b]> pv) x (l1 ++ l2) y.
Proof.
  intros H1 H2 Hnx Hpv. rewrite (path_first _ _ _ _ _ H2), (path_last _ _ _ _ _ H1).
  destruct l1 as [|a l1 _] using rev_ind.
  - cbn [app default last]. destruct l2 as [|z l2]; cbn [head default path app] in *.
    + by rewrite !fn_lookup_insert.
    + rewrite !fn_lookup_insert. split; [done|]. split; [done|].
      eapply path_ext; [apply H2| |].
      * intros w Hw. rewrite fn_lookup_insert_ne; [done|]. apply NoDup_cons in Hnx as [Hx _]. set_solver.
      * intros w Hw. rewrite fn_lookup_insert_ne; [done|]. apply NoDup_cons in Hpv as [Hz _]. set_solver.
  - rewrite last_snoc. cbn [default]. rewrite <- app_assoc in *. apply path_app in H1 as [H1 Ha].
    cbn [app]. apply path_app. apply NoDup_cons in Hnx as [Hx Hnx].
    apply NoDup_app in Hnx as (_ & Hna & Hnx). apply NoDup_app in Hpv as (Hn1 & Hpa & Hpv). split.
    + eapply path_ext; [exact H1| |].
      * intros w Hw. rewrite fn_lookup_insert_ne; [done|]. set_solver.
      * intros w Hw. rewrite fn_lookup_insert_ne; [done|]. cbn in Hpa, Hpv.
        assert (Hz : default y (head l2) ∈ l2 ++ [y]) by (destruct l2; cbn; set_solver).
        apply NoDup_cons in Hpv as [Ha' _]. intros E. rewrite E in Hz. destruct Hw as [Hw| ->]; [|done].
        apply (Hpa w Hw). apply elem_of_cons. by right.
    + destruct l2 as [|z l2]; cbn [head default path] in *.
      * by rewrite !fn_lookup_insert.
      * rewrite !fn_lookup_insert. split; [done|]. split; [done|]. cbn in Hnx, Hpv.
        apply NoDup_cons in Hnx as [Hnx _]. apply NoDup_cons in Hpv as [_ Hpv]. apply NoDup_cons in Hpv as [Hz _].
        eapply path_ext; [apply H2| |]; intros w Hw; (rewrite fn_lookup_insert_ne; [done|]); set_solver.
Qed.

(** Linking [b] in front. *)
Lemma path_push nx pv h l b : path nx pv h l h -> b <> h -> b ∉ l -> NoDup (h :: l) ->
  path (<[h := b]> (<[b := nx h]> nx)) (<[nx h := b]> (<[b := h]> pv)) h (b :: l) h.
Proof.
  intros H Hb Hbl Hd. apply NoDup_cons in Hd as [Hh Hd]. cbn [path]. rewrite fn_lookup_insert. split; [done|].
  rewrite (path_first _ _ _ _ _ H). split.
  - rewrite fn_lookup_insert_ne; [by rewrite fn_lookup_insert|]. destruct l; cbn; set_solver.
  - destruct l as [|z l]; cbn [head default path] in *.
    + rewrite fn_lookup_insert_ne, !fn_lookup_insert by done. done.
    + rewrite fn_lookup_insert_ne, !fn_lookup_insert by done. split; [done|]. split; [done|].
      apply NoDup_cons in Hd as [Hz Hd].
      eapply path_ext; [apply H| |]; intros w Hw; rewrite !fn_lookup_insert_ne by set_solver; done.
Qed.
End dll.

(** ** The list of buffers *)

Definition nxf (bs : list buf) (i : nat) : nat := from_option b_next 0%nat (bs !! i).
Definition pvf (bs : list buf) (i : nat) : nat := from_option b_prev 0%nat (bs !! i).

(** A buffer without its place in the list. *)
Definition core (b : buf) : buf := set_b_prev 0 (set_b_next 0 b).

(** [order] are the buffers from the most to the least recently used. *)
Record ring (bs : list buf) (order : list nat) : Prop := Ring {
  ring_length : length bs = S HEAD;
  ring_all : order ≡ₚ seq 0 HEAD;
  ring_path : path (nxf bs) (pvf bs) HEAD order HEAD;
}.

Definition on_bufs (g : list buf -> list buf) (s : kernel) : kernel := set_k_bufs (g (k_bufs s)) s.

Lemma on_bufs_twice g g' s : on_bufs g (on_bufs g' s) = on_bufs (fun bs => g (g' bs)) s.
Proof. done. Qed.

Lemma upd_buf_run i f c s : (i < length (k_bufs s))%nat -> upd_buf i f c s = Done tt c (on_bufs (alter f i) s).
Proof.
  intros [b Hb]%lookup_lt_is_Some. unfold upd_buf. erewrite elem_upd_run by done.
  unfold on_bufs. by erewrite alter_insert_at.
Qed.

Lemma bind_upd_buf {B} i f (k : unit -> M kernel B) c s : (i < length (k_bufs s))%nat ->
  (upd_buf i f ≫= k) c s = k tt c (on_bufs (alter f i) s).
Proof. intros. apply bind_Done. by apply upd_buf_run. Qed.

Lemma bind_buf_at {B} i b (k : buf -> M kernel B) c s : k_bufs s !! i = Some b -> (buf_at i ≫= k) c s = k b c s.
Proof. apply bind_elem_at. Qed.

Lemma nxf_next bs i v x : (i < length bs)%nat -> nxf (alter (set_b_next v) i bs) x = <[i := v]> (nxf bs) x.
Proof.
  intros [b Hb]%lookup_lt_is_Some. unfold nxf. destruct (decide (i = x)) as [->|Hne].
  - by rewrite list_lookup_alter_eq, Hb, fn_lookup_insert.
  - by rewrite list_lookup_alter_ne, fn_lookup_insert_ne.
Qed.

Lemma pvf_prev bs i v x : (i < length bs)%nat -> pvf (alter (set_b_prev v) i bs) x = <[i := v]> (pvf bs) x.
Proof.
  intros [b Hb]%lookup_lt_is_Some. unfold pvf. destruct (decide (i = x)) as [->|Hne].
  - by rewrite list_lookup_alter_eq, Hb, fn_lookup_insert.
  - by rewrite list_lookup_alter_ne, fn_lookup_insert_ne.
Qed.

Lemma field_alter {A} (g : buf -> A) (d : A) f (bs : list buf) i x : (forall b, g (f b) = g b) ->
  from_option g d (alter f i bs !! x) = from_option g d (bs !! x).
Proof.
  intros Hg. destruct (decide (i = x)) as [->|Hne].
  - rewrite list_lookup_alter_eq. destruct (bs !! x); cbn; [apply Hg|done].
  - by rewrite list_lookup_alter_ne.
Qed.

Lemma nxf_alter f (bs : list buf) i x : (forall b, b_next (f b) = b_next b) -> nxf (alter f i bs) x = nxf bs x.
Proof. apply field_alter. Qed.
Lemma pvf_alter f bs i x : (forall b, b_prev (f b) = b_prev b) -> pvf (alter f i bs) x = pvf bs x.
Proof. apply field_alter. Qed.

Lemma core_alter f (bs : list buf) i : (forall b, core (f b) = core b) -> core <$> alter f i bs = core <$> bs.
Proof.
  intros Hf. apply list_eq. intros x. rewrite !list_lookup_fmap. destruct (decide (i = x)) as [->|Hne].
  - rewrite list_lookup_alter_eq. destruct (bs !! x); cbn; [by rewrite Hf|done].
  - by rewrite list_lookup_alter_ne.
Qed.

Lemma ring_alter f bs order i : ring bs order ->
  (forall b, b_next (f b) = b_next b) -> (forall b, b_prev (f b) = b_prev b) -> ring (alter f i bs) order.
Proof.
  intros [Hl Ha Hp] Hn Hpv. split; [by rewrite length_alter|done|].
  eapply path_ext; [done| |]; intros; [by apply nxf_alter|by apply pvf_alter].
Qed.

Lemma ring_lt bs order b : ring bs order -> b ∈ order -> (b < HEAD)%nat.
Proof. intros [_ Ha _] Hb. rewrite Ha, elem_of_seq in Hb. lia. Qed.

Lemma ring_nodup bs order : ring bs order -> NoDup (HEAD :: order).
Proof.
  intros Hr. apply NoDup_cons. split.
  - intros H%(ring_lt _ _ _ Hr). lia.
  - rewrite (ring_all _ _ Hr). apply NoDup_seq.
Qed.

Lemma nxf_lookup bs i b : bs !! i = Some b -> nxf bs i = b_next b.
Proof. unfold nxf. by intros ->. Qed.
Lemma pvf_lookup bs i b : bs !! i = Some b -> pvf bs i = b_prev b.
Proof. unfold pvf. by intros ->. Qed.

(** The six assignments of [brelse], on the list of buffers. *)
Definition unlinked (b : nat) (bs : list buf) : list buf :=
  let bs1 := alter (set_b_prev (pvf bs b)) (nxf bs b) bs in
  alter (set_b_next (nxf bs1 b)) (pvf bs1 b) bs1.

Definition pushed (b : nat) (bs : list buf) : list buf :=
  let bs1 := alter (set_b_prev HEAD) b (alter (set_b_next (nxf bs HEAD)) b bs) in
  alter (set_b_next b) HEAD (alter (set_b_prev b) (nxf bs1 HEAD) bs1).

Lemma move_front_assigns b c s :
  (b < length (k_bufs s))%nat -> (HEAD < length (k_bufs s))%nat ->
  (nxf (k_bufs s) b < length (k_bufs s))%nat ->
  (pvf (alter (set_b_prev (pvf (k_bufs s) b)) (nxf (k_bufs s) b) (k_bufs s)) b < length (k_bufs s))%nat ->
  (nxf (alter (set_b_prev HEAD) b (alter (set_b_next (nxf (unlinked b (k_bufs s)) HEAD)) b
      (unlinked b (k_bufs s)))) HEAD < length (k_bufs s))%nat ->
  move_front b c s = Done tt c (on_bufs (fun bs => pushed b (unlinked b bs)) s).
Proof.
  intros Hb Hh H1 H2 H3. unfold move_front.
  assert (Hat : forall B (k : buf -> M kernel B) i s', (i < length (k_bufs s'))%nat ->
    exists x, k_bufs s' !! i = Some x /\ (buf_at i ≫= k) c s' = k x c s').
  { intros B k i s' [x Hx]%lookup_lt_is_Some. exists x. split; [done|]. by apply bind_buf_at. }
  edestruct Hat as (b1 & E1 & ->); [exact Hb|]. rewrite (nxf_lookup _ _ _ E1), (pvf_lookup _ _ _ E1) in *.
  rewrite bind_upd_buf by done.
  edestruct Hat as (b2 & E2 & ->); [cbn; by rewrite length_alter|]. cbn in E2.
  rewrite (pvf_lookup _ _ _ E2) in H2. rewrite bind_upd_buf by (cbn; by rewrite length_alter).
  rewrite on_bufs_twice.
  assert (Hu : alter (set_b_next (b_next b2)) (b_prev b2) (alter (set_b_prev (b_prev b1)) (b_next b1) (k_bufs s))
    = unlinked b (k_bufs s)).
  { unfold unlinked. by rewrite (nxf_lookup _ _ _ E1), (pvf_lookup _ _ _ E1), (nxf_lookup _ _ _ E2), (pvf_lookup _ _ _ E2). }
  edestruct Hat as (h1 & F1 & ->); [cbn; by rewrite !length_alter|]. cbn in F1. rewrite Hu in F1.
  rewrite bind_upd_buf, on_bufs_twice by (cbn; by rewrite !length_alter).
  rewrite bind_upd_buf, on_bufs_twice by (cbn; by rewrite !length_alter).
  edestruct Hat as (h2 & F2 & ->); [cbn; by rewrite !length_alter|]. cbn in F2. rewrite Hu in F2.
  rewrite (nxf_lookup _ _ _ F1), (nxf_lookup _ _ _ F2) in H3.
  rewrite bind_upd_buf, on_bufs_twice by (cbn; by rewrite !length_alter).
  rewrite upd_buf_run, on_bufs_twice by (cbn; by rewrite !length_alter).
  unfold on_bufs. rewrite Hu. unfold pushed.
  by rewrite (nxf_lookup _ _ _ F1), (nxf_lookup _ _ _ F2).
Qed.

Lemma unlinked_path bs b l1 l2 : length bs = S HEAD -> NoDup (HEAD :: l1 ++ b :: l2) ->
  Forall (fun i => i < S HEAD)%nat (HEAD :: l1 ++ b :: l2) ->
  path (nxf bs) (pvf bs) HEAD (l1 ++ b :: l2) HEAD ->
  path (nxf (unlinked b bs)) (pvf (unlinked b bs)) HEAD (l1 ++ l2) HEAD.
Proof.
  intros Hl Hd Hlt [P1 P2]%path_app. pose proof (path_first _ _ _ _ _ P2) as Hn. pose proof (path_last _ _ _ _ _ P1) as Hp.
  rewrite Forall_cons, Forall_app, Forall_cons, !Forall_forall in Hlt. destruct Hlt as (HH & Hl1 & Hb & Hl2).
  apply NoDup_cons in Hd as [HHd Hd]. apply NoDup_app in Hd as (Hd1 & Hd12 & [Hb2 Hd2]%NoDup_cons).
  assert (nxf bs b < length bs)%nat by (rewrite Hn, Hl; destruct l2; cbn; [done|apply Hl2; set_solver]).
  assert (pvf bs b < length bs)%nat.
  { rewrite Hp, Hl. destruct (last l1) as [a|] eqn:E; cbn; [|done]. apply Hl1. by apply last_Some_elem_of. }
  assert (Hne : nxf bs b <> b) by (rewrite Hn; destruct l2; cbn; set_solver).
  unfold unlinked. rewrite !nxf_alter by done. rewrite pvf_prev, fn_lookup_insert_ne by done.
  eapply path_ext; [apply (path_unlink _ _ _ _ _ _ _ P1 P2)| |].
  - apply NoDup_cons. split; [set_solver|]. apply NoDup_app. split_and!; [done|set_solver|done].
  - rewrite app_assoc. apply NoDup_app. split_and!; [|set_solver|apply NoDup_singleton].
    apply NoDup_app. split_and!; [done|set_solver|done].
  - intros x _. rewrite nxf_next by by rewrite length_alter.
    destruct (decide (x = pvf bs b)) as [->|Hx]; [by rewrite !fn_lookup_insert|].
    rewrite !fn_lookup_insert_ne by done. by apply nxf_alter.
  - intros x _. rewrite pvf_alter by done. by rewrite pvf_prev.
Qed.

Lemma pushed_path bs b l : length bs = S HEAD -> (b < HEAD)%nat -> b ∉ l -> NoDup (HEAD :: l) ->
  Forall (fun i => i < S HEAD)%nat l -> path (nxf bs) (pvf bs) HEAD l HEAD ->
  path (nxf (pushed b bs)) (pvf (pushed b bs)) HEAD (b :: l) HEAD.
Proof.
  intros Hl Hb Hbl Hd Hlt P. pose proof (path_first _ _ _ _ _ P) as Hn.
  assert (HbH : b <> HEAD) by lia. rewrite Forall_forall in Hlt.
  assert (nxf bs HEAD < length bs)%nat by (rewrite Hn, Hl; destruct l; cbn; [lia|apply Hlt; set_solver]).
  unfold pushed. cbv zeta. rewrite (nxf_alter (set_b_prev HEAD)) by done.
  rewrite (nxf_next bs b _ HEAD), fn_lookup_insert_ne by (done || lia).
  eapply path_ext; [apply (path_push _ _ _ _ _ P); done| |].
  - intros x _. rewrite nxf_next by (rewrite !length_alter; lia).
    destruct (decide (x = HEAD)) as [->|Hx]; [by rewrite !fn_lookup_insert|].
    rewrite !(fn_lookup_insert_ne _ HEAD) by done. rewrite !nxf_alter by done. by rewrite nxf_next by lia.
  - intros x _. rewrite pvf_alter by done. rewrite pvf_prev by by rewrite !length_alter.
    destruct (decide (x = nxf bs HEAD)) as [->|Hx]; [by rewrite !fn_lookup_insert|].
    rewrite !(fn_lookup_insert_ne _ (nxf bs HEAD)) by done. rewrite pvf_prev by (rewrite length_alter; lia).
    destruct (decide (x = b)) as [->|Hxb]; [by rewrite !fn_lookup_insert|].
    rewrite !fn_lookup_insert_ne by done. by apply pvf_alter.
Qed.

Lemma unlinked_length b bs : length (unlinked b bs) = length bs.
Proof. unfold unlinked. cbv zeta. by rewrite !length_alter. Qed.
Lemma pushed_length b bs : length (pushed b bs) = length bs.
Proof. unfold pushed. cbv zeta. by rewrite !length_alter. Qed.

Lemma unlinked_core b bs : core <$> unlinked b bs = core <$> bs.
Proof. unfold unlinked. cbv zeta. by rewrite !core_alter. Qed.
Lemma pushed_core b bs : core <$> pushed b bs = core <$> bs.
Proof. unfold pushed. cbv zeta. by rewrite !core_alter. Qed.

Lemma path_pv_lt nx pv a l z b : path nx pv a l z -> b ∈ l -> pv b = a \/ pv b ∈ l.
Proof.
  revert a. induction l as [|x l IH]; intros a; cbn; [by intros _ ?%elem_of_nil|].
  intros (_ & Hp & Hl) [->|Hb]%elem_of_cons; [by left|]. right. apply elem_of_cons.
  destruct (IH _ Hl Hb); [by left|by right].
Qed.

Lemma ring_forall bs order : ring bs order -> Forall (fun i => i < S HEAD)%nat (HEAD :: order).
Proof. intros Hr. apply Forall_cons. split; [lia|]. apply Forall_forall. intros x Hx%(ring_lt _ _ _ Hr). lia. Qed.

Lemma move_front_run c s b l1 l2 : ring (k_bufs s) (l1 ++ b :: l2) -> exists bs',
  move_front b c s = Done tt c (set_k_bufs bs' s) /\ ring bs' (b :: l1 ++ l2) /\ core <$> bs' = core <$> k_bufs s.
Proof.
  intros Hr. pose proof Hr as [Hl Ha Hp]. set (bs := k_bufs s) in *.
  pose proof (ring_nodup _ _ Hr) as Hd. pose proof (ring_forall _ _ Hr) as Hlt.
  pose proof (unlinked_path bs b l1 l2 Hl Hd Hlt Hp) as Hu.
  assert (Hb : (b < HEAD)%nat) by (eapply ring_lt; [exact Hr|set_solver]).
  apply NoDup_cons in Hd as [HHd Hd]. pose proof (proj1 (NoDup_app _ _) Hd) as (Hd1 & Hd12 & [Hb2 Hd2]%NoDup_cons).
  assert (Hd' : NoDup (HEAD :: l1 ++ l2)).
  { apply NoDup_cons. split; [set_solver|]. apply NoDup_app. split_and!; [done|set_solver|done]. }
  apply Forall_cons in Hlt as [_ Hlt]. rewrite Forall_app, Forall_cons in Hlt. destruct Hlt as (Hlt1 & _ & Hlt2).
  assert (Hlt' : Forall (fun i => i < S HEAD)%nat (l1 ++ l2)) by (by apply Forall_app).
  assert (Hbl : b ∉ l1 ++ l2) by set_solver.
  exists (pushed b (unlinked b bs)). split; [|split].
  - apply move_front_assigns; fold bs; rewrite ?Hl.
    + lia.
    + lia.
    + apply path_app in Hp as [_ Hp]. rewrite (path_first _ _ _ _ _ Hp). destruct l2; cbn; [lia|]. by apply Forall_cons in Hlt2 as [].
    + apply path_app in Hp as [Hp1 Hp2]. pose proof (path_first _ _ _ _ _ Hp2) as Hn.
      destruct (decide (nxf bs b = b)) as [E|E]; [exfalso; rewrite E in Hn; destruct l2; cbn in Hn; [lia|set_solver]|].
      assert (nxf bs b < S HEAD)%nat by (rewrite Hn; destruct l2; cbn; [lia|by apply Forall_cons in Hlt2 as []]).
      rewrite pvf_prev, fn_lookup_insert_ne by (done || lia).
      rewrite (path_last _ _ _ _ _ Hp1). destruct (last l1) as [a|] eqn:El; cbn; [|lia].
      rewrite Forall_forall in Hlt1. apply Hlt1. by apply last_Some_elem_of.
    + rewrite nxf_alter by done. rewrite nxf_next, fn_lookup_insert_ne by (rewrite ?unlinked_length, ?Hl; lia).
      rewrite (path_first _ _ _ _ _ Hu). destruct (l1 ++ l2); cbn; [lia|]. by apply Forall_cons in Hlt' as [].
  - split; [by rewrite pushed_length, unlinked_length|by rewrite <- Ha, Permutation_middle|].
    apply pushed_path; try done. by rewrite unlinked_length.
  - by rewrite pushed_core, unlinked_core.
Qed.

(** ** Looking for a buffer *)

Definition sat (f : buf -> bool) (bs : list buf) (i : nat) : bool := from_option f false (bs !! i).
Definition is_block (dev blockno : Z) (b : buf) : bool := (b_dev b =? dev) && (b_blockno b =? blockno).

Lemma path_rev nx pv a l z : path nx pv a l z -> path pv nx z (reverse l) a.
Proof.
  revert a. induction l as [|b l IH]; intros a; cbn [path].
  - intros [H1 H2]. by split.
  - intros (H1 & H2 & H). rewrite reverse_cons. apply path_app. split; [by apply IH|by split].
Qed.

Lemma bget_hit_run fuel dev blockno c s a l : length (k_bufs s) = S HEAD ->
  path (nxf (k_bufs s)) (pvf (k_bufs s)) a l HEAD -> Forall (fun i => i < HEAD)%nat l -> (length l < fuel)%nat ->
  bget_hit fuel (default HEAD (head l)) dev blockno c s =
    Done (find (sat (is_block dev blockno) (k_bufs s)) l) c s.
Proof.
  intros Hl. revert a l. induction fuel as [|fuel IH]; intros a l Hp Hlt Hf; [lia|].
  cbn [bget_hit]. destruct l as [|b l]; [by rewrite bool_decide_eq_true_2|].
  change (default HEAD (head (b :: l))) with b. cbn [find].
  apply Forall_cons in Hlt as [Hb Hlt]. rewrite bool_decide_eq_false_2 by lia.
  destruct (lookup_lt_is_Some_2 (k_bufs s) b) as [bp Hbp]; [lia|]. erewrite bind_buf_at by done.
  unfold sat at 1. rewrite Hbp. cbn [from_option]. unfold is_block at 1. destruct (_ && _); [done|].
  cbn [path] in Hp. destruct Hp as (_ & _ & Hp). rewrite <- (nxf_lookup _ _ _ Hbp), (path_first _ _ _ _ _ Hp).
  apply (IH b); [done|done|cbn in Hf; lia].
Qed.

Lemma bget_free_run fuel c s a l : length (k_bufs s) = S HEAD ->
  path (pvf (k_bufs s)) (nxf (k_bufs s)) a l HEAD -> Forall (fun i => i < HEAD)%nat l -> (length l < fuel)%nat ->
  bget_free fuel (default HEAD (head l)) c s = Done (find (sat recyclable (k_bufs s)) l) c s.
Proof.
  intros Hl. revert a l. induction fuel as [|fuel IH]; intros a l Hp Hlt Hf; [lia|].
  cbn [bget_free]. destruct l as [|b l]; [by rewrite bool_decide_eq_true_2|].
  change (default HEAD (head (b :: l))) with b. cbn [find].
  apply Forall_cons in Hlt as [Hb Hlt]. rewrite bool_decide_eq_false_2 by lia.
  destruct (lookup_lt_is_Some_2 (k_bufs s) b) as [bp Hbp]; [lia|]. erewrite bind_buf_at by done.
  unfold sat at 1. rewrite Hbp. cbn [from_option]. destruct (recyclable bp); [done|].
  cbn [path] in Hp. destruct Hp as (_ & _ & Hp). rewrite <- (pvf_lookup _ _ _ Hbp), (path_first _ _ _ _ _ Hp).
  apply (IH b); [done|done|cbn in Hf; lia].
Qed.

(** The buffer that holds a block, and the one to recycle: the least recently
    used that nobody uses and the log does not need. *)
Definition hit (s : kernel) (order : list nat) (dev blockno : Z) : option nat :=
  find (sat (is_block dev blockno) (k_bufs s)) order.
Definition victim (s : kernel) (order : list nat) : option nat :=
  find (sat recyclable (k_bufs s)) (reverse order).

Section scans.
Context (c : ctx) (s : kernel) (order : list nat) (Hring : ring (k_bufs s) order).

Lemma order_length : length order = HEAD.
Proof using Hring. rewrite (ring_all _ _ Hring). by rewrite length_seq. Qed.

Lemma order_lt : Forall (fun i => i < HEAD)%nat order.
Proof using Hring. apply Forall_forall. intros x. by apply ring_lt with (bs := k_bufs s). Qed.

Lemma bget_hit_ring dev blockno h : k_bufs s !! HEAD = Some h ->
  bget_hit (S HEAD) (b_next h) dev blockno c s = Done (hit s order dev blockno) c s.
Proof using Hring.
  intros Hh. rewrite <- (nxf_lookup _ _ _ Hh), (path_first _ _ _ _ _ (ring_path _ _ Hring)).
  apply bget_hit_run with (a := HEAD); [apply Hring|apply Hring|apply order_lt|rewrite order_length; lia].
Qed.

Lemma bget_free_ring h : k_bufs s !! HEAD = Some h ->
  bget_free (S HEAD) (b_prev h) c s = Done (victim s order) c s.
Proof using Hring.
  intros Hh. pose proof (path_rev _ _ _ _ _ (ring_path _ _ Hring)) as Hp.
  rewrite <- (pvf_lookup _ _ _ Hh), (path_first _ _ _ _ _ Hp).
  apply bget_free_run with (a := HEAD); [apply Hring|exact Hp|by apply Forall_reverse, order_lt|].
  rewrite length_reverse, order_length. lia.
Qed.
End scans.

(** ** The invariant *)

Definition valid (b : buf) : bool := has_flag (b_flags b) B_VALID.
Definition dirty (b : buf) : bool := has_flag (b_flags b) B_DIRTY.
Definition free_lock (b : buf) : Prop := b_refcnt b = 0 /\ sl_locked (b_lock b) = false.
Definition taken_by (pid : Z) (b : buf) : Prop := b_refcnt b = 1 /\ b_lock b = SleepLock true pid.

(** What holds of the cache while the process [pid] uses the buffers [X] and
    nobody else uses any.  A buffer not in use that is valid and not dirty has
    the contents of its block. *)
Record cache (pid : Z) (X : gset nat) (s : kernel) (order : list nat) : Prop := Cache {
  c_ring : ring (k_bufs s) order;
  c_flags : forall i b, (i < HEAD)%nat -> k_bufs s !! i = Some b ->
    b_flags b = 0 \/ b_flags b = 2 \/ b_flags b = 6;
  c_dev : forall i b, (i < HEAD)%nat -> k_bufs s !! i = Some b ->
    b_dev b = ROOTDEV /\ 0 <= b_blockno b < d_size (k_disk s) \/ b_dev b = 0 /\ b_flags b = 0;
  c_unique : forall i j b b', (i < HEAD)%nat -> (j < HEAD)%nat -> k_bufs s !! i = Some b -> k_bufs s !! j = Some b' ->
    b_dev b = ROOTDEV -> b_dev b' = ROOTDEV -> b_blockno b = b_blockno b' -> i = j;
  c_use : forall i b, (i < HEAD)%nat -> k_bufs s !! i = Some b ->
    if decide (i ∈ X) then taken_by pid b /\ b_dev b = ROOTDEV /\ valid b = true else free_lock b;
  c_coherent : forall i b, (i < HEAD)%nat -> i ∉ X -> k_bufs s !! i = Some b -> valid b = true -> dirty b = false ->
    b_data b = rdblk (d_blocks (k_disk s)) (b_blockno b);
}.

(** The buffer that holds a block, for all buffers. *)
Definition holder (s : kernel) (f : buf -> bool) (b : Z) : option nat :=
  find (sat (fun bf => is_block ROOTDEV b bf && f bf) (k_bufs s)) (seq 0 HEAD).

(** The contents of a block for the kernel: those of its buffer, or else of the
    disk; and whether they have yet to be written. *)
Definition view (s : kernel) (b : Z) : list Z :=
  match holder s valid b ≫= fun i => k_bufs s !! i with
  | Some bf => b_data bf
  | None => rdblk (d_blocks (k_disk s)) b
  end.
Definition pending (s : kernel) (b : Z) : bool := bool_decide (is_Some (holder s dirty b)).

Lemma find_Some_iff {A} (f : A -> bool) l x : find f l = Some x -> x ∈ l /\ f x = true.
Proof. intros H. apply find_some in H as [H1 H2]. split; [by apply list_elem_of_In|done]. Qed.

Lemma find_None_iff {A} (f : A -> bool) l : find f l = None <-> forall x, x ∈ l -> f x = false.
Proof.
  split.
  - intros H x Hx. by apply (find_none _ _ H), list_elem_of_In.
  - intros H. induction l as [|y l IH]; cbn; [done|]. rewrite H by set_solver. apply IH. intros x Hx. apply H. set_solver.
Qed.

Lemma sat_Some f bs i : sat f bs i = true <-> exists b, bs !! i = Some b /\ f b = true.
Proof. unfold sat. destruct (bs !! i); cbn; naive_solver. Qed.

Lemma is_block_true dev b bf : is_block dev b bf = true <-> b_dev bf = dev /\ b_blockno bf = b.
Proof. unfold is_block. rewrite andb_true_iff, !Z.eqb_eq. done. Qed.

Section view.
Context (pid : Z) (X : gset nat) (s : kernel) (order : list nat) (Hc : cache pid X s order).

Lemma holder_Some f b i : holder s f b = Some i -> (i < HEAD)%nat /\
  exists bf, k_bufs s !! i = Some bf /\ b_dev bf = ROOTDEV /\ b_blockno bf = b /\ f bf = true.
Proof.
  intros [Hi Hs]%find_Some_iff. apply elem_of_seq in Hi. split; [lia|].
  apply sat_Some in Hs as (bf & Hbf & [Hb Hf]%andb_true_iff). apply is_block_true in Hb. naive_solver.
Qed.

Lemma holder_at f b i bf : (i < HEAD)%nat -> k_bufs s !! i = Some bf -> b_dev bf = ROOTDEV -> b_blockno bf = b ->
  holder s f b = if f bf then Some i else None.
Proof using Hc.
  intros Hi Hbf Hd Hb. destruct (holder s f b) as [j|] eqn:E.
  - apply holder_Some in E as (Hj & bj & Hbj & Hdj & Hbj' & Hf).
    assert (j = i) as -> by (eapply c_unique; [done|done|done|exact Hbj|exact Hbf|done|done|congruence]).
    simplify_eq. by rewrite Hf.
  - destruct (f bf) eqn:Hf; [|done]. exfalso. unfold holder in E. rewrite find_None_iff in E.
    assert (sat (fun bf => is_block ROOTDEV b bf && f bf) (k_bufs s) i = true) as Hs.
    { apply sat_Some. exists bf. split; [done|]. rewrite Hf, andb_true_r. by apply is_block_true. }
    by rewrite E in Hs by (apply elem_of_seq; lia).
Qed.

Lemma view_at i bf : (i < HEAD)%nat -> k_bufs s !! i = Some bf -> b_dev bf = ROOTDEV -> valid bf = true ->
  view s (b_blockno bf) = b_data bf.
Proof using Hc. intros Hi Hbf Hd Hv. unfold view. rewrite (holder_at valid _ i bf), Hv by done. cbn. by rewrite Hbf. Qed.

Lemma view_none b : holder s valid b = None -> view s b = rdblk (d_blocks (k_disk s)) b.
Proof. unfold view. by intros ->. Qed.

Lemma holder_none f b : holder s f b = None <-> forall i bf, (i < HEAD)%nat -> k_bufs s !! i = Some bf ->
  b_dev bf = ROOTDEV -> b_blockno bf = b -> f bf = false.
Proof.
  unfold holder. rewrite find_None_iff. split.
  - intros H i bf Hi Hbf Hd Hb. specialize (H i). rewrite elem_of_seq in H. unfold sat in H. rewrite Hbf in H. cbn in H.
    rewrite (proj2 (is_block_true ROOTDEV b bf)) in H by done. apply H. lia.
  - intros H i Hi. apply elem_of_seq in Hi. unfold sat. destruct (k_bufs s !! i) as [bf|] eqn:Hbf; [|done]. cbn.
    destruct (is_block ROOTDEV b bf) eqn:E; [|done]. apply is_block_true in E as []. cbn. apply (H i bf); [lia|done..].
Qed.

Lemma pending_at i bf : (i < HEAD)%nat -> k_bufs s !! i = Some bf -> b_dev bf = ROOTDEV ->
  pending s (b_blockno bf) = dirty bf.
Proof using Hc.
  intros Hi Hbf Hd. unfold pending. rewrite (holder_at dirty _ i bf) by done. by destruct (dirty bf).
Qed.
End view.

(** ** Changing one buffer *)

Definition set_buf (i : nat) (bf : buf) (s : kernel) : kernel := set_k_bufs (<[i := bf]> (k_bufs s)) s.

Lemma upd_buf_at i f bf c s : k_bufs s !! i = Some bf -> upd_buf i f c s = Done tt c (set_buf i (f bf) s).
Proof. intros. unfold upd_buf. by erewrite elem_upd_run. Qed.

Lemma bind_upd_buf_at {B} i f bf (k : unit -> M kernel B) c s : k_bufs s !! i = Some bf ->
  (upd_buf i f ≫= k) c s = k tt c (set_buf i (f bf) s).
Proof. intros. apply bind_Done. by apply upd_buf_at. Qed.

Lemma set_buf_lookup i bf s : (i < length (k_bufs s))%nat -> k_bufs (set_buf i bf s) !! i = Some bf.
Proof. intros. by apply list_lookup_insert_eq. Qed.

Lemma set_buf_twice i bf bf' s : set_buf i bf' (set_buf i bf s) = set_buf i bf' s.
Proof. unfold set_buf. cbn. by rewrite list_insert_insert_eq. Qed.

Definition same_links (b b' : buf) : Prop := b_next b' = b_next b /\ b_prev b' = b_prev b.

Lemma ring_set bs order i b b' : ring bs order -> bs !! i = Some b -> same_links b b' -> ring (<[i := b']> bs) order.
Proof.
  intros Hr Hb [Hn Hp]. rewrite <- (alter_insert_at (fun _ => b') bs i b Hb).
  destruct Hr as [Hl Ha Hpath]. split; [by rewrite length_alter|done|].
  eapply path_ext; [exact Hpath| |]; intros x _; unfold nxf, pvf; (destruct (decide (i = x)) as [<-|Hne];
    [rewrite list_lookup_alter_eq, Hb; done|by rewrite list_lookup_alter_ne]).
Qed.

(** The conditions on the new contents [b'] of a buffer that was [b]. *)
Record buf_change (pid : Z) (X' : gset nat) (s : kernel) (i : nat) (b b' : buf) : Prop := BufChange {
  bc_links : same_links b b';
  bc_flags : b_flags b' = 0 \/ b_flags b' = 2 \/ b_flags b' = 6;
  bc_dev : b_dev b' = ROOTDEV /\ 0 <= b_blockno b' < d_size (k_disk s) \/ b_dev b' = 0 /\ b_flags b' = 0;
  bc_unique : b_dev b' = ROOTDEV -> forall j bj, (j < HEAD)%nat -> j <> i -> k_bufs s !! j = Some bj ->
    b_dev bj = ROOTDEV -> b_blockno bj <> b_blockno b';
  bc_use : if decide (i ∈ X') then taken_by pid b' /\ b_dev b' = ROOTDEV /\ valid b' = true else free_lock b';
  bc_coherent : i ∉ X' -> valid b' = true -> dirty b' = false -> b_data b' = rdblk (d_blocks (k_disk s)) (b_blockno b');
}.

Lemma cache_set pid X X' s order i b b' : cache pid X s order -> (i < HEAD)%nat -> k_bufs s !! i = Some b ->
  (forall j, j <> i -> j ∈ X' <-> j ∈ X) -> buf_change pid X' s i b b' -> cache pid X' (set_buf i b' s) order.
Proof.
  intros Hc Hi Hb HX Hch. destruct Hch as [Hlinks Hfl Hdev Huq Huse Hcoh]. pose proof (lookup_lt_Some _ _ _ Hb) as Hlen.
  assert (Hcase : forall j bj, k_bufs (set_buf i b' s) !! j = Some bj ->
    j = i /\ bj = b' \/ j <> i /\ k_bufs s !! j = Some bj).
  { intros j bj. cbn. intros [[-> [-> _]]|[? ?]]%list_lookup_insert_Some; [by left|right; by split]. }
  split.
  - eapply ring_set; [apply Hc|exact Hb|done].
  - intros j bj Hj [[-> ->]|[Hne Hbj]]%Hcase; [done|by eapply c_flags].
  - intros j bj Hj [[-> ->]|[Hne Hbj]]%Hcase; [done|by eapply (c_dev _ _ s)].
  - intros j k bj bk Hj Hk [[-> ->]|[Hne Hbj]]%Hcase [[-> ->]|[Hne' Hbk]]%Hcase Hdj Hdk E; [done| | |].
    + exfalso. eapply Huq; [done|exact Hk|done|exact Hbk|done|done].
    + exfalso. eapply Huq; [done|exact Hj|done|exact Hbj|done|done].
    + eapply c_unique; [exact Hc|exact Hj|exact Hk|exact Hbj|exact Hbk|done|done|done].
  - intros j bj Hj [[-> ->]|[Hne Hbj]]%Hcase; [done|]. pose proof (c_use _ _ _ _ Hc j bj Hj Hbj) as Hu.
    destruct (decide (j ∈ X)), (decide (j ∈ X')); naive_solver.
  - intros j bj Hj Hjx [[-> ->]|[Hne Hbj]]%Hcase Hv Hd; [by apply Hcoh|].
    apply (c_coherent _ _ _ _ Hc j); naive_solver.
Qed.

Lemma holder_set_ne f b s i bf bf' : k_bufs s !! i = Some bf ->
  is_block ROOTDEV b bf && f bf = false -> is_block ROOTDEV b bf' && f bf' = false ->
  holder (set_buf i bf' s) f b = holder s f b.
Proof.
  intros Hb Hf Hf'. unfold holder. set (g := fun bf => _ && _).
  assert (H : forall j, sat g (k_bufs (set_buf i bf' s)) j = sat g (k_bufs s) j).
  { intros j. unfold sat. cbn. destruct (decide (i = j)) as [<-|Hne].
    - rewrite list_lookup_insert_eq by (by eapply lookup_lt_Some). rewrite Hb. cbn. unfold g. by rewrite Hf, Hf'.
    - by rewrite list_lookup_insert_ne. }
  induction (seq 0 HEAD) as [|j l IH]; cbn [find]; [done|]. by rewrite H, IH.
Qed.

Lemma view_set_ne s i bf bf' b : k_bufs s !! i = Some bf ->
  is_block ROOTDEV b bf && valid bf = false -> is_block ROOTDEV b bf' && valid bf' = false ->
  view (set_buf i bf' s) b = view s b.
Proof.
  intros Hb Hf Hf'. unfold view. rewrite (holder_set_ne valid b s i bf bf') by done.
  destruct (holder s valid b) as [j|] eqn:E; [|done]. cbn. rewrite list_lookup_insert_ne; [done|].
  intros <-. apply holder_Some in E as (_ & bj & Hbj & Hd & Hbn & Hv). simplify_eq.
  by rewrite (proj2 (is_block_true _ _ _)), Hv in Hf by done.
Qed.

Lemma pending_set_ne s i bf bf' b : k_bufs s !! i = Some bf ->
  is_block ROOTDEV b bf && dirty bf = false -> is_block ROOTDEV b bf' && dirty bf' = false ->
  pending (set_buf i bf' s) b = pending s b.
Proof. intros. unfold pending. by erewrite holder_set_ne. Qed.

(** ** The disk driver

    What the cache needs of a driver: it completes the request of a buffer
    before it returns.  The disk in memory of src/memide.c is one. *)

Class SyncDisk `{DiskDriver} : Prop := {
  iderw_reads c s me pr i b : runs c s me pr -> held c = ∅ -> k_bufs s !! i = Some b ->
    b_lock b = SleepLock true (p_pid pr) -> b_flags b = 0 -> b_dev b = ROOTDEV ->
    0 <= b_blockno b < d_size (k_disk s) ->
    iderw i c s = Done tt c (set_buf i (set_b_flags B_VALID
      (set_b_data (rdblk (d_blocks (k_disk s)) (b_blockno b)) b)) s);
  iderw_writes c s me pr i b : runs c s me pr -> held c = ∅ -> k_bufs s !! i = Some b ->
    b_lock b = SleepLock true (p_pid pr) -> b_flags b = Z.lor B_VALID B_DIRTY -> b_dev b = ROOTDEV ->
    0 <= b_blockno b < d_size (k_disk s) ->
    iderw i c s = Done tt c (set_buf i (set_b_flags B_VALID b)
      (set_k_disk (disk_write (b_blockno b) (b_data b) (k_disk s)) s));
}.

Section memide.
Context (c : ctx) (s : kernel) (me : nat) (pr : proc) (i : nat) (b : buf).
Context (Hr : runs c s me pr) (Hh : held c = ∅) (Hb : k_bufs s !! i = Some b).
Context (Hl : b_lock b = SleepLock true (p_pid pr)) (Hd : b_dev b = ROOTDEV) (Hn : 0 <= b_blockno b < d_size (k_disk s)).

Lemma memide_checks : Z.land (b_flags b) (Z.lor B_VALID B_DIRTY) <> B_VALID ->
  memide_iderw i c s =
  ((if has_flag (b_flags b) B_DIRTY then
     upd_buf i (fun b => set_b_flags (Z.land (b_flags b) (Z.lnot B_DIRTY)) b);;
     modify (fun s => set_k_disk (disk_write (b_blockno b) (b_data b) (k_disk s)) s)
   else upd_buf i (set_b_data (rdblk (d_blocks (k_disk s)) (b_blockno b))));;
  upd_buf i (fun b => set_b_flags (Z.lor (b_flags b) B_VALID) b)) c s.
Proof using Hr Hh Hb Hl Hd Hn.
  intros Hf. unfold memide_iderw. erewrite bind_holdingsleep; [|exact Hr|exact Hb|rewrite Hh; set_solver].
  rewrite Hl. cbn [sl_locked sl_pid]. rewrite Z.eqb_refl. cbn [andb negb]. erewrite bind_buf_at by done.
  rewrite (proj2 (Z.eqb_neq _ _) Hf), Hd. change (negb (ROOTDEV =? 1)) with false. cbv iota. autorewrite with run.
  rewrite Z.geb_leb, (proj2 (Z.leb_gt _ _)) by lia. done.
Qed.
End memide.

#[export] Instance memide_sync : @SyncDisk memide.
Proof.
  split.
  - intros c s me pr i b Hr Hh Hb Hl Hf Hd Hn. unfold iderw, memide. rewrite (memide_checks c s me pr i b) by (done || by rewrite Hf).
    rewrite Hf. change (has_flag 0 B_DIRTY) with false. cbv iota. erewrite bind_upd_buf_at by done.
    erewrite upd_buf_at by (apply set_buf_lookup; by eapply lookup_lt_Some). rewrite set_buf_twice. cbn. by rewrite Hf.
  - intros c s me pr i b Hr Hh Hb Hl Hf Hd Hn. unfold iderw, memide. rewrite (memide_checks c s me pr i b) by (done || by rewrite Hf).
    rewrite Hf. change (has_flag _ B_DIRTY) with true. cbv iota. autorewrite with run. erewrite bind_upd_buf_at by done.
    autorewrite with run. erewrite upd_buf_at by (apply set_buf_lookup; by eapply lookup_lt_Some).
    f_equal. unfold set_buf. cbn. rewrite list_insert_insert_eq, Hf. done.
Qed.

(** ** Running [bget] *)

Section bget.
Context (c : ctx) (s : kernel) (me : nat) (pr : proc) (X : gset nat) (order : list nat) (b : Z).
Context (Hr : runs c s me pr) (Hh : held c = ∅) (Hc : cache (p_pid pr) X s order).

Definition claimed (bf : buf) : buf := set_b_lock (SleepLock true (p_pid pr)) (set_b_refcnt 1 bf).
Definition recycled (bf : buf) : buf := set_b_flags 0 (set_b_blockno b (set_b_dev ROOTDEV bf)).

Lemma not_in_use i bf : (i < HEAD)%nat -> i ∉ X -> k_bufs s !! i = Some bf -> free_lock bf.
Proof using Hc. intros Hi HX Hbf. pose proof (c_use _ _ _ _ Hc i bf Hi Hbf) as Hu. by rewrite decide_False in Hu. Qed.

Lemma head_buf : exists h, k_bufs s !! HEAD = Some h.
Proof using Hc. apply lookup_lt_is_Some_2. rewrite (ring_length _ _ (c_ring _ _ _ _ Hc)). lia. Qed.

Lemma lock_taken i bf : k_bufs s !! i = Some bf -> sl_locked (b_lock bf) = false ->
  acquiresleep (SlBuf i) c (set_buf i (set_b_refcnt 1 bf) s) = Done tt c (set_buf i (claimed bf) s).
Proof using Hr Hh Hc.
  intros Hbf Hlk. erewrite acquiresleep_free with (pr := pr) (b := set_b_refcnt 1 bf); [|split; apply Hr| |rewrite Hh; set_solver|done].
  - unfold lock_buf, set_buf. cbn. by rewrite list_insert_insert_eq.
  - apply set_buf_lookup. by eapply lookup_lt_Some.
Qed.

Lemma bget_run_hit i bf : hit s order ROOTDEV b = Some i -> k_bufs s !! i = Some bf -> i ∉ X -> (i < HEAD)%nat ->
  bget ROOTDEV b c s = Done i c (set_buf i (claimed bf) s).
Proof using Hr Hh Hc.
  intros Hhit Hbf HX Hi. destruct (not_in_use i bf Hi HX Hbf) as [Href Hlk]. destruct head_buf as [h Hhd].
  unfold bget. rewrite bind_acquire by set_solver. erewrite bind_buf_at by done.
  erewrite bind_Done by (eapply bget_hit_ring; [apply Hc|done]). rewrite Hhit.
  erewrite bind_upd_buf_at by done. cbv beta. rewrite Href. change (u32 (0 + 1)) with 1.
  rewrite bind_release by set_solver. by erewrite bind_Done by by apply lock_taken.
Qed.

Lemma bget_run_miss i bf : hit s order ROOTDEV b = None -> victim s order = Some i -> k_bufs s !! i = Some bf ->
  i ∉ X -> (i < HEAD)%nat -> bget ROOTDEV b c s = Done i c (set_buf i (claimed (recycled bf)) s).
Proof using Hr Hh Hc.
  intros Hhit Hvic Hbf HX Hi. destruct (not_in_use i bf Hi HX Hbf) as [Href Hlk]. destruct head_buf as [h Hhd].
  unfold bget. rewrite bind_acquire by set_solver. erewrite bind_buf_at by done.
  erewrite bind_Done by (eapply bget_hit_ring; [apply Hc|done]). rewrite Hhit. erewrite bind_buf_at by done.
  erewrite bind_Done by (eapply bget_free_ring; [apply Hc|done]). rewrite Hvic.
  erewrite bind_upd_buf_at by done. rewrite bind_release by set_solver.
  erewrite bind_Done; [done|]. erewrite acquiresleep_free with (pr := pr); [|split; apply Hr| |rewrite Hh; set_solver|].
  - unfold lock_buf, set_buf. cbn. by rewrite list_insert_insert_eq.
  - apply set_buf_lookup. by eapply lookup_lt_Some.
  - done.
Qed.
End bget.

(** ** Taking a buffer *)

Lemma flags_valid_dirty bf : b_flags bf = 0 \/ b_flags bf = 2 \/ b_flags bf = 6 ->
  (dirty bf = true -> valid bf = true) /\ (valid bf = true -> b_flags bf = if dirty bf then 6 else 2) /\
  (valid bf = false -> b_flags bf = 0).
Proof. unfold valid, dirty. intros [->|[->| ->]]; vm_compute; by repeat split. Qed.

(** The buffer [i] with contents [bf] becomes [bf'], in use for block [b]. *)
Record takes (pid : Z) (X : gset nat) (s : kernel) (b : Z) (i : nat) (bf bf' : buf) : Prop := Takes {
  tk_lt : (i < HEAD)%nat;
  tk_unused : i ∉ X;
  tk_old : k_bufs s !! i = Some bf;
  tk_links : same_links bf bf';
  tk_by : taken_by pid bf';
  tk_dev : b_dev bf' = ROOTDEV;
  tk_block : b_blockno bf' = b;
  tk_valid : valid bf' = true;
  tk_flags : b_flags bf' = 2 \/ b_flags bf' = 6;
  tk_data : b_data bf' = view s b;
  tk_how : b_dev bf = ROOTDEV /\ b_blockno bf = b /\ dirty bf' = dirty bf \/
    holder s (fun _ => true) b = None /\ dirty bf = false /\ dirty bf' = false;
}.

Section takes.
Context (pid : Z) (X : gset nat) (s : kernel) (order : list nat) (Hc : cache pid X s order).
Context (b : Z) (i : nat) (bf bf' : buf) (Ht : takes pid X s b i bf bf') (Hb : 0 <= b < d_size (k_disk s)).

Lemma takes_cache : cache pid ({[i]} ∪ X) (set_buf i bf' s) order.
Proof using Hc Ht Hb.
  destruct Ht as [Hi HX Hbf Hlinks Hby Hdev Hblk Hval Hfl Hdata Hhow].
  eapply cache_set; [done|done|exact Hbf|set_solver|]. split.
  - done.
  - naive_solver.
  - left. by rewrite Hblk.
  - intros _ j bj Hj Hne Hbj Hdj E. rewrite Hblk in E. destruct Hhow as [(Hd & Hb' & _)|[Hno _]].
    + apply Hne. eapply c_unique; [exact Hc|done|done|exact Hbj|exact Hbf|done|done|congruence].
    + rewrite holder_none in Hno. by specialize (Hno j bj Hj Hbj Hdj E).
  - rewrite decide_True by set_solver. done.
  - set_solver.
Qed.

Lemma takes_view b' : view (set_buf i bf' s) b' = view s b'.
Proof using Hc Ht Hb.
  pose proof takes_cache as Hc'. destruct Ht as [Hi HX Hbf Hlinks Hby Hdev Hblk Hval Hfl Hdata Hhow].
  pose proof (lookup_lt_Some _ _ _ Hbf) as Hlen. destruct (decide (b' = b)) as [->|Hne].
  { rewrite <- Hblk at 1. rewrite (view_at _ _ _ _ Hc' i bf') by (done || by apply set_buf_lookup). done. }
  assert (Hnew : is_block ROOTDEV b' bf' && valid bf' = false).
  { apply andb_false_iff. left. destruct (is_block _ _ _) eqn:E; [|done]. apply is_block_true in E as [_ E]. congruence. }
  destruct (is_block ROOTDEV b' bf && valid bf) eqn:E; [|by apply view_set_ne with bf].
  apply andb_true_iff in E as [[Hd Hb']%is_block_true Hv].
  destruct Hhow as [(_ & ? & _)|(_ & Hdirty & _)]; [congruence|]. rewrite <- Hb'.
  rewrite (view_at _ _ _ _ Hc i bf) by done. rewrite (c_coherent _ _ _ _ Hc i bf) by done.
  rewrite view_none; [done|]. apply holder_none. intros j bj Hj Hbj Hdj Hbj'. exfalso. cbn in Hbj.
  apply list_lookup_insert_Some in Hbj as [(<- & -> & _)|[Hne' Hbj]]; [congruence|].
  apply Hne'. eapply c_unique; [exact Hc|done|done|exact Hbf|exact Hbj|done|done|congruence].
Qed.

Lemma takes_pending b' : pending (set_buf i bf' s) b' = pending s b'.
Proof using Hc Ht Hb.
  pose proof takes_cache as Hc'. destruct Ht as [Hi HX Hbf Hlinks Hby Hdev Hblk Hval Hfl Hdata Hhow].
  pose proof (lookup_lt_Some _ _ _ Hbf) as Hlen. destruct Hhow as [(Hd & Hb0 & Hdirty)|(Hno & Hd & Hd')].
  - destruct (decide (b' = b)) as [->|Hne].
    + rewrite <- Hblk at 1. rewrite (pending_at _ _ _ _ Hc' i bf') by (done || by apply set_buf_lookup).
      rewrite <- Hb0. by rewrite (pending_at _ _ _ _ Hc i bf).
    + apply pending_set_ne with bf; [done| |]; apply andb_false_iff; left; unfold is_block;
        apply andb_false_iff; right; apply Z.eqb_neq; congruence.
  - apply pending_set_ne with bf; [done| |]; apply andb_false_iff; by right.
Qed.
End takes.

Section bread.
Context `{SyncDisk}.
Context (c : ctx) (s : kernel) (me : nat) (pr : proc) (X : gset nat) (order : list nat) (b : Z).
Context (Hr : runs c s me pr) (Hh : held c = ∅) (Hc : cache (p_pid pr) X s order).

Lemma hit_Some i : hit s order ROOTDEV b = Some i ->
  (i < HEAD)%nat /\ exists bf, k_bufs s !! i = Some bf /\ b_dev bf = ROOTDEV /\ b_blockno bf = b.
Proof using Hc.
  intros [Hi Hs]%find_Some_iff. split; [eapply ring_lt; [apply Hc|done]|].
  apply sat_Some in Hs as (bf & Hbf & [Hd Hn]%is_block_true). by exists bf.
Qed.

Lemma hit_None : hit s order ROOTDEV b = None -> holder s (fun _ => true) b = None.
Proof using Hc.
  intros E. unfold hit in E. rewrite find_None_iff in E. apply holder_none. intros i bf Hi Hbf Hd Hn. exfalso.
  assert (Hs : sat (is_block ROOTDEV b) (k_bufs s) i = true) by (apply sat_Some; exists bf; by rewrite is_block_true).
  rewrite E in Hs; [done|]. rewrite (ring_all _ _ (c_ring _ _ _ _ Hc)). apply elem_of_seq. lia.
Qed.

Lemma recyclable_iff i bf : (i < HEAD)%nat -> k_bufs s !! i = Some bf ->
  recyclable bf = true <-> i ∉ X /\ dirty bf = false.
Proof using Hc.
  intros Hi Hbf. pose proof (c_use _ _ _ _ Hc i bf Hi Hbf) as Hu. unfold recyclable, dirty, has_flag.
  rewrite andb_true_iff, negb_false_iff. split.
  - intros [Hz Hf]. split; [|done]. intros HX. rewrite decide_True in Hu by done. destruct Hu as [[E _] _].
    rewrite E in Hz. done.
  - intros [HX Hf]. rewrite decide_False in Hu by done. destruct Hu as [E _]. by rewrite E.
Qed.

Lemma victim_Some i bf : (i < HEAD)%nat -> i ∉ X -> k_bufs s !! i = Some bf -> dirty bf = false ->
  exists j bj, victim s order = Some j /\ (j < HEAD)%nat /\ j ∉ X /\ k_bufs s !! j = Some bj /\ dirty bj = false.
Proof using Hc.
  intros Hi HX Hbf Hd. unfold victim. destruct (find _ _) as [j|] eqn:E.
  - apply find_Some_iff in E as [Hj Hs]. rewrite elem_of_reverse in Hj. assert (Hj' : (j < HEAD)%nat) by (eapply ring_lt; [apply Hc|done]).
    apply sat_Some in Hs as (bj & Hbj & Hrec). rewrite recyclable_iff in Hrec by done. exists j, bj. naive_solver.
  - exfalso. rewrite find_None_iff in E. assert (Hs : sat recyclable (k_bufs s) i = true).
    { apply sat_Some. exists bf. split; [done|]. by apply (recyclable_iff i). }
    rewrite E in Hs; [done|]. rewrite elem_of_reverse, (ring_all _ _ (c_ring _ _ _ _ Hc)). apply elem_of_seq. lia.
Qed.

Context (Hb : 0 <= b < d_size (k_disk s)).

(** Reading the block into a claimed buffer that is not valid. *)
Lemma fill_takes i bf bf0 : (i < HEAD)%nat -> i ∉ X -> k_bufs s !! i = Some bf -> holder s valid b = None ->
  b_flags bf0 = 0 -> b_dev bf0 = ROOTDEV -> b_blockno bf0 = b -> same_links bf bf0 -> dirty bf = false ->
  (b_dev bf = ROOTDEV /\ b_blockno bf = b \/ holder s (fun _ => true) b = None) ->
  exists bf', takes (p_pid pr) X s b i bf bf' /\
    iderw i c (set_buf i (claimed pr bf0) s) = Done tt c (set_buf i bf' s).
Proof using Hr Hh Hb H0.
  intros Hi HX Hbf Hno Hfl Hd Hn Hlinks Hdirty Hhow. eexists. split; [|].
  2:{ erewrite iderw_reads with (me := me) (pr := pr) (b := claimed pr bf0);
      [|split; apply Hr|done|apply set_buf_lookup; by eapply lookup_lt_Some|done|done|done|cbn; by rewrite Hn].
      by rewrite set_buf_twice. }
  split; [done|done|done|done|done|done|done|done|by left| |].
  - cbn [b_data set_b_flags set_b_data]. by rewrite view_none, <- Hn.
  - rewrite Hdirty. destruct Hhow as [[? ?]|?]; [by left|by right].
Qed.

Lemma bread_run :
  (forall i bf, i ∈ X -> k_bufs s !! i = Some bf -> b_blockno bf <> b) ->
  (holder s (fun _ => true) b = None ->
    exists i bf, (i < HEAD)%nat /\ i ∉ X /\ k_bufs s !! i = Some bf /\ dirty bf = false) ->
  exists i bf bf', takes (p_pid pr) X s b i bf bf' /\ bread ROOTDEV b c s = Done i c (set_buf i bf' s).
Proof using Hr Hh Hc Hb H0.
  intros Hunheld Hroom. unfold bread. destruct (hit s order ROOTDEV b) as [i|] eqn:Hhit.
  - destruct (hit_Some i Hhit) as (Hi & bf & Hbf & Hd & Hn).
    assert (HX : i ∉ X) by (intros HX; by apply (Hunheld i bf HX Hbf)).
    erewrite bind_Done by by eapply bget_run_hit. pose proof (lookup_lt_Some _ _ _ Hbf) as Hlen.
    erewrite bind_buf_at by by apply set_buf_lookup. cbn [claimed b_flags set_b_lock set_b_refcnt].
    destruct (flags_valid_dirty bf (c_flags _ _ _ _ Hc i bf Hi Hbf)) as (Hdv & Hfv & Hfi).
    rewrite <- (negb_involutive (Z.land (b_flags bf) B_VALID =? 0)).
    fold (has_flag (b_flags bf) B_VALID). fold (valid bf).
    destruct (valid bf) eqn:Hv; cbn [negb when].
    + exists i, bf, (claimed pr bf). split; [|done]. specialize (Hfv eq_refl).
      split; [done|done|done|done|done|done|done|done| | |by left].
      * cbn [claimed b_flags set_b_lock set_b_refcnt]. rewrite Hfv. destruct (dirty bf); auto.
      * rewrite <- Hn. by rewrite (view_at _ _ _ _ Hc i bf).
    + assert (Hno : holder s valid b = None) by (by rewrite (holder_at _ _ _ _ Hc valid b i bf), Hv).
      assert (Hdf : dirty bf = false) by (destruct (dirty bf); [by specialize (Hdv eq_refl)|done]).
      destruct (fill_takes i bf bf) as (bf' & Ht & Hrun); [done|done|done|done|by apply Hfi|done|done|done|done|by left|].
      exists i, bf, bf'. split; [exact Ht|]. by erewrite bind_Done by exact Hrun.
  - pose proof (hit_None Hhit) as Hno. destruct (Hroom Hno) as (i0 & bf0 & Hi0 & HX0 & Hbf0 & Hd0).
    destruct (victim_Some i0 bf0 Hi0 HX0 Hbf0 Hd0) as (i & bf & Hvic & Hi & HX & Hbf & Hdf).
    erewrite bind_Done by by eapply bget_run_miss. pose proof (lookup_lt_Some _ _ _ Hbf) as Hlen.
    erewrite bind_buf_at by by apply set_buf_lookup. change (Z.land (b_flags (claimed pr (recycled b bf))) B_VALID =? 0) with true.
    cbn [when]. assert (Hnov : holder s valid b = None).
    { rewrite holder_none in Hno. apply holder_none. intros j bj Hj Hbj Hdj Hbj'. by specialize (Hno j bj Hj Hbj Hdj Hbj'). }
    destruct (fill_takes i bf (recycled b bf)) as (bf' & Ht & Hrun); [done|done|done|done|done|done|done|done|done|right; exact Hno|].
    exists i, bf, bf'. split; [exact Ht|]. by erewrite bind_Done by exact Hrun.
Qed.
End bread.

(** ** Using and releasing a buffer *)

Lemma cache_frame pid X s s' order : k_bufs s' = k_bufs s -> k_disk s' = k_disk s ->
  cache pid X s order -> cache pid X s' order.
Proof. intros Eb Ed [H1 H2 H3 H4 H5 H6]. split; rewrite ?Eb, ?Ed; assumption. Qed.

Lemma view_frame s s' b : k_bufs s' = k_bufs s -> k_disk s' = k_disk s -> view s' b = view s b.
Proof. intros Eb Ed. unfold view, holder. by rewrite Eb, Ed. Qed.

Lemma pending_frame s s' b : k_bufs s' = k_bufs s -> pending s' b = pending s b.
Proof. intros Eb. unfold pending, holder. by rewrite Eb. Qed.

Section core.
Context (s : kernel) (bs' : list buf) (Hcore : core <$> bs' = core <$> k_bufs s).

Lemma core_lookup i b' : bs' !! i = Some b' -> exists b, k_bufs s !! i = Some b /\ core b' = core b.
Proof using Hcore.
  intros Hb. assert (E : (core <$> bs') !! i = (core <$> k_bufs s) !! i) by (by rewrite Hcore).
  rewrite !list_lookup_fmap, Hb in E. destruct (k_bufs s !! i) as [b|]; [|done]. exists b. split; [done|]. by apply (inj Some) in E.
Qed.

Lemma core_sat f i : (forall b b', core b = core b' -> f b = f b') -> sat f bs' i = sat f (k_bufs s) i.
Proof using Hcore.
  intros Hf. assert (E : (core <$> bs') !! i = (core <$> k_bufs s) !! i) by (by rewrite Hcore).
  rewrite !list_lookup_fmap in E. unfold sat. destruct (bs' !! i), (k_bufs s !! i); try done. apply Hf. by apply (inj Some) in E.
Qed.

Lemma core_holder f b : (forall b b', core b = core b' -> f b = f b') -> holder (set_k_bufs bs' s) f b = holder s f b.
Proof using Hcore.
  intros Hf. unfold holder. set (g := fun bf => _ && _).
  assert (Hg : forall b b', core b = core b' -> g b = g b').
  { intros b1 b2 E. unfold g, is_block. rewrite (Hf _ _ E). pose proof (f_equal b_dev E) as E1.
    pose proof (f_equal b_blockno E) as E2. cbn in E1, E2. by rewrite E1, E2. }
  induction (seq 0 HEAD) as [|j l IH]; cbn [find]; [done|]. change (k_bufs (set_k_bufs bs' s)) with bs' in *.
  by rewrite (core_sat g j Hg), IH.
Qed.

Lemma core_valid b b' : core b = core b' -> valid b = valid b'.
Proof. intros E. unfold valid. pose proof (f_equal b_flags E) as E1. cbn in E1. by rewrite E1. Qed.
Lemma core_dirty b b' : core b = core b' -> dirty b = dirty b'.
Proof. intros E. unfold dirty. pose proof (f_equal b_flags E) as E1. cbn in E1. by rewrite E1. Qed.

Lemma core_view b : view (set_k_bufs bs' s) b = view s b.
Proof using Hcore.
  unfold view. rewrite core_holder by apply core_valid. destruct (holder s valid b) as [i|] eqn:E; [|done]. cbn.
  destruct (bs' !! i) as [b'|] eqn:Hb'.
  - apply core_lookup in Hb' as (b0 & -> & Ec). exact (f_equal b_data Ec).
  - apply holder_Some in E as (_ & bf & Hbf & _). exfalso.
    assert (Eb : (core <$> bs') !! i = (core <$> k_bufs s) !! i) by (by rewrite Hcore).
    by rewrite !list_lookup_fmap, Hb', Hbf in Eb.
Qed.

Lemma core_pending b : pending (set_k_bufs bs' s) b = pending s b.
Proof using Hcore. unfold pending. by rewrite core_holder by apply core_dirty. Qed.

Lemma core_cache pid X order order' : cache pid X s order -> ring bs' order' -> cache pid X (set_k_bufs bs' s) order'.
Proof using Hcore.
  intros [_ Hfl Hdev Huq Huse Hcoh] Hring. split; cbn [k_bufs set_k_bufs k_disk]; [done|..].
  - intros i b Hi (b0 & Hb0 & E)%core_lookup. pose proof (f_equal b_flags E) as E1. cbn in E1. rewrite E1. by eapply Hfl.
  - intros i b Hi (b0 & Hb0 & E)%core_lookup. pose proof (f_equal b_flags E) as E1. pose proof (f_equal b_dev E) as E2.
    pose proof (f_equal b_blockno E) as E3. cbn in E1, E2, E3. rewrite E1, E2, E3. by eapply Hdev.
  - intros i j b b' Hi Hj (b0 & Hb0 & E)%core_lookup (b0' & Hb0' & E')%core_lookup Hd Hd' Hn.
    pose proof (f_equal b_dev E) as E2. pose proof (f_equal b_blockno E) as E3.
    pose proof (f_equal b_dev E') as E2'. pose proof (f_equal b_blockno E') as E3'. cbn in E2, E3, E2', E3'.
    apply (Huq i j b0 b0'); congruence.
  - intros i b Hi (b0 & Hb0 & E)%core_lookup. specialize (Huse i b0 Hi Hb0). rewrite (core_valid _ _ E).
    pose proof (f_equal b_refcnt E) as E1. pose proof (f_equal b_lock E) as E2. pose proof (f_equal b_dev E) as E3.
    cbn in E1, E2, E3. unfold taken_by, free_lock. by rewrite E1, E2, E3.
  - intros i b Hi HX (b0 & Hb0 & E)%core_lookup Hv Hd. rewrite (core_valid _ _ E) in Hv. rewrite (core_dirty _ _ E) in Hd.
    pose proof (f_equal b_data E) as E1. pose proof (f_equal b_blockno E) as E3. cbn in E1, E3. rewrite E1, E3.
    by apply (Hcoh i b0).
Qed.
End core.

Section owned.
Context (c : ctx) (s : kernel) (me : nat) (pr : proc) (X : gset nat) (order : list nat) (i : nat) (bf : buf).
Context (Hr : runs c s me pr) (Hh : held c = ∅) (Hc : cache (p_pid pr) X s order).
Context (Hi : (i < HEAD)%nat) (HX : i ∈ X) (Hbf : k_bufs s !! i = Some bf).

Lemma owned_facts : taken_by (p_pid pr) bf /\ b_dev bf = ROOTDEV /\ valid bf = true /\
  0 <= b_blockno bf < d_size (k_disk s) /\ b_flags bf = if dirty bf then 6 else 2.
Proof using Hc Hi HX Hbf.
  pose proof (c_use _ _ _ _ Hc i bf Hi Hbf) as Hu. rewrite decide_True in Hu by done. destruct Hu as (Ht & Hd & Hv).
  destruct (flags_valid_dirty bf (c_flags _ _ _ _ Hc i bf Hi Hbf)) as (_ & Hf & _).
  split; [done|]. split; [done|]. split; [done|]. split; [|by apply Hf].
  destruct (c_dev _ _ _ _ Hc i bf Hi Hbf) as [[_ ?]|[Hd0 _]]; [done|]. rewrite Hd0 in Hd. done.
Qed.

Lemma owned_holding {B} (k : bool -> M kernel B) : (holdingsleep (SlBuf i) ≫= k) c s = k true c s.
Proof using Hr Hh Hc Hi HX Hbf.
  destruct owned_facts as ([_ Hl] & _). erewrite bind_holdingsleep; [|exact Hr|exact Hbf|rewrite Hh; apply not_elem_of_empty].
  rewrite Hl. cbn [sl_locked sl_pid]. by rewrite Z.eqb_refl.
Qed.

(** Writing into the buffer. *)
Lemma owned_set_data d : cache (p_pid pr) X (set_buf i (set_b_data d bf) s) order.
Proof using Hc Hi HX Hbf.
  destruct owned_facts as (Ht & Hd & Hv & Hn & _). eapply cache_set; [done|done|exact Hbf|done|]. split; [done| | | | |done].
  - exact (c_flags _ _ _ _ Hc i bf Hi Hbf).
  - by left.
  - intros _ j bj Hj Hne Hbj Hdj E. apply Hne. eapply c_unique; [exact Hc|done|done|exact Hbj|exact Hbf|done|done|done].
  - by rewrite decide_True.
Qed.

Lemma owned_view_data d b : view (set_buf i (set_b_data d bf) s) b = if decide (b = b_blockno bf) then d else view s b.
Proof using Hc Hi HX Hbf.
  destruct owned_facts as (Ht & Hd & Hv & Hn & _). pose proof (lookup_lt_Some _ _ _ Hbf) as Hlen. case_decide as E.
  - rewrite E. change (b_blockno bf) with (b_blockno (set_b_data d bf)).
    by rewrite (view_at _ _ _ _ (owned_set_data d) i) by (done || by apply set_buf_lookup).
  - apply view_set_ne with bf; [done| |]; apply andb_false_iff; left; unfold is_block; apply andb_false_iff; right;
      apply Z.eqb_neq; cbn; congruence.
Qed.

Lemma owned_pending_data d b : pending (set_buf i (set_b_data d bf) s) b = pending s b.
Proof using Hc Hi HX Hbf.
  destruct owned_facts as (Ht & Hd & Hv & Hn & _). pose proof (lookup_lt_Some _ _ _ Hbf) as Hlen.
  destruct (decide (b = b_blockno bf)) as [E|E].
  - rewrite E at 1. change (b_blockno bf) with (b_blockno (set_b_data d bf)).
    rewrite (pending_at _ _ _ _ (owned_set_data d) i) by (done || by apply set_buf_lookup). rewrite E.
    by rewrite (pending_at _ _ _ _ Hc i bf).
  - apply pending_set_ne with bf; [done| |]; apply andb_false_iff; left; unfold is_block; apply andb_false_iff; right;
      apply Z.eqb_neq; cbn; congruence.
Qed.

(** [bwrite]. *)
Definition flushed : kernel :=
  set_buf i (set_b_flags B_VALID bf) (set_k_disk (disk_write (b_blockno bf) (b_data bf) (k_disk s)) s).

Lemma bwrite_run `{SyncDisk} : bwrite i c s = Done tt c flushed.
Proof using Hr Hh Hc Hi HX Hbf.
  destruct owned_facts as ([Hrf Hl] & Hd & Hv & Hn & Hf). pose proof (lookup_lt_Some _ _ _ Hbf) as Hlen.
  unfold bwrite. rewrite owned_holding. cbn [negb]. erewrite bind_upd_buf_at by done. cbv beta.
  assert (Hf' : Z.lor (b_flags bf) B_DIRTY = Z.lor B_VALID B_DIRTY) by (rewrite Hf; by destruct (dirty bf)).
  rewrite Hf'. erewrite iderw_writes with (me := me) (pr := pr);
    [|split; apply Hr|done|by apply set_buf_lookup|done|done|done|done].
  unfold flushed, set_buf. cbn. by rewrite list_insert_insert_eq.
Qed.
End owned.

Lemma rdblk_insert d b b' data : rdblk (<[b := data]> d) b' = if decide (b' = b) then data else rdblk d b'.
Proof. unfold rdblk. case_decide as E; [by rewrite E, lookup_insert_eq|by rewrite lookup_insert_ne]. Qed.

Section flushed.
Context (s : kernel) (pid : Z) (X : gset nat) (order : list nat) (i : nat) (bf : buf).
Context (Hc : cache pid X s order).
Context (Hi : (i < HEAD)%nat) (HX : i ∈ X) (Hbf : k_bufs s !! i = Some bf).

Lemma flushed_cache : cache pid X (flushed s i bf) order.
Proof using Hc Hi HX Hbf.
  pose proof (c_use _ _ _ _ Hc i bf Hi Hbf) as Hu. rewrite decide_True in Hu by done. destruct Hu as (Ht & Hd & Hv).
  assert (Hc' : cache pid X (set_k_disk (disk_write (b_blockno bf) (b_data bf) (k_disk s)) s) order).
  { destruct Hc as [H1 H2 H3 H4 H5 H6]. split; cbn; [done|done|exact H3|exact H4|exact H5|].
    intros j bj Hj HjX Hbj Hvj Hdj. rewrite rdblk_insert. case_decide as E; [|by apply (H6 j)]. exfalso.
    destruct (H3 j bj Hj Hbj) as [[Hdev _]|[_ Hf]]; [|unfold valid in Hvj; by rewrite Hf in Hvj].
    assert (j = i) as -> by (apply (H4 j i bj bf); done). done. }
  eapply cache_set; [exact Hc'|done|exact Hbf|done|]. split; cbn; [done|by right; left| | | |done].
  - destruct (c_dev _ _ _ _ Hc i bf Hi Hbf) as [?|[Hd0 _]]; [by left|]. rewrite Hd0 in Hd. done.
  - intros _ j bj Hj Hne Hbj Hdj E. apply Hne. eapply c_unique; [exact Hc|done|done|exact Hbj|exact Hbf|done|done|done].
  - by rewrite decide_True.
Qed.

Lemma flushed_view b : view (flushed s i bf) b = view s b.
Proof using Hc Hi HX Hbf.
  pose proof flushed_cache as Hc'. pose proof (lookup_lt_Some _ _ _ Hbf) as Hlen.
  pose proof (c_use _ _ _ _ Hc i bf Hi Hbf) as Hu. rewrite decide_True in Hu by done. destruct Hu as (Ht & Hd & Hv).
  destruct (decide (b = b_blockno bf)) as [->|Hne].
  - rewrite (view_at _ _ _ _ Hc i bf) by done. change (b_blockno bf) with (b_blockno (set_b_flags B_VALID bf)).
    by rewrite (view_at _ _ _ _ Hc' i (set_b_flags B_VALID bf)) by (done || by apply list_lookup_insert_eq).
  - unfold flushed. rewrite (view_set_ne _ i bf).
    + unfold view. change (holder (set_k_disk _ s) valid b) with (holder s valid b).
      destruct (holder s valid b ≫= _) eqn:E; [done|]. cbn. rewrite rdblk_insert. by rewrite decide_False.
    + done.
    + apply andb_false_iff; left; unfold is_block; apply andb_false_iff; right; apply Z.eqb_neq; congruence.
    + apply andb_false_iff; left; unfold is_block; apply andb_false_iff; right; apply Z.eqb_neq; cbn; congruence.
Qed.

Lemma flushed_pending b : pending (flushed s i bf) b = if decide (b = b_blockno bf) then false else pending s b.
Proof using Hc Hi HX Hbf.
  pose proof flushed_cache as Hc'. pose proof (lookup_lt_Some _ _ _ Hbf) as Hlen.
  pose proof (c_use _ _ _ _ Hc i bf Hi Hbf) as Hu. rewrite decide_True in Hu by done. destruct Hu as (Ht & Hd & Hv).
  case_decide as E.
  - rewrite E. change (b_blockno bf) with (b_blockno (set_b_flags B_VALID bf)).
    by rewrite (pending_at _ _ _ _ Hc' i (set_b_flags B_VALID bf)) by (done || by apply list_lookup_insert_eq).
  - unfold flushed. rewrite (pending_set_ne _ i bf); [done|done| |];
      apply andb_false_iff; left; unfold is_block; apply andb_false_iff; right; apply Z.eqb_neq; cbn; congruence.
Qed.
End flushed.

(** [brelse]. *)
Section brelse.
Context (c : ctx) (s : kernel) (me : nat) (pr : proc) (X : gset nat) (l1 l2 : list nat) (i : nat) (bf : buf).
Context (Hr : runs c s me pr) (Hh : held c = ∅) (Hc : cache (p_pid pr) X s (l1 ++ i :: l2)).
Context (HX : i ∈ X) (Hbf : k_bufs s !! i = Some bf).
Context (Hclean : dirty bf = false -> b_data bf = rdblk (d_blocks (k_disk s)) (b_blockno bf)).

Definition let_go : buf := set_b_refcnt 0 (set_b_lock (SleepLock false 0) bf).

Lemma brelse_lt : (i < HEAD)%nat.
Proof using Hc. eapply ring_lt; [apply Hc|]. apply elem_of_app. right. apply elem_of_cons. by left. Qed.

Lemma let_go_cache : cache (p_pid pr) (X ∖ {[i]}) (set_buf i let_go s) (l1 ++ i :: l2).
Proof using Hr Hh Hc HX Hbf Hclean.
  pose proof brelse_lt as Hi. destruct (owned_facts s pr X _ i bf Hc Hi HX Hbf) as (Ht & Hd & Hv & Hn & Hf).
  eapply cache_set; [exact Hc|done|exact Hbf|set_solver|]. split; cbn; [done| | | | |].
  - exact (c_flags _ _ _ _ Hc i bf Hi Hbf).
  - by left.
  - intros _ j bj Hj Hne Hbj Hdj E. apply Hne. eapply c_unique; [exact Hc|done|done|exact Hbj|exact Hbf|done|done|done].
  - by rewrite decide_False by set_solver.
  - done.
Qed.

Lemma let_go_view b : view (set_buf i let_go s) b = view s b /\ pending (set_buf i let_go s) b = pending s b.
Proof using Hr Hh Hc HX Hbf Hclean.
  pose proof brelse_lt as Hi. pose proof let_go_cache as Hc'. pose proof (lookup_lt_Some _ _ _ Hbf) as Hlen.
  destruct (owned_facts s pr X _ i bf Hc Hi HX Hbf) as (Ht & Hd & Hv & Hn & Hf).
  destruct (decide (b = b_blockno bf)) as [->|Hne].
  - rewrite (view_at _ _ _ _ Hc i bf), (pending_at _ _ _ _ Hc i bf) by done. change (b_blockno bf) with (b_blockno let_go).
    by rewrite (view_at _ _ _ _ Hc' i let_go), (pending_at _ _ _ _ Hc' i let_go) by (done || by apply set_buf_lookup).
  - split; [apply view_set_ne with bf|apply pending_set_ne with bf]; try done;
      apply andb_false_iff; left; unfold is_block; apply andb_false_iff; right; apply Z.eqb_neq; cbn; congruence.
Qed.

Lemma brelse_run : exists bs',
  brelse i c s = Done tt c (woken (chan_buf_lock i) (set_k_bufs bs' s)) /\
  ring bs' (i :: l1 ++ l2) /\ core <$> bs' = core <$> <[i := let_go]> (k_bufs s).
Proof using Hr Hh Hc HX Hbf Hclean.
  pose proof brelse_lt as Hi. destruct (owned_facts s pr X _ i bf Hc Hi HX Hbf) as ([Hrf Hl] & Hd & Hv & Hn & Hf).
  pose proof (lookup_lt_Some _ _ _ Hbf) as Hlen. unfold brelse.
  erewrite owned_holding by (done || exact Hr || exact Hc). cbn [negb].
  erewrite bind_Done by (eapply releasesleep_run; [exact Hbf|rewrite Hh; apply not_elem_of_empty..]).
  rewrite bind_acquire by (rewrite Hh; apply not_elem_of_empty).
  erewrite bind_upd_buf_at by by apply list_lookup_insert_eq. cbv beta. cbn [b_refcnt set_b_lock]. rewrite Hrf.
  change (u32 (1 - 1)) with 0. fold let_go.
  set (s2 := set_buf i _ _). assert (Hs2 : s2 = woken (chan_buf_lock i) (set_buf i let_go s)).
  { subst s2. unfold set_buf, lock_buf, woken, let_go. cbn. by rewrite list_insert_insert_eq. }
  erewrite bind_buf_at by (rewrite Hs2; by apply set_buf_lookup). cbn [let_go b_refcnt set_b_refcnt].
  change (0 =? 0) with true. cbn [when].
  assert (Hring : ring (k_bufs s2) (l1 ++ i :: l2)) by (rewrite Hs2; apply let_go_cache).
  destruct (move_front_run (Ctx ({[bcache_lock]} ∪ held c) (cur c)) s2 i l1 l2 Hring) as (bs' & Hmf & Hring' & Hcore).
  erewrite bind_Done by exact Hmf. exists bs'. rewrite release_acquired by (rewrite Hh; apply not_elem_of_empty).
  rewrite ctx_eta, Hs2 in *. split; [|done]. done.
Qed.
End brelse.

(** ** What clients of the cache see

    The cache and the disk, and the rest of the kernel. *)

Definition rest (s : kernel) : kernel := set_k_bufs [] (set_k_disk (Disk 0 ∅ []) (set_k_procs [] s)).

(** [pid] uses the buffers [X], and nobody else uses any. *)
Definition uses (pid : Z) (X : gset nat) (s : kernel) : Prop := exists order, cache pid X s order.

(** Process [me] runs in [s'] as in [s], and only the cache, the disk and the
    states of other processes differ. *)
Definition goes_on (c : ctx) (me : nat) (pr : proc) (s s' : kernel) : Prop :=
  rest s' = rest s /\ runs c s' me pr.

Lemma goes_on_trans c me pr s1 s2 s3 : goes_on c me pr s1 s2 -> goes_on c me pr s2 s3 -> goes_on c me pr s1 s3.
Proof. intros [E _] [E' Hr]. split; [congruence|done]. Qed.

Lemma uses_clean pid X s i bf : uses pid X s -> (i < HEAD)%nat -> i ∉ X -> k_bufs s !! i = Some bf ->
  b_dev bf = ROOTDEV -> valid bf = true -> dirty bf = false -> b_data bf = rdblk (d_blocks (k_disk s)) (b_blockno bf).
Proof. intros [order Hc]. intros. by apply (c_coherent _ _ _ _ Hc i). Qed.

(** A block that nobody uses and that has nothing pending is as on the disk. *)
Lemma view_clean pid X s b : uses pid X s -> pending s b = false ->
  (forall i bf, i ∈ X -> k_bufs s !! i = Some bf -> b_blockno bf <> b) -> view s b = rdblk (d_blocks (k_disk s)) b.
Proof.
  intros [order Hc] Hp Hno. unfold view. destruct (holder s valid b) as [i|] eqn:E; [|done].
  apply holder_Some in E as (Hi & bf & Hbf & Hd & Hb & Hv). cbn. rewrite Hbf. rewrite <- Hb.
  apply (c_coherent _ _ _ _ Hc i); [done| |done|done|].
  - intros HX. by apply (Hno i bf).
  - rewrite <- Hb in Hp. by rewrite (pending_at _ _ _ _ Hc i bf) in Hp.
Qed.

Section client.
Context `{SyncDisk} (c : ctx) (me : nat) (pr : proc) (Hh : held c = ∅).

Lemma bread_spec s X b : runs c s me pr -> uses (p_pid pr) X s -> 0 <= b < d_size (k_disk s) ->
  (forall i bf, i ∈ X -> k_bufs s !! i = Some bf -> b_blockno bf <> b) ->
  (pending s b = true \/ exists i bf, (i < HEAD)%nat /\ i ∉ X /\ k_bufs s !! i = Some bf /\ dirty bf = false) ->
  exists i bf, bread ROOTDEV b c s = Done i c (set_buf i bf s) /\ (i < HEAD)%nat /\ i ∉ X /\
    (i < length (k_bufs s))%nat /\ b_blockno bf = b /\ b_data bf = view s b /\ dirty bf = pending s b /\
    uses (p_pid pr) ({[i]} ∪ X) (set_buf i bf s) /\
    (forall b', view (set_buf i bf s) b' = view s b') /\ (forall b', pending (set_buf i bf s) b' = pending s b').
Proof using Hh H0.
  intros Hr [order Hc] Hb Hno Hroom. destruct (bread_run c s me pr X order b Hr Hh Hc Hb Hno) as (i & bf & bf' & Ht & E).
  { intros Hnone. destruct Hroom as [Hp|Hroom]; [|done]. exfalso. unfold pending in Hp. apply bool_decide_eq_true in Hp as [j Hj].
    apply holder_Some in Hj as (Hj & bj & Hbj & Hdj & Hbn & _). rewrite holder_none in Hnone. by specialize (Hnone j bj Hj Hbj Hdj Hbn). }
  pose proof (takes_cache _ _ _ _ Hc _ _ _ _ Ht Hb) as Hc'. pose proof (takes_pending _ _ _ _ Hc _ _ _ _ Ht Hb) as Hpend.
  pose proof (lookup_lt_Some _ _ _ (tk_old _ _ _ _ _ _ _ Ht)) as Hlen.
  exists i, bf'. split; [exact E|]. split; [apply Ht|]. split; [apply Ht|]. split; [done|]. split; [apply Ht|]. split; [apply Ht|]. split.
  - rewrite <- (Hpend b). rewrite <- (tk_block _ _ _ _ _ _ _ Ht). symmetry. apply (pending_at _ _ _ _ Hc' i); [apply Ht|by apply set_buf_lookup|apply Ht].
  - split; [by exists order|]. split; [|done]. apply (takes_view _ _ _ _ Hc _ _ _ _ Ht Hb).
Qed.

Lemma bwrite_spec s X i bf : runs c s me pr -> uses (p_pid pr) X s -> (i < HEAD)%nat -> i ∈ X -> k_bufs s !! i = Some bf ->
  bwrite i c s = Done tt c (flushed s i bf) /\ uses (p_pid pr) X (flushed s i bf) /\
  (forall b, view (flushed s i bf) b = view s b) /\
  (forall b, pending (flushed s i bf) b = if decide (b = b_blockno bf) then false else pending s b).
Proof using Hh H0.
  intros Hr [order Hc] Hi HX Hbf. split; [by eapply bwrite_run|]. split; [exists order; by eapply flushed_cache|].
  split; intros; [by eapply flushed_view|by eapply flushed_pending].
Qed.

Lemma brelse_spec s X i bf : runs c s me pr -> p_state pr = RUNNING -> uses (p_pid pr) X s -> (i < HEAD)%nat ->
  i ∈ X -> k_bufs s !! i = Some bf ->
  (dirty bf = false -> b_data bf = rdblk (d_blocks (k_disk s)) (b_blockno bf)) ->
  exists s', brelse i c s = Done tt c s' /\ uses (p_pid pr) (X ∖ {[i]}) s' /\ goes_on c me pr s s' /\
    k_disk s' = k_disk s /\ (forall b, view s' b = view s b) /\ (forall b, pending s' b = pending s b) /\
    (forall j bj, j <> i -> k_bufs s !! j = Some bj -> exists bj', k_bufs s' !! j = Some bj' /\ core bj' = core bj).
Proof using Hh H0.
  intros Hr Hst [order Hc] Hi HX Hbf Hcl.
  assert (Hin : i ∈ order) by (rewrite (ring_all _ _ (c_ring _ _ _ _ Hc)); apply elem_of_seq; lia).
  apply list_elem_of_split in Hin as (l1 & l2 & ->).
  destruct (brelse_run c s me pr X l1 l2 i bf Hr Hh Hc HX Hbf Hcl) as (bs' & E & Hring & Hcore).
  pose proof (let_go_cache c s me pr X l1 l2 i bf Hr Hh Hc HX Hbf Hcl) as Hc'.
  pose proof (let_go_view c s me pr X l1 l2 i bf Hr Hh Hc HX Hbf Hcl) as Hv.
  change (core <$> bs' = core <$> k_bufs (set_buf i (let_go bf) s)) in Hcore.
  eexists. split; [exact E|]. split.
  { exists (i :: l1 ++ l2). apply (cache_frame _ _ (set_k_bufs bs' (set_buf i (let_go bf) s))); [done|done|].
    by eapply (core_cache (set_buf i (let_go bf) s)). }
  split; [split; [done|by apply (runs_woken _ c (set_k_bufs bs' s))]|]. split; [done|]. split; [|split].
  - intros b. rewrite <- (proj1 (Hv b)). by rewrite <- (core_view (set_buf i (let_go bf) s) bs' Hcore b).
  - intros b. rewrite <- (proj2 (Hv b)). by rewrite <- (core_pending (set_buf i (let_go bf) s) bs' Hcore b).
  - intros j bj Hj Hbj. assert (Hl : (core <$> bs') !! j = Some (core bj)).
    { rewrite Hcore, list_lookup_fmap. cbn. by rewrite list_lookup_insert_ne, Hbj by done. }
    rewrite list_lookup_fmap in Hl. cbn. destruct (bs' !! j) as [bj'|]; [|done]. exists bj'. split; [done|]. by apply (inj Some) in Hl.
Qed.
End client.

(** ** Initialisation *)

Definition binit_step (i : nat) (bs : list buf) : list buf :=
  alter (set_b_next i) HEAD (alter (set_b_prev i) (nxf bs HEAD)
    (alter (set_b_lock (SleepLock false 0)) i (alter (set_b_prev HEAD) i (alter (set_b_next (nxf bs HEAD)) i bs)))).

Lemma binit_step_path bs i l : length bs = S HEAD -> (i < HEAD)%nat -> i ∉ l -> NoDup (HEAD :: l) ->
  (nxf bs HEAD < length bs)%nat -> path (nxf bs) (pvf bs) HEAD l HEAD ->
  path (nxf (binit_step i bs)) (pvf (binit_step i bs)) HEAD (i :: l) HEAD.
Proof.
  intros Hl Hi Hil Hd Hlt P. unfold binit_step. eapply path_ext; [apply (path_push _ _ _ _ _ P); [lia|done|done]| |].
  - intros x _. rewrite nxf_next by (rewrite !length_alter; lia).
    destruct (decide (x = HEAD)) as [->|Hx]; [by rewrite !fn_lookup_insert|].
    rewrite !(fn_lookup_insert_ne _ HEAD) by done. rewrite !nxf_alter by done. by rewrite nxf_next by lia.
  - intros x _. rewrite pvf_alter by done. rewrite pvf_prev by by rewrite !length_alter.
    destruct (decide (x = nxf bs HEAD)) as [->|Hx]; [by rewrite !fn_lookup_insert|].
    rewrite !(fn_lookup_insert_ne _ (nxf bs HEAD)) by done. rewrite pvf_alter by done. rewrite pvf_prev by (rewrite length_alter; lia).
    destruct (decide (x = i)) as [->|Hxb]; [by rewrite !fn_lookup_insert|].
    rewrite !fn_lookup_insert_ne by done. by apply pvf_alter.
Qed.

Lemma binit_body_run i c s : length (k_bufs s) = S HEAD -> (i < HEAD)%nat -> (nxf (k_bufs s) HEAD < length (k_bufs s))%nat ->
  forall B (k : unit -> M kernel B),
  (h ← buf_at HEAD;
   upd_buf i (set_b_next (b_next h));;
   upd_buf i (set_b_prev HEAD);;
   initsleeplock (SlBuf i);;
   upd_buf (b_next h) (set_b_prev i);;
   upd_buf HEAD (set_b_next i) ≫= k) c s = k tt c (on_bufs (binit_step i) s).
Proof.
  intros Hl Hi Hn B k. destruct (lookup_lt_is_Some_2 (k_bufs s) HEAD) as [h Hh]; [lia|].
  rewrite (nxf_lookup _ _ _ Hh) in Hn. erewrite bind_buf_at by done.
  rewrite bind_upd_buf by lia. rewrite bind_upd_buf, on_bufs_twice by (cbn; rewrite !length_alter; lia).
  unfold initsleeplock. cbn [sl_set]. rewrite bind_upd_buf, on_bufs_twice by (cbn; rewrite !length_alter; lia).
  rewrite bind_upd_buf, on_bufs_twice by (cbn; rewrite !length_alter; lia).
  rewrite bind_upd_buf, on_bufs_twice by (cbn; rewrite !length_alter; lia).
  unfold on_bufs, binit_step. by rewrite (nxf_lookup _ _ _ Hh).
Qed.

(** The fields [binit] leaves alone. *)
Definition payload (b : buf) : buf := set_b_lock (SleepLock false 0) (core b).

Lemma payload_alter f (bs : list buf) i : (forall b, payload (f b) = payload b) -> payload <$> alter f i bs = payload <$> bs.
Proof.
  intros Hf. apply list_eq. intros x. rewrite !list_lookup_fmap. destruct (decide (i = x)) as [->|Hne].
  - rewrite list_lookup_alter_eq. destruct (bs !! x); cbn; [by rewrite Hf|done].
  - by rewrite list_lookup_alter_ne.
Qed.

(** The locks of the buffers before [i] are initialised. *)
Definition unlocked (i : nat) (bs : list buf) : Prop :=
  forall j b, (j < i)%nat -> bs !! j = Some b -> b_lock b = SleepLock false 0.

Lemma lock_alter_ne f (bs : list buf) i j b : alter f i bs !! j = Some b -> (forall b, b_lock (f b) = b_lock b) ->
  exists b0, bs !! j = Some b0 /\ b_lock b = b_lock b0.
Proof.
  intros Hb Hf. destruct (decide (i = j)) as [->|Hne].
  - rewrite list_lookup_alter_eq in Hb. destruct (bs !! j) as [b0|]; [|done]. cbn in Hb. injection Hb as <-. by exists b0.
  - rewrite list_lookup_alter_ne in Hb by done. by exists b.
Qed.

Lemma binit_step_unlocked i bs : unlocked i bs -> unlocked (S i) (binit_step i bs).
Proof.
  intros Hu j b Hj Hb. unfold binit_step in Hb.
  apply lock_alter_ne in Hb as (b1 & Hb & ->); [|done]. apply lock_alter_ne in Hb as (b2 & Hb & ->); [|done].
  destruct (decide (i = j)) as [->|Hne].
  - rewrite list_lookup_alter_eq in Hb. destruct (_ !! j); [|done]. cbn in Hb. by injection Hb as <-.
  - rewrite list_lookup_alter_ne in Hb by done. apply lock_alter_ne in Hb as (b3 & Hb & ->); [|done].
    apply lock_alter_ne in Hb as (b4 & Hb & ->); [|done]. eapply Hu; [|exact Hb]. lia.
Qed.

Lemma reverse_seq_S n : reverse (seq 0 (S n)) = n :: reverse (seq 0 n).
Proof. rewrite seq_S, reverse_app. done. Qed.

Lemma binit_loop_run n : forall i c s, (i + n)%nat = HEAD -> length (k_bufs s) = S HEAD -> unlocked i (k_bufs s) ->
  path (nxf (k_bufs s)) (pvf (k_bufs s)) HEAD (reverse (seq 0 i)) HEAD ->
  exists bs', binit_loop n i c s = Done tt c (set_k_bufs bs' s) /\ ring bs' (reverse (seq 0 HEAD)) /\
    payload <$> bs' = payload <$> k_bufs s /\ unlocked HEAD bs'.
Proof.
  induction n as [|n IH]; intros i c s Hin Hl Hu Hp.
  - replace i with HEAD in * by lia. exists (k_bufs s). split; [by destruct s|]. split; [|done].
    split; [done|apply reverse_Permutation|done].
  - pose proof (path_first _ _ _ _ _ Hp) as Hn.
    assert (Hlt : forall j, j ∈ reverse (seq 0 i) -> (j < i)%nat) by (intros j; rewrite elem_of_reverse, elem_of_seq; lia).
    assert (nxf (k_bufs s) HEAD < length (k_bufs s))%nat.
    { rewrite Hn, Hl. destruct (reverse (seq 0 i)) as [|z l]; [cbn; lia|]. specialize (Hlt z). cbn. set_solver by lia. }
    cbn [binit_loop]. rewrite binit_body_run by (done || lia).
    destruct (IH (S i) c (on_bufs (binit_step i) s)) as (bs' & E & Hr & Hpl & Hu'); [lia| | | |].
    + cbn. unfold binit_step. by rewrite !length_alter.
    + by apply binit_step_unlocked.
    + rewrite reverse_seq_S. apply binit_step_path; try done; [lia| |].
      * intros Hi%Hlt. lia.
      * apply NoDup_cons. split; [intros Hi%Hlt; lia|]. rewrite reverse_Permutation. apply NoDup_seq.
    + exists bs'. rewrite E. split; [done|]. split; [done|]. split; [|done]. rewrite Hpl. cbn. unfold binit_step.
      by rewrite !payload_alter.
Qed.

Lemma binit_run c s : length (k_bufs s) = S HEAD -> exists bs',
  binit c s = Done tt c (set_k_bufs bs' s) /\ ring bs' (reverse (seq 0 HEAD)) /\
  payload <$> bs' = payload <$> k_bufs s /\ unlocked HEAD bs'.
Proof.
  intros Hl. unfold binit. rewrite bind_upd_buf by lia. rewrite bind_upd_buf, on_bufs_twice by (cbn; rewrite length_alter; lia).
  destruct (lookup_lt_is_Some_2 (k_bufs s) HEAD) as [h Hh]; [lia|].
  destruct (binit_loop_run HEAD 0 c (on_bufs (fun bs => alter (set_b_next HEAD) HEAD (alter (set_b_prev HEAD) HEAD bs)) s))
    as (bs' & E & Hr & Hpl & Hu); [lia|cbn; by rewrite !length_alter|intros j b Hj; lia| |].
  - cbn. unfold nxf, pvf. rewrite !list_lookup_alter_eq, Hh. done.
  - exists bs'. rewrite E. split; [done|]. split; [done|]. split; [|done]. rewrite Hpl. cbn. by rewrite !payload_alter.
Qed.

(** The buffers at boot time, in zeroed memory. *)
Definition zeroed_bufs (bs : list buf) : Prop :=
  length bs = S HEAD /\ forall i b, bs !! i = Some b -> b_flags b = 0 /\ b_dev b = 0 /\ b_refcnt b = 0.

Lemma fresh_cache pid s bs : ring bs (reverse (seq 0 HEAD)) -> zeroed_bufs (k_bufs s) ->
  payload <$> bs = payload <$> k_bufs s -> unlocked HEAD bs -> cache pid ∅ (set_k_bufs bs s) (reverse (seq 0 HEAD)).
Proof.
  intros Hring [_ Hz] Hpl Hu.
  assert (Hb : forall i b, bs !! i = Some b -> b_flags b = 0 /\ b_dev b = 0 /\ b_refcnt b = 0).
  { intros i b Hb. assert (E : (payload <$> bs) !! i = (payload <$> k_bufs s) !! i) by (by rewrite Hpl).
    rewrite !list_lookup_fmap, Hb in E. destruct (k_bufs s !! i) as [b0|] eqn:Hb0; [|done]. apply (inj Some) in E.
    destruct (Hz i b0 Hb0) as (Hz1 & Hz2 & Hz3). pose proof (f_equal b_flags E) as E1. pose proof (f_equal b_dev E) as E2.
    pose proof (f_equal b_refcnt E) as E3. cbn in E1, E2, E3. split_and!; congruence. }
  split; cbn [k_bufs set_k_bufs k_disk]; [done|..].
  - intros i b _ Hbi. left. by apply (Hb i).
  - intros i b _ Hbi. right. destruct (Hb i b Hbi) as (? & ? & _). done.
  - intros i j b b' _ _ Hbi _ Hd. destruct (Hb i b Hbi) as (_ & Hd0 & _). rewrite Hd0 in Hd. done.
  - intros i b Hi Hbi. rewrite decide_False by apply not_elem_of_empty. split; [by apply (Hb i)|]. by rewrite (Hu i b).
  - intros i b _ _ Hbi Hv. unfold valid in Hv. rewrite (proj1 (Hb i b Hbi)) in Hv. done.
Qed.

(** A cached disk for examples: all buffers empty, on a disk of [n] blocks. *)
Definition ex_disk (n : Z) (blocks : gmap Z (list Z)) (s : kernel) : kernel :=
  set_k_disk (Disk n blocks []) (set_k_bufs (replicate (S HEAD) (Buf 0 0 0 (SleepLock false 0) 0 0 0 None [])) s).

Lemma ex_disk_binit c n blocks s pid : exists s', binit c (ex_disk n blocks s) = Done tt c s' /\ uses pid ∅ s' /\
  k_disk s' = Disk n blocks [] /\ k_procs s' = k_procs s /\ (forall b, pending s' b = false).
Proof.
  destruct (binit_run c (ex_disk n blocks s)) as (bs & E & Hr & Hpl & Hu); [apply length_replicate|].
  assert (Hz : zeroed_bufs (k_bufs (ex_disk n blocks s))).
  { split; [apply length_replicate|]. intros i b [-> _]%lookup_replicate. exact (conj eq_refl (conj eq_refl eq_refl)). }
  pose proof (fresh_cache pid _ _ Hr Hz Hpl Hu) as Hc. eexists. split; [exact E|]. split; [by eexists|]. split; [done|]. split; [done|].
  intros b. unfold pending. rewrite bool_decide_eq_false_2; [done|]. intros [i Hi]. apply holder_Some in Hi as (Hi & bf & Hbf & Hd & _).
  destruct (c_dev _ _ _ _ Hc i bf Hi Hbf) as [[_ _]|[Hd0 _]]; [|by rewrite Hd0 in Hd].
  cbn in Hbf. assert (Ep : (payload <$> bs) !! i = (payload <$> k_bufs (ex_disk n blocks s)) !! i) by (by rewrite Hpl).
  rewrite !list_lookup_fmap, Hbf in Ep. destruct (k_bufs (ex_disk n blocks s) !! i) as [b0|] eqn:Hb0; [|done].
  apply (inj Some) in Ep. pose proof (f_equal b_dev Ep) as E2. cbn in E2. apply (proj2 Hz) in Hb0 as (_ & Hd0 & _).
  rewrite Hd0 in E2. rewrite E2 in Hd. done.
Qed.

(** ** Room in the cache *)

Lemma uses_buf pid X s i : uses pid X s -> (i < HEAD)%nat -> exists bf, k_bufs s !! i = Some bf.
Proof. intros [order Hc] Hi. apply lookup_lt_is_Some_2. rewrite (ring_length _ _ (c_ring _ _ _ _ Hc)). lia. Qed.

Lemma not_pending_clean pid X s i bf : uses pid X s -> (i < HEAD)%nat -> k_bufs s !! i = Some bf ->
  pending s (b_blockno bf) = false -> dirty bf = false.
Proof.
  intros [order Hc] Hi Hbf Hp. destruct (c_dev _ _ _ _ Hc i bf Hi Hbf) as [[Hd _]|[_ Hf]].
  - by rewrite (pending_at _ _ _ _ Hc i bf) in Hp.
  - unfold dirty. by rewrite Hf.
Qed.

(** Fewer pending blocks than buffers leave a buffer that is not dirty. *)
Lemma clean_exists pid X s (bs : list Z) : uses pid X s -> (forall b, pending s b = true -> b ∈ bs) ->
  (length bs < HEAD)%nat -> exists i bf, (i < HEAD)%nat /\ k_bufs s !! i = Some bf /\ dirty bf = false.
Proof.
  intros [order Hc] Hbs Hlen.
  set (blk := fun i => from_option b_blockno 0 (k_bufs s !! i)).
  destruct (decide (Exists (fun i => sat (fun bf => negb (dirty bf)) (k_bufs s) i = true) (seq 0 HEAD))) as [He|He].
  { apply Exists_exists in He as (i & Hi & (bf & Hbf & Hd)%sat_Some). apply elem_of_seq in Hi.
    exists i, bf. split; [lia|]. split; [done|]. by apply negb_true_iff. }
  exfalso. rewrite <- Forall_Exists_neg in He. rewrite Forall_forall in He.
  assert (Hall : forall i, (i < HEAD)%nat -> exists bf, k_bufs s !! i = Some bf /\ dirty bf = true /\ b_dev bf = ROOTDEV).
  { intros i Hi. destruct (uses_buf pid X s i) as [bf Hbf]; [by exists order|done|]. exists bf. split; [done|].
    assert (Hd : dirty bf = true).
    { destruct (dirty bf) eqn:Hd; [done|]. exfalso. apply (He i); [apply elem_of_seq; lia|].
      apply sat_Some. exists bf. by rewrite Hd. }
    split; [done|]. destruct (c_dev _ _ _ _ Hc i bf Hi Hbf) as [[? _]|[_ Hf]]; [done|]. unfold dirty in Hd. by rewrite Hf in Hd. }
  assert (Hnd : NoDup (blk <$> seq 0 HEAD)).
  { apply NoDup_fmap_2_strong; [|apply NoDup_seq]. intros i j Hi Hj E. apply elem_of_seq in Hi, Hj.
    destruct (Hall i) as (bi & Hbi & _ & Hdi); [lia|]. destruct (Hall j) as (bj & Hbj & _ & Hdj); [lia|].
    unfold blk in E. rewrite Hbi, Hbj in E. cbn in E. apply (c_unique _ _ _ _ Hc i j bi bj); (done || lia). }
  assert (Hsub : blk <$> seq 0 HEAD ⊆+ bs).
  { apply NoDup_submseteq; [done|]. intros b (i & -> & Hi)%list_elem_of_fmap. apply elem_of_seq in Hi.
    destruct (Hall i) as (bi & Hbi & Hd & Hdi); [lia|]. apply Hbs. unfold blk. rewrite Hbi. cbn.
    rewrite (pending_at _ _ _ _ Hc i bi) by (done || lia). done. }
  apply submseteq_length in Hsub. rewrite length_fmap, length_seq in Hsub. lia.
Qed.

(** ** Theorems *)

(** C14: [bread] returns a buffer locked by the caller with the current contents
    of the block, those last put into its buffer or else those on the disk; it
    changes the contents of no block, on the disk or as the kernel sees it,
    whatever buffer it had to recycle. *)
Theorem bread_reads_view `{SyncDisk} (c : ctx) (me : nat) (pr : proc) (s : kernel) (X : gset nat) (b : Z) :
  held c = ∅ -> runs c s me pr -> uses (p_pid pr) X s -> 0 <= b < d_size (k_disk s) ->
  (forall i bf, i ∈ X -> k_bufs s !! i = Some bf -> b_blockno bf <> b) ->
  (exists i bf, (i < HEAD)%nat /\ i ∉ X /\ k_bufs s !! i = Some bf /\ dirty bf = false) ->
  exists i s' bf, bread ROOTDEV b c s = Done i c s' /\ k_bufs s' !! i = Some bf /\
    b_data bf = view s b /\ b_lock bf = SleepLock true (p_pid pr) /\ i ∉ X /\
    uses (p_pid pr) ({[i]} ∪ X) s' /\ k_disk s' = k_disk s /\ (forall b', view s' b' = view s b').
Proof.
  intros Hh Hr Hu Hb Hno Hroom.
  destruct (bread_spec c me pr Hh s X b Hr Hu Hb Hno (or_intror Hroom)) as (i & bf & E & Hi & HiX & Hlen & Hbn & Hd & _ & Hu' & Hv & _).
  exists i, (set_buf i bf s), bf. pose proof (set_buf_lookup i bf s Hlen) as Hbf. split; [exact E|]. split; [exact Hbf|].
  split; [done|]. split; [|split; [done|split; [done|split; [done|exact Hv]]]].
  destruct Hu' as [order Hc']. pose proof (c_use _ _ _ _ Hc' i bf Hi Hbf) as Hu'. rewrite decide_True in Hu' by set_solver.
  apply Hu'.
Qed.

Lemma bread_reads_view_witness : exists s' i s'' bf,
  binit ex_idle (ex_disk 10 {[3 := [1; 2]]} ex_kernel) = Done tt ex_idle s' /\
  bread ROOTDEV 3 ex_idle s' = Done i ex_idle s'' /\ k_bufs s'' !! i = Some bf /\ b_data bf = view s' 3.
Proof.
  destruct (ex_disk_binit ex_idle 10 {[3 := [1; 2]]} ex_kernel 1) as (s' & E & Hu & Hd & Hp & Hpend).
  destruct (bread_reads_view ex_idle 0 ex_proc s' ∅ 3) as (i & s'' & bf & Eb & Hbf & Hdata & _).
  - reflexivity.
  - split; [reflexivity|]. rewrite Hp. reflexivity.
  - exact Hu.
  - rewrite Hd. cbn. lia.
  - intros i bf Hi. destruct (not_elem_of_empty _ Hi).
  - destruct (uses_buf 1 ∅ s' 0 Hu) as [bf Hbf]; [rewrite HEAD_value; lia|]. exists 0%nat, bf.
    split; [rewrite HEAD_value; lia|]. split; [apply not_elem_of_empty|]. split; [exact Hbf|].
    apply (not_pending_clean 1 ∅ s' 0 bf Hu); [rewrite HEAD_value; lia|exact Hbf|apply Hpend].
  - exists s', i, s'', bf. split; [exact E|]. split; [exact Eb|]. split; [exact Hbf|exact Hdata].
Defined.

(** The pointers of src/bio.c implement a list of buffers in order of use.
    [brelse] moves the buffer to its front, and changes the contents of no
    block. *)
Theorem brelse_moves_to_front (c : ctx) (me : nat) (pr : proc) (s : kernel) (X : gset nat) (order : list nat)
    (i : nat) (bf : buf) :
  held c = ∅ -> runs c s me pr -> cache (p_pid pr) X s order -> i ∈ order -> i ∈ X -> k_bufs s !! i = Some bf ->
  (dirty bf = false -> b_data bf = rdblk (d_blocks (k_disk s)) (b_blockno bf)) ->
  exists s', brelse i c s = Done tt c s' /\ cache (p_pid pr) (X ∖ {[i]}) s' (i :: filter (fun j => j <> i) order) /\
    forall b, view s' b = view s b.
Proof.
  intros Hh Hr Hc Ho HX Hbf Hcl. pose proof (ring_nodup _ _ (c_ring _ _ _ _ Hc)) as Hd.
  apply list_elem_of_split in Ho as (l1 & l2 & ->). apply NoDup_cons in Hd as [_ Hd].
  apply NoDup_app in Hd as (Hd1 & Hd12 & [Hi2 _]%NoDup_cons).
  assert (Hf : filter (fun j => j <> i) (l1 ++ i :: l2) = l1 ++ l2).
  { rewrite filter_app, filter_cons_False by naive_solver. f_equal.
    - apply filter_all, Forall_forall. intros j Hj ->. apply (Hd12 i Hj). apply elem_of_cons. by left.
    - apply filter_all, Forall_forall. by intros j Hj ->. }
  destruct (brelse_run c s me pr X l1 l2 i bf Hr Hh Hc HX Hbf Hcl) as (bs' & E & Hring & Hcore).
  pose proof (let_go_cache c s me pr X l1 l2 i bf Hr Hh Hc HX Hbf Hcl) as Hc'.
  pose proof (let_go_view c s me pr X l1 l2 i bf Hr Hh Hc HX Hbf Hcl) as Hv.
  change (core <$> bs' = core <$> k_bufs (set_buf i (let_go bf) s)) in Hcore.
  eexists. split; [exact E|]. rewrite Hf. split.
  - apply (cache_frame _ _ (set_k_bufs bs' (set_buf i (let_go bf) s))); [done|done|]. by eapply core_cache.
  - intros b. rewrite <- (proj1 (Hv b)). by rewrite <- (core_view _ bs' Hcore b).
Qed.

Lemma brelse_moves_to_front_witness : exists s i s' order,
  brelse i ex_idle s = Done tt ex_idle s' /\ cache 1 ({[i]} ∖ {[i]}) s' (i :: filter (fun j => j <> i) order).
Proof.
  destruct (ex_disk_binit ex_idle 10 {[3 := [1; 2]]} ex_kernel 1) as (s0 & E & Hu & Hd & Hp & Hpend).
  assert (Hr : runs ex_idle s0 0 ex_proc) by (split; [reflexivity|rewrite Hp; reflexivity]).
  destruct (bread_spec ex_idle 0 ex_proc eq_refl s0 ∅ 3 Hr Hu) as (i & bf & Eb & Hi & _ & Hlen & Hbn & Hdata & Hdt & [order Hc] & _).
  - rewrite Hd. cbn. lia.
  - intros j bj Hj. destruct (not_elem_of_empty _ Hj).
  - right. destruct (uses_buf 1 ∅ s0 0 Hu) as [b0 Hb0]; [rewrite HEAD_value; lia|]. exists 0%nat, b0.
    split; [rewrite HEAD_value; lia|]. split; [apply not_elem_of_empty|]. split; [exact Hb0|].
    apply (not_pending_clean 1 ∅ s0 0 b0 Hu); [rewrite HEAD_value; lia|exact Hb0|apply Hpend].
  - rewrite (right_id_L ∅ (∪)) in Hc.
    destruct (brelse_moves_to_front ex_idle 0 ex_proc (set_buf i bf s0) {[i]} order i bf) as (s' & E' & Hc' & _).
    + reflexivity.
    + exact Hr.
    + exact Hc.
    + rewrite (ring_all _ _ (c_ring _ _ _ _ Hc)). apply elem_of_seq. lia.
    + apply elem_of_singleton. reflexivity.
    + apply set_buf_lookup. exact Hlen.
    + intros _. rewrite Hdata, Hbn. apply (view_clean 1 ∅ s0 3 Hu (Hpend 3)). intros j bj Hj. destruct (not_elem_of_empty _ Hj).
    + exists (set_buf i bf s0), i, s', order. split; [exact E'|exact Hc'].
Defined.
