(* ===== verification/Ide.v ===== *)
(** * The IDE disk driver (src/ide.c)

    The pending requests are a queue of buffers linked by [b_qnext], headed by
    [k_ideq]; the drives work on the first one.  The contents of a drive change
    when a write is started. *)

From S2P Require Import Prelude Layout CString Spinlock Kalloc State Sched Sleeplock Bio.

Definition idelock : lockid := ("ide"%string, 0).

(** The drive that [(b->dev&1)<<4] selects. *)
Definition drive (dev : Z) (s : kernel) : disk := if Z.land dev 1 =? 0 then k_disk0 s else k_disk s.
Definition set_drive (dev : Z) (d : disk) (s : kernel) : kernel := if Z.land dev 1 =? 0 then set_k_disk0 d s else set_k_disk d s.

(** The ports are the selected drive: a write command with its data stores the
    block. *)
Definition idestart (b : option nat) : M kernel unit :=
  match b with
  | None => panic "idestart"
  | Some i =>
    bp ← buf_at i;
    if b_blockno bp >=? FSSIZE then panic "incorrect blockno"
    else when (has_flag (b_flags bp) B_DIRTY)
      (modify (fun s => set_drive (b_dev bp) (disk_write (b_blockno bp) (b_data bp) (drive (b_dev bp) s)) s))
  end.

(** [ok] is whether [idewait(1)] reports no error for the active request. *)
Definition ideintr (ok : bool) : M kernel unit :=
  acquire idelock;;
  q ← gets k_ideq;
  match q with
  | None => release idelock
  | Some i =>
    bp ← buf_at i;
    modify (set_k_ideq (b_qnext bp));;
    d ← gets (drive (b_dev bp));
    when (negb (has_flag (b_flags bp) B_DIRTY) && ok)
      (upd_buf i (set_b_data (rdblk (d_blocks d) (b_blockno bp))));;
    upd_buf i (fun b => set_b_flags (Z.lor (b_flags b) B_VALID) b);;
    upd_buf i (fun b => set_b_flags (Z.land (b_flags b) (Z.lnot B_DIRTY)) b);;
    wakeup (chan_buf i);;
    q ← gets k_ideq;
    match q with Some _ => idestart q | None => mret tt end;;
    release idelock
  end.

(** The walk of [iderw] along the [qnext] links to the end of the queue, from one
    of its buffers. *)
Fixpoint append_loop (fuel j i : nat) : M kernel unit :=
  match fuel with
  | O => undef "iderw: out of fuel"
  | S fuel' =>
    bp ← buf_at j;
    match b_qnext bp with
    | None => upd_buf j (set_b_qnext (Some i))
    | Some j' => append_loop fuel' j' i
    end
  end.

(** The queue has at most [NBUF] buffers. *)
Definition enqueue (i : nat) : M kernel unit :=
  upd_buf i (set_b_qnext None);;
  q ← gets k_ideq;
  match q with
  | None => modify (set_k_ideq (Some i))
  | Some j => append_loop (S HEAD) j i
  end.

Definition satisfied (b : buf) : bool :=
  Z.land (b_flags b) (Z.lor B_VALID B_DIRTY) =? B_VALID.

(** [iderw] up to its waiting loop, and one test of that loop. *)
Definition ide_iderw (i : nat) : M kernel unit :=
  h ← holdingsleep (SlBuf i);
  if negb h then panic "iderw: buf not locked" else
  bp ← buf_at i;
  if satisfied bp then panic "iderw: nothing to do" else
  hd1 ← gets k_havedisk1;
  if negb (b_dev bp =? 0) && negb hd1 then panic "iderw: ide disk 1 not present" else
  acquire idelock;;
  enqueue i;;
  q ← gets k_ideq;
  when (bool_decide (q = Some i)) (idestart q);;
  bp ← buf_at i;
  if satisfied bp then release idelock
  else sleep (chan_buf i) idelock.
