(* ===== verification/IdeQueue.v ===== *)
(** * The request queue of the IDE driver

    The requests linked from [k_ideq] are a queue: [iderw] appends to it and
    sleeps, every interrupt completes the first request and starts the next.
    The code is proved against [serve], which handles requests one by one, each
    with or without an error of its drive. *)

From S2P Require Import Prelude Layout CString Spinlock Kalloc State Sched Sleeplock Bio Ide.

(** ** Requests in order *)

Definition is_write (b : buf) : bool := has_flag (b_flags b) B_DIRTY.

(** The blocks of drive 0 and of drive 1. *)
Abbreviation disks := (gmap Z (list Z) * gmap Z (list Z))%type.
Definition contents (s : kernel) : disks := (d_blocks (k_disk0 s), d_blocks (k_disk s)).
Definition at_drive (dev : Z) (ds : disks) : gmap Z (list Z) := if Z.land dev 1 =? 0 then ds.1 else ds.2.
Definition put_drive (dev : Z) (m : gmap Z (list Z)) (ds : disks) : disks := if Z.land dev 1 =? 0 then (m, ds.2) else (ds.1, m).
Definition stored (b : buf) (ds : disks) : disks := put_drive (b_dev b) (<[b_blockno b := b_data b]> (at_drive (b_dev b) ds)) ds.

(** What the buffers hold afterwards, and the blocks of the drives; with each
    request, whether the drive has served it without an error.  After an error a
    buffer to be read is left as it is. *)
Fixpoint serve (rs : list (buf * bool)) (ds : disks) : list (list Z) * disks :=
  match rs with
  | [] => ([], ds)
  | (b, ok) :: rs' =>
    if is_write b then let '(l, ds) := serve rs' (stored b ds) in (b_data b :: l, ds)
    else let '(l, ds') := serve rs' ds in ((if ok then rdblk (at_drive (b_dev b) ds) (b_blockno b) else b_data b) :: l, ds')
  end.

Lemma at_put dev m ds : at_drive dev (put_drive dev m ds) = m.
Proof. unfold at_drive, put_drive. by destruct (Z.land dev 1 =? 0). Qed.

Lemma put_put dev m m' ds : put_drive dev m (put_drive dev m' ds) = put_drive dev m ds.
Proof. unfold put_drive. by destruct (Z.land dev 1 =? 0). Qed.

Lemma stored_stored b ds : stored b (stored b ds) = stored b ds.
Proof. unfold stored. by rewrite at_put, put_put, insert_insert_eq. Qed.

Lemma stored_id b ds : at_drive (b_dev b) ds !! b_blockno b = Some (b_data b) -> stored b ds = ds.
Proof. intros E. unfold stored. rewrite insert_id by done. unfold put_drive, at_drive. destruct ds. by destruct (Z.land _ 1 =? 0). Qed.

Lemma at_contents dev s : at_drive dev (contents s) = d_blocks (drive dev s).
Proof. unfold at_drive, drive. by destruct (Z.land dev 1 =? 0). Qed.

(** [l] are the buffers linked from [h] on. *)
Fixpoint chain (bufs : list buf) (h : option nat) (l : list nat) : Prop :=
  match l with
  | [] => h = None
  | i :: l' => h = Some i /\ exists b, bufs !! i = Some b /\ chain bufs (b_qnext b) l'
  end.

(** The requests [l] with the buffers [bs] are pending; the first one has been
    started: if it is a write, its data are on the disk. *)
Record pending (s : kernel) (l : list nat) (bs : list buf) : Prop := Pending {
  pe_chain : chain (k_bufs s) (k_ideq s) l;
  pe_bufs : Forall2 (fun i b => k_bufs s !! i = Some b) l bs;
  pe_nodup : NoDup l;
  pe_range : Forall (fun b => b_blockno b < FSSIZE) bs;
  pe_started : forall b, head bs = Some b -> is_write b = true -> at_drive (b_dev b) (contents s) !! b_blockno b = Some (b_data b);
}.

(** A buffer whose request is complete. *)
Definition complete (data : list Z) (b : buf) : buf :=
  set_b_flags (Z.land (Z.lor (b_flags b) B_VALID) (Z.lnot B_DIRTY)) (set_b_data data b).

(** The state after the disk has been told to start a request. *)
Definition started (b : option buf) (s : kernel) : kernel :=
  match b with
  | Some b => if is_write b then set_drive (b_dev b) (disk_write (b_blockno b) (b_data b) (drive (b_dev b) s)) s else s
  | None => s
  end.

Lemma started_contents b s : contents (started (Some b) s) = if is_write b then stored b (contents s) else contents s.
Proof. cbn. destruct (is_write b); [|done]. unfold set_drive, stored, put_drive, at_drive, drive. by destruct (Z.land _ 1 =? 0). Qed.

(** Starting a request changes the drives only. *)
Lemma started_rest b s : k_bufs (started b s) = k_bufs s /\ k_ideq (started b s) = k_ideq s /\ k_procs (started b s) = k_procs s.
Proof. destruct b as [b|]; [|done]. cbn. unfold set_drive. destruct (is_write b); [|done]. by destruct (Z.land _ 1 =? 0). Qed.

Lemma queue_insert bufs h l i b : i ∉ l -> chain bufs h l -> chain (<[i := b]> bufs) h l.
Proof.
  revert h. induction l as [|j l IH]; intros h Hi; cbn; [done|]. intros (E & bj & Ej & Hc). split; [done|].
  exists bj. rewrite list_lookup_insert_ne by set_solver. split; [done|]. apply IH; [set_solver|done].
Qed.

Lemma idestart_run i b c s : k_bufs s !! i = Some b -> b_blockno b < FSSIZE -> idestart (Some i) c s = Done tt c (started (Some b) s).
Proof.
  intros E Hb. unfold idestart, buf_at. rewrite (bind_elem_at _ _ b) by done. assert ((b_blockno b >=? FSSIZE) = false) as -> by lia.
  unfold started, is_write. by destruct (has_flag (b_flags b) B_DIRTY).
Qed.

(** ** An interrupt *)

Lemma complete_twice i b f g (k : unit -> M kernel unit) c s : k_bufs s !! i = Some b ->
  (upd_buf i f ≫= fun _ => upd_buf i g ≫= k) c s = k tt c (set_k_bufs (<[i := g (f b)]> (k_bufs s)) s).
Proof.
  intros E. unfold upd_buf. rewrite (bind_elem_upd _ _ i b) by done.
  rewrite (bind_elem_upd _ _ i (f b)) by (apply list_lookup_insert_eq; by eapply lookup_lt_Some).
  cbn [k_bufs set_k_bufs]. by rewrite list_insert_insert_eq.
Qed.

(** The buffer after an interrupt. *)
Definition received (ok : bool) (b : buf) (ds : disks) : list Z :=
  if is_write b then b_data b else if ok then rdblk (at_drive (b_dev b) ds) (b_blockno b) else b_data b.

Lemma buffer_done ok s i b (k : unit -> M kernel unit) c : k_bufs s !! i = Some b ->
  let data := received ok b (contents s) in
  (when (negb (has_flag (b_flags b) B_DIRTY) && ok) (upd_buf i (set_b_data (rdblk (d_blocks (drive (b_dev b) s)) (b_blockno b)))) ≫= fun _ =>
   upd_buf i (fun b => set_b_flags (Z.lor (b_flags b) B_VALID) b) ≫= fun _ =>
   upd_buf i (fun b => set_b_flags (Z.land (b_flags b) (Z.lnot B_DIRTY)) b) ≫= k) c s =
  k tt c (set_k_bufs (<[i := complete data b]> (k_bufs s)) s).
Proof.
  intros E data. unfold data, received, is_write. rewrite at_contents.
  assert (Ek : forall d, d = b_data b -> (upd_buf i (fun b => set_b_flags (Z.lor (b_flags b) B_VALID) b) ≫= fun _ =>
    upd_buf i (fun b => set_b_flags (Z.land (b_flags b) (Z.lnot B_DIRTY)) b) ≫= k) c s = k tt c (set_k_bufs (<[i := complete d b]> (k_bufs s)) s)).
  { intros d ->. rewrite (complete_twice i b) by done. by destruct b. }
  destruct (has_flag (b_flags b) B_DIRTY); [by apply Ek|]. destruct ok; cbn [negb andb when]; [|by apply Ek].
  erewrite bind_Done by (apply (elem_upd_run _ _ i b); exact E).
  rewrite (complete_twice i (set_b_data (rdblk (d_blocks (drive (b_dev b) s)) (b_blockno b)) b)) by (apply list_lookup_insert_eq; by eapply lookup_lt_Some).
  cbn [k_bufs set_k_bufs]. by rewrite list_insert_insert_eq.
Qed.

Lemma pending_next s i l b bs s' : pending s (i :: l) (b :: bs) -> forall b', k_bufs s' = <[i := b']> (k_bufs s) -> k_ideq s' = b_qnext b ->
  (forall b1, head bs = Some b1 -> is_write b1 = true -> at_drive (b_dev b1) (contents s') !! b_blockno b1 = Some (b_data b1)) -> pending s' l bs.
Proof.
  intros [[E (b0 & E0 & Hc)] Hb Hn Hr _] b' Ebufs Eq Hst. apply Forall2_cons in Hb as [Ei Hb]. rewrite E0 in Ei. injection Ei as ->.
  apply NoDup_cons in Hn as [Hni Hn]. apply Forall_cons in Hr as [_ Hr]. split; [|..|done|done|done].
  - rewrite Ebufs, Eq. by apply queue_insert.
  - rewrite Ebufs. apply Forall2_same_length_lookup in Hb as [Hlen Hl]. apply Forall2_same_length_lookup. split; [done|].
    intros k j x Hj Hx. rewrite list_lookup_insert_ne; [by apply (Hl k)|]. intros ->. apply Hni. by eapply list_elem_of_lookup_2.
Qed.

Lemma ideintr_run ok s i l b bs c : held c = ∅ -> pending s (i :: l) (b :: bs) ->
  let data := received ok b (contents s) in
  let s' := started (head bs) (woken (chan_buf i) (set_k_bufs (<[i := complete data b]> (k_bufs s)) (set_k_ideq (b_qnext b) s))) in
  ideintr ok c s = Done tt c s' /\ pending s' l bs.
Proof.
  intros Hh Hp data s'. pose proof Hp as [[E (b0 & E0 & Hc)] Hb Hn Hr _]. apply Forall2_cons in Hb as [Ei Hb].
  rewrite E0 in Ei. injection Ei as ->. set (s1 := woken _ _) in s'.
  assert (Hp1 : k_bufs s1 = <[i := complete data b]> (k_bufs s) /\ k_ideq s1 = b_qnext b) by done.
  destruct Hp1 as (B1 & Q1). destruct (started_rest (head bs) s1) as (B2 & Q2 & _). fold s' in B2, Q2.
  assert (Hnext : pending s' l bs).
  { apply (pending_next s i l b bs s' Hp (complete data b)).
    - by rewrite B2.
    - by rewrite Q2.
    - intros b1 Hb1 Hw. unfold s'. rewrite Hb1, started_contents, Hw. unfold stored. by rewrite at_put, lookup_insert_eq. }
  split; [|exact Hnext].
  unfold ideintr. rewrite bind_acquire by (rewrite Hh; apply not_elem_of_empty). rewrite bind_gets, E.
  unfold buf_at. rewrite (bind_elem_at _ _ b) by done. rewrite bind_modify, bind_gets.
  rewrite (buffer_done ok (set_k_ideq (b_qnext b) s) i b) by done.
  erewrite bind_Done by (apply wakeup_run; cbn; rewrite Hh; set_solver). rewrite bind_gets.
  match goal with |- context [k_ideq ?x] => change x with s1 end. rewrite Q1.
  destruct l as [|j l], bs as [|b1 bs]; try (by apply Forall2_length in Hb).
  - cbn in Hc. rewrite Hc, bind_ret. cbn [head] in s'. rewrite release_acquired by (rewrite Hh; apply not_elem_of_empty). by rewrite ctx_eta.
  - destruct Hc as [-> (b2 & E2 & _)]. apply Forall2_cons in Hb as [E1 _]. apply Forall_cons in Hr as [_ [Hr1 _]%Forall_cons].
    rewrite E1 in E2. injection E2 as <-.
    erewrite bind_Done; [|apply (idestart_run j b1); [|done]].
    + rewrite release_acquired by (rewrite Hh; apply not_elem_of_empty). by rewrite ctx_eta.
    + rewrite B1, list_lookup_insert_ne; [done|]. apply NoDup_cons in Hn as [Hn _]. set_solver.
Qed.

(** ** All pending requests are served, in order *)

(** One interrupt for each of [oks], which says whether the drive reports no
    error. *)
Fixpoint interrupts (oks : list bool) : M kernel unit :=
  match oks with [] => mret tt | ok :: oks' => ideintr ok;; interrupts oks' end.

(** The processes waiting for the buffers [l], woken one after the other. *)
Definition all_woken (l : list nat) (ps : list proc) : list proc :=
  foldl (fun ps i => wake_one (chan_buf i) <$> ps) ps l.

Lemma serve_started bs oks s : serve (zip bs oks) (contents (started (head bs) s)) = serve (zip bs oks) (contents s) \/ oks = [].
Proof.
  destruct bs as [|b bs], oks as [|ok oks]; [by right|by left|by right|]. left. cbn [head zip zip_with]. rewrite started_contents.
  destruct (is_write b) eqn:E; [|done]. cbn [serve]. rewrite E. by rewrite stored_stored.
Qed.

Record all_served (s s' : kernel) (l : list nat) (bs : list buf) (oks : list bool) : Prop := Served {
  sv_queue : k_ideq s' = None;
  sv_disk : contents s' = snd (serve (zip bs oks) (contents s));
  sv_bufs : forall k i b, l !! k = Some i -> bs !! k = Some b ->
    exists d, fst (serve (zip bs oks) (contents s)) !! k = Some d /\ k_bufs s' !! i = Some (complete d b);
  sv_others : forall i, i ∉ l -> k_bufs s' !! i = k_bufs s !! i;
  sv_procs : k_procs s' = all_woken l (k_procs s);
}.

Lemma interrupts_serve c l : held c = ∅ -> forall bs oks s, pending s l bs -> length oks = length l ->
  exists s', interrupts oks c s = Done tt c s' /\ all_served s s' l bs oks.
Proof.
  intros Hh. induction l as [|i l IH]; intros bs oks s Hp Hlen; (destruct oks as [|ok oks]; cbn in Hlen; [try lia|try lia]); cbn [interrupts].
  - exists s. destruct Hp as [Hc Hb _ _ _]. apply Forall2_nil_inv_l in Hb as ->. split; [done|]. by split.
  - destruct bs as [|b bs]; [by destruct Hp as [_ ?%Forall2_length _ _ _]|].
    destruct (ideintr_run ok s i l b bs c Hh Hp) as [E1 Hp1]. set (data := received _ _ _) in *. set (s0 := woken _ _) in *.
    set (s1 := started _ _) in *. destruct (IH bs oks s1 Hp1) as (s' & E & [S1 S2 S3 S4 S5]); [lia|].
    exists s'. split; [rewrite (bind_Done _ _ _ _ _ _ _ E1); exact E|].
    pose proof (pe_nodup _ _ _ Hp) as [Hni Hn]%NoDup_cons. pose proof (pe_bufs _ _ _ Hp) as [Hbi Hbs]%Forall2_cons.
    assert (Es : serve (zip bs oks) (contents s1) = serve (zip bs oks) (contents s)).
    { destruct (serve_started bs oks s0) as [Es|Eo]; [exact Es|]. subst oks. destruct l; [|done]. apply Forall2_nil_inv_l in Hbs as ->. done. }
    assert (Eh : serve (zip (b :: bs) (ok :: oks)) (contents s) = (data :: fst (serve (zip bs oks) (contents s)), snd (serve (zip bs oks) (contents s)))).
    { cbn [zip zip_with serve]. unfold data, received. destruct (is_write b) eqn:Ew.
      - rewrite stored_id by exact (pe_started _ _ _ Hp b eq_refl Ew). by destruct (serve (zip bs oks) (contents s)).
      - by destruct (serve (zip bs oks) (contents s)). }
    destruct (started_rest (head bs) s0) as (Eb & _ & Ep). fold s1 in Eb, Ep. change (k_bufs s0) with (<[i := complete data b]> (k_bufs s)) in Eb.
    rewrite Es in *. split.
    + exact S1.
    + by rewrite Eh, S2.
    + intros k j x Hj Hx. rewrite Eh. destruct k as [|k]; cbn in Hj, Hx |- *; [|by apply (S3 k)].
      injection Hj as <-. injection Hx as <-. exists data. split; [done|]. rewrite S4, Eb by done.
      apply list_lookup_insert_eq. by eapply lookup_lt_Some.
    + intros j Hj. rewrite S4, Eb by set_solver. apply list_lookup_insert_ne. set_solver.
    + rewrite S5, Ep. done.
Qed.

(** ** A request *)

Lemma append_run i bi c s : k_bufs s !! i = Some bi -> b_qnext bi = None -> forall l j fuel,
  chain (k_bufs s) (Some j) (j :: l) -> NoDup (j :: l) -> i ∉ j :: l -> (length l < fuel)%nat ->
  exists k bk, append_loop fuel j i c s = Done tt c (set_k_bufs (<[k := set_b_qnext (Some i) bk]> (k_bufs s)) s) /\
    k ∈ j :: l /\ k_bufs s !! k = Some bk /\ chain (<[k := set_b_qnext (Some i) bk]> (k_bufs s)) (Some j) (j :: l ++ [i]).
Proof.
  intros Ebi Hq l. induction l as [|j1 l IH]; intros j fuel [_ (b & Eb & Hc)] Hn Hi Hf; (destruct fuel as [|fuel]; [cbn in Hf; lia|]);
    cbn [append_loop]; unfold buf_at; rewrite (bind_elem_at _ _ b) by done.
  - cbn in Hc. rewrite Hc. exists j, b. unfold upd_buf. rewrite (elem_upd_run _ _ j b) by done. split; [done|]. split; [set_solver|]. split; [done|].
    cbn. split; [done|]. exists (set_b_qnext (Some i) b). rewrite list_lookup_insert_eq by (by eapply lookup_lt_Some). split; [done|].
    split; [done|]. exists bi. rewrite list_lookup_insert_ne by set_solver. by split.
  - pose proof Hc as [Hc1 _]. rewrite Hc1. apply NoDup_cons in Hn as [Hnj Hn].
    rewrite Hc1 in Hc. destruct (IH j1 fuel Hc Hn) as (k & bk & E & Hk & Ek & Hc'); [set_solver|cbn in Hf; lia|].
    exists k, bk. split; [done|]. split; [set_solver|]. split; [done|]. cbn. split; [done|]. exists b.
    rewrite list_lookup_insert_ne by (intros ->; done). split; [done|]. by rewrite Hc1.
Qed.

(** Buffers that differ in their place in the queue only. *)
Definition unqueued (b : buf) : buf := set_b_qnext None b.

Lemma serve_unqueued bs : forall bs' oks d, unqueued <$> bs = unqueued <$> bs' -> serve (zip bs oks) d = serve (zip bs' oks) d.
Proof.
  induction bs as [|b bs IH]; intros [|b' bs'] [|ok oks] d E; try done. rewrite !fmap_cons in E.
  pose proof (f_equal head E) as E0. pose proof (f_equal tail E) as E1. cbn [head tail] in E0, E1. apply Some_inj in E0.
  assert (Ef : is_write b = is_write b') by (unfold is_write; by apply (f_equal (fun x => has_flag (b_flags x) B_DIRTY)) in E0).
  assert (Ev : b_dev b = b_dev b') by (by apply (f_equal b_dev) in E0).
  assert (En : b_blockno b = b_blockno b') by (by apply (f_equal b_blockno) in E0).
  assert (Ed : b_data b = b_data b') by (by apply (f_equal b_data) in E0).
  cbn [zip zip_with serve]. unfold stored. rewrite Ef, Ev, En, Ed. by destruct (is_write b'); rewrite (IH bs').
Qed.

Lemma requests_frame s s' l bs : k_bufs s' = k_bufs s -> k_ideq s' = k_ideq s -> contents s' = contents s -> pending s l bs -> pending s' l bs.
Proof. intros E1 E2 E3 [P1 P2 P3 P4 P5]. split; rewrite ?E1, ?E2, ?E3; done. Qed.

Lemma Forall2_update {A} (bufs : list A) l bs k x bk : Forall2 (fun i b => bufs !! i = Some b) l bs -> NoDup l -> k ∈ l -> bufs !! k = Some bk ->
  exists n, bs !! n = Some bk /\ l !! n = Some k /\ Forall2 (fun i b => <[k := x]> bufs !! i = Some b) l (<[n := x]> bs).
Proof.
  intros H Hn [n Ek]%list_elem_of_lookup E. destruct (Forall2_lookup_l _ _ _ _ _ H Ek) as (y & Ey & Hy). rewrite E in Hy. injection Hy as <-.
  exists n. split; [done|]. split; [done|]. apply Forall2_same_length_lookup in H as [Hl Hb]. apply Forall2_same_length_lookup. split; [by rewrite length_insert|].
  intros m i b Hi [(<- & -> & _)|[Hne Hm]]%list_lookup_insert_Some.
  - rewrite Ek in Hi. injection Hi as <-. apply list_lookup_insert_eq. by eapply lookup_lt_Some.
  - rewrite list_lookup_insert_ne; [by apply (Hb m)|]. intros ->. apply Hne. by eapply NoDup_lookup.
Qed.

(** [enqueue] appends the buffer to the queue. *)
Lemma enqueue_run s l bs i b c : pending s l bs -> i ∉ l -> k_bufs s !! i = Some b -> (length l <= HEAD)%nat -> l <> [] -> b_blockno b < FSSIZE ->
  exists s1 bs', enqueue i c s = Done tt c s1 /\ pending s1 (l ++ [i]) bs' /\ unqueued <$> bs' = unqueued <$> (bs ++ [b]) /\
    k_ideq s1 = k_ideq s /\ contents s1 = contents s /\ k_procs s1 = k_procs s /\ k_bufs s1 !! i = Some (unqueued b).
Proof.
  intros [P1 P2 P3 P4 P5] Hi Eb Hlen Hne Hr. destruct l as [|j l]; [done|]. pose proof P1 as [Ej _].
  set (s0 := set_k_bufs (<[i := unqueued b]> (k_bufs s)) s).
  assert (Hi0 : k_bufs s0 !! i = Some (unqueued b)) by (apply list_lookup_insert_eq; by eapply lookup_lt_Some).
  assert (Hc0 : chain (k_bufs s0) (Some j) (j :: l)) by (rewrite <- Ej; by apply queue_insert).
  destruct (append_run i (unqueued b) c s0 Hi0 eq_refl l j (S HEAD) Hc0 P3 Hi) as (k & bk & E & Hk & Ek & Hc); [cbn in Hlen; lia|].
  assert (Hki : k <> i) by (intros ->; done).
  assert (P2' : Forall2 (fun i b => k_bufs s0 !! i = Some b) (j :: l) bs).
  { apply Forall2_same_length_lookup in P2 as [Hl Hb]. apply Forall2_same_length_lookup. split; [done|]. intros m x y Hx Hy.
    cbn. rewrite list_lookup_insert_ne; [by apply (Hb m)|]. intros ->. apply Hi. by eapply list_elem_of_lookup_2. }
  destruct (Forall2_update (k_bufs s0) (j :: l) bs k (set_b_qnext (Some i) bk) bk P2' P3 Hk Ek) as (n & En & _ & Hb').
  set (s1 := set_k_bufs (<[k := set_b_qnext (Some i) bk]> (k_bufs s0)) s0).
  assert (Hi1 : k_bufs s1 !! i = Some (unqueued b)) by (cbn; rewrite list_lookup_insert_ne by done; exact Hi0).
  exists s1, (<[n := set_b_qnext (Some i) bk]> bs ++ [unqueued b]). split; [|split; [|split; [|by split]]].
  - unfold enqueue, upd_buf. rewrite (bind_elem_upd _ _ i b) by done. rewrite bind_gets. cbn [k_ideq set_k_bufs]. rewrite Ej. exact E.
  - split.
    + cbn [k_ideq set_k_bufs s1 s0]. rewrite Ej. exact Hc.
    + apply Forall2_app; [exact Hb'|]. by repeat constructor.
    + apply NoDup_app. split; [done|]. split; [set_solver|apply NoDup_singleton].
    + apply Forall_app. split; [|by repeat constructor]. apply Forall_insert; [done|]. change (b_blockno bk < FSSIZE). exact (Forall_lookup_1 _ _ _ _ P4 En).
    + intros b0 H0 Hw. destruct bs as [|b1 bs]; [by rewrite lookup_nil in En|]. destruct n as [|n]; cbn in H0; injection H0 as <-.
      * cbn in En. injection En as ->. apply (P5 bk eq_refl Hw).
      * by apply (P5 b1).
  - rewrite !fmap_app, list_fmap_insert. f_equal. apply list_insert_id. by rewrite list_lookup_fmap, En.
Qed.

Lemma satisfied_complete d b : satisfied (complete d b) = true.
Proof.
  unfold satisfied, complete. cbn [b_flags set_b_flags]. rewrite <- Z.land_assoc. change (Z.land (Z.lnot B_DIRTY) (Z.lor B_VALID B_DIRTY)) with B_VALID.
  apply Z.eqb_eq, Z.bits_inj'. intros n _. rewrite Z.land_spec, Z.lor_spec. destruct (Z.testbit B_VALID n); [by rewrite orb_true_r|by rewrite andb_false_r].
Qed.

Lemma serve_snoc b ok rs : forall ds, serve (rs ++ [(b, ok)]) ds =
  (fst (serve rs ds) ++ [received ok b (snd (serve rs ds))], if is_write b then stored b (snd (serve rs ds)) else snd (serve rs ds)).
Proof.
  unfold received. induction rs as [|[b0 ok0] rs IH]; intros ds; cbn [app serve]; [by destruct (is_write b)|].
  destruct (is_write b0); rewrite IH; by destruct (serve rs _).
Qed.

Lemma serve_length rs : forall ds, length (fst (serve rs ds)) = length rs.
Proof.
  induction rs as [|[b ok] rs IH]; intros ds; cbn [serve]; [done|]. destruct (is_write b).
  - specialize (IH (stored b ds)). destruct (serve rs _). cbn in *. by rewrite IH.
  - specialize (IH ds). destruct (serve rs ds). cbn in *. by rewrite IH.
Qed.

(** The sleeper on one buffer is not woken for the others. *)
Lemma wake_other i j pr : i <> j -> wake_one (chan_buf j) (asleep (chan_buf i) pr) = asleep (chan_buf i) pr.
Proof.
  intros N. unfold wake_one. cbn. rewrite (proj2 (Z.eqb_neq _ _)) by (unfold chan_buf; lia). by rewrite andb_false_r.
Qed.

Lemma all_woken_waits l i ps p pr : i ∉ l -> ps !! p = Some (asleep (chan_buf i) pr) -> all_woken l ps !! p = Some (asleep (chan_buf i) pr).
Proof.
  unfold all_woken. revert ps. induction l as [|j l IH]; intros ps Hi E; cbn [foldl]; [done|]. apply IH; [set_solver|].
  rewrite list_lookup_fmap, E. cbn. f_equal. apply wake_other. set_solver.
Qed.

(** The request of a process that runs, up to its sleep. *)
Section request.
Context (s : kernel) (l : list nat) (bs : list buf) (i : nat) (b : buf) (c : ctx) (me : nat) (pr : proc).
Context (Hp : pending s l bs) (Hi : i ∉ l) (Eb : k_bufs s !! i = Some b) (Hlen : (length l <= HEAD)%nat) (Hr : b_blockno b < FSSIZE).
Context (Hh : held c = ∅) (Hrun : runs c s me pr) (Hlk : b_lock b = SleepLock true (p_pid pr)) (Hsat : satisfied b = false).
Context (Hdev : b_dev b = 0 \/ k_havedisk1 s = true).

(** [iderw] is what it does to the queue, and a sleep. *)
Lemma iderw_sleeps s0 s1 (c' := Ctx ({[idelock]} ∪ held c) (cur c)) : enqueue i c' s = Done tt c' s0 ->
  when (bool_decide (k_ideq s0 = Some i)) (idestart (k_ideq s0)) c' s0 = Done tt c' s1 ->
  k_bufs s1 !! i = Some (unqueued b) -> k_procs s1 = k_procs s -> ide_iderw i c s = Sleep (chan_buf i) (slept me (chan_buf i) s1).
Proof using Eb Hh Hrun Hlk Hsat Hdev.
  intros E0 E1 Ei Ep. assert (Hnb : forall lk, lk ∉ held c) by (intros lk; rewrite Hh; apply not_elem_of_empty).
  unfold ide_iderw. erewrite bind_holdingsleep; [|exact Hrun|exact Eb|apply Hnb]. rewrite Hlk. cbn [sl_locked sl_pid andb]. rewrite Z.eqb_refl. cbn [negb].
  unfold buf_at. rewrite (bind_elem_at _ _ b) by done. rewrite Hsat, bind_gets.
  assert (Ed : negb (b_dev b =? 0) && negb (k_havedisk1 s) = false) by (destruct Hdev as [->| ->]; [done|by rewrite andb_false_r]). rewrite Ed.
  rewrite bind_acquire by apply Hnb. rewrite (bind_Done _ _ _ _ _ _ _ E0), bind_gets, (bind_Done _ _ _ _ _ _ _ E1).
  rewrite (bind_elem_at _ _ (unqueued b)) by done. change (satisfied (unqueued b)) with (satisfied b). rewrite Hsat.
  apply (sleep_run _ _ me pr); [|cbn; rewrite Hh; set_solver|done]. destruct Hrun as [H1 H2]. split; [done|]. by rewrite Ep.
Qed.

Lemma ide_iderw_run : exists s1 bs', ide_iderw i c s = Sleep (chan_buf i) (slept me (chan_buf i) s1) /\ pending s1 (l ++ [i]) bs' /\
  unqueued <$> bs' = unqueued <$> (bs ++ [b]) /\ k_procs s1 = k_procs s /\
  forall oks, oks <> [] -> serve (zip bs' oks) (contents s1) = serve (zip (bs ++ [b]) oks) (contents s).
Proof using All.
  destruct (decide (l = [])) as [El|Hne].
  - pose proof Hp as [P1 P2 _ _ _]. rewrite El in P1, P2. apply Forall2_nil_inv_l in P2 as Ebs. cbn in P1. rewrite El, Ebs. cbn [app].
    set (s0 := set_k_ideq (Some i) (set_k_bufs (<[i := unqueued b]> (k_bufs s)) s)).
    assert (Ei : k_bufs s0 !! i = Some (unqueued b)) by (apply list_lookup_insert_eq; by eapply lookup_lt_Some).
    set (s1 := started (Some (unqueued b)) s0).
    destruct (started_rest (Some (unqueued b)) s0) as (B1 & Q1 & Pr1). fold s1 in B1, Q1, Pr1. exists s1, [unqueued b]. split; [|split; [|split; [done|split; [done|]]]].
    + apply (iderw_sleeps s0); [| |by rewrite B1|done].
      * unfold enqueue, upd_buf. rewrite (bind_elem_upd _ _ i b) by done. rewrite bind_gets. cbn [k_ideq set_k_bufs]. by rewrite P1.
      * cbn [k_ideq set_k_ideq s0]. rewrite bool_decide_eq_true_2 by done. by apply idestart_run.
    + split; [|rewrite B1; by repeat constructor|apply NoDup_singleton|by repeat constructor|].
      * rewrite B1, Q1. cbn. split; [done|]. by exists (unqueued b).
      * intros b0 [= <-] Hw. unfold s1. rewrite started_contents, Hw. unfold stored. by rewrite at_put, lookup_insert_eq.
    + intros oks Hoks. change (contents s) with (contents s0). rewrite <- (serve_unqueued [unqueued b] [b]) by done.
      destruct (serve_started [unqueued b] oks s0) as [E|]; [exact E|done].
  - destruct (enqueue_run s l bs i b (Ctx ({[idelock]} ∪ held c) (cur c)) Hp Hi Eb Hlen Hne Hr) as (s1 & bs' & E0 & Hp1 & Hu & Q1 & D1 & Pr1 & B1).
    exists s1, bs'. split; [|split; [done|split; [done|split; [done|intros oks _; by rewrite D1; apply serve_unqueued]]]].
    destruct l as [|j l']; [done|]. pose proof (pe_chain _ _ _ Hp) as [Ej _].
    apply (iderw_sleeps s1); [exact E0|rewrite Q1, Ej, bool_decide_eq_false_2 by set_solver; done|done|done].
Qed.
End request.


(** Buffer 1 reads the block of drive 1 that buffer 0 is writing. *)
Definition ex_writer : buf := Buf B_DIRTY 1 5 (SleepLock true 2) 1 0 0 None [1; 2; 3].
Definition ex_reader : buf := Buf 0 1 5 (SleepLock true 1) 1 0 0 None [].
Definition ex_disk_busy : kernel :=
  set_k_havedisk1 true (set_k_ideq (Some 0%nat) (set_k_disk (Disk 10 {[5 := [1; 2; 3]]} []) (set_k_bufs [ex_writer; ex_reader] ex_kernel))).

