(* ===== verification/Log.v ===== *)
(** * The write-ahead log (src/log.c) *)

From S2P Require Import Prelude Layout CString Spinlock Kalloc State Sched Sleeplock Bio.

Definition log_lock : lockid := ("log"%string, 0).

(** [log.lh.block[i]], with the bounds of the array. *)
Definition log_block (i : Z) : M kernel Z :=
  l ← get_log;
  match l_block l !! Z.to_nat i with
  | Some b => if i <? 0 then undef "log.lh.block" else mret b
  | None => undef "log.lh.block"
  end.

Definition set_log_block (i v : Z) : M kernel unit :=
  if (i <? 0) || (i >=? LOGSIZE) then undef "log.lh.block"
  else upd_log (fun l => set_l_block (<[Z.to_nat i := v]> (l_block l)) l).

Definition set_data (b : nat) (d : list Z) : M kernel unit := upd_buf b (set_b_data d).

Section driver.
Context `{DiskDriver}.

(** [for (tail = 0; tail < log.lh.n; tail++)] of [install_trans]. *)
Fixpoint install_loop (n : nat) (tail : Z) : M kernel unit :=
  match n with
  | O => mret tt
  | S n' =>
    l ← get_log;
    lbuf ← bread (l_dev l) (l_start l + tail + 1);
    dst ← log_block tail;
    dbuf ← bread (l_dev l) dst;
    lb ← buf_at lbuf;
    set_data dbuf (b_data lb);;
    bwrite dbuf;;
    brelse lbuf;;
    brelse dbuf;;
    install_loop n' (tail + 1)
  end.

Definition install_trans : M kernel unit :=
  l ← get_log; install_loop (Z.to_nat (l_n l)) 0.

(** The header block: the count, then the block numbers. *)
Fixpoint read_head_loop (n : nat) (i : Z) (data : list Z) : M kernel unit :=
  match n with
  | O => mret tt
  | S n' => set_log_block i (i32 (get32 data (4 + 4 * i)));; read_head_loop n' (i + 1) data
  end.

Definition read_head : M kernel unit :=
  l ← get_log;
  b ← bread (l_dev l) (l_start l);
  bp ← buf_at b;
  let n := i32 (get32 (b_data bp) 0) in
  upd_log (set_l_n n);;
  read_head_loop (Z.to_nat n) 0 (b_data bp);;
  brelse b.

Fixpoint write_head_loop (n : nat) (i : Z) (b : nat) : M kernel unit :=
  match n with
  | O => mret tt
  | S n' =>
    v ← log_block i;
    bp ← buf_at b;
    set_data b (put32 (b_data bp) (4 + 4 * i) (u32 v));;
    write_head_loop n' (i + 1) b
  end.

Definition write_head : M kernel unit :=
  l ← get_log;
  b ← bread (l_dev l) (l_start l);
  bp ← buf_at b;
  set_data b (put32 (b_data bp) 0 (u32 (l_n l)));;
  write_head_loop (Z.to_nat (l_n l)) 0 b;;
  bwrite b;;
  brelse b.

Definition recover_from_log : M kernel unit :=
  read_head;;
  install_trans;;
  upd_log (set_l_n 0);;
  write_head.

(** [sizeof(struct logheader)] *)
Definition logheader_size : Z := 4 + 4 * LOGSIZE.

(** The fields of the super block that [readsb] copies out of block 1. *)
Definition decode_sb (d : list Z) : superblock :=
  SuperBlock (get32 d 0) (get32 d 4) (get32 d 8) (get32 d 12) (get32 d 16) (get32 d 20) (get32 d 24).

Definition readsb (dev : Z) : M kernel superblock :=
  bp ← bread dev 1;
  b ← buf_at bp;
  brelse bp;;
  mret (decode_sb (b_data b)).

Definition initlog (dev : Z) : M kernel unit :=
  if logheader_size >=? BSIZE then panic "initlog: too big logheader" else
  sb ← readsb dev;
  upd_log (fun l => set_l_dev dev (set_l_size (i32 (sb_nlog sb)) (set_l_start (i32 (sb_logstart sb)) l)));;
  recover_from_log.

Fixpoint write_log_loop (n : nat) (tail : Z) : M kernel unit :=
  match n with
  | O => mret tt
  | S n' =>
    l ← get_log;
    to ← bread (l_dev l) (l_start l + tail + 1);
    src ← log_block tail;
    from ← bread (l_dev l) src;
    fb ← buf_at from;
    set_data to (b_data fb);;
    bwrite to;;
    brelse from;;
    brelse to;;
    write_log_loop n' (tail + 1)
  end.

Definition write_log : M kernel unit :=
  l ← get_log; write_log_loop (Z.to_nat (l_n l)) 0.

Definition commit : M kernel unit :=
  l ← get_log;
  when (l_n l >? 0)
    (write_log;;
     write_head;;
     install_trans;;
     upd_log (set_l_n 0);;
     write_head).

(** A process that sleeps in the [while(1)] starts it again when woken. *)
Definition begin_op : M kernel unit :=
  acquire log_lock;;
  l ← get_log;
  if l_committing l then sleep chan_log log_lock
  else if l_n l + (l_outstanding l + 1) * MAXOPBLOCKS >? LOGSIZE then sleep chan_log log_lock
  else
    upd_log (set_l_outstanding (l_outstanding l + 1));;
    release log_lock.

Definition end_op : M kernel unit :=
  acquire log_lock;;
  upd_log (fun l => set_l_outstanding (l_outstanding l - 1) l);;
  l ← get_log;
  if l_committing l then panic "log.committing" else
  let do_commit := l_outstanding l =? 0 in
  (if do_commit then upd_log (set_l_committing true) else wakeup chan_log);;
  release log_lock;;
  when do_commit
    (commit;;
     acquire log_lock;;
     upd_log (set_l_committing false);;
     wakeup chan_log;;
     release log_lock).
End driver.

(** [for (i = 0; i < log.lh.n; i++)]: the slot of [blockno], or the first free one. *)
Fixpoint absorb (n : nat) (i : Z) (blocks : list Z) (blockno : Z) : Z :=
  match n with
  | O => i
  | S n' =>
    if u32 (default 0 (blocks !! Z.to_nat i)) =? blockno then i
    else absorb n' (i + 1) blocks blockno
  end.

Definition log_write (b : nat) : M kernel unit :=
  l ← get_log;
  if (l_n l >=? LOGSIZE) || (l_n l >=? l_size l - 1) then panic "too big a transaction" else
  if l_outstanding l <? 1 then panic "log_write outside of trans" else
  acquire log_lock;;
  bp ← buf_at b;
  l ← get_log;
  let i := absorb (Z.to_nat (l_n l)) 0 (l_block l) (b_blockno bp) in
  set_log_block i (i32 (b_blockno bp));;
  when (i =? l_n l) (upd_log (set_l_n (l_n l + 1)));;
  upd_buf b (fun bp => set_b_flags (Z.lor (b_flags bp) B_DIRTY) bp);;
  release log_lock.
