(* ===== verification/Journal.v ===== *)
(** * Crash safety of the log (src/log.c)

    A crash leaves the disk in one of the states it went through; the next boot
    runs [recover_from_log] on it.  The contents of the blocks after recovery
    are those before the transaction or those after it, whatever the moment of
    the crash. *)

From S2P Require Import Prelude Layout CString Spinlock Kalloc State Sched Sleeplock Bio Cache Log.

#[local] Opaque HEAD bread bwrite brelse binit view pending.

(** ** Copying a block *)

(** Block [b] has been written with [d], and nobody uses a buffer. *)
Record block_written (c : ctx) (me : nat) (pr : proc) (s s' : kernel) (b : Z) (d : list Z) : Prop := BlockWritten {
  bw_uses : uses (p_pid pr) ∅ s';
  bw_goes : goes_on c me pr s s';
  bw_disk : k_disk s' = disk_write b d (k_disk s);
  bw_view : forall b', view s' b' = if decide (b' = b) then d else view s b';
  bw_pending : forall b', pending s' b' = if decide (b' = b) then false else pending s b';
}.

Section copy.
Context `{SyncDisk} (c : ctx) (me : nat) (pr : proc) (Hh : held c = ∅) (Hst : p_state pr = RUNNING).

Lemma goes_set_buf s i bf : runs c s me pr -> goes_on c me pr s (set_buf i bf s).
Proof. by split. Qed.

Lemma core_facts b b' : core b = core b' -> b_data b = b_data b' /\ b_blockno b = b_blockno b' /\ dirty b = dirty b'.
Proof.
  intros E. split_and!; [exact (f_equal b_data E)|exact (f_equal b_blockno E)|by apply core_dirty].
Qed.

(** [memmove] into the buffer [j], [bwrite] of it. *)
Lemma write_buf_run s X j bj d : runs c s me pr -> uses (p_pid pr) X s -> (j < HEAD)%nat -> j ∈ X -> k_bufs s !! j = Some bj ->
  exists s', (forall B (k : unit -> M kernel B), (set_data j d ≫= fun _ => bwrite j ≫= k) c s = k tt c s') /\
    uses (p_pid pr) X s' /\ goes_on c me pr s s' /\ k_disk s' = disk_write (b_blockno bj) d (k_disk s) /\
    (forall b, view s' b = if decide (b = b_blockno bj) then d else view s b) /\
    (forall b, pending s' b = if decide (b = b_blockno bj) then false else pending s b) /\
    (forall i, i <> j -> k_bufs s' !! i = k_bufs s !! i) /\
    (exists bj', k_bufs s' !! j = Some bj' /\ b_data bj' = d /\ b_blockno bj' = b_blockno bj).
Proof using Hh H0.
  intros Hr [order Hc] Hj HX Hbj. pose proof (lookup_lt_Some _ _ _ Hbj) as Hlen.
  pose proof (owned_set_data s pr X order j bj Hc Hj HX Hbj d) as Hc1.
  pose proof (set_buf_lookup j (set_b_data d bj) s Hlen) as Hbj1.
  destruct (bwrite_spec c me pr Hh (set_buf j (set_b_data d bj) s) X j (set_b_data d bj)) as (E & Hu & Hv & Hp);
    [done|by exists order|done|done|done|].
  exists (flushed (set_buf j (set_b_data d bj) s) j (set_b_data d bj)). split.
  { intros B k. unfold set_data. erewrite bind_upd_buf_at by done. by erewrite bind_Done by exact E. }
  split; [done|]. split; [by split|]. split; [done|]. split; [|split; [|split]].
  - intros b. rewrite Hv. by apply (owned_view_data s pr X order).
  - intros b. rewrite Hp. cbn. case_decide; [done|]. by apply (owned_pending_data s pr X order).
  - intros i Hi. cbn. by rewrite !list_lookup_insert_ne.
  - eexists. split; [cbn; apply list_lookup_insert_eq; by rewrite length_insert|done].
Qed.

Lemma copy_tail_run s X i j bi bj : runs c s me pr -> uses (p_pid pr) X s -> (i < HEAD)%nat -> (j < HEAD)%nat -> i <> j ->
  i ∈ X -> j ∈ X -> (X ∖ {[i]}) ∖ {[j]} = ∅ -> k_bufs s !! i = Some bi -> k_bufs s !! j = Some bj ->
  b_blockno bi <> b_blockno bj -> (dirty bi = false -> b_data bi = rdblk (d_blocks (k_disk s)) (b_blockno bi)) ->
  exists s', (forall B (k : unit -> M kernel B),
      (set_data j (b_data bi) ≫= fun _ => bwrite j ≫= fun _ => brelse i ≫= fun _ => brelse j ≫= k) c s = k tt c s') /\
    block_written c me pr s s' (b_blockno bj) (b_data bi).
Proof using Hh Hst H0.
  intros Hr Hu Hi Hj Hij HXi HXj HX Hbi Hbj Hne Hcl.
  destruct (write_buf_run s X j bj (b_data bi) Hr Hu Hj HXj Hbj) as (s1 & E1 & Hu1 & Hg1 & Hd1 & Hv1 & Hp1 & Hoth & bj1 & Hbj1 & Hdj1 & Hnj1).
  assert (Hbi1 : k_bufs s1 !! i = Some bi) by (by rewrite Hoth).
  destruct (brelse_spec c me pr Hh s1 X i bi (proj2 Hg1) Hst Hu1 Hi HXi Hbi1) as (s2 & E2 & Hu2 & Hg2 & Hd2 & Hv2 & Hp2 & Hk2).
  { intros Hdt. rewrite Hd1. cbn. rewrite rdblk_insert, decide_False by done. by apply Hcl. }
  destruct (Hk2 j bj1) as (bj2 & Hbj2 & Hcore); [done|done|]. apply core_facts in Hcore as (Ecd & Ecn & _).
  destruct (brelse_spec c me pr Hh s2 (X ∖ {[i]}) j bj2 (proj2 Hg2) Hst Hu2 Hj) as (s3 & E3 & Hu3 & Hg3 & Hd3 & Hv3 & Hp3 & _).
  { apply elem_of_difference. split; [done|]. by rewrite elem_of_singleton. }
  { done. }
  { intros _. rewrite Hd2, Hd1. cbn. rewrite rdblk_insert, decide_True; congruence. }
  exists s3. split.
  { intros B k. rewrite E1. erewrite bind_Done by exact E2. by erewrite bind_Done by exact E3. }
  rewrite HX in Hu3. split; [done|eauto using goes_on_trans|congruence|..].
  - intros b. by rewrite Hv3, Hv2, Hv1.
  - intros b. by rewrite Hp3, Hp2, Hp1.
Qed.

(** The two buffers the log uses: that of log block [a], then that of block [b]. *)
Lemma bread_two s a b : runs c s me pr -> uses (p_pid pr) ∅ s -> 0 <= a < d_size (k_disk s) -> 0 <= b < d_size (k_disk s) ->
  a <> b -> pending s a = false ->
  (exists i bf, (i < HEAD)%nat /\ k_bufs s !! i = Some bf /\ dirty bf = false) ->
  (pending s b = true \/ forall b, pending s b = false) ->
  exists i j bi bj, let s1 := set_buf i bi s in let s2 := set_buf j bj s1 in
    bread ROOTDEV a c s = Done i c s1 /\ bread ROOTDEV b c s1 = Done j c s2 /\
    runs c s2 me pr /\ uses (p_pid pr) ({[j]} ∪ {[i]}) s2 /\ (i < HEAD)%nat /\ (j < HEAD)%nat /\ i <> j /\
    k_bufs s2 !! i = Some bi /\ k_bufs s2 !! j = Some bj /\
    b_blockno bi = a /\ b_blockno bj = b /\ b_data bi = view s a /\ b_data bj = view s b /\
    (dirty bi = false -> b_data bi = rdblk (d_blocks (k_disk s)) a) /\
    (dirty bj = false -> b_data bj = rdblk (d_blocks (k_disk s)) b) /\
    (forall b', view s2 b' = view s b') /\ (forall b', pending s2 b' = pending s b').
Proof using Hh H0.
  intros Hr Hu Ha Hb Hab Hpa (i0 & b0 & Hi0 & Hb0 & Hd0) Hroom.
  assert (Hno0 : forall b i bf, i ∈ (∅ : gset nat) -> k_bufs s !! i = Some bf -> b_blockno bf <> b)
    by (intros b' i bf Hi; by apply not_elem_of_empty in Hi).
  destruct (bread_spec c me pr Hh s ∅ a Hr Hu Ha (Hno0 a)) as (i & bi & Ei & Hi & _ & Hli & Hni & Hdi & Hti & Hui & Hvi & Hpi).
  { right. exists i0, b0. split; [done|]. split; [apply not_elem_of_empty|done]. }
  set (s1 := set_buf i bi s) in *. rewrite (right_id_L ∅ (∪)) in Hui.
  pose proof (set_buf_lookup i bi s Hli) as Hbi. fold s1 in Hbi.
  destruct (bread_spec c me pr Hh s1 {[i]} b) as (j & bj & Ej & Hj & Hji & Hlj & Hnj & Hdj & Htj & Huj & Hvj & Hpj).
  { exact Hr. } { done. } { done. }
  { intros k bk Hk%elem_of_singleton Hbk. subst k. assert (bk = bi) as -> by congruence. congruence. }
  { rewrite Hpi. destruct Hroom as [Hp|Hp]; [by left|right].
    set (k := if decide (i = 0%nat) then 1%nat else 0%nat).
    assert (Hk : (k < HEAD)%nat /\ k <> i) by (unfold k; rewrite HEAD_value; case_decide; lia). destruct Hk as [Hk Hki].
    destruct (uses_buf _ _ _ k Hui Hk) as [bk Hbk]. exists k, bk. split; [done|].
    split; [by rewrite elem_of_singleton|]. split; [done|]. apply (not_pending_clean _ _ _ k bk Hui Hk Hbk). rewrite Hpi. apply Hp. }
  exists i, j, bi, bj. cbn zeta. fold s1. pose proof (set_buf_lookup j bj s1 Hlj) as Hbj.
  rewrite elem_of_singleton in Hji.
  assert (Hclean : forall x, pending s x = false -> view s x = rdblk (d_blocks (k_disk s)) x)
    by (intros x Hx; by apply (view_clean _ _ _ _ Hu Hx (Hno0 x))).
  split; [exact Ei|]. split; [exact Ej|]. split; [exact Hr|]. split; [exact Huj|]. split; [exact Hi|]. split; [exact Hj|].
  split; [exact (not_eq_sym Hji)|]. split; [|split; [exact Hbj|split; [exact Hni|split; [exact Hnj|split; [exact Hdi|]]]]].
  { cbn. by rewrite list_lookup_insert_ne. }
  split; [by rewrite Hdj, Hvi|]. split; [|split; [|split]].
  - intros Hdt. rewrite Hdi. apply Hclean. congruence.
  - intros Hdt. rewrite Hdj, Hvi. apply Hclean. rewrite <- Hpi. congruence.
  - intros b'. rewrite Hvj, Hvi. reflexivity.
  - intros b'. rewrite Hpj, Hpi. reflexivity.
Qed.
End copy.

(** ** The writes of the log *)

(** A write of a block. *)
Abbreviation write := (Z * list Z)%type.

Definition apply_writes (ws : list write) (d : disk) : disk := foldl (fun d '(b, x) => disk_write b x d) d ws.
Definition put_all (ws : list write) (d : gmap Z (list Z)) : gmap Z (list Z) := foldl (fun d '(b, x) => <[b := x]> d) d ws.

Lemma apply_writes_app ws ws' d : apply_writes (ws ++ ws') d = apply_writes ws' (apply_writes ws d).
Proof. apply foldl_app. Qed.

Lemma apply_writes_size ws d : d_size (apply_writes ws d) = d_size d.
Proof. unfold apply_writes. revert d. induction ws as [|[b x] ws IH]; intros d; [done|]. cbn. by rewrite IH. Qed.

(** The in-memory log: it starts at block [st] and records the blocks [bs]. *)
Record logged (l : logst) (st : Z) (bs : list Z) : Prop := Logged {
  lg_dev : l_dev l = ROOTDEV;
  lg_start : l_start l = st;
  lg_n : l_n l = Z.of_nat (length bs);
  lg_blocks : forall k b, bs !! k = Some b -> l_block l !! k = Some b;
}.

(** The blocks [bs] lie on a disk of [sz] blocks outside the log, which has a
    header and, as mkfs lays it out, [LOGSIZE] blocks with it. *)
Record placed (sz st : Z) (bs : list Z) : Prop := Placed {
  pl_start : 0 <= st;
  pl_end : st + LOGSIZE <= sz;
  pl_size : sz <= 2 ^ 31;
  pl_length : Z.of_nat (length bs) < LOGSIZE;
  pl_nodup : NoDup bs;
  pl_home : forall b, b ∈ bs -> 0 <= b < sz /\ (b < st \/ st + LOGSIZE <= b);
}.

(** The header block. *)
Fixpoint fill (d : list Z) (k : Z) (bs : list Z) : list Z :=
  match bs with [] => d | b :: bs' => fill (put32 d (4 + 4 * k) (u32 b)) (k + 1) bs' end.
Definition head_block (d : list Z) (bs : list Z) : list Z := fill (put32 d 0 (u32 (Z.of_nat (length bs)))) 0 bs.

(** What a run does that only writes the blocks [ws]. *)
Record wrote (c : ctx) (me : nat) (pr : proc) (s s' : kernel) (ws : list write) : Prop := Wrote {
  wr_uses : uses (p_pid pr) ∅ s';
  wr_goes : goes_on c me pr s s';
  wr_disk : k_disk s' = apply_writes ws (k_disk s);
  wr_view : forall b, view s' b = default (view s b) (put_all ws ∅ !! b);
  wr_pending : forall b, pending s' b = if decide (b ∈ ws.*1) then false else pending s b;
}.

Lemma put_all_lookup ws d b : put_all ws d !! b = match put_all ws ∅ !! b with Some x => Some x | None => d !! b end.
Proof.
  revert d. induction ws as [|[b' x] ws IH] using rev_ind; intros d; [done|]. unfold put_all. rewrite !foldl_app. cbn.
  fold (put_all ws d) (put_all ws ∅). destruct (decide (b = b')) as [->|Hne]; [by rewrite !lookup_insert_eq|].
  rewrite !lookup_insert_ne by done. apply IH.
Qed.

Lemma put_all_app ws ws' d : put_all (ws ++ ws') d = put_all ws' (put_all ws d).
Proof. apply foldl_app. Qed.

Lemma put_all_None ws d b : b ∉ ws.*1 -> put_all ws d !! b = d !! b.
Proof.
  unfold put_all. revert d. induction ws as [|[b' x] ws IH]; intros d Hb; [done|]. cbn in *. apply not_elem_of_cons in Hb as [Hne Hb].
  rewrite IH by done. by rewrite lookup_insert_ne.
Qed.

Lemma apply_writes_blocks ws d : d_blocks (apply_writes ws d) = put_all ws (d_blocks d).
Proof. unfold apply_writes, put_all. revert d. induction ws as [|[b x] ws IH]; intros d; [done|]. cbn. by rewrite IH. Qed.

Lemma wrote_refl c me pr s : uses (p_pid pr) ∅ s -> runs c s me pr -> wrote c me pr s s [].
Proof. intros Hu Hr. split; [exact Hu|by split|reflexivity|reflexivity|reflexivity]. Qed.

Lemma wrote_trans c me pr s s1 s2 ws ws' : wrote c me pr s s1 ws -> wrote c me pr s1 s2 ws' -> wrote c me pr s s2 (ws ++ ws').
Proof.
  intros [H1 H2 H3 H4 H5] [H1' H2' H3' H4' H5']. split; [exact H1'|eapply goes_on_trans; [exact H2|exact H2']|..].
  - rewrite apply_writes_app, <- H3. exact H3'.
  - intros b. rewrite H4', H4, put_all_app, (put_all_lookup ws' (put_all ws ∅)). by destruct (put_all ws' ∅ !! b).
  - intros b. rewrite H5', H5, fmap_app. destruct (decide (b ∈ ws'.*1)), (decide (b ∈ ws.*1)), (decide (b ∈ ws.*1 ++ ws'.*1));
      try reflexivity; set_solver.
Qed.

Lemma wrote_block c me pr s s' b d : block_written c me pr s s' b d -> wrote c me pr s s' [(b, d)].
Proof.
  intros [H1 H2 H3 H4 H5]. split; [exact H1|exact H2|exact H3|..].
  - intros b'. rewrite H4. cbn. destruct (decide (b' = b)) as [->|Hne]; [by rewrite lookup_insert_eq|by rewrite lookup_insert_ne].
  - intros b'. rewrite H5. cbn. destruct (decide (b' = b)), (decide (b' ∈ [b])); try reflexivity; set_solver.
Qed.

Lemma rest_log s s' : rest s' = rest s -> k_log s' = k_log s.
Proof. intros E. exact (f_equal k_log E). Qed.

Lemma wrote_log c me pr s s' ws : wrote c me pr s s' ws -> k_log s' = k_log s.
Proof. intros Hw. apply rest_log, (wr_goes _ _ _ _ _ _ Hw). Qed.

Lemma wrote_size c me pr s s' ws : wrote c me pr s s' ws -> d_size (k_disk s') = d_size (k_disk s).
Proof. intros Hw. by rewrite (wr_disk _ _ _ _ _ _ Hw), apply_writes_size. Qed.

Lemma bind_get_log {B} (k : logst -> M kernel B) c s : (get_log ≫= k) c s = k (k_log s) c s.
Proof. reflexivity. Qed.

Lemma bind_log_block {B} (n : nat) b (k : Z -> M kernel B) c s : l_block (k_log s) !! n = Some b ->
  (log_block (Z.of_nat n) ≫= k) c s = k b c s.
Proof.
  intros E. unfold log_block. autorewrite with run. rewrite bind_get_log, Nat2Z.id, E.
  rewrite (proj2 (Z.ltb_ge _ _)) by lia. reflexivity.
Qed.

(** Copies to the log blocks from [a] on, and from them to the blocks [l]. *)
Fixpoint log_writes (a : Z) (f : Z -> list Z) (l : list Z) : list write :=
  match l with [] => [] | b :: l' => (a, f b) :: log_writes (a + 1) f l' end.
Fixpoint home_writes (a : Z) (f : Z -> list Z) (l : list Z) : list write :=
  match l with [] => [] | b :: l' => (b, f a) :: home_writes (a + 1) f l' end.

Lemma log_writes_ext a f g l : (forall b, b ∈ l -> f b = g b) -> log_writes a f l = log_writes a g l.
Proof.
  revert a. induction l as [|b l IH]; intros a H; cbn; [done|]. rewrite H by (apply elem_of_cons; by left).
  f_equal. apply IH. intros x Hx. apply H. apply elem_of_cons. by right.
Qed.

Lemma home_writes_ext a f g l : (forall x, a <= x < a + Z.of_nat (length l) -> f x = g x) -> home_writes a f l = home_writes a g l.
Proof.
  revert a. induction l as [|b l IH]; intros a H; cbn; [done|]. cbn in H. rewrite H by lia.
  f_equal. apply IH. intros x Hx. apply H. lia.
Qed.

(** The cache has room for the log to work. *)
Definition roomy (s : kernel) : Prop :=
  exists L : list Z, (length L < HEAD)%nat /\ forall b, pending s b = true -> b ∈ L.

Lemma roomy_clean pid s : uses pid ∅ s -> roomy s -> exists i bf, (i < HEAD)%nat /\ k_bufs s !! i = Some bf /\ dirty bf = false.
Proof. intros Hu (L & Hlen & HL). by apply (clean_exists pid ∅ s L). Qed.

Lemma roomy_wrote c me pr s s' ws : wrote c me pr s s' ws -> roomy s -> roomy s'.
Proof.
  intros Hw (L & Hlen & HL). exists L. split; [exact Hlen|]. intros b Hb. rewrite (wr_pending _ _ _ _ _ _ Hw) in Hb.
  case_decide; [discriminate|]. by apply HL.
Qed.

Section loops.
Context `{SyncDisk} (c : ctx) (me : nat) (pr : proc) (Hh : held c = ∅) (Hst : p_state pr = RUNNING).
Context (sz st : Z) (bs : list Z) (Hpl : placed sz st bs).

(** The state in which the log works. *)
Record working (s : kernel) : Prop := Working {
  wk_runs : runs c s me pr;
  wk_uses : uses (p_pid pr) ∅ s;
  wk_log : logged (k_log s) st bs;
  wk_size : d_size (k_disk s) = sz;
  wk_room : roomy s;
  wk_clean : forall a, st <= a < st + LOGSIZE -> pending s a = false;
}.

Lemma working_wrote s s' ws : working s -> wrote c me pr s s' ws -> working s'.
Proof using Type.
  intros [H1 H2 H3 H4 H5 H6] Hw. split.
  - apply Hw.
  - apply Hw.
  - by rewrite (wrote_log _ _ _ _ _ _ Hw).
  - by rewrite (wrote_size _ _ _ _ _ _ Hw).
  - by eapply roomy_wrote.
  - intros a Ha. rewrite (wr_pending _ _ _ _ _ _ Hw). case_decide; [reflexivity|by apply H6].
Qed.

(** The position of [b], the [k]-th logged block, and of its copy. *)
Lemma slot_facts pre b l : bs = pre ++ b :: l ->
  let a := st + 1 + Z.of_nat (length pre) in
  st <= a < st + LOGSIZE /\ 0 <= a < sz /\ 0 <= b < sz /\ a <> b /\ (b < st \/ st + LOGSIZE <= b) /\ b ∉ l.
Proof using Hpl.
  intros E a. destruct Hpl as [H1 H2 H3 H4 H5 H6]. rewrite E, length_app in H4. cbn in H4.
  destruct (H6 b) as [Hb Hout]; [rewrite E; apply elem_of_app; right; apply elem_of_cons; by left|].
  rewrite E in H5. apply NoDup_app in H5 as (_ & _ & [Hbl _]%NoDup_cons). unfold a. split_and!; try lia. done.
Qed.

Lemma logged_lookup s pre b l : working s -> bs = pre ++ b :: l -> l_block (k_log s) !! length pre = Some b.
Proof using Type.
  intros Hw E. apply (lg_blocks _ _ _ (wk_log _ Hw)). rewrite E, lookup_app_r by lia. by rewrite Nat.sub_diag.
Qed.

Lemma write_log_loop_run l : forall pre s, bs = pre ++ l -> working s -> (forall b, b ∈ l -> pending s b = true) ->
  exists s', write_log_loop (length l) (Z.of_nat (length pre)) c s = Done tt c s' /\
    wrote c me pr s s' (log_writes (st + 1 + Z.of_nat (length pre)) (view s) l).
Proof using Hh Hst H0 Hpl.
  induction l as [|b l IH]; intros pre s E Hw Hp; cbn [write_log_loop length log_writes].
  { exists s. split; [reflexivity|]. apply wrote_refl; apply Hw. }
  pose proof (slot_facts pre b l E) as (Ha & Has & Hbs & Hab & Hout & Hbl). set (a := st + 1 + Z.of_nat (length pre)) in *.
  destruct (wk_log _ Hw) as [Hdev Hstart _ _].
  destruct (bread_two c me pr Hh s a b) as (i & j & bi & bj & Ei & Ej & Hr2 & Hu2 & Hi & Hj & Hij & Hbi & Hbj & Hni & Hnj & Hdi & Hdj & Hci & Hcj & Hv2 & Hp2).
  { apply Hw. } { apply Hw. } { by rewrite (wk_size _ Hw). } { by rewrite (wk_size _ Hw). } { exact Hab. }
  { by apply (wk_clean _ Hw). } { eapply roomy_clean; apply Hw. } { left. apply Hp. apply elem_of_cons. by left. }
  set (s2 := set_buf j bj (set_buf i bi s)) in *.
  destruct (copy_tail_run c me pr Hh Hst s2 ({[j]} ∪ {[i]}) j i bj bi) as (s3 & E3 & Hbw);
    [exact Hr2|exact Hu2|exact Hj|exact Hi|exact (not_eq_sym Hij)|set_solver|set_solver|set_solver|exact Hbj|exact Hbi|congruence|rewrite Hnj; exact Hcj|].
  assert (Hw3 : wrote c me pr s s3 [(a, view s b)]).
  { destruct (wrote_block _ _ _ _ _ _ _ Hbw) as [G1 G2 G3 G4 G5]. rewrite Hni, Hdj in *. split; [exact G1|split; [exact (proj1 G2)|exact (proj2 G2)]|exact G3|..].
    - intros x. rewrite G4, Hv2. reflexivity.
    - intros x. rewrite G5, Hp2. reflexivity. }
  assert (Hview : forall x, x <> a -> view s3 x = view s x).
  { intros x Hx. rewrite (wr_view _ _ _ _ _ _ Hw3). cbn. by rewrite lookup_insert_ne, lookup_empty by done. }
  destruct (IH (pre ++ [b]) s3) as (s4 & E4 & Hw4).
  { rewrite <- app_assoc. exact E. } { by eapply working_wrote. }
  { intros x Hx. rewrite (wr_pending _ _ _ _ _ _ Hw3), decide_False; [apply Hp; apply elem_of_cons; by right|].
    cbn. rewrite list_elem_of_singleton. intros ->. destruct (pl_home _ _ _ Hpl a) as [_ Hh']; [rewrite E; apply elem_of_app; right; apply elem_of_cons; by right|lia]. }
  exists s4. split.
  - rewrite bind_get_log, Hdev, Hstart. replace (st + Z.of_nat (length pre) + 1) with a by (unfold a; lia).
    erewrite bind_Done by exact Ei. rewrite (bind_log_block _ b) by exact (logged_lookup s pre b l Hw E). erewrite bind_Done by exact Ej.
    erewrite bind_buf_at by exact Hbj. rewrite E3. rewrite length_app in E4. cbn [length] in E4.
    by replace (Z.of_nat (length pre) + 1) with (Z.of_nat (length pre + 1)) by lia.
  - rewrite length_app in Hw4. cbn [length] in Hw4. replace (st + 1 + Z.of_nat (length pre + 1)) with (a + 1) in Hw4 by (unfold a; lia).
    rewrite (log_writes_ext _ (view s3) (view s)) in Hw4.
    + exact (wrote_trans _ _ _ _ _ _ _ _ Hw3 Hw4).
    + intros x Hx. apply Hview. intros ->. destruct (pl_home _ _ _ Hpl a) as [_ Hh']; [rewrite E; apply elem_of_app; right; apply elem_of_cons; by right|lia].
Qed.

Lemma install_loop_run l : forall pre s, bs = pre ++ l -> working s ->
  ((forall b, b ∈ l -> pending s b = true) \/ (forall b, pending s b = false)) ->
  exists s', install_loop (length l) (Z.of_nat (length pre)) c s = Done tt c s' /\
    wrote c me pr s s' (home_writes (st + 1 + Z.of_nat (length pre)) (view s) l).
Proof using Hh Hst H0 Hpl.
  induction l as [|b l IH]; intros pre s E Hw Hp; cbn [install_loop length home_writes].
  { exists s. split; [reflexivity|]. apply wrote_refl; apply Hw. }
  pose proof (slot_facts pre b l E) as (Ha & Has & Hbs & Hab & Hout & Hbl). set (a := st + 1 + Z.of_nat (length pre)) in *.
  destruct (wk_log _ Hw) as [Hdev Hstart _ _].
  destruct (bread_two c me pr Hh s a b) as (i & j & bi & bj & Ei & Ej & Hr2 & Hu2 & Hi & Hj & Hij & Hbi & Hbj & Hni & Hnj & Hdi & Hdj & Hci & Hcj & Hv2 & Hp2).
  { apply Hw. } { apply Hw. } { by rewrite (wk_size _ Hw). } { by rewrite (wk_size _ Hw). } { exact Hab. }
  { by apply (wk_clean _ Hw). } { eapply roomy_clean; apply Hw. }
  { destruct Hp as [Hp|Hp]; [left; apply Hp; apply elem_of_cons; by left|by right]. }
  set (s2 := set_buf j bj (set_buf i bi s)) in *.
  destruct (copy_tail_run c me pr Hh Hst s2 ({[j]} ∪ {[i]}) i j bi bj) as (s3 & E3 & Hbw);
    [exact Hr2|exact Hu2|exact Hi|exact Hj|exact Hij|set_solver|set_solver|set_solver|exact Hbi|exact Hbj|congruence|rewrite Hni; exact Hci|].
  assert (Hw3 : wrote c me pr s s3 [(b, view s a)]).
  { destruct (wrote_block _ _ _ _ _ _ _ Hbw) as [G1 G2 G3 G4 G5]. rewrite Hnj, Hdi in *. split; [exact G1|split; [exact (proj1 G2)|exact (proj2 G2)]|exact G3|..].
    - intros x. rewrite G4, Hv2. reflexivity.
    - intros x. rewrite G5, Hp2. reflexivity. }
  assert (Hview : forall x, x <> b -> view s3 x = view s x).
  { intros x Hx. rewrite (wr_view _ _ _ _ _ _ Hw3). cbn. by rewrite lookup_insert_ne, lookup_empty by done. }
  destruct (IH (pre ++ [b]) s3) as (s4 & E4 & Hw4).
  { rewrite <- app_assoc. exact E. } { by eapply working_wrote. }
  { destruct Hp as [Hp|Hp]; [left|right].
    - intros x Hx. rewrite (wr_pending _ _ _ _ _ _ Hw3), decide_False; [apply Hp; apply elem_of_cons; by right|].
      cbn. rewrite list_elem_of_singleton. by intros ->.
    - intros x. rewrite (wr_pending _ _ _ _ _ _ Hw3). case_decide; [reflexivity|apply Hp]. }
  exists s4. split.
  - rewrite bind_get_log, Hdev, Hstart. replace (st + Z.of_nat (length pre) + 1) with a by (unfold a; lia).
    erewrite bind_Done by exact Ei. rewrite (bind_log_block _ b) by exact (logged_lookup s pre b l Hw E). erewrite bind_Done by exact Ej.
    erewrite bind_buf_at by exact Hbi. rewrite E3. rewrite length_app in E4. cbn [length] in E4.
    by replace (Z.of_nat (length pre) + 1) with (Z.of_nat (length pre + 1)) by lia.
  - rewrite length_app in Hw4. cbn [length] in Hw4. replace (st + 1 + Z.of_nat (length pre + 1)) with (a + 1) in Hw4 by (unfold a; lia).
    rewrite (home_writes_ext _ (view s3) (view s)) in Hw4.
    + exact (wrote_trans _ _ _ _ _ _ _ _ Hw3 Hw4).
    + intros x Hx. apply Hview. pose proof (pl_length _ _ _ Hpl) as Hlen. rewrite E, length_app in Hlen. cbn in Hlen.
      unfold a in Hx. lia.
Qed.

(** Writing the header: the buffer is filled, then written. *)
Lemma write_head_loop_run l : forall pre s j bj B (k : unit -> M kernel B), bs = pre ++ l ->
  (forall n b, bs !! n = Some b -> l_block (k_log s) !! n = Some b) -> k_bufs s !! j = Some bj ->
  (write_head_loop (length l) (Z.of_nat (length pre)) j ≫= k) c s =
    k tt c (set_buf j (set_b_data (fill (b_data bj) (Z.of_nat (length pre)) l) bj) s).
Proof using Type.
  induction l as [|b l IH]; intros pre s j bj B k E Hlog Hbj; cbn [write_head_loop length fill].
  { autorewrite with run. unfold set_buf. rewrite list_insert_id; [by destruct s|]. rewrite Hbj. by destruct bj. }
  autorewrite with run.
  assert (Hk : l_block (k_log s) !! length pre = Some b).
  { apply Hlog. rewrite E, lookup_app_r by lia. by rewrite Nat.sub_diag. }
  rewrite (bind_log_block _ b) by exact Hk. autorewrite with run. erewrite bind_buf_at by exact Hbj. autorewrite with run.
  unfold set_data. erewrite bind_upd_buf_at by exact Hbj. pose proof (lookup_lt_Some _ _ _ Hbj) as Hlen.
  specialize (IH (pre ++ [b]) (set_buf j (set_b_data (put32 (b_data bj) (4 + 4 * Z.of_nat (length pre)) (u32 b)) bj) s) j
    (set_b_data (put32 (b_data bj) (4 + 4 * Z.of_nat (length pre)) (u32 b)) bj) B k).
  rewrite length_app in IH. cbn [length] in IH. replace (Z.of_nat (length pre) + 1) with (Z.of_nat (length pre + 1)) by lia.
  rewrite IH; [by rewrite set_buf_twice|by rewrite <- app_assoc|exact Hlog|by apply set_buf_lookup].
Qed.

Lemma write_head_run s : working s -> exists s', write_head c s = Done tt c s' /\
  wrote c me pr s s' [(st, head_block (view s st) bs)].
Proof using Hh Hst H0 Hpl.
  intros Hw. destruct (wk_log _ Hw) as [Hdev Hstart Hn Hblk]. pose proof Hpl as [P1 P2 P3 P4 P5 P6].
  assert (Hno : forall (i : nat) (bf : buf), i ∈ (∅ : gset nat) -> k_bufs s !! i = Some bf -> b_blockno bf <> st)
    by (intros i bf Hi; destruct (not_elem_of_empty _ Hi)).
  destruct (bread_spec c me pr Hh s ∅ st) as (j & bj & Ej & Hj & _ & Hlj & Hnj & Hdj & Htj & Huj & Hvj & Hpj).
  { apply Hw. } { apply Hw. } { rewrite (wk_size _ Hw). unfold LOGSIZE, MAXOPBLOCKS in *. lia. } { exact Hno. }
  { right. destruct (roomy_clean (p_pid pr) s) as (i & bf & Hi & Hbf & Hd); [apply Hw|apply Hw|]. exists i, bf.
    split; [exact Hi|]. split; [apply not_elem_of_empty|by split]. }
  rewrite (right_id_L ∅ (∪)) in Huj. set (s1 := set_buf j bj s) in *. pose proof (set_buf_lookup j bj s Hlj) as Hbj. fold s1 in Hbj.
  set (d := head_block (view s st) bs).
  destruct (write_buf_run c me pr Hh s1 {[j]} j bj d) as (s2 & E2 & Hu2 & Hg2 & Hd2 & Hv2 & Hp2 & _ & bj2 & Hbj2 & Hdj2 & Hnj2).
  { apply Hw. } { exact Huj. } { exact Hj. } { by apply elem_of_singleton. } { exact Hbj. }
  destruct (brelse_spec c me pr Hh s2 {[j]} j bj2 (proj2 Hg2) Hst Hu2 Hj) as (s3 & E3 & Hu3 & Hg3 & Hd3 & Hv3 & Hp3 & _).
  { by apply elem_of_singleton. } { exact Hbj2. }
  { intros _. rewrite Hd2. cbn. rewrite rdblk_insert, decide_True; congruence. }
  exists s3. split.
  - unfold write_head. rewrite bind_get_log, Hdev, Hstart. erewrite bind_Done by exact Ej. fold s1. erewrite bind_buf_at by exact Hbj.
    unfold set_data at 1. erewrite bind_upd_buf_at by exact Hbj. rewrite Hn, Nat2Z.id.
    rewrite (write_head_loop_run bs [] _ j (set_b_data (put32 (b_data bj) 0 (u32 (Z.of_nat (length bs)))) bj)); [|done|exact Hblk|].
    2:{ apply set_buf_lookup. unfold s1, set_buf. cbn. by rewrite length_insert. }
    specialize (E2 unit (fun _ => brelse j)). unfold set_data in E2. erewrite bind_upd_buf_at in E2 by exact Hbj.
    rewrite set_buf_twice. cbn [b_data set_b_data length]. rewrite Hdj. fold (head_block (view s st) bs). fold d.
    change (set_b_data d (set_b_data _ bj)) with (set_b_data d bj). cbv beta. etransitivity; [exact E2|exact E3].
  - apply wrote_block. rewrite difference_diag_L in Hu3. split.
    + exact Hu3.
    + eapply goes_on_trans; [|exact Hg3]. exact Hg2.
    + rewrite Hd3, Hd2, Hnj. reflexivity.
    + intros x. rewrite Hv3, Hv2, Hvj, Hnj. reflexivity.
    + intros x. rewrite Hp3, Hp2, Hpj, Hnj. reflexivity.
Qed.
End loops.

Lemma log_writes_lookup a f l d x : put_all (log_writes a f l) d !! x =
  if decide (a <= x < a + Z.of_nat (length l)) then f <$> l !! Z.to_nat (x - a) else d !! x.
Proof.
  revert a d. induction l as [|b l IH]; intros a d; cbn [log_writes length].
  - rewrite decide_False by lia. reflexivity.
  - unfold put_all. cbn [foldl]. fold (put_all (log_writes (a + 1) f l) (<[a := f b]> d)). rewrite IH.
    destruct (decide (x = a)) as [->|Hne].
    + rewrite decide_False, decide_True by lia. rewrite lookup_insert_eq. by replace (Z.to_nat (a - a)) with 0%nat by lia.
    + destruct (decide (a + 1 <= x < a + 1 + Z.of_nat (length l))) as [Hin|Hout].
      * rewrite decide_True by lia. by replace (Z.to_nat (x - a)) with (S (Z.to_nat (x - (a + 1)))) by lia.
      * rewrite decide_False by lia. by rewrite lookup_insert_ne.
Qed.

Lemma log_writes_fst a f l : Forall (fun x => a <= x < a + Z.of_nat (length l)) (log_writes a f l).*1.
Proof.
  revert a. induction l as [|b l IH]; intros a; cbn; [constructor|]. constructor; [lia|].
  eapply Forall_impl; [apply IH|]. cbn. intros; lia.
Qed.

Lemma home_writes_map a f g l : (forall k b, l !! k = Some b -> f (a + Z.of_nat k) = g b) ->
  home_writes a f l = (fun b => (b, g b)) <$> l.
Proof.
  revert a. induction l as [|b l IH]; intros a Hf; cbn; [reflexivity|]. f_equal.
  - rewrite <- (Hf 0%nat b) by done. by rewrite Z.add_0_r.
  - apply IH. intros k b' Hk. rewrite <- (Hf (S k) b') by done. by replace (a + Z.of_nat (S k)) with (a + 1 + Z.of_nat k) by lia.
Qed.

(** All writes of a commit of the blocks [bs] with the contents [f], when the
    header block is [h]. *)
Definition commit_writes (st : Z) (f : Z -> list Z) (h : list Z) (bs : list Z) : list write :=
  log_writes (st + 1) f bs ++ [(st, head_block h bs)] ++ ((fun b => (b, f b)) <$> bs) ++
  [(st, head_block (head_block h bs) [])].

Section commit.
Context `{SyncDisk} (c : ctx) (me : nat) (pr : proc) (Hh : held c = ∅) (Hst : p_state pr = RUNNING).
Context (sz st : Z) (bs : list Z) (Hpl : placed sz st bs).

Lemma placed_nil : placed sz st [].
Proof using Hpl.
  destruct Hpl as [P1 P2 P3 P4 P5 P6]. split; [exact P1|exact P2|exact P3|done|constructor|].
  intros b Hb. by apply elem_of_nil in Hb.
Qed.

(** [log.lh.n = 0] *)
Definition emptied (s : kernel) : kernel := set_k_log (set_l_n 0 (k_log s)) s.

Lemma emptied_pending s b : pending (emptied s) b = pending s b.
Proof using Type. by apply pending_frame. Qed.

Lemma emptied_view s b : view (emptied s) b = view s b.
Proof using Type. by apply view_frame. Qed.

Lemma emptied_working s : working c me pr sz st bs s -> working c me pr sz st [] (emptied s).
Proof using Type.
  intros [W1 [order Hc] W3 W4 (L & Hlen & HL) W6]. split; [exact W1| | |exact W4| |].
  - exists order. by apply (cache_frame _ _ s).
  - destruct W3 as [L1 L2 L3 L4]. by split.
  - exists L. split; [exact Hlen|]. intros b. rewrite emptied_pending. apply HL.
  - intros a Ha. rewrite emptied_pending. by apply W6.
Qed.

Lemma clear_log_run s : working c me pr sz st bs s -> exists s', write_head c (emptied s) = Done tt c s' /\
  wrote c me pr (emptied s) s' [(st, head_block (view s st) [])].
Proof using Hh Hst H0 Hpl.
  intros Hw. apply emptied_working in Hw. rewrite <- emptied_view. exact (write_head_run c me pr Hh Hst sz st [] placed_nil (emptied s) Hw).
Qed.

Lemma commit_run s : working c me pr sz st bs s -> bs <> [] -> (forall b, pending s b = true <-> b ∈ bs) ->
  exists s', commit c s = Done tt c s' /\ uses (p_pid pr) ∅ s' /\ runs c s' me pr /\
    k_disk s' = apply_writes (commit_writes st (view s) (view s st) bs) (k_disk s) /\
    rest s' = set_k_log (set_l_n 0 (k_log s)) (rest s) /\ (forall b, pending s' b = false).
Proof using Hh Hst H0 Hpl.
  intros Hw Hne Hp. pose proof Hpl as [P1 P2 P3 P4 P5 P6].
  destruct (write_log_loop_run c me pr Hh Hst sz st bs Hpl bs [] s eq_refl Hw) as (s1 & E1 & Hw1); [by intros b ?%Hp|].
  cbn [length] in E1, Hw1. change (Z.of_nat 0) with 0 in Hw1. rewrite Z.add_0_r in Hw1.
  pose proof (working_wrote _ _ _ _ _ _ _ _ _ Hw Hw1) as Hwk1.
  assert (Hst1 : view s1 st = view s st).
  { rewrite (wr_view _ _ _ _ _ _ Hw1), log_writes_lookup, decide_False by lia. by rewrite lookup_empty. }
  destruct (write_head_run c me pr Hh Hst sz st bs Hpl s1 Hwk1) as (s2 & E2 & Hw2). rewrite Hst1 in Hw2.
  pose proof (working_wrote _ _ _ _ _ _ _ _ _ Hwk1 Hw2) as Hwk2.
  destruct (install_loop_run c me pr Hh Hst sz st bs Hpl bs [] s2 eq_refl Hwk2) as (s3 & E3 & Hw3).
  { left. intros b Hb. rewrite (wr_pending _ _ _ _ _ _ Hw2), (wr_pending _ _ _ _ _ _ Hw1). destruct (P6 b Hb) as [_ Hout].
    rewrite decide_False by (cbn; rewrite list_elem_of_singleton; lia). rewrite decide_False; [by apply Hp|].
    intros Hin. pose proof (log_writes_fst (st + 1) (view s) bs) as Hf. rewrite Forall_forall in Hf. specialize (Hf b Hin). lia. }
  cbn [length] in E3, Hw3. change (Z.of_nat 0) with 0 in Hw3. rewrite Z.add_0_r in Hw3.
  rewrite (home_writes_map _ _ (view s)) in Hw3.
  2:{ intros k b Hk. pose proof (lookup_lt_Some _ _ _ Hk) as Hlt. rewrite (wr_view _ _ _ _ _ _ Hw2). cbn.
      rewrite lookup_insert_ne, lookup_empty by lia. cbn. rewrite (wr_view _ _ _ _ _ _ Hw1), log_writes_lookup, decide_True by lia.
      replace (Z.to_nat (st + 1 + Z.of_nat k - (st + 1))) with k by lia. by rewrite Hk. }
  pose proof (working_wrote _ _ _ _ _ _ _ _ _ Hwk2 Hw3) as Hwk3.
  destruct (clear_log_run s3 Hwk3) as (s4 & E4 & Hw4).
  assert (Hst3 : view s3 st = head_block (view s st) bs).
  { rewrite (wr_view _ _ _ _ _ _ Hw3). rewrite put_all_None.
    - rewrite lookup_empty. cbn. rewrite (wr_view _ _ _ _ _ _ Hw2). cbn. by rewrite lookup_insert_eq.
    - rewrite <- list_fmap_compose. cbn. rewrite list_fmap_id. intros Hin. destruct (P6 st Hin). unfold LOGSIZE, MAXOPBLOCKS in *. lia. }
  rewrite Hst3 in Hw4.
  exists s4. split.
  { unfold commit. rewrite bind_get_log, (lg_n _ _ _ (wk_log _ _ _ _ _ _ _ Hw)).
    rewrite (proj2 (Z.gtb_lt _ _)) by (destruct bs; [done|cbn; lia]). cbn [when].
    unfold write_log. autorewrite with run. rewrite bind_get_log, (lg_n _ _ _ (wk_log _ _ _ _ _ _ _ Hw)), Nat2Z.id.
    erewrite bind_Done by exact E1. erewrite bind_Done by exact E2. unfold install_trans. autorewrite with run.
    rewrite bind_get_log, (wrote_log _ _ _ _ _ _ Hw2), (wrote_log _ _ _ _ _ _ Hw1), (lg_n _ _ _ (wk_log _ _ _ _ _ _ _ Hw)), Nat2Z.id.
    erewrite bind_Done by exact E3. exact E4. }
  split; [apply Hw4|]. split; [apply Hw4|]. split; [|split].
  - rewrite (wr_disk _ _ _ _ _ _ Hw4). change (k_disk (emptied s3)) with (k_disk s3).
    rewrite (wr_disk _ _ _ _ _ _ Hw3), (wr_disk _ _ _ _ _ _ Hw2), (wr_disk _ _ _ _ _ _ Hw1).
    rewrite <- !apply_writes_app. reflexivity.
  - rewrite (proj1 (wr_goes _ _ _ _ _ _ Hw4)). change (rest (emptied s3)) with (set_k_log (set_l_n 0 (k_log s3)) (rest s3)).
    rewrite (wrote_log _ _ _ _ _ _ Hw3), (wrote_log _ _ _ _ _ _ Hw2), (wrote_log _ _ _ _ _ _ Hw1).
    by rewrite (proj1 (wr_goes _ _ _ _ _ _ Hw3)), (proj1 (wr_goes _ _ _ _ _ _ Hw2)), (proj1 (wr_goes _ _ _ _ _ _ Hw1)).
  - intros b. rewrite (wr_pending _ _ _ _ _ _ Hw4). case_decide; [reflexivity|].
    rewrite emptied_pending, (wr_pending _ _ _ _ _ _ Hw3). case_decide as Hd; [reflexivity|].
    rewrite <- list_fmap_compose in Hd. cbn in Hd. rewrite list_fmap_id in Hd.
    rewrite (wr_pending _ _ _ _ _ _ Hw2), (wr_pending _ _ _ _ _ _ Hw1). repeat case_decide; try reflexivity.
    apply not_true_iff_false. by rewrite Hp.
Qed.
End commit.

(** ** The header block *)

(** The block numbers a header records. *)
Definition log_head (d : list Z) : list Z := (fun k => i32 (get32 d (4 + 4 * k))) <$> seqZ 0 (i32 (get32 d 0)).

Lemma fill_length d k bs : length (fill d k bs) = length d.
Proof. revert d k. induction bs as [|b bs IH]; intros d k; cbn; [done|]. by rewrite IH, put32_length. Qed.

Lemma head_block_length d bs : length (head_block d bs) = length d.
Proof. unfold head_block. by rewrite fill_length, put32_length. Qed.

Lemma fill_below d k bs x : 0 <= k -> 0 <= x -> x + 4 <= 4 + 4 * k -> 4 + 4 * (k + Z.of_nat (length bs)) <= Z.of_nat (length d) ->
  get32 (fill d k bs) x = get32 d x.
Proof.
  revert d k. induction bs as [|b bs IH]; intros d k Hk Hx Hxk Hl; cbn [fill]; [done|]. cbn [length] in Hl.
  rewrite IH by (rewrite ?put32_length; lia). by apply get32_put32_ne; lia.
Qed.

Lemma fill_get d k bs j b : 0 <= k -> bs !! j = Some b -> 4 + 4 * (k + Z.of_nat (length bs)) <= Z.of_nat (length d) ->
  get32 (fill d k bs) (4 + 4 * (k + Z.of_nat j)) = u32 b.
Proof.
  revert d k j. induction bs as [|b' bs IH]; intros d k j Hk Hj Hl; [done|]. cbn [fill length] in *. destruct j as [|j].
  - injection Hj as ->. rewrite fill_below by (rewrite ?put32_length; lia).
    replace (4 + 4 * (k + Z.of_nat 0)) with (4 + 4 * k) by lia. apply get32_put32; [lia|lia|apply u32_range].
  - replace (k + Z.of_nat (S j)) with (k + 1 + Z.of_nat j) by lia. apply IH; [lia|done|rewrite put32_length; lia].
Qed.

(** The header that is written is the one that is read. *)
Lemma log_head_block sz st d bs : placed sz st bs -> Z.of_nat (length d) = BSIZE -> log_head (head_block d bs) = bs.
Proof.
  intros [P1 P2 P3 P4 P5 P6] Hd. unfold LOGSIZE, MAXOPBLOCKS in P4. unfold BSIZE in Hd. unfold log_head, head_block.
  rewrite fill_below by (rewrite ?put32_length; lia). rewrite get32_put32 by (lia || apply u32_range).
  assert (Hn : i32 (u32 (Z.of_nat (length bs))) = Z.of_nat (length bs)) by word. rewrite Hn.
  apply list_eq. intros k. rewrite list_lookup_fmap. destruct (bs !! k) as [b|] eqn:Hb.
  - pose proof (lookup_lt_Some _ _ _ Hb) as Hk. rewrite lookup_seqZ_lt by lia. cbn [fmap option_fmap option_map].
    rewrite (fill_get _ 0 bs k b) by (done || rewrite ?put32_length; lia). f_equal.
    destruct (P6 b) as [Hr _]; [by eapply list_elem_of_lookup_2|]. word.
  - apply lookup_ge_None in Hb. by rewrite lookup_seqZ_ge by lia.
Qed.

(** A header block that [recover_from_log] can be run with. *)
Record header_ok (sz st : Z) (h : list Z) : Prop := HeaderOk {
  ho_placed : placed sz st (log_head h);
  ho_count : 0 <= i32 (get32 h 0);
  ho_length : Z.of_nat (length h) = BSIZE;
}.

Lemma head_block_ok sz st d bs : placed sz st bs -> Z.of_nat (length d) = BSIZE -> header_ok sz st (head_block d bs).
Proof.
  intros Hpl Hd. split; [by rewrite (log_head_block sz st)| |by rewrite head_block_length].
  destruct Hpl as [P1 P2 P3 P4 P5 P6]. unfold LOGSIZE, MAXOPBLOCKS in P4. unfold BSIZE in Hd. unfold head_block.
  rewrite fill_below by (rewrite ?put32_length; lia). rewrite get32_put32 by (lia || apply u32_range). word.
Qed.

(** ** Recovery, and the states a crash can leave *)

(** What [recover_from_log] makes of the disk [d], apart from the header. *)
Definition replay (st : Z) (d : gmap Z (list Z)) : gmap Z (list Z) :=
  put_all (home_writes (st + 1) (rdblk d) (log_head (rdblk d st))) d.

(** The blocks outside the log. *)
Definition home (st b : Z) : Prop := b < st \/ st + LOGSIZE <= b.

Lemma home_writes_fst a f l : (home_writes a f l).*1 = l.
Proof. revert a. induction l as [|b l IH]; intros a; cbn; [done|]. by rewrite IH. Qed.

Lemma put_all_map (g : Z -> list Z) l d b : b ∈ l -> put_all ((fun b => (b, g b)) <$> l) d !! b = Some (g b).
Proof.
  revert d. induction l as [|x l IH] using rev_ind; intros d Hb; [by apply elem_of_nil in Hb|].
  rewrite fmap_app, put_all_app. cbn. destruct (decide (b = x)) as [->|Hne]; [by rewrite lookup_insert_eq|].
  rewrite lookup_insert_ne by done. apply IH. apply elem_of_app in Hb as [Hb|Hb]; [done|].
  by apply list_elem_of_singleton in Hb.
Qed.

Lemma rdblk_lookup d d' b : d !! b = d' !! b -> rdblk d b = rdblk d' b.
Proof. unfold rdblk. by intros ->. Qed.

Lemma rdblk_put_None ws d b : b ∉ ws.*1 -> rdblk (put_all ws d) b = rdblk d b.
Proof. intros Hb. by apply rdblk_lookup, put_all_None. Qed.

Lemma replay_committed sz st bs (g : Z -> list Z) d b : placed sz st bs -> log_head (rdblk d st) = bs ->
  (forall k b, bs !! k = Some b -> rdblk d (st + 1 + Z.of_nat k) = g b) ->
  rdblk (replay st d) b = if decide (b ∈ bs) then g b else rdblk d b.
Proof.
  intros Hpl Hhd Hlog. unfold replay. rewrite Hhd. rewrite (home_writes_map _ _ g) by exact Hlog.
  case_decide as Hb; [unfold rdblk at 1; by rewrite put_all_map|].
  apply rdblk_put_None. rewrite <- list_fmap_compose. cbn. by rewrite list_fmap_id.
Qed.

Lemma replay_empty st d : log_head (rdblk d st) = [] -> replay st d = d.
Proof. intros E. unfold replay. by rewrite E. Qed.

Lemma elem_of_fst_take (ws : list write) k b : b ∈ (take k ws).*1 -> b ∈ ws.*1.
Proof. intros Hb. rewrite <- (take_drop k ws), fmap_app. apply elem_of_app. by left. Qed.

Lemma fst_map (g : Z -> list Z) l : ((fun b => (b, g b)) <$> l).*1 = l.
Proof. rewrite <- list_fmap_compose. cbn. apply list_fmap_id. Qed.

Section atomic.
Context (sz st : Z) (bs : list Z) (Hpl : placed sz st bs) (g : Z -> list Z).

Abbreviation W1 := (log_writes (st + 1) g bs).
Abbreviation W3 := ((fun b => (b, g b)) <$> bs).

Lemma st_not_home : st ∉ bs.
Proof using Hpl. intros Hin. destruct (pl_home _ _ _ Hpl st Hin) as [_ Hh]. unfold LOGSIZE, MAXOPBLOCKS in Hh. lia. Qed.

Lemma W1_log b : b ∈ W1.*1 -> st + 1 <= b < st + LOGSIZE.
Proof using Hpl.
  intros Hb. pose proof (log_writes_fst (st + 1) g bs) as Hf. rewrite Forall_forall in Hf. specialize (Hf b Hb).
  pose proof (pl_length _ _ _ Hpl). lia.
Qed.

Context (d0 : gmap Z (list Z)).
Context (Hlen : Z.of_nat (length (rdblk d0 st)) = BSIZE) (Hempty : log_head (rdblk d0 st) = []).

Abbreviation h := (rdblk d0 st).

(** Before the header is written, nothing has happened. *)
Lemma crash_before k b : home st b -> rdblk (replay st (put_all (take k W1) d0)) b = rdblk d0 b.
Proof using Hpl Hempty.
  intros Hb. rewrite replay_empty.
  - apply rdblk_put_None. intros Hin%elem_of_fst_take%W1_log. unfold home in Hb. lia.
  - rewrite rdblk_put_None; [exact Hempty|]. intros Hin%elem_of_fst_take%W1_log. lia.
Qed.

(** Once it is, all of it has, however many blocks have been copied home. *)
Lemma crash_after k b : home st b ->
  rdblk (replay st (put_all (take k W3) (put_all (W1 ++ [(st, head_block h bs)]) d0))) b =
    if decide (b ∈ bs) then g b else rdblk d0 b.
Proof using Hpl Hlen.
  intros Hb. set (d1 := put_all (W1 ++ _) d0).
  assert (Hne : forall x, x ∉ bs -> rdblk (put_all (take k W3) d1) x = rdblk d1 x).
  { intros x Hx. apply rdblk_put_None. intros Hin%elem_of_fst_take. by rewrite fst_map in Hin. }
  assert (Hlogb : forall x, st <= x < st + LOGSIZE -> x ∉ bs).
  { intros x Hx Hin. destruct (pl_home _ _ _ Hpl x Hin) as [_ ?]. lia. }
  rewrite (replay_committed sz st bs g); [|exact Hpl| |].
  - case_decide; [reflexivity|]. rewrite Hne by done. unfold d1. apply rdblk_put_None. rewrite fmap_app, elem_of_app. cbn.
    rewrite list_elem_of_singleton. unfold home in Hb. intros [Hin%W1_log|Hin]; unfold LOGSIZE, MAXOPBLOCKS in *; lia.
  - rewrite Hne by apply st_not_home. unfold d1. rewrite put_all_app. cbn. rewrite rdblk_insert, decide_True by done.
    by apply (log_head_block sz st).
  - intros j x Hj. pose proof (lookup_lt_Some _ _ _ Hj) as Hlt. pose proof (pl_length _ _ _ Hpl) as Hll.
    rewrite Hne by (apply Hlogb; lia). unfold d1. rewrite put_all_app. cbn. rewrite rdblk_insert, decide_False by lia.
    unfold rdblk. rewrite log_writes_lookup, decide_True by lia.
    replace (Z.to_nat (st + 1 + Z.of_nat j - (st + 1))) with j by lia. by rewrite Hj.
Qed.

(** When the header is cleared, the blocks have been copied. *)
Lemma crash_done b : home st b ->
  let d := put_all (commit_writes st g h bs) d0 in
  log_head (rdblk d st) = [] /\ rdblk d b = if decide (b ∈ bs) then g b else rdblk d0 b.
Proof using Hpl Hlen.
  intros Hb d. unfold d, commit_writes. rewrite !put_all_app. cbn. rewrite !rdblk_insert, decide_True by done. split.
  - apply (log_head_block sz st (head_block h bs) []); [by eapply placed_nil|by rewrite head_block_length].
  - rewrite decide_False by (unfold home, LOGSIZE, MAXOPBLOCKS in Hb; lia).
    case_decide as Hin; [unfold rdblk; by rewrite put_all_map|]. rewrite rdblk_put_None by (by rewrite fst_map).
    rewrite rdblk_insert, decide_False by (unfold home, LOGSIZE, MAXOPBLOCKS in Hb; lia).
    apply rdblk_put_None. intros Hin'%W1_log. unfold home in Hb. lia.
Qed.

(** After any number of the writes of a commit, recovery yields the old contents
    of all blocks, or the new ones of all. *)
Lemma commit_writes_atomic k : let d := replay st (put_all (take k (commit_writes st g h bs)) d0) in
  (forall b, home st b -> rdblk d b = rdblk d0 b) \/
  (forall b, home st b -> rdblk d b = if decide (b ∈ bs) then g b else rdblk d0 b).
Proof using Hpl Hlen Hempty.
  cbn zeta. destruct (decide (k <= length W1)%nat) as [Hk|Hk].
  { left. intros b Hb. unfold commit_writes. rewrite take_app_le by done. by apply crash_before. }
  right. intros b Hb. set (m := (k - length W1 - 1)%nat). destruct (decide (m <= length W3)%nat) as [Hm|Hm].
  - assert (E : take k (commit_writes st g h bs) = (W1 ++ [(st, head_block h bs)]) ++ take m W3).
    { unfold commit_writes. rewrite take_app_ge by lia. rewrite <- app_assoc. f_equal. cbn [app].
      replace (k - length W1)%nat with (S m) by (unfold m; lia). cbn [take]. by rewrite take_app_le. }
    rewrite E, put_all_app. by apply crash_after.
  - rewrite take_ge.
    + destruct (crash_done b Hb) as [E1 E2]. by rewrite replay_empty.
    + unfold commit_writes. rewrite !length_app. cbn. unfold m in Hm. lia.
Qed.
End atomic.

Lemma rdblk_put_all_inv (P : list Z -> Prop) b ws : forall d, P (rdblk d b) -> (forall x, (b, x) ∈ ws -> P x) ->
  P (rdblk (put_all ws d) b).
Proof.
  induction ws as [|[b' x] ws IH]; intros d Hd Hws; [exact Hd|]. unfold put_all. cbn [foldl]. apply IH.
  - cbn. rewrite rdblk_insert. case_decide as E; [|exact Hd]. apply Hws. rewrite E. apply elem_of_cons. by left.
  - intros y Hy. apply Hws. apply elem_of_cons. by right.
Qed.

Lemma elem_of_take_le {A} (x : A) k l : x ∈ take k l -> x ∈ l.
Proof. intros Hx. rewrite <- (take_drop k l). apply elem_of_app. by left. Qed.

(** The header is good in all the states a commit leaves. *)
Lemma commit_header_ok sz st bs g d k : placed sz st bs -> header_ok sz st (rdblk d st) ->
  header_ok sz st (rdblk (put_all (take k (commit_writes st g (rdblk d st) bs)) d) st).
Proof.
  intros Hpl Hh. pose proof (ho_length _ _ _ Hh) as Hlen. apply rdblk_put_all_inv; [exact Hh|]. intros x Hx%elem_of_take_le.
  unfold commit_writes in Hx. rewrite !elem_of_app in Hx. destruct Hx as [Hx|[Hx|[Hx|Hx]]].
  - apply (list_elem_of_fmap_2 fst) in Hx. pose proof (W1_log _ _ _ Hpl _ _ Hx). cbn in *. lia.
  - apply list_elem_of_singleton in Hx. injection Hx as ->. by apply head_block_ok.
  - apply (list_elem_of_fmap_2 fst) in Hx. rewrite fst_map in Hx. destruct (st_not_home _ _ _ Hpl Hx).
  - apply list_elem_of_singleton in Hx. injection Hx as ->. apply head_block_ok; [by eapply placed_nil|by rewrite head_block_length].
Qed.

Lemma apply_writes_states ws D : exists l, d_past (apply_writes ws D) = l ++ d_past D /\
  forall d, d ∈ d_blocks (apply_writes ws D) :: l -> exists k, d = put_all (take k ws) (d_blocks D).
Proof.
  induction ws as [|[b x] ws IH] using rev_ind.
  - exists []. split; [reflexivity|]. intros d ->%list_elem_of_singleton. by exists 0%nat.
  - destruct IH as (l & El & Hl). rewrite apply_writes_app. cbn. exists (d_blocks (apply_writes ws D) :: l).
    split; [by rewrite El|]. intros d [->|Hd]%elem_of_cons.
    + exists (length (ws ++ [(b, x)])). rewrite take_ge by done. by rewrite put_all_app, <- apply_writes_blocks.
    + destruct (Hl d Hd) as [k ->]. exists (k `min` length ws)%nat. rewrite take_app_le by lia.
      destruct (decide (k <= length ws)%nat); [by rewrite Nat.min_l by done|]. by rewrite Nat.min_r, !take_ge by lia.
Qed.

Lemma home_writes_lookup a f l d k b : NoDup l -> l !! k = Some b -> put_all (home_writes a f l) d !! b = Some (f (a + Z.of_nat k)).
Proof.
  revert a d k. induction l as [|x l IH]; intros a d k Hnd Hk; [done|]. apply NoDup_cons in Hnd as [Hx Hnd].
  unfold put_all. cbn [home_writes foldl]. fold (put_all (home_writes (a + 1) f l) (<[x := f a]> d)). destruct k as [|k].
  - injection Hk as ->. rewrite put_all_None by (by rewrite home_writes_fst). rewrite lookup_insert_eq. by rewrite Z.add_0_r.
  - rewrite (IH _ _ k) by done. by replace (a + Z.of_nat (S k)) with (a + 1 + Z.of_nat k) by lia.
Qed.

Section recovery.
Context (sz st : Z) (d : gmap Z (list Z)).
Abbreviation bs := (log_head (rdblk d st)).
Context (Hok : header_ok sz st (rdblk d st)).

Definition recovery_writes : list write :=
  home_writes (st + 1) (rdblk d) bs ++ [(st, head_block (rdblk d st) [])].

Lemma replay_log_blocks k b : bs !! k = Some b -> rdblk d (st + 1 + Z.of_nat k) = rdblk (replay st d) b.
Proof using Hok.
  destruct Hok as [Hpl _ Hlen]. intros Hk. unfold replay, rdblk at 2. rewrite (home_writes_lookup _ _ _ _ k) by (apply Hpl || done). reflexivity.
Qed.

(** Recovery finishes what it says, and a crash during it does not matter. *)
Lemma recovery_writes_stable k b : home st b ->
  rdblk (replay st (put_all (take k recovery_writes) d)) b = rdblk (replay st d) b.
Proof using Hok.
  destruct Hok as [Hpl _ Hlen]. intros Hb. pose proof (st_not_home sz st bs Hpl) as Hst. unfold recovery_writes.
  assert (Hlogb : forall x, st <= x < st + LOGSIZE -> x ∉ bs).
  { intros x Hx Hin. destruct (pl_home _ _ _ Hpl x Hin) as [_ ?]. lia. }
  destruct (decide (k <= length (home_writes (st + 1) (rdblk d) bs))%nat) as [Hk|Hk].
  - rewrite take_app_le by done.
    assert (Hne : forall x, x ∉ bs -> rdblk (put_all (take k (home_writes (st + 1) (rdblk d) bs)) d) x = rdblk d x).
    { intros x Hx. apply rdblk_put_None. intros Hin%elem_of_fst_take. by rewrite home_writes_fst in Hin. }
    rewrite (replay_committed sz st bs (rdblk (replay st d))); [|exact Hpl|by rewrite Hne|].
    + case_decide as Hin; [reflexivity|]. rewrite Hne by done. unfold replay. by rewrite rdblk_put_None by (by rewrite home_writes_fst).
    + intros j x Hj. pose proof (lookup_lt_Some _ _ _ Hj). pose proof (pl_length _ _ _ Hpl).
      rewrite Hne by (apply Hlogb; lia). by apply replay_log_blocks.
  - rewrite take_ge by (rewrite length_app; cbn; lia). rewrite put_all_app. cbn. fold (replay st d).
    rewrite replay_empty.
    + rewrite rdblk_insert, decide_False by (unfold home, LOGSIZE, MAXOPBLOCKS in Hb; lia). reflexivity.
    + rewrite rdblk_insert, decide_True by done. apply (log_head_block sz st (rdblk d st) []); [by eapply placed_nil|done].
Qed.

Lemma recovery_writes_done b : home st b ->
  let d' := put_all recovery_writes d in log_head (rdblk d' st) = [] /\ rdblk d' b = rdblk (replay st d) b.
Proof using Hok.
  destruct Hok as [Hpl _ Hlen]. intros Hb d'. unfold d', recovery_writes. rewrite put_all_app. cbn. fold (replay st d). rewrite !rdblk_insert, decide_True by done.
  split; [apply (log_head_block sz st (rdblk d st) []); [by eapply placed_nil|done]|].
  by rewrite decide_False by (unfold home, LOGSIZE, MAXOPBLOCKS in Hb; lia).
Qed.

Lemma recovery_header_ok k : header_ok sz st (rdblk (put_all (take k recovery_writes) d) st).
Proof using Hok.
  apply rdblk_put_all_inv; [exact Hok|]. intros x Hx%elem_of_take_le. destruct Hok as [Hpl _ Hlen]. unfold recovery_writes in Hx.
  apply elem_of_app in Hx as [Hx|Hx].
  - apply (list_elem_of_fmap_2 fst) in Hx. rewrite home_writes_fst in Hx. by apply (st_not_home _ _ _ Hpl) in Hx.
  - apply list_elem_of_singleton in Hx. injection Hx as ->. apply head_block_ok; [by eapply placed_nil|exact Hlen].
Qed.
End recovery.

(** ** Running [recover_from_log] *)

Lemma read_head_loop_run data m : forall (k : nat) c s, Z.of_nat (k + m) <= LOGSIZE -> Z.of_nat (length (l_block (k_log s))) = LOGSIZE ->
  exists blocks, read_head_loop m (Z.of_nat k) data c s = Done tt c (set_k_log (set_l_block blocks (k_log s)) s) /\
    length blocks = length (l_block (k_log s)) /\
    forall j, blocks !! j = if decide (k <= j < k + m)%nat then Some (i32 (get32 data (4 + 4 * Z.of_nat j))) else l_block (k_log s) !! j.
Proof.
  induction m as [|m IH]; intros k c s Hk Hl; cbn [read_head_loop].
  - exists (l_block (k_log s)). split; [|split; [reflexivity|]].
    + unfold mret, M_ret. f_equal. destruct s as [? ? ? ? ? ? ? ? lg]. destruct lg. reflexivity.
    + intros j. by rewrite decide_False by lia.
  - set (v := i32 (get32 data (4 + 4 * Z.of_nat k))).
    assert (E : set_log_block (Z.of_nat k) v c s =
      Done tt c (set_k_log (set_l_block (<[k := v]> (l_block (k_log s))) (k_log s)) s)).
    { unfold set_log_block. rewrite (proj2 (Z.ltb_ge _ _)), Z.geb_leb, (proj2 (Z.leb_gt _ _)) by lia. cbn [orb].
      unfold upd_log, modify. by rewrite Nat2Z.id. }
    erewrite bind_Done by exact E. replace (Z.of_nat k + 1) with (Z.of_nat (S k)) by lia.
    destruct (IH (S k) c (set_k_log (set_l_block (<[k := v]> (l_block (k_log s))) (k_log s)) s)) as (blocks & E' & Hl' & Hb);
      [lia|cbn; by rewrite length_insert|].
    exists blocks. split; [exact E'|]. split; [rewrite Hl'; cbn; by rewrite length_insert|]. intros j. rewrite Hb. cbn [k_log l_block set_k_log set_l_block].
    destruct (decide (j = k)) as [->|Hne].
    + rewrite decide_False, decide_True by lia. apply list_lookup_insert_eq. unfold LOGSIZE in *. lia.
    + destruct (decide (S k <= j < S k + m)%nat) as [?|?]; [rewrite decide_True by lia; reflexivity|].
      rewrite decide_False by lia. by rewrite list_lookup_insert_ne.
Qed.

Lemma log_head_lookup data k b : log_head data !! k = Some b ->
  Z.of_nat k < i32 (get32 data 0) /\ b = i32 (get32 data (4 + 4 * Z.of_nat k)).
Proof.
  unfold log_head. rewrite list_lookup_fmap, fmap_Some. intros (j & [-> Hj]%lookup_seqZ & ->). by split.
Qed.

(** The kernel has booted: nothing is cached, and the log on the disk has a good
    header. *)
Record booted (c : ctx) (me : nat) (pr : proc) (sz st : Z) (s : kernel) : Prop := Booted {
  bt_runs : runs c s me pr;
  bt_uses : uses (p_pid pr) ∅ s;
  bt_clean : forall b, pending s b = false;
  bt_dev : l_dev (k_log s) = ROOTDEV;
  bt_start : l_start (k_log s) = st;
  bt_array : Z.of_nat (length (l_block (k_log s))) = LOGSIZE;
  bt_size : d_size (k_disk s) = sz;
  bt_header : header_ok sz st (rdblk (d_blocks (k_disk s)) st);
}.

Section recover_run.
Context `{SyncDisk} (c : ctx) (me : nat) (pr : proc) (Hh : held c = ∅) (Hst : p_state pr = RUNNING).
Context (s : kernel) (sz st : Z) (Hb : booted c me pr sz st s).
Abbreviation d := (d_blocks (k_disk s)).
Abbreviation bs := (log_head (rdblk d st)).

Lemma view_disk b : view s b = rdblk d b.
Proof using Hb.
  destruct Hb as [Hr Hu Hnp Hdev Hstart Harr Hsz [Hpl Hn0 Hlen]]. apply (view_clean _ _ _ _ Hu (Hnp b)). intros i bf Hi. destruct (not_elem_of_empty _ Hi).
Qed.

Lemma read_head_run : exists s', read_head c s = Done tt c s' /\ working c me pr sz st bs s' /\
  k_disk s' = k_disk s /\ (forall b, view s' b = rdblk d b) /\ (forall b, pending s' b = false).
Proof using Hh Hst H0 Hb.
  pose proof Hb as [Hr Hu Hnp Hdev Hstart Harr Hsz [Hpl Hn0 Hlen]]. pose proof Hpl as [P1 P2 P3 P4 P5 P6]. set (data := rdblk d st). set (n := i32 (get32 data 0)).
  assert (Hn : Z.of_nat (length bs) = Z.max 0 n) by (unfold log_head; rewrite length_fmap, length_seqZ; fold data; fold n; lia).
  destruct (bread_spec c me pr Hh s ∅ st) as (j & bj & Ej & Hj & _ & Hlj & Hnj & Hdj & Htj & Huj & Hvj & Hpj).
  { exact Hr. } { exact Hu. } { rewrite Hsz. unfold LOGSIZE, MAXOPBLOCKS in *. lia. }
  { intros i bf Hi. destruct (not_elem_of_empty _ Hi). }
  { right. destruct (roomy_clean (p_pid pr) s Hu) as (i & bf & Hi & Hbf & Hd).
    - exists []. split; [rewrite HEAD_value; cbn; lia|]. intros b. by rewrite Hnp.
    - exists i, bf. split; [exact Hi|]. split; [apply not_elem_of_empty|by split]. }
  rewrite (right_id_L ∅ (∪)) in Huj. rewrite view_disk in Hdj. fold data in Hdj.
  set (s1 := set_buf j bj s) in *. pose proof (set_buf_lookup j bj s Hlj) as Hbj. fold s1 in Hbj.
  destruct (read_head_loop_run data (Z.to_nat n) 0 c (set_k_log (set_l_n n (k_log s1)) s1)) as (blocks & E2 & Hl2 & Hb2).
  { cbn. lia. } { exact Harr. }
  set (s2 := set_k_log (set_l_block blocks (k_log (set_k_log (set_l_n n (k_log s1)) s1))) (set_k_log (set_l_n n (k_log s1)) s1)) in E2.
  destruct (brelse_spec c me pr Hh s2 {[j]} j bj) as (s3 & E3 & Hu3 & Hg3 & Hd3 & Hv3 & Hp3 & _).
  { exact Hr. } { exact Hst. } { destruct Huj as [order Hc]. exists order. by apply (cache_frame _ _ s1). } { exact Hj. }
  { by apply elem_of_singleton. } { exact Hbj. } { intros _. by rewrite Hdj, Hnj. }
  exists s3. split.
  { unfold read_head. rewrite bind_get_log, Hdev, Hstart. erewrite bind_Done by exact Ej. fold s1. erewrite bind_buf_at by exact Hbj.
    rewrite Hdj. fold n. unfold upd_log at 1. rewrite bind_modify.
    erewrite bind_Done by exact E2. exact E3. }
  assert (Hpend : forall b, pending s3 b = false).
  { intros b. rewrite Hp3. rewrite (pending_frame s1 s2) by reflexivity. rewrite Hpj. apply Hnp. }
  rewrite difference_diag_L in Hu3. split; [|split; [rewrite Hd3; reflexivity|split; [|exact Hpend]]].
  - split; [apply Hg3|exact Hu3| |rewrite Hd3; exact Hsz| |].
    + rewrite (rest_log _ _ (proj1 Hg3)). unfold s2. cbn. split; cbn; [exact Hdev|exact Hstart| |].
      * change (n = Z.of_nat (length bs)). rewrite Hn. symmetry. apply Z.max_r. exact Hn0.
      * intros k b Hk. apply log_head_lookup in Hk as [Hlt Hk]. fold data in Hlt, Hk. fold n in Hlt.
        rewrite Hb2, decide_True by (clearbody n; lia). by rewrite Hk.
    + exists []. split; [rewrite HEAD_value; cbn; lia|]. intros b. by rewrite Hpend.
    + intros a _. apply Hpend.
  - intros b. rewrite Hv3, (view_frame s1 s2) by reflexivity. rewrite Hvj. apply view_disk.
Qed.

Lemma recover_run : exists s', recover_from_log c s = Done tt c s' /\ uses (p_pid pr) ∅ s' /\ runs c s' me pr /\
  k_disk s' = apply_writes (recovery_writes st d) (k_disk s) /\ l_n (k_log s') = 0 /\ (forall b, pending s' b = false).
Proof using Hh Hst H0 Hb.
  pose proof (ho_placed _ _ _ (bt_header _ _ _ _ _ _ Hb)) as Hpl.
  destruct read_head_run as (s1 & E1 & Hw1 & Hd1 & Hv1 & Hp1).
  destruct (install_loop_run c me pr Hh Hst sz st bs Hpl bs [] s1 eq_refl Hw1 (or_intror Hp1)) as (s2 & E2 & Hw2).
  cbn [length] in E2, Hw2. change (Z.of_nat 0) with 0 in Hw2. rewrite Z.add_0_r in Hw2.
  rewrite (home_writes_ext _ _ (rdblk d)) in Hw2 by (intros; apply Hv1).
  pose proof (working_wrote _ _ _ _ _ _ _ _ _ Hw1 Hw2) as Hwk2.
  destruct (clear_log_run c me pr Hh Hst sz st bs Hpl s2 Hwk2) as (s3 & E3 & Hw3).
  assert (Hst2 : view s2 st = rdblk d st).
  { rewrite (wr_view _ _ _ _ _ _ Hw2), put_all_None, lookup_empty by
      (rewrite home_writes_fst; exact (st_not_home sz st bs Hpl)). cbn. apply Hv1. }
  rewrite Hst2 in Hw3. exists s3. split.
  { unfold recover_from_log. erewrite bind_Done by exact E1. unfold install_trans. autorewrite with run.
    rewrite bind_get_log, (lg_n _ _ _ (wk_log _ _ _ _ _ _ _ Hw1)), Nat2Z.id. erewrite bind_Done by exact E2. exact E3. }
  split; [apply Hw3|]. split; [apply Hw3|]. split; [|split].
  - rewrite (wr_disk _ _ _ _ _ _ Hw3). change (k_disk (emptied s2)) with (k_disk s2).
    rewrite (wr_disk _ _ _ _ _ _ Hw2), Hd1. unfold recovery_writes. by rewrite apply_writes_app.
  - by rewrite (wrote_log _ _ _ _ _ _ Hw3).
  - intros b. rewrite (wr_pending _ _ _ _ _ _ Hw3). case_decide; [reflexivity|]. rewrite emptied_pending.
    rewrite (wr_pending _ _ _ _ _ _ Hw2). case_decide; [reflexivity|]. apply Hp1.
Qed.
End recover_run.
