(* ===== verification/Trans.v ===== *)
(** Transactions: what [begin_op], [log_write] and [end_op] of src/log.c promise
    the file system.  The blocks written between them reach the disk together or
    not at all, whenever the machine stops, and the log has room for them. *)
From S2P Require Import Prelude Layout CString Spinlock Kalloc State Sched Sleeplock Bio Cache Log Journal.

#[local] Opaque HEAD bread bwrite brelse binit view pending.

(** ** [log_write]: recording a block *)

Definition record_block (b : Z) (l : logst) : logst :=
  let j := absorb (Z.to_nat (l_n l)) 0 (l_block l) b in
  let l' := set_l_block (<[Z.to_nat j := i32 b]> (l_block l)) l in
  if j =? l_n l then set_l_n (l_n l + 1) l' else l'.

Definition add_block (b : Z) (bs : list Z) : list Z := if decide (b ∈ bs) then bs else bs ++ [b].

Lemma absorb_bounds n : forall i blocks b, i <= absorb n i blocks b <= i + Z.of_nat n.
Proof. induction n as [|n IH]; intros i blocks b; cbn [absorb]; [lia|]. case_match; [lia|]. specialize (IH (i + 1) blocks b). lia. Qed.

Definition dirtied (bf : buf) : buf := set_b_flags (Z.lor (b_flags bf) B_DIRTY) bf.

Lemma log_write_run c s i bf : k_bufs s !! i = Some bf -> log_lock ∉ held c -> 0 <= l_n (k_log s) < LOGSIZE ->
  l_n (k_log s) < l_size (k_log s) - 1 -> 1 <= l_outstanding (k_log s) ->
  log_write i c s = Done tt c (set_buf i (dirtied bf) (set_k_log (record_block (b_blockno bf) (k_log s)) s)).
Proof.
  intros Hbf Hnh Hn Hsz Hout. unfold log_write. rewrite bind_get_log.
  rewrite !Z.geb_leb, !(proj2 (Z.leb_gt _ _)) by lia. cbn [orb]. rewrite (proj2 (Z.ltb_ge _ _)) by lia.
  rewrite bind_acquire by done. erewrite bind_buf_at by done. rewrite bind_get_log. cbv zeta.
  pose proof (absorb_bounds (Z.to_nat (l_n (k_log s))) 0 (l_block (k_log s)) (b_blockno bf)) as Ha.
  unfold record_block. set (j := absorb _ _ _ _) in *. unfold set_log_block.
  rewrite (proj2 (Z.ltb_ge j 0)), Z.geb_leb, (proj2 (Z.leb_gt LOGSIZE j)) by lia. cbn [orb]. unfold upd_log. rewrite bind_modify.
  destruct (j =? l_n (k_log s)); cbn [when]; rewrite ?bind_modify, ?bind_ret;
    (erewrite bind_upd_buf_at by exact Hbf); rewrite release_acquired, ctx_eta by done; reflexivity.
Qed.

Lemma absorb_spec blocks b l : forall pre, (forall k x, (pre ++ l) !! k = Some x -> blocks !! k = Some x /\ u32 x = x) ->
  b ∉ pre -> exists j, absorb (length l) (Z.of_nat (length pre)) blocks b = Z.of_nat j /\
    if decide (b ∈ pre ++ l) then (pre ++ l) !! j = Some b else j = length (pre ++ l).
Proof.
  induction l as [|x l IH]; intros pre Hb Hpre; cbn [absorb length].
  - exists (length pre). split; [reflexivity|]. rewrite (right_id_L [] (++)). by rewrite decide_False.
  - destruct (Hb (length pre) x) as [Hx Hu]; [by rewrite list_lookup_middle|]. rewrite Nat2Z.id, Hx. change (default 0 (Some x)) with x. rewrite Hu.
    destruct (Z.eqb_spec x b) as [->|Hne].
    + exists (length pre). split; [reflexivity|]. rewrite decide_True by set_solver. by rewrite list_lookup_middle.
    + replace (pre ++ x :: l) with ((pre ++ [x]) ++ l) in * by (by rewrite <- app_assoc).
      destruct (IH (pre ++ [x]) Hb) as (j & E & Hj); [set_solver|]. exists j. split; [|exact Hj]. rewrite <- E. f_equal.
      rewrite length_app. cbn. lia.
Qed.

Lemma record_block_logged b l st sz bs : logged l st bs -> placed sz st bs -> 0 <= b < sz ->
  Z.of_nat (length (l_block l)) = LOGSIZE -> Z.of_nat (length bs) < LOGSIZE ->
  logged (record_block b l) st (add_block b bs).
Proof.
  intros [Hdev Hstart Hn Hblk] Hpl Hb Hlen Hbs. unfold record_block, add_block. rewrite Hn, Nat2Z.id.
  pose proof (pl_size _ _ _ Hpl) as Hsz.
  destruct (absorb_spec (l_block l) b bs []) as (j & E & Hj).
  { intros k x Hk. cbn in Hk. split; [by apply Hblk|]. apply list_elem_of_lookup_2 in Hk. apply (pl_home _ _ _ Hpl) in Hk as [? _].
    unfold u32. apply Z.mod_small. lia. }
  { apply not_elem_of_nil. }
  cbn [length app] in E, Hj. change (Z.of_nat 0) with 0 in E. rewrite E, Nat2Z.id.
  assert (Eb : i32 b = b) by (apply i32_id; lia). rewrite Eb. case_decide as Hin.
  - pose proof (lookup_lt_Some _ _ _ Hj). rewrite (proj2 (Z.eqb_neq _ _)) by lia. split; cbn; [done|done|done|].
    intros k x Hk. destruct (decide (j = k)) as [<-|Hne].
    + rewrite list_lookup_insert_eq by lia. congruence.
    + rewrite list_lookup_insert_ne by done. by apply Hblk.
  - rewrite Hj, Z.eqb_refl. split; cbn; [done|done|rewrite length_app; cbn; lia|].
    intros k x [Hk|[Hk1 Hk2]]%lookup_app_Some.
    + rewrite list_lookup_insert_ne; [by apply Hblk|]. apply lookup_lt_Some in Hk. lia.
    + apply list_lookup_singleton_Some in Hk2 as [Hk <-]. replace k with (length bs) by lia. apply list_lookup_insert_eq. lia.
Qed.

(** ** A buffer the process owns becomes dirty *)

Section dirtied.
Context (s : kernel) (pr : proc) (X : gset nat) (order : list nat) (i : nat) (bf : buf).
Context (Hc : cache (p_pid pr) X s order) (Hi : (i < HEAD)%nat) (HX : i ∈ X) (Hbf : k_bufs s !! i = Some bf).

Lemma dirtied_flags : b_flags (dirtied bf) = 6.
Proof using Hc Hi HX Hbf.
  destruct (owned_facts s pr X order i bf Hc Hi HX Hbf) as (_ & _ & _ & _ & Hf). cbn. rewrite Hf. by destruct (dirty bf).
Qed.

Lemma dirtied_valid : valid (dirtied bf) = true /\ dirty (dirtied bf) = true.
Proof using Hc Hi HX Hbf. unfold valid, dirty. by rewrite dirtied_flags. Qed.

Lemma dirtied_cache : cache (p_pid pr) X (set_buf i (dirtied bf) s) order.
Proof using Hc Hi HX Hbf.
  destruct (owned_facts s pr X order i bf Hc Hi HX Hbf) as (Ht & Hd & Hv & Hn & _). destruct dirtied_valid as [Hv' _].
  eapply cache_set; [done|done|exact Hbf|done|]. split; [done| | | | |done].
  - right. right. apply dirtied_flags.
  - by left.
  - intros _ j bj Hj Hne Hbj Hdj E. apply Hne. eapply c_unique; [exact Hc|done|done|exact Hbj|exact Hbf|done|done|done].
  - rewrite decide_True by done. exact (conj Ht (conj Hd Hv')).
Qed.

Lemma dirtied_view b : view (set_buf i (dirtied bf) s) b = view s b.
Proof using Hc Hi HX Hbf.
  destruct (owned_facts s pr X order i bf Hc Hi HX Hbf) as (Ht & Hd & Hv & Hn & _). destruct dirtied_valid as [Hv' _].
  pose proof (lookup_lt_Some _ _ _ Hbf) as Hlen. destruct (decide (b = b_blockno bf)) as [->|E].
  - rewrite (view_at _ _ _ _ Hc i bf) by done. change (b_blockno bf) with (b_blockno (dirtied bf)).
    by rewrite (view_at _ _ _ _ dirtied_cache i (dirtied bf)) by (done || by apply set_buf_lookup).
  - apply view_set_ne with bf; [done| |]; apply andb_false_iff; left; unfold is_block; apply andb_false_iff; right;
      apply Z.eqb_neq; cbn; congruence.
Qed.

Lemma dirtied_pending b : pending (set_buf i (dirtied bf) s) b = if decide (b = b_blockno bf) then true else pending s b.
Proof using Hc Hi HX Hbf.
  destruct (owned_facts s pr X order i bf Hc Hi HX Hbf) as (Ht & Hd & Hv & Hn & _). destruct dirtied_valid as [_ Hd'].
  pose proof (lookup_lt_Some _ _ _ Hbf) as Hlen. case_decide as E.
  - rewrite E. change (b_blockno bf) with (b_blockno (dirtied bf)).
    by rewrite (pending_at _ _ _ _ dirtied_cache i (dirtied bf)) by (done || by apply set_buf_lookup).
  - apply pending_set_ne with bf; [done| |]; apply andb_false_iff; left; unfold is_block; apply andb_false_iff; right;
      apply Z.eqb_neq; cbn; congruence.
Qed.
End dirtied.

(** ** Inside a transaction

    Process [me] holds the buffers [X]; the log records exactly the blocks [bs]
    that wait in the cache, and the log on the disk is empty. *)
Record trans (me : nat) (pr : proc) (sz st : Z) (c : ctx) (bs : list Z) (X : gset nat) (s : kernel) : Prop := Trans {
  tr_runs : runs c s me pr;
  tr_uses : uses (p_pid pr) X s;
  tr_log : logged (k_log s) st bs;
  tr_array : Z.of_nat (length (l_block (k_log s))) = LOGSIZE;
  tr_size : d_size (k_disk s) = sz;
  tr_placed : placed sz st bs;
  tr_pending : forall b, pending s b = true <-> b ∈ bs;
  tr_header : header_ok sz st (rdblk (d_blocks (k_disk s)) st);
  tr_empty : log_head (rdblk (d_blocks (k_disk s)) st) = [];
  tr_idle : l_committing (k_log s) = false;
}.

Lemma elem_of_add_block x b bs : x ∈ add_block b bs <-> x = b \/ x ∈ bs.
Proof. unfold add_block. case_decide; set_solver. Qed.

Lemma placed_add sz st b bs : placed sz st bs -> 0 <= b < sz -> home st b -> Z.of_nat (length bs) < LOGSIZE - 1 ->
  placed sz st (add_block b bs).
Proof.
  intros [P1 P2 P3 P4 P5 P6] Hb Hhome Hlen. split; [done|done|done| | |].
  - unfold add_block. case_decide; [done|]. rewrite length_app. cbn. lia.
  - unfold add_block. case_decide as Hin; [done|]. apply NoDup_app. split; [done|]. split; [set_solver|apply NoDup_singleton].
  - intros x [->|Hx]%elem_of_add_block; [done|by apply P6].
Qed.

Section trans.
Context (c : ctx) (me : nat) (pr : proc) (Hh : held c = ∅) (sz st : Z).

(** Changing a block: the caller has put [d] into the buffer. *)
Lemma log_write_trans bs X s i bf d : trans me pr sz st c bs X s -> (i < HEAD)%nat -> i ∈ X -> k_bufs s !! i = Some bf ->
  home st (b_blockno bf) -> Z.of_nat (length bs) < LOGSIZE - 1 -> LOGSIZE <= l_size (k_log s) ->
  1 <= l_outstanding (k_log s) ->
  exists s', log_write i c (set_buf i (set_b_data d bf) s) = Done tt c s' /\
    trans me pr sz st c (add_block (b_blockno bf) bs) X s' /\ k_disk s' = k_disk s /\
    (forall b, view s' b = if decide (b = b_blockno bf) then d else view s b) /\
    k_log s' = record_block (b_blockno bf) (k_log s) /\ k_bufs s' !! i = Some (dirtied (set_b_data d bf)).
Proof using Hh.
  intros [Hr [order Hc] Hlog Harr Hsz Hpl Hpend Hhead Hempty Hidle] Hi HX Hbf Hhome Hroom Hsize Hout.
  pose proof (lookup_lt_Some _ _ _ Hbf) as Hlen. destruct Hlog as [Hdev Hstart Hn Hblk] eqn:El. clear El.
  destruct (owned_facts s pr X order i bf Hc Hi HX Hbf) as (_ & _ & _ & Hbn & _). rewrite Hsz in Hbn.
  set (bf1 := set_b_data d bf). set (s1 := set_buf i bf1 s). set (l' := record_block (b_blockno bf) (k_log s)).
  pose proof (owned_set_data s pr X order i bf Hc Hi HX Hbf d) as Hc1. fold bf1 in Hc1. fold s1 in Hc1.
  set (s2 := set_k_log l' s1). assert (Hc2 : cache (p_pid pr) X s2 order) by (by apply (cache_frame _ _ s1)).
  assert (Hbf2 : k_bufs s2 !! i = Some bf1) by (by apply set_buf_lookup).
  exists (set_buf i (dirtied bf1) s2). split.
  { apply (log_write_run c s1 i bf1); [by apply set_buf_lookup|rewrite Hh; apply not_elem_of_empty| | |]; cbn; (done || lia). }
  split; [|split; [reflexivity|split; [|split; [reflexivity|by apply set_buf_lookup, (lookup_lt_Some _ _ _ Hbf2)]]]].
  - split; [exact Hr| | | |exact Hsz| | |exact Hhead|exact Hempty|].
    + exists order. by apply dirtied_cache.
    + eapply record_block_logged; [by split|exact Hpl|exact Hbn|exact Harr|lia].
    + cbn. unfold l', record_block. case_match; cbn; by rewrite length_insert.
    + by apply placed_add.
    + intros b. rewrite (dirtied_pending s2 pr X order i bf1 Hc2 Hi HX Hbf2), elem_of_add_block. cbn [b_blockno bf1 set_b_data].
      rewrite <- Hpend. rewrite (pending_frame s1 s2) by reflexivity. unfold s1, bf1.
      rewrite (owned_pending_data s pr X order i bf Hc Hi HX Hbf d). case_decide; tauto.
    + cbn. unfold l', record_block. by case_match.
  - intros b. rewrite (dirtied_view s2 pr X order i bf1 Hc2 Hi HX Hbf2), (view_frame s1 s2) by reflexivity.
    apply (owned_view_data s pr X order i bf Hc Hi HX Hbf d).
Qed.
End trans.

(** ** [end_op] of the last operation commits *)

Lemma replay_id st d b : log_head (rdblk d st) = [] -> rdblk (replay st d) b = rdblk d b.
Proof. intros E. by rewrite replay_empty. Qed.

Lemma trans_view me pr sz st c bs s b : trans me pr sz st c bs ∅ s -> b ∉ bs -> view s b = rdblk (d_blocks (k_disk s)) b.
Proof.
  intros Ht Hb. apply (view_clean _ _ _ _ (tr_uses _ _ _ _ _ _ _ _ Ht)).
  - apply not_true_iff_false. by rewrite (tr_pending _ _ _ _ _ _ _ _ Ht).
  - intros i bf Hi. destruct (not_elem_of_empty _ Hi).
Qed.

Definition with_log (l : logst) (s : kernel) : kernel := set_k_log l s.

Lemma trans_working me pr sz st c bs s l : trans me pr sz st c bs ∅ s -> (length bs < HEAD)%nat -> logged l st bs ->
  working c me pr sz st bs (with_log l s).
Proof.
  intros [Hr [order Hc] Hlog Harr Hsz Hpl Hpend Hhead Hempty Hidle] Hroom Hl. split; [exact Hr| |exact Hl|exact Hsz| |].
  - exists order. by apply (cache_frame _ _ s).
  - exists bs. split; [exact Hroom|]. intros b. rewrite (pending_frame s) by reflexivity. apply Hpend.
  - intros a Ha. rewrite (pending_frame s) by reflexivity. apply not_true_iff_false. rewrite Hpend.
    intros Hin. destruct (pl_home _ _ _ Hpl a Hin) as [_ Hout]. lia.
Qed.

Section end_op.
Context `{SyncDisk} (c : ctx) (me : nat) (pr : proc) (Hh : held c = ∅) (Hst : p_state pr = RUNNING) (sz st : Z).

(** The disk goes through [ws] from [s] to [s'], and each state it goes through
    recovers to the blocks as on the disk in [s] or as seen in [s]. *)
Definition atomic_update (s s' : kernel) : Prop :=
  (forall b, home st b -> rdblk (d_blocks (k_disk s')) b = view s b) /\
  exists l, d_past (k_disk s') = l ++ d_past (k_disk s) /\
    forall d, d ∈ d_blocks (k_disk s') :: l ->
      header_ok sz st (rdblk d st) /\
      ((forall b, home st b -> rdblk (replay st d) b = rdblk (d_blocks (k_disk s)) b) \/
       (forall b, home st b -> rdblk (replay st d) b = view s b)).

Lemma commit_update bs s s' : trans me pr sz st c bs ∅ s ->
  k_disk s' = apply_writes (commit_writes st (view s) (view s st) bs) (k_disk s) -> atomic_update s s' /\
  header_ok sz st (rdblk (d_blocks (k_disk s')) st) /\ log_head (rdblk (d_blocks (k_disk s')) st) = [].
Proof.
  intros Ht Ed. pose proof (tr_placed _ _ _ _ _ _ _ _ Ht) as Hpl. pose proof (st_not_home _ _ _ Hpl) as Hstb.
  set (d0 := d_blocks (k_disk s)) in *.
  assert (Hvst : view s st = rdblk d0 st) by (by apply (trans_view _ _ _ _ _ _ _ _ Ht)).
  rewrite Hvst in Ed. pose proof (tr_header _ _ _ _ _ _ _ _ Ht) as Hho. fold d0 in Hho. pose proof (ho_length _ _ _ Hho) as Hlen.
  assert (Hnew : forall b, (if decide (b ∈ bs) then view s b else rdblk d0 b) = view s b).
  { intros b. case_decide as Hb; [reflexivity|]. symmetry. by apply (trans_view _ _ _ _ _ _ _ _ Ht). }
  destruct (apply_writes_states (commit_writes st (view s) (rdblk d0 st) bs) (k_disk s)) as (l & El & Hl).
  pose proof (apply_writes_blocks (commit_writes st (view s) (rdblk d0 st) bs) (k_disk s)) as Eb. fold d0 in Eb.
  unfold atomic_update. rewrite Ed, Eb. split; [split|split].
  - intros b Hb. rewrite <- Hnew. by eapply crash_done.
  - exists l. split; [exact El|]. intros d Hd. rewrite <- Eb in Hd. destruct (Hl d Hd) as [k ->]. fold d0.
    split; [by apply commit_header_ok|]. destruct (commit_writes_atomic sz st bs Hpl (view s) d0 Hlen) with (k := k) as [Ho|Hn];
      [by apply Ht|by left|]. right. intros b Hb. rewrite <- Hnew. by apply Hn.
  - rewrite <- (take_ge (commit_writes st (view s) (rdblk d0 st) bs) _ (le_n _)). by apply commit_header_ok.
  - eapply (crash_done sz st bs Hpl (view s) d0 Hlen (st - 1)). left. lia.
Qed.

(** [commit] in a state whose log differs from that of [s] in other fields. *)
Lemma commit_trans bs s l : trans me pr sz st c bs ∅ s -> (length bs < HEAD)%nat -> logged l st bs ->
  exists s', commit c (with_log l s) = Done tt c s' /\ uses (p_pid pr) ∅ s' /\ runs c s' me pr /\
    rest s' = set_k_log (set_l_n 0 l) (rest s) /\ (forall b, pending s' b = false) /\ atomic_update s s' /\ d_size (k_disk s') = sz /\
    header_ok sz st (rdblk (d_blocks (k_disk s')) st) /\ log_head (rdblk (d_blocks (k_disk s')) st) = [].
Proof using Hh Hst H0.
  intros Ht Hroom Hl. pose proof (trans_working _ _ _ _ _ _ _ _ Ht Hroom Hl) as Hw.
  pose proof (tr_placed _ _ _ _ _ _ _ _ Ht) as Hpl. destruct (decide (bs = [])) as [->|Hne].
  - exists (with_log l s). assert (Hn : l_n l = 0) by apply Hl. split; [|split; [apply Hw|split; [apply Hw|]]].
    { unfold commit. rewrite bind_get_log. cbn [with_log k_log set_k_log]. by rewrite Hn. }
    split; [replace (set_l_n 0 l) with l by (rewrite <- Hn; by destruct l); done|]. split; [|split; [|split; [apply Ht|split; apply Ht]]].
    + intros b. rewrite (pending_frame s) by reflexivity. apply not_true_iff_false. rewrite (tr_pending _ _ _ _ _ _ _ _ Ht).
      apply not_elem_of_nil.
    + assert (Hv : forall b, rdblk (d_blocks (k_disk s)) b = view s b).
      { intros b. symmetry. apply (trans_view _ _ _ _ _ _ _ _ Ht), not_elem_of_nil. }
      split; [intros b _; apply Hv|]. exists []. split; [reflexivity|]. intros d ->%list_elem_of_singleton.
      split; [apply Ht|]. left. intros b _. apply replay_id, Ht.
  - destruct (commit_run c me pr Hh Hst sz st bs Hpl (with_log l s) Hw Hne) as (s' & E & Hu & Hr & Ed & El & Hp).
    { intros b. rewrite (pending_frame s) by reflexivity. apply Ht. }
    assert (Ed' : k_disk s' = apply_writes (commit_writes st (view s) (view s st) bs) (k_disk s)).
    { rewrite Ed. rewrite (view_frame s (with_log l s) st) by reflexivity. f_equal. }
    destruct (commit_update bs s s' Ht Ed') as (Ha & Hlen & Hemp).
    exists s'. split; [exact E|]. split; [exact Hu|]. split; [exact Hr|]. split; [exact El|]. split; [exact Hp|].
    split; [exact Ha|]. split; [|by split]. rewrite Ed', apply_writes_size. apply Ht.
Qed.

Lemma trans_woken bs s l chan : uses (p_pid pr) ∅ s -> runs c s me pr -> logged l st bs -> l_committing l = false ->
  Z.of_nat (length (l_block l)) = LOGSIZE -> d_size (k_disk s) = sz -> placed sz st bs ->
  (forall b, pending s b = true <-> b ∈ bs) -> header_ok sz st (rdblk (d_blocks (k_disk s)) st) ->
  log_head (rdblk (d_blocks (k_disk s)) st) = [] -> trans me pr sz st c bs ∅ (woken chan (with_log l s)).
Proof using Hst.
  intros [order Hc] Hr Hl Hci Harr Hsz Hpl Hp Hlen Hemp. split; [|exists order; by apply (cache_frame _ _ s)|done..].
  by apply runs_woken.
Qed.

Lemma end_op_last bs s : trans me pr sz st c bs ∅ s -> (length bs < HEAD)%nat -> l_outstanding (k_log s) = 1 ->
  exists s', end_op c s = Done tt c s' /\ trans me pr sz st c [] ∅ s' /\ l_outstanding (k_log s') = 0 /\ atomic_update s s' /\
    l_size (k_log s') = l_size (k_log s) /\ rest s' = set_k_log (k_log s') (rest s).
Proof using Hh Hst H0.
  intros Ht Hroom Hout. pose proof (tr_placed _ _ _ _ _ _ _ _ Ht) as Hpl.
  assert (Hnh : log_lock ∉ held c) by (rewrite Hh; apply not_elem_of_empty).
  set (l := set_l_committing true (set_l_outstanding (l_outstanding (k_log s) - 1) (k_log s))).
  destruct (commit_trans bs s l Ht Hroom) as (s1 & E1 & Hu & Hr & Er & Hp & Ha & Hsz & Hlen & Hemp).
  { destruct (tr_log _ _ _ _ _ _ _ _ Ht) as [L1 L2 L3 L4]. by split. }
  assert (El : k_log s1 = set_l_n 0 l) by exact (f_equal k_log Er).
  exists (woken chan_log (with_log (set_l_committing false (k_log s1)) s1)). split; [|split; [|split]].
  - unfold end_op. rewrite bind_acquire by done. unfold upd_log. rewrite bind_modify, bind_get_log.
    cbn [k_log set_k_log l_committing set_l_outstanding l_outstanding]. rewrite (tr_idle _ _ _ _ _ _ _ _ Ht), Hout.
    change (1 - 1 =? 0) with true. cbv zeta. cbv iota. rewrite bind_modify, bind_release by done. cbn [when].
    replace (set_k_log _ _) with (with_log l s) by (unfold l; by rewrite Hout). erewrite bind_Done by exact E1.
    rewrite bind_acquire by done. rewrite bind_modify. erewrite bind_Done by (apply wakeup_run; set_solver).
    rewrite release_acquired by done. by rewrite ctx_eta.
  - rewrite El. apply trans_woken; try done; cbn.
    + destruct (tr_log _ _ _ _ _ _ _ _ Ht) as [L1 L2 L3 L4]. by split.
    + apply Ht.
    + by eapply placed_nil.
    + intros b. rewrite Hp. split; [done|]. intros Hin%not_elem_of_nil. done.
  - cbn. rewrite El. cbn. lia.
  - split; [exact Ha|]. split; [cbn; by rewrite El|]. exact (f_equal (set_k_log (set_l_committing false (k_log s1))) Er).
Qed.
End end_op.

(** ** A whole transaction *)

Lemma trans_room me pr sz st c bs X s : trans me pr sz st c bs X s -> (length bs < HEAD)%nat -> roomy s.
Proof. intros Ht Hlen. exists bs. split; [exact Hlen|]. intros b. apply Ht. Qed.

(** Changing one block, as the comment above [log_write] describes. *)
Definition update `{DiskDriver} (u : Z * list Z) : M kernel unit :=
  i ← bread ROOTDEV u.1;
  set_data i u.2;;
  log_write i;;
  brelse i.

Fixpoint updates `{DiskDriver} (us : list (Z * list Z)) : M kernel unit :=
  match us with [] => mret tt | u :: us' => update u;; updates us' end.

Definition transaction `{DiskDriver} (us : list (Z * list Z)) : M kernel unit :=
  begin_op;; updates us;; end_op.

Section transaction.
Context `{SyncDisk} (c : ctx) (me : nat) (pr : proc) (Hh : held c = ∅) (Hst : p_state pr = RUNNING) (sz st : Z).

Lemma bread_trans bs s b : trans me pr sz st c bs ∅ s -> (length bs < HEAD)%nat -> 0 <= b < sz ->
  exists i bf, bread ROOTDEV b c s = Done i c (set_buf i bf s) /\ (i < HEAD)%nat /\ k_bufs (set_buf i bf s) !! i = Some bf /\
    b_blockno bf = b /\ trans me pr sz st c bs {[i]} (set_buf i bf s) /\ (forall b', view (set_buf i bf s) b' = view s b').
Proof using Hh H0.
  intros Ht Hroom Hb. pose proof (tr_uses _ _ _ _ _ _ _ _ Ht) as Hu.
  destruct (bread_spec c me pr Hh s ∅ b) as (i & bf & E & Hi & _ & Hl & Hn & Hd & _ & Hu' & Hv & Hp).
  { apply Ht. } { exact Hu. } { by rewrite (tr_size _ _ _ _ _ _ _ _ Ht). } { intros i bf Hi. destruct (not_elem_of_empty _ Hi). }
  { right. destruct (roomy_clean (p_pid pr) s Hu (trans_room _ _ _ _ _ _ _ _ Ht Hroom)) as (i & bf & Hi & Hbf & Hd).
    exists i, bf. split; [exact Hi|]. split; [apply not_elem_of_empty|by split]. }
  rewrite (right_id_L ∅ (∪)) in Hu'. exists i, bf. split; [exact E|]. split; [exact Hi|]. split; [by apply set_buf_lookup|].
  split; [exact Hn|]. split; [|exact Hv]. destruct Ht as [T1 T2 T3 T4 T5 T6 T7 T8 T9 T10].
  split; [exact T1|exact Hu'|exact T3|exact T4|exact T5|exact T6| |exact T8|exact T9|exact T10].
  intros b'. rewrite Hp. apply T7.
Qed.

Lemma brelse_trans bs s i bf : trans me pr sz st c bs {[i]} s -> (i < HEAD)%nat -> k_bufs s !! i = Some bf -> dirty bf = true ->
  exists s', brelse i c s = Done tt c s' /\ trans me pr sz st c bs ∅ s' /\ k_disk s' = k_disk s /\ k_log s' = k_log s /\
    (forall b, view s' b = view s b).
Proof using Hh Hst H0.
  intros Ht Hi Hbf Hd. destruct (brelse_spec c me pr Hh s {[i]} i bf) as (s' & E & Hu & Hg & Ed & Hv & Hp & _).
  { apply Ht. } { exact Hst. } { apply Ht. } { exact Hi. } { by apply elem_of_singleton. } { exact Hbf. }
  { intros Hd'. rewrite Hd in Hd'. discriminate. }
  rewrite difference_diag_L in Hu. pose proof (rest_log _ _ (proj1 Hg)) as El. exists s'. split; [exact E|].
  split; [|split; [exact Ed|split; [exact El|exact Hv]]]. destruct Ht as [T1 T2 T3 T4 T5 T6 T7 T8 T9 T10].
  split; [apply Hg|exact Hu|by rewrite El|by rewrite El|by rewrite Ed|exact T6| |by rewrite Ed|by rewrite Ed|by rewrite El].
  intros b. rewrite Hp. apply T7.
Qed.

(** The log has a transaction open and room for [n] more blocks. *)
Definition room_for (n : nat) (bs : list Z) (s : kernel) : Prop :=
  Z.of_nat (length bs + n) < LOGSIZE /\ (length bs + n < HEAD)%nat /\ LOGSIZE <= l_size (k_log s) /\ 1 <= l_outstanding (k_log s).

Lemma update_trans bs s u n : trans me pr sz st c bs ∅ s -> room_for (S n) bs s -> 0 <= u.1 < sz -> home st u.1 ->
  exists s', update u c s = Done tt c s' /\ trans me pr sz st c (add_block u.1 bs) ∅ s' /\ room_for n (add_block u.1 bs) s' /\
    k_disk s' = k_disk s /\ (forall b, view s' b = if decide (b = u.1) then u.2 else view s b) /\
    l_outstanding (k_log s') = l_outstanding (k_log s).
Proof using Hh Hst H0.
  intros Ht (R1 & R2 & R3 & R4) Hb Hhome. destruct u as [b d]. cbn [fst snd] in *.
  destruct (bread_trans bs s b Ht) as (i & bf & E1 & Hi & Hbf & Hn & Ht1 & Hv1); [lia|exact Hb|]. set (s1 := set_buf i bf s) in *.
  destruct (log_write_trans c me pr Hh sz st bs {[i]} s1 i bf d Ht1 Hi) as (s2 & E2 & Ht2 & Hd2 & Hv2 & Hl2 & Hbf2).
  { by apply elem_of_singleton. } { exact Hbf. } { by rewrite Hn. } { lia. } { change (k_log s1) with (k_log s). lia. } { exact R4. }
  destruct (brelse_trans (add_block (b_blockno bf) bs) s2 i (dirtied (set_b_data d bf)) Ht2 Hi Hbf2) as (s3 & E3 & Ht3 & Hd3 & Hl3 & Hv3).
  { pose proof (tr_uses _ _ _ _ _ _ _ _ Ht1) as [order Hc].
    apply (dirtied_valid s1 pr {[i]} order i bf Hc Hi); [by apply elem_of_singleton|exact Hbf]. }
  rewrite Hn in *. exists s3. split.
  { unfold update, set_data. cbn [fst snd]. erewrite bind_Done by exact E1. erewrite bind_upd_buf_at by exact Hbf.
    erewrite bind_Done by exact E2. exact E3. }
  assert (Ho : l_size (k_log s3) = l_size (k_log s) /\ l_outstanding (k_log s3) = l_outstanding (k_log s)).
  { rewrite Hl3, Hl2. change (k_log s1) with (k_log s). unfold record_block. by case_match. }
  split; [exact Ht3|]. split; [|split; [by rewrite Hd3, Hd2|split; [|apply Ho]]].
  - unfold room_for. rewrite (proj1 Ho), (proj2 Ho). unfold add_block. case_decide; rewrite ?length_app; cbn; lia.
  - intros b'. rewrite Hv3, Hv2. case_decide; [reflexivity|]. apply Hv1.
Qed.

Definition updated (us : list (Z * list Z)) (f : Z -> list Z) : Z -> list Z :=
  foldl (fun f u b => if decide (b = u.1) then u.2 else f b) f us.

Lemma updated_ext us : forall f g, (forall b, f b = g b) -> forall b, updated us f b = updated us g b.
Proof. induction us as [|u us IH]; intros f g E b; [apply E|]. cbn. apply IH. intros x. case_decide; [reflexivity|apply E]. Qed.

Lemma updates_trans us : forall bs s, trans me pr sz st c bs ∅ s -> room_for (length us) bs s ->
  Forall (fun u => 0 <= u.1 < sz /\ home st u.1) us ->
  exists s' bs', updates us c s = Done tt c s' /\ trans me pr sz st c bs' ∅ s' /\ room_for 0 bs' s' /\ k_disk s' = k_disk s /\
    (forall b, view s' b = updated us (view s) b) /\ l_outstanding (k_log s') = l_outstanding (k_log s).
Proof using Hh Hst H0.
  induction us as [|u us IH]; intros bs s Ht Hroom Hus.
  - exists s, bs. split; [reflexivity|]. split; [exact Ht|]. split; [exact Hroom|]. split; [reflexivity|]. by split.
  - apply Forall_cons in Hus as [[Hu1 Hu2] Hus].
    destruct (update_trans bs s u (length us) Ht Hroom Hu1 Hu2) as (s1 & E1 & Ht1 & Hr1 & Hd1 & Hv1 & Ho1).
    destruct (IH _ s1 Ht1 Hr1 Hus) as (s' & bs' & E & Ht' & Hr' & Hd' & Hv' & Ho').
    exists s', bs'. split; [cbn [updates]; erewrite bind_Done by exact E1; exact E|]. split; [exact Ht'|]. split; [exact Hr'|].
    split; [by rewrite Hd'|]. split; [|by rewrite Ho']. intros b. rewrite Hv'. cbn [updated foldl]. apply updated_ext, Hv1.
Qed.

Lemma begin_op_run s : log_lock ∉ held c -> l_committing (k_log s) = false ->
  l_n (k_log s) + (l_outstanding (k_log s) + 1) * MAXOPBLOCKS <= LOGSIZE ->
  begin_op c s = Done tt c (with_log (set_l_outstanding (l_outstanding (k_log s) + 1) (k_log s)) s).
Proof using Type.
  intros Hnh Hci Hroom. unfold begin_op. rewrite bind_acquire by done. rewrite bind_get_log, Hci, Z.gtb_ltb.
  rewrite (proj2 (Z.ltb_ge _ _)) by lia. unfold upd_log. rewrite bind_modify, release_acquired, ctx_eta by done. reflexivity.
Qed.

Lemma trans_with_log bs s l : trans me pr sz st c bs ∅ s -> logged l st bs -> Z.of_nat (length (l_block l)) = LOGSIZE ->
  l_committing l = false -> trans me pr sz st c bs ∅ (with_log l s).
Proof using Type.
  intros [T1 [order Hc] T3 T4 T5 T6 T7 T8 T9 T10] Hl Ha Hci.
  split; [exact T1|exists order; by apply (cache_frame _ _ s)|exact Hl|exact Ha|exact T5|exact T6| |exact T8|exact T9|exact Hci].
  intros b. rewrite (pending_frame s) by reflexivity. apply T7.
Qed.
End transaction.

(** ** Recovery at the next boot *)

(** The state in which [recover_from_log] is called, whatever is on the disk. *)
Record rebooted (c : ctx) (me : nat) (pr : proc) (st : Z) (s : kernel) : Prop := Rebooted {
  rb_runs : runs c s me pr;
  rb_uses : uses (p_pid pr) ∅ s;
  rb_clean : forall b, pending s b = false;
  rb_dev : l_dev (k_log s) = ROOTDEV;
  rb_start : l_start (k_log s) = st;
  rb_array : Z.of_nat (length (l_block (k_log s))) = LOGSIZE;
}.

Lemma recover_booted `{SyncDisk} c me pr sz st s : held c = ∅ -> p_state pr = RUNNING -> rebooted c me pr st s ->
  d_size (k_disk s) = sz -> header_ok sz st (rdblk (d_blocks (k_disk s)) st) ->
  exists s', recover_from_log c s = Done tt c s' /\
    forall b, home st b -> rdblk (d_blocks (k_disk s')) b = rdblk (replay st (d_blocks (k_disk s))) b.
Proof.
  intros Hh Hst [R1 R2 R3 R4 R5 R6] Hsz Hok.
  destruct (recover_run c me pr Hh Hst s sz st) as (s' & E & _ & _ & Ed & _); [by split|].
  exists s'. split; [exact E|]. intros b Hb. rewrite Ed, apply_writes_blocks. by eapply recovery_writes_done.
Qed.

(** ** Theorems *)

(** C1: A file system operation is atomic.  Between [begin_op] and [end_op] it
    changes some blocks with [bread], [log_write] and [brelse]; the changes
    reach the disk, and if the machine stops at any time, with the disk in any
    of the states it went through, then [recover_from_log] at the next boot
    leaves either none of them or all of them. *)
Theorem transaction_atomic `{SyncDisk} (c : ctx) (me : nat) (pr : proc) (sz st : Z) (us : list (Z * list Z)) (s : kernel) :
  held c = ∅ -> p_state pr = RUNNING -> trans me pr sz st c [] ∅ s ->
  l_outstanding (k_log s) = 0 -> LOGSIZE <= l_size (k_log s) ->
  Forall (fun u => 0 <= u.1 < sz /\ home st u.1) us -> Z.of_nat (length us) <= MAXOPBLOCKS ->
  let old := rdblk (d_blocks (k_disk s)) in let new := updated us old in
  exists s' l, transaction us c s = Done tt c s' /\ trans me pr sz st c [] ∅ s' /\ l_outstanding (k_log s') = 0 /\
    (forall b, home st b -> rdblk (d_blocks (k_disk s')) b = new b) /\ d_past (k_disk s') = l ++ d_past (k_disk s) /\
    forall d, d ∈ d_blocks (k_disk s') :: l ->
    forall c' me' pr' s0, held c' = ∅ -> p_state pr' = RUNNING -> d_size (k_disk s0) = sz -> d_blocks (k_disk s0) = d ->
      rebooted c' me' pr' st s0 -> exists s1, recover_from_log c' s0 = Done tt c' s1 /\
      ((forall b, home st b -> rdblk (d_blocks (k_disk s1)) b = old b) \/
       (forall b, home st b -> rdblk (d_blocks (k_disk s1)) b = new b)).
Proof.
  intros Hh Hst Ht Hout Hsize Hus Hlen old new. assert (Hnh : log_lock ∉ held c) by (rewrite Hh; apply not_elem_of_empty).
  pose proof (tr_log _ _ _ _ _ _ _ _ Ht) as [L1 L2 L3 L4]. cbn in L3.
  set (s1 := with_log (set_l_outstanding (l_outstanding (k_log s) + 1) (k_log s)) s).
  assert (Ht1 : trans me pr sz st c [] ∅ s1) by (apply trans_with_log; [exact Ht|by split|apply Ht|apply Ht]).
  destruct (updates_trans c me pr Hh Hst sz st us [] s1 Ht1) as (s2 & bs & E2 & Ht2 & (_ & Hr2 & _) & Hd2 & Hv2 & Ho2).
  { unfold room_for. cbn. rewrite HEAD_value, Hout. unfold LOGSIZE, MAXOPBLOCKS in *. lia. } { exact Hus. }
  destruct (end_op_last c me pr Hh Hst sz st bs s2 Ht2) as (s3 & E3 & Ht3 & Ho3 & (Ha & l & El & Hl) & _).
  { lia. } { rewrite Ho2. cbn. lia. }
  assert (Hnew : forall b, view s2 b = new b).
  { intros b. rewrite Hv2. apply updated_ext. intros x. apply (trans_view _ _ _ _ _ _ _ _ Ht1), not_elem_of_nil. }
  exists s3, l. split; [|split; [exact Ht3|split; [exact Ho3|split; [|split]]]].
  - unfold transaction. erewrite bind_Done by (apply begin_op_run; [exact Hnh|apply Ht|rewrite L3, Hout; unfold LOGSIZE, MAXOPBLOCKS; lia]).
    erewrite bind_Done by exact E2. exact E3.
  - intros b Hb. rewrite Ha by exact Hb. apply Hnew.
  - by rewrite El, Hd2.
  - intros d Hd c' me' pr' s0 Hh' Hst' Hsz' Hdb Hre. destruct (Hl d Hd) as [Hok Hcase].
    destruct (recover_booted c' me' pr' sz st s0 Hh' Hst' Hre Hsz') as (s4 & E4 & Hd4); [by rewrite Hdb|].
    exists s4. split; [exact E4|]. rewrite Hdb in Hd4.
    destruct Hcase as [Ho|Hn]; [left|right]; intros b Hb; rewrite Hd4 by exact Hb; [by rewrite Ho, Hd2|].
    rewrite Hn by exact Hb. apply Hnew.
Qed.

(** A file system for examples: 100 blocks, of which the log has blocks 2 to 31;
    [h] is the header. *)
Definition ex_log : logst := {| l_start := 2; l_size := 30; l_outstanding := 0; l_committing := false; l_dev := ROOTDEV;
  l_n := 0; l_block := replicate 30 0 |}.
Definition ex_fs (h : list Z) (blocks : gmap Z (list Z)) : kernel := ex_disk 100 (<[2 := h]> blocks) (set_k_log ex_log ex_kernel).

Lemma ex_fs_boot h blocks : exists s, binit ex_idle (ex_fs h blocks) = Done tt ex_idle s /\ k_log s = ex_log /\
  k_disk s = Disk 100 (<[2 := h]> blocks) [] /\ rebooted ex_idle 0 ex_proc 2 s.
Proof.
  destruct (ex_disk_binit ex_idle 100 (<[2 := h]> blocks) (set_k_log ex_log ex_kernel) 1) as (s & E & Hu & Hd & Hp & Hpend).
  destruct (binit_run ex_idle (ex_fs h blocks)) as (bs & E' & _); [apply length_replicate|].
  pose proof E' as E''. unfold ex_fs in E''. rewrite E in E''. injection E'' as Es.
  assert (El : k_log s = ex_log) by (rewrite Es; reflexivity).
  exists s. split; [exact E|]. split; [exact El|]. split; [exact Hd|].
  split; rewrite ?El; [|exact Hu|exact Hpend|reflexivity|reflexivity|reflexivity].
  split; [reflexivity|rewrite Hp; reflexivity].
Qed.

Lemma placed_empty : placed 100 2 [].
Proof.
  split; [lia|unfold LOGSIZE, MAXOPBLOCKS; lia|lia|unfold LOGSIZE, MAXOPBLOCKS; cbn; lia|apply NoDup_nil_2|].
  intros b Hb%not_elem_of_nil. destruct Hb.
Qed.

Lemma ex_fs_trans blocks : exists s, binit ex_idle (ex_fs (replicate 512 0) blocks) = Done tt ex_idle s /\ k_log s = ex_log /\
  trans 0 ex_proc 100 2 ex_idle [] ∅ s.
Proof.
  destruct (ex_fs_boot (replicate 512 0) blocks) as (s & E & El & Hd & [R1 R2 R3 _ _ _]). exists s. split; [exact E|]. split; [exact El|].
  assert (Er : rdblk (d_blocks (k_disk s)) 2 = replicate 512 0) by (rewrite Hd; cbn; by rewrite rdblk_insert).
  assert (Eh : log_head (replicate 512 0) = []) by (vm_compute; reflexivity).
  split; rewrite ?El, ?Er; [exact R1|exact R2| |reflexivity|rewrite Hd; reflexivity|apply placed_empty| | |exact Eh|reflexivity].
  - split; [reflexivity|reflexivity|reflexivity|]. intros k b Hk. rewrite lookup_nil in Hk. discriminate.
  - intros b. rewrite R3. split; [discriminate|]. intros Hb%not_elem_of_nil. destruct Hb.
  - split; [rewrite Eh; apply placed_empty|vm_compute; discriminate|reflexivity].
Qed.

Lemma transaction_atomic_witness : exists s s', binit ex_idle (ex_fs (replicate 512 0) ∅) = Done tt ex_idle s /\
  transaction [(40, [1]); (41, [2])] ex_idle s = Done tt ex_idle s' /\
  rdblk (d_blocks (k_disk s')) 40 = [1] /\ rdblk (d_blocks (k_disk s')) 41 = [2].
Proof.
  destruct (ex_fs_trans ∅) as (s & E & El & Ht).
  destruct (transaction_atomic ex_idle 0 ex_proc 100 2 [(40, [1]); (41, [2])] s) as (s' & l & E' & _ & _ & Hnew & _).
  - reflexivity.
  - reflexivity.
  - exact Ht.
  - rewrite El. reflexivity.
  - rewrite El. cbn. unfold LOGSIZE, MAXOPBLOCKS. lia.
  - apply Forall_cons. split; [cbn; unfold home, LOGSIZE, MAXOPBLOCKS; lia|].
    apply Forall_cons. split; [cbn; unfold home, LOGSIZE, MAXOPBLOCKS; lia|apply Forall_nil; exact I].
  - cbn. unfold MAXOPBLOCKS. lia.
  - exists s, s'. split; [exact E|]. split; [exact E'|]. split.
    + rewrite Hnew; [reflexivity|]. right. unfold LOGSIZE, MAXOPBLOCKS. lia.
    + rewrite Hnew; [reflexivity|]. right. unfold LOGSIZE, MAXOPBLOCKS. lia.
Defined.

(** C5: [recover_from_log] finishes a committed transaction: every block of the
    file system gets the contents the log has for it, and the log is then empty.
    A crash during recovery does no harm: from every state the disk goes
    through, the next recovery yields the same contents. *)
Theorem recovery_idempotent `{SyncDisk} (c : ctx) (me : nat) (pr : proc) (sz st : Z) (s : kernel) :
  held c = ∅ -> p_state pr = RUNNING -> booted c me pr sz st s ->
  let final := replay st (d_blocks (k_disk s)) in
  exists s' l, recover_from_log c s = Done tt c s' /\ l_n (k_log s') = 0 /\
    (forall b, home st b -> rdblk (d_blocks (k_disk s')) b = rdblk final b) /\
    log_head (rdblk (d_blocks (k_disk s')) st) = [] /\ d_past (k_disk s') = l ++ d_past (k_disk s) /\
    forall d, d ∈ d_blocks (k_disk s') :: l -> header_ok sz st (rdblk d st) /\
      forall b, home st b -> rdblk (replay st d) b = rdblk final b.
Proof.
  intros Hh Hst Hb final. destruct (recover_run c me pr Hh Hst s sz st Hb) as (s' & E & _ & _ & Ed & El & _).
  pose proof (bt_header _ _ _ _ _ _ Hb) as Hok. set (d0 := d_blocks (k_disk s)) in *.
  destruct (apply_writes_states (recovery_writes st d0) (k_disk s)) as (l & Epast & Hl). rewrite <- Ed in Epast, Hl. fold d0 in Hl.
  assert (Eb : d_blocks (k_disk s') = put_all (recovery_writes st d0) d0) by (by rewrite Ed, apply_writes_blocks).
  exists s', l. split; [exact E|]. split; [exact El|]. split; [|split; [|split; [exact Epast|]]].
  - intros b Hhome. rewrite Eb. by eapply recovery_writes_done.
  - rewrite Eb. eapply (recovery_writes_done sz st d0 Hok (st - 1)). left. lia.
  - intros d Hd. destruct (Hl d Hd) as [k ->]. split; [by apply recovery_header_ok|]. intros b Hhome. by eapply recovery_writes_stable.
Qed.

(** A header that lists block 40. *)
Definition ex_header : list Z := put32 (put32 (replicate 512 0) 0 1) 4 40.

Lemma recovery_idempotent_witness : exists s s', binit ex_idle (ex_fs ex_header {[3 := [7]]}) = Done tt ex_idle s /\
  recover_from_log ex_idle s = Done tt ex_idle s' /\ rdblk (d_blocks (k_disk s')) 40 = [7].
Proof.
  destruct (ex_fs_boot ex_header {[3 := [7]]}) as (s & E & El & Hd & [R1 R2 R3 R4 R5 R6]).
  destruct (recovery_idempotent ex_idle 0 ex_proc 100 2 s) as (s' & l & E' & _ & Hnew & _).
  - reflexivity.
  - reflexivity.
  - assert (Eh : log_head ex_header = [40]) by (vm_compute; reflexivity).
    split; [exact R1|exact R2|exact R3|exact R4|exact R5|exact R6|rewrite Hd; reflexivity|]. rewrite Hd. cbn [d_blocks].
    rewrite rdblk_insert, decide_True by reflexivity. split; [|vm_compute; discriminate|reflexivity]. rewrite Eh.
    apply (placed_add 100 2 40 [] placed_empty); [lia|right; unfold LOGSIZE, MAXOPBLOCKS; lia|cbn; unfold LOGSIZE, MAXOPBLOCKS; lia].
  - exists s, s'. split; [exact E|]. split; [exact E'|]. rewrite Hnew by (right; unfold LOGSIZE, MAXOPBLOCKS; lia).
    rewrite Hd. vm_compute. reflexivity.
Defined.

(** ** The space of the log

    [left] are the numbers of blocks the open operations may still write. *)

Inductive log_step `{SyncDisk} (c : ctx) : kernel * list nat -> kernel * list nat -> Prop :=
| step_begin s s' left : begin_op c s = Done tt c s' -> log_step c (s, left) (s', Z.to_nat MAXOPBLOCKS :: left)
| step_write s s' l1 n l2 i : log_write i c s = Done tt c s' -> log_step c (s, l1 ++ S n :: l2) (s', l1 ++ n :: l2)
| step_end s s' l1 n l2 : end_op c s = Done tt c s' -> l1 ++ l2 <> [] -> log_step c (s, l1 ++ n :: l2) (s', l1 ++ l2)
| step_commit s s' n me pr sz st bs : p_state pr = RUNNING -> trans me pr sz st c bs ∅ s -> (length bs < HEAD)%nat ->
    end_op c s = Done tt c s' -> log_step c (s, [n]) (s', []).

(** What [begin_op] has reserved fits into the log. *)
Record reserved (left : list nat) (s : kernel) : Prop := Reserved {
  rs_ops : l_outstanding (k_log s) = Z.of_nat (length left);
  rs_pos : 0 <= l_n (k_log s);
  rs_each : Forall (fun n => Z.of_nat n <= MAXOPBLOCKS) left;
  rs_fits : l_n (k_log s) + Z.of_nat (sum_list left) <= LOGSIZE;
}.

Lemma sum_list_app l1 l2 : sum_list (l1 ++ l2) = (sum_list l1 + sum_list l2)%nat.
Proof. induction l1 as [|n l1 IH]; [reflexivity|]. cbn. rewrite IH. lia. Qed.

Lemma sum_list_bound left : Forall (fun n => Z.of_nat n <= MAXOPBLOCKS) left ->
  Z.of_nat (sum_list left) <= Z.of_nat (length left) * MAXOPBLOCKS.
Proof. induction 1 as [|n left Hn _ IH]; [reflexivity|]. cbn. lia. Qed.

Lemma begin_op_reserved c s s' left : held c = ∅ -> reserved left s -> begin_op c s = Done tt c s' ->
  reserved (Z.to_nat MAXOPBLOCKS :: left) s' /\ l_size (k_log s') = l_size (k_log s).
Proof.
  intros Hh [R1 R2 R3 R4] E. assert (Hnh : log_lock ∉ held c) by (rewrite Hh; apply not_elem_of_empty).
  destruct (l_committing (k_log s)) eqn:Hci.
  { unfold begin_op in E. rewrite bind_acquire, bind_get_log, Hci in E by done. by apply sleep_not_done in E. }
  destruct (decide (l_n (k_log s) + (l_outstanding (k_log s) + 1) * MAXOPBLOCKS <= LOGSIZE)) as [Hfit|Hfit].
  2:{ unfold begin_op in E. rewrite bind_acquire, bind_get_log, Hci, Z.gtb_ltb, (proj2 (Z.ltb_lt _ _)) in E by (done || lia).
      by apply sleep_not_done in E. }
  rewrite begin_op_run in E by done. injection E as <-. split; [|reflexivity]. pose proof (sum_list_bound _ R3) as Hs. split; cbn.
  - lia.
  - exact R2.
  - constructor; [|exact R3]. unfold MAXOPBLOCKS. lia.
  - unfold MAXOPBLOCKS in *. lia.
Qed.

Lemma buf_at_none i c s : k_bufs s !! i = None -> forall B (k : buf -> M kernel B) b c' s', (buf_at i ≫= k) c s <> Done b c' s'.
Proof. intros Hi B k b c' s' E. apply bind_Done_inv in E as (a & c1 & s1 & E & _). unfold buf_at, elem_at in E. by rewrite Hi in E. Qed.

Lemma log_write_inv i c s s' : log_lock ∉ held c -> 0 <= l_n (k_log s) -> log_write i c s = Done tt c s' ->
  exists bf, k_log s' = record_block (b_blockno bf) (k_log s).
Proof.
  intros Hnh Hn E. destruct ((l_n (k_log s) >=? LOGSIZE) || (l_n (k_log s) >=? l_size (k_log s) - 1)) eqn:E1.
  { unfold log_write in E. by rewrite bind_get_log, E1 in E. }
  destruct (l_outstanding (k_log s) <? 1) eqn:E2.
  { unfold log_write in E. by rewrite bind_get_log, E1, E2 in E. }
  destruct (k_bufs s !! i) as [bf|] eqn:Hbf.
  - exists bf. apply orb_false_iff in E1 as [E1 E1']. rewrite Z.geb_leb in E1, E1'. rewrite Z.leb_gt in E1, E1'. rewrite Z.ltb_ge in E2.
    rewrite (log_write_run c s i bf) in E by (done || lia). injection E as <-. reflexivity.
  - exfalso. unfold log_write in E. rewrite bind_get_log, E1, E2, bind_acquire in E by done.
    by apply (buf_at_none i _ s Hbf) in E.
Qed.

Lemma record_block_n b l : l_outstanding (record_block b l) = l_outstanding l /\ l_size (record_block b l) = l_size l /\
  l_n l <= l_n (record_block b l) <= l_n l + 1.
Proof. unfold record_block. case_match; cbn; split_and!; (done || lia). Qed.

Lemma log_write_reserved c s s' l1 n l2 i : held c = ∅ -> reserved (l1 ++ S n :: l2) s -> log_write i c s = Done tt c s' ->
  reserved (l1 ++ n :: l2) s' /\ l_size (k_log s') = l_size (k_log s).
Proof.
  intros Hh [R1 R2 R3 R4] E. apply log_write_inv in E as [bf E]; [|rewrite Hh; apply not_elem_of_empty|exact R2].
  destruct (record_block_n (b_blockno bf) (k_log s)) as (Ho & Hs & Hn). rewrite <- E in Ho, Hs, Hn. split; [|exact Hs].
  rewrite Forall_app, Forall_cons in R3. rewrite length_app, sum_list_app in *. cbn in *. split.
  - rewrite Ho, R1, length_app. reflexivity.
  - lia.
  - rewrite Forall_app, Forall_cons. destruct R3 as (? & ? & ?). split; [done|]. split; [lia|done].
  - rewrite sum_list_app. cbn. lia.
Qed.

Lemma end_op_reserved `{SyncDisk} c s s' l1 n l2 : held c = ∅ -> reserved (l1 ++ n :: l2) s -> l1 ++ l2 <> [] ->
  end_op c s = Done tt c s' -> reserved (l1 ++ l2) s' /\ l_size (k_log s') = l_size (k_log s).
Proof.
  intros Hh [R1 R2 R3 R4] Hne E. assert (Hnh : log_lock ∉ held c) by (rewrite Hh; apply not_elem_of_empty).
  assert (Hlen : Z.of_nat (length (l1 ++ n :: l2)) = Z.of_nat (length (l1 ++ l2)) + 1) by (rewrite !length_app; cbn; lia).
  assert (1 <= Z.of_nat (length (l1 ++ l2))) by (destruct (l1 ++ l2); [done|cbn; lia]).
  unfold end_op in E. rewrite bind_acquire in E by done. unfold upd_log in E. rewrite bind_modify, bind_get_log in E.
  cbn [k_log set_k_log l_committing l_outstanding set_l_outstanding] in E. destruct (l_committing (k_log s)); [discriminate|].
  rewrite R1, Hlen in E. cbv zeta in E. rewrite (proj2 (Z.eqb_neq _ _)) in E by lia.
  erewrite bind_Done in E by (apply wakeup_run; set_solver). rewrite bind_release in E by done. injection E as <-.
  rewrite Forall_app, Forall_cons in R3. rewrite sum_list_app in R4. cbn in R4. split; [split; cbn|reflexivity].
  - lia.
  - exact R2.
  - rewrite Forall_app. tauto.
  - rewrite sum_list_app. lia.
Qed.

Lemma log_step_reserved `{SyncDisk} c x y : held c = ∅ -> log_step c x y -> reserved x.2 x.1 ->
  reserved y.2 y.1 /\ l_size (k_log y.1) = l_size (k_log x.1).
Proof.
  intros Hh Hstep. destruct Hstep as [s s' left E|s s' l1 n l2 i E|s s' l1 n l2 E Hne|s s' n me pr sz st bs Hst Ht Hroom E]; cbn [fst snd]; intros Hr.
  - by eapply begin_op_reserved.
  - by eapply log_write_reserved.
  - by eapply end_op_reserved.
  - pose proof (rs_ops _ _ Hr) as Ho. destruct (end_op_last c me pr Hh Hst sz st bs s Ht Hroom Ho) as (s1 & E1 & Ht1 & Ho1 & _ & Hs1 & _).
    rewrite E in E1. injection E1 as <-. pose proof (lg_n _ _ _ (tr_log _ _ _ _ _ _ _ _ Ht1)) as Hn. cbn in Hn. split; [|exact Hs1].
    split; cbn; [exact Ho1|lia|constructor|unfold LOGSIZE, MAXOPBLOCKS; lia].
Qed.

Lemma log_steps_reserved `{SyncDisk} c x y : held c = ∅ -> rtc (log_step c) x y -> reserved x.2 x.1 ->
  reserved y.2 y.1 /\ l_size (k_log y.1) = l_size (k_log x.1).
Proof.
  intros Hh Hsteps. induction Hsteps as [x|x y z Hxy _ IH]; intros Hx; [by split|].
  destruct (log_step_reserved c x y Hh Hxy Hx) as [Hy E]. destruct (IH Hy) as [Hz E']. split; [exact Hz|congruence].
Qed.

(** C22: If each operation writes at most [MAXOPBLOCKS] blocks, then however the
    operations of different processes interleave the log never holds more than
    [LOGSIZE] blocks, and on a disk whose log has room for [LOGSIZE] blocks
    besides its header, [log_write] never panics. *)
Theorem log_never_overflows `{SyncDisk} (c : ctx) (s0 s : kernel) (left : list nat) :
  held c = ∅ -> l_outstanding (k_log s0) = 0 -> l_n (k_log s0) = 0 -> rtc (log_step c) (s0, []) (s, left) ->
  l_n (k_log s) + Z.of_nat (sum_list left) <= LOGSIZE /\
  forall i bf n, LOGSIZE < l_size (k_log s0) -> S n ∈ left -> k_bufs s !! i = Some bf -> exists s', log_write i c s = Done tt c s'.
Proof.
  intros Hh Ho Hn Hsteps. destruct (log_steps_reserved c _ _ Hh Hsteps) as [[R1 R2 R3 R4] E]; cbn [fst snd] in *.
  { split; cbn; [exact Ho|lia|constructor|rewrite Hn; unfold LOGSIZE, MAXOPBLOCKS; lia]. }
  split; [exact R4|]. intros i bf n Hsize Hleft Hbf. apply list_elem_of_split in Hleft as (l1 & l2 & ->).
  rewrite sum_list_app in R4. rewrite length_app in R1. cbn in R1, R4. eexists.
  apply (log_write_run c s i bf Hbf); [rewrite Hh; apply not_elem_of_empty|lia|lia|lia].
Qed.

Lemma log_never_overflows_witness : exists s s',
  begin_op ex_idle (ex_fs [] ∅) = Done tt ex_idle s /\ l_n (k_log s) + Z.of_nat (sum_list [10%nat]) <= LOGSIZE /\
  begin_op ex_idle (set_k_log (set_l_size 31 ex_log) (ex_fs [] ∅)) = Done tt ex_idle s' /\ exists s'', log_write 0 ex_idle s' = Done tt ex_idle s''.
Proof.
  assert (Hc : held ex_idle = ∅) by reflexivity.
  set (s1 := with_log (set_l_outstanding 1 ex_log) (ex_fs [] ∅)).
  set (s2 := set_k_log (set_l_size 31 ex_log) (ex_fs [] ∅)). set (s3 := with_log (set_l_outstanding 1 (set_l_size 31 ex_log)) s2).
  assert (E1 : begin_op ex_idle (ex_fs [] ∅) = Done tt ex_idle s1)
    by (apply begin_op_run; [apply not_elem_of_empty|reflexivity|cbn; unfold LOGSIZE, MAXOPBLOCKS; lia]).
  assert (E3 : begin_op ex_idle s2 = Done tt ex_idle s3)
    by (apply begin_op_run; [apply not_elem_of_empty|reflexivity|cbn; unfold LOGSIZE, MAXOPBLOCKS; lia]).
  exists s1, s3. split; [exact E1|]. split; [|split; [exact E3|]].
  - apply (log_never_overflows ex_idle (ex_fs [] ∅) s1 [10%nat] Hc eq_refl eq_refl), rtc_once. by apply (step_begin ex_idle _ _ []).
  - eapply (log_never_overflows ex_idle s2 s3 [10%nat] Hc eq_refl eq_refl).
    + apply rtc_once. by apply (step_begin ex_idle _ _ []).
    + cbn. unfold LOGSIZE, MAXOPBLOCKS. lia.
    + apply list_elem_of_singleton. reflexivity.
    + reflexivity.
Defined.

(** ** The log as mkfs lays it out

    [mkfs] gives the log [LOGSIZE] blocks, header included, so the test
    [log.lh.n >= log.size - 1] of [log_write] allows one block less than
    [begin_op] hands out. *)

Definition crowded : kernel :=
  set_k_bufs ((fun b => Buf 2 ROOTDEV b (SleepLock false 0) 0 0 0 None []) <$> seqZ 100 30) (set_k_log ex_log ex_kernel).

Lemma placed_run k : 0 <= k < LOGSIZE -> placed 200 2 (seqZ 100 k).
Proof.
  unfold LOGSIZE, MAXOPBLOCKS. intros Hk. split; rewrite ?length_seqZ; unfold LOGSIZE, MAXOPBLOCKS; [lia..|apply NoDup_seqZ|].
  intros b Hb%elem_of_seqZ. lia.
Qed.

Lemma add_block_run k : 0 <= k -> add_block (100 + k) (seqZ 100 k) = seqZ 100 (k + 1).
Proof.
  intros Hk. unfold add_block. rewrite decide_False by (rewrite elem_of_seqZ; lia). rewrite seqZ_app by lia. f_equal.
Qed.

Record crowd (k : Z) (s : kernel) : Prop := Crowd {
  cr_log : logged (k_log s) 2 (seqZ 100 k);
  cr_array : Z.of_nat (length (l_block (k_log s))) = LOGSIZE;
  cr_size : l_size (k_log s) = LOGSIZE;
  cr_ops : l_outstanding (k_log s) = 3;
  cr_bufs : forall i, (i < 30)%nat -> exists bf, k_bufs s !! i = Some bf /\ b_blockno bf = 100 + Z.of_nat i;
}.

Lemma crowd_write (k : nat) s : crowd (Z.of_nat k) s -> (k < 29)%nat ->
  exists s', log_write k ex_idle s = Done tt ex_idle s' /\ crowd (Z.of_nat (S k)) s'.
Proof.
  intros [C1 C2 C3 C4 C5] Hk. destruct (C5 k) as (bf & Hbf & Hb); [lia|]. pose proof (lg_n _ _ _ C1) as Hn. rewrite length_seqZ in Hn.
  eexists. split.
  { apply (log_write_run ex_idle s k bf Hbf); [apply not_elem_of_empty|..]; unfold LOGSIZE, MAXOPBLOCKS in *; lia. }
  destruct (record_block_n (b_blockno bf) (k_log s)) as (Ho & Hs & _). split; cbn [k_log set_buf set_k_bufs set_k_log].
  - rewrite Hb. replace (Z.of_nat (S k)) with (Z.of_nat k + 1) by lia. rewrite <- add_block_run by lia.
    apply record_block_logged with 200; [exact C1|apply placed_run; unfold LOGSIZE, MAXOPBLOCKS; lia|lia|exact C2|].
    rewrite length_seqZ. unfold LOGSIZE, MAXOPBLOCKS. lia.
  - unfold record_block. case_match; cbn; by rewrite length_insert.
  - by rewrite Hs.
  - by rewrite Ho.
  - intros i Hi. destruct (decide (i = k)) as [->|Hne].
    + exists (dirtied bf). split; [|exact Hb]. apply list_lookup_insert_eq. by eapply lookup_lt_Some.
    + cbn. rewrite list_lookup_insert_ne by done. by apply C5.
Qed.

Lemma sum_list_pos left : (0 < sum_list left)%nat -> exists l1 n l2, left = l1 ++ S n :: l2.
Proof.
  induction left as [|m left IH]; cbn; intros Hs; [lia|]. destruct m as [|m]; [|by exists [], m, left].
  destruct (IH Hs) as (l1 & n & l2 & ->). by exists (0%nat :: l1), n, l2.
Qed.

Lemma crowd_reach (k : nat) : (k <= 29)%nat -> exists s left, rtc (log_step ex_idle) (crowded, []) (s, left) /\
  crowd (Z.of_nat k) s /\ (k + sum_list left = 30)%nat.
Proof.
  induction k as [|k IH]; intros Hk.
  - assert (Hb : forall s left, l_committing (k_log s) = false -> l_n (k_log s) + (l_outstanding (k_log s) + 1) * MAXOPBLOCKS <= LOGSIZE ->
      log_step ex_idle (s, left) (with_log (set_l_outstanding (l_outstanding (k_log s) + 1) (k_log s)) s, Z.to_nat MAXOPBLOCKS :: left)).
    { intros s left Hc Hfit. apply step_begin. apply begin_op_run; [apply not_elem_of_empty|exact Hc|exact Hfit]. }
    eexists _, _. split; [|split].
    + eapply rtc_l; [apply Hb; [reflexivity|cbn; unfold LOGSIZE, MAXOPBLOCKS; lia]|].
      eapply rtc_l; [apply Hb; [reflexivity|cbn; unfold LOGSIZE, MAXOPBLOCKS; lia]|].
      apply rtc_once. apply Hb; [reflexivity|cbn; unfold LOGSIZE, MAXOPBLOCKS; lia].
    + split; [split; [reflexivity|reflexivity|reflexivity|]|reflexivity|reflexivity|reflexivity|].
      * intros j b Hj. discriminate.
      * intros i Hi. eexists. split; [|]; cbn [k_bufs with_log set_k_log crowded set_k_bufs].
        { rewrite list_lookup_fmap, lookup_seqZ_lt by lia. reflexivity. } reflexivity.
    + reflexivity.
  - destruct IH as (s & left & Hreach & Hcr & Hsum); [lia|]. destruct (sum_list_pos left) as (l1 & n & l2 & ->); [lia|].
    destruct (crowd_write k s Hcr) as (s' & E & Hcr'); [lia|]. exists s', (l1 ++ n :: l2). split; [|split; [exact Hcr'|]].
    + eapply rtc_r; [exact Hreach|]. eapply step_write. exact E.
    + rewrite sum_list_app in *. cbn in *. lia.
Qed.

(** C40: On a disk made by mkfs the reservation of [begin_op] is one block too
    generous.  Three operations can be admitted, stay within [MAXOPBLOCKS] blocks
    each, and still make [log_write] panic. *)
Theorem mkfs_log_overflows : exists s left n, rtc (log_step ex_idle) (crowded, []) (s, left) /\
  S n ∈ left /\ log_write 29 ex_idle s = Panic "too big a transaction".
Proof.
  destruct (crowd_reach 29 (le_n _)) as (s & left & Hreach & Hcr & Hsum).
  destruct (sum_list_pos left) as (l1 & n & l2 & ->); [lia|]. exists s, (l1 ++ S n :: l2), n. split; [exact Hreach|].
  split; [apply elem_of_app; right; apply elem_of_cons; by left|].
  pose proof (lg_n _ _ _ (cr_log _ _ Hcr)) as Hn. unfold log_write. rewrite bind_get_log, (cr_size _ _ Hcr), Hn. reflexivity.
Qed.
