(* ===== verification/Fs.v ===== *)
(** * The file system (src/fs.c)

    Blocks and their bitmap, inodes, the mapping of file offsets to blocks,
    directories and path names.  A disk block is a list of [BSIZE] bytes, in
    which on-disk structures are read and written at their byte offsets.  Data
    moved to or from a caller's buffer are lists of bytes: [readi] returns what
    it stored in the buffer, [writei] is given what the buffer holds. *)

From S2P Require Import Prelude Layout CString Spinlock Kalloc State Sched Sleeplock Bio Log.

Definition ROOTINO : Z := 1.
Definition NDIRECT : Z := 11.
Definition NINDIRECT : Z := BSIZE / 4.
Definition NDOUBLY_INDIRECT : Z := NINDIRECT * NINDIRECT.
(** The macro is expanded without parentheses. *)
Definition MAXFILE : Z := u32 (NDIRECT + NINDIRECT * NINDIRECT * NINDIRECT).

(** [sizeof(struct dinode)]: four shorts, the size, [NDIRECT+1] addresses. *)
Definition DINODE_SIZE : Z := 8 + 4 + 4 * (NDIRECT + 1).
Definition IPB : Z := BSIZE / DINODE_SIZE.
Definition IBLOCK (i : Z) (sb : superblock) : Z := u32 (i / IPB + sb_inodestart sb).
Definition BPB : Z := BSIZE * 8.
Definition BBLOCK (b : Z) (sb : superblock) : Z := u32 (b / BPB + sb_bmapstart sb).
Definition DIRSIZ : Z := 14.
Definition DIRENT_SIZE : Z := 16.

Definition T_DIR : Z := 1.
Definition T_FILE : Z := 2.
Definition T_DEV : Z := 3.
Definition T_SYMLINK : Z := 4.
Definition T_EXTENT : Z := 5.

Definition icache_lock : lockid := ("icache"%string, 0).

(** The device switch: functions that devices register by major number. *)
Class Devsw := {
  dev_read : Z -> option (nat -> Z -> M kernel (Z * list Z));
  dev_write : Z -> option (nat -> list Z -> Z -> M kernel Z);
}.

Section fs.
Context `{DiskDriver} `{Devsw}.

(** ** Blocks *)

Definition bzero (dev bno : Z) : M kernel unit :=
  bp ← bread dev (u32 bno);
  set_data bp zero_block;;
  log_write bp;;
  brelse bp.

Definition bit_of (data : list Z) (bi : Z) : bool :=
  negb (Z.land (byte_at data (bi / 8)) (Z.shiftl 1 (bi mod 8)) =? 0).
Definition set_bit (data : list Z) (bi : Z) : list Z :=
  put8 data (bi / 8) (Z.lor (byte_at data (bi / 8)) (Z.shiftl 1 (bi mod 8))).
Definition clear_bit (data : list Z) (bi : Z) : list Z :=
  put8 data (bi / 8) (Z.land (byte_at data (bi / 8)) (Z.lnot (Z.shiftl 1 (bi mod 8)))).

(** The inner loop of [balloc]: the first clear bit from [bi] on. *)
Fixpoint free_bit (n : nat) (data : list Z) (b bi size : Z) : option Z :=
  match n with
  | O => None
  | S n' =>
    if b + bi <? size then
      if bit_of data bi then free_bit n' data b (bi + 1) size else Some bi
    else None
  end.

Fixpoint balloc_loop (fuel : nat) (dev b : Z) : M kernel Z :=
  match fuel with
  | O => undef "balloc: out of fuel"
  | S fuel' =>
    sb ← gets k_sb;
    if b <? sb_size sb then
      bp ← bread dev (BBLOCK b sb);
      bb ← buf_at bp;
      match free_bit (Z.to_nat BPB) (b_data bb) b 0 (sb_size sb) with
      | Some bi =>
        set_data bp (set_bit (b_data bb) bi);;
        log_write bp;;
        brelse bp;;
        bzero dev (b + bi);;
        mret (b + bi)
      | None => brelse bp;; balloc_loop fuel' dev (b + BPB)
      end
    else panic "balloc: out of blocks"
  end.

Definition balloc (dev : Z) : M kernel Z :=
  sb ← gets k_sb;
  balloc_loop (S (Z.to_nat (sb_size sb / BPB + 1))) dev 0.

Definition bfree (dev b : Z) : M kernel unit :=
  sb ← gets k_sb;
  bp ← bread dev (BBLOCK b sb);
  bb ← buf_at bp;
  let bi := b mod BPB in
  if negb (bit_of (b_data bb) bi) then panic "freeing free block" else
  set_data bp (clear_bit (b_data bb) bi);;
  log_write bp;;
  brelse bp.

(** ** Inodes *)

Fixpoint iinit_loop (n i : nat) : M kernel unit :=
  match n with O => mret tt | S n' => initsleeplock (SlInode i);; iinit_loop n' (S i) end.

Definition iinit (dev : Z) : M kernel unit :=
  iinit_loop (Z.to_nat NINODE) 0;;
  sb ← readsb dev;
  modify (set_k_sb sb).

(** The scan of [iget]: the cached entry, and the first empty one before it. *)
Fixpoint iget_scan (ips : list inode) (i : nat) (empty : option nat) (dev inum : Z)
    : option nat * option nat :=
  match ips with
  | [] => (None, empty)
  | ip :: ips' =>
    if (i_ref ip >? 0) && (i_dev ip =? dev) && (i_inum ip =? inum) then (Some i, empty)
    else
      let empty := match empty with
                   | None => if i_ref ip =? 0 then Some i else None
                   | Some _ => empty
                   end in
      iget_scan ips' (S i) empty dev inum
  end.

Definition iget (dev inum : Z) : M kernel nat :=
  acquire icache_lock;;
  ips ← gets k_inodes;
  match iget_scan ips 0 None dev inum with
  | (Some i, _) =>
    upd_inode i (fun ip => set_i_ref (i_ref ip + 1) ip);;
    release icache_lock;;
    mret i
  | (None, None) => panic "iget: no inodes"
  | (None, Some i) =>
    upd_inode i (fun ip => set_i_valid false (set_i_ref 1 (set_i_inum inum (set_i_dev dev ip))));;
    release icache_lock;;
    mret i
  end.

Definition idup (i : nat) : M kernel nat :=
  acquire icache_lock;;
  upd_inode i (fun ip => set_i_ref (i_ref ip + 1) ip);;
  release icache_lock;;
  mret i.

(** The byte offset of inode [inum] in its block. *)
Definition dip (inum : Z) : Z := inum mod IPB * DINODE_SIZE.

Fixpoint ialloc_loop (fuel : nat) (dev type inum : Z) : M kernel nat :=
  match fuel with
  | O => undef "ialloc: out of fuel"
  | S fuel' =>
    sb ← gets k_sb;
    if inum <? sb_ninodes sb then
      bp ← bread dev (IBLOCK inum sb);
      bb ← buf_at bp;
      if i16 (get16 (b_data bb) (dip inum)) =? 0 then
        let data := put_bytes (b_data bb) (dip inum) (replicate (Z.to_nat DINODE_SIZE) 0) in
        set_data bp (put16 data (dip inum) type);;
        log_write bp;;
        brelse bp;;
        iget dev inum
      else brelse bp;; ialloc_loop fuel' dev type (inum + 1)
    else panic "ialloc: no inodes"
  end.

Definition ialloc (dev type : Z) : M kernel nat :=
  sb ← gets k_sb;
  ialloc_loop (S (Z.to_nat (sb_ninodes sb))) dev type 1.

(** Words as the bytes [memmove] copies, least significant byte first. *)
Definition word_bytes (v : Z) : list Z :=
  [u8 v; u8 (Z.shiftr v 8); u8 (Z.shiftr v 16); u8 (Z.shiftr v 24)].

(** The in-memory [addrs] has [NDIRECT+2] words, all of which are copied. *)
Definition iupdate (i : nat) : M kernel unit :=
  sb ← gets k_sb;
  ip ← inode_at i;
  bp ← bread (i_dev ip) (IBLOCK (i_inum ip) sb);
  bb ← buf_at bp;
  let o := dip (i_inum ip) in
  let d := put16 (b_data bb) o (i_type ip) in
  let d := put16 d (o + 2) (i_major ip) in
  let d := put16 d (o + 4) (i_minor ip) in
  let d := put16 d (o + 6) (i_nlink ip) in
  let d := put32 d (o + 8) (i_size ip) in
  let d := put_bytes d (o + 12) (concat (word_bytes <$> i_addrs ip)) in
  set_data bp d;;
  log_write bp;;
  brelse bp.

Definition read_addrs (d : list Z) (o : Z) : list Z :=
  (fun k => get32 d (o + 12 + 4 * k)) <$> seqZ 0 (NDIRECT + 2).

Definition ilock (i : nat) : M kernel unit :=
  ip ← inode_at i;
  if i_ref ip <? 1 then panic "ilock" else
  acquiresleep (SlInode i);;
  ip ← inode_at i;
  when (negb (i_valid ip))
    (sb ← gets k_sb;
     bp ← bread (i_dev ip) (IBLOCK (i_inum ip) sb);
     bb ← buf_at bp;
     let d := b_data bb in
     let o := dip (i_inum ip) in
     upd_inode i (fun ip =>
       set_i_addrs (read_addrs d o) (set_i_size (get32 d (o + 8))
         (set_i_nlink (i16 (get16 d (o + 6))) (set_i_minor (i16 (get16 d (o + 4)))
           (set_i_major (i16 (get16 d (o + 2))) (set_i_type (i16 (get16 d o)) ip))))));;
     brelse bp;;
     upd_inode i (set_i_valid true);;
     ip ← inode_at i;
     when (i_type ip =? 0) (panic "ilock: no type")).

Definition iunlock (i : nat) : M kernel unit :=
  h ← holdingsleep (SlInode i);
  ip ← inode_at i;
  if negb h || (i_ref ip <? 1) then panic "iunlock" else
  releasesleep (SlInode i).

(** ** Inode content *)

Definition GEN_ADDRESS (address length : Z) : Z := Z.lor (u32 (Z.shiftl address 8)) length.
Definition EXT_LENGTH (address : Z) : Z := Z.land address 0x00ff.
Definition EXT_ADDRESS (address : Z) : Z := Z.shiftr address 8.

Definition set_addr (i : nat) (k v : Z) : M kernel unit :=
  upd_inode i (fun ip => set_i_addrs (<[Z.to_nat k := v]> (i_addrs ip)) ip).

(** [ip->addrs[k]]. *)
Definition addr_of (ip : inode) (k : Z) : Z := default 0 (i_addrs ip !! Z.to_nat k).

(** The search of an extent file: the block found, or the first unused slot. *)
Fixpoint ext_scan (n : nat) (ip : inode) (i currentLength bn : Z) : Z + Z :=
  match n with
  | O => inr i
  | S n' =>
    if addr_of ip i =? 0 then inr i
    else
      let length := EXT_LENGTH (addr_of ip i) in
      if (bn >=? currentLength) && (bn <? u32 (currentLength + length))
      then inl (u32 (EXT_ADDRESS (addr_of ip i) + bn - currentLength))
      else if i >? NDIRECT then inr i
      else ext_scan n' ip (i + 1) (u32 (currentLength + length)) bn
  end.

(** [ip->addrs[i-1]]; for [i = 0] that is the word before the array, [ip->size]. *)
Definition prev_extent (ip : inode) (i : Z) : Z := if i =? 0 then i_size ip else addr_of ip (i - 1).
Definition set_prev_extent (k : nat) (i v : Z) : M kernel unit :=
  if i =? 0 then upd_inode k (set_i_size v) else set_addr k (i - 1) v.

Definition bmap_extent (k : nat) (bn : Z) : M kernel Z :=
  ip ← inode_at k;
  match ext_scan (Z.to_nat (NDIRECT + 2)) ip 0 0 bn with
  | inl addr => mret addr
  | inr i =>
    if i >? NDIRECT then panic "extent based kinda did not wo really well"
    else
      newBlock ← balloc (i_dev ip);
      let last := prev_extent ip i in
      (if (newBlock =? u32 (EXT_ADDRESS last + EXT_LENGTH last)) && (EXT_LENGTH last <? 0xff)
       then set_prev_extent k i (u32 (last + 1))
       else set_addr k i (GEN_ADDRESS newBlock 1));;
      mret newBlock
  end.

(** The address in slot [pos] of the index block [addr], allocated if absent.
    The block is left locked. *)
Definition index_block (dev addr pos : Z) : M kernel (nat * Z) :=
  bp ← bread dev addr;
  bb ← buf_at bp;
  let v := get32 (b_data bb) (4 * pos) in
  if v =? 0 then
    v ← balloc dev;
    bb ← buf_at bp;
    set_data bp (put32 (b_data bb) (4 * pos) v);;
    log_write bp;;
    mret (bp, v)
  else mret (bp, v).

(** [ip->addrs[k]], allocated if absent. *)
Definition addr_alloc (i : nat) (k : Z) : M kernel Z :=
  ip ← inode_at i;
  if addr_of ip k =? 0 then
    addr ← balloc (i_dev ip);
    set_addr i k addr;;
    mret addr
  else mret (addr_of ip k).

Definition bmap (i : nat) (bn : Z) : M kernel Z :=
  ip ← inode_at i;
  if i_type ip =? T_EXTENT then bmap_extent i bn
  else if bn <? NDIRECT then addr_alloc i bn
  else
    let bn := bn - NDIRECT in
    if bn <? NINDIRECT then
      addr ← addr_alloc i NDIRECT;
      r ← index_block (i_dev ip) addr bn;
      brelse (fst r);;
      mret (snd r)
    else
      let bn := bn - NINDIRECT in
      if bn <? NDOUBLY_INDIRECT then
        addr ← addr_alloc i (NDIRECT + 1);
        r ← index_block (i_dev ip) addr (bn / NINDIRECT);
        brelse (fst r);;
        r ← index_block (i_dev ip) (snd r) (bn mod NINDIRECT);
        mret (snd r)
      else panic "bmap: out of range".

Fixpoint itrunc_direct (n : nat) (i : nat) (k : Z) : M kernel unit :=
  match n with
  | O => mret tt
  | S n' =>
    ip ← inode_at i;
    when (negb (addr_of ip k =? 0)) (bfree (i_dev ip) (addr_of ip k);; set_addr i k 0);;
    itrunc_direct n' i (k + 1)
  end.

Fixpoint itrunc_indirect (n : nat) (dev : Z) (bp : nat) (j : Z) : M kernel unit :=
  match n with
  | O => mret tt
  | S n' =>
    bb ← buf_at bp;
    let v := get32 (b_data bb) (4 * j) in
    when (negb (v =? 0)) (bfree dev v);;
    itrunc_indirect n' dev bp (j + 1)
  end.

Definition itrunc (i : nat) : M kernel unit :=
  itrunc_direct (Z.to_nat NDIRECT) i 0;;
  ip ← inode_at i;
  when (negb (addr_of ip NDIRECT =? 0))
    (bp ← bread (i_dev ip) (addr_of ip NDIRECT);
     itrunc_indirect (Z.to_nat NINDIRECT) (i_dev ip) bp 0;;
     brelse bp;;
     bfree (i_dev ip) (addr_of ip NDIRECT);;
     set_addr i NDIRECT 0);;
  upd_inode i (set_i_size 0);;
  iupdate i.

Definition iput (i : nat) : M kernel unit :=
  acquiresleep (SlInode i);;
  ip ← inode_at i;
  when (i_valid ip && (i_nlink ip =? 0))
    (acquire icache_lock;;
     ip ← inode_at i;
     let r := i_ref ip in
     release icache_lock;;
     when (r =? 1)
       (itrunc i;;
        upd_inode i (set_i_type 0);;
        iupdate i;;
        upd_inode i (set_i_valid false)));;
  releasesleep (SlInode i);;
  acquire icache_lock;;
  upd_inode i (fun ip => set_i_ref (i_ref ip - 1) ip);;
  release icache_lock.

Definition iunlockput (i : nat) : M kernel unit := iunlock i;; iput i.

(** [struct stat] *)
Record stat := Stat { st_type : Z; st_dev : Z; st_ino : Z; st_nlink : Z; st_size : Z }.

Definition stati (i : nat) : M kernel stat :=
  ip ← inode_at i;
  mret (Stat (i_type ip) (i_dev ip) (i_inum ip) (i_nlink ip) (i_size ip)).

(** The loop of [readi]; [acc] is what has been stored at [dst]. *)
Fixpoint readi_loop (fuel : nat) (i : nat) (off tot n : Z) (acc : list Z) : M kernel (list Z) :=
  match fuel with
  | O => undef "readi: out of fuel"
  | S fuel' =>
    if tot <? n then
      ip ← inode_at i;
      addr ← bmap i (off / BSIZE);
      bp ← bread (i_dev ip) addr;
      bb ← buf_at bp;
      let m := Z.min (n - tot) (BSIZE - off mod BSIZE) in
      let acc := acc ++ get_bytes (b_data bb) (off mod BSIZE) m in
      brelse bp;;
      readi_loop fuel' i (u32 (off + m)) (tot + m) n acc
    else mret acc
  end.

Definition readi (i : nat) (off n : Z) : M kernel (Z * list Z) :=
  ip ← inode_at i;
  if i_type ip =? T_DEV then
    if (i_major ip <? 0) || (i_major ip >=? NDEV) then mret (-1, [])
    else match dev_read (i_major ip) with
         | None => mret (-1, [])
         | Some f => f i n
         end
  else if (off >? i_size ip) || (u32 (off + n) <? off) then mret (-1, [])
  else
    let n := if u32 (off + n) >? i_size ip then i_size ip - off else n in
    data ← readi_loop (S (Z.to_nat (n / BSIZE + 2))) i off 0 n [];
    mret (n, data).

Fixpoint writei_loop (fuel : nat) (i : nat) (src : list Z) (off tot n : Z) : M kernel Z :=
  match fuel with
  | O => undef "writei: out of fuel"
  | S fuel' =>
    if tot <? n then
      ip ← inode_at i;
      addr ← bmap i (off / BSIZE);
      bp ← bread (i_dev ip) addr;
      bb ← buf_at bp;
      let m := Z.min (n - tot) (BSIZE - off mod BSIZE) in
      set_data bp (put_bytes (b_data bb) (off mod BSIZE) (get_bytes src tot m));;
      log_write bp;;
      brelse bp;;
      writei_loop fuel' i src (u32 (off + m)) (tot + m) n
    else mret off
  end.

(** [n] is unsigned: the test [n < 0] of the code never holds. *)
Definition writei (i : nat) (src : list Z) (off n : Z) : M kernel Z :=
  ip ← inode_at i;
  if i_type ip =? T_DEV then
    if (i_major ip <? 0) || (i_major ip >=? NDEV) then mret (-1)
    else match dev_write (i_major ip) with
         | None => mret (-1)
         | Some f => f i src n
         end
  else if u32 (off + n) >? u32 (MAXFILE * BSIZE) then mret (-1)
  else
    off ← writei_loop (S (Z.to_nat (n / BSIZE + 2))) i src off 0 n;
    ip ← inode_at i;
    when ((n >? 0) && (off >? i_size ip)) (upd_inode i (set_i_size off);; iupdate i);;
    mret n.

(** ** Directories *)

Definition namecmp (s t : list Z) : option Z := strncmp s t (Z.to_nat DIRSIZ).

Definition de_inum (de : list Z) : Z := get16 de 0.
Definition de_name (de : list Z) : list Z := get_bytes de 2 DIRSIZ.
Definition mk_dirent (inum : Z) (name : list Z) : list Z := put_bytes (put16 (replicate 16 0) 0 inum) 2 name.

(** The entry found and its offset ([*poff]). *)
Fixpoint dirlookup_loop (fuel : nat) (dp : nat) (name : list Z) (off : Z) : M kernel (option (nat * Z)) :=
  match fuel with
  | O => undef "dirlookup: out of fuel"
  | S fuel' =>
    d ← inode_at dp;
    if off <? i_size d then
      r ← readi dp off DIRENT_SIZE;
      if negb (fst r =? DIRENT_SIZE) then panic "dirlookup read"
      else if de_inum (snd r) =? 0 then dirlookup_loop fuel' dp name (u32 (off + DIRENT_SIZE))
      else
        match namecmp name (de_name (snd r)) with
        | None => undef "namecmp"
        | Some 0 => ip ← iget (i_dev d) (de_inum (snd r)); mret (Some (ip, off))
        | Some _ => dirlookup_loop fuel' dp name (u32 (off + DIRENT_SIZE))
        end
    else mret None
  end.

Definition dirlookup (dp : nat) (name : list Z) : M kernel (option (nat * Z)) :=
  d ← inode_at dp;
  if negb (i_type d =? T_DIR) then panic "dirlookup not DIR"
  else dirlookup_loop (S (Z.to_nat (i_size d / DIRENT_SIZE + 1))) dp name 0.

(** The offset of the first free entry, or the end of the directory. *)
Fixpoint dirlink_loop (fuel : nat) (dp : nat) (off : Z) : M kernel Z :=
  match fuel with
  | O => undef "dirlink: out of fuel"
  | S fuel' =>
    d ← inode_at dp;
    if u32 off <? i_size d then
      r ← readi dp (u32 off) DIRENT_SIZE;
      if negb (fst r =? DIRENT_SIZE) then panic "dirlink read"
      else if de_inum (snd r) =? 0 then mret off
      else dirlink_loop fuel' dp (off + DIRENT_SIZE)
    else mret off
  end.

Definition dirlink (dp : nat) (name : list Z) (inum : Z) : M kernel Z :=
  r ← dirlookup dp name;
  match r with
  | Some (ip, _) => iput ip;; mret (-1)
  | None =>
    d ← inode_at dp;
    off ← dirlink_loop (S (Z.to_nat (i_size d / DIRENT_SIZE + 1))) dp 0;
    match strncpy name DIRSIZ with
    | None => undef "strncpy"
    | Some nm =>
      n ← writei dp (mk_dirent inum nm) (u32 off) DIRENT_SIZE;
      if negb (n =? DIRENT_SIZE) then panic "dirlink" else mret 0
    end
  end.

(** ** Paths

    A path is the list of its characters, without the terminating null. *)

Definition slash : Z := 47.

Fixpoint skip_slashes (path : list Z) : list Z :=
  match path with
  | ch :: path' => if ch =? slash then skip_slashes path' else path
  | [] => []
  end.

(** The characters up to the next slash, and the rest. *)
Fixpoint path_elem (path : list Z) : list Z * list Z :=
  match path with
  | ch :: path' =>
    if ch =? slash then ([], path)
    else let '(s, r) := path_elem path' in (ch :: s, r)
  | [] => ([], [])
  end.

(** The rest of the path, and [name]: null-terminated when shorter than [DIRSIZ]. *)
Definition skipelem (path : list Z) : option (list Z * list Z) :=
  let path := skip_slashes path in
  match path with
  | [] => None
  | _ =>
    let '(s, r) := path_elem path in
    let name := if Z.of_nat (length s) >=? DIRSIZ then take (Z.to_nat DIRSIZ) s else s ++ [0] in
    Some (skip_slashes r, name)
  end.

(** The loop of [namex]; a round consumes a part of the path. *)
Fixpoint namex_loop (fuel : nat) (ip : nat) (path : list Z) (nameiparent : bool) (name : list Z)
    : M kernel (option (nat * list Z)) :=
  match fuel with
  | O => undef "namex: out of fuel"
  | S fuel' =>
    match skipelem path with
    | None => if nameiparent then iput ip;; mret None else mret (Some (ip, name))
    | Some (path, name) =>
      ilock ip;;
      d ← inode_at ip;
      if negb (i_type d =? T_DIR) then iunlockput ip;; mret None
      else if nameiparent && bool_decide (path = []) then iunlock ip;; mret (Some (ip, name))
      else
        r ← dirlookup ip name;
        match r with
        | None => iunlockput ip;; mret None
        | Some (next, _) => iunlockput ip;; namex_loop fuel' next path nameiparent name
        end
    end
  end.

Definition namex (path : list Z) (nameiparent : bool) : M kernel (option (nat * list Z)) :=
  ip ← (match path with
        | ch :: _ => if ch =? slash then iget ROOTDEV ROOTINO else
            (p ← myproc; pr ← proc_at p;
             match p_cwd pr with None => undef "cwd is null" | Some cwd => idup cwd end)
        | [] => p ← myproc; pr ← proc_at p;
            match p_cwd pr with None => undef "cwd is null" | Some cwd => idup cwd end
        end);
  namex_loop (S (length path)) ip path nameiparent [].

Definition namei (path : list Z) : M kernel (option nat) :=
  r ← namex path false; mret (fst <$> r).

Definition nameiparent (path : list Z) : M kernel (option (nat * list Z)) := namex path true.
End fs.

(** ** Running the code *)

(** The lock of an inode whose cached copy is valid. *)
Section inode_lock.
Context `{DiskDriver} (c : ctx) (s : kernel) (p : nat) (pr : proc) (Hrun : runs c s p pr).
Context (i : nat) (ip : inode) (Hip : k_inodes s !! i = Some ip) (Href : 1 <= i_ref ip).
Context (Hl : sl_spin (SlInode i) ∉ held c).

Definition lock_inode (l : sleeplock) : kernel := set_k_inodes (<[i := set_i_lock l ip]> (k_inodes s)) s.

Lemma acquiresleep_inode : sl_locked (i_lock ip) = false ->
  acquiresleep (SlInode i) c s = Done tt c (lock_inode (SleepLock true (p_pid pr))).
Proof using Hrun Hip Hl.
  intros Hf. unfold acquiresleep. cbn [sl_get]. unfold inode_at. rewrite bind_acquire by done.
  autorewrite with run. erewrite bind_elem_at by done. autorewrite with run. rewrite Hf.
  erewrite bind_mypid by exact Hrun. cbn [sl_set]. unfold upd_inode. erewrite bind_elem_upd by done. by rewrite release_acquired, ctx_eta.
Qed.

Lemma ilock_valid : i_valid ip = true -> sl_locked (i_lock ip) = false ->
  ilock i c s = Done tt c (lock_inode (SleepLock true (p_pid pr))).
Proof using Hrun Hip Href Hl.
  intros Hv Hf. unfold ilock, inode_at. erewrite bind_elem_at by done. rewrite (proj2 (Z.ltb_ge _ _)) by lia.
  erewrite bind_Done by by apply acquiresleep_inode. erewrite bind_elem_at; [|cbn; apply list_lookup_insert_eq; by apply lookup_lt_Some in Hip].
  cbn [i_valid set_i_lock]. by rewrite Hv.
Qed.

Lemma iunlock_run : i_lock ip = SleepLock true (p_pid pr) -> ptable_lock ∉ held c ->
  iunlock i c s = Done tt c (woken (chan_inode_lock i) (lock_inode (SleepLock false 0))).
Proof using Hrun Hip Href Hl.
  intros Hk Hp. unfold iunlock.
  assert (E : holdingsleep (SlInode i) c s = Done true c s).
  { unfold holdingsleep. cbn [sl_get]. unfold inode_at. rewrite bind_acquire by done.
    autorewrite with run. erewrite bind_elem_at by done. autorewrite with run. erewrite bind_mypid by exact Hrun. autorewrite with run.
    erewrite bind_Done by by apply release_acquired. by rewrite ctx_eta, Hk, Z.eqb_refl. }
  erewrite bind_Done by exact E. unfold inode_at. erewrite bind_elem_at by done. cbn [negb orb]. rewrite (proj2 (Z.ltb_ge _ _)) by lia.
  unfold releasesleep. rewrite bind_acquire by done. cbn [sl_set]. unfold upd_inode. erewrite bind_elem_upd by done.
  erewrite bind_Done by (apply wakeup_run; cbn [held]; apply not_elem_of_union; split; [by apply not_elem_of_singleton|done]).
  by rewrite release_acquired, ctx_eta.
Qed.
End inode_lock.
