(* ===== verification/Blocks.v ===== *)
(** * Blocks of the file system inside an operation (src/fs.c)

    The file system changes blocks in the buffer cache, between [begin_op] and
    [end_op].  This file gives its code a view of the disk as an array of blocks,
    and proves the block allocator against it. *)

From S2P Require Import Prelude Layout CString Spinlock Kalloc State Sched Sleeplock Bio Cache Log Journal Trans Fs.

#[local] Opaque HEAD bread brelse log_write view pending.

(** All of the kernel but the cache, the disk, the blocks in the log and the
    processes. *)
Definition fsrest (s : kernel) : kernel := set_k_log (set_l_n 0 (set_l_block [] (k_log s))) (rest s).

Lemma fsrest_sb s s' : fsrest s' = fsrest s -> k_sb s' = k_sb s.
Proof. intros E. exact (f_equal k_sb E). Qed.
Lemma fsrest_inodes s s' : fsrest s' = fsrest s -> k_inodes s' = k_inodes s.
Proof. intros E. exact (f_equal k_inodes E). Qed.
Lemma rest_fsrest s s' : rest s' = rest s -> fsrest s' = fsrest s.
Proof. intros E. unfold fsrest. by rewrite (rest_log _ _ E), E. Qed.

(** [trans] is about the process, the cache, the disk and the log. *)
Lemma trans_frame me pr sz st c bs X s s' : runs c s' me pr -> k_bufs s' = k_bufs s -> k_disk s' = k_disk s -> k_log s' = k_log s ->
  trans me pr sz st c bs X s -> trans me pr sz st c bs X s'.
Proof.
  intros Hr Eb Ed El [T1 [order Hc] T3 T4 T5 T6 T7 T8 T9 T10].
  split; rewrite ?Ed, ?El; [done|exists order; by apply (cache_frame _ _ s)|done..| |done|done|done].
  intros b. rewrite (pending_frame s) by done. apply T7.
Qed.

Section op.
Context `{SyncDisk} (c : ctx) (me : nat) (pr : proc) (Hh : held c = ∅) (Hst : p_state pr = RUNNING) (sz st : Z).

(** The log and the cache have room for [n] blocks; only to change blocks has an
    operation to be open. *)
Definition fits (n : nat) (bs : list Z) (s : kernel) : Prop :=
  Z.of_nat (length bs + n) < LOGSIZE /\ (length bs + n < HEAD)%nat /\ ((0 < n)%nat -> LOGSIZE <= l_size (k_log s) /\ 1 <= l_outstanding (k_log s)).

(** Process [me] holds no buffer; it may call [log_write] [n] times more. *)
Definition op (n : nat) (s : kernel) : Prop :=
  exists bs, trans me pr sz st c bs ∅ s /\ fits n bs s.

(** The blocks are now [v]; nothing else has changed, and nothing on the disk. *)
Record becomes (s s' : kernel) (v : Z -> list Z) : Prop := Becomes {
  bc_view : forall b, view s' b = v b;
  bc_rest : fsrest s' = fsrest s;
  bc_disk : k_disk s' = k_disk s;
}.

(** Buffer [i] is locked by the process and holds block [b] of [s]. *)
Record opened (n : nat) (s : kernel) (i : nat) (b : Z) (s1 : kernel) : Prop := Opened {
  od_trans : exists bs, trans me pr sz st c bs {[i]} s1 /\ fits n bs s1;
  od_index : (i < HEAD)%nat;
  od_buf : exists bf, k_bufs s1 !! i = Some bf /\ b_blockno bf = b /\ b_data bf = view s b /\
    (dirty bf = false -> b_data bf = rdblk (d_blocks (k_disk s1)) b);
  od_same : becomes s s1 (view s);
  od_log : k_log s1 = k_log s;
}.

Lemma bread_op n s b : op n s -> 0 <= b < sz -> exists i s1, bread ROOTDEV b c s = Done i c s1 /\ opened n s i b s1.
Proof using Hh H0.
  intros (bs & Ht & R1 & R2 & R3) Hb.
  destruct (bread_trans c me pr Hh sz st bs s b Ht) as (i & bf & E & Hi & Hbf & Hn & Ht1 & Hv1); [lia|exact Hb|].
  exists i, (set_buf i bf s). split; [exact E|]. split.
  - exists bs. split; [exact Ht1|]. by split_and!.
  - exact Hi.
  - exists bf. split; [exact Hbf|]. split; [exact Hn|]. pose proof (tr_uses _ _ _ _ _ _ _ _ Ht1) as [order Hc].
    destruct (owned_facts _ pr _ order i bf Hc Hi (proj2 (elem_of_singleton i i) eq_refl) Hbf) as (_ & Hd & Hv & _).
    assert (Ed : b_data bf = view s b) by (rewrite <- Hv1, <- Hn; symmetry; by apply (view_at _ _ _ _ Hc i bf)).
    split; [exact Ed|]. intros Hdirty. rewrite Ed. cbn [k_disk set_buf set_k_bufs].
    apply (view_clean _ _ _ _ (tr_uses _ _ _ _ _ _ _ _ Ht)); [|intros j bj Hj; destruct (not_elem_of_empty _ Hj)].
    apply not_true_iff_false. rewrite (tr_pending _ _ _ _ _ _ _ _ Ht), <- (tr_pending _ _ _ _ _ _ _ _ Ht1), <- Hn.
    rewrite (pending_at _ _ _ _ Hc i bf Hi Hbf Hd). by rewrite Hdirty.
  - split; [exact Hv1|reflexivity|reflexivity].
  - reflexivity.
Qed.

Lemma opened_buf n s i b s1 : opened n s i b s1 -> exists bf, k_bufs s1 !! i = Some bf /\ b_data bf = view s b.
Proof using Type. intros [_ _ (bf & Hbf & _ & Hd & _) _ _]. by exists bf. Qed.

Lemma becomes_trans s s1 s2 v1 v2 : becomes s s1 v1 -> becomes s1 s2 v2 -> becomes s s2 v2.
Proof using Type. intros [V1 R1 D1] [V2 R2 D2]. split; [exact V2|congruence|congruence]. Qed.

Lemma becomes_view s s' v v' : (forall b, v b = v' b) -> becomes s s' v -> becomes s s' v'.
Proof using Type. intros E [V R D]. split; [|done|done]. intros b. by rewrite V. Qed.

(** Letting go of a block that was only read. *)
Lemma close_op n s i b s1 : opened n s i b s1 -> exists s2, brelse i c s1 = Done tt c s2 /\ op n s2 /\ becomes s s2 (view s) /\ k_log s2 = k_log s.
Proof using Hh Hst H0.
  intros [(bs & Ht & R1 & R2 & R3) Hi (bf & Hbf & Hb & _ & Hcl) Hsame Hlog].
  destruct (brelse_spec c me pr Hh s1 {[i]} i bf) as (s2 & E & Hu & Hg & Ed & Hv & Hp & _).
  { apply Ht. } { exact Hst. } { apply Ht. } { exact Hi. } { by apply elem_of_singleton. } { exact Hbf. } { rewrite Hb. exact Hcl. }
  rewrite difference_diag_L in Hu. pose proof (rest_log _ _ (proj1 Hg)) as El. exists s2. split; [exact E|]. split.
  - exists bs. split; [|unfold fits; by rewrite El]. destruct Ht as [T1 T2 T3 T4 T5 T6 T7 T8 T9 T10].
    split; [apply Hg|exact Hu|by rewrite El|by rewrite El|by rewrite Ed|exact T6| |by rewrite Ed|by rewrite Ed|by rewrite El].
    intros b'. rewrite Hp. apply T7.
  - split; [|congruence]. eapply becomes_trans; [exact Hsame|]. split; [|apply rest_fsrest, Hg|exact Ed]. intros b'. rewrite Hv. apply Hsame.
Qed.

(** Block [b] becomes [d]. *)
Definition put_block (b : Z) (d : list Z) (v : Z -> list Z) (b' : Z) : list Z := if decide (b' = b) then d else v b'.

(** Storing [d] into the block, and letting go of it. *)
Lemma put_op n s i b s1 d : opened (S n) s i b s1 -> home st b ->
  exists s2 s3 s4, set_data i d c s1 = Done tt c s2 /\ log_write i c s2 = Done tt c s3 /\ brelse i c s3 = Done tt c s4 /\
    op n s4 /\ becomes s s4 (put_block b d (view s)).
Proof using Hh Hst H0.
  intros [(bs & Ht & R1 & R2 & R34) Hi (bf & Hbf & Hn & _) Hsame Hlog] Hhome. destruct (R34 ltac:(lia)) as [R3 R4].
  destruct (log_write_trans c me pr Hh sz st bs {[i]} s1 i bf d Ht Hi) as (s3 & E3 & Ht3 & Hd3 & Hv3 & Hl3 & Hbf3).
  { by apply elem_of_singleton. } { exact Hbf. } { by rewrite Hn. } { lia. } { lia. } { exact R4. }
  destruct (brelse_spec c me pr Hh s3 {[i]} i (dirtied (set_b_data d bf))) as (s4 & E4 & Hu4 & Hg4 & Ed4 & Hv4 & Hp4 & _).
  { apply Ht3. } { exact Hst. } { apply Ht3. } { exact Hi. } { by apply elem_of_singleton. } { exact Hbf3. }
  { pose proof (tr_uses _ _ _ _ _ _ _ _ Ht) as [order Hc].
    destruct (dirtied_valid s1 pr {[i]} order i bf Hc Hi) as [_ Hdi]; [by apply elem_of_singleton|exact Hbf|].
    intros Hf. change (dirty (dirtied (set_b_data d bf))) with (dirty (dirtied bf)) in Hf. congruence. }
  rewrite difference_diag_L in Hu4. pose proof (rest_log _ _ (proj1 Hg4)) as El4.
  assert (Er3 : fsrest s3 = fsrest s1).
  { pose proof (lg_n _ _ _ (tr_log _ _ _ _ _ _ _ _ Ht)) as Hln. pose proof (lookup_lt_Some _ _ _ Hbf) as Hlen.
    rewrite (log_write_run c _ i (set_b_data d bf)) in E3; [|by apply set_buf_lookup|rewrite Hh; apply not_elem_of_empty|cbn; lia|cbn; lia|exact R4].
    injection E3 as <-. unfold fsrest. cbn [k_log set_buf set_k_bufs set_k_log]. unfold record_block. by case_match. }
  exists (set_buf i (set_b_data d bf) s1), s3, s4. split; [|split; [exact E3|split; [exact E4|split]]].
  - unfold set_data, upd_buf. by erewrite elem_upd_run.
  - exists (add_block b bs). rewrite <- Hn. split.
    + destruct Ht3 as [T1 T2 T3 T4 T5 T6 T7 T8 T9 T10].
      split; [apply Hg4|exact Hu4|by rewrite El4|by rewrite El4|by rewrite Ed4|exact T6| |by rewrite Ed4|by rewrite Ed4|by rewrite El4].
      intros b'. rewrite Hp4. apply T7.
    + assert (Ho : l_size (k_log s4) = l_size (k_log s1) /\ l_outstanding (k_log s4) = l_outstanding (k_log s1)).
      { rewrite El4, Hl3. unfold record_block. by case_match. }
      unfold fits. rewrite (proj1 Ho), (proj2 Ho). unfold add_block. case_decide; rewrite ?length_app; cbn; lia.
  - split.
    + intros b'. rewrite Hv4, Hv3, Hn. unfold put_block. case_decide; [reflexivity|]. apply Hsame.
    + rewrite (rest_fsrest _ _ (proj1 Hg4)), Er3. apply Hsame.
    + rewrite Ed4, Hd3. apply Hsame.
Qed.
End op.

(** ** Bits of a block *)

Lemma bit_of_testbit d bi : 0 <= bi -> bit_of d bi = Z.testbit (byte_at d (bi / 8)) (bi mod 8).
Proof.
  intros Hbi. unfold bit_of. assert (Hk : 0 <= bi mod 8) by (apply Z.mod_pos_bound; lia). set (k := bi mod 8) in *. set (x := byte_at d (bi / 8)).
  assert (Hb : forall n, 0 <= n -> Z.testbit (Z.land x (Z.shiftl 1 k)) n = Z.testbit x n && (k =? n)).
  { intros n Hn. rewrite Z.land_spec, Z.shiftl_1_l, Z.pow2_bits_eqb by done. done. }
  destruct (Z.testbit x k) eqn:Ex.
  - apply negb_true_iff, Z.eqb_neq. intros E. specialize (Hb k Hk). rewrite E, Z.bits_0, Ex, Z.eqb_refl in Hb. done.
  - apply negb_false_iff, Z.eqb_eq. apply Z.bits_inj'. intros n Hn. rewrite Hb, Z.bits_0 by done.
    destruct (Z.eqb_spec k n) as [<-|]; [by rewrite Ex|by rewrite andb_false_r].
Qed.

Lemma same_bit a b : 0 <= a -> 0 <= b -> a / 8 = b / 8 -> a mod 8 = b mod 8 -> a = b.
Proof. intros. Z.to_euclidean_division_equations. lia. Qed.

Lemma bit_of_put d o x bi (f : bool -> bool) : 0 <= o -> o / 8 < Z.of_nat (length d) -> 0 <= bi ->
  (forall n, 0 <= n < 8 -> Z.testbit x n = if decide (n = o mod 8) then f (Z.testbit (byte_at d (o / 8)) n) else Z.testbit (byte_at d (o / 8)) n) ->
  bit_of (put8 d (o / 8) x) bi = if decide (bi = o) then f (bit_of d bi) else bit_of d bi.
Proof.
  intros Ho Hl Hbi Hx. rewrite !bit_of_testbit by done. assert (0 <= o / 8) by (apply Z.div_pos; lia). assert (0 <= bi / 8) by (apply Z.div_pos; lia).
  rewrite byte_at_put8 by lia. assert (Hm : 0 <= bi mod 8 < 8) by (apply Z.mod_pos_bound; lia). destruct (decide (bi / 8 = o / 8)) as [E|E].
  - rewrite E. unfold u8. rewrite Z.mod_pow2_bits_low by lia. rewrite Hx by done. destruct (decide (bi = o)) as [->|Hne]; [by rewrite decide_True|].
    rewrite decide_False; [done|]. intros Em. apply Hne. by apply same_bit.
  - rewrite decide_False; [done|]. intros ->. done.
Qed.

Lemma bit_of_set d o bi : 0 <= o -> o / 8 < Z.of_nat (length d) -> 0 <= bi -> bit_of (set_bit d o) bi = bool_decide (bi = o) || bit_of d bi.
Proof.
  intros Ho Hl Hbi. assert (Hm : 0 <= o mod 8) by (apply Z.mod_pos_bound; lia). unfold set_bit. rewrite (bit_of_put d o _ bi (fun _ => true)); [|done..|].
  - case_decide; case_bool_decide; done.
  - intros n Hn. rewrite Z.lor_spec, Z.shiftl_1_l, Z.pow2_bits_eqb by done.
    destruct (decide (n = o mod 8)) as [->|Hne]; [by rewrite Z.eqb_refl, orb_true_r|]. by rewrite (proj2 (Z.eqb_neq _ _)), orb_false_r by congruence.
Qed.

Lemma bit_of_clear d o bi : 0 <= o -> o / 8 < Z.of_nat (length d) -> 0 <= bi -> bit_of (clear_bit d o) bi = negb (bool_decide (bi = o)) && bit_of d bi.
Proof.
  intros Ho Hl Hbi. assert (Hm : 0 <= o mod 8) by (apply Z.mod_pos_bound; lia). unfold clear_bit. rewrite (bit_of_put d o _ bi (fun _ => false)); [|done..|].
  - case_decide; case_bool_decide; done.
  - intros n Hn. rewrite Z.land_spec, Z.lnot_spec, Z.shiftl_1_l, Z.pow2_bits_eqb by lia.
    destruct (decide (n = o mod 8)) as [->|Hne]; [by rewrite Z.eqb_refl, andb_false_r|]. by rewrite (proj2 (Z.eqb_neq _ _)), andb_true_r by congruence.
Qed.

(** The inner loop of [balloc] finds the first clear bit. *)
Lemma free_bit_spec n data b size : forall bi, 0 <= bi ->
  match free_bit n data b bi size with
  | Some k => bi <= k < bi + Z.of_nat n /\ b + k < size /\ bit_of data k = false /\ forall j, bi <= j < k -> bit_of data j = true
  | None => forall j, bi <= j < bi + Z.of_nat n -> b + j < size -> bit_of data j = true
  end.
Proof.
  induction n as [|n IH]; intros bi Hbi; cbn [free_bit]; [intros j Hj; lia|].
  destruct (Z.ltb_spec (b + bi) size) as [Hlt|Hge]; [|intros j Hj Hs; lia].
  destruct (bit_of data bi) eqn:Hb; [|split; [lia|]; split; [lia|]; split; [done|]; intros j Hj; lia].
  specialize (IH (bi + 1) ltac:(lia)). destruct (free_bit n data b (bi + 1) size) as [k|].
  - destruct IH as (H1 & H2 & H3 & H4). split; [lia|]. split; [done|]. split; [done|]. intros j Hj.
    destruct (decide (j = bi)) as [->|]; [done|]. apply H4. lia.
  - intros j Hj Hs. destruct (decide (j = bi)) as [->|]; [done|]. apply IH; lia.
Qed.

(** ** The block allocator *)

(** The bit of block [b] in the bitmap. *)
Definition in_use (sb : superblock) (v : Z -> list Z) (b : Z) : bool := bit_of (v (BBLOCK b sb)) (b mod BPB).

(** The bitmap of a file system: whole blocks of the disk outside the log; the
    blocks of the bitmap and of the log are not free. *)
Record bitmap (sz st : Z) (sb : superblock) (v : Z -> list Z) : Prop := Bitmap {
  bm_size : 0 <= sb_size sb <= sz;
  bm_disk : sz <= 2 ^ 31;
  bm_place : forall b, 0 <= b < sb_size sb -> BBLOCK b sb = b / BPB + sb_bmapstart sb;
  bm_block : forall b, 0 <= b < sb_size sb -> 0 <= BBLOCK b sb < sz /\ home st (BBLOCK b sb);
  bm_length : forall b, 0 <= b < sb_size sb -> length (v (BBLOCK b sb)) = Z.to_nat BSIZE;
  bm_meta : forall b, 0 <= b < sb_size sb -> in_use sb v b = false -> home st b /\ forall b', 0 <= b' < sb_size sb -> BBLOCK b' sb <> b;
}.

(** The blocks of the log do not matter to it. *)
Lemma bitmap_home sz st sb v v' : (forall b, home st b -> v b = v' b) -> bitmap sz st sb v -> bitmap sz st sb v'.
Proof.
  intros E [B1 B2 B3 B4 B5 B6]. split; try done.
  - intros b Hb. rewrite <- E by by apply B4. by apply B5.
  - intros b Hb Hu. apply B6; [done|]. unfold in_use in *. by rewrite E by by apply B4.
Qed.

Lemma in_use_home sz st sb v v' b : (forall b, home st b -> v b = v' b) -> bitmap sz st sb v -> 0 <= b < sb_size sb -> in_use sb v' b = in_use sb v b.
Proof. intros E Hbm Hb. unfold in_use. rewrite E; [done|]. by apply (bm_block _ _ _ _ Hbm). Qed.

Lemma bitmap_ext sz st sb v v' : (forall b, v b = v' b) -> bitmap sz st sb v -> bitmap sz st sb v'.
Proof. intros E. apply bitmap_home. intros b _. apply E. Qed.

(** The blocks after [b] has been allocated. *)
Definition taken (sb : superblock) (b : Z) (v : Z -> list Z) : Z -> list Z :=
  put_block b zero_block (put_block (BBLOCK b sb) (set_bit (v (BBLOCK b sb)) (b mod BPB)) v).

Lemma BPB_mod k j : 0 <= j < BPB -> (k * BPB + j) mod BPB = j.
Proof. intros Hj. rewrite Z.add_comm, Z.mod_add by done. by apply Z.mod_small. Qed.

Lemma BPB_div k j : 0 <= j < BPB -> (k * BPB + j) / BPB = k.
Proof. intros Hj. rewrite Z.add_comm, Z.div_add by done. rewrite Z.div_small by done. lia. Qed.

Section balloc.
Context `{SyncDisk} (c : ctx) (me : nat) (pr : proc) (Hh : held c = ∅) (Hst : p_state pr = RUNNING) (sz st : Z).

Abbreviation op := (op c me pr sz st).

Lemma bzero_run n s b : op (S n) s -> 0 <= b < sz -> sz <= 2 ^ 31 -> home st b ->
  exists s', bzero ROOTDEV b c s = Done tt c s' /\ op n s' /\ becomes s s' (put_block b zero_block (view s)).
Proof using Hh Hst H0.
  intros Hop Hb Hsz Hhome. unfold bzero. rewrite u32_id by (word_unfold; lia).
  destruct (bread_op c me pr Hh sz st (S n) s b Hop Hb) as (i & s1 & E1 & Ho). rewrite (bind_Done _ _ _ _ _ _ _ E1).
  destruct (put_op c me pr Hh Hst sz st n s i b s1 zero_block Ho Hhome) as (s2 & s3 & s4 & E2 & E3 & E4 & Hop4 & Hb4).
  exists s4. split; [|done]. rewrite (bind_Done _ _ _ _ _ _ _ E2), (bind_Done _ _ _ _ _ _ _ E3). exact E4.
Qed.

(** [balloc] has found block [b], the first free one. *)
Record found (sb : superblock) (s : kernel) (b : Z) (s' : kernel) : Prop := Found {
  fo_range : 0 <= b < sb_size sb;
  fo_free : in_use sb (view s) b = false;
  fo_first : forall b', 0 <= b' < b -> in_use sb (view s) b' = true;
  fo_taken : becomes s s' (taken sb b (view s));
}.

Lemma balloc_loop_run n sb fuel : forall k s, op (S (S n)) s -> k_sb s = sb -> bitmap sz st sb (view s) -> 0 <= k ->
  (forall b, 0 <= b < k * BPB -> b < sb_size sb -> in_use sb (view s) b = true) -> sb_size sb <= (k + Z.of_nat fuel - 1) * BPB -> (0 < fuel)%nat ->
  (balloc_loop fuel ROOTDEV (k * BPB) c s = Panic "balloc: out of blocks" /\ forall b, 0 <= b < sb_size sb -> in_use sb (view s) b = true) \/
  exists b s', balloc_loop fuel ROOTDEV (k * BPB) c s = Done b c s' /\ op n s' /\ found sb s b s'.
Proof using Hh Hst H0.
  induction fuel as [|fuel IH]; intros k s Hop Hsb Hbm Hk Hbefore Hfuel Hpos; [lia|]. cbn [balloc_loop]. rewrite bind_gets, Hsb.
  destruct (Z.ltb_spec (k * BPB) (sb_size sb)) as [Hlt|Hge].
  2:{ left. split; [done|]. intros b Hb. apply Hbefore; lia. }
  assert (H0k : 0 <= k * BPB) by (unfold BPB, BSIZE; lia). destruct (bm_block _ _ _ _ Hbm (k * BPB)) as [Hbb Hbhome]; [lia|].
  destruct (bread_op c me pr Hh sz st _ s _ Hop Hbb) as (i & s1 & E1 & Ho). rewrite (bind_Done _ _ _ _ _ _ _ E1).
  destruct (opened_buf c me pr sz st _ s i _ s1 Ho) as (bf & Ebf & Ed). unfold buf_at. erewrite bind_elem_at by exact Ebf. rewrite Ed.
  pose proof (free_bit_spec (Z.to_nat BPB) (view s (BBLOCK (k * BPB) sb)) (k * BPB) (sb_size sb) 0 ltac:(lia)) as Hspec.
  assert (Hat : forall j, 0 <= j < BPB -> k * BPB + j < sb_size sb -> in_use sb (view s) (k * BPB + j) = bit_of (view s (BBLOCK (k * BPB) sb)) j).
  { intros j Hj Hs. unfold in_use. rewrite BPB_mod by done. do 2 f_equal. rewrite !(bm_place _ _ _ _ Hbm) by lia.
    rewrite BPB_div by done. by rewrite Z.div_mul. }
  rewrite Z2Nat.id in Hspec by (unfold BPB, BSIZE; lia). destruct (free_bit _ _ _ _ _) as [bi|].
  - right. destruct Hspec as (Hbi & Hin & Hclear & Hfirst). set (b := k * BPB + bi) in *. change (0 <= bi < BPB) in Hbi.
    assert (Hplace : BBLOCK b sb = BBLOCK (k * BPB) sb).
    { rewrite !(bm_place _ _ _ _ Hbm) by lia. unfold b. by rewrite BPB_div, Z.div_mul. }
    assert (Hmod : b mod BPB = bi) by (by apply BPB_mod).
    assert (Hfree : in_use sb (view s) b = false) by (unfold b; by rewrite Hat).
    destruct (put_op c me pr Hh Hst sz st (S n) s i _ s1 (set_bit (view s (BBLOCK (k * BPB) sb)) bi) Ho Hbhome) as (s2 & s3 & s4 & E2 & E3 & E4 & Hop4 & Hb4).
    rewrite (bind_Done _ _ _ _ _ _ _ E2), (bind_Done _ _ _ _ _ _ _ E3), (bind_Done _ _ _ _ _ _ _ E4).
    destruct (bm_meta _ _ _ _ Hbm b) as [Hhome _]; [lia|done|].
    destruct (bzero_run n s4 b Hop4) as (s5 & E5 & Hop5 & Hb5); [pose proof (bm_size _ _ _ _ Hbm); lia|apply Hbm|done|].
    rewrite (bind_Done _ _ _ _ _ _ _ E5). exists b, s5. split; [done|]. split; [done|]. split; [lia|done| |].
    + intros b' Hb'. destruct (decide (b' < k * BPB)); [apply Hbefore; lia|]. replace b' with (k * BPB + (b' - k * BPB)) by lia.
      rewrite Hat by (unfold b in *; lia). apply Hfirst. unfold b in Hb'. lia.
    + eapply becomes_trans; [exact Hb4|]. eapply becomes_view; [|exact Hb5]. intros b'. unfold taken, put_block.
      rewrite Hplace, Hmod. case_decide; [done|]. rewrite (bc_view _ _ _ Hb4). done.
  - destruct (close_op c me pr Hh Hst sz st _ s i _ s1 Ho) as (s2 & E2 & Hop2 & Hb2 & _). rewrite (bind_Done _ _ _ _ _ _ _ E2).
    assert (Hv : forall b, view s b = view s2 b) by (intros b; symmetry; apply Hb2).
    assert (Hu : forall b, in_use sb (view s2) b = in_use sb (view s) b) by (intros b; unfold in_use; by rewrite Hv).
    replace (k * BPB + BPB) with ((k + 1) * BPB) by lia. destruct (IH (k + 1) s2 Hop2) as [[E Hall]|(b & s' & E & Hop' & [F1 F2 F3 F4])].
    + by rewrite (fsrest_sb _ _ (bc_rest _ _ _ Hb2)).
    + by eapply bitmap_ext.
    + lia.
    + intros b Hb Hs. rewrite Hu. destruct (decide (b < k * BPB)); [by apply Hbefore; lia|].
      replace b with (k * BPB + (b - k * BPB)) by lia. rewrite Hat by lia. apply Hspec; lia.
    + lia.
    + destruct fuel; [|lia]. exfalso. unfold BPB, BSIZE in *. lia.
    + left. split; [done|]. intros b Hb. rewrite <- Hu. by apply Hall.
    + right. exists b, s'. split; [done|]. split; [done|]. split; [done|by rewrite <- Hu| |].
      * intros b' Hb'. rewrite <- Hu. by apply F3.
      * eapply becomes_trans; [exact Hb2|]. eapply becomes_view; [|exact F4]. intros b'. unfold taken, put_block. by rewrite <- !Hv.
Qed.
End balloc.

Lemma in_use_ext sb v v' b : v (BBLOCK b sb) = v' (BBLOCK b sb) -> in_use sb v b = in_use sb v' b.
Proof. intros E. unfold in_use. by rewrite E. Qed.

Lemma byte_of_block b : 0 <= b mod BPB / 8 < Z.of_nat (Z.to_nat BSIZE).
Proof.
  pose proof (Z.mod_pos_bound b BPB ltac:(done)) as Hm. rewrite Z2Nat.id by done. split; [apply Z.div_pos; lia|].
  apply Z.div_lt_upper_bound; [lia|]. replace (8 * BSIZE) with BPB by reflexivity. lia.
Qed.

Section bits.
Context (sz st : Z) (sb : superblock) (v : Z -> list Z) (Hbm : bitmap sz st sb v) (b : Z) (Hb : 0 <= b < sb_size sb).

(** Changing one bit of the bitmap. *)
Lemma in_use_put (f : bool -> bool -> bool) d b' : 0 <= b' < sb_size sb ->
  (forall j, 0 <= j -> bit_of d j = f (bool_decide (j = b mod BPB)) (bit_of (v (BBLOCK b sb)) j)) -> (forall x, f false x = x) ->
  in_use sb (put_block (BBLOCK b sb) d v) b' = f (bool_decide (b' = b)) (in_use sb v b').
Proof using Hbm Hb.
  intros Hb' Hd Hf. unfold in_use, put_block. pose proof (Z.mod_pos_bound b' BPB ltac:(done)). pose proof (Z.mod_pos_bound b BPB ltac:(done)).
  rewrite !(bm_place _ _ _ _ Hbm) by done. case_decide as E.
  - rewrite Hd by lia. rewrite (bm_place _ _ _ _ Hbm) by done. rewrite E. f_equal. apply bool_decide_ext. split; [|congruence].
    intros Em. rewrite (Z.div_mod b' BPB), (Z.div_mod b BPB) by done. rewrite Em. f_equal. f_equal. lia.
  - rewrite bool_decide_false; [done|]. congruence.
Qed.

Lemma in_use_taken b' : in_use sb v b = false -> 0 <= b' < sb_size sb -> in_use sb (taken sb b v) b' = bool_decide (b' = b) || in_use sb v b'.
Proof using Hbm Hb.
  intros Hfree Hb'. destruct (bm_meta _ _ _ _ Hbm b Hb Hfree) as [_ Hno].
  rewrite (in_use_ext sb (taken sb b v) (put_block (BBLOCK b sb) (set_bit (v (BBLOCK b sb)) (b mod BPB)) v) b').
  - apply (in_use_put orb); [done| |done]. intros j Hj. pose proof (Z.mod_pos_bound b BPB ltac:(done)).
    apply bit_of_set; [lia|rewrite (bm_length _ _ _ _ Hbm) by done; apply byte_of_block|done].
  - unfold taken. unfold put_block at 1. by rewrite decide_False by (by apply Hno).
Qed.

Lemma taken_bitmap : in_use sb v b = false -> bitmap sz st sb (taken sb b v).
Proof using Hbm Hb.
  intros Hfree. pose proof Hbm as [B1 B2 B3 B4 B5 B6]. destruct (B6 b Hb Hfree) as [_ Hno]. split; try done.
  - intros b' Hb'. unfold taken. unfold put_block at 1. rewrite decide_False by by apply Hno. unfold put_block. case_decide as E; [|by apply B5].
    unfold set_bit. rewrite put8_length. by apply B5.
  - intros b' Hb' Hu. apply B6; [done|]. rewrite in_use_taken in Hu by done. apply orb_false_iff in Hu as [_ Hu]. exact Hu.
Qed.

(** The blocks after [b] has been freed. *)
Definition given_back : Z -> list Z := put_block (BBLOCK b sb) (clear_bit (v (BBLOCK b sb)) (b mod BPB)) v.

Lemma in_use_given_back b' : 0 <= b' < sb_size sb -> in_use sb given_back b' = negb (bool_decide (b' = b)) && in_use sb v b'.
Proof using Hbm Hb.
  intros Hb'. apply (in_use_put (fun x y => negb x && y)); [done| |done]. intros j Hj. pose proof (Z.mod_pos_bound b BPB ltac:(done)).
  apply bit_of_clear; [lia|rewrite (bm_length _ _ _ _ Hbm) by done; apply byte_of_block|done].
Qed.

Lemma given_back_bitmap : home st b -> (forall b', 0 <= b' < sb_size sb -> BBLOCK b' sb <> b) -> bitmap sz st sb given_back.
Proof using Hbm Hb.
  intros Hhome Hno. pose proof Hbm as [B1 B2 B3 B4 B5 B6]. split; try done.
  - intros b' Hb'. unfold given_back, put_block. case_decide as E; [|by apply B5]. unfold clear_bit. rewrite put8_length. by apply B5.
  - intros b' Hb' Hu. rewrite in_use_given_back in Hu by done. case_bool_decide as E; [by subst b'|]. apply B6; [done|exact Hu].
Qed.
End bits.

(** *** Allocating while blocks are free *)

Lemma filter_absent (l : list Z) b : b ∉ l -> filter (.≠ b) l = l.
Proof.
  induction l as [|x l IH]; [done|]. intros [Hne Hl]%not_elem_of_cons. rewrite filter_cons, decide_True by congruence. by rewrite IH.
Qed.

Lemma length_remove_le (l : list Z) b : NoDup l -> (length l <= S (length (filter (.≠ b) l)))%nat.
Proof.
  induction 1 as [|x l Hx Hn IH]; [cbn; lia|]. rewrite filter_cons. case_decide as Hne; cbn [length]; [lia|].
  assert (x = b) as -> by (destruct (decide (x = b)); tauto). by rewrite filter_absent.
Qed.

(** At least [n] blocks are free. *)
Definition has_free (sb : superblock) (v : Z -> list Z) (n : nat) : Prop :=
  exists l, NoDup l /\ length l = n /\ forall b, b ∈ l -> 0 <= b < sb_size sb /\ in_use sb v b = false.

Lemma has_free_ext sb v v' n : (forall b, v b = v' b) -> has_free sb v n -> has_free sb v' n.
Proof. intros E (l & H1 & H2 & H3). exists l. split; [done|]. split; [done|]. intros b Hb. destruct (H3 b Hb). split; [done|]. by rewrite <- (in_use_ext sb v v') by done. Qed.

Lemma has_free_le sb v n m : (m <= n)%nat -> has_free sb v n -> has_free sb v m.
Proof.
  intros Hm (l & Hn & Hl & Hf). exists (take m l). split; [|split].
  - rewrite <- (take_drop m l) in Hn. by apply NoDup_app in Hn as (? & _ & _).
  - rewrite length_take. lia.
  - intros b Hb. apply Hf. eapply elem_of_take in Hb as (i & Hi & _). by eapply list_elem_of_lookup_2.
Qed.

Lemma has_free_taken sz st sb v n b : bitmap sz st sb v -> 0 <= b < sb_size sb -> in_use sb v b = false -> has_free sb v (S n) -> has_free sb (taken sb b v) n.
Proof.
  intros Hbm Hb Hu (l & Hnd & Hl & Hf). apply (has_free_le _ _ (length (filter (.≠ b) l))).
  - pose proof (length_remove_le l b Hnd). lia.
  - exists (filter (.≠ b) l). split; [by apply NoDup_filter|]. split; [done|]. intros b' [Hne Hin]%list_elem_of_filter. destruct (Hf b' Hin) as [Hr Hu'].
    split; [done|]. erewrite in_use_taken by done. by rewrite bool_decide_false, Hu'.
Qed.

Section balloc_free.
Context `{SyncDisk} (c : ctx) (me : nat) (pr : proc) (Hh : held c = ∅) (Hst : p_state pr = RUNNING) (sz st : Z).

Lemma op_frame n s s' : runs c s' me pr -> k_bufs s' = k_bufs s -> k_disk s' = k_disk s -> k_log s' = k_log s ->
  op c me pr sz st n s -> op c me pr sz st n s'.
Proof using Type. intros Hr Eb Ed El (bs & Ht & Hf). exists bs. split; [by eapply trans_frame|]. unfold fits in *. by rewrite El. Qed.

Lemma op_le n m s : (m <= n)%nat -> op c me pr sz st n s -> op c me pr sz st m s.
Proof using Type. intros Hm (bs & Ht & F1 & F2 & F3). exists bs. split; [done|]. split; [lia|]. split; [lia|]. intros. apply F3. lia. Qed.

Lemma balloc_run n s : op c me pr sz st (S (S n)) s -> bitmap sz st (k_sb s) (view s) ->
  (balloc ROOTDEV c s = Panic "balloc: out of blocks" /\ forall b, 0 <= b < sb_size (k_sb s) -> in_use (k_sb s) (view s) b = true) \/
  exists b s', balloc ROOTDEV c s = Done b c s' /\ op c me pr sz st n s' /\ found (k_sb s) s b s'.
Proof using Hh Hst H0.
  intros Hop Hbm. unfold balloc. rewrite bind_gets. change (balloc_loop (S (Z.to_nat (sb_size (k_sb s) / BPB + 1))) ROOTDEV 0) with
    (balloc_loop (S (Z.to_nat (sb_size (k_sb s) / BPB + 1))) ROOTDEV (0 * BPB)).
  pose proof (bm_size _ _ _ _ Hbm) as Hsize. assert (Hd : 0 <= sb_size (k_sb s) / BPB) by (apply Z.div_pos; [lia|done]).
  apply (balloc_loop_run c me pr Hh Hst sz st n (k_sb s)); [done|done|done|lia| | |lia].
  - intros b Hb. unfold BPB, BSIZE in Hb. lia.
  - rewrite Nat2Z.inj_succ, Z2Nat.id by lia. pose proof (Z.mod_pos_bound (sb_size (k_sb s)) BPB ltac:(done)).
    pose proof (Z.div_mod (sb_size (k_sb s)) BPB ltac:(done)). unfold BPB, BSIZE in *. lia.
Qed.

Lemma balloc_free n k s : op c me pr sz st (S (S n)) s -> bitmap sz st (k_sb s) (view s) -> has_free (k_sb s) (view s) (S k) ->
  exists b s', balloc ROOTDEV c s = Done b c s' /\ op c me pr sz st n s' /\ found (k_sb s) s b s' /\
    bitmap sz st (k_sb s) (view s') /\ has_free (k_sb s) (view s') k.
Proof using Hh Hst H0.
  intros Hop Hbm Hfree. destruct (balloc_run n s Hop Hbm) as [[_ Hall]|(b & s' & E & Hop' & Hf)].
  { destruct Hfree as (l & _ & Hl & Hf). destruct l as [|b l]; [done|]. destruct (Hf b) as [Hb Hu]; [by left|]. by rewrite Hall in Hu. }
  exists b, s'. split; [done|]. split; [done|]. split; [done|]. pose proof Hf as [F1 F2 F3 F4].
  assert (Hv : forall b', taken (k_sb s) b (view s) b' = view s' b') by (intros b'; symmetry; apply F4). split.
  - eapply bitmap_ext; [exact Hv|]. by apply taken_bitmap.
  - eapply has_free_ext; [exact Hv|]. by eapply has_free_taken.
Qed.
End balloc_free.

(** ** Theorems *)

Section theorems.
Context `{SyncDisk} (c : ctx) (me : nat) (pr : proc) (sz st : Z) (s : kernel).

(** C25: [balloc] hands out a block that nobody has.  It returns the first block
    that is free in the bitmap, marked as in use and filled with zeroes; every
    other bit of the bitmap, every other block and the rest of the kernel are as
    before.  If no block is free it panics. *)
Theorem balloc_allocates (n : nat) : held c = ∅ -> p_state pr = RUNNING -> op c me pr sz st (S (S n)) s -> bitmap sz st (k_sb s) (view s) ->
  (balloc ROOTDEV c s = Panic "balloc: out of blocks" /\ forall b, 0 <= b < sb_size (k_sb s) -> in_use (k_sb s) (view s) b = true) \/
  exists b s', balloc ROOTDEV c s = Done b c s' /\ op c me pr sz st n s' /\ 0 <= b < sb_size (k_sb s) /\ in_use (k_sb s) (view s) b = false /\
    bitmap sz st (k_sb s) (view s') /\ view s' b = zero_block /\ fsrest s' = fsrest s /\
    (forall b', 0 <= b' < sb_size (k_sb s) -> in_use (k_sb s) (view s') b' = bool_decide (b' = b) || in_use (k_sb s) (view s) b') /\
    (forall b', b' <> b -> b' <> BBLOCK b (k_sb s) -> view s' b' = view s b').
Proof using Type*.
  intros Hh Hst Hop Hbm. destruct (balloc_run c me pr Hh Hst sz st n s Hop Hbm) as [?|(b & s' & E & Hop' & [F1 F2 F3 F4])].
  - by left.
  - right. exists b, s'. pose proof (bc_view _ _ _ F4) as Hv. assert (Hv' : forall b', taken (k_sb s) b (view s) b' = view s' b') by (intros; by rewrite Hv).
    split; [done|]. split; [done|]. split; [done|]. split; [done|]. split.
    { eapply bitmap_ext; [exact Hv'|]. by apply taken_bitmap. }
    split; [rewrite Hv; unfold taken, put_block; by rewrite decide_True|]. split; [apply F4|]. split.
    + intros b' Hb'. rewrite (in_use_ext _ (view s') (taken (k_sb s) b (view s))) by done. by eapply in_use_taken.
    + intros b' H1 H2. rewrite Hv. unfold taken, put_block. by rewrite !decide_False.
Qed.

(** [bfree] gives a block back: its bit and nothing else is cleared.  A block
    that is not in use makes it panic. *)
Theorem bfree_frees (n : nat) (b : Z) : held c = ∅ -> p_state pr = RUNNING -> op c me pr sz st (S n) s -> bitmap sz st (k_sb s) (view s) ->
  0 <= b < sb_size (k_sb s) ->
  if in_use (k_sb s) (view s) b then
    exists s', bfree ROOTDEV b c s = Done tt c s' /\ op c me pr sz st n s' /\ fsrest s' = fsrest s /\
      (forall b', 0 <= b' < sb_size (k_sb s) -> in_use (k_sb s) (view s') b' = negb (bool_decide (b' = b)) && in_use (k_sb s) (view s) b') /\
      (forall b', b' <> BBLOCK b (k_sb s) -> view s' b' = view s b') /\
      (home st b -> (forall b', 0 <= b' < sb_size (k_sb s) -> BBLOCK b' (k_sb s) <> b) -> bitmap sz st (k_sb s) (view s'))
  else bfree ROOTDEV b c s = Panic "freeing free block".
Proof using Type*.
  intros Hh Hst Hop Hbm Hb. destruct (bm_block _ _ _ _ Hbm b Hb) as [Hbb Hbhome]. unfold bfree. rewrite bind_gets.
  destruct (bread_op c me pr Hh sz st _ s _ Hop Hbb) as (i & s1 & E1 & Ho). rewrite (bind_Done _ _ _ _ _ _ _ E1).
  destruct (opened_buf c me pr sz st _ s i _ s1 Ho) as (bf & Ebf & Ed). unfold buf_at. erewrite bind_elem_at by exact Ebf. rewrite Ed. cbv zeta.
  unfold in_use at 1. destruct (bit_of (view s (BBLOCK b (k_sb s))) (b mod BPB)) eqn:Hu; cbn [negb]; [|done].
  destruct (put_op c me pr Hh Hst sz st n s i _ s1 (clear_bit (view s (BBLOCK b (k_sb s))) (b mod BPB)) Ho Hbhome) as (s2 & s3 & s4 & E2 & E3 & E4 & Hop4 & Hb4).
  exists s4. split; [by rewrite (bind_Done _ _ _ _ _ _ _ E2), (bind_Done _ _ _ _ _ _ _ E3)|]. split; [done|]. split; [apply Hb4|].
  assert (Hv : forall b', given_back (k_sb s) (view s) b b' = view s4 b') by (intros b'; symmetry; apply Hb4). split; [|split].
  - intros b' Hb'. rewrite (in_use_ext _ (view s4) (given_back (k_sb s) (view s) b)) by done. by eapply in_use_given_back.
  - intros b' Hne. rewrite <- Hv. unfold given_back, put_block. by rewrite decide_False.
  - intros Hhome Hno. eapply bitmap_ext; [exact Hv|]. by apply given_back_bitmap.
Qed.
End theorems.

(** ** An example

    A disk of 100 blocks with the log in blocks 2 to 31 and the bitmap in block
    40, in which all blocks but 60 are in use. *)

Definition ex_sb : superblock := {| sb_size := 100; sb_nblocks := 59; sb_ninodes := 8; sb_nlog := 30; sb_logstart := 2;
  sb_inodestart := 32; sb_bmapstart := 40 |}.
Definition ex_bitmap : list Z := <[7%nat := 239]> (replicate 512 255).

Definition ex_blocks : gmap Z (list Z) := {[40 := ex_bitmap]}.

Lemma ex_op_on blocks n : (n <= 20)%nat -> exists s, op ex_idle 0 ex_proc 100 2 n s /\ k_sb s = ex_sb /\
  forall b, view s b = rdblk (<[2 := replicate 512 0]> blocks) b.
Proof.
  intros Hn. destruct (ex_fs_trans blocks) as (s & E & El & Ht).
  destruct (ex_fs_boot (replicate 512 0) blocks) as (s0 & E0 & _ & Hd & _). rewrite E in E0. injection E0 as <-.
  set (l := set_l_outstanding 1 ex_log). set (s1 := with_log l (set_k_sb ex_sb s)). exists s1.
  assert (Ht1 : trans 0 ex_proc 100 2 ex_idle [] ∅ s1).
  { apply trans_with_log; [by apply (trans_frame _ _ _ _ _ _ _ s); [apply Ht|..]| |reflexivity|reflexivity]. split; [reflexivity|reflexivity|reflexivity|].
    intros k b Hk. rewrite lookup_nil in Hk. discriminate. }
  split; [|split; [reflexivity|]].
  - exists []. split; [exact Ht1|]. unfold fits. cbn [k_log s1 with_log set_k_log l l_size l_outstanding set_l_outstanding ex_log length].
    rewrite HEAD_value. unfold LOGSIZE, MAXOPBLOCKS. lia.
  - intros b. rewrite (trans_view _ _ _ _ _ _ _ b Ht1) by apply not_elem_of_nil.
    change (k_disk s1) with (k_disk s). rewrite Hd. reflexivity.
Qed.

Lemma ex_op n : (n <= 20)%nat -> exists s, op ex_idle 0 ex_proc 100 2 n s /\ k_sb s = ex_sb /\
  forall b, view s b = rdblk (<[2 := replicate 512 0]> ex_blocks) b.
Proof. apply ex_op_on. Qed.

Lemma ex_bblock b : 0 <= b < 100 -> BBLOCK b ex_sb = 40.
Proof. intros Hb. unfold BBLOCK. cbn [sb_bmapstart ex_sb]. rewrite Z.div_small by (unfold BPB, BSIZE; lia). reflexivity. Qed.

Lemma ex_in_use v b : v 40 = ex_bitmap -> 0 <= b < 100 -> in_use ex_sb v b = negb (b =? 60).
Proof.
  intros Ev Hb. unfold in_use. rewrite ex_bblock, Ev by done. rewrite Z.mod_small by (unfold BPB, BSIZE; lia).
  assert (H : forallb (fun b => Bool.eqb (bit_of ex_bitmap b) (negb (b =? 60))) (seqZ 0 100) = true) by (vm_compute; reflexivity).
  rewrite forallb_forall in H. apply eqb_prop, H. apply list_elem_of_In, elem_of_seqZ. lia.
Qed.

Lemma ex_bitmap_free v : length (v 40) = 512%nat -> (forall b, 0 <= b < 100 -> in_use ex_sb v b = false -> 60 <= b) -> bitmap 100 2 ex_sb v.
Proof.
  intros Hl Hfree. split; cbn [sb_size ex_sb].
  - lia.
  - lia.
  - intros b Hb. rewrite ex_bblock by done. rewrite Z.div_small by (unfold BPB, BSIZE; lia). reflexivity.
  - intros b Hb. rewrite ex_bblock by done. split; [lia|]. right. unfold LOGSIZE, MAXOPBLOCKS. lia.
  - intros b Hb. by rewrite ex_bblock.
  - intros b Hb Hu. apply Hfree in Hu; [|done]. split; [right; unfold LOGSIZE, MAXOPBLOCKS; lia|]. intros b' Hb'. rewrite ex_bblock by done. lia.
Qed.

Lemma ex_bitmap_ok v : v 40 = ex_bitmap -> bitmap 100 2 ex_sb v.
Proof.
  intros Ev. apply ex_bitmap_free; [by rewrite Ev|]. intros b Hb Hu. rewrite ex_in_use in Hu by done. apply negb_false_iff, Z.eqb_eq in Hu. lia.
Qed.

Lemma balloc_allocates_witness : exists s s', balloc ROOTDEV ex_idle s = Done 60 ex_idle s' /\ view s' 60 = zero_block.
Proof.
  destruct (ex_op 2 ltac:(lia)) as (s & Hop & Hsb & Hv). assert (Ev : view s 40 = ex_bitmap) by (rewrite Hv; reflexivity).
  destruct (balloc_allocates ex_idle 0 ex_proc 100 2 s 0) as [[_ Hall]|(b & s' & E & _ & Hb & Hu & _ & Hz & _)].
  - reflexivity.
  - reflexivity.
  - exact Hop.
  - rewrite Hsb. exact (ex_bitmap_ok _ Ev).
  - rewrite Hsb in Hall. specialize (Hall 60 ltac:(cbn; lia)). rewrite (ex_in_use _ _ Ev) in Hall by lia. discriminate.
  - rewrite Hsb in Hb, Hu. rewrite (ex_in_use _ _ Ev) in Hu by exact Hb. apply negb_false_iff, Z.eqb_eq in Hu. subst b. exists s, s'. by split.
Defined.

Lemma bfree_frees_witness : exists s s', bfree ROOTDEV 50 ex_idle s = Done tt ex_idle s' /\ in_use ex_sb (view s') 50 = false.
Proof.
  destruct (ex_op 1 ltac:(lia)) as (s & Hop & Hsb & Hv). assert (Ev : view s 40 = ex_bitmap) by (rewrite Hv; reflexivity).
  assert (Hb : 0 <= 50 < sb_size (k_sb s)) by (rewrite Hsb; cbn; lia).
  pose proof (bfree_frees ex_idle 0 ex_proc 100 2 s 0 50 eq_refl eq_refl Hop ltac:(rewrite Hsb; exact (ex_bitmap_ok _ Ev)) Hb) as H.
  rewrite Hsb, (ex_in_use _ _ Ev) in H by lia. destruct H as (s' & E & _ & _ & Hu & _). exists s, s'. split; [exact E|].
  rewrite Hu by (cbn; lia). reflexivity.
Defined.
