(* ===== verification/Inode.v ===== *)
(** * Contents of files (src/fs.c)

    A file is an array of bytes.  [readi] and [writei] are proved against it for
    files that fit into the direct blocks of their inode. *)

From S2P Require Import Prelude Layout CString Spinlock Kalloc State Sched Sleeplock Bio Cache Log Journal Trans Fs Blocks.

#[local] Opaque HEAD bread brelse log_write view pending balloc.

(** ** Bytes of a block *)

Lemma put_bytes_from l o v : forall j, 0 <= o + j -> o + j + Z.of_nat (length v) <= Z.of_nat (length l) ->
  length (foldl (fun l '(i, x) => put8 l (o + i) x) l (zip (seqZ j (Z.of_nat (length v))) v)) = length l /\
  forall x, 0 <= x -> byte_at (foldl (fun l '(i, x) => put8 l (o + i) x) l (zip (seqZ j (Z.of_nat (length v))) v)) x =
    if decide (o + j <= x < o + j + Z.of_nat (length v)) then u8 (default 0 (v !! Z.to_nat (x - o - j))) else byte_at l x.
Proof.
  revert l. induction v as [|y v IH]; intros l j Hj Hl; cbn [length] in *.
  { split; [done|]. intros x Hx. by rewrite decide_False by lia. }
  rewrite (seqZ_cons j) by lia. cbn [zip zip_with foldl]. replace (Z.pred (Z.of_nat (S (length v)))) with (Z.of_nat (length v)) by lia.
  change (Z.succ j) with (j + 1). destruct (IH (put8 l (o + j) y) (j + 1)) as [IH1 IH2]; [lia|rewrite put8_length; lia|]. rewrite put8_length in IH1.
  split; [exact IH1|]. intros x Hx. rewrite IH2 by done. rewrite byte_at_put8 by lia. destruct (decide (x = o + j)) as [->|Hne].
  - rewrite decide_False, decide_True by lia. by replace (Z.to_nat (o + j - o - j)) with 0%nat by lia.
  - destruct (decide (o + (j + 1) <= x < _)).
    + rewrite decide_True by lia. by replace (Z.to_nat (x - o - j)) with (S (Z.to_nat (x - o - (j + 1)))) by lia.
    + by rewrite decide_False by lia.
Qed.

Lemma put_bytes_length l o v : 0 <= o -> o + Z.of_nat (length v) <= Z.of_nat (length l) -> length (put_bytes l o v) = length l.
Proof. intros Ho Hl. apply (put_bytes_from l o v 0); lia. Qed.

Lemma byte_at_put_bytes l o v x : 0 <= o -> o + Z.of_nat (length v) <= Z.of_nat (length l) -> 0 <= x ->
  byte_at (put_bytes l o v) x = if decide (o <= x < o + Z.of_nat (length v)) then u8 (byte_at v (x - o)) else byte_at l x.
Proof.
  intros Ho Hl Hx. unfold put_bytes. destruct (put_bytes_from l o v 0) as [_ E]; [lia|lia|]. rewrite E by done.
  rewrite Z.add_0_r, Z.sub_0_r. done.
Qed.

Lemma get_bytes_length l o n : 0 <= n -> Z.of_nat (length (get_bytes l o n)) = n.
Proof. intros Hn. unfold get_bytes. rewrite length_fmap, length_seqZ. lia. Qed.

Lemma byte_at_get_bytes l o n x : 0 <= x < n -> byte_at (get_bytes l o n) x = byte_at l (o + x).
Proof.
  intros Hx. unfold get_bytes, byte_at at 1. rewrite list_lookup_fmap, lookup_seqZ_lt by lia. cbn. f_equal. lia.
Qed.

Lemma zero_block_byte x : byte_at zero_block x = 0.
Proof.
  unfold byte_at, zero_block. destruct (_ !! Z.to_nat x) as [y|] eqn:E; [|done]. by apply lookup_replicate in E as [-> _].
Qed.

(** ** Files in direct blocks *)

(** Byte [x] of a file; blocks that are not allocated are zero. *)
Definition file_byte (v : Z -> list Z) (ip : inode) (x : Z) : Z :=
  let a := addr_of ip (x / BSIZE) in if a =? 0 then 0 else byte_at (v a) (x mod BSIZE).

(** Block [a] of the disk is in use for data. *)
Record data_block (st : Z) (sb : superblock) (v : Z -> list Z) (a : Z) : Prop := DataBlock {
  db_range : 0 <= a < sb_size sb;
  db_used : in_use sb v a = true;
  db_home : home st a;
  db_bitmap : forall b, 0 <= b < sb_size sb -> BBLOCK b sb <> a;
  db_length : length (v a) = Z.to_nat BSIZE;
}.

Definition iblock (sb : superblock) (ip : inode) : Z := IBLOCK (i_inum ip) sb.

(** An inode whose file is in its direct blocks, all different. *)
Record file_ok (st : Z) (sb : superblock) (v : Z -> list Z) (ip : inode) : Prop := FileOk {
  fk_kind : i_type ip <> T_DEV /\ i_type ip <> T_EXTENT;
  fk_dev : i_dev ip = ROOTDEV;
  fk_addrs : length (i_addrs ip) = Z.to_nat (NDIRECT + 2);
  fk_data : forall k, 0 <= k < NDIRECT -> addr_of ip k <> 0 -> data_block st sb v (addr_of ip k);
  fk_inj : forall k k', 0 <= k < NDIRECT -> 0 <= k' < NDIRECT -> addr_of ip k <> 0 -> addr_of ip k = addr_of ip k' -> k = k';
  fk_inode : data_block st sb v (iblock sb ip);
  fk_apart : forall k, 0 <= k < NDIRECT -> addr_of ip k <> iblock sb ip;
  fk_boot : 0 < sb_size sb /\ in_use sb v 0 = true;
  fk_inum : 0 <= i_inum ip;
}.

Definition with_addr (k a : Z) (ip : inode) : inode := set_i_addrs (<[Z.to_nat k := a]> (i_addrs ip)) ip.

Lemma addr_of_with k a ip k' : 0 <= k -> (Z.to_nat k < length (i_addrs ip))%nat -> 0 <= k' -> addr_of (with_addr k a ip) k' = if decide (k' = k) then a else addr_of ip k'.
Proof.
  intros Hk Hl Hk'. unfold addr_of, with_addr. cbn [i_addrs set_i_addrs]. case_decide as E.
  - subst k'. by rewrite list_lookup_insert_eq.
  - by rewrite list_lookup_insert_ne by lia.
Qed.

Lemma with_addr_id k ip : 0 <= k -> (Z.to_nat k < length (i_addrs ip))%nat -> with_addr k (addr_of ip k) ip = ip.
Proof.
  intros Hk Hl. unfold with_addr, addr_of. apply lookup_lt_is_Some in Hl as [a Ha]. rewrite Ha. cbn. rewrite list_insert_id by done. by destruct ip.
Qed.

Section taking.
Context (sz st : Z) (sb : superblock) (v : Z -> list Z) (Hbm : bitmap sz st sb v) (b : Z) (Hb : 0 <= b < sb_size sb) (Hfree : in_use sb v b = false).

Lemma taken_keeps a : data_block st sb v a -> taken sb b v a = v a /\ data_block st sb (taken sb b v) a.
Proof using Hbm Hb Hfree.
  intros [D1 D2 D3 D4 D5]. assert (Ev : taken sb b v a = v a).
  { unfold taken, put_block. rewrite !decide_False; [done| |].
    - intros E. by apply (D4 b Hb).
    - intros ->. congruence. }
  split; [done|]. split; try done; [|by rewrite Ev]. erewrite in_use_taken by done. by rewrite D2, orb_true_r.
Qed.

Lemma taken_data : data_block st sb (taken sb b v) b.
Proof using Hbm Hb Hfree.
  destruct (bm_meta _ _ _ _ Hbm b Hb Hfree) as [Hhome Hno]. split; try done.
  - erewrite in_use_taken by done. by rewrite bool_decide_true.
  - unfold taken. unfold put_block at 1. by rewrite decide_True.
Qed.

Context (ip : inode) (Hf : file_ok st sb v ip) (k : Z) (Hk : 0 <= k < NDIRECT) (Hhole : addr_of ip k = 0).

Lemma slot_length : (Z.to_nat k < length (i_addrs ip))%nat.
Proof using Hf Hk. rewrite (fk_addrs _ _ _ _ Hf). unfold NDIRECT in *. lia. Qed.

Lemma taken_new : b <> 0 /\ b <> iblock sb ip /\ forall k', 0 <= k' < NDIRECT -> addr_of ip k' <> b.
Proof using Hbm Hb Hfree Hf.
  assert (H0 : b <> 0) by (intros ->; destruct (fk_boot _ _ _ _ Hf); congruence).
  split; [done|]. split.
  - intros E. pose proof (db_used _ _ _ _ (fk_inode _ _ _ _ Hf)). congruence.
  - intros k' Hk' E. destruct (decide (addr_of ip k' = 0)); [congruence|]. pose proof (db_used _ _ _ _ (fk_data _ _ _ _ Hf k' Hk' ltac:(done))). congruence.
Qed.

Lemma taken_file : file_ok st sb (taken sb b v) (with_addr k b ip).
Proof using Hbm Hb Hfree Hf Hk Hhole.
  pose proof Hf as [K1 K2 K3 K4 K5 K6 K7 K8 K9]. destruct taken_new as (Hb0 & Hbi & Hnew). pose proof slot_length as Hl.
  assert (Ha : forall k', 0 <= k' < NDIRECT -> addr_of (with_addr k b ip) k' = if decide (k' = k) then b else addr_of ip k') by (intros k' Hk'; apply addr_of_with; [lia|done|lia]).
  split; [done|done|cbn; by rewrite length_insert|..].
  - intros k' Hk' Hne. rewrite Ha in Hne |- * by done. case_decide; [apply taken_data|]. by apply taken_keeps, K4.
  - intros k1 k2 H1 H2 Hne E. rewrite !Ha in * by done. repeat case_decide; subst; [done| | |by apply K5].
    + by destruct (Hnew k2 H2). + by destruct (Hnew k1 H1).
  - by apply taken_keeps.
  - intros k' Hk'. rewrite Ha by done. case_decide; [done|by apply K7].
  - split; [apply K8|]. erewrite in_use_taken by (done || lia). rewrite (proj2 K8). apply orb_true_r.
  - done.
Qed.

(** A new block is zero, as the hole was. *)
Lemma taken_bytes x : 0 <= x -> x / BSIZE < NDIRECT -> file_byte (taken sb b v) (with_addr k b ip) x = file_byte v ip x.
Proof using Hbm Hb Hfree Hf Hk Hhole.
  intros Hx Hd. destruct taken_new as (Hb0 & _ & Hnew). pose proof slot_length as Hl. assert (Hq : 0 <= x / BSIZE) by (apply Z.div_pos; [lia|done]).
  unfold file_byte. rewrite addr_of_with by (lia || done). case_decide as E.
  - rewrite E, Hhole, Z.eqb_refl. rewrite (proj2 (Z.eqb_neq _ _) Hb0). unfold taken. unfold put_block at 1. rewrite decide_True by done. apply zero_block_byte.
  - destruct (Z.eqb_spec (addr_of ip (x / BSIZE)) 0) as [|Hne]; [done|].
    by rewrite (proj1 (taken_keeps _ (fk_data _ _ _ _ Hf (x / BSIZE) (conj Hq Hd) Hne))).
Qed.
End taking.

(** Changing a block that is not part of the bitmap. *)
Section storing.
Context (sz st : Z) (sb : superblock) (v : Z -> list Z) (a : Z) (d : list Z).
Context (Hno : forall b, 0 <= b < sb_size sb -> BBLOCK b sb <> a) (Hd : length d = Z.to_nat BSIZE).

Lemma in_use_store b : 0 <= b < sb_size sb -> in_use sb (put_block a d v) b = in_use sb v b.
Proof using Hno. intros Hb. apply in_use_ext. unfold put_block. by rewrite decide_False by by apply Hno. Qed.

Lemma bitmap_store : bitmap sz st sb v -> bitmap sz st sb (put_block a d v).
Proof using Hno.
  intros [B1 B2 B3 B4 B5 B6]. split; try done.
  - intros b Hb. unfold put_block. rewrite decide_False by by apply Hno. by apply B5.
  - intros b Hb Hu. apply B6; [done|]. by rewrite in_use_store in Hu.
Qed.

Lemma has_free_store n : has_free sb v n -> has_free sb (put_block a d v) n.
Proof using Hno.
  intros (l & H1 & H2 & H3). exists l. split; [done|]. split; [done|]. intros b Hb. destruct (H3 b Hb). split; [done|]. by rewrite in_use_store.
Qed.

Lemma data_store x : data_block st sb v x -> data_block st sb (put_block a d v) x.
Proof using Hno Hd.
  intros [D1 D2 D3 D4 D5]. split; try done; [by rewrite in_use_store|]. unfold put_block. by case_decide.
Qed.

Lemma file_ok_store ip : file_ok st sb v ip -> file_ok st sb (put_block a d v) ip.
Proof using Hno Hd.
  intros [K1 K2 K3 K4 K5 K6 K7 K8 K9]. split; try done.
  - intros k Hk Hne. by apply data_store, K4.
  - by apply data_store.
  - split; [apply K8|]. rewrite in_use_store by lia. apply K8.
Qed.
End storing.

(** The words of an inode in its block. *)
Lemma word_bytes_concat l k x : 0 <= x < 4 -> 0 <= k < Z.of_nat (length l) ->
  byte_at (concat (word_bytes <$> l)) (4 * k + x) = u8 (Z.shiftr (default 0 (l !! Z.to_nat k)) (8 * x)).
Proof.
  revert k. induction l as [|y l IH]; intros k Hx Hk; cbn [length fmap list_fmap concat] in *; [lia|]. unfold byte_at.
  destruct (decide (k = 0)) as [->|Hne].
  - rewrite lookup_app_l by (cbn; lia). assert (x = 0 \/ x = 1 \/ x = 2 \/ x = 3) as [-> | [-> | [-> | ->]]] by lia; cbn; by rewrite ?Z.shiftr_0_r.
  - rewrite lookup_app_r by (cbn; lia). replace (Z.to_nat (4 * k + x) - length (word_bytes y))%nat with (Z.to_nat (4 * (k - 1) + x)) by (cbn; lia).
    fold (byte_at (concat (word_bytes <$> l)) (4 * (k - 1) + x)). rewrite IH by lia. replace (Z.to_nat k) with (S (Z.to_nat (k - 1))) by lia. done.
Qed.

Lemma word_bytes_length l : length (concat (word_bytes <$> l)) = (4 * length l)%nat.
Proof. induction l as [|y l IH]; [done|]. cbn [fmap list_fmap concat]. rewrite length_app, IH. cbn [length word_bytes]. lia. Qed.

Lemma dip_range inum : 0 <= inum -> 0 <= dip inum <= 420.
Proof. intros Hi. unfold dip, IPB, DINODE_SIZE, BSIZE, NDIRECT. change (8 + 4 + 4 * (11 + 1)) with 60. change (512 / 60) with 8. Z.to_euclidean_division_equations; lia. Qed.

(** The block of an inode as [iupdate] leaves it. *)
Definition inode_bytes (ip : inode) (d : list Z) : list Z :=
  let o := dip (i_inum ip) in
  put_bytes (put32 (put16 (put16 (put16 (put16 d o (i_type ip)) (o + 2) (i_major ip)) (o + 4) (i_minor ip)) (o + 6) (i_nlink ip)) (o + 8) (i_size ip))
    (o + 12) (concat (word_bytes <$> i_addrs ip)).

Lemma inode_bytes_length ip d : 0 <= i_inum ip -> length (i_addrs ip) = Z.to_nat (NDIRECT + 2) -> length d = Z.to_nat BSIZE -> length (inode_bytes ip d) = Z.to_nat BSIZE.
Proof.
  intros Hi Ha Hd. pose proof (dip_range _ Hi). unfold inode_bytes. rewrite put_bytes_length; rewrite ?put32_length, ?put16_length, ?word_bytes_length, ?Ha, ?Hd; unfold BSIZE, NDIRECT; lia.
Qed.

(** The values of the fields of an inode. *)
Record inode_words (ip : inode) : Prop := InodeWords {
  iw_type : -2 ^ 15 <= i_type ip < 2 ^ 15;
  iw_major : -2 ^ 15 <= i_major ip < 2 ^ 15;
  iw_minor : -2 ^ 15 <= i_minor ip < 2 ^ 15;
  iw_nlink : -2 ^ 15 <= i_nlink ip < 2 ^ 15;
  iw_size : uint_ok (i_size ip);
  iw_addrs : Forall uint_ok (i_addrs ip);
}.

Section on_disk.
Context (ip : inode) (d : list Z) (Hi : 0 <= i_inum ip) (Ha : length (i_addrs ip) = Z.to_nat (NDIRECT + 2)) (Hd : length d = Z.to_nat BSIZE).
Let o := dip (i_inum ip).

Lemma byte_of_inode x : 0 <= x -> byte_at (inode_bytes ip d) x =
  if decide (o + 12 <= x < o + 64) then u8 (byte_at (concat (word_bytes <$> i_addrs ip)) (x - o - 12))
  else byte_at (put32 (put16 (put16 (put16 (put16 d o (i_type ip)) (o + 2) (i_major ip)) (o + 4) (i_minor ip)) (o + 6) (i_nlink ip)) (o + 8) (i_size ip)) x.
Proof using Hi Ha Hd.
  intros Hx. pose proof (dip_range _ Hi) as Ho. fold o in Ho. unfold inode_bytes. fold o.
  rewrite byte_at_put_bytes; [|lia|rewrite put32_length, !put16_length, word_bytes_length, Ha, Hd; unfold BSIZE, NDIRECT; lia|done].
  rewrite word_bytes_length, Ha. replace (o + 12 + Z.of_nat (4 * Z.to_nat (NDIRECT + 2))) with (o + 64) by (unfold NDIRECT; lia).
  by replace (x - (o + 12)) with (x - o - 12) by lia.
Qed.

Ltac fields Ho :=
  unfold get32, get16; rewrite !byte_of_inode by lia; repeat rewrite decide_False by lia; unfold put32, put16;
  rewrite !byte_at_put8 by (rewrite ?put8_length, ?Hd; unfold BSIZE; lia); repeat first [rewrite decide_True by lia | rewrite decide_False by lia];
  rewrite ?Z.shiftr_div_pow2 by lia; change (2 ^ 8) with 256; change (2 ^ 16) with 65536.

Lemma inode_fields : inode_words ip ->
  i16 (get16 (inode_bytes ip d) o) = i_type ip /\ i16 (get16 (inode_bytes ip d) (o + 2)) = i_major ip /\
  i16 (get16 (inode_bytes ip d) (o + 4)) = i_minor ip /\ i16 (get16 (inode_bytes ip d) (o + 6)) = i_nlink ip /\
  get32 (inode_bytes ip d) (o + 8) = i_size ip.
Proof using Hi Ha Hd.
  intros [W1 W2 W3 W4 W5 _]. pose proof (dip_range _ Hi) as Ho. fold o in Ho.
  split; [|split; [|split; [|split]]]; fields Ho; word.
Qed.

Lemma inode_half k h : 0 <= k < NDIRECT + 2 -> 0 <= h <= 1 -> get16 (inode_bytes ip d) (o + 12 + 4 * k + 2 * h) = u16 (Z.shiftr (addr_of ip k) (16 * h)).
Proof using Hi Ha Hd.
  intros Hk Hh. pose proof (dip_range _ Hi) as Ho. fold o in Ho. unfold NDIRECT in *. unfold get16. rewrite !byte_of_inode by lia.
  repeat rewrite decide_True by lia.
  replace (o + 12 + 4 * k + 2 * h - o - 12) with (4 * k + 2 * h) by lia. replace (o + 12 + 4 * k + 2 * h + 1 - o - 12) with (4 * k + (2 * h + 1)) by lia.
  rewrite !word_bytes_concat by (rewrite ?Ha; lia). fold (addr_of ip k). set (a := addr_of ip k).
  replace (8 * (2 * h)) with (16 * h) by lia. replace (8 * (2 * h + 1)) with (16 * h + 8) by lia. rewrite <- Z.shiftr_shiftr by lia. set (b := Z.shiftr a (16 * h)).
  rewrite Z.shiftr_div_pow2 by lia. change (2 ^ 8) with 256. word.
Qed.

Lemma inode_word k : 0 <= k < NDIRECT + 2 -> get32 (inode_bytes ip d) (o + 12 + 4 * k) = u32 (addr_of ip k).
Proof using Hi Ha Hd.
  intros Hk. unfold get32. pose proof (inode_half k 0 Hk ltac:(lia)) as H0. pose proof (inode_half k 1 Hk ltac:(lia)) as H1.
  change (2 * 0) with 0 in H0. change (2 * 1) with 2 in H1. rewrite Z.add_0_r in H0. rewrite H0, H1, !Z.shiftr_div_pow2 by lia.
  change (2 ^ (16 * 0)) with 1. change (2 ^ (16 * 1)) with 65536. change (2 ^ 16) with 65536. word.
Qed.

Lemma inode_addrs : Forall uint_ok (i_addrs ip) -> read_addrs (inode_bytes ip d) o = i_addrs ip.
Proof using Hi Ha Hd.
  intros Hw. apply list_eq. intros k. unfold read_addrs. rewrite list_lookup_fmap. destruct (decide (Z.of_nat k < NDIRECT + 2)) as [Hk|Hk].
  - rewrite lookup_seqZ_lt by lia. cbn [fmap option_fmap option_map]. rewrite Z.add_0_l, inode_word by lia. unfold addr_of. rewrite Nat2Z.id.
    destruct (lookup_lt_is_Some_2 (i_addrs ip) k) as [a E]; [rewrite Ha; lia|]. rewrite E. cbn. f_equal. apply u32_id. by eapply Forall_lookup_1.
  - rewrite lookup_seqZ_ge by lia. symmetry. apply lookup_ge_None. rewrite Ha. lia.
Qed.
End on_disk.

Section files.
Context `{SyncDisk} `{Devsw} (c : ctx) (me : nat) (pr : proc) (Hh : held c = ∅) (Hst : p_state pr = RUNNING) (sz st : Z).

Lemma trans_inodes bs X s l : trans me pr sz st c bs X s -> trans me pr sz st c bs X (set_k_inodes l s).
Proof using Type. intros Ht. apply (trans_frame _ _ _ _ _ _ _ s); [apply Ht|done..]. Qed.

Lemma op_inodes n s l : op c me pr sz st n s -> op c me pr sz st n (set_k_inodes l s).
Proof using Type. intros (bs & Ht & Hf). exists bs. split; [by apply trans_inodes|exact Hf]. Qed.

Lemma opened_inodes n s j b s1 l : opened c me pr sz st n s j b s1 -> opened c me pr sz st n (set_k_inodes l s) j b (set_k_inodes l s1).
Proof using Type.
  intros [(bs & Ht & Hf) Hj (bf & Hbf & Hn & Hd & Hcl) [Hv Hr Hdk] Hlog]. split; [| | | |exact Hlog].
  - exists bs. split; [by apply trans_inodes|exact Hf].
  - exact Hj.
  - exists bf. split; [exact Hbf|]. split; [exact Hn|]. by rewrite (view_frame s).
  - split; [|exact (f_equal (set_k_inodes l) Hr)|exact Hdk]. intros b'. rewrite (view_frame s1 (set_k_inodes l s1)), (view_frame s (set_k_inodes l s)) by reflexivity. apply Hv.
Qed.

(** Inode [i] is [ip], a file in its direct blocks; [f] blocks are free, and
    [log_write] may be called [n] times. *)
Record fstate (n f : nat) (s : kernel) (i : nat) (ip : inode) : Prop := FState {
  fs_op : op c me pr sz st n s;
  fs_inode : k_inodes s !! i = Some ip;
  fs_bitmap : bitmap sz st (k_sb s) (view s);
  fs_file : file_ok st (k_sb s) (view s) ip;
  fs_free : has_free (k_sb s) (view s) f;
}.

(** What files do not change. *)
Definition frame (s : kernel) : kernel := set_k_inodes [] (fsrest s).

Lemma frame_sb s s' : frame s' = frame s -> k_sb s' = k_sb s.
Proof using Type. intros E. exact (f_equal k_sb E). Qed.

(** From [s] to [s'] inode [i] becomes [ip'] and blocks [own] may change; all
    other data blocks stay, and the bytes of the file become [g]. *)
Record fchange (s s' : kernel) (i : nat) (ip' : inode) (own : Z -> Prop) (g : Z -> Z) : Prop := FChange {
  fc_rest : frame s' = frame s;
  fc_inodes : k_inodes s' = <[i := ip']> (k_inodes s);
  fc_disk : k_disk s' = k_disk s;
  fc_bytes : forall x, 0 <= x -> x / BSIZE < NDIRECT -> file_byte (view s') ip' x = g x;
  fc_kept : forall a, data_block st (k_sb s) (view s) a -> ~ own a -> view s' a = view s a;
  fc_data : forall a, data_block st (k_sb s) (view s) a -> data_block st (k_sb s) (view s') a;
}.

Lemma data_block_ext sb v v' a : (forall b, v b = v' b) -> data_block st sb v a -> data_block st sb v' a.
Proof using Type. intros E [D1 D2 D3 D4 D5]. split; try done; [by rewrite <- (in_use_ext sb v v')|by rewrite <- E]. Qed.

Lemma file_ok_ext sb v v' ip : (forall b, v b = v' b) -> file_ok st sb v ip -> file_ok st sb v' ip.
Proof using Type.
  intros E [K1 K2 K3 K4 K5 K6 K7 K8 K9]. split; try done.
  - intros k Hk Hne. by eapply data_block_ext, K4.
  - by eapply data_block_ext.
  - split; [apply K8|]. rewrite <- (in_use_ext sb v v') by done. apply K8.
Qed.

Lemma file_byte_ext v v' ip x : (forall b, v b = v' b) -> file_byte v ip x = file_byte v' ip x.
Proof using Type. intros E. unfold file_byte. case_match; [done|]. by rewrite E. Qed.

Lemma bmap_run n f s i ip bn : fstate (S (S n)) (S f) s i ip -> 0 <= bn < NDIRECT ->
  exists a s', bmap i bn c s = Done a c s' /\ a <> 0 /\ (addr_of ip bn = 0 \/ addr_of ip bn = a) /\ fstate n f s' i (with_addr bn a ip) /\
    fchange s s' i (with_addr bn a ip) (fun _ => False) (file_byte (view s) ip).
Proof using Hh Hst H0.
  intros [Fop Fi Fb Ff Ffree] Hbn. unfold bmap, inode_at. erewrite bind_elem_at by exact Fi.
  rewrite (proj2 (Z.eqb_neq _ _)) by apply Ff. rewrite (proj2 (Z.ltb_lt _ _)) by lia.
  unfold addr_alloc, inode_at. erewrite bind_elem_at by exact Fi. pose proof (slot_length st (k_sb s) (view s) ip Ff bn Hbn) as Hl.
  destruct (Z.eqb_spec (addr_of ip bn) 0) as [Hhole|Hne].
  - rewrite (fk_dev _ _ _ _ Ff). destruct (balloc_free c me pr Hh Hst sz st n f s Fop Fb Ffree) as (b & s1 & E & Hop & [F1 F2 F3 F4] & Hbm & Hfree).
    rewrite (bind_Done _ _ _ _ _ _ _ E). pose proof (fsrest_inodes _ _ (bc_rest _ _ _ F4)) as Ei. pose proof (fsrest_sb _ _ (bc_rest _ _ _ F4)) as Es.
    assert (Hi1 : k_inodes s1 !! i = Some ip) by (by rewrite Ei). unfold set_addr, upd_inode. erewrite bind_elem_upd by exact Hi1. fold (with_addr bn b ip).
    set (s' := set_k_inodes (<[i := with_addr bn b ip]> (k_inodes s1)) s1). exists b, s'. split; [done|].
    assert (Hv : forall x, taken (k_sb s) b (view s) x = view s' x) by (intros x; rewrite (view_frame s1 s') by reflexivity; symmetry; apply F4).
    destruct (taken_new sz st (k_sb s) (view s) Fb b F1 F2 ip Ff) as (Hb0 & _ & _). split; [done|]. split; [by left|]. split.
    + split; cbn [k_sb s' set_k_inodes k_inodes].
      * by apply op_inodes.
      * rewrite Ei. apply list_lookup_insert_eq. by apply lookup_lt_Some in Fi.
      * rewrite Es. eapply bitmap_ext; [|exact Hbm]. intros x. by rewrite (view_frame s1 s').
      * rewrite Es. eapply file_ok_ext; [exact Hv|]. by apply taken_file with sz.
      * rewrite Es. eapply has_free_ext; [|exact Hfree]. intros x. by rewrite (view_frame s1 s').
    + split; cbn [k_sb s' set_k_inodes k_inodes k_disk]; [exact (f_equal (set_k_inodes []) (bc_rest _ _ _ F4))|by rewrite Ei|apply F4| | |].
      * intros x Hx Hd. rewrite <- (file_byte_ext _ _ _ _ Hv). by apply (taken_bytes sz st).
      * intros a Ha _. rewrite <- Hv. by apply (taken_keeps sz st).
      * intros a Ha. eapply data_block_ext; [exact Hv|]. by apply (taken_keeps sz st).
  - exists (addr_of ip bn), s. split; [done|]. split; [done|]. split; [by right|]. rewrite with_addr_id by (lia || done). split.
    + split; [by apply (op_le _ _ _ _ _ (S (S n))); [lia|]|done|done|done|by apply (has_free_le _ _ (S f)); [lia|]].
    + split; [done|by rewrite list_insert_id|done|done|done|done].
Qed.

(** Storing [chunk] at offset [o] of block [bn] of the file. *)
Definition patched (g : Z -> Z) (from : Z) (chunk : list Z) (x : Z) : Z :=
  if decide (from <= x < from + Z.of_nat (length chunk)) then u8 (byte_at chunk (x - from)) else g x.

Lemma write_block n f s i ip bn o chunk : fstate (S n) f s i ip -> 0 <= bn < NDIRECT -> addr_of ip bn <> 0 -> 0 <= o ->
  o + Z.of_nat (length chunk) <= BSIZE ->
  exists j s1 bf s2 s3 s4, bread ROOTDEV (addr_of ip bn) c s = Done j c s1 /\ k_bufs s1 !! j = Some bf /\
    set_data j (put_bytes (b_data bf) o chunk) c s1 = Done tt c s2 /\ log_write j c s2 = Done tt c s3 /\ brelse j c s3 = Done tt c s4 /\
    fstate n f s4 i ip /\ fchange s s4 i ip (eq (addr_of ip bn)) (patched (file_byte (view s) ip) (bn * BSIZE + o) chunk).
Proof using Hh Hst H0.
  intros [Fop Fi Fb Ff Ffree] Hbn Hne Ho Hlen. set (a := addr_of ip bn) in *. pose proof (fk_data _ _ _ _ Ff bn Hbn Hne) as Hd. fold a in Hd.
  pose proof Hd as [D1 D2 D3 D4 D5]. pose proof (bm_size _ _ _ _ Fb).
  destruct (bread_op c me pr Hh sz st (S n) s a Fop) as (j & s1 & E1 & Hop); [lia|].
  destruct (opened_buf c me pr sz st _ s j a s1 Hop) as (bf & Hbf & Ed).
  destruct (put_op c me pr Hh Hst sz st n s j a s1 (put_bytes (b_data bf) o chunk) Hop D3) as (s2 & s3 & s4 & E2 & E3 & E4 & Hop4 & Hb4).
  assert (Hlb : length (put_bytes (b_data bf) o chunk) = Z.to_nat BSIZE) by (rewrite Ed; rewrite put_bytes_length; [done|done|rewrite D5; lia]).
  assert (Hv : forall b, put_block a (put_bytes (b_data bf) o chunk) (view s) b = view s4 b) by (intros b; symmetry; apply Hb4).
  pose proof (fsrest_inodes _ _ (bc_rest _ _ _ Hb4)) as Ei. pose proof (fsrest_sb _ _ (bc_rest _ _ _ Hb4)) as Es.
  exists j, s1, bf, s2, s3, s4. do 5 (split; [done|]). split.
  - split; [done|by rewrite Ei|..]; rewrite Es.
    + eapply bitmap_ext; [exact Hv|]. by apply bitmap_store.
    + eapply file_ok_ext; [exact Hv|]. by apply file_ok_store.
    + eapply has_free_ext; [exact Hv|]. by apply has_free_store.
  - split; [exact (f_equal (set_k_inodes []) (bc_rest _ _ _ Hb4))|rewrite Ei; by rewrite list_insert_id|apply Hb4| | |].
    + intros x Hx Hxd. assert (Hq : 0 <= x / BSIZE) by (apply Z.div_pos; [lia|done]). rewrite <- (file_byte_ext _ _ _ _ Hv). unfold patched, file_byte at 1, put_block.
      pose proof (Z.mod_pos_bound x BSIZE ltac:(done)) as Hm. pose proof (Z.div_mod x BSIZE ltac:(done)) as Hdm.
      destruct (decide (x / BSIZE = bn)) as [E|E].
      * rewrite E. fold a. rewrite (proj2 (Z.eqb_neq _ _) Hne), decide_True by done. rewrite Ed, byte_at_put_bytes by (rewrite ?D5; lia).
        destruct (decide (o <= x mod BSIZE < o + Z.of_nat (length chunk))).
        -- rewrite decide_True by (unfold BSIZE in *; lia). f_equal. f_equal. unfold BSIZE in *. lia.
        -- rewrite decide_False by (unfold BSIZE in *; lia). unfold file_byte. rewrite E. fold a. by rewrite (proj2 (Z.eqb_neq _ _) Hne).
      * destruct (decide (bn * BSIZE + o <= x < bn * BSIZE + o + Z.of_nat (length chunk))) as [?|_]; [exfalso; unfold BSIZE in *; lia|]. unfold file_byte. destruct (Z.eqb_spec (addr_of ip (x / BSIZE)) 0) as [|Hne']; [done|].
        rewrite decide_False; [done|]. intros Ea. apply E. symmetry. by apply (fk_inj _ _ _ _ Ff); [|..].
    + intros a' _ Hno. rewrite <- Hv. unfold put_block. rewrite decide_False; [done|congruence].
    + intros a' Ha'. eapply data_block_ext; [exact Hv|]. by apply data_store.
Qed.

Lemma fchange_trans s s1 s2 i ip1 ip2 own1 own2 g1 g2 : fchange s s1 i ip1 own1 g1 -> fchange s1 s2 i ip2 own2 g2 ->
  fchange s s2 i ip2 (fun a => own1 a \/ own2 a) g2.
Proof using Type.
  intros [A1 A2 A3 A4 A5 A6] [B1 B2 B3 B4 B5 B6]. rewrite (frame_sb _ _ A1) in *. split.
  - congruence.
  - rewrite B2, A2. by rewrite list_insert_insert_eq.
  - congruence.
  - exact B4.
  - intros a Ha Hno. rewrite B5; [|by apply A6|tauto]. apply A5; [done|tauto].
  - intros a Ha. by apply B6, A6.
Qed.

Lemma fchange_weaken s s' i ip' (own own' : Z -> Prop) g g' : (forall a, own a -> own' a) ->
  (forall x, 0 <= x -> x / BSIZE < NDIRECT -> g x = g' x) -> fchange s s' i ip' own g -> fchange s s' i ip' own' g'.
Proof using Type.
  intros Ho Hg [A1 A2 A3 A4 A5 A6]. split; try done.
  - intros x Hx Hd. by rewrite A4, Hg.
  - intros a Ha Hno. apply A5; [done|]. intros Hown. by apply Hno, Ho.
Qed.

(** Only addresses of blocks have been added to the inode. *)
Definition grown (ip ip' : inode) : Prop :=
  ip' = set_i_addrs (i_addrs ip') ip /\ forall k, 0 <= k -> addr_of ip k <> 0 -> addr_of ip' k = addr_of ip k.

Lemma grown_refl ip : grown ip ip.
Proof using Type. split; [by destruct ip|done]. Qed.

Lemma grown_trans ip ip1 ip2 : grown ip ip1 -> grown ip1 ip2 -> grown ip ip2.
Proof using Type.
  intros [E1 A1] [E2 A2]. split; [rewrite E2, E1; by destruct ip|]. intros k Hk Hne. rewrite A2; [by apply A1|done|]. by rewrite A1.
Qed.

Lemma grown_with ip k a : 0 <= k -> (Z.to_nat k < length (i_addrs ip))%nat -> addr_of ip k = 0 \/ addr_of ip k = a -> grown ip (with_addr k a ip).
Proof using Type.
  intros Hk Hl Ha. split; [by destruct ip|]. intros k' Hk' Hne. rewrite addr_of_with by done. case_decide as E; [|done]. subst k'. destruct Ha; [done|congruence].
Qed.

Definition owns_block (ip : inode) (a : Z) : Prop := exists k, 0 <= k < NDIRECT /\ addr_of ip k = a /\ a <> 0.

Lemma grown_owns ip ip' a : grown ip ip' -> owns_block ip a -> owns_block ip' a.
Proof using Type. intros [_ Hg] (k & Hk & E & Hne). exists k. split; [done|]. split; [|done]. rewrite Hg; [done|lia|congruence]. Qed.

Lemma patched_app g off l1 l2 x : patched (patched g off l1) (off + Z.of_nat (length l1)) l2 x = patched g off (l1 ++ l2) x.
Proof using Type.
  unfold patched, byte_at. rewrite length_app. destruct (decide (off + Z.of_nat (length l1) <= x < off + Z.of_nat (length l1) + Z.of_nat (length l2))).
  - rewrite decide_True by lia. rewrite lookup_app_r by lia. do 4 f_equal. lia.
  - destruct (decide (off <= x < off + Z.of_nat (length l1))).
    + rewrite decide_True by lia. by rewrite lookup_app_l by lia.
    + by rewrite decide_False by lia.
Qed.

Lemma get_bytes_split src t m n : 0 <= m <= n -> get_bytes src t n = get_bytes src t m ++ get_bytes src (t + m) (n - m).
Proof using Type.
  intros Hm. unfold get_bytes. replace n with (m + (n - m)) at 1 by lia. rewrite seqZ_app by lia. rewrite fmap_app. f_equal.
  apply list_eq. intros j. rewrite !list_lookup_fmap. destruct (decide (Z.of_nat j < n - m)).
  - rewrite !lookup_seqZ_lt by lia. cbn. do 2 f_equal. lia.
  - by rewrite !lookup_seqZ_ge by lia.
Qed.

(** The blocks of the file that [n] bytes at [off] lie in. *)
Definition spans (off n : Z) : Z := if n =? 0 then 0 else (off + n - 1) / BSIZE - off / BSIZE + 1.

Lemma spans_step off n : 0 <= off -> 0 < n -> let m := Z.min n (BSIZE - off mod BSIZE) in
  0 < m <= n /\ off / BSIZE * BSIZE + off mod BSIZE = off /\ off mod BSIZE + m <= BSIZE /\ 0 <= spans (off + m) (n - m) <= spans off n - 1.
Proof using Type.
  intros Ho Hn m. unfold spans, m, BSIZE in *. split; [Z.to_euclidean_division_equations; lia|]. split; [Z.to_euclidean_division_equations; lia|].
  split; [Z.to_euclidean_division_equations; lia|]. rewrite (proj2 (Z.eqb_neq n 0)) by lia.
  destruct (Z.eqb_spec (n - Z.min n (512 - off mod 512)) 0); Z.to_euclidean_division_equations; lia.
Qed.

(** The blocks of the [n] bytes at [off] are allocated. *)
Definition covers (ip : inode) (off n : Z) : Prop := forall k, 0 <= k -> k * BSIZE < off + n -> off < (k + 1) * BSIZE -> 0 < n -> addr_of ip k <> 0.

Lemma covers_grown ip ip' off n : (forall k, 0 <= k -> addr_of ip k <> 0 -> addr_of ip' k = addr_of ip k) -> covers ip off n -> covers ip' off n.
Proof using Type. intros Hg Hc k Hk H1' H2 H3. rewrite Hg; [by apply Hc|done|by apply Hc]. Qed.

Lemma covers_join ip off m n : 0 <= m -> 0 <= n -> covers ip off m -> covers ip (off + m) n -> covers ip off (m + n).
Proof using Type.
  intros Hm Hn C1 C2 k Hk H1' H2 H3. destruct (decide (0 < m /\ k * BSIZE < off + m)) as [[? ?]|Hno]; [by apply C1|]. apply C2; unfold BSIZE in *; lia.
Qed.

(** One round of the loop of [writei]. *)
Lemma writei_round n f s i ip src off tot N fuel : fstate (3 + n) (S f) s i ip -> 0 <= off -> 0 <= tot < N -> off + (N - tot) <= NDIRECT * BSIZE ->
  let m := Z.min (N - tot) (BSIZE - off mod BSIZE) in
  exists s' ip', writei_loop (S fuel) i src off tot N c s = writei_loop fuel i src (off + m) (tot + m) N c s' /\ fstate n f s' i ip' /\ grown ip ip' /\ covers ip' off m /\
    fchange s s' i ip' (owns_block ip') (patched (file_byte (view s) ip) off (get_bytes src tot m)).
Proof using Hh Hst H0.
  intros Hf Ho Ht Hin m. destruct (spans_step off (N - tot) Ho ltac:(lia)) as (Hm & Hoff & Hfit & _). fold m in Hm, Hfit.
  assert (Hbn : 0 <= off / BSIZE < NDIRECT).
  { split; [apply Z.div_pos; [lia|done]|]. apply Z.div_lt_upper_bound; [done|]. unfold BSIZE, NDIRECT in *. lia. }
  destruct (bmap_run (S n) f s i ip (off / BSIZE) Hf Hbn) as (a & s1 & E1 & Ha0 & Hold & Hf1 & Hc1).
  set (ip1 := with_addr (off / BSIZE) a ip) in *. pose proof (slot_length st _ _ ip (fs_file _ _ _ _ _ Hf) _ Hbn) as Hl.
  assert (Ea : addr_of ip1 (off / BSIZE) = a) by (unfold ip1; rewrite addr_of_with by (lia || done); by rewrite decide_True).
  pose proof (Z.mod_pos_bound off BSIZE ltac:(done)) as Hmod. pose proof (get_bytes_length src tot m ltac:(lia)) as Hgl.
  destruct (write_block n f s1 i ip1 (off / BSIZE) (off mod BSIZE) (get_bytes src tot m) Hf1 Hbn) as (j & s2 & bf & s3 & s4 & s5 & E2 & Hbf & E3 & E4 & E5 & Hf5 & Hc5);
    [congruence|lia|lia|]. rewrite Ea, Hoff in *.
  exists s5, ip1. split; [|split; [exact Hf5|split; [by apply grown_with; [lia|..]|split]]].
  - cbn [writei_loop]. rewrite (proj2 (Z.ltb_lt _ _)) by lia. unfold inode_at. erewrite bind_elem_at by exact (fs_inode _ _ _ _ _ Hf).
    rewrite (bind_Done _ _ _ _ _ _ _ E1). rewrite (fk_dev _ _ _ _ (fs_file _ _ _ _ _ Hf)), (bind_Done _ _ _ _ _ _ _ E2).
    unfold buf_at. erewrite bind_elem_at by exact Hbf. fold m. rewrite (bind_Done _ _ _ _ _ _ _ E3), (bind_Done _ _ _ _ _ _ _ E4), (bind_Done _ _ _ _ _ _ _ E5).
    rewrite u32_id; [done|]. unfold NDIRECT, BSIZE in *. word.
  - intros k' Hk' H1' H2' _. replace k' with (off / BSIZE); [congruence|]. unfold BSIZE in *. Z.to_euclidean_division_equations; lia.
  - eapply fchange_weaken; [| |exact (fchange_trans _ _ _ _ _ _ _ _ _ _ Hc1 Hc5)].
    + intros x [[]|<-]. exists (off / BSIZE). split; [done|]. by split.
    + intros x Hx Hd. unfold patched. case_decide; [done|]. by apply Hc1.
Qed.

Lemma writei_loop_run k : forall n f s i ip src off tot N fuel, fstate (3 * k + n) (k + f) s i ip -> 0 <= off -> 0 <= tot <= N ->
  off + (N - tot) <= NDIRECT * BSIZE -> spans off (N - tot) <= Z.of_nat k -> (k < fuel)%nat ->
  exists s' ip', writei_loop fuel i src off tot N c s = Done (off + (N - tot)) c s' /\ fstate n f s' i ip' /\ grown ip ip' /\ covers ip' off (N - tot) /\
    fchange s s' i ip' (owns_block ip') (patched (file_byte (view s) ip) off (get_bytes src tot (N - tot))).
Proof using Hh Hst H0.
  induction k as [|k IH]; intros n f s i ip src off tot N fuel Hf Ho Ht Hin Hsp Hfuel; (destruct fuel as [|fuel]; [lia|]).
  - assert (E : N - tot = 0).
    { destruct (decide (N - tot = 0)); [done|]. destruct (spans_step off (N - tot) Ho ltac:(lia)) as (_ & _ & _ & ?). lia. }
    cbn [writei_loop]. rewrite (proj2 (Z.ltb_ge _ _)) by lia. exists s, ip. rewrite E, Z.add_0_r. split; [done|]. split; [done|]. split; [apply grown_refl|]. split; [intros k; lia|].
    destruct Hf as [_ Fi _ _ _]. split; [done|by rewrite list_insert_id|done| |done|done]. intros x _ _. unfold patched. rewrite get_bytes_length by lia. by rewrite decide_False by lia.
  - destruct (decide (N - tot = 0)) as [E|Hne].
    + cbn [writei_loop]. rewrite (proj2 (Z.ltb_ge _ _)) by lia. exists s, ip. rewrite E, Z.add_0_r. split; [done|]. split; [|split; [apply grown_refl|split; [intros k'; lia|]]].
      * destruct Hf as [F1 F2 F3 F4 F5]. split; [eapply op_le; [|exact F1]; lia|done|done|done|eapply has_free_le; [|exact F5]; lia].
      * destruct Hf as [_ Fi _ _ _]. split; [done|by rewrite list_insert_id|done| |done|done]. intros x _ _. unfold patched. rewrite get_bytes_length by lia. by rewrite decide_False by lia.
    + destruct (spans_step off (N - tot) Ho ltac:(lia)) as (Hm & _ & _ & Hsp'). set (m := Z.min (N - tot) (BSIZE - off mod BSIZE)) in *.
      destruct (writei_round (3 * k + n) (k + f) s i ip src off tot N fuel) as (s1 & ip1 & E1 & Hf1 & Hg1 & Hv1 & Hc1); [|lia|lia|lia|].
      { replace (3 + (3 * k + n))%nat with (3 * S k + n)%nat by lia. exact Hf. }
      fold m in E1, Hv1, Hc1. destruct (IH n f s1 i ip1 src (off + m) (tot + m) N fuel Hf1) as (s' & ip' & E' & Hf' & Hg' & Hv' & Hc'); [lia|lia|lia| |lia|].
      { replace (N - (tot + m)) with (N - tot - m) by lia. lia. }
      exists s', ip'. split; [rewrite E1, E'; f_equal; lia|]. split; [exact Hf'|]. split; [by eapply grown_trans|]. split.
      { replace (N - tot) with (m + (N - (tot + m))) by lia. apply covers_join; [lia|lia|by eapply covers_grown; [apply Hg'|]|done]. }
      eapply fchange_weaken; [| |exact (fchange_trans _ _ _ _ _ _ _ _ _ _ Hc1 Hc')].
      * intros x [Hx|Hx]; [by eapply grown_owns|done].
      * intros x Hx Hd. rewrite (get_bytes_split src tot m (N - tot)) by lia. rewrite <- patched_app. rewrite (get_bytes_length src tot m) by lia.
        replace (N - (tot + m)) with (N - tot - m) by lia. unfold patched at 1 2. case_decide; [done|]. by apply Hc1.
Qed.
Lemma iupdate_run n f s i ip : fstate (S n) f s i ip -> exists s', iupdate i c s = Done tt c s' /\ fstate n f s' i ip /\
  view s' (iblock (k_sb s) ip) = inode_bytes ip (view s (iblock (k_sb s) ip)) /\
  fchange s s' i ip (eq (iblock (k_sb s) ip)) (file_byte (view s) ip).
Proof using Hh Hst H0.
  intros [Fop Fi Fb Ff Ffree]. pose proof (fk_inode _ _ _ _ Ff) as [D1 D2 D3 D4 D5]. pose proof (bm_size _ _ _ _ Fb).
  destruct (bread_op c me pr Hh sz st (S n) s (iblock (k_sb s) ip) Fop) as (j & s1 & E1 & Hop); [lia|].
  destruct (opened_buf c me pr sz st _ s j _ s1 Hop) as (bf & Hbf & Ed).
  destruct (put_op c me pr Hh Hst sz st n s j _ s1 (inode_bytes ip (b_data bf)) Hop D3) as (s2 & s3 & s4 & E2 & E3 & E4 & Hop4 & Hb4).
  assert (Hlb : length (inode_bytes ip (b_data bf)) = Z.to_nat BSIZE) by (rewrite Ed; by apply (inode_bytes_length ip), D5; [apply Ff|apply Ff]).
  assert (Hv : forall b, put_block (iblock (k_sb s) ip) (inode_bytes ip (b_data bf)) (view s) b = view s4 b) by (intros b; symmetry; apply Hb4).
  pose proof (fsrest_inodes _ _ (bc_rest _ _ _ Hb4)) as Ei. pose proof (fsrest_sb _ _ (bc_rest _ _ _ Hb4)) as Es. exists s4. split.
  { unfold iupdate. rewrite bind_gets. unfold inode_at. erewrite bind_elem_at by exact Fi. rewrite (fk_dev _ _ _ _ Ff). erewrite bind_Done by exact E1.
    unfold buf_at. erewrite bind_elem_at by exact Hbf. erewrite bind_Done by exact E2. by erewrite bind_Done by exact E3. }
  split; [|split; [rewrite <- Hv; unfold put_block; by rewrite decide_True, Ed|]].
  - split; [done|by rewrite Ei|..]; rewrite Es.
    + eapply bitmap_ext; [exact Hv|]. by apply bitmap_store.
    + eapply file_ok_ext; [exact Hv|]. by apply file_ok_store.
    + eapply has_free_ext; [exact Hv|]. by apply has_free_store.
  - split; [exact (f_equal (set_k_inodes []) (bc_rest _ _ _ Hb4))|rewrite Ei; by rewrite list_insert_id|apply Hb4| | |].
    + intros x Hx Hxd. assert (Hq : 0 <= x / BSIZE) by (apply Z.div_pos; [lia|done]). rewrite <- (file_byte_ext _ _ _ _ Hv). unfold file_byte, put_block.
      by rewrite decide_False by by apply (fk_apart _ _ _ _ Ff).
    + intros a' _ Hno. rewrite <- Hv. unfold put_block. rewrite decide_False; [done|congruence].
    + intros a' Ha'. eapply data_block_ext; [exact Hv|]. by apply data_store.
Qed.
(** Changing fields of the inode other than those that place its file. *)
Definition same_file (ip ip' : inode) : Prop :=
  i_type ip' = i_type ip /\ i_dev ip' = i_dev ip /\ i_inum ip' = i_inum ip /\ i_addrs ip' = i_addrs ip.

Lemma same_file_ok sb v ip ip' : same_file ip ip' -> file_ok st sb v ip -> file_ok st sb v ip'.
Proof using Type.
  intros (E1 & E2 & E3 & E4) [K1 K2 K3 K4 K5 K6 K7 K8 K9].
  split; unfold addr_of, iblock in *; rewrite ?E1, ?E2, ?E3, ?E4; done.
Qed.

Lemma set_inode n f s i ip ip' : fstate n f s i ip -> same_file ip ip' ->
  let s' := set_k_inodes (<[i := ip']> (k_inodes s)) s in
  fstate n f s' i ip' /\ fchange s s' i ip' (fun _ => False) (file_byte (view s) ip).
Proof using Type.
  intros [Fop Fi Fb Ff Ffree] Hs s'. assert (Hv : forall b, view s b = view s' b) by (intros b; by rewrite (view_frame s s')). split.
  - split; [by apply op_inodes|cbn; apply list_lookup_insert_eq; by apply lookup_lt_Some in Fi| | |].
    + by eapply bitmap_ext.
    + eapply file_ok_ext; [exact Hv|]. by eapply same_file_ok.
    + by eapply has_free_ext.
  - split; [done..| | |].
    + intros x _ _. rewrite <- (file_byte_ext _ _ _ _ Hv). unfold file_byte, addr_of. by destruct Hs as (_ & _ & _ & ->).
    + intros a _ _. symmetry. apply Hv.
    + intros a Ha. by eapply data_block_ext.
Qed.

Lemma spans_bound off n : 0 <= off -> 0 <= n -> 0 <= spans off n <= n / BSIZE + 2.
Proof using Type. intros Ho Hn. unfold spans, BSIZE. destruct (Z.eqb_spec n 0); Z.to_euclidean_division_equations; lia. Qed.

(** What a write of [N] bytes at [off] makes of the inode. *)
Definition written_inode (ip ip' : inode) (off N : Z) : Prop :=
  ip' = set_i_size (if N >? 0 then Z.max (i_size ip) (off + N) else i_size ip) (set_i_addrs (i_addrs ip') ip) /\
  forall k, 0 <= k -> addr_of ip k <> 0 -> addr_of ip' k = addr_of ip k.

Definition touched (sb : superblock) (ip : inode) (a : Z) : Prop := owns_block ip a \/ a = iblock sb ip.

Lemma writei_run n f s i ip src off N (k := Z.to_nat (spans off N)) : fstate (3 * k + S n) (k + f) s i ip -> 0 <= off -> 0 <= N ->
  off + N <= NDIRECT * BSIZE ->
  exists s' ip', writei i src off N c s = Done N c s' /\ fstate n f s' i ip' /\ written_inode ip ip' off N /\ covers ip' off N /\
    fchange s s' i ip' (touched (k_sb s) ip') (patched (file_byte (view s) ip) off (get_bytes src 0 N)).
Proof using Hh Hst H0.
  intros Hf Ho HN Hin. pose proof (spans_bound off N Ho HN) as Hsp. assert (Hmax : NDIRECT * BSIZE = 5632) by reflexivity. pose proof Hf as [_ Fi _ Ff _].
  destruct (writei_loop_run k (S n) f s i ip src off 0 N (S (Z.to_nat (N / BSIZE + 2))) Hf Ho) as (s1 & ip1 & E1 & Hf1 & Hg1 & Hv1 & Hc1); [lia|lia|unfold k; rewrite Z.sub_0_r; lia|unfold k; lia|].
  rewrite Z.sub_0_r in *. pose proof (fs_inode _ _ _ _ _ Hf1) as Fi1. assert (Es : i_size ip1 = i_size ip) by (by rewrite (proj1 Hg1)).
  assert (Ew : writei i src off N c s = (when ((N >? 0) && (off + N >? i_size ip1)) (upd_inode i (set_i_size (off + N));; iupdate i);; mret N) c s1).
  { unfold writei, inode_at. erewrite bind_elem_at by exact Fi. rewrite (proj2 (Z.eqb_neq _ _)) by apply Ff.
    rewrite (u32_id (off + N)) by (word_unfold; lia). change (u32 (MAXFILE * BSIZE)) with 1073747456. rewrite Z.gtb_ltb, (proj2 (Z.ltb_ge _ _)) by lia.
    erewrite bind_Done by exact E1. by erewrite bind_elem_at by exact Fi1. }
  rewrite Ew. destruct ((N >? 0) && (off + N >? i_size ip1)) eqn:Eb; cbn [when].
  - apply andb_true_iff in Eb as [HN0 Hgr]. assert (Hsf : same_file ip1 (set_i_size (off + N) ip1)) by (by repeat split).
    destruct (set_inode _ _ _ _ _ _ Hf1 Hsf) as [Hf2 Hc2]. set (s2 := set_k_inodes _ s1) in *.
    destruct (iupdate_run n f s2 i _ Hf2) as (s3 & E3 & Hf3 & _ & Hc3). exists s3, (set_i_size (off + N) ip1).
    split; [|split; [exact Hf3|split; [|split; [exact Hv1|]]]].
    + unfold upd_inode. rewrite bind_assoc. erewrite bind_elem_upd by exact Fi1. by erewrite bind_Done by exact E3.
    + unfold written_inode. rewrite HN0. destruct Hg1 as [Eg Ha]. split; [|exact Ha]. cbn [i_addrs set_i_size]. rewrite Z.max_r by lia. rewrite Eg. by destruct ip.
    + eapply fchange_weaken; [| |exact (fchange_trans _ _ _ _ _ _ _ _ _ _ (fchange_trans _ _ _ _ _ _ _ _ _ _ Hc1 Hc2) Hc3)].
      * intros a [[Ha|[]]|<-]; [by left|right]. change (k_sb s2) with (k_sb s1). by rewrite (frame_sb _ _ (fc_rest _ _ _ _ _ _ Hc1)).
      * intros x Hx Hd. rewrite (fc_bytes _ _ _ _ _ _ Hc2) by done. by apply Hc1.
  - exists s1, ip1. split; [done|]. split; [by destruct Hf1 as [F1 ? ? ? ?]; split; [eapply op_le; [|exact F1]; lia|..]|]. split; [|split; [exact Hv1|]].
    + destruct Hg1 as [Eg Ha]. split; [|exact Ha]. rewrite Eg. cbn [i_addrs set_i_addrs]. apply andb_false_iff in Eb as [->|Eb]; [by destruct ip|].
      destruct (N >? 0); [|by destruct ip]. rewrite Z.max_l by (rewrite Es in Eb; lia). by destruct ip.
    + eapply fchange_weaken; [|done|exact Hc1]. intros a Ha. by left.
Qed.
(** *** Reading *)

Lemma bmap_hit n f s i ip bn : fstate n f s i ip -> 0 <= bn < NDIRECT -> addr_of ip bn <> 0 -> bmap i bn c s = Done (addr_of ip bn) c s.
Proof using Type.
  intros [Fop Fi Fb Ff Ffree] Hbn Hne. unfold bmap, inode_at. erewrite bind_elem_at by exact Fi.
  rewrite (proj2 (Z.eqb_neq _ _)) by apply Ff. rewrite (proj2 (Z.ltb_lt _ _)) by lia.
  unfold addr_alloc, inode_at. erewrite bind_elem_at by exact Fi. by rewrite (proj2 (Z.eqb_neq _ _) Hne).
Qed.

Lemma becomes_fstate n f s s' i ip : fstate n f s i ip -> op c me pr sz st n s' -> becomes s s' (view s) -> fstate n f s' i ip.
Proof using Type.
  intros [Fop Fi Fb Ff Ffree] Hop [Hv Hr _]. pose proof (fsrest_inodes _ _ Hr) as Ei. pose proof (fsrest_sb _ _ Hr) as Es.
  assert (Hv' : forall b, view s b = view s' b) by (intros b; symmetry; apply Hv).
  split; [done|by rewrite Ei|rewrite Es..]; [by eapply bitmap_ext|by eapply file_ok_ext|by eapply has_free_ext].
Qed.

(** The [n] bytes of the file from [off] on. *)
Definition file_bytes (v : Z -> list Z) (ip : inode) (off n : Z) : list Z := (fun x => file_byte v ip (off + x)) <$> seqZ 0 n.

Lemma file_bytes_app v ip off m n : 0 <= m <= n -> file_bytes v ip off n = file_bytes v ip off m ++ file_bytes v ip (off + m) (n - m).
Proof using Type.
  intros Hm. unfold file_bytes. replace n with (m + (n - m)) at 1 by lia. rewrite seqZ_app by lia. rewrite fmap_app. f_equal.
  apply list_eq. intros j. rewrite !list_lookup_fmap. destruct (decide (Z.of_nat j < n - m)).
  - rewrite !lookup_seqZ_lt by lia. cbn. do 2 f_equal. lia.
  - by rewrite !lookup_seqZ_ge by lia.
Qed.

Lemma file_bytes_block v ip off m : 0 <= off -> 0 <= m -> off mod BSIZE + m <= BSIZE -> addr_of ip (off / BSIZE) <> 0 ->
  get_bytes (v (addr_of ip (off / BSIZE))) (off mod BSIZE) m = file_bytes v ip off m.
Proof using Type.
  intros Ho Hm Hfit Hne. unfold get_bytes, file_bytes. apply list_fmap_ext. intros j x Hx. apply lookup_seqZ in Hx as [-> Hj]. unfold file_byte.
  pose proof (Z.mod_pos_bound off BSIZE ltac:(done)) as Hmod. pose proof (Z.div_mod off BSIZE ltac:(done)) as Hdm.
  assert ((off + (0 + Z.of_nat j)) / BSIZE = off / BSIZE /\ (off + (0 + Z.of_nat j)) mod BSIZE = off mod BSIZE + (0 + Z.of_nat j)) as [-> ->].
  { split; symmetry; [apply (Z.div_unique_pos _ _ _ (off mod BSIZE + (0 + Z.of_nat j)))|apply (Z.mod_unique_pos _ _ (off / BSIZE))]; unfold BSIZE in *; lia. }
  by rewrite (proj2 (Z.eqb_neq _ _) Hne).
Qed.

(** Every block of the file before [n] is allocated. *)
Definition no_holes (ip : inode) (n : Z) : Prop := forall k, 0 <= k -> k * BSIZE < n -> addr_of ip k <> 0.

Lemma readi_loop_run k n f i ip N : forall s off tot fuel acc, fstate n f s i ip -> no_holes ip (off + (N - tot)) -> 0 <= off -> 0 <= tot <= N ->
  off + (N - tot) <= NDIRECT * BSIZE -> spans off (N - tot) <= Z.of_nat k -> (k < fuel)%nat ->
  exists s', readi_loop fuel i off tot N acc c s = Done (acc ++ file_bytes (view s) ip off (N - tot)) c s' /\ fstate n f s' i ip /\ becomes s s' (view s) /\ k_log s' = k_log s.
Proof using Hh Hst H0.
  induction k as [|k IH]; intros s off tot fuel acc Hf Hnh Ho Ht Hin Hsp Hfuel; (destruct fuel as [|fuel]; [lia|]); cbn [readi_loop].
  all: destruct (decide (N - tot = 0)) as [E|Hne];
    [rewrite (proj2 (Z.ltb_ge _ _)) by lia; exists s; rewrite E; unfold file_bytes; cbn; rewrite app_nil_r; by split; [|split; [|split; [split|]]]|].
  all: destruct (spans_step off (N - tot) Ho ltac:(lia)) as (Hm & Hoff & Hfit & Hsp').
  1: lia.
  set (m := Z.min (N - tot) (BSIZE - off mod BSIZE)) in *. rewrite (proj2 (Z.ltb_lt _ _)) by lia.
  assert (Hbn : 0 <= off / BSIZE < NDIRECT).
  { split; [apply Z.div_pos; [lia|done]|]. apply Z.div_lt_upper_bound; [done|]. unfold BSIZE, NDIRECT in *. lia. }
  assert (Ha : addr_of ip (off / BSIZE) <> 0) by (apply Hnh; [lia|]; pose proof (Z.mod_pos_bound off BSIZE ltac:(done)); lia).
  pose proof Hf as [Fop Fi Fb Ff _]. pose proof (fk_data _ _ _ _ Ff _ Hbn Ha) as [D1 _ _ _ _]. pose proof (bm_size _ _ _ _ Fb).
  unfold inode_at. erewrite bind_elem_at by exact Fi. erewrite bind_Done by (eapply bmap_hit; done). rewrite (fk_dev _ _ _ _ Ff).
  destruct (bread_op c me pr Hh sz st n s (addr_of ip (off / BSIZE)) Fop) as (j & s1 & E1 & Hop); [lia|].
  destruct (opened_buf c me pr sz st _ s j _ s1 Hop) as (bf & Hbf & Ed). erewrite bind_Done by exact E1. unfold buf_at. erewrite bind_elem_at by exact Hbf.
  destruct (close_op c me pr Hh Hst sz st n s j _ s1 Hop) as (s2 & E2 & Hop2 & Hb2 & Hl2). erewrite bind_Done by exact E2. rewrite Ed, file_bytes_block by lia || done.
  pose proof (becomes_fstate _ _ _ _ _ _ Hf Hop2 Hb2) as Hf2. rewrite u32_id by (unfold NDIRECT, BSIZE in *; word_unfold; lia).
  destruct (IH s2 (off + m) (tot + m) fuel (acc ++ file_bytes (view s) ip off m) Hf2) as (s3 & E3 & Hf3 & Hb3 & Hl3).
  { by replace (off + m + (N - (tot + m))) with (off + (N - tot)) by lia. }
  1-4: try lia. { by replace (N - (tot + m)) with (N - tot - m) by lia; lia. } { lia. }
  exists s3. split; [|split; [exact Hf3|]].
  - rewrite E3, <- app_assoc. do 2 f_equal. rewrite (file_bytes_app (view s) ip off m (N - tot)) by lia. f_equal.
    replace (N - (tot + m)) with (N - tot - m) by lia. unfold file_bytes. apply list_fmap_ext. intros ? ? _. apply file_byte_ext, Hb2.
  - split; [|congruence]. eapply becomes_view; [|exact (becomes_trans _ _ _ _ _ Hb2 Hb3)]. apply Hb2.
Qed.

Lemma readi_run n f s i ip off N : fstate n f s i ip -> no_holes ip (i_size ip) -> i_size ip <= NDIRECT * BSIZE -> 0 <= off <= i_size ip -> 0 <= N < 2 ^ 31 ->
  let m := Z.min N (i_size ip - off) in
  exists s', readi i off N c s = Done (m, file_bytes (view s) ip off m) c s' /\ fstate n f s' i ip /\ becomes s s' (view s) /\ k_log s' = k_log s.
Proof using Hh Hst H0.
  intros Hf Hnh Hsz Ho HN m. pose proof Hf as [_ Fi _ Ff _]. assert (Hmax : NDIRECT * BSIZE = 5632) by reflexivity.
  unfold readi, inode_at. erewrite bind_elem_at by exact Fi. rewrite (proj2 (Z.eqb_neq _ _)) by apply Ff. rewrite (u32_id (off + N)) by (word_unfold; lia).
  rewrite Z.gtb_ltb, (proj2 (Z.ltb_ge (i_size ip) off)), (proj2 (Z.ltb_ge (off + N) off)) by lia. cbn [orb].
  assert (Em : (if off + N >? i_size ip then i_size ip - off else N) = m) by (destruct (off + N >? i_size ip) eqn:E; lia). rewrite Em.
  destruct (readi_loop_run (Z.to_nat (spans off m)) n f i ip m s off 0 (S (Z.to_nat (m / BSIZE + 2))) [] Hf) as (s' & E & Hf' & Hb).
  - intros k Hk Hb. apply Hnh; [done|lia].
  - lia. - lia. - lia. - rewrite Z.sub_0_r. pose proof (spans_bound off m). lia. - pose proof (spans_bound off m). lia.
  - exists s'. rewrite Z.sub_0_r in E. erewrite bind_Done by exact E. done.
Qed.
(** *** Loading an inode *)

(** The fields of the inode as [ilock] reads them from the block [d]. *)
Definition loaded (d : list Z) (ip : inode) : inode :=
  let o := dip (i_inum ip) in
  set_i_addrs (read_addrs d o) (set_i_size (get32 d (o + 8))
    (set_i_nlink (i16 (get16 d (o + 6))) (set_i_minor (i16 (get16 d (o + 4)))
      (set_i_major (i16 (get16 d (o + 2))) (set_i_type (i16 (get16 d o)) ip))))).

Definition acquired (ip : inode) : inode := set_i_lock (SleepLock true (p_pid pr)) ip.

Lemma ilock_load n s i ip : op c me pr sz st n s -> k_inodes s !! i = Some ip -> 1 <= i_ref ip -> i_valid ip = false -> sl_locked (i_lock ip) = false ->
  i_dev ip = ROOTDEV -> 0 <= iblock (k_sb s) ip < sz -> let ip' := set_i_valid true (loaded (view s (iblock (k_sb s) ip)) (acquired ip)) in i_type ip' <> 0 ->
  exists s', ilock i c s = Done tt c s' /\ op c me pr sz st n s' /\ k_inodes s' = <[i := ip']> (k_inodes s) /\ (forall b, view s' b = view s b).
Proof using Hh Hst H0.
  intros Hop Hi Hr Hval Hfree Hdev Hb ip' Hty. set (s1 := set_k_inodes (<[i := acquired ip]> (k_inodes s)) s).
  assert (Hrun : runs c s me pr) by (destruct Hop as (bs & [] & _); done). pose proof (lookup_lt_Some _ _ _ Hi) as Hlen.
  assert (E : acquiresleep (SlInode i) c s = Done tt c s1).
  { apply (acquiresleep_inode c s me pr Hrun i ip Hi); [rewrite Hh; apply not_elem_of_empty|done]. }
  unfold ilock, inode_at. erewrite bind_elem_at by exact Hi. rewrite (proj2 (Z.ltb_ge _ _)) by lia. erewrite bind_Done by exact E.
  assert (Hi1 : k_inodes s1 !! i = Some (acquired ip)) by (cbn; by apply list_lookup_insert_eq).
  erewrite bind_elem_at by exact Hi1. cbn [i_valid acquired set_i_lock]. rewrite Hval. cbn [when negb]. rewrite bind_gets.
  destruct (bread_op c me pr Hh sz st n s1 (iblock (k_sb s) ip)) as (j & s2 & E2 & Hop2); [by apply op_inodes|done|].
  destruct (opened_buf c me pr sz st _ s1 j _ s2 Hop2) as (bf & Hbf & Ed). change (i_dev (acquired ip)) with (i_dev ip). rewrite Hdev. change (IBLOCK (i_inum (acquired ip)) (k_sb s1)) with (iblock (k_sb s) ip).
  erewrite bind_Done by exact E2. unfold buf_at. erewrite bind_elem_at by exact Hbf. rewrite Ed, (view_frame s s1) by reflexivity.
  pose proof (fsrest_inodes _ _ (bc_rest _ _ _ (od_same _ _ _ _ _ _ _ _ _ _ Hop2))) as Ei2.
  set (ip1 := loaded (view s (iblock (k_sb s) ip)) (acquired ip)) in *. unfold upd_inode.  erewrite bind_elem_upd by (rewrite Ei2; exact Hi1).
  pose proof (opened_inodes _ _ _ _ _ (<[i := ip1]> (k_inodes s2)) Hop2) as Hop3.
  destruct (close_op c me pr Hh Hst sz st n _ j _ _ Hop3) as (s4 & E4 & Hop4 & [Hv4 Hr4 _] & _).  erewrite bind_Done by exact E4.
  pose proof (fsrest_inodes _ _ Hr4) as Ei4. cbn [k_inodes set_k_inodes s1] in Ei4. rewrite Ei2 in Ei4. cbn [k_inodes set_k_inodes s1] in Ei4. rewrite list_insert_insert_eq in Ei4.
   erewrite bind_elem_upd by (rewrite Ei4; apply list_lookup_insert_eq; exact Hlen). fold ip'.
  erewrite bind_elem_at by (cbn; apply list_lookup_insert_eq; rewrite Ei4, length_insert; exact Hlen).
  rewrite (proj2 (Z.eqb_neq _ _) Hty). cbn [when]. eexists. split; [reflexivity|]. split; [by apply op_inodes|]. split.
  - cbn. by rewrite Ei4, list_insert_insert_eq.
  - intros b. rewrite (view_frame s4) by reflexivity. rewrite Hv4. by rewrite (view_frame s).
Qed.
End files.

(** ** Inodes on the disk *)

Section inodes.
Context `{SyncDisk} (c : ctx) (me : nat) (pr : proc) (sz st : Z).

(** C24: An inode written by [iupdate] is the one that [ilock] reads: whatever
    other process state has changed since, when an empty entry of the inode cache
    for the same inode is locked, all its fields get the values that were
    written. *)
Theorem iupdate_ilock (n f : nat) (s : kernel) (i : nat) (ip : inode) :
  held c = ∅ -> p_state pr = RUNNING -> fstate c me pr sz st (S n) f s i ip -> inode_words ip -> i_type ip <> 0 ->
  exists s', iupdate i c s = Done tt c s' /\ k_inodes s' !! i = Some ip /\
    forall m s1 j ip1, op c me pr sz st m s1 -> k_sb s1 = k_sb s -> view s1 (iblock (k_sb s) ip) = view s' (iblock (k_sb s) ip) ->
      k_inodes s1 !! j = Some ip1 -> 1 <= i_ref ip1 -> i_valid ip1 = false -> sl_locked (i_lock ip1) = false ->
      i_dev ip1 = ROOTDEV -> i_inum ip1 = i_inum ip ->
      exists s2, ilock j c s1 = Done tt c s2 /\
        k_inodes s2 !! j = Some (Inode ROOTDEV (i_inum ip) (i_ref ip1) (SleepLock true (p_pid pr)) true
          (i_type ip) (i_major ip) (i_minor ip) (i_nlink ip) (i_size ip) (i_addrs ip)).
Proof using H0.
  intros Hh Hst Hf Hw Hty. destruct (iupdate_run c me pr Hh Hst sz st n f s i ip Hf) as (s' & E & Hf' & Hv & _). exists s'. split; [exact E|]. split; [apply Hf'|].
  intros m s1 j ip1 Hop Hsb Hv1 Hj Hr Hval Hfree Hdev Hnum. destruct Hf as [_ _ Fb Ff _].
  pose proof (db_range _ _ _ _ (fk_inode _ _ _ _ Ff)) as Hrange. pose proof (bm_size _ _ _ _ Fb).
  set (d := view s (iblock (k_sb s) ip)) in *. assert (Hd : length d = Z.to_nat BSIZE) by apply (fk_inode _ _ _ _ Ff).
  destruct (inode_fields ip d (fk_inum _ _ _ _ Ff) (fk_addrs _ _ _ _ Ff) Hd Hw) as (E1 & E2 & E3 & E4 & E5).
  pose proof (inode_addrs ip d (fk_inum _ _ _ _ Ff) (fk_addrs _ _ _ _ Ff) Hd (iw_addrs _ Hw)) as E6.
  assert (Hb : iblock (k_sb s1) ip1 = iblock (k_sb s) ip) by (unfold iblock; by rewrite Hsb, Hnum).
  assert (El : set_i_valid true (loaded (view s1 (iblock (k_sb s1) ip1)) (acquired pr ip1)) = Inode ROOTDEV (i_inum ip) (i_ref ip1) (SleepLock true (p_pid pr)) true
    (i_type ip) (i_major ip) (i_minor ip) (i_nlink ip) (i_size ip) (i_addrs ip)).
  { rewrite Hb, Hv1, Hv. unfold loaded. change (i_inum (acquired pr ip1)) with (i_inum ip1). rewrite Hnum, E1, E2, E3, E4, E5, E6. by rewrite <- Hdev, <- Hnum. }
  destruct (ilock_load c me pr Hh Hst sz st m s1 j ip1 Hop Hj Hr Hval Hfree Hdev) as (s2 & E' & _ & Ei & _).
  - rewrite Hb. lia.
  - by rewrite El.
  - exists s2. split; [exact E'|]. rewrite Ei, list_lookup_insert_eq by (by apply lookup_lt_Some in Hj). by rewrite El.
Qed.

(** C35: The in-memory inode has one address more than the inode on the disk,
    and [iupdate] copies all of them: the last address lands on the type and the
    major number of the next inode in the block.  If it is zero, as for every file
    without a doubly-indirect block, [iupdate] marks the next inode as free. *)
Theorem iupdate_overruns (n f : nat) (s : kernel) (i : nat) (ip : inode) :
  held c = ∅ -> p_state pr = RUNNING -> fstate c me pr sz st (S n) f s i ip -> i_inum ip mod IPB < IPB - 1 -> addr_of ip (NDIRECT + 1) = 0 ->
  let next := i_inum ip + 1 in
  IBLOCK next (k_sb s) = IBLOCK (i_inum ip) (k_sb s) /\
  exists s', iupdate i c s = Done tt c s' /\ get16 (view s' (IBLOCK next (k_sb s))) (dip next) = 0.
Proof using H0.
  intros Hh Hst Hf Hlast Hz next. pose proof (fs_file _ _ _ _ _ _ _ _ _ _ Hf) as Ff. pose proof (fk_inum _ _ _ _ Ff) as Hnum.
  assert (HIPB : IPB = 8) by reflexivity. assert (HD : DINODE_SIZE = 60) by reflexivity.
  assert (Hn : next / IPB = i_inum ip / IPB /\ next mod IPB = i_inum ip mod IPB + 1).
  { unfold next. rewrite HIPB in *. Z.to_euclidean_division_equations; lia. }
  assert (HB : IBLOCK next (k_sb s) = IBLOCK (i_inum ip) (k_sb s)) by (unfold IBLOCK; by rewrite (proj1 Hn)). split; [exact HB|].
  destruct (iupdate_run c me pr Hh Hst sz st n f s i ip Hf) as (s' & E & _ & Hv & _). exists s'. split; [exact E|].
  rewrite HB. fold (iblock (k_sb s) ip). rewrite Hv. set (d := view s _).
  pose proof (inode_half ip d Hnum (fk_addrs _ _ _ _ Ff) (db_length _ _ _ _ (fk_inode _ _ _ _ Ff)) (NDIRECT + 1) 0 ltac:(done) ltac:(lia)) as Hw. rewrite Hz in Hw.
  replace (dip next) with (dip (i_inum ip) + 12 + 4 * (NDIRECT + 1) + 2 * 0); [exact Hw|]. unfold dip. rewrite (proj2 Hn), HD. unfold NDIRECT. lia.
Qed.
End inodes.

(** *** An example: a file of one block. *)

Definition ex_ip : inode := Inode ROOTDEV 1 1 (SleepLock false 0) true T_FILE 0 0 1 5 (50 :: replicate 12 0).

Lemma ex_addr k : 0 <= k -> addr_of ex_ip k = if decide (k = 0) then 50 else 0.
Proof.
  intros Hk. case_decide as E; [by subst k|]. unfold addr_of. replace (Z.to_nat k) with (S (Z.to_nat (k - 1))) by lia. cbn [i_addrs ex_ip lookup list_lookup].
  destruct (replicate 12 0 !! Z.to_nat (k - 1)) as [x|] eqn:Ex; [|done]. by apply lookup_replicate in Ex as [-> _].
Qed.

Lemma ex_data v a : (forall b, 0 <= b < 60 -> in_use ex_sb v b = true) -> length (v a) = 512%nat -> 32 <= a < 60 -> a <> 40 -> data_block 2 ex_sb v a.
Proof.
  intros Hu Hl Ha H40. split; cbn [sb_size ex_sb]; [lia|apply Hu; lia|right; unfold LOGSIZE, MAXOPBLOCKS; lia| |done].
  intros b Hb. rewrite ex_bblock by done. done.
Qed.

Lemma ex_file_ok v : (forall b, 0 <= b < 60 -> in_use ex_sb v b = true) -> length (v 50) = 512%nat -> length (v 32) = 512%nat -> file_ok 2 ex_sb v ex_ip.
Proof.
  intros Hu H50 H32. split; [done|done|done| | | | | |done].
  - intros k Hk. rewrite ex_addr by lia. case_decide; [|done]. intros _. by apply ex_data.
  - intros k k' Hk Hk'. rewrite !ex_addr by lia. repeat case_decide; subst; done.
  - by apply ex_data.
  - intros k Hk. rewrite ex_addr by lia. by case_decide.
  - split; [done|]. by apply Hu.
Qed.

(** Inode 2 of the disk is in use too. *)
Definition ex_files : gmap Z (list Z) := <[32 := put16 zero_block (dip 2) T_FILE]> ex_blocks.

Lemma ex_file n : (n <= 20)%nat -> exists s, fstate ex_idle 0 ex_proc 100 2 n 1 s 0 ex_ip /\ k_sb s = ex_sb /\ forall b, view s b = rdblk (<[2 := zero_block]> ex_files) b.
Proof.
  intros Hn. destruct (ex_op_on ex_files n Hn) as (s & Hop & Hsb & Hv). exists (set_k_inodes [ex_ip] s).
  assert (Hv' : forall b, view (set_k_inodes [ex_ip] s) b = rdblk (<[2 := zero_block]> ex_files) b) by (intros b; by rewrite (view_frame s), Hv).
  assert (Ev : view (set_k_inodes [ex_ip] s) 40 = ex_bitmap) by (rewrite Hv'; reflexivity).
  split; [|by split]. split; cbn [k_sb set_k_inodes]; rewrite ?Hsb; [by apply op_inodes|done|by apply ex_bitmap_ok| |].
  - apply ex_file_ok; [|rewrite Hv'; reflexivity|rewrite Hv'; reflexivity]. intros b Hb. rewrite ex_in_use by (done || lia). by rewrite (proj2 (Z.eqb_neq _ _)) by lia.
  - exists [60]. split; [apply NoDup_singleton|]. split; [done|]. intros b ->%list_elem_of_singleton. split; [done|]. by rewrite ex_in_use.
Qed.

Lemma iupdate_overruns_witness : exists s s', get16 (view s (IBLOCK 2 ex_sb)) (dip 2) = T_FILE /\
  iupdate 0 ex_idle s = Done tt ex_idle s' /\ get16 (view s' (IBLOCK 2 ex_sb)) (dip 2) = 0.
Proof.
  destruct (ex_file 1 ltac:(lia)) as (s & Hf & Hsb & Hv).
  destruct (iupdate_overruns ex_idle 0 ex_proc 100 2 0 1 s 0 ex_ip eq_refl eq_refl Hf eq_refl eq_refl) as (_ & s' & E & Hg). exists s, s'.
  split; [rewrite Hv; reflexivity|]. split; [exact E|]. rewrite Hsb in Hg. exact Hg.
Defined.

Lemma ex_words : inode_words ex_ip.
Proof. split; try done. cbn. repeat constructor; done. Qed.

Lemma iupdate_ilock_witness : exists s s' s1 s2, iupdate 0 ex_idle s = Done tt ex_idle s' /\
  k_inodes s1 !! 0%nat = Some (Inode ROOTDEV 1 1 (SleepLock false 0) false 0 0 0 0 0 []) /\ ilock 0 ex_idle s1 = Done tt ex_idle s2 /\
  k_inodes s2 !! 0%nat = Some (Inode ROOTDEV 1 1 (SleepLock true 1) true T_FILE 0 0 1 5 (50 :: replicate 12 0)).
Proof.
  destruct (ex_file 1 ltac:(lia)) as (s & Hf & Hsb & Hv).
  assert (Hty : i_type ex_ip <> 0) by done.
  destruct (iupdate_ilock ex_idle 0 ex_proc 100 2 0 1 s 0 ex_ip eq_refl eq_refl Hf ex_words Hty) as (s' & E & Hi & Hload). exists s, s'.
  destruct (iupdate_run ex_idle 0 ex_proc eq_refl eq_refl 100 2 0 1 s 0 ex_ip Hf) as (s0 & E0 & Hf0 & _ & Hc). rewrite E in E0. injection E0 as <-.
  set (ip1 := Inode ROOTDEV 1 1 (SleepLock false 0) false 0 0 0 0 0 []). set (s1 := set_k_inodes [ip1] s').
  destruct (Hload 0%nat s1 0%nat ip1) as (s2 & E2 & Hi2); [by apply op_inodes, Hf0|apply frame_sb, (fc_rest _ _ _ _ _ _ _ Hc)|by rewrite (view_frame s')|done|done|done|done|done|done|].
  exists s1, s2. split; [exact E|]. split; [reflexivity|]. split; [exact E2|exact Hi2].
Defined.
