(* ===== verification/Dir.v ===== *)
(** * Directories (src/fs.c)

    A directory is a file of entries of 16 bytes.  [dirlookup] finds the first
    entry in use with a name, and [dirlink] adds one, in the first entry that is
    free or at the end; both are proved against the entries of the file, through
    [readi] and [writei].  The entries are in the direct blocks of the inode. *)

From S2P Require Import Prelude Layout CString Spinlock Kalloc State Sched Sleeplock Bio Cache Log Journal Trans Fs Blocks Inode.

#[local] Opaque HEAD bread brelse log_write view pending balloc readi writei.

(** ** Entries *)

Definition entry (v : Z -> list Z) (ip : inode) (j : Z) : list Z := file_bytes v ip (DIRENT_SIZE * j) DIRENT_SIZE.

(** The first [DIRSIZ] characters of a name count, up to a null. *)
Definition same_name (s t : list Z) : Prop := cprefix (Z.to_nat DIRSIZ) s = cprefix (Z.to_nat DIRSIZ) t.
#[export] Instance same_name_dec s t : Decision (same_name s t).
Proof. unfold same_name. apply _. Defined.

(** A name as the callers pass it: bytes, [DIRSIZ] of them or up to a null. *)
Definition name_ok (name : list Z) : Prop :=
  Forall byte_ok name /\ ((Z.to_nat DIRSIZ <= length name)%nat \/ 0 ∈ name).

Definition named (name e : list Z) : bool := negb (de_inum e =? 0) && bool_decide (same_name name (de_name e)).

(** The first entry with a name, and the first free one, among the [m] from [j] on. *)
Fixpoint find_entry (v : Z -> list Z) (ip : inode) (name : list Z) (m : nat) (j : Z) : option Z :=
  match m with
  | O => None
  | S m' => if named name (entry v ip j) then Some j else find_entry v ip name m' (j + 1)
  end.
Fixpoint free_entry (v : Z -> list Z) (ip : inode) (m : nat) (j : Z) : Z :=
  match m with
  | O => j
  | S m' => if de_inum (entry v ip j) =? 0 then j else free_entry v ip m' (j + 1)
  end.

Definition dir_count (ip : inode) : nat := Z.to_nat (i_size ip / DIRENT_SIZE).

(** The inode number a directory has for a name. *)
Definition dir_inum (v : Z -> list Z) (ip : inode) (name : list Z) : option Z :=
  (fun j => de_inum (entry v ip j)) <$> find_entry v ip name (dir_count ip) 0.

Record dir_ok (ip : inode) : Prop := DirOk {
  do_type : i_type ip = T_DIR;
  do_size : i_size ip = DIRENT_SIZE * Z.of_nat (dir_count ip);
  do_max : i_size ip <= NDIRECT * BSIZE;
  do_blocks : no_holes ip (i_size ip);
}.

Lemma entry_ext v v' ip j : (forall b, v b = v' b) -> entry v ip j = entry v' ip j.
Proof. intros E. unfold entry, file_bytes. apply list_fmap_ext. intros i x _. by apply file_byte_ext. Qed.

Lemma find_entry_ext v v' ip name m j : (forall b, v b = v' b) -> find_entry v ip name m j = find_entry v' ip name m j.
Proof. intros E. revert j. induction m as [|m IH]; intros j; cbn; [done|]. by rewrite (entry_ext v v'), IH. Qed.

Lemma free_entry_ext v v' ip m j : (forall b, v b = v' b) -> free_entry v ip m j = free_entry v' ip m j.
Proof. intros E. revert j. induction m as [|m IH]; intros j; cbn; [done|]. by rewrite (entry_ext v v'), IH. Qed.

Lemma find_entry_None v ip name m j : find_entry v ip name m j = None <->
  forall k, j <= k < j + Z.of_nat m -> named name (entry v ip k) = false.
Proof.
  revert j. induction m as [|m IH]; intros j; cbn [find_entry]; [split; [lia|done]|].
  destruct (named name (entry v ip j)) eqn:E.
  - split; [done|]. intros H. by rewrite H in E by lia.
  - rewrite IH. split; intros H k Hk; [destruct (decide (k = j)) as [->|]; [done|]|]; apply H; lia.
Qed.

Lemma find_entry_Some v ip name m j k : find_entry v ip name m j = Some k <-> j <= k < j + Z.of_nat m /\
  named name (entry v ip k) = true /\ forall i, j <= i < k -> named name (entry v ip i) = false.
Proof.
  revert j. induction m as [|m IH]; intros j; cbn [find_entry]; [split; [done|lia]|].
  destruct (named name (entry v ip j)) eqn:E.
  - split.
    + intros [= <-]. split_and!; [lia..|done|lia].
    + intros (Hk & _ & Hno). destruct (decide (k = j)) as [->|]; [done|]. by rewrite Hno in E by lia.
  - rewrite IH. split.
    + intros (Hk & Hn & Hno). split_and!; [lia..|done|]. intros i Hi. destruct (decide (i = j)) as [->|]; [done|]. apply Hno. lia.
    + intros (Hk & Hn & Hno). destruct (decide (k = j)) as [->|]; [congruence|]. split_and!; [lia..|done|]. intros i Hi. apply Hno. lia.
Qed.

Lemma free_entry_spec v ip m j : j <= free_entry v ip m j <= j + Z.of_nat m /\
  (free_entry v ip m j = j + Z.of_nat m \/ de_inum (entry v ip (free_entry v ip m j)) = 0).
Proof.
  revert j. induction m as [|m IH]; intros j; cbn [free_entry]; [lia|].
  destruct (Z.eqb_spec (de_inum (entry v ip j)) 0) as [E|E]; [split; [lia|by right]|]. specialize (IH (j + 1)). lia.
Qed.

(** ** The entry that [dirlink] writes *)

Lemma strncmp_defined p q n : (n <= length p)%nat \/ 0 ∈ p -> (n <= length q)%nat -> is_Some (strncmp p q n).
Proof.
  revert p q. induction n as [|n IH]; intros p q Hp Hq; [by eexists|].
  destruct p as [|a p]; [destruct Hp as [Hp|Hp]; [cbn in Hp; lia|set_solver]|]. destruct q as [|b q]; [cbn in Hq; lia|].
  cbn [strncmp]. destruct (Z.eqb_spec a 0) as [->|Ha]; [by eexists|]. destruct (a =? b); [|by eexists]. cbn [negb andb].
  apply IH; [|cbn in Hq; lia]. destruct Hp as [Hp|Hp]; [left; cbn in Hp; lia|right; set_solver].
Qed.

Lemma copy_str_bytes t n w k : Forall byte_ok t -> copy_str t n = Some (w, k) -> Forall byte_ok w.
Proof.
  revert t w k. induction n as [|n IH]; intros t w k Ht H; [cbn in H; by simplify_eq|].
  destruct t as [|a t]; [done|]. apply Forall_cons in Ht as [Ha Ht]. cbn in H. destruct (a =? 0).
  - simplify_eq. by apply Forall_singleton.
  - destruct (copy_str t n) as [[w' k']|] eqn:E; [|done]. cbn in H. simplify_eq. constructor; [done|]. by eapply IH.
Qed.

Lemma de_name_length e : length (de_name e) = Z.to_nat DIRSIZ.
Proof. unfold de_name. pose proof (get_bytes_length e 2 DIRSIZ). unfold DIRSIZ in *. lia. Qed.

(** What [dirlink] stores reads as the entry it was made from. *)
Lemma mk_dirent_reads inum nm e : 0 <= inum < 2 ^ 16 -> length nm = Z.to_nat DIRSIZ -> Forall byte_ok nm ->
  (forall x, 0 <= x < DIRENT_SIZE -> byte_at e x = u8 (byte_at (mk_dirent inum nm) x)) ->
  de_inum e = inum /\ de_name e = nm.
Proof.
  intros Hi Hl Hb He. change (Z.to_nat DIRSIZ) with 14%nat in Hl. change DIRENT_SIZE with 16 in He.
  assert (Hm : forall x, 0 <= x < 16 -> byte_at (mk_dirent inum nm) x =
    if decide (2 <= x < 16) then u8 (byte_at nm (x - 2)) else byte_at (put16 (replicate 16 0) 0 inum) x).
  { intros x Hx. unfold mk_dirent. rewrite byte_at_put_bytes by (rewrite ?put16_length, ?length_replicate; lia).
    by rewrite Hl. }
  split.
  - unfold de_inum, get16. rewrite !He, !Hm by lia. rewrite !decide_False by lia. unfold put16.
    rewrite !byte_at_put8 by (rewrite ?put8_length, ?length_replicate; lia). 
    repeat first [rewrite decide_True by lia|rewrite decide_False by lia]. rewrite Z.shiftr_div_pow2 by lia. change (2 ^ 8) with 256 in *. change (2 ^ 16) with 65536 in *. word.
  - apply list_eq. intros k. destruct (decide (k < 14)%nat) as [Hk|Hk].
    + unfold de_name, get_bytes. rewrite list_lookup_fmap, lookup_seqZ_lt by (unfold DIRSIZ; lia). cbn [fmap option_fmap option_map].
      rewrite He, Hm by lia. rewrite decide_True by lia. destruct (lookup_lt_is_Some_2 nm k) as [y Hy]; [lia|].
      rewrite Hy. f_equal. unfold byte_at. replace (Z.to_nat (2 + (0 + Z.of_nat k) - 2)) with k by lia. rewrite Hy. cbn.
      rewrite Forall_lookup in Hb. specialize (Hb k y Hy). unfold byte_ok in Hb. word.
    + rewrite !lookup_ge_None_2; [done|lia|rewrite de_name_length; change (Z.to_nat DIRSIZ) with 14%nat; lia].
Qed.

(** The stored name is the one given, for every comparison. *)
Lemma strncpy_name name : name_ok name -> exists nm, strncpy name DIRSIZ = Some nm /\
  length nm = Z.to_nat DIRSIZ /\ Forall byte_ok nm /\ same_name nm name.
Proof.
  intros [Hb Hl]. destruct (copy_str_defined name (Z.to_nat DIRSIZ) Hl) as [[w k] E]. exists (w ++ replicate k 0).
  destruct (strncmp_refl_copy _ _ _ _ E) as (_ & E2 & E3). split_and!; [unfold strncpy; by rewrite E|done| |done].
  apply Forall_app. split; [by apply (copy_str_bytes name (Z.to_nat DIRSIZ) w k)|]. by apply Forall_replicate.
Qed.

Lemma namecmp_named name e : name_ok name -> exists r, namecmp name (de_name e) = Some r /\ (r = 0 <-> same_name name (de_name e)).
Proof.
  intros [_ Hl]. destruct (strncmp_defined name (de_name e) (Z.to_nat DIRSIZ) Hl) as [r E]; [by rewrite de_name_length|].
  exists r. split; [exact E|]. by apply strncmp_zero_iff.
Qed.

(** ** Changing one entry *)

Section change.
Context (v v' : Z -> list Z) (ip ip' : inode) (j0 : Z).
Context (Hj0 : 0 <= j0 <= Z.of_nat (dir_count ip)) (Hcount : Z.of_nat (dir_count ip') = Z.max (Z.of_nat (dir_count ip)) (j0 + 1)).
Context (Hfree : j0 = Z.of_nat (dir_count ip) \/ de_inum (entry v ip j0) = 0).
Context (Hsame : forall j, 0 <= j < Z.of_nat (dir_count ip) -> j <> j0 -> entry v' ip' j = entry v ip j).

Lemma free_unnamed name : j0 < Z.of_nat (dir_count ip) -> named name (entry v ip j0) = false.
Proof using Hfree. intros H. destruct Hfree as [E|E]; [clear Hcount; lia|]. unfold named. by rewrite E. Qed.

(** Other names are found where they were. *)
Lemma change_other name : named name (entry v' ip' j0) = false -> dir_inum v' ip' name = dir_inum v ip name.
Proof using Hj0 Hcount Hfree Hsame.
  intros Hn. unfold dir_inum. destruct (find_entry v ip name (dir_count ip) 0) as [k|] eqn:E.
  - apply find_entry_Some in E as (Hk & Hnk & Hno). assert (k <> j0) by (intros ->; rewrite free_unnamed in Hnk by lia; done).
    assert (E' : find_entry v' ip' name (dir_count ip') 0 = Some k); [|rewrite E'; cbn; by rewrite Hsame by lia].
    apply find_entry_Some. split; [lia|]. rewrite Hsame by lia. split; [done|]. intros i Hi.
    destruct (decide (i = j0)) as [->|]; [done|]. rewrite Hsame by lia. by apply Hno.
  - rewrite find_entry_None in E. rewrite (proj2 (find_entry_None v' ip' name _ 0)); [done|]. intros k Hk.
    destruct (decide (k = j0)) as [->|]; [done|]. rewrite Hsame by lia. apply E. lia.
Qed.

(** The new name is found in the entry that was changed. *)
Lemma change_new name : named name (entry v' ip' j0) = true -> dir_inum v ip name = None ->
  dir_inum v' ip' name = Some (de_inum (entry v' ip' j0)).
Proof using Hj0 Hcount Hsame.
  intros Hn Hnone. unfold dir_inum in *. destruct (find_entry v ip name (dir_count ip) 0) eqn:E; [done|].
  rewrite find_entry_None in E. assert (E' : find_entry v' ip' name (dir_count ip') 0 = Some j0); [|by rewrite E'].
  apply find_entry_Some. split; [lia|]. split; [done|]. intros i Hi. rewrite Hsame by lia. apply E. lia.
Qed.
End change.

(** ** [iget]: a reference to an inode *)

Lemma iget_scan_spec dev inum ips : forall i e, match iget_scan ips i e dev inum with
  | (Some k, _) => exists d, (i <= k)%nat /\ ips !! (k - i)%nat = Some d /\ 0 < i_ref d /\ i_dev d = dev /\ i_inum d = inum
  | (None, Some k) => e = Some k \/ exists d, (i <= k)%nat /\ ips !! (k - i)%nat = Some d /\ i_ref d = 0
  | (None, None) => e = None /\ forall d, d ∈ ips -> i_ref d <> 0
  end.
Proof.
  induction ips as [|d ips IH]; intros i e; cbn [iget_scan]; [destruct e; [by left|split; [done|set_solver]]|].
  destruct ((i_ref d >? 0) && (i_dev d =? dev) && (i_inum d =? inum)) eqn:E.
  - apply andb_prop in E as [[E1 E2]%andb_prop E3]. exists d. rewrite Nat.sub_diag. split_and!; [lia|done|lia..].
  - assert (Hs : forall k, (S i <= k)%nat -> (d :: ips) !! (k - i)%nat = ips !! (k - S i)%nat) by (intros k Hk; by replace (k - i)%nat with (S (k - S i)) by lia).
    set (e' := match e with None => _ | Some _ => e end). specialize (IH (S i) e'). destruct (iget_scan ips (S i) e' dev inum) as [[k|] [k'|]].
    1,2: destruct IH as (d' & Hk & Hd & IH); exists d'; rewrite Hs by lia; split; [lia|by split].
    + destruct IH as [He|(d' & Hk & Hd & IH)].
      * subst e'. destruct e; [by left|]. destruct (Z.eqb_spec (i_ref d) 0) as [E0|E0]; [|done]. injection He as <-. right. exists d. by rewrite Nat.sub_diag.
      * right. exists d'. rewrite Hs by lia. split; [lia|by split].
    + destruct IH as [He IH]. subst e'. destruct e; [done|]. destruct (Z.eqb_spec (i_ref d) 0) as [E0|E0]; [done|].
      split; [done|]. intros d' [->|Hd']%elem_of_cons; [done|by apply IH].
Qed.

Section dirs.
Context `{SyncDisk} `{Devsw} (c : ctx) (me : nat) (pr : proc) (Hh : held c = ∅) (Hst : p_state pr = RUNNING) (sz st : Z).

Lemma becomes_same_trans s s1 s2 : becomes s s1 (view s) -> becomes s1 s2 (view s1) -> becomes s s2 (view s).
Proof using Type. intros [A1 A2 A3] [B1 B2 B3]. split; [|congruence..]. intros b. by rewrite B1, A1. Qed.

(** Reading the entry [j] of a directory. *)
Lemma read_entry n f s dp ip j : fstate c me pr sz st n f s dp ip -> dir_ok ip -> 0 <= j < Z.of_nat (dir_count ip) ->
  exists s', readi dp (DIRENT_SIZE * j) DIRENT_SIZE c s = Done (DIRENT_SIZE, entry (view s) ip j) c s' /\
    fstate c me pr sz st n f s' dp ip /\ becomes s s' (view s) /\ k_log s' = k_log s.
Proof using Hh Hst H0.
  intros Hf [D1 D2 D3 D4] Hj. change DIRENT_SIZE with 16 in *.
  destruct (readi_run c me pr Hh Hst sz st n f s dp ip (16 * j) 16 Hf D4 D3) as (s' & E & Hf' & Hb & Hl); [lia|lia|].
  rewrite Z.min_l in E by lia. by exists s'.
Qed.

Lemma dirlookup_loop_run n f dp ip name : dir_ok ip -> name_ok name -> forall m fuel s j, fstate c me pr sz st n f s dp ip ->
  0 <= j -> Z.of_nat (dir_count ip) = j + Z.of_nat m -> (m < fuel)%nat ->
  exists s', fstate c me pr sz st n f s' dp ip /\ becomes s s' (view s) /\ k_log s' = k_log s /\
    dirlookup_loop fuel dp name (DIRENT_SIZE * j) c s =
      match find_entry (view s) ip name m j with
      | None => Done None c s'
      | Some k => (i ← iget (i_dev ip) (de_inum (entry (view s) ip k)); mret (Some (i, DIRENT_SIZE * k))) c s'
      end.
Proof using Hh Hst H0.
  intros Hd Hn m. induction m as [|m IH]; intros fuel s j Hf Hj Hm Hfuel; (destruct fuel as [|fuel]; [lia|]); cbn [dirlookup_loop find_entry];
    unfold inode_at; erewrite bind_elem_at by apply Hf; rewrite (do_size _ Hd), Hm; change DIRENT_SIZE with 16.
  - rewrite (proj2 (Z.ltb_ge _ _)) by lia. exists s. split; [exact Hf|]. split; [by split|]. split; [reflexivity|]. done.
  - rewrite (proj2 (Z.ltb_lt _ _)) by lia. destruct (read_entry n f s dp ip j Hf Hd) as (s1 & E1 & Hf1 & Hb1 & Hl1); [lia|].
    change DIRENT_SIZE with 16 in E1. rewrite (bind_Done _ _ _ _ _ _ _ E1). cbn [fst snd]. rewrite Z.eqb_refl. cbn [negb].
    assert (Hstep : exists s', fstate c me pr sz st n f s' dp ip /\ becomes s s' (view s) /\ k_log s' = k_log s /\
      dirlookup_loop fuel dp name (u32 (16 * j + 16)) c s1 = match find_entry (view s) ip name m (j + 1) with
        | None => Done None c s' | Some k => (i ← iget (i_dev ip) (de_inum (entry (view s) ip k)); mret (Some (i, 16 * k))) c s' end).
    { destruct (IH fuel s1 (j + 1) Hf1) as (s' & Hf' & Hb' & Hl' & E'); [lia|lia|lia|]. exists s'. split; [done|].
      split; [by apply (becomes_same_trans _ s1)|]. split; [congruence|]. change DIRENT_SIZE with 16 in E'.
      replace (u32 (16 * j + 16)) with (16 * (j + 1)) by (pose proof (do_max _ Hd) as Hx; rewrite (do_size _ Hd), Hm in Hx; change DIRENT_SIZE with 16 in Hx; unfold NDIRECT, BSIZE in Hx; word).
      rewrite E', (find_entry_ext (view s1) (view s)) by apply Hb1. destruct (find_entry (view s) ip name m (j + 1)) as [k|]; [|reflexivity].
      by rewrite (entry_ext (view s1) (view s)) by apply Hb1. }
    unfold named. destruct (Z.eqb_spec (de_inum (entry (view s) ip j)) 0) as [E0|E0]; cbn [negb andb]; [exact Hstep|].
    destruct (namecmp_named name (entry (view s) ip j) Hn) as (r & Er & Hr). rewrite Er. case_bool_decide as Hs.
    + apply Hr in Hs as ->. exists s1. by split.
    + destruct r; [by destruct Hs; apply Hr|exact Hstep..].
Qed.

Lemma dirlookup_run n f s dp ip name : fstate c me pr sz st n f s dp ip -> dir_ok ip -> name_ok name ->
  exists s', fstate c me pr sz st n f s' dp ip /\ becomes s s' (view s) /\ k_log s' = k_log s /\
    dirlookup dp name c s =
      match find_entry (view s) ip name (dir_count ip) 0 with
      | None => Done None c s'
      | Some k => (i ← iget (i_dev ip) (de_inum (entry (view s) ip k)); mret (Some (i, DIRENT_SIZE * k))) c s'
      end.
Proof using Hh Hst H0.
  intros Hf Hd Hn. unfold dirlookup, inode_at. erewrite bind_elem_at by apply Hf. rewrite (do_type _ Hd). change (T_DIR =? T_DIR) with true. cbn [negb].
  apply (dirlookup_loop_run n f dp ip name Hd Hn (dir_count ip) _ s 0 Hf); [lia|lia|]. rewrite (do_size _ Hd) at 1. change DIRENT_SIZE with 16.
  rewrite Z.mul_comm, Z.div_mul by lia. lia.
Qed.

Lemma dirlink_loop_run n f dp ip : dir_ok ip -> forall m fuel s j, fstate c me pr sz st n f s dp ip ->
  0 <= j -> Z.of_nat (dir_count ip) = j + Z.of_nat m -> (m < fuel)%nat ->
  exists s', fstate c me pr sz st n f s' dp ip /\ becomes s s' (view s) /\ k_log s' = k_log s /\
    dirlink_loop fuel dp (DIRENT_SIZE * j) c s = Done (DIRENT_SIZE * free_entry (view s) ip m j) c s'.
Proof using Hh Hst H0.
  intros Hd m. pose proof (do_max _ Hd) as Hx. rewrite (do_size _ Hd) in Hx. change DIRENT_SIZE with 16 in *. unfold NDIRECT, BSIZE in Hx.
  induction m as [|m IH]; intros fuel s j Hf Hj Hm Hfuel; (destruct fuel as [|fuel]; [lia|]); cbn [dirlink_loop free_entry];
    unfold inode_at; erewrite bind_elem_at by apply Hf; rewrite (do_size _ Hd); rewrite (u32_id (16 * j)) by (word_unfold; lia); change DIRENT_SIZE with 16; rewrite Hm.
  - rewrite (proj2 (Z.ltb_ge _ _)) by lia. exists s. split; [exact Hf|]. split; [by split|]. split; [reflexivity|]. done.
  - rewrite (proj2 (Z.ltb_lt _ _)) by lia. destruct (read_entry n f s dp ip j Hf Hd) as (s1 & E1 & Hf1 & Hb1 & Hl1); [lia|].
    change DIRENT_SIZE with 16 in E1. rewrite (bind_Done _ _ _ _ _ _ _ E1). cbn [fst snd]. rewrite Z.eqb_refl. cbn [negb].
    destruct (Z.eqb_spec (de_inum (entry (view s) ip j)) 0) as [E0|E0]; [by exists s1|].
    destruct (IH fuel s1 (j + 1) Hf1) as (s' & Hf' & Hb' & Hl' & E'); [lia|lia|lia|]. exists s'. split; [done|].
    split; [by apply (becomes_same_trans _ s1)|]. split; [congruence|]. replace (16 * j + 16) with (16 * (j + 1)) by lia.
    rewrite E'. by rewrite (free_entry_ext (view s1) (view s)) by apply Hb1.
Qed.

Lemma spans_entry j : 0 <= j -> spans (DIRENT_SIZE * j) DIRENT_SIZE = 1.
Proof using Type.
  intros Hj. unfold spans. change DIRENT_SIZE with 16. change (16 =? 0) with false. unfold BSIZE. cbv iota.
  pose proof (Z.div_mod j 32 ltac:(lia)) as Hd. pose proof (Z.mod_pos_bound j 32 ltac:(lia)) as Hm.
  assert (E1 : (16 * j + 16 - 1) / 512 = j / 32) by (symmetry; apply (Z.div_unique _ _ _ (16 * (j mod 32) + 15)); lia).
  assert (E2 : 16 * j / 512 = j / 32) by (symmetry; apply (Z.div_unique _ _ _ (16 * (j mod 32))); lia).
  lia.
Qed.

(** What [writei] of an entry does to the entries. *)
Lemma entries_written s s' dp ip ip' own j0 src g : fchange st s s' dp ip' own (patched g (DIRENT_SIZE * j0) (get_bytes src 0 DIRENT_SIZE)) ->
  0 <= j0 -> forall j, 0 <= j -> DIRENT_SIZE * (j + 1) <= NDIRECT * BSIZE ->
  (j <> j0 -> (forall x, 0 <= x -> g x = file_byte (view s) ip x) -> entry (view s') ip' j = entry (view s) ip j) /\
  (j = j0 -> forall x, 0 <= x < DIRENT_SIZE -> byte_at (entry (view s') ip' j) x = u8 (byte_at src x)).
Proof using Type.
  intros [_ _ _ Hb _ _] Hj0 j Hj Hmax. change DIRENT_SIZE with 16 in *. unfold NDIRECT, BSIZE in Hmax.
  assert (Hin : forall x, 0 <= x < 16 -> file_byte (view s') ip' (16 * j + x) = patched g (16 * j0) (get_bytes src 0 16) (16 * j + x)).
  { intros x Hx. apply Hb; [lia|]. apply Z.div_lt_upper_bound; unfold BSIZE, NDIRECT; lia. }
  split.
  - intros Hne Hg. unfold entry, file_bytes. change DIRENT_SIZE with 16. apply list_fmap_ext. intros k x Hx. apply lookup_seqZ in Hx as [-> Hk].
    rewrite Hin by lia. unfold patched. rewrite get_bytes_length by lia. rewrite decide_False by lia. apply Hg. lia.
  - intros -> x Hx. unfold entry, file_bytes, byte_at at 1. change DIRENT_SIZE with 16. rewrite list_lookup_fmap, lookup_seqZ_lt by lia. cbn [fmap option_fmap option_map default].
    rewrite Hin by lia. unfold patched. rewrite get_bytes_length by lia. rewrite decide_True by lia. rewrite byte_at_get_bytes by lia. unfold id. do 2 f_equal. lia.
Qed.

(** The directory [ip'] of [s'] is [ip] of [s] with an entry for [name]. *)
Record linked (s s' : kernel) (dp : nat) (ip ip' : inode) (name : list Z) (inum : Z) : Prop := {
  lk_dir : dir_ok ip';
  lk_new : dir_inum (view s') ip' name = Some inum;
  lk_others : forall other, ~ same_name other name -> dir_inum (view s') ip' other = dir_inum (view s) ip other;
  lk_inode : exists size addrs, ip' = set_i_size size (set_i_addrs addrs ip);
  lk_inodes : k_inodes s' = <[dp := ip']> (k_inodes s);
  lk_kept : forall a, data_block st (k_sb s) (view s) a -> ~ touched (k_sb s) ip' a -> view s' a = view s a;
}.

Lemma dir_inum_ext v v' ip name : (forall b, v b = v' b) -> dir_inum v ip name = dir_inum v' ip name.
Proof using Type.
  intros E. unfold dir_inum. rewrite (find_entry_ext v v') by done. destruct (find_entry v' _ _ _ _); [|done]. cbn. by rewrite (entry_ext v v').
Qed.

(** The size and the blocks of the directory after the write. *)
Lemma written_dir ip ip' j0 : dir_ok ip -> 0 <= j0 <= Z.of_nat (dir_count ip) ->
  DIRENT_SIZE * (j0 + 1) <= NDIRECT * BSIZE -> written_inode ip ip' (DIRENT_SIZE * j0) DIRENT_SIZE ->
  covers ip' (DIRENT_SIZE * j0) DIRENT_SIZE ->
  dir_ok ip' /\ Z.of_nat (dir_count ip') = Z.max (Z.of_nat (dir_count ip)) (j0 + 1).
Proof using Type.
  intros [D1 D2 D3 D4] Hj Hmax [E Hk] Hc. change DIRENT_SIZE with 16 in *. cbn [Z.gtb Z.compare] in E.
  assert (Es : i_size ip' = 16 * Z.max (Z.of_nat (dir_count ip)) (j0 + 1)) by (rewrite E; cbn [i_size set_i_size]; lia).
  assert (Ec : Z.of_nat (dir_count ip') = Z.max (Z.of_nat (dir_count ip)) (j0 + 1)).
  { unfold dir_count at 1. change DIRENT_SIZE with 16. rewrite Es, Z.mul_comm, Z.div_mul by lia. lia. }
  split; [|done]. split.
  - by rewrite E.
  - change DIRENT_SIZE with 16. lia.
  - lia.
  - intros k Hk0 Hk1. destruct (decide (k * BSIZE < i_size ip)) as [Hin|Hout].
    + rewrite Hk by (try apply D4; done). by apply D4.
    + apply Hc; [done|lia| |lia]. unfold BSIZE in *. lia.
Qed.

Lemma link_written n f s dp ip name inum nm j0 : fstate c me pr sz st (4 + n) (S f) s dp ip -> dir_ok ip -> 0 < inum < 2 ^ 16 ->
  0 <= j0 <= Z.of_nat (dir_count ip) -> j0 = Z.of_nat (dir_count ip) \/ de_inum (entry (view s) ip j0) = 0 ->
  DIRENT_SIZE * (Z.of_nat (dir_count ip) + 1) <= NDIRECT * BSIZE -> dir_inum (view s) ip name = None ->
  length nm = Z.to_nat DIRSIZ -> Forall byte_ok nm -> same_name nm name ->
  exists s' ip', writei dp (mk_dirent inum nm) (DIRENT_SIZE * j0) DIRENT_SIZE c s = Done DIRENT_SIZE c s' /\
    fstate c me pr sz st n f s' dp ip' /\ linked s s' dp ip ip' name inum.
Proof using Hh Hst H0.
  intros Hf Hd Hi Hj Hfree Hmax Hnone Hlen Hb Hsn. change DIRENT_SIZE with 16 in Hmax.
  destruct (writei_run c me pr Hh Hst sz st n f s dp ip (mk_dirent inum nm) (DIRENT_SIZE * j0) DIRENT_SIZE) as (s' & ip' & E & Hf' & Hw & Hc & Hch);
    [by rewrite spans_entry by lia|change DIRENT_SIZE with 16; lia..|].
  exists s', ip'. split; [exact E|]. split; [exact Hf'|].
  destruct (written_dir ip ip' j0 Hd Hj) as [Hd' Hcount]; [change DIRENT_SIZE with 16; lia|exact Hw|exact Hc|].
  pose proof (entries_written s s' dp ip ip' _ j0 (mk_dirent inum nm) _ Hch ltac:(lia)) as Hent.
  assert (Hsame : forall j, 0 <= j < Z.of_nat (dir_count ip) -> j <> j0 -> entry (view s') ip' j = entry (view s) ip j).
  { intros j Hj' Hne. apply Hent; [lia|change DIRENT_SIZE with 16; lia|done|done]. }
  destruct (mk_dirent_reads inum nm (entry (view s') ip' j0)) as [Ei En]; [lia|done|done|apply Hent; [lia|change DIRENT_SIZE with 16; lia|done]|].
  assert (Hnew : forall other, named other (entry (view s') ip' j0) = bool_decide (same_name other name)).
  { intros other. unfold named. rewrite Ei, En. rewrite (proj2 (Z.eqb_neq inum 0)) by lia. cbn [negb andb].
    apply bool_decide_ext. unfold same_name in *. by rewrite Hsn. }
  split.
  - exact Hd'.
  - rewrite <- Ei. apply (change_new (view s) (view s') ip ip' j0); try done. rewrite Hnew. by apply bool_decide_eq_true.
  - intros other Ho. apply (change_other (view s) (view s') ip ip' j0); try done. rewrite Hnew. by apply bool_decide_eq_false.
  - destruct Hw as [Ew _]. by eexists _, _.
  - apply Hch.
  - apply Hch.
Qed.

Lemma dirlink_run n f s dp ip name inum : fstate c me pr sz st (4 + n) (S f) s dp ip -> dir_ok ip -> name_ok name -> 0 < inum < 2 ^ 16 ->
  DIRENT_SIZE * (Z.of_nat (dir_count ip) + 1) <= NDIRECT * BSIZE -> dir_inum (view s) ip name = None ->
  exists s' ip', dirlink dp name inum c s = Done 0 c s' /\ fstate c me pr sz st n f s' dp ip' /\ linked s s' dp ip ip' name inum.
Proof using Hh Hst H0.
  intros Hf Hd Hn Hi Hmax Hnone.
  destruct (dirlookup_run _ _ s dp ip name Hf Hd Hn) as (s1 & Hf1 & Hb1 & Hl1 & E1).
  assert (En : find_entry (view s) ip name (dir_count ip) 0 = None) by (unfold dir_inum in Hnone; by destruct (find_entry _ _ _ _ _)).
  rewrite En in E1.
  destruct (dirlink_loop_run _ _ dp ip Hd (dir_count ip) (S (Z.to_nat (i_size ip / DIRENT_SIZE + 1))) s1 0 Hf1) as (s2 & Hf2 & Hb2 & Hl2 & E2); [lia|lia| |].
  { unfold dir_count. change DIRENT_SIZE with 16. pose proof (do_size _ Hd). lia. }
  pose proof (becomes_same_trans _ _ _ Hb1 Hb2) as Hb. pose proof (bc_view _ _ _ Hb) as Hv.
  rewrite (free_entry_ext (view s1) (view s2)) in E2 by (intros b; symmetry; apply Hb2).
  destruct (free_entry_spec (view s2) ip (dir_count ip) 0) as [Hj Hfree]. set (j0 := free_entry (view s2) ip (dir_count ip) 0) in *.
  destruct (strncpy_name name Hn) as (nm & En' & Hlen & Hbytes & Hsn).
  destruct (link_written n f s2 dp ip name inum nm j0 Hf2 Hd Hi) as (s' & ip' & E3 & Hf' & [L1 L2 L3 L4 L5 L6]); try done.
  { rewrite (dir_inum_ext (view s2) (view s)); done. }
  exists s', ip'. split; [|split; [exact Hf'|]].
  - unfold dirlink, inode_at. rewrite (bind_Done _ _ _ _ _ _ _ E1). erewrite bind_elem_at by apply Hf1. rewrite (bind_Done _ _ _ _ _ _ _ E2), En'.
    rewrite u32_id by (change DIRENT_SIZE with 16 in *; unfold NDIRECT, BSIZE in Hmax; word_unfold; lia).
    rewrite (bind_Done _ _ _ _ _ _ _ E3). reflexivity.
  - pose proof (bc_rest _ _ _ Hb) as Hr. rewrite (fsrest_sb _ _ Hr) in L6. split; try done.
    + intros other Ho. rewrite L3 by done. by apply dir_inum_ext.
    + rewrite L5. by rewrite (fsrest_inodes _ _ Hr).
    + intros a Ha Hno. rewrite L6; [apply Hv| |done]. by apply (data_block_ext st _ (view s)).
Qed.

Lemma iget_run s dev inum k d0 : k_inodes s !! k = Some d0 -> i_ref d0 = 0 ->
  exists i d, iget dev inum c s = Done i c (set_k_inodes (<[i := d]> (k_inodes s)) s) /\ (i < length (k_inodes s))%nat /\
    i_dev d = dev /\ i_inum d = inum /\ 0 < i_ref d.
Proof using Hh.
  intros Hk H0r. pose proof (iget_scan_spec dev inum (k_inodes s) 0 None) as Hscan.
  unfold iget, upd_inode. rewrite bind_acquire by (rewrite Hh; apply not_elem_of_empty). rewrite bind_gets.
  destruct (iget_scan (k_inodes s) 0 None dev inum) as [[i|] [e|]].
  1,2: destruct Hscan as (d & _ & Hd & Hr & Ed & Ei); rewrite Nat.sub_0_r in Hd; exists i, (set_i_ref (i_ref d + 1) d);
    rewrite (bind_elem_upd _ _ i d) by done; erewrite bind_Done by (by apply release_acquired; rewrite Hh; apply not_elem_of_empty);
    rewrite ctx_eta; split; [reflexivity|]; split; [by eapply lookup_lt_Some|]; split_and!; [done..|cbn; lia].
  - destruct Hscan as [?|(d & _ & Hd & Hr)]; [done|]. rewrite Nat.sub_0_r in Hd.
    exists e, (set_i_valid false (set_i_ref 1 (set_i_inum inum (set_i_dev dev d)))).
    rewrite (bind_elem_upd _ _ e d) by done. erewrite bind_Done by (by apply release_acquired; rewrite Hh; apply not_elem_of_empty).
    rewrite ctx_eta. split; [reflexivity|]. split; [by eapply lookup_lt_Some|done].
  - destruct Hscan as [_ Hno]. by destruct (Hno d0 (list_elem_of_lookup_2 _ _ _ Hk)).
Qed.

(** What [dirlookup] answers when the directory has [r] for the name. *)
Definition answers (s : kernel) (dp : nat) (dev : Z) (name : list Z) (r : option Z) : Prop :=
  match r with
  | None => exists s', dirlookup dp name c s = Done None c s'
  | Some inum => exists s' i off d, dirlookup dp name c s = Done (Some (i, off)) c s' /\
      k_inodes s' !! i = Some d /\ i_dev d = dev /\ i_inum d = inum /\ 0 < i_ref d
  end.

Lemma dirlookup_answers n f s dp ip name k d0 : fstate c me pr sz st n f s dp ip -> dir_ok ip -> name_ok name ->
  k_inodes s !! k = Some d0 -> i_ref d0 = 0 -> answers s dp (i_dev ip) name (dir_inum (view s) ip name).
Proof using Hh Hst H0.
  intros Hf Hd Hn Hk Hr. destruct (dirlookup_run n f s dp ip name Hf Hd Hn) as (s' & Hf' & Hb & _ & E). unfold dir_inum.
  destruct (find_entry (view s) ip name (dir_count ip) 0) as [j|]; cbn; [|by exists s'].
  rewrite <- (fsrest_inodes _ _ (bc_rest _ _ _ Hb)) in Hk.
  destruct (iget_run s' (i_dev ip) (de_inum (entry (view s) ip j)) k d0 Hk Hr) as (i & d & E2 & Hi & H3).
  rewrite (bind_Done _ _ _ _ _ _ _ E2) in E. eexists _, i, _, d. split; [exact E|]. split; [|exact H3]. cbn. by apply list_lookup_insert_eq.
Qed.
End dirs.

Section directories.
Context `{SyncDisk} `{Devsw} (c : ctx) (me : nat) (pr : proc) (sz st : Z).

(** C20: linking a name into a directory and looking it up.  [dirlink] of a name
    that the directory does not have succeeds, in a free entry or at the end of
    the directory; afterwards [dirlookup] of the name returns a reference to the
    inode that was linked, and [dirlookup] of any other name answers what the
    directory had for it before, a reference to that inode or nothing.  Names
    are the same if their first [DIRSIZ] characters are.  The directory is within
    its direct blocks and stays there.  The other cached inodes are as before,
    and so is every data block but those of the directory and the one its inode
    is in. *)
Theorem dirlink_dirlookup (n f : nat) (s : kernel) (dp : nat) (ip : inode) (name : list Z) (inum : Z) (k : nat) (d0 : inode) :
  held c = ∅ -> p_state pr = RUNNING -> fstate c me pr sz st (4 + n) (S f) s dp ip -> dir_ok ip -> name_ok name -> 0 < inum < 2 ^ 16 ->
  DIRENT_SIZE * (Z.of_nat (dir_count ip) + 1) <= NDIRECT * BSIZE -> dir_inum (view s) ip name = None ->
  k <> dp -> k_inodes s !! k = Some d0 -> i_ref d0 = 0 ->
  exists s' ip', dirlink dp name inum c s = Done 0 c s' /\
    (forall other, name_ok other ->
       answers c s' dp (i_dev ip) other (if decide (same_name other name) then Some inum else dir_inum (view s) ip other)) /\
    k_inodes s' = <[dp := ip']> (k_inodes s) /\ dir_ok ip' /\
    (forall a, data_block st (k_sb s) (view s) a -> ~ touched (k_sb s) ip' a -> view s' a = view s a).
Proof using H0.
  intros Hh Hst Hf Hd Hn Hi Hmax Hnone Hk Hk0 Hr.
  destruct (dirlink_run c me pr Hh Hst sz st n f s dp ip name inum Hf Hd Hn Hi Hmax Hnone) as (s' & ip' & E & Hf' & [L1 L2 L3 L4 L5 L6]).
  exists s', ip'. split; [exact E|]. split; [|by split].
  intros other Ho. assert (Ed : i_dev ip' = i_dev ip) by (destruct L4 as (size & addrs & ->); done).
  assert (Ea : dir_inum (view s') ip' other = if decide (same_name other name) then Some inum else dir_inum (view s) ip other).
  { case_decide as Hs; [|by apply L3]. rewrite <- L2. unfold dir_inum, same_name in *.
    assert (Hname : forall e, named other e = named name e) by (intros e; unfold named; f_equal; apply bool_decide_ext; unfold same_name; by rewrite Hs).
    assert (Hfind : forall m j, find_entry (view s') ip' other m j = find_entry (view s') ip' name m j)
      by (induction m as [|m IH]; intros j; cbn; [done|]; by rewrite Hname, IH).
    by rewrite Hfind. }
  rewrite <- Ea, <- Ed. apply (dirlookup_answers c me pr Hh Hst sz st n f s' dp ip' other k d0); try done.
  rewrite L5. by rewrite list_lookup_insert_ne.
Qed.
End directories.

(** *** An example: a name in an empty directory. *)

Definition ex_dir : inode := set_i_size 0 (set_i_type T_DIR ex_ip).
Definition ex_entry : inode := set_i_ref 0 ex_ip.

Lemma ex_dir_state n : (n <= 20)%nat -> exists s, fstate ex_idle 0 ex_proc 100 2 n 1 s 0 ex_dir /\ k_inodes s = [ex_dir; ex_entry].
Proof.
  intros Hn. destruct (ex_file n Hn) as (s & [Fop Fi Fb Ff Ffree] & Hsb & Hv). exists (set_k_inodes [ex_dir; ex_entry] s). split; [|done].
  assert (Hv' : forall b, view s b = view (set_k_inodes [ex_dir; ex_entry] s) b) by (intros b; symmetry; by apply view_frame).
  split; cbn [k_sb set_k_inodes]; [by apply op_inodes|done|by apply (bitmap_ext _ _ _ (view s))| |by apply (has_free_ext _ (view s))].
  apply (file_ok_ext 2 _ (view s)); [done|]. destruct Ff as [_ F2 F3 F4 F5 F6 F7 F8 F9]. by split.
Qed.

Lemma ex_dir_ok : dir_ok ex_dir.
Proof. split; [done..|]. intros k Hk H. change (i_size ex_dir) with 0 in H. unfold BSIZE in H. lia. Qed.

#[local] Instance ex_no_devices : Devsw := {| dev_read := fun _ => None; dev_write := fun _ => None |}.

Lemma dirlink_dirlookup_witness : exists s s' i off d s'', dirlink 0 [97; 0] 7 ex_idle s = Done 0 ex_idle s' /\
  dirlookup 0 [97; 0] ex_idle s' = Done (Some (i, off)) ex_idle s'' /\ k_inodes s'' !! i = Some d /\ i_inum d = 7.
Proof.
  destruct (ex_dir_state 4 ltac:(lia)) as (s & Hf & Ei).
  assert (Hn : name_ok [97; 0]) by (split; [repeat constructor; done|right; set_solver]).
  destruct (dirlink_dirlookup ex_idle 0 ex_proc 100 2 0 0 s 0 ex_dir [97; 0] 7 1 ex_entry eq_refl eq_refl Hf ex_dir_ok Hn) as (s' & ip' & E & Ha & _);
    [lia|done|done|done|by rewrite Ei|done|].
  specialize (Ha [97; 0] Hn). rewrite decide_True in Ha by done. destruct Ha as (s'' & i & off & d & E' & Hd & _ & Hin & _).
  by exists s, s', i, off, d, s''.
Defined.
