(* ===== verification/Mkfs.v ===== *)
(** * The image builder (src/mkfs.c)

    mkfs runs on the host: it writes an empty file system and the files it is
    given to an image file.  The host's calls are an interface, [HostFile], with
    what mkfs relies on as its laws.  A function of the program returns, or the
    program ends. *)

From S2P Require Import Prelude Layout CString State Bio Log Fs.

(** ** The host *)

(** The calls on the image file: [h_open path] is [open] of the file emptied,
    [h_read n] gives the bytes read, [h_write l] the number written.  [h_input
    path] is what the calls of [read] on a file to copy return until one returns
    nothing; [None] if it cannot be opened. *)
Class HostFile := {
  host : Type;
  h_open : list Z -> option host;
  h_lseek : Z -> host -> Z * host;
  h_read : Z -> host -> list Z * host;
  h_write : list Z -> host -> Z * host;
  h_input : list Z -> option (list (list Z));
}.

(** A regular file, without errors of the device: a size, bytes and a position. *)
Class HostFileLaws `{HostFile} := {
  f_size : host -> Z;
  f_byte : host -> Z -> Z;
  f_pos : host -> Z;
  f_seek : forall o h, 0 <= o -> fst (h_lseek o h) = o /\ f_pos (snd (h_lseek o h)) = o /\
    f_size (snd (h_lseek o h)) = f_size h /\ forall x, f_byte (snd (h_lseek o h)) x = f_byte h x;
  f_read : forall n h, 0 <= n -> f_pos h + n <= f_size h ->
    fst (h_read n h) = (fun i => f_byte h (f_pos h + i)) <$> seqZ 0 n /\
    f_size (snd (h_read n h)) = f_size h /\ forall x, f_byte (snd (h_read n h)) x = f_byte h x;
  f_write : forall l h, fst (h_write l h) = Z.of_nat (length l) /\
    f_size (snd (h_write l h)) = Z.max (f_size h) (f_pos h + Z.of_nat (length l)) /\
    forall x, f_byte (snd (h_write l h)) x =
      if decide (f_pos h <= x < f_pos h + Z.of_nat (length l)) then byte_at l (x - f_pos h) else f_byte h x;
}.

(** ** The program *)

Definition NINODES : Z := 200.
Definition nbitmap : Z := FSSIZE / (BSIZE * 8) + 1.
Definition ninodeblocks : Z := NINODES / IPB + 1.
Definition nlog : Z := LOGSIZE.
Definition nmeta : Z := 2 + nlog + ninodeblocks + nbitmap.
Definition nblocks : Z := FSSIZE - nmeta.

(** The bytes in memory of a little-endian host. *)
Definition half_bytes (v : Z) : list Z := [u8 v; u8 (Z.shiftr v 8)].
Definition xshort (x : Z) : Z := get16 (half_bytes x) 0.
Definition xint (x : Z) : Z := get32 (word_bytes x) 0.

Record dinode := DInode {
  d_type : Z; d_major : Z; d_minor : Z; d_nlink : Z; d_size : Z; d_addrs : list Z }.

Definition dinode_bytes (d : dinode) : list Z :=
  half_bytes (d_type d) ++ half_bytes (d_major d) ++ half_bytes (d_minor d) ++ half_bytes (d_nlink d) ++
  concat (word_bytes <$> d_size d :: d_addrs d).
Definition read_dinode (b : list Z) (o : Z) : dinode :=
  DInode (i16 (get16 b o)) (i16 (get16 b (o + 2))) (i16 (get16 b (o + 4))) (i16 (get16 b (o + 6)))
    (get32 b (o + 8)) ((fun k => get32 b (o + 12 + 4 * k)) <$> seqZ 0 (NDIRECT + 1)).

Section program.
Context `{HostFile}.

(** The global variables: the image file, [sb], [freeinode] and [freeblock]. *)
Record mst := Mst { m_img : host; m_sb : superblock; m_freeinode : Z; m_freeblock : Z }.

(** A function returns, or the program ends: with [exit], by an assertion, or
    with an access outside an array. *)
Inductive result (A : Type) :=
  | Ret (a : A) (s : mst)
  | Exited (code : Z) (img : option host)
  | Aborted
  | Overrun.
#[global] Arguments Ret {A} a s.
#[global] Arguments Exited {A} code img.
#[global] Arguments Aborted {A}.
#[global] Arguments Overrun {A}.
Definition mk (A : Type) := mst -> result A.

#[global] Instance mk_ret : MRet mk := fun A a s => Ret a s.
#[global] Instance mk_bind : MBind mk := fun A B f m s =>
  match m s with Ret a s' => f a s' | Exited code img => Exited code img | Aborted => Aborted | Overrun => Overrun end.
Definition get {A} (f : mst -> A) : mk A := fun s => Ret (f s) s.
Definition assert (b : bool) : mk unit := fun s => if b then Ret tt s else Aborted.
Definition exit {A} (code : Z) : mk A := fun s => Exited code (Some (m_img s)).
Definition overrun {A} : mk A := fun s => Overrun.
Definition on_img {A} (f : host -> A * host) : mk A := fun s =>
  let r := f (m_img s) in Ret (fst r) (Mst (snd r) (m_sb s) (m_freeinode s) (m_freeblock s)).

Definition wsect (sec : Z) (buf : list Z) : mk unit :=
  r ← on_img (h_lseek (u32 (sec * BSIZE)));
  if negb (r =? u32 (sec * BSIZE)) then exit 1 else
  r ← on_img (h_write buf);
  if negb (r =? BSIZE) then exit 1 else mret tt.

Definition rsect (sec : Z) : mk (list Z) :=
  r ← on_img (h_lseek (u32 (sec * BSIZE)));
  if negb (r =? u32 (sec * BSIZE)) then exit 1 else
  buf ← on_img (h_read BSIZE);
  if negb (Z.of_nat (length buf) =? BSIZE) then exit 1 else mret buf.

Definition winode (inum : Z) (ip : dinode) : mk unit :=
  sb ← get m_sb;
  let bn := IBLOCK inum sb in
  buf ← rsect bn;
  wsect bn (put_bytes buf (dip inum) (dinode_bytes ip)).

Definition rinode (inum : Z) : mk dinode :=
  sb ← get m_sb;
  let bn := IBLOCK inum sb in
  buf ← rsect bn;
  mret (read_dinode buf (dip inum)).

(** [freeinode++] and [freeblock++]. *)
Definition next_inode : mk Z := fun s =>
  Ret (m_freeinode s) (Mst (m_img s) (m_sb s) (u32 (m_freeinode s + 1)) (m_freeblock s)).
Definition next_block : mk Z := fun s =>
  Ret (m_freeblock s) (Mst (m_img s) (m_sb s) (m_freeinode s) (u32 (m_freeblock s + 1))).

Definition ialloc (type : Z) : mk Z :=
  inum ← next_inode;
  winode inum (DInode (i16 (xshort type)) 0 0 (i16 (xshort 1)) (xint 0) (replicate (Z.to_nat (NDIRECT + 1)) 0));;
  mret inum.

(** The bitmap with the bits below [used] set. *)
Definition used_bits (used : Z) : list Z := foldl set_bit zero_block (seqZ 0 used).

Definition balloc (used : Z) : mk unit :=
  assert (used <? BSIZE * 8);;
  sb ← get m_sb;
  wsect (sb_bmapstart sb) (used_bits used).

Definition daddr (d : dinode) (k : Z) : Z := default 0 (d_addrs d !! Z.to_nat k).
Definition set_daddr (k a : Z) (d : dinode) : dinode :=
  DInode (d_type d) (d_major d) (d_minor d) (d_nlink d) (d_size d) (<[Z.to_nat k := a]> (d_addrs d)).
Definition set_dsize (n : Z) (d : dinode) : dinode :=
  DInode (d_type d) (d_major d) (d_minor d) (d_nlink d) n (d_addrs d).

(** [din.addrs[k]], allocated if it is zero. *)
Definition fill_addr (din : dinode) (k : Z) : mk dinode :=
  if xint (daddr din k) =? 0 then (b ← next_block; mret (set_daddr k (xint b) din)) else mret din.

(** The block [fbn] of a file, allocated if absent; [indirect] has [NINDIRECT] words. *)
Definition iappend_block (din : dinode) (fbn : Z) : mk (Z * dinode) :=
  if fbn <? NDIRECT then
    din ← fill_addr din fbn;
    mret (xint (daddr din fbn), din)
  else
    din ← fill_addr din NDIRECT;
    indirect ← rsect (xint (daddr din NDIRECT));
    if negb (fbn - NDIRECT <? NINDIRECT) then overrun else
    if get32 indirect (4 * (fbn - NDIRECT)) =? 0 then
      b ← next_block;
      let indirect := put32 indirect (4 * (fbn - NDIRECT)) (xint b) in
      wsect (xint (daddr din NDIRECT)) indirect;;
      mret (xint (get32 indirect (4 * (fbn - NDIRECT))), din)
    else mret (xint (get32 indirect (4 * (fbn - NDIRECT))), din).

Fixpoint iappend_loop (fuel : nat) (p : list Z) (n off : Z) (din : dinode) : mk (Z * dinode) :=
  match fuel with
  | O => mret (off, din)
  | S fuel' =>
    if n >? 0 then
      let fbn := off / BSIZE in
      assert (fbn <? MAXFILE);;
      r ← iappend_block din fbn;
      let n1 := Z.min n (u32 ((fbn + 1) * BSIZE - off)) in
      buf ← rsect (fst r);
      wsect (fst r) (put_bytes buf (off - fbn * BSIZE) (take (Z.to_nat n1) p));;
      iappend_loop fuel' (drop (Z.to_nat n1) p) (n - n1) (u32 (off + n1)) (snd r)
    else mret (off, din)
  end.

Definition iappend (inum : Z) (p : list Z) : mk unit :=
  din ← rinode inum;
  let n := Z.of_nat (length p) in
  r ← iappend_loop (S (length p)) p n (xint (d_size din)) din;
  winode inum (set_dsize (xint (fst r)) (snd r)).

Fixpoint zero_sectors (n : nat) (i : Z) : mk unit :=
  match n with O => mret tt | S n' => wsect i zero_block;; zero_sectors n' (i + 1) end.

Fixpoint copy_reads (inum : Z) (reads : list (list Z)) : mk unit :=
  match reads with [] => mret tt | buf :: reads' => iappend inum buf;; copy_reads inum reads' end.

Fixpoint add_files (rootino : Z) (argv : list (list Z)) : mk unit :=
  match argv with
  | [] => mret tt
  | arg :: argv' =>
    assert (bool_decide (slash ∉ arg));;
    match h_input arg with
    | None => exit 1
    | Some reads =>
      let name := if byte_at arg 0 =? 95 then drop 1 arg else arg in
      inum ← ialloc T_FILE;
      iappend rootino (mk_dirent (xshort inum) (take (Z.to_nat DIRSIZ) name));;
      copy_reads inum reads;;
      add_files rootino argv'
    end
  end.

Definition sb_fields (sb : superblock) : list Z :=
  [sb_size sb; sb_nblocks sb; sb_ninodes sb; sb_nlog sb; sb_logstart sb; sb_inodestart sb; sb_bmapstart sb].
Definition mkfs_sb : superblock :=
  SuperBlock (xint FSSIZE) (xint nblocks) (xint NINODES) (xint nlog) (xint 2) (xint (2 + nlog)) (xint (2 + nlog + ninodeblocks)).

(** [main] once the image is open.  It is not reached with the source as it is:
    the assertion on [DINODE_SIZE] in [main] fails. *)
Definition build (argv : list (list Z)) : mk unit :=
  (fun s => Ret tt (Mst (m_img s) mkfs_sb (m_freeinode s) nmeta));;
  zero_sectors (Z.to_nat FSSIZE) 0;;
  sb ← get m_sb;
  wsect 1 (put_bytes zero_block 0 (concat (word_bytes <$> sb_fields sb)));;
  rootino ← ialloc T_DIR;
  assert (rootino =? ROOTINO);;
  iappend rootino (mk_dirent (xshort rootino) [46]);;
  iappend rootino (mk_dirent (xshort rootino) [46; 46]);;
  add_files rootino argv;;
  din ← rinode rootino;
  let off := xint (d_size din) in
  let off := u32 ((off / BSIZE + 1) * BSIZE) in
  winode rootino (set_dsize (xint off) din);;
  used ← get m_freeblock;
  balloc (i32 used);;
  exit 0.

Definition main (argv : list (list Z)) : result unit :=
  match argv with
  | [] => Exited 1 None
  | path :: files =>
    if negb (BSIZE mod DINODE_SIZE =? 0) then Aborted else
    if negb (BSIZE mod DIRENT_SIZE =? 0) then Aborted else
    match h_open path with
    | None => Exited 1 None
    | Some fsfd => build files (Mst fsfd (SuperBlock 0 0 0 0 0 0 0) 1 0)
    end
  end.
End program.
