(* ===== verification/Image.v ===== *)
(** * Images that mkfs builds

    What the functions of Mkfs do: [iappend] appends to one file and changes no
    other, and [build] makes an image on which the kernel's own functions find the
    super block, the bitmap, the root directory and the files.  An inode's file is
    in its direct blocks and its indirect block; every block in use belongs to one
    place of one file.  As the source stands [main] does not get that far: it
    aborts at its first assertion ([mkfs_aborts]), so that these are statements
    about code that is not reached. *)

From S2P Require Import Prelude Layout CString State Bio Log Fs Blocks Inode Dir Mkfs.

(** ** Sectors *)

Lemma words_half l k h : 0 <= k < Z.of_nat (length l) -> 0 <= h <= 1 ->
  get16 (concat (word_bytes <$> l)) (4 * k + 2 * h) = u16 (Z.shiftr (default 0 (l !! Z.to_nat k)) (16 * h)).
Proof.
  intros Hk Hh. unfold get16. rewrite <- Z.add_assoc. rewrite !word_bytes_concat by lia. set (a := default 0 _).
  replace (8 * (2 * h)) with (16 * h) by lia. replace (8 * (2 * h + 1)) with (16 * h + 8) by lia. rewrite <- Z.shiftr_shiftr by lia.
  rewrite (Z.shiftr_div_pow2 _ 8) by lia. word.
Qed.

(** The words of an array in memory. *)
Lemma get32_words l k : 0 <= k < Z.of_nat (length l) -> get32 (concat (word_bytes <$> l)) (4 * k) = u32 (default 0 (l !! Z.to_nat k)).
Proof.
  intros Hk. unfold get32. pose proof (words_half l k 0 Hk ltac:(lia)) as H0. pose proof (words_half l k 1 Hk ltac:(lia)) as H1.
  change (2 * 0) with 0 in H0. change (2 * 1) with 2 in H1. rewrite Z.add_0_r in H0. rewrite H0, H1, !Z.shiftr_div_pow2 by lia.
  change (2 ^ (16 * 0)) with 1. change (2 ^ (16 * 1)) with 65536. word.
Qed.

Lemma xint_id x : uint_ok x -> xint x = x.
Proof. intros Hx. change (xint x) with (get32 (concat (word_bytes <$> [x])) (4 * 0)). rewrite get32_words by (cbn; lia). by apply u32_id. Qed.

Lemma half_id x : get16 (half_bytes x) 0 = u16 x.
Proof. change (u8 x + 2 ^ 8 * u8 (Z.shiftr x 8) = u16 x). rewrite Z.shiftr_div_pow2 by lia. word. Qed.

Lemma xshort_id x : 0 <= x < 2 ^ 16 -> xshort x = x.
Proof. intros Hx. unfold xshort. rewrite half_id. word. Qed.

(** *** Inodes in a sector *)

Lemma byte_at_app_r l1 l2 x : 0 <= x -> byte_at (l1 ++ l2) (Z.of_nat (length l1) + x) = byte_at l2 x.
Proof. intros Hx. unfold byte_at. rewrite lookup_app_r by lia. do 2 f_equal. lia. Qed.

Lemma put_bytes_in l o v x : 0 <= o -> o + Z.of_nat (length v) <= Z.of_nat (length l) -> Forall byte_ok v -> 0 <= x < Z.of_nat (length v) ->
  byte_at (put_bytes l o v) (o + x) = byte_at v x.
Proof.
  intros Ho Hl Hv Hx. rewrite byte_at_put_bytes, decide_True by lia. replace (o + x - o) with x by lia. unfold byte_at.
  destruct (lookup_lt_is_Some_2 v (Z.to_nat x)) as [y Ey]; [lia|]. rewrite Ey. cbn. apply u8_id. by eapply Forall_lookup_1.
Qed.

Lemma put_bytes_out l o v x : 0 <= o -> o + Z.of_nat (length v) <= Z.of_nat (length l) -> 0 <= x -> x < o \/ o + Z.of_nat (length v) <= x ->
  byte_at (put_bytes l o v) x = byte_at l x.
Proof. intros Ho Hl Hx Hd. by rewrite byte_at_put_bytes, decide_False by lia. Qed.

Lemma get16_in l o v x : 0 <= o -> o + Z.of_nat (length v) <= Z.of_nat (length l) -> Forall byte_ok v -> 0 <= x -> x + 2 <= Z.of_nat (length v) ->
  get16 (put_bytes l o v) (o + x) = get16 v x.
Proof. intros. unfold get16. rewrite <- Z.add_assoc, !put_bytes_in by (done || lia). done. Qed.

Lemma get32_in l o v x : 0 <= o -> o + Z.of_nat (length v) <= Z.of_nat (length l) -> Forall byte_ok v -> 0 <= x -> x + 4 <= Z.of_nat (length v) ->
  get32 (put_bytes l o v) (o + x) = get32 v x.
Proof. intros. unfold get32. rewrite <- Z.add_assoc, !get16_in by (done || lia). done. Qed.

Lemma word_bytes_ok l : Forall byte_ok (concat (word_bytes <$> l)).
Proof. induction l as [|x l IH]; [done|]. cbn [fmap list_fmap concat]. apply Forall_app. split; [|exact IH]. unfold word_bytes. repeat constructor; apply u8_range. Qed.

Record dinode_ok (d : dinode) : Prop := DInodeOk {
  dk_type : -2 ^ 15 <= d_type d < 2 ^ 15;
  dk_major : -2 ^ 15 <= d_major d < 2 ^ 15;
  dk_minor : -2 ^ 15 <= d_minor d < 2 ^ 15;
  dk_nlink : -2 ^ 15 <= d_nlink d < 2 ^ 15;
  dk_size : uint_ok (d_size d);
  dk_length : length (d_addrs d) = Z.to_nat (NDIRECT + 1);
  dk_addrs : Forall uint_ok (d_addrs d);
}.

Lemma dinode_bytes_length d : length (d_addrs d) = Z.to_nat (NDIRECT + 1) -> Z.of_nat (length (dinode_bytes d)) = DINODE_SIZE.
Proof. intros Hl. unfold dinode_bytes. rewrite !length_app, word_bytes_length. cbn [length half_bytes]. rewrite Hl. done. Qed.

Lemma dinode_bytes_ok d : Forall byte_ok (dinode_bytes d).
Proof. unfold dinode_bytes. rewrite !Forall_app. repeat split; [..|apply word_bytes_ok]; unfold half_bytes; repeat constructor; apply u8_range. Qed.

Lemma i16_half x : -2 ^ 15 <= x < 2 ^ 15 -> i16 (get16 (half_bytes x) 0) = x.
Proof. intros Hx. rewrite half_id. word. Qed.

(** The words of an inode after the four half words. *)
Lemma dinode_word d k : 0 <= k < Z.of_nat (length (d_size d :: d_addrs d)) -> get32 (dinode_bytes d) (8 + 4 * k) = u32 (default 0 ((d_size d :: d_addrs d) !! Z.to_nat k)).
Proof.
  intros Hk. rewrite <- get32_words by done. unfold dinode_bytes. rewrite !app_assoc. set (hd := _ ++ half_bytes (d_nlink d)).
  assert (Hh : Z.of_nat (length hd) = 8) by done. rewrite <- Hh. unfold get32, get16. rewrite <- !Z.add_assoc, !byte_at_app_r by lia. done.
Qed.

Lemma read_written d buf o : dinode_ok d -> 0 <= o -> o + DINODE_SIZE <= Z.of_nat (length buf) -> read_dinode (put_bytes buf o (dinode_bytes d)) o = d.
Proof.
  intros [D1 D2 D3 D4 D5 D6 D7] Ho Hl. pose proof (dinode_bytes_length d D6) as Hb. pose proof (dinode_bytes_ok d) as Hk.
  unfold read_dinode. destruct d as [ty ma mi nl sz ad]. cbn [d_type d_major d_minor d_nlink d_size d_addrs] in *.
  change DINODE_SIZE with 60 in *. f_equal.
  - rewrite <- (Z.add_0_r o) at 2. rewrite get16_in by (done || lia). by apply (i16_half ty).
  - rewrite get16_in by (done || lia). by apply (i16_half ma).
  - rewrite get16_in by (done || lia). by apply (i16_half mi).
  - rewrite get16_in by (done || lia). by apply (i16_half nl).
  - rewrite get32_in by (done || lia). change 8 with (8 + 4 * 0). rewrite dinode_word by (cbn; lia). cbn. by apply u32_id.
  - apply list_eq. intros k. rewrite list_lookup_fmap. destruct (decide (Z.of_nat k < NDIRECT + 1)) as [Hlt|Hge].
    + rewrite lookup_seqZ_lt by lia. cbn [fmap option_fmap option_map]. unfold NDIRECT in *. replace (o + 12 + 4 * (0 + Z.of_nat k)) with (o + (8 + 4 * (1 + Z.of_nat k))) by lia.
      rewrite get32_in by (done || lia). rewrite dinode_word by (cbn [d_size d_addrs length]; lia). cbn [d_size d_addrs].
      replace (Z.to_nat (1 + Z.of_nat k)) with (S k) by lia. change ((sz :: ad) !! S k) with (ad !! k).
      destruct (lookup_lt_is_Some_2 ad k) as [a Ea]; [lia|]. rewrite Ea. cbn. f_equal. apply u32_id. by eapply Forall_lookup_1.
    + rewrite lookup_seqZ_ge by lia. symmetry. apply lookup_ge_None. lia.
Qed.

Lemma read_other d buf o o' : length (d_addrs d) = Z.to_nat (NDIRECT + 1) -> 0 <= o -> o + DINODE_SIZE <= Z.of_nat (length buf) ->
  0 <= o' -> o' + DINODE_SIZE <= o \/ o + DINODE_SIZE <= o' -> read_dinode (put_bytes buf o (dinode_bytes d)) o' = read_dinode buf o'.
Proof.
  intros Hd Ho Hl Ho' Hx. pose proof (dinode_bytes_length d Hd) as Hb. change DINODE_SIZE with 60 in *.
  assert (E : forall x, 0 <= x < 60 -> byte_at (put_bytes buf o (dinode_bytes d)) (o' + x) = byte_at buf (o' + x)).
  { intros x Hxx. apply put_bytes_out; lia. }
  assert (E16 : forall x, 0 <= x < 59 -> get16 (put_bytes buf o (dinode_bytes d)) (o' + x) = get16 buf (o' + x)).
  { intros x Hxx. unfold get16. rewrite <- Z.add_assoc, !E by lia. done. }
  assert (E32 : forall x, 0 <= x < 57 -> get32 (put_bytes buf o (dinode_bytes d)) (o' + x) = get32 buf (o' + x)).
  { intros x Hxx. unfold get32. rewrite <- Z.add_assoc, !E16 by lia. done. }
  unfold read_dinode. f_equal; try (by rewrite E16 by lia); try (by rewrite E32 by lia).
  - by rewrite <- (Z.add_0_r o'), E16 by lia.
  - apply list_fmap_ext. intros i k Hk. apply lookup_seqZ in Hk as [-> Hk]. unfold NDIRECT in Hk. rewrite <- Z.add_assoc. apply E32. lia.
Qed.

Section proofs.
Context `{HostFileLaws}.

Definition sector (h : host) (b : Z) : list Z := (fun i => f_byte h (BSIZE * b + i)) <$> seqZ 0 BSIZE.

(** The program is at a point where the image has the sectors [v]. *)
Record at_ (s : mst) (v : Z -> list Z) (fi fb : Z) : Prop := At {
  a_size : FSSIZE * BSIZE <= f_size (m_img s);
  a_sector : forall b, 0 <= b < FSSIZE -> sector (m_img s) b = v b;
  a_sb : m_sb s = mkfs_sb;
  a_inode : m_freeinode s = fi;
  a_block : m_freeblock s = fb;
}.

Lemma mk_bind_Ret {A B} (m : mk A) (f : A -> mk B) s a s' : m s = Ret a s' -> (m ≫= f) s = f a s'.
Proof using Type. intros E. unfold mbind, mk_bind. by rewrite E. Qed.

Lemma sector_ext h h' b : (forall x, f_byte h' x = f_byte h x) -> sector h' b = sector h b.
Proof using Type. intros E. unfold sector. apply list_fmap_ext. intros i x _. apply E. Qed.

Lemma sect_offset sec : 0 <= sec < FSSIZE -> u32 (sec * BSIZE) = BSIZE * sec /\ 0 <= BSIZE * sec.
Proof using Type. intros Hs. unfold FSSIZE, BSIZE in *. split; [rewrite u32_id; [lia|word_unfold; lia]|lia]. Qed.

Lemma sector_written h h' sec buf : length buf = Z.to_nat BSIZE -> 0 <= sec ->
  (forall x, f_byte h' x = if decide (BSIZE * sec <= x < BSIZE * sec + BSIZE) then byte_at buf (x - BSIZE * sec) else f_byte h x) ->
  forall b, 0 <= b -> sector h' b = put_block sec buf (sector h) b.
Proof using Type.
  intros Hl Hs E b Hb. unfold put_block. case_decide as D.
  - subst b. apply list_eq. intros i. unfold sector. rewrite list_lookup_fmap. destruct (decide (Z.of_nat i < BSIZE)) as [Hi|Hi].
    + rewrite lookup_seqZ_lt by lia. cbn [fmap option_fmap option_map]. rewrite E, decide_True by lia.
      destruct (lookup_lt_is_Some_2 buf i) as [y Ey]; [rewrite Hl; lia|]. rewrite Ey. f_equal. unfold byte_at.
      replace (Z.to_nat _) with i by lia. by rewrite Ey.
    + rewrite lookup_seqZ_ge by lia. symmetry. apply lookup_ge_None. rewrite Hl. lia.
  - unfold sector. apply list_fmap_ext. intros i x Hx. apply lookup_seqZ in Hx as [-> Hx]. rewrite E, decide_False; [done|].
    unfold BSIZE in *. lia.
Qed.

Lemma wsect_write s sec buf : 0 <= sec < FSSIZE -> length buf = Z.to_nat BSIZE ->
  exists h', wsect sec buf s = Ret tt (Mst h' (m_sb s) (m_freeinode s) (m_freeblock s)) /\
    (forall b, 0 <= b -> sector h' b = put_block sec buf (sector (m_img s)) b) /\ f_size h' = Z.max (f_size (m_img s)) (BSIZE * (sec + 1)).
Proof using Type.
  intros Hs Hl. destruct (sect_offset sec Hs) as [Eo Ho]. unfold wsect. rewrite !Eo. set (h1 := snd (h_lseek (BSIZE * sec) (m_img s))).
  destruct (f_seek (BSIZE * sec) (m_img s) Ho) as (S1 & S2 & S3 & S4). fold h1 in S2, S3, S4.
  destruct (f_write buf h1) as (W1 & W2 & W3). rewrite Hl, Z2Nat.id in W1, W2, W3 by (unfold BSIZE; lia). exists (snd (h_write buf h1)).
  split; [|split].
  - erewrite mk_bind_Ret by reflexivity. rewrite S1, Z.eqb_refl. cbn [negb]. erewrite mk_bind_Ret by reflexivity. cbn [m_img]. fold h1. by rewrite W1.
  - apply sector_written; [done|lia|]. intros x. rewrite W3, S2. case_decide; [done|]. apply S4.
  - rewrite W2, S2, S3. f_equal. lia.
Qed.

Lemma wsect_at s v fi fb sec buf : at_ s v fi fb -> 0 <= sec < FSSIZE -> length buf = Z.to_nat BSIZE ->
  exists s', wsect sec buf s = Ret tt s' /\ at_ s' (put_block sec buf v) fi fb.
Proof using Type.
  intros [A1 A2 A3 A4 A5] Hs Hl. destruct (wsect_write s sec buf Hs Hl) as (h' & E & Hv & Hsz). eexists. split; [exact E|]. split; cbn; [lia| |done..].
  intros b Hb. rewrite Hv by lia. unfold put_block. case_decide; [done|by apply A2].
Qed.

Lemma rsect_at s v fi fb sec : at_ s v fi fb -> 0 <= sec < FSSIZE -> exists s', rsect sec s = Ret (v sec) s' /\ at_ s' v fi fb.
Proof using Type.
  intros [A1 A2 A3 A4 A5] Hs. destruct (sect_offset sec Hs) as [Eo Ho]. unfold rsect. rewrite !Eo. set (h1 := snd (h_lseek (BSIZE * sec) (m_img s))).
  destruct (f_seek (BSIZE * sec) (m_img s) Ho) as (S1 & S2 & S3 & S4). fold h1 in S2, S3, S4.
  destruct (f_read BSIZE h1) as (R1 & R2 & R3); [done|rewrite S2, S3; unfold FSSIZE, BSIZE in *; lia|]. rewrite S2 in R1.
  assert (E : fst (h_read BSIZE h1) = v sec).
  { rewrite R1, <- A2 by done. unfold sector. apply list_fmap_ext. intros. apply S4. }
  eexists. split.
  - erewrite mk_bind_Ret by reflexivity. rewrite S1, Z.eqb_refl. cbn [negb]. erewrite mk_bind_Ret by reflexivity. cbn [m_img]. fold h1.
    rewrite E. replace (Z.of_nat (length (v sec))) with BSIZE; [reflexivity|]. rewrite <- A2 by done. unfold sector.
    by rewrite length_fmap, length_seqZ.
  - split; cbn; [lia| |done..]. intros b Hb. rewrite <- A2 by done. apply sector_ext. intros x. by rewrite R3, S4.
Qed.

Lemma at_length s v fi fb b : at_ s v fi fb -> 0 <= b < FSSIZE -> length (v b) = Z.to_nat BSIZE.
Proof using Type. intros Ha Hb. rewrite <- (a_sector _ _ _ _ Ha) by done. unfold sector. by rewrite length_fmap, length_seqZ. Qed.

Lemma next_block_at s v fi fb : at_ s v fi fb -> 0 <= fb < FSSIZE -> exists s', next_block s = Ret fb s' /\ at_ s' v fi (fb + 1).
Proof using Type.
  intros [A1 A2 A3 A4 A5] Hb. eexists. split; [unfold next_block; by rewrite A5|]. split; try done. cbn. apply u32_id. unfold FSSIZE in *. word_unfold. lia.
Qed.
End proofs.

(** ** Files in an image *)

(** The blocks of a file: those of the inode and those of its indirect block. *)
Definition NBLK : Z := NDIRECT + NINDIRECT.
Definition blk (v : Z -> list Z) (d : dinode) (k : Z) : Z :=
  if k <? NDIRECT then daddr d k
  else if daddr d NDIRECT =? 0 then 0 else get32 (v (daddr d NDIRECT)) (4 * (k - NDIRECT)).
Definition dbyte (v : Z -> list Z) (d : dinode) (x : Z) : Z :=
  let a := blk v d (x / BSIZE) in if a =? 0 then 0 else byte_at (v a) (x mod BSIZE).

Lemma NBLK_eq : NBLK = 139.
Proof. reflexivity. Qed.
Lemma nmeta_eq : nmeta = 120.
Proof. reflexivity. Qed.

Definition upd {A} (f : Z -> A) (i : Z) (a : A) (j : Z) : A := if decide (j = i) then a else f j.
Lemma upd_eq {A} (f : Z -> A) i a : upd f i a i = a.
Proof. unfold upd. by rewrite decide_True. Qed.
Lemma upd_ne {A} (f : Z -> A) i a j : j <> i -> upd f i a j = f j.
Proof. intros Hne. unfold upd. by rewrite decide_False. Qed.

(** Inode [i] has blocks [0] to [n - 1]; [own] says to which inode and place a
    block belongs, the indirect block being at place [-1]. *)
Record owns (own : Z -> Z * Z) (v : Z -> list Z) (fb i : Z) (d : dinode) (n : Z) : Prop := Owns {
  ow_range : 0 <= n <= NBLK;
  ow_length : length (d_addrs d) = Z.to_nat (NDIRECT + 1);
  ow_block : forall k, 0 <= k < n -> nmeta <= blk v d k < fb /\ own (blk v d k) = (i, k);
  ow_rest : forall k, n <= k < NBLK -> blk v d k = 0;
  ow_indirect : daddr d NDIRECT <> 0 -> nmeta <= daddr d NDIRECT < fb /\ own (daddr d NDIRECT) = (i, -1);
}.

(** The image [v] with inodes [D] has the files [F], of [nb] blocks; the blocks
    from [fb] on have not been used. *)
Record holds (v : Z -> list Z) (D : Z -> dinode) (F : Z -> list Z) (nb : Z -> Z) (fi fb : Z) : Prop := Holds {
  ho_length : forall b, 0 <= b < FSSIZE -> length (v b) = Z.to_nat BSIZE;
  ho_zero : forall b, fb <= b < FSSIZE -> v b = zero_block;
  ho_free : nmeta <= fb <= FSSIZE;
  ho_own : exists own, forall i, 1 <= i < fi -> owns own v fb i (D i) (nb i);
  ho_byte : forall i x, 1 <= i < fi -> 0 <= x < NBLK * BSIZE -> dbyte v (D i) x = byte_at (F i) x;
}.

Lemma zero_get32 x : get32 zero_block x = 0.
Proof. unfold get32, get16. by rewrite !zero_block_byte. Qed.

Lemma put_block_eq b d v : put_block b d v b = d.
Proof. unfold put_block. by rewrite decide_True. Qed.
Lemma put_block_ne b d v b' : b' <> b -> put_block b d v b' = v b'.
Proof. intros. unfold put_block. by rewrite decide_False. Qed.

Lemma blk_put v b data d k : daddr d NDIRECT = 0 \/ daddr d NDIRECT <> b -> blk (put_block b data v) d k = blk v d k.
Proof.
  intros Hd. unfold blk. destruct (k <? NDIRECT); [done|]. destruct (daddr d NDIRECT =? 0) eqn:E; [done|]. rewrite put_block_ne; [done|]. lia.
Qed.

Lemma dbyte_put v b data d x : daddr d NDIRECT = 0 \/ daddr d NDIRECT <> b -> blk v d (x / BSIZE) = 0 \/ blk v d (x / BSIZE) <> b ->
  dbyte (put_block b data v) d x = dbyte v d x.
Proof.
  intros Hd Hb. unfold dbyte. rewrite blk_put by done. destruct (_ =? 0) eqn:E; [done|]. rewrite put_block_ne; [done|]. lia.
Qed.

Lemma owns_mono own v fb fb' i d n : fb <= fb' -> owns own v fb i d n -> owns own v fb' i d n.
Proof.
  intros Hle [O1 O2 O3 O4 O5]. split; try done.
  - intros k Hk. destruct (O3 k Hk). split; [lia|done].
  - intros Hd. destruct (O5 Hd). split; [lia|done].
Qed.

(** What a block number is the block of. *)
Lemma owns_place own v fb i d n a k : owns own v fb i d n -> 0 <= k < NBLK -> blk v d k = a -> a <> 0 -> nmeta <= a < fb /\ own a = (i, k).
Proof.
  intros Ho Hk <- Ha. destruct (decide (k < n)) as [Hlt|Hge]; [apply (ow_block _ _ _ _ _ _ Ho); lia|]. destruct Ha. apply (ow_rest _ _ _ _ _ _ Ho). lia.
Qed.

Lemma div_block x : 0 <= x < NBLK * BSIZE -> 0 <= x / BSIZE < NBLK.
Proof. intros Hx. rewrite NBLK_eq in *. unfold BSIZE in *. Z.to_euclidean_division_equations; lia. Qed.

(** A block that is not a file's does not matter to the files. *)
Lemma holds_put v D F nb fi fb b data : holds v D F nb fi fb -> b < nmeta -> length data = Z.to_nat BSIZE -> holds (put_block b data v) D F nb fi fb.
Proof.
  intros [H1 H2 H3 [own H4] H5] Hb Hl.
  assert (Hne : forall i, 1 <= i < fi -> daddr (D i) NDIRECT = 0 \/ daddr (D i) NDIRECT <> b).
  { intros i Hi. destruct (decide (daddr (D i) NDIRECT = 0)); [by left|right]. destruct (ow_indirect _ _ _ _ _ _ (H4 i Hi)); [done|lia]. }
  split.
  - intros b' Hb'. unfold put_block. case_decide; [done|by apply H1].
  - intros b' Hb'. rewrite put_block_ne by lia. by apply H2.
  - done.
  - exists own. intros i Hi. destruct (H4 i Hi) as [O1 O2 O3 O4 O5]. split; try done.
    + intros k Hk. rewrite blk_put by by apply Hne. by apply O3.
    + intros k Hk. rewrite blk_put by by apply Hne. by apply O4.
  - intros i x Hi Hx. rewrite dbyte_put; [by apply H5|by apply Hne|]. pose proof (div_block x Hx) as Hk.
    destruct (decide (blk v (D i) (x / BSIZE) = 0)); [by left|right]. destruct (owns_place _ _ _ _ _ _ _ _ (H4 i Hi) Hk eq_refl); [done|lia].
Qed.

Lemma daddr_set k a d k' : length (d_addrs d) = Z.to_nat (NDIRECT + 1) -> 0 <= k <= NDIRECT -> 0 <= k' -> daddr (set_daddr k a d) k' = if decide (k' = k) then a else daddr d k'.
Proof.
  intros Hl Hk Hk'. unfold daddr, set_daddr. cbn [d_addrs]. case_decide as E.
  - subst k'. rewrite list_lookup_insert_eq; [done|]. rewrite Hl. unfold NDIRECT in *. lia.
  - by rewrite list_lookup_insert_ne by lia.
Qed.

Lemma owns_upd own v fb i d n p : owns own v fb i d n -> owns (upd own fb p) v (fb + 1) i d n.
Proof.
  intros [O1 O2 O3 O4 O5]. split; try done.
  - intros k Hk. destruct (O3 k Hk). rewrite upd_ne by lia. split; [lia|done].
  - intros Hd. destruct (O5 Hd). rewrite upd_ne by lia. split; [lia|done].
Qed.

Section grow.
Context (v : Z -> list Z) (D : Z -> dinode) (F : Z -> list Z) (nb : Z -> Z) (fi fb i : Z).
Context (Hh : holds v D F nb fi fb) (Hi : 1 <= i < fi).

Lemma nb_range : 0 <= nb i <= NBLK /\ length (d_addrs (D i)) = Z.to_nat (NDIRECT + 1).
Proof using Hh Hi. destruct (ho_own _ _ _ _ _ _ Hh) as [own Ho]. destruct (Ho i Hi). done. Qed.

Lemma blk_used k : 0 <= k < nb i -> nmeta <= blk v (D i) k < fb.
Proof using Hh Hi. intros Hk. destruct (ho_own _ _ _ _ _ _ Hh) as [own Ho]. by apply (ow_block _ _ _ _ _ _ (Ho i Hi)). Qed.

Lemma blk_next k : nb i <= k < NBLK -> blk v (D i) k = 0.
Proof using Hh Hi. intros Hk. destruct (ho_own _ _ _ _ _ _ Hh) as [own Ho]. by apply (ow_rest _ _ _ _ _ _ (Ho i Hi)). Qed.

Lemma indirect_used : daddr (D i) NDIRECT <> 0 -> nmeta <= daddr (D i) NDIRECT < fb.
Proof using Hh Hi. intros Hk. destruct (ho_own _ _ _ _ _ _ Hh) as [own Ho]. by apply (ow_indirect _ _ _ _ _ _ (Ho i Hi)). Qed.

(** A new inode [d] for [i] whose blocks are those of [D i] and, at place [p],
    the block [fb]. *)
Lemma grow_inode d n p : fb < FSSIZE -> length (d_addrs d) = Z.to_nat (NDIRECT + 1) -> 0 <= n <= NBLK -> nb i <= n ->
  (forall k, 0 <= k < NBLK -> blk v d k = if decide (k = p) then fb else blk v (D i) k) ->
  (forall k, nb i <= k < n -> k = p) -> p < n ->
  daddr d NDIRECT = (if decide (p = -1) then fb else daddr (D i) NDIRECT) -> p = -1 \/ p = nb i ->
  holds v (upd D i d) F (upd nb i n) fi (fb + 1).
Proof using Hh Hi.
  intros Hfb Hl Hn Hle Hblk Hnew Hp Hind Hpp. destruct Hh as [H1 H2 H3 [own H4] H5]. split; try done.
  - intros b Hb. apply H2. lia.
  - lia.
  - exists (upd own fb (i, p)). intros j Hj. destruct (decide (j = i)) as [->|Hne]; [|rewrite !upd_ne by done; by apply owns_upd, H4].
    rewrite !upd_eq. destruct (H4 i Hi) as [O1 O2 O3 O4 O5]. split; try done.
    + intros k Hk. rewrite Hblk by lia. destruct (decide (k = p)) as [->|E]; [rewrite upd_eq; split; [lia|done]|].
      destruct (O3 k); [destruct (decide (nb i <= k)); [destruct E; apply Hnew; lia|lia]|]. rewrite upd_ne by lia. split; [lia|done].
    + intros k Hk. rewrite Hblk by lia. rewrite decide_False by lia. apply O4. lia.
    + rewrite Hind. destruct (decide (p = -1)) as [->|E]; [rewrite upd_eq; split; [lia|done]|]. intros Hd. destruct (O5 Hd). rewrite upd_ne by lia. split; [lia|done].
  - intros j x Hj Hx. destruct (decide (j = i)) as [->|Hne]; [|rewrite upd_ne by done; by apply H5]. rewrite upd_eq, <- H5 by done.
    pose proof (div_block x Hx) as Hk. unfold dbyte. rewrite Hblk by done. destruct (decide (x / BSIZE = p)) as [E|E]; [|done].
    rewrite (proj2 (Z.eqb_neq fb 0)) by (rewrite nmeta_eq in H3; lia). rewrite H2 by lia. rewrite zero_block_byte.
    destruct Hpp as [->|Hpp]; [lia|]. by rewrite (ow_rest _ _ _ _ _ _ (H4 i Hi)) by lia.
Qed.

(** A direct block. *)
Lemma grow_direct : fb < FSSIZE -> nb i < NDIRECT -> holds v (upd D i (set_daddr (nb i) fb (D i))) F (upd nb i (nb i + 1)) fi (fb + 1).
Proof using Hh Hi.
  intros Hfb Hn. destruct nb_range as [R1 R2]. pose proof NBLK_eq as EN. unfold NDIRECT in Hn.
  apply (grow_inode _ _ (nb i)); [done|cbn [d_addrs set_daddr]; by rewrite length_insert|lia|lia| |lia|lia| |by right].
  - intros k Hk. unfold blk. rewrite !daddr_set by (done || unfold NDIRECT; lia). destruct (k <? NDIRECT) eqn:E.
    + done.
    + rewrite !decide_False by (unfold NDIRECT in *; lia). done.
  - rewrite daddr_set by (done || unfold NDIRECT; lia). rewrite !decide_False by (unfold NDIRECT; lia). done.
Qed.

(** The indirect block. *)
Lemma grow_indirect : fb < FSSIZE -> daddr (D i) NDIRECT = 0 -> holds v (upd D i (set_daddr NDIRECT fb (D i))) F nb fi (fb + 1).
Proof using Hh Hi.
  intros Hfb Hd. destruct nb_range as [R1 R2].
  assert (Hx : holds v (upd D i (set_daddr NDIRECT fb (D i))) F (upd nb i (nb i)) fi (fb + 1)).
  { apply (grow_inode _ _ (-1)); [done|cbn [d_addrs set_daddr]; by rewrite length_insert|lia|lia| |lia|lia| |by left].
    - intros k Hk. rewrite decide_False by lia. unfold blk. rewrite !daddr_set by (done || unfold NDIRECT; lia). destruct (k <? NDIRECT) eqn:E.
      + by rewrite decide_False by lia.
      + rewrite decide_True, Hd by done. cbn [Z.eqb]. destruct (fb =? 0); [done|]. rewrite (ho_zero _ _ _ _ _ _ Hh) by lia. apply zero_get32.
    - rewrite daddr_set by (done || unfold NDIRECT; lia). by rewrite !decide_True. }
  destruct Hx as [X1 X2 X3 [own X4] X5]. split; try done. exists own. intros j Hj. specialize (X4 j Hj). unfold upd at 2 in X4. by case_decide; subst.
Qed.
End grow.

Section fill.
Context (v : Z -> list Z) (D : Z -> dinode) (F : Z -> list Z) (nb : Z -> Z) (fi fb i : Z).
Context (Hh : holds v D F nb fi fb) (Hi : 1 <= i < fi).

(** An entry of the indirect block. *)
Lemma grow_entry : let a := daddr (D i) NDIRECT in fb < FSSIZE -> a <> 0 -> NDIRECT <= nb i < NBLK ->
  holds (put_block a (put32 (v a) (4 * (nb i - NDIRECT)) fb) v) D F (upd nb i (nb i + 1)) fi (fb + 1).
Proof using Hh Hi.
  intros a Hfb Ha Hn. destruct Hh as [H1 H2 H3 [own H4] H5]. set (v' := put_block _ _ v). pose proof NBLK_eq as EN. pose proof nmeta_eq as EM.
  destruct (ow_indirect _ _ _ _ _ _ (H4 i Hi) Ha) as [Ra Oa]. fold a in Ra, Oa. assert (Hlen : Z.of_nat (length (v a)) = 512) by (rewrite H1; [done|lia]).
  assert (Hind : forall j, 1 <= j < fi -> j <> i -> daddr (D j) NDIRECT = 0 \/ daddr (D j) NDIRECT <> a).
  { intros j Hj Hne. destruct (decide (daddr (D j) NDIRECT = 0)); [by left|right]. intros E. destruct (ow_indirect _ _ _ _ _ _ (H4 j Hj)) as [_ O]; [done|]. rewrite E, Oa in O. congruence. }
  assert (Hother : forall j k, 1 <= j < fi -> j <> i -> blk v' (D j) k = blk v (D j) k) by (intros j k Hj Hne; by apply blk_put, Hind).
  assert (Hself : forall k, 0 <= k < NBLK -> blk v' (D i) k = if decide (k = nb i) then fb else blk v (D i) k).
  { intros k Hk. unfold blk. destruct (k <? NDIRECT) eqn:E; [by rewrite decide_False by lia|]. fold a. rewrite (proj2 (Z.eqb_neq a 0) Ha). unfold v'. rewrite put_block_eq.
    unfold NDIRECT in *. case_decide as Ek.
    - subst k. apply get32_put32; [lia|lia|]. unfold FSSIZE in *. word_unfold. lia.
    - apply get32_put32_ne; lia. }
  assert (Hnota : forall j k, 1 <= j < fi -> 0 <= k < NBLK -> blk v (D j) k <> a).
  { intros j k Hj Hk E. destruct (owns_place _ _ _ _ _ _ a k (H4 j Hj) Hk E Ha) as [_ O]. rewrite Oa in O. injection O. lia. }
  split.
  - intros b Hb. unfold v', put_block. case_decide; [|by apply H1]. rewrite put32_length. apply H1. lia.
  - intros b Hb. unfold v'. rewrite put_block_ne by lia. apply H2. lia.
  - lia.
  - exists (upd own fb (i, nb i)). intros j Hj. destruct (decide (j = i)) as [->|Hne].
    + rewrite upd_eq. destruct (H4 i Hi) as [O1 O2 O3 O4 O5]. split; try done; [lia| | |].
      * intros k Hk. rewrite Hself by lia. destruct (decide (k = nb i)) as [->|E]; [rewrite upd_eq; split; [lia|done]|].
        destruct (O3 k); [lia|]. rewrite upd_ne by lia. split; [lia|done].
      * intros k Hk. rewrite Hself, decide_False by lia. apply O4. lia.
      * intros Hd. destruct (O5 Hd). rewrite upd_ne by lia. split; [lia|done].
    + rewrite (upd_ne nb) by done. destruct (owns_upd _ _ _ _ _ _ (i, nb i) (H4 j Hj)) as [O1 O2 O3 O4 O5]. split; try done.
      * intros k Hk. rewrite Hother by done. by apply O3.
      * intros k Hk. rewrite Hother by done. by apply O4.
  - intros j x Hj Hx. rewrite <- H5 by done. pose proof (div_block x Hx) as Hk. unfold dbyte. destruct (decide (j = i)) as [->|Hne].
    + rewrite Hself by done. destruct (decide (x / BSIZE = nb i)) as [E|E].
      * rewrite (proj2 (Z.eqb_neq fb 0)) by lia. unfold v'. rewrite put_block_ne, H2, zero_block_byte by lia.
        by rewrite (ow_rest _ _ _ _ _ _ (H4 i Hi)) by lia.
      * destruct (_ =? 0); [done|]. unfold v'. rewrite put_block_ne by by apply Hnota. done.
    + rewrite Hother by done. destruct (_ =? 0); [done|]. unfold v'. rewrite put_block_ne by by apply Hnota. done.
Qed.

Lemma byte_at_past l x : Z.of_nat (length l) <= x -> byte_at l x = 0.
Proof using Type. intros Hx. unfold byte_at. by rewrite lookup_ge_None_2 by lia. Qed.

Lemma byte_at_app l1 l2 x : 0 <= x -> byte_at (l1 ++ l2) x = if decide (x < Z.of_nat (length l1)) then byte_at l1 x else byte_at l2 (x - Z.of_nat (length l1)).
Proof using Type.
  intros Hx. case_decide as E.
  - unfold byte_at. by rewrite lookup_app_l by lia.
  - rewrite <- (byte_at_app_r l1 l2 (x - _)) by lia. f_equal. lia.
Qed.

(** Bytes behind the end of a file, in its last block. *)
Lemma grow_bytes c : let off := Z.of_nat (length (F i)) in let k := off / BSIZE in let a := blk v (D i) k in
  nb i = k + 1 -> off mod BSIZE + Z.of_nat (length c) <= BSIZE -> Forall byte_ok c ->
  holds (put_block a (put_bytes (v a) (off mod BSIZE) c) v) D (upd F i (F i ++ c)) nb fi fb.
Proof using Hh Hi.
  intros off k a Hn Hc Hby. destruct Hh as [H1 H2 H3 [own H4] H5]. set (v' := put_block _ _ v). pose proof NBLK_eq as EN. pose proof nmeta_eq as EM.
  assert (Hk0 : 0 <= k) by (apply Z.div_pos; [unfold off; lia|done]).
  destruct (ow_block _ _ _ _ _ _ (H4 i Hi) k ltac:(lia)) as [Ra Oa]. fold a in Ra, Oa. assert (Hlen : Z.of_nat (length (v a)) = BSIZE) by (rewrite H1; [done|lia]).
  assert (Hm : 0 <= off mod BSIZE) by (apply Z.mod_pos_bound; done). pose proof (ow_range _ _ _ _ _ _ (H4 i Hi)) as Hr.
  assert (Hblk : forall j k', 1 <= j < fi -> blk v' (D j) k' = blk v (D j) k').
  { intros j k' Hj. apply blk_put. destruct (decide (daddr (D j) NDIRECT = 0)); [by left|right]. intros E.
    destruct (ow_indirect _ _ _ _ _ _ (H4 j Hj)) as [_ O]; [done|]. rewrite E, Oa in O. injection O. lia. }
  split; try done.
  - intros b Hb. unfold v', put_block. case_decide; [|by apply H1]. rewrite put_bytes_length; [apply H1; lia|done|]. lia.
  - intros b Hb. unfold v'. rewrite put_block_ne by lia. by apply H2.
  - exists own. intros j Hj. destruct (H4 j Hj) as [O1 O2 O3 O4 O5]. split; try done.
    + intros k' Hk'. rewrite Hblk by done. by apply O3.
    + intros k' Hk'. rewrite Hblk by done. by apply O4.
  - intros j x Hj Hx. pose proof (div_block x Hx) as Hkx. unfold dbyte. rewrite Hblk by done. pose proof (H5 j x Hj Hx) as H5x. unfold dbyte in H5x.
    destruct (decide (blk v (D j) (x / BSIZE) = a)) as [E|E].
    + destruct (owns_place _ _ _ _ _ _ a _ (H4 j Hj) Hkx E ltac:(lia)) as [_ O]. rewrite Oa in O. injection O as <- Ek.
      rewrite E in H5x |- *. rewrite (proj2 (Z.eqb_neq a 0)) in H5x |- * by lia. unfold v'. rewrite put_block_eq, upd_eq, byte_at_app by lia. fold off.
      pose proof (Z.mod_pos_bound x BSIZE ltac:(done)) as Hmx. pose proof (Z.div_mod off BSIZE ltac:(done)) as E1. pose proof (Z.div_mod x BSIZE ltac:(done)) as E2. fold k in E1. rewrite <- Ek in E2.
      rewrite byte_at_put_bytes by lia. case_decide as E3.
      * rewrite decide_False by lia. replace (x mod BSIZE - off mod BSIZE) with (x - off) by lia. unfold byte_at.
        destruct (lookup_lt_is_Some_2 c (Z.to_nat (x - off))) as [y Ey]; [lia|]. rewrite Ey. cbn. apply u8_id. by eapply Forall_lookup_1.
      * rewrite H5x. case_decide as E4; [done|]. rewrite !byte_at_past; [done|lia|fold off; lia].
    + unfold v'. rewrite put_block_ne by done. rewrite H5x. destruct (decide (j = i)) as [->|Hne]; [|by rewrite upd_ne by done]. rewrite upd_eq, byte_at_app by lia. fold off.
      case_decide as E4; [done|]. rewrite !byte_at_past; [done| |fold off; lia].
      assert (x / BSIZE <> k) by (intros Ek; apply E; by rewrite Ek). pose proof (Z.div_mod off BSIZE ltac:(done)) as E1. pose proof (Z.div_mod x BSIZE ltac:(done)) as E2. fold k in E1.
      pose proof (Z.mod_pos_bound x BSIZE ltac:(done)). unfold BSIZE in *. lia.
Qed.
End fill.

Lemma holds_ext v D D' F F' nb nb' fi fb : (forall i, 1 <= i < fi -> D i = D' i /\ F i = F' i /\ nb i = nb' i) ->
  holds v D F nb fi fb -> holds v D' F' nb' fi fb.
Proof.
  intros E [H1 H2 H3 [own H4] H5]. split; try done.
  - exists own. intros i Hi. destruct (E i Hi) as (<- & _ & <-). by apply H4.
  - intros i x Hi Hx. destruct (E i Hi) as (<- & <- & _). by apply H5.
Qed.

Lemma holds_uint v D F nb fi fb i : holds v D F nb fi fb -> 1 <= i < fi -> Forall uint_ok (d_addrs (D i)).
Proof.
  intros Hh Hi. destruct (nb_range v D F nb fi fb i Hh Hi) as [Hn Hl]. pose proof NBLK_eq as EN. pose proof nmeta_eq as EM. pose proof (ho_free _ _ _ _ _ _ Hh) as Hf.
  assert (Hu : forall k, 0 <= k <= NDIRECT -> 0 <= daddr (D i) k < FSSIZE).
  { intros k Hk. destruct (decide (k = NDIRECT)) as [->|Hne].
    - destruct (decide (daddr (D i) NDIRECT = 0)) as [->|Hd]; [done|]. pose proof (indirect_used v D F nb fi fb i Hh Hi Hd). lia.
    - assert (E : blk v (D i) k = daddr (D i) k) by (unfold blk; by rewrite (proj2 (Z.ltb_lt _ _)) by lia). rewrite <- E.
      unfold NDIRECT in *. destruct (decide (k < nb i)); [pose proof (blk_used v D F nb fi fb i Hh Hi k); lia|].
      rewrite (blk_next v D F nb fi fb i Hh Hi k) by lia. done. }
  apply Forall_lookup. intros k a Ha. pose proof (lookup_lt_Some _ _ _ Ha) as Hlt. rewrite Hl in Hlt. specialize (Hu (Z.of_nat k)).
  unfold daddr in Hu. rewrite Nat2Z.id, Ha in Hu. cbn [default] in Hu. unfold NDIRECT, FSSIZE in *. word_unfold. unfold id in Hu. lia.
Qed.

Lemma daddr_uint d k : Forall uint_ok (d_addrs d) -> uint_ok (daddr d k).
Proof.
  intros Hf. unfold daddr. destruct (d_addrs d !! Z.to_nat k) eqn:E; [by eapply Forall_lookup_1|]. cbn. word_unfold. lia.
Qed.

(** What of an inode [iappend] does not touch. *)
Definition same_meta (d d' : dinode) : Prop :=
  d_type d' = d_type d /\ d_major d' = d_major d /\ d_minor d' = d_minor d /\ d_nlink d' = d_nlink d /\ d_size d' = d_size d.

(** The metadata blocks of two images. *)
Definition same_low (v v' : Z -> list Z) : Prop := forall b, b < nmeta -> v' b = v b.

Section append.
Context `{HostFileLaws} (D : Z -> dinode) (F : Z -> list Z) (fi i : Z) (Hi : 1 <= i < fi).

(** [iappend_block] has run: block [k] of inode [i] is there. *)
Record has_block (s' : mst) (v v' : Z -> list Z) (nb : Z -> Z) (fb' k : Z) (din din' : dinode) : Prop := HasBlock {
  hb_at : at_ s' v' fi fb';
  hb_holds : holds v' (upd D i din') F (upd nb i (k + 1)) fi fb';
  hb_indirect : daddr din' NDIRECT = 0 <-> k + 1 <= NDIRECT;
  hb_low : same_low v v';
  hb_meta : same_meta din din';
}.

(** An entry of the indirect block, which is there. *)
Lemma entry_run s v nb fb k din (add : bool) : at_ s v fi fb -> holds v (upd D i din) F nb fi fb -> daddr din NDIRECT <> 0 -> NDIRECT <= k < NBLK ->
  nb i = (if add then k else k + 1) -> (if add then fb < FSSIZE else True) ->
  exists s' v', (indirect ← rsect (xint (daddr din NDIRECT));
    if negb (k - NDIRECT <? NINDIRECT) then overrun else
    if get32 indirect (4 * (k - NDIRECT)) =? 0 then
      b ← next_block;
      let indirect := put32 indirect (4 * (k - NDIRECT)) (xint b) in
      wsect (xint (daddr din NDIRECT)) indirect;;
      mret (xint (get32 indirect (4 * (k - NDIRECT))), din)
    else mret (xint (get32 indirect (4 * (k - NDIRECT))), din)) s = Ret (blk v' din k, din) s' /\
    has_block s' v v' nb (if add then fb + 1 else fb) k din din.
Proof using Hi.
  intros Ha Hh Hd Hk Hn Hroom. pose proof NBLK_eq as EN. pose proof nmeta_eq as EM. pose proof (ho_free _ _ _ _ _ _ Hh) as Hf.
  pose proof (indirect_used _ _ _ _ _ _ i Hh Hi) as Ri. pose proof (holds_uint _ _ _ _ _ _ i Hh Hi) as Hu. rewrite upd_eq in Ri, Hu. specialize (Ri Hd).
  rewrite xint_id by by apply daddr_uint. set (a := daddr din NDIRECT) in *.
  destruct (rsect_at s v fi fb a Ha) as (s1 & E1 & Ha1); [lia|]. rewrite (mk_bind_Ret _ _ _ _ _ E1).
  rewrite (proj2 (Z.ltb_lt (k - NDIRECT) NINDIRECT)) by (change NINDIRECT with 128; unfold NDIRECT in *; lia). cbn [negb].
  assert (Eb : blk v din k = get32 (v a) (4 * (k - NDIRECT))).
  { unfold blk. fold a. rewrite (proj2 (Z.ltb_ge k NDIRECT)), (proj2 (Z.eqb_neq a 0)) by (done || lia). done. }
  assert (Hlen : Z.of_nat (length (v a)) = 512) by (rewrite (ho_length _ _ _ _ _ _ Hh); [done|lia]).
  assert (Hsm : same_meta din din) by done. destruct add.
  - rewrite <- Eb. pose proof (blk_next _ _ _ _ _ _ i Hh Hi k ltac:(lia)) as E0. rewrite upd_eq in E0. rewrite E0. cbn [Z.eqb].
    destruct (next_block_at s1 v fi fb Ha1) as (s2 & E2 & Ha2); [lia|]. rewrite (mk_bind_Ret _ _ _ _ _ E2).
    assert (Hufb : uint_ok fb) by (unfold FSSIZE in *; word_unfold; lia). cbv zeta. rewrite (xint_id fb) by done.
    destruct (wsect_at s2 v fi (fb + 1) a (put32 (v a) (4 * (k - NDIRECT)) fb) Ha2) as (s3 & E3 & Ha3); [lia|rewrite put32_length; unfold BSIZE; lia|].
    rewrite (mk_bind_Ret _ _ _ _ _ E3). rewrite get32_put32 by (done || unfold NDIRECT in *; lia). rewrite xint_id by done.
    exists s3, (put_block a (put32 (v a) (4 * (k - NDIRECT)) fb) v). split.
    + unfold mret, mk_ret. do 2 f_equal. unfold blk. fold a. rewrite (proj2 (Z.ltb_ge k NDIRECT)), (proj2 (Z.eqb_neq a 0)) by (done || lia).
      rewrite put_block_eq, get32_put32 by (done || unfold NDIRECT in *; lia). done.
    + split; [done| |fold a; lia| |done].
      * pose proof (grow_entry _ _ _ _ _ _ i Hh Hi) as Hg. rewrite upd_eq in Hg. fold a in Hg. rewrite Hn in Hg. apply Hg; [lia|done|lia].
      * intros b Hb. apply put_block_ne. lia.
  - rewrite <- Eb. pose proof (blk_used _ _ _ _ _ _ i Hh Hi k ltac:(unfold NDIRECT in *; lia)) as E0. rewrite upd_eq in E0. rewrite (proj2 (Z.eqb_neq (blk v din k) 0)) by lia.
    rewrite xint_id by (unfold FSSIZE in *; word_unfold; lia). exists s1, v. split; [done|]. split; [done| |fold a; lia|done|done].
    eapply holds_ext; [|exact Hh]. intros j Hj. split; [done|]. split; [done|]. unfold upd. case_decide; [subst; lia|done].
Qed.

Lemma fill_addr_new s v fb din k : at_ s v fi fb -> 0 <= fb < FSSIZE -> daddr din k = 0 -> exists s', fill_addr din k s = Ret (set_daddr k fb din) s' /\ at_ s' v fi (fb + 1).
Proof using Type.
  intros Ha Hb Hd. unfold fill_addr. rewrite Hd. change (xint 0 =? 0) with true. destruct (next_block_at s v fi fb Ha Hb) as (s1 & E1 & Ha1).
  exists s1. split; [|done]. cbv iota. rewrite (mk_bind_Ret _ _ _ _ _ E1). rewrite xint_id by (unfold FSSIZE in *; word_unfold; lia). done.
Qed.

Lemma fill_addr_old s din k : uint_ok (daddr din k) -> daddr din k <> 0 -> fill_addr din k s = Ret din s.
Proof using Type. intros Hu Hd. unfold fill_addr. rewrite xint_id by done. by rewrite (proj2 (Z.eqb_neq _ _) Hd). Qed.

(** The number of blocks that block [k] costs when it is new. *)
Definition block_cost (k : Z) : Z := if k =? NDIRECT then 2 else 1.

Lemma iappend_block_run s v nb fb k din (add : bool) : at_ s v fi fb -> holds v (upd D i din) F nb fi fb -> (daddr din NDIRECT = 0 <-> nb i <= NDIRECT) ->
  0 <= k < NBLK -> nb i = (if add then k else k + 1) -> (if add then fb + block_cost k <= FSSIZE else True) ->
  exists s' v' din', iappend_block din k s = Ret (blk v' din' k, din') s' /\ has_block s' v v' nb (if add then fb + block_cost k else fb) k din din'.
Proof using Hi.
  intros Ha Hh Hind Hk Hn Hroom. pose proof NBLK_eq as EN. pose proof nmeta_eq as EM. pose proof (ho_free _ _ _ _ _ _ Hh) as Hf.
  pose proof (holds_uint _ _ _ _ _ _ i Hh Hi) as Hu. rewrite upd_eq in Hu. destruct (nb_range _ _ _ _ _ _ i Hh Hi) as [Hr Hl]. rewrite upd_eq in Hl. unfold iappend_block. unfold block_cost in *.
  destruct (k <? NDIRECT) eqn:Ek.
  - assert (Eb : forall d, blk v d k = daddr d k) by (intros d; unfold blk; by rewrite Ek). rewrite (proj2 (Z.eqb_neq k NDIRECT)) in Hroom |- * by lia. destruct add.
    + pose proof (blk_next _ _ _ _ _ _ i Hh Hi k ltac:(lia)) as E0. rewrite upd_eq, Eb in E0.
      destruct (fill_addr_new s v fb din k Ha ltac:(lia) E0) as (s1 & E1 & Ha1). rewrite (mk_bind_Ret _ _ _ _ _ E1).
      assert (Ed : daddr (set_daddr k fb din) k = fb) by (rewrite daddr_set by (done || lia); by rewrite decide_True).
      rewrite Ed, xint_id by (unfold FSSIZE in *; word_unfold; lia). exists s1, v, (set_daddr k fb din). split; [by rewrite Eb, Ed|]. split; [done| | |done|done].
      * pose proof (grow_direct _ _ _ _ _ _ i Hh Hi) as Hg. rewrite upd_eq, Hn in Hg. eapply holds_ext; [|apply Hg; lia].
        intros j Hj. split; [|done]. unfold upd. by case_decide.
      * rewrite daddr_set by (done || unfold NDIRECT in *; lia). rewrite decide_False by lia. lia.
    + pose proof (blk_used _ _ _ _ _ _ i Hh Hi k ltac:(lia)) as E0. rewrite upd_eq, Eb in E0.
      rewrite (mk_bind_Ret _ _ _ _ _ (fill_addr_old s din k (daddr_uint _ _ Hu) ltac:(lia))). rewrite xint_id by by apply daddr_uint.
      exists s, v, din. split; [by rewrite Eb|]. split; [done| |lia|done|done].
      eapply holds_ext; [|exact Hh]. intros j Hj. split; [done|]. split; [done|]. unfold upd. case_decide; [subst; lia|done].
  - destruct (decide (daddr din NDIRECT = 0)) as [Hd|Hd].
    + assert (Hadd : add = true /\ k = NDIRECT) by (destruct add; lia). destruct Hadd as [-> ->]. rewrite Z.eqb_refl in Hroom |- *.
      destruct (fill_addr_new s v fb din NDIRECT Ha ltac:(lia) Hd) as (s1 & E1 & Ha1). rewrite (mk_bind_Ret _ _ _ _ _ E1).
      pose proof (grow_indirect _ _ _ _ _ _ i Hh Hi ltac:(lia)) as Hg. rewrite upd_eq in Hg. specialize (Hg Hd).
      assert (Hg' : holds v (upd D i (set_daddr NDIRECT fb din)) F nb fi (fb + 1)) by (eapply holds_ext; [|exact Hg]; intros j Hj; split; [|done]; unfold upd; by case_decide).
      destruct (entry_run s1 v nb (fb + 1) NDIRECT (set_daddr NDIRECT fb din) true Ha1 Hg') as (s2 & v2 & E2 & [B1 B2 B3 B4 B5]).
      * rewrite daddr_set, decide_True by (done || unfold NDIRECT; lia). lia.
      * unfold NDIRECT. lia.
      * done.
      * lia.
      * exists s2, v2, (set_daddr NDIRECT fb din). split; [exact E2|]. replace (fb + 2) with (fb + 1 + 1) by lia. by split.
    + rewrite (mk_bind_Ret _ _ _ _ _ (fill_addr_old s din NDIRECT (daddr_uint _ _ Hu) Hd)). assert (Hne : add = true -> k <> NDIRECT) by (intros ->; lia).
      destruct (entry_run s v nb fb k din add Ha Hh Hd) as (s2 & v2 & E2 & HB); [lia|done|destruct add; [|done]; rewrite (proj2 (Z.eqb_neq k NDIRECT)) in Hroom by auto; lia|].
      exists s2, v2, din. split; [exact E2|]. destruct add; [|done]. by rewrite (proj2 (Z.eqb_neq k NDIRECT)) by auto.
Qed.
End append.

(** ** iappend *)

(** Blocks of [n] bytes, without and with the indirect block. *)
Definition nblk (n : Z) : Z := (n + BSIZE - 1) / BSIZE.
Definition cost (n : Z) : Z := nblk n + (if NDIRECT <? nblk n then 1 else 0).
Definition nbf (F : Z -> list Z) (i : Z) : Z := nblk (Z.of_nat (length (F i))).

Lemma nblk_now off : 0 <= off -> nblk off = if bool_decide (off mod BSIZE = 0) then off / BSIZE else off / BSIZE + 1.
Proof. intros Ho. unfold nblk, BSIZE. case_bool_decide; Z.to_euclidean_division_equations; lia. Qed.

Lemma nblk_then off n : 0 <= off -> 0 < n -> off mod BSIZE + n <= BSIZE -> nblk (off + n) = off / BSIZE + 1.
Proof. intros Ho Hn. unfold nblk, BSIZE. Z.to_euclidean_division_equations; lia. Qed.

Lemma nblk_mono a b : a <= b -> nblk a <= nblk b.
Proof. intros Hle. unfold nblk. apply Z.div_le_mono; [done|lia]. Qed.

Lemma cost_mono a b : a <= b -> cost a <= cost b.
Proof. intros Hle. pose proof (nblk_mono a b Hle). unfold cost. destruct (NDIRECT <? nblk a) eqn:E1, (NDIRECT <? nblk b) eqn:E2; lia. Qed.

Lemma cost_step off n : 0 <= off -> 0 < n -> off mod BSIZE + n <= BSIZE ->
  cost (off + n) = cost off + (if bool_decide (off mod BSIZE = 0) then block_cost (off / BSIZE) else 0).
Proof.
  intros Ho Hn Hb. unfold cost, block_cost. rewrite nblk_then, nblk_now by done. case_bool_decide; [|lia].
  destruct (off / BSIZE =? NDIRECT) eqn:E1, (NDIRECT <? off / BSIZE + 1) eqn:E2, (NDIRECT <? off / BSIZE) eqn:E3; lia.
Qed.

Lemma same_meta_trans d1 d2 d3 : same_meta d1 d2 -> same_meta d2 d3 -> same_meta d1 d3.
Proof. unfold same_meta. intuition congruence. Qed.

Section loop.
Context `{HostFileLaws} (D : Z -> dinode) (fi i : Z) (Hi : 1 <= i < fi).

(** Inode [i], with [din] in memory, is a whole file. *)
Record whole (s : mst) (v : Z -> list Z) (F : Z -> list Z) (fb : Z) (din : dinode) : Prop := Whole {
  wh_at : at_ s v fi fb;
  wh_holds : holds v (upd D i din) F (nbf F) fi fb;
  wh_indirect : daddr din NDIRECT = 0 <-> nbf F i <= NDIRECT;
}.

(** One round of the loop. *)
Lemma iappend_round s v F fb din c : let off := Z.of_nat (length (F i)) in whole s v F fb din -> Forall byte_ok c -> 0 < Z.of_nat (length c) ->
  off mod BSIZE + Z.of_nat (length c) <= BSIZE -> off / BSIZE < NBLK -> fb + cost (off + Z.of_nat (length c)) - cost off <= FSSIZE ->
  exists s1 v1 din' a s2 s3 v3, iappend_block din (off / BSIZE) s = Ret (a, din') s1 /\ rsect a s1 = Ret (v1 a) s2 /\
    wsect a (put_bytes (v1 a) (off mod BSIZE) c) s2 = Ret tt s3 /\
    whole s3 v3 (upd F i (F i ++ c)) (fb + cost (off + Z.of_nat (length c)) - cost off) din' /\ same_low v v3 /\ same_meta din din'.
Proof using Hi.
  intros off [Ha Hh Hind] Hby Hpos Hfit Hmax Hroom. assert (Ho : 0 <= off) by (unfold off; lia). pose proof nmeta_eq as EM. pose proof (ho_free _ _ _ _ _ _ Hh) as Hf.
  assert (Hk : 0 <= off / BSIZE) by (by apply Z.div_pos). rewrite cost_step in Hroom |- * by done. set (k := off / BSIZE) in *. set (add := bool_decide (off mod BSIZE = 0)) in *.
  destruct (iappend_block_run D F fi i Hi s v (nbf F) fb k din add Ha Hh Hind) as (s1 & v1 & din' & E1 & [B1 B2 B3 B4 B5]); [lia|by apply nblk_now|destruct add; [lia|done]|].
  set (a := blk v1 din' k) in *. pose proof (blk_used _ _ _ _ _ _ i B2 Hi k) as Ra. rewrite !upd_eq in Ra. specialize (Ra ltac:(lia)). fold a in Ra.
  assert (Hfb : (if add then fb + block_cost k else fb) <= FSSIZE) by apply (ho_free _ _ _ _ _ _ B2).
  destruct (rsect_at s1 v1 _ _ a B1) as (s2 & E2 & Ha2); [lia|].
  destruct (wsect_at s2 v1 _ _ a (put_bytes (v1 a) (off mod BSIZE) c) Ha2) as (s3 & E3 & Ha3); [lia| |].
  { pose proof (at_length _ _ _ _ a B1 ltac:(lia)) as Hl. rewrite put_bytes_length; [done|apply Z.mod_pos_bound; done|rewrite Hl, Z2Nat.id; [done|by unfold BSIZE]]. }
  exists s1, v1, din', a, s2, s3, (put_block a (put_bytes (v1 a) (off mod BSIZE) c) v1). split; [done|]. split; [done|]. split; [done|]. split; [|split; [|done]].
  - replace (fb + (cost off + (if add then block_cost k else 0)) - cost off) with (if add then fb + block_cost k else fb) by (destruct add; lia).
    assert (Hlen : Z.of_nat (length (F i ++ c)) = off + Z.of_nat (length c)) by (rewrite length_app; unfold off; lia).
    split; [done| |].
    + pose proof (grow_bytes _ _ _ _ _ _ i B2 Hi c) as W. rewrite !upd_eq in W. fold off k a in W. eapply holds_ext; [|apply W; done]. intros j Hj.
      split; [done|]. split; [done|]. unfold nbf, upd. case_decide; [|done]. rewrite Hlen. symmetry. by apply nblk_then.
    + unfold nbf. rewrite upd_eq, Hlen, nblk_then by done. exact B3.
  - intros b Hb. rewrite put_block_ne by lia. by apply B4.
Qed.

Lemma iappend_loop_run fuel : forall p s v F fb din, let off := Z.of_nat (length (F i)) in let n := Z.of_nat (length p) in
  whole s v F fb din -> Forall byte_ok p -> off + n <= NBLK * BSIZE -> fb + cost (off + n) - cost off <= FSSIZE -> (length p < fuel)%nat ->
  exists s' v' din', iappend_loop fuel p n off din s = Ret (off + n, din') s' /\
    whole s' v' (upd F i (F i ++ p)) (fb + cost (off + n) - cost off) din' /\ same_low v v' /\ same_meta din din'.
Proof using Hi.
  induction fuel as [|fuel IH]; intros p s v F fb din off n Hw Hby Hmax Hroom Hfuel; [lia|]. cbn [iappend_loop]. assert (Ho : 0 <= off) by (unfold off; lia).
  pose proof NBLK_eq as EN. rewrite EN in Hmax. unfold BSIZE in Hmax. destruct (n >? 0) eqn:En.
  - pose proof (Z.mod_pos_bound off BSIZE ltac:(done)) as Hm. pose proof (Z.div_mod off BSIZE ltac:(done)) as Ed.
    set (k := off / BSIZE) in *. rewrite (proj2 (Z.ltb_lt k MAXFILE)) by (change MAXFILE with 2097163; unfold BSIZE in *; lia).
    rewrite (mk_bind_Ret _ _ _ _ _ (eq_refl : assert true s = Ret tt s)).
    assert (Em : u32 ((k + 1) * BSIZE - off) = BSIZE - off mod BSIZE) by (rewrite u32_id; unfold BSIZE in *; word_unfold; lia). rewrite Em.
    set (n1 := Z.min n (BSIZE - off mod BSIZE)). assert (Hn1 : 0 < n1 <= n) by lia. set (c := take (Z.to_nat n1) p).
    assert (Hc : Z.of_nat (length c) = n1) by (unfold c; rewrite length_take; lia).
    assert (Hroom1 : fb + cost (off + n1) - cost off <= FSSIZE) by (pose proof (cost_mono (off + n1) (off + n)); lia).
    destruct (iappend_round s v F fb din c Hw) as (s1 & v1 & din' & a & s2 & s3 & v3 & E1 & E2 & E3 & Hw3 & Hl3 & Hm3); fold off; fold k; rewrite ?Hc; [by apply Forall_take|lia|lia|unfold BSIZE in *; lia|lia|].
    fold off k in E1, E3, Hw3. rewrite Hc in Hw3. replace (off - k * BSIZE) with (off mod BSIZE) by lia.
    rewrite (mk_bind_Ret _ _ _ _ _ E1). cbn [fst snd]. rewrite (mk_bind_Ret _ _ _ _ _ E2), (mk_bind_Ret _ _ _ _ _ E3).
    rewrite (u32_id (off + n1)) by (word_unfold; lia). set (p' := drop (Z.to_nat n1) p). assert (Hp' : Z.of_nat (length p') = n - n1) by (unfold p'; rewrite length_drop; lia).
    assert (Hoff : Z.of_nat (length (upd F i (F i ++ c) i)) = off + n1) by (rewrite upd_eq, length_app; lia).
    destruct (IH p' s3 v3 (upd F i (F i ++ c)) _ din' Hw3) as (s' & v' & din'' & E & Hw' & Hl' & Hm'); rewrite ?Hoff, ?Hp'; [by apply Forall_drop|rewrite EN; unfold BSIZE; lia| |unfold p'; rewrite length_drop; lia|].
    { replace (off + n1 + (n - n1)) with (off + n) by lia. lia. }
    rewrite Hoff, Hp' in E, Hw'. replace (off + n1 + (n - n1)) with (off + n) in E, Hw' by lia.
    exists s', v', din''. split; [exact E|]. split; [|split; [|by eapply same_meta_trans]].
    + replace (fb + cost (off + n) - cost off) with (fb + cost (off + n1) - cost off + cost (off + n) - cost (off + n1)) by lia.
      assert (EF : forall j, upd (upd F i (F i ++ c)) i (upd F i (F i ++ c) i ++ p') j = upd F i (F i ++ p) j).
      { intros j. rewrite upd_eq. unfold upd. case_decide; [|done]. rewrite <- app_assoc. unfold c, p'. by rewrite take_drop. }
      destruct Hw' as [W1 W2 W3]. split; [done| |unfold nbf in *; by rewrite EF in W3].
      eapply holds_ext; [|exact W2]. intros j Hj. split; [done|]. unfold nbf. by rewrite EF.
    + intros b Hb. rewrite Hl' by done. by apply Hl3.
  - assert (p = []) as -> by (destruct p; [done|cbn in *; lia]). exists s, v, din. unfold n. cbn [length Z.of_nat]. rewrite Z.add_0_r. split; [done|]. split; [|done].
    replace (fb + cost off - cost off) with fb by lia. assert (EF : forall j, F j = upd F i (F i ++ []) j) by (intros j; unfold upd; case_decide; [subst; by rewrite app_nil_r|done]).
    destruct Hw as [W1 W2 W3]. split; [done| |unfold nbf in *; by rewrite <- EF].
    eapply holds_ext; [|exact W2]. intros j Hj. split; [done|]. unfold nbf. by rewrite <- EF.
Qed.
End loop.

(** ** The inode table *)

Definition stored (v : Z -> list Z) (D : Z -> dinode) (n : Z) : Prop :=
  forall i, 1 <= i < n -> read_dinode (v (IBLOCK i mkfs_sb)) (dip i) = D i.

Lemma IBLOCK_eq i : 0 <= i <= NINODES -> IBLOCK i mkfs_sb = 32 + i / 8 /\ 0 <= i / 8 <= 25 /\ dip i = i mod 8 * 60.
Proof.
  intros Hi. unfold IBLOCK, dip. change IPB with 8. change DINODE_SIZE with 60. change (sb_inodestart mkfs_sb) with 32. unfold NINODES in Hi.
  assert (0 <= i / 8 <= 25) by (Z.to_euclidean_division_equations; lia). rewrite u32_id by (word_unfold; lia). split; [lia|done].
Qed.

(** The block of inode [i] after the inode has been written. *)
Definition inode_put (i : Z) (d : dinode) (v : Z -> list Z) : Z -> list Z :=
  let b := IBLOCK i mkfs_sb in put_block b (put_bytes (v b) (dip i) (dinode_bytes d)) v.

Lemma stored_put v D n n' i d : stored v D n -> (forall j, 1 <= j < n' -> j <> i -> 1 <= j < n) -> n' <= NINODES + 1 -> 1 <= i <= NINODES -> dinode_ok d ->
  length (v (IBLOCK i mkfs_sb)) = Z.to_nat BSIZE -> stored (inode_put i d v) (upd D i d) n'.
Proof.
  intros Hs Hn Hn' Hi Hd Hl j Hj. unfold inode_put. destruct (IBLOCK_eq i ltac:(lia)) as (Eb & Rb & Eo). destruct (IBLOCK_eq j ltac:(lia)) as (Ebj & Rbj & Eoj).
  assert (Ho : 0 <= dip i <= 420) by (apply dip_range; lia).
  destruct (decide (j = i)) as [->|Hne].
  - rewrite put_block_eq, upd_eq. apply read_written; [done|lia|]. rewrite Hl. change DINODE_SIZE with 60. unfold BSIZE. lia.
  - rewrite upd_ne by done. destruct (decide (IBLOCK j mkfs_sb = IBLOCK i mkfs_sb)) as [E|E].
    + rewrite E, put_block_eq, read_other, <- E; [apply Hs; auto|apply Hd|lia|rewrite Hl; change DINODE_SIZE with 60; unfold BSIZE; lia| |].
      * rewrite Eoj. Z.to_euclidean_division_equations; lia.
      * change DINODE_SIZE with 60. rewrite Eo, Eoj. rewrite Eb, Ebj in E. clear -E Hne. Z.to_euclidean_division_equations; lia.
    + rewrite put_block_ne by done. apply Hs. auto.
Qed.

Section table.
Context `{HostFileLaws}.

Lemma winode_run s v fi fb i d : at_ s v fi fb -> 1 <= i <= NINODES -> dinode_ok d -> exists s', winode i d s = Ret tt s' /\ at_ s' (inode_put i d v) fi fb.
Proof using Type.
  intros Ha Hi Hd. destruct (IBLOCK_eq i ltac:(lia)) as (Eb & Rb & Eo). unfold winode, get. erewrite mk_bind_Ret by reflexivity. rewrite (a_sb _ _ _ _ Ha).
  assert (Hr : 0 <= IBLOCK i mkfs_sb < FSSIZE) by (rewrite Eb; unfold FSSIZE; lia).
  destruct (rsect_at s v fi fb _ Ha Hr) as (s1 & E1 & Ha1). rewrite (mk_bind_Ret _ _ _ _ _ E1). apply wsect_at; [done|done|].
  pose proof (at_length _ _ _ _ _ Ha Hr) as Hl. pose proof (dip_range i ltac:(lia)). pose proof (dinode_bytes_length d (dk_length _ Hd)) as Hlen. change DINODE_SIZE with 60 in Hlen.
  rewrite put_bytes_length; [done|lia|rewrite Hl; unfold BSIZE; lia].
Qed.

Lemma rinode_run s v D n fi fb i : at_ s v fi fb -> stored v D n -> 1 <= i < n -> n <= NINODES + 1 -> exists s', rinode i s = Ret (D i) s' /\ at_ s' v fi fb.
Proof using Type.
  intros Ha Hs Hi Hn. destruct (IBLOCK_eq i ltac:(lia)) as (Eb & Rb & Eo). unfold rinode, get. erewrite mk_bind_Ret by reflexivity. rewrite (a_sb _ _ _ _ Ha).
  assert (Hr : 0 <= IBLOCK i mkfs_sb < FSSIZE) by (rewrite Eb; unfold FSSIZE; lia).
  destruct (rsect_at s v fi fb _ Ha Hr) as (s1 & E1 & Ha1). rewrite (mk_bind_Ret _ _ _ _ _ E1). exists s1. split; [|done]. unfold mret, mk_ret. f_equal. by apply Hs.
Qed.

(** ** The image between two calls *)

Context (v0 : Z -> list Z).

(** Super block and bitmap are as in [v0]; there are [fi - 1] inodes, of types
    [K], with the files [F], and the blocks below [fb] are in use. *)
Record disk_at (s : mst) (v : Z -> list Z) (D : Z -> dinode) (F : Z -> list Z) (K : Z -> Z) (fi fb : Z) : Prop := DiskAt {
  da_at : at_ s v fi fb;
  da_holds : holds v D F (nbf F) fi fb;
  da_stored : stored v D fi;
  da_count : 1 <= fi <= NINODES + 1;
  da_size : forall i, 1 <= i < fi -> d_size (D i) = Z.of_nat (length (F i)) /\ Z.of_nat (length (F i)) <= NBLK * BSIZE;
  da_indirect : forall i, 1 <= i < fi -> (daddr (D i) NDIRECT = 0 <-> nbf F i <= NDIRECT);
  da_kind : forall i, 1 <= i < fi -> d_type (D i) = K i /\ -2 ^ 15 <= K i < 2 ^ 15 /\ d_major (D i) = 0 /\ d_minor (D i) = 0 /\ d_nlink (D i) = 1;
  da_fixed : forall b, b < 32 \/ 58 <= b < nmeta -> v b = v0 b;
}.
Definition disk (s : mst) (F : Z -> list Z) (K : Z -> Z) (fi fb : Z) : Prop := exists v D, disk_at s v D F K fi fb.

Lemma inode_put_ne i d v b : 1 <= i <= NINODES -> b < 32 \/ 58 <= b -> inode_put i d v b = v b.
Proof using Type. intros Hi Hb. destruct (IBLOCK_eq i ltac:(lia)) as (Eb & Rb & Eo). apply put_block_ne. lia. Qed.

Lemma disk_dinode s v D F K fi fb i : disk_at s v D F K fi fb -> 1 <= i < fi -> dinode_ok (D i).
Proof using Type.
  intros [K1 K2 K3 K4 K5 K6 K7 K8] Hi. destruct (K7 i Hi) as (E1 & E2 & E3 & E4 & E5). destruct (K5 i Hi) as [E6 E7]. rewrite NBLK_eq in E7. unfold BSIZE in E7.
  split; rewrite ?E1, ?E3, ?E4, ?E5, ?E6; [done|done|done|done|word_unfold; lia| |].
  - by apply (nb_range v D F (nbf F) fi fb i).
  - by apply (holds_uint v D F (nbf F) fi fb i).
Qed.

Lemma holds_inode v D F nb fi fb i d : holds v D F nb fi fb -> 1 <= i <= NINODES -> dinode_ok d -> holds (inode_put i d v) D F nb fi fb.
Proof using Type.
  intros Hh Hi Hd. destruct (IBLOCK_eq i ltac:(lia)) as (Eb & Rb & Eo). unfold inode_put.
  assert (Hl : length (v (IBLOCK i mkfs_sb)) = Z.to_nat BSIZE) by (apply (ho_length _ _ _ _ _ _ Hh); rewrite Eb; unfold FSSIZE; lia).
  apply holds_put; [done|rewrite Eb, nmeta_eq; lia|]. pose proof (dip_range i ltac:(lia)). pose proof (dinode_bytes_length d (dk_length _ Hd)) as Hlen. change DINODE_SIZE with 60 in Hlen.
  rewrite put_bytes_length; [done|lia|rewrite Hl; unfold BSIZE; lia].
Qed.

Lemma holds_same_addrs v D D' F nb fi fb : (forall i, 1 <= i < fi -> d_addrs (D' i) = d_addrs (D i)) -> holds v D F nb fi fb -> holds v D' F nb fi fb.
Proof using Type.
  intros E [H1 H2 H3 [own H4] H5]. assert (Ed : forall i k, 1 <= i < fi -> daddr (D' i) k = daddr (D i) k) by (intros i k Hi; unfold daddr; by rewrite E).
  assert (Eb : forall i k, 1 <= i < fi -> blk v (D' i) k = blk v (D i) k) by (intros i k Hi; unfold blk; by rewrite !Ed).
  split; try done.
  - exists own. intros i Hi. destruct (H4 i Hi) as [O1 O2 O3 O4 O5]. split; [done|by rewrite E| | |].
    + intros k Hk. rewrite Eb by done. by apply O3.
    + intros k Hk. rewrite Eb by done. by apply O4.
    + rewrite Ed by done. exact O5.
  - intros i x Hi Hx. unfold dbyte. rewrite Eb by done. by apply (H5 i x).
Qed.

(** Appending to a file. *)
Lemma iappend_run s F K fi fb i p : let off := Z.of_nat (length (F i)) in let n := Z.of_nat (length p) in
  disk s F K fi fb -> 1 <= i < fi -> Forall byte_ok p -> off + n <= NBLK * BSIZE -> fb + cost (off + n) - cost off <= FSSIZE ->
  exists s', iappend i p s = Ret tt s' /\ disk s' (upd F i (F i ++ p)) K fi (fb + cost (off + n) - cost off).
Proof using Type.
  intros off n (v & D & Hd) Hi Hby Hmax Hroom. pose proof (disk_dinode _ _ _ _ _ _ _ i Hd Hi) as Hok. destruct Hd as [K1 K2 K3 K4 K5 K6 K7 K8]. destruct (K5 i Hi) as [Esz _].
  destruct (rinode_run s v D fi fi fb i K1 K3 Hi ltac:(lia)) as (s1 & E1 & Ha1). unfold iappend. rewrite (mk_bind_Ret _ _ _ _ _ E1). fold n. cbv zeta. rewrite xint_id by apply Hok. rewrite Esz. fold off.
  assert (Hw : whole D fi i s1 v F fb (D i)).
  { split; [done| |by apply K6]. eapply holds_ext; [|exact K2]. intros j Hj. split; [|done]. unfold upd. by case_decide; subst. }
  destruct (iappend_loop_run D fi i Hi (S (length p)) p s1 v F fb (D i) Hw Hby Hmax Hroom ltac:(lia)) as (s2 & v2 & din & E2 & [W1 W2 W3] & Hlow & (M1 & M2 & M3 & M4 & M5)).
  fold off n in E2, W1, W2. rewrite (mk_bind_Ret _ _ _ _ _ E2). cbn [fst snd]. rewrite NBLK_eq in Hmax. unfold BSIZE in Hmax. rewrite xint_id by (word_unfold; lia).
  set (d := set_dsize (off + n) din). assert (Hdok : dinode_ok d).
  { destruct Hok as [D1 D2 D3 D4 D5 D6 D7]. unfold d, set_dsize. split; cbn [d_type d_major d_minor d_nlink d_size d_addrs]; rewrite ?M1, ?M2, ?M3, ?M4; [done..|word_unfold; lia| |].
    - pose proof (nb_range _ _ _ _ _ _ i W2 Hi) as [_ Hl]. by rewrite upd_eq in Hl.
    - pose proof (holds_uint _ _ _ _ _ _ i W2 Hi) as Hl. by rewrite upd_eq in Hl. }
  destruct (winode_run s2 v2 fi _ i d W1 ltac:(lia) Hdok) as (s3 & E3 & Ha3). exists s3. split; [exact E3|]. exists (inode_put i d v2), (upd D i d).
  assert (Hlen : Z.of_nat (length (F i ++ p)) = off + n) by (rewrite length_app; unfold off, n; lia).
  split; [done| | |done| | | |].
  - apply holds_inode; [|lia|done]. eapply holds_same_addrs; [|exact W2]. intros j Hj. unfold upd. by case_decide.
  - apply (stored_put v2 D fi); [|lia|lia|lia|done|].
    + intros j Hj. rewrite Hlow; [by apply K3|]. destruct (IBLOCK_eq j ltac:(lia)) as (Eb & Rb & _). rewrite nmeta_eq. lia.
    + apply (ho_length _ _ _ _ _ _ W2). destruct (IBLOCK_eq i ltac:(lia)) as (Eb & Rb & _). unfold FSSIZE. lia.
  - intros j Hj. unfold upd. case_decide; [|by apply K5]. cbn [d_size d set_dsize]. rewrite Hlen, NBLK_eq. unfold BSIZE. lia.
  - intros j Hj. unfold nbf, upd. case_decide; [|by apply K6]. unfold nbf in W3. rewrite upd_eq in W3. exact W3.
  - intros j Hj. unfold upd. case_decide; [|by apply K7]. subst j. cbn [d_type d_major d_minor d_nlink d set_dsize]. rewrite M1, M2, M3, M4. by apply K7.
  - intros b Hb. rewrite nmeta_eq in Hb. rewrite inode_put_ne by lia. rewrite Hlow by (rewrite nmeta_eq; lia). apply K8. rewrite nmeta_eq. lia.
Qed.
End table.

Section files.
Context `{HostFileLaws} (v0 : Z -> list Z).
Abbreviation disk := (disk v0).

Lemma disk_ext s F F' K K' fi fb : (forall i, 1 <= i < fi -> F i = F' i /\ K i = K' i) -> disk s F K fi fb -> disk s F' K' fi fb.
Proof using Type.
  intros E (v & D & [K1 K2 K3 K4 K5 K6 K7 K8]). assert (En : forall i, 1 <= i < fi -> nbf F i = nbf F' i) by (intros i Hi; unfold nbf; by destruct (E i Hi) as [-> _]).
  exists v, D. split; try done.
  - eapply holds_ext; [|exact K2]. intros i Hi. split; [done|]. split; [by apply E|by apply En].
  - intros i Hi. destruct (E i Hi) as [<- _]. by apply K5.
  - intros i Hi. rewrite <- En by done. by apply K6.
  - intros i Hi. destruct (E i Hi) as [_ <-]. by apply K7.
Qed.

Definition new_dinode (type : Z) : dinode := DInode type 0 0 1 0 (replicate (Z.to_nat (NDIRECT + 1)) 0).

Lemma new_dinode_ok type : -2 ^ 15 <= type < 2 ^ 15 -> dinode_ok (new_dinode type).
Proof using Type.
  intros Ht. split; cbn [d_type d_major d_minor d_nlink d_size d_addrs new_dinode]; try (word_unfold; lia); [done|].
  apply Forall_replicate. word_unfold. lia.
Qed.

Lemma new_blk v type k : 0 <= k -> blk v (new_dinode type) k = 0.
Proof using Type.
  intros Hk. assert (Ed : forall k, daddr (new_dinode type) k = 0).
  { intros k'. unfold daddr, new_dinode. cbn [d_addrs]. destruct (_ !! _) eqn:E; [|done]. by apply lookup_replicate in E as [-> _]. }
  unfold blk. rewrite !Ed. by destruct (k <? NDIRECT).
Qed.

(** A new inode, with an empty file. *)
Lemma ialloc_run s F K fi fb type : disk s F K fi fb -> fi <= NINODES -> 0 <= type < 2 ^ 15 ->
  exists s', ialloc type s = Ret fi s' /\ disk s' (upd F fi []) (upd K fi type) (fi + 1) fb.
Proof using Type.
  intros (v & D & [K1 K2 K3 K4 K5 K6 K7 K8]) Hfi Ht. unfold ialloc. pose proof (a_inode _ _ _ _ K1) as Ei.
  set (s1 := Mst (m_img s) (m_sb s) (u32 (fi + 1)) (m_freeblock s)).
  assert (E1 : next_inode s = Ret fi s1) by (unfold next_inode, s1; by rewrite Ei). rewrite (mk_bind_Ret _ _ _ _ _ E1).
  assert (Ha1 : at_ s1 v (fi + 1) fb).
  { destruct K1. split; try done. cbn. apply u32_id. unfold NINODES in *. word_unfold. lia. }
  assert (Ed : DInode (i16 (xshort type)) 0 0 (i16 (xshort 1)) (xint 0) (replicate (Z.to_nat (NDIRECT + 1)) 0) = new_dinode type).
  { unfold new_dinode. f_equal. rewrite xshort_id by lia. word. }
  rewrite Ed. pose proof (new_dinode_ok type ltac:(lia)) as Hok. set (d := new_dinode type) in *.
  destruct (winode_run s1 v (fi + 1) fb fi d Ha1 ltac:(lia) Hok) as (s2 & E2 & Ha2). rewrite (mk_bind_Ret _ _ _ _ _ E2). exists s2. split; [done|].
  exists (inode_put fi d v), (upd D fi d).
  assert (Hd0 : daddr d NDIRECT = 0) by reflexivity. assert (Hb0 : forall w k, 0 <= k -> blk w d k = 0) by (intros; by apply new_blk).
  split; [done| | |lia| | | |].
  - apply holds_inode; [|lia|done]. destruct K2 as [H1 H2 H3 [own H4] H5]. split; try done.
    + exists own. intros j Hj. unfold nbf, upd. case_decide as E; [|apply H4; lia]. subst j. split; [done|by apply Hok| | |done].
      * intros k Hk. change (nblk (Z.of_nat (length []))) with 0 in Hk. lia.
      * intros k Hk. change (nblk (Z.of_nat (length []))) with 0 in Hk. apply Hb0. lia.
    + intros j x Hj Hx. unfold upd. case_decide as E; [|apply H5; lia]. unfold dbyte. rewrite Hb0 by (pose proof (div_block x Hx); lia). done.
  - apply (stored_put v D fi); [done|lia|lia|lia|done|]. apply (ho_length _ _ _ _ _ _ K2). destruct (IBLOCK_eq fi ltac:(lia)) as (Eb & Rb & _). unfold FSSIZE. lia.
  - intros j Hj. unfold upd. case_decide; [|apply K5; lia]. rewrite NBLK_eq. done.
  - intros j Hj. unfold nbf, upd. case_decide; [|apply K6; lia]. split; done.
  - intros j Hj. unfold upd. case_decide; [|apply K7; lia]. cbn. lia.
  - intros b Hb. rewrite inode_put_ne by lia. by apply K8.
Qed.

(** The contents of a file, piece by piece. *)
Lemma copy_reads_run reads : forall s F K fi fb i, let off := Z.of_nat (length (F i)) in let n := Z.of_nat (length (concat reads)) in
  disk s F K fi fb -> 1 <= i < fi -> Forall (Forall byte_ok) reads -> off + n <= NBLK * BSIZE -> fb + cost (off + n) - cost off <= FSSIZE ->
  exists s', copy_reads i reads s = Ret tt s' /\ disk s' (upd F i (F i ++ concat reads)) K fi (fb + cost (off + n) - cost off).
Proof using Type.
  induction reads as [|buf reads IH]; intros s F K fi fb i off n Hd Hi Hby Hmax Hroom; cbn [copy_reads].
  - exists s. split; [done|]. unfold n. cbn [concat length Z.of_nat]. change (Z.of_nat 0) with 0. rewrite Z.add_0_r. replace (fb + cost off - cost off) with fb by lia. eapply disk_ext; [|exact Hd].
    intros j Hj. split; [|done]. unfold upd. case_decide; [subst; by rewrite app_nil_r|done].
  - assert (En : n = Z.of_nat (length buf) + Z.of_nat (length (concat reads))) by (unfold n; cbn [concat]; rewrite length_app; lia).
    apply Forall_cons in Hby as [Hb Hby]. pose proof (cost_mono (off + Z.of_nat (length buf)) (off + n)) as Hm.
    destruct (iappend_run v0 s F K fi fb i buf Hd Hi Hb) as (s1 & E1 & Hd1); fold off; [lia|lia|]. fold off in Hd1. rewrite (mk_bind_Ret _ _ _ _ _ E1).
    set (F1 := upd F i (F i ++ buf)) in *. assert (Hoff : Z.of_nat (length (F1 i)) = off + Z.of_nat (length buf)) by (unfold F1; rewrite upd_eq, length_app; unfold off; lia).
    destruct (IH s1 F1 K fi _ i Hd1 Hi Hby) as (s2 & E2 & Hd2); rewrite ?Hoff; [lia|rewrite <- Z.add_assoc, <- En; lia|]. rewrite Hoff, <- Z.add_assoc, <- En in Hd2.
    exists s2. split; [exact E2|]. replace (fb + cost (off + n) - cost off) with (fb + cost (off + Z.of_nat (length buf)) - cost off + cost (off + n) - cost (off + Z.of_nat (length buf))) by lia.
    eapply disk_ext; [|exact Hd2]. intros j Hj. split; [|done]. unfold F1. rewrite upd_eq. unfold upd. case_decide; [|done]. cbn [concat]. by rewrite app_assoc.
Qed.

(** *** The files to copy *)

Definition input := (list Z * list (list Z))%type.
Definition file_name (arg : list Z) : list Z := if byte_at arg 0 =? 95 then drop 1 arg else arg.
Definition dir_entry (inum : Z) (arg : list Z) : list Z := mk_dirent inum (take (Z.to_nat DIRSIZ) (file_name arg)).
Definition contents (f : input) : list Z := concat (snd f).
Definition content_size (f : input) : Z := Z.of_nat (length (contents f)).

(** A file that mkfs can copy. *)
Record input_ok (f : input) : Prop := InputOk {
  in_open : h_input (fst f) = Some (snd f);
  in_name : slash ∉ fst f;
  in_bytes : Forall (Forall byte_ok) (snd f);
  in_size : content_size f <= NBLK * BSIZE;
}.

(** The directory entries, and the blocks the contents take. *)
Fixpoint entries (inum : Z) (files : list input) : list Z :=
  match files with [] => [] | f :: files' => dir_entry inum (fst f) ++ entries (inum + 1) files' end.
Fixpoint content_cost (files : list input) : Z :=
  match files with [] => 0 | f :: files' => cost (content_size f) + content_cost files' end.

Definition with_files (F : Z -> list Z) (fi : Z) (files : list input) (i : Z) : list Z :=
  if decide (i = ROOTINO) then F i ++ entries fi files
  else if decide (fi <= i) then default [] (contents <$> files !! Z.to_nat (i - fi)) else F i.
Definition with_kinds (K : Z -> Z) (fi i : Z) : Z := if decide (fi <= i) then T_FILE else K i.

Lemma mk_dirent_length inum name : (length name <= 14)%nat -> length (mk_dirent inum name) = 16%nat.
Proof using Type. intros Hn. unfold mk_dirent. rewrite put_bytes_length; rewrite ?put16_length, ?length_replicate; [done|lia|lia]. Qed.

Lemma put_bytes_bytes l o v : Forall byte_ok l -> Forall byte_ok (put_bytes l o v).
Proof using Type.
  unfold put_bytes. generalize (zip (seqZ 0 (Z.of_nat (length v))) v). intros zs. revert l. induction zs as [|[j y] zs IH]; intros l Hl; [done|]. cbn [foldl]. apply IH.
  unfold put8. apply Forall_insert; [done|]. apply u8_range.
Qed.

Lemma mk_dirent_ok inum name : Forall byte_ok (mk_dirent inum name).
Proof using Type.
  unfold mk_dirent. apply put_bytes_bytes. unfold put16, put8. do 2 (apply Forall_insert; [|apply u8_range]). apply Forall_replicate. word_unfold. lia.
Qed.

Lemma dir_entry_length inum arg : Z.of_nat (length (dir_entry inum arg)) = 16.
Proof using Type. unfold dir_entry. rewrite mk_dirent_length; [done|]. rewrite length_take. unfold DIRSIZ. lia. Qed.

Lemma entries_length files : forall inum, Z.of_nat (length (entries inum files)) = 16 * Z.of_nat (length files).
Proof using Type. induction files as [|f files IH]; intros inum; [done|]. cbn [entries length]. rewrite length_app, Nat2Z.inj_add, dir_entry_length, IH. lia. Qed.

Lemma cost_nonneg n : 0 <= n -> 0 <= cost n.
Proof using Type. intros Hn. unfold cost, nblk. assert (0 <= (n + BSIZE - 1) / BSIZE) by (apply Z.div_pos; [unfold BSIZE; lia|done]). destruct (_ <? _); lia. Qed.

Lemma content_cost_nonneg files : 0 <= content_cost files.
Proof using Type. induction files as [|f files IH]; [done|]. cbn [content_cost]. pose proof (cost_nonneg (content_size f)). unfold content_size in *. lia. Qed.

(** The loop over the arguments. *)
Lemma add_files_run files : forall s F K fi fb, let off := Z.of_nat (length (F ROOTINO)) in let n := 16 * Z.of_nat (length files) in
  disk s F K fi fb -> ROOTINO < fi -> fi + Z.of_nat (length files) <= NINODES + 1 -> Forall input_ok files -> off + n <= NBLK * BSIZE ->
  fb + cost (off + n) - cost off + content_cost files <= FSSIZE ->
  exists s', add_files ROOTINO (fst <$> files) s = Ret tt s' /\
    disk s' (with_files F fi files) (with_kinds K fi) (fi + Z.of_nat (length files)) (fb + cost (off + n) - cost off + content_cost files).
Proof using Type.
  induction files as [|f files IH]; intros s F K fi fb off n Hd Hroot Hcnt Hin Hmax Hroom; cbn [add_files fmap list_fmap].
  - exists s. split; [done|]. unfold n. cbn [length Z.of_nat content_cost]. rewrite Z.mul_0_r, !Z.add_0_r. replace (fb + cost off - cost off) with fb by lia.
    eapply disk_ext; [|exact Hd]. intros i Hi. unfold with_files, with_kinds. rewrite !(decide_False (P := fi <= i)) by lia. case_decide; [by rewrite app_nil_r|done].
  - apply Forall_cons in Hin as [[I1 I2 I3 I4] Hin]. unfold n in *. cbn [length] in Hcnt, Hmax, Hroom |- *. cbn [content_cost] in Hroom |- *. set (m := Z.of_nat (length files)) in *.
    pose proof (content_cost_nonneg files) as Hcc. pose proof (cost_mono (off + 16) (off + 16 * Z.of_nat (S (length files))) ltac:(lia)) as Hm.
    pose proof (cost_nonneg (content_size f) ltac:(unfold content_size; lia)) as Hcf. unfold ROOTINO in Hroot.
    rewrite (bool_decide_true _ I2). rewrite (mk_bind_Ret _ _ _ _ _ (eq_refl : assert true s = Ret tt s)), I1. fold (file_name (fst f)).
    destruct (ialloc_run s F K fi fb T_FILE Hd ltac:(lia) ltac:(done)) as (s1 & E1 & Hd1). rewrite (mk_bind_Ret _ _ _ _ _ E1).
    rewrite xshort_id by (unfold NINODES in *; lia). fold (dir_entry fi (fst f)). set (F1 := upd F fi []) in *. assert (ER : F1 ROOTINO = F ROOTINO) by (apply upd_ne; unfold ROOTINO; lia).
    destruct (iappend_run v0 s1 F1 _ (fi + 1) fb ROOTINO (dir_entry fi (fst f)) Hd1) as (s2 & E2 & Hd2); rewrite ?ER, ?dir_entry_length; fold off; [unfold ROOTINO; lia|apply mk_dirent_ok|lia|lia|].
    rewrite ER, dir_entry_length in Hd2. fold off in Hd2. rewrite (mk_bind_Ret _ _ _ _ _ E2). set (F2 := upd F1 ROOTINO _) in *.
    assert (E2f : F2 fi = []) by (unfold F2, F1; rewrite upd_ne by (unfold ROOTINO; lia); apply upd_eq).
    assert (Hz : cost 0 = 0) by reflexivity.
    destruct (copy_reads_run (snd f) s2 F2 _ (fi + 1) _ fi Hd2) as (s3 & E3 & Hd3); rewrite ?E2f; [lia|done|done|change (Z.of_nat (length (@nil Z))) with 0; rewrite Z.add_0_l, Hz; unfold content_size, contents in *; lia|].
    rewrite E2f in Hd3. change (Z.of_nat (length (@nil Z))) with 0 in Hd3. cbn [app] in Hd3. rewrite Z.add_0_l, Hz in Hd3. fold (contents f) in Hd3. fold (content_size f) in Hd3. rewrite (mk_bind_Ret _ _ _ _ _ E3). set (F3 := upd F2 fi (contents f)) in *.
    assert (ER3 : F3 ROOTINO = F ROOTINO ++ dir_entry fi (fst f)) by (unfold F3, F2; rewrite upd_ne by (unfold ROOTINO; lia); apply upd_eq).
    assert (EL : Z.of_nat (length (F3 ROOTINO)) = off + 16) by (rewrite ER3, length_app, Nat2Z.inj_add, dir_entry_length; done).
    replace (off + 16 * Z.of_nat (S (length files))) with (off + 16 + 16 * m) in * by (unfold m; lia).
    destruct (IH s3 F3 _ (fi + 1) _ Hd3) as (s4 & E4 & Hd4); rewrite ?EL; fold m; [unfold ROOTINO; lia|lia|done|lia|lia|]. exists s4. split; [exact E4|]. rewrite EL in Hd4. fold m in Hd4.
    replace (fi + Z.of_nat (S (length files))) with (fi + 1 + m) by (unfold m; lia).
    replace (fb + cost (off + 16 + 16 * m) - cost off + (cost (content_size f) + content_cost files)) with
      (fb + cost (off + 16) - cost off + cost (content_size f) - 0 + cost (off + 16 + 16 * m) - cost (off + 16) + content_cost files) by lia.
    eapply disk_ext; [|exact Hd4]. intros i Hi. split.
    + unfold with_files. destruct (decide (i = ROOTINO)) as [->|Hne]; [rewrite ER3; cbn [entries]; by rewrite app_assoc|]. destruct (decide (fi <= i)) as [Hle|Hlt].
      * destruct (decide (i = fi)) as [->|Hnf].
        -- rewrite decide_False by lia. unfold F3. rewrite upd_eq. by rewrite Z.sub_diag.
        -- rewrite decide_True by lia. replace (Z.to_nat (i - fi)) with (S (Z.to_nat (i - (fi + 1)))) by lia. done.
      * rewrite decide_False by lia. unfold F3, F2, F1. rewrite !upd_ne by lia. done.
    + unfold with_kinds, upd. repeat case_decide; subst; lia || done.
Qed.
End files.

(** ** The whole image *)

(** The inode [inum] as [ilock] reads it, and the bytes of its file as the
    blocks that [bmap] finds have them. *)
Definition on_disk (v : Z -> list Z) (inum : Z) : inode :=
  loaded (v (IBLOCK inum mkfs_sb)) (Inode ROOTDEV inum 1 (SleepLock false 0) false 0 0 0 0 0 []).
Definition mapped (v : Z -> list Z) (ip : inode) (k : Z) : Z :=
  if k <? NDIRECT then addr_of ip k
  else if addr_of ip NDIRECT =? 0 then 0 else get32 (v (addr_of ip NDIRECT)) (4 * (k - NDIRECT)).
Definition inode_byte (v : Z -> list Z) (ip : inode) (x : Z) : Z :=
  let a := mapped v ip (x / BSIZE) in if a =? 0 then 0 else byte_at (v a) (x mod BSIZE).

Lemma inode_byte_direct v ip x : x < NDIRECT * BSIZE -> inode_byte v ip x = file_byte v ip x.
Proof.
  intros Hx. unfold inode_byte, file_byte, mapped. rewrite (proj2 (Z.ltb_lt _ _)); [done|]. unfold NDIRECT, BSIZE in *. Z.to_euclidean_division_equations; lia.
Qed.

Lemma on_disk_dinode v i d : read_dinode (v (IBLOCK i mkfs_sb)) (dip i) = d ->
  let ip := on_disk v i in i_inum ip = i /\ i_type ip = d_type d /\ i_nlink ip = d_nlink d /\ i_size ip = d_size d /\
  (forall k, 0 <= k <= NDIRECT -> addr_of ip k = daddr d k).
Proof.
  intros <-. cbn. split; [done|]. split; [done|]. split; [done|]. split; [done|]. intros k Hk. unfold addr_of, daddr, on_disk, loaded, read_dinode. cbn [i_addrs set_i_addrs d_addrs i_inum].
  unfold read_addrs. rewrite !list_lookup_fmap. unfold NDIRECT in *. by rewrite !lookup_seqZ_lt by lia.
Qed.

Lemma on_disk_byte v i d x : read_dinode (v (IBLOCK i mkfs_sb)) (dip i) = d -> 0 <= x -> inode_byte v (on_disk v i) x = dbyte v d x.
Proof.
  intros Hd Hx. destruct (on_disk_dinode v i d Hd) as (_ & _ & _ & _ & Ha). unfold inode_byte, dbyte, mapped, blk.
  assert (0 <= x / BSIZE) by (by apply Z.div_pos). rewrite (Ha NDIRECT) by (unfold NDIRECT; lia). destruct (x / BSIZE <? NDIRECT) eqn:E; [|done]. by rewrite Ha by lia.
Qed.

Definition dots : list Z := mk_dirent ROOTINO [46] ++ mk_dirent ROOTINO [46; 46].
Definition root_bytes (files : list input) : list Z := dots ++ entries 2 files.
Definition dir_size (files : list input) : Z := 16 * (2 + Z.of_nat (length files)).
Definition used (files : list input) : Z := nmeta + cost (dir_size files) + content_cost files.

(** The image of [files] as the kernel finds it. *)
Record image (v : Z -> list Z) (files : list input) : Prop := Image {
  im_super : decode_sb (v 1) = mkfs_sb;
  im_log : forall b, 2 <= b < 32 -> v b = zero_block;
  im_bitmap : forall b, 0 <= b < FSSIZE -> in_use mkfs_sb v b = (b <? used files);
  im_root : i_type (on_disk v ROOTINO) = T_DIR /\ i_nlink (on_disk v ROOTINO) = 1 /\
    i_size (on_disk v ROOTINO) = (dir_size files / BSIZE + 1) * BSIZE /\
    forall x, 0 <= x < i_size (on_disk v ROOTINO) -> file_byte v (on_disk v ROOTINO) x = byte_at (root_bytes files) x;
  im_files : forall k f, files !! k = Some f -> let ip := on_disk v (2 + Z.of_nat k) in
    i_type ip = T_FILE /\ i_nlink ip = 1 /\ i_size ip = content_size f /\
    forall x, 0 <= x < content_size f -> inode_byte v ip x = byte_at (contents f) x;
}.

Lemma used_bits_spec n : forall m, 0 <= m -> m + Z.of_nat n <= BPB -> forall d, length d = Z.to_nat BSIZE ->
  length (foldl set_bit d (seqZ m (Z.of_nat n))) = Z.to_nat BSIZE /\
  forall b, 0 <= b -> bit_of (foldl set_bit d (seqZ m (Z.of_nat n))) b = bool_decide (m <= b < m + Z.of_nat n) || bit_of d b.
Proof.
  induction n as [|n IH]; intros m Hm Hn d Hl.
  - cbn. split; [done|]. intros b Hb. by rewrite bool_decide_false by lia.
  - rewrite seqZ_cons by lia. cbn [foldl]. replace (Z.pred (Z.of_nat (S n))) with (Z.of_nat n) by lia. change BPB with 4096 in *.
    destruct (IH (Z.succ m)) with (d := set_bit d m) as [IH1 IH2]; [lia|lia|unfold set_bit; by rewrite put8_length|]. split; [done|].
    assert (Hm8 : m / 8 < Z.of_nat (length d)) by (rewrite Hl; unfold BSIZE; Z.to_euclidean_division_equations; lia).
    intros b Hb. rewrite IH2, bit_of_set by done.
    repeat case_bool_decide; try lia; done.
Qed.

Lemma used_bits_bit n b : 0 <= n <= BPB -> 0 <= b -> length (used_bits n) = Z.to_nat BSIZE /\ bit_of (used_bits n) b = (b <? n).
Proof.
  intros Hn Hb. unfold used_bits. rewrite <- (Z2Nat.id n) by lia. destruct (used_bits_spec (Z.to_nat n) 0 ltac:(lia) ltac:(lia) zero_block) as [E1 E2]; [done|].
  split; [done|]. rewrite E2 by done. rewrite bit_of_testbit, zero_block_byte, Z.bits_0, orb_false_r by done. symmetry. case_bool_decide; [apply Z.ltb_lt|apply Z.ltb_ge]; lia.
Qed.

(** Only the sectors of the disk matter. *)
Lemma holds_agree v v' D F nb fi fb : (forall b, 0 <= b < FSSIZE -> v b = v' b) -> holds v D F nb fi fb -> holds v' D F nb fi fb.
Proof.
  intros E Hh. pose proof nmeta_eq as EM. pose proof (ho_free _ _ _ _ _ _ Hh) as Hf.
  assert (Eb : forall i k, 1 <= i < fi -> blk v' (D i) k = blk v (D i) k).
  { intros i k Hi. unfold blk. destruct (k <? NDIRECT); [done|]. destruct (daddr (D i) NDIRECT =? 0) eqn:Ed; [done|].
    pose proof (indirect_used v D F nb fi fb i Hh Hi ltac:(lia)). by rewrite E by lia. }
  destruct Hh as [H1 H2 H3 [own H4] H5]. split; [intros b Hb; rewrite <- E by done; by apply H1|intros b Hb; rewrite <- E by lia; by apply H2|done| |].
  - exists own. intros i Hi. destruct (H4 i Hi) as [O1 O2 O3 O4 O5]. split; try done.
    + intros k Hk. rewrite Eb by done. by apply O3.
    + intros k Hk. rewrite Eb by done. by apply O4.
  - intros i x Hi Hx. rewrite <- H5 by done. unfold dbyte. rewrite Eb by done. destruct (_ =? 0) eqn:Ez; [done|].
    destruct (owns_place _ _ _ _ _ _ _ _ (H4 i Hi) (div_block x Hx) eq_refl); [lia|]. by rewrite E by lia.
Qed.

Section image.
Context `{HostFileLaws}.

Lemma zero_sectors_run n : forall s i, 0 <= i -> i + Z.of_nat n <= FSSIZE -> (forall b, 0 <= b < i -> sector (m_img s) b = zero_block) ->
  (0 < i -> BSIZE * i <= f_size (m_img s)) ->
  exists h', zero_sectors n i s = Ret tt (Mst h' (m_sb s) (m_freeinode s) (m_freeblock s)) /\
    (forall b, 0 <= b < i + Z.of_nat n -> sector h' b = zero_block) /\ (0 < i + Z.of_nat n -> BSIZE * (i + Z.of_nat n) <= f_size h').
Proof using Type.
  induction n as [|n IH]; intros s i Hi Hn Hz Hs.
  - exists (m_img s). cbn [zero_sectors]. rewrite Z.add_0_r. split; [by destruct s|]. split; [|done]. exact Hz.
  - cbn [zero_sectors]. destruct (wsect_write s i zero_block) as (h1 & E1 & Hv & Hsz); [lia|done|]. rewrite (mk_bind_Ret _ _ _ _ _ E1).
    destruct (IH (Mst h1 (m_sb s) (m_freeinode s) (m_freeblock s)) (i + 1)) as (h' & E & Hv' & Hs'); [lia|lia| | |].
    + intros b Hb. cbn [m_img]. rewrite Hv by lia. unfold put_block. case_decide; [done|]. apply Hz. lia.
    + intros _. cbn [m_img]. lia.
    + exists h'. split; [exact E|]. replace (i + Z.of_nat (S n)) with (i + 1 + Z.of_nat n) by lia. done.
Qed.

(** An empty image with its super block. *)
Definition sb_block : list Z := put_bytes zero_block 0 (concat (word_bytes <$> sb_fields mkfs_sb)).
Definition start : Z -> list Z := put_block 1 sb_block (fun _ => zero_block).

Lemma sb_block_decode : length sb_block = Z.to_nat BSIZE /\ decode_sb sb_block = mkfs_sb.
Proof using Type. split; vm_compute; reflexivity. Qed.

Lemma start_disk s : at_ s start 1 nmeta -> disk start s (fun _ => []) (fun _ => 0) 1 nmeta.
Proof using Type.
  intros Ha. exists start, (fun _ => new_dinode 0). split; [done| |intros i Hi; lia|unfold NINODES; lia|intros i Hi; lia..|done].
  split; [| | | |intros; lia].
  - intros b Hb. by apply (at_length _ _ _ _ _ Ha).
  - intros b Hb. rewrite nmeta_eq in Hb. unfold start. by rewrite put_block_ne by lia.
  - rewrite nmeta_eq. unfold FSSIZE. lia.
  - exists (fun _ => (0, 0)). intros; lia.
Qed.

(** The image when [main] ends: [D] are the inodes, the root's with its size
    rounded up. *)
Record finished (h : host) (D : Z -> dinode) (F : Z -> list Z) (K : Z -> Z) (fi fb : Z) : Prop := Finished {
  fn_holds : holds (sector h) D F (nbf F) fi fb;
  fn_stored : stored (sector h) D fi;
  fn_kind : forall i, 1 <= i < fi -> d_type (D i) = K i /\ d_nlink (D i) = 1;
  fn_size : forall i, 1 <= i < fi -> d_size (D i) = let n := Z.of_nat (length (F i)) in if decide (i = ROOTINO) then (n / BSIZE + 1) * BSIZE else n;
  fn_fixed : forall b, 0 <= b < 32 \/ 58 <= b < nmeta -> sector h b = if decide (b = 58) then used_bits fb else start b;
}.

Lemma finish_run s F K fi fb : disk start s F K fi fb -> ROOTINO < fi -> fb < BPB ->
  exists h' D, (din ← rinode ROOTINO;
    let off := xint (d_size din) in
    let off := u32 ((off / BSIZE + 1) * BSIZE) in
    winode ROOTINO (set_dsize (xint off) din);;
    used ← get m_freeblock;
    balloc (i32 used);;
    exit (A := unit) 0) s = Exited 0 (Some h') /\ finished h' D F K fi fb.
Proof using Type.
  intros (v & D & Hd) Hr Hfb. change ROOTINO with 1 in *. pose proof (disk_dinode _ _ _ _ _ _ _ _ 1 Hd ltac:(lia)) as Hok. destruct Hd as [K1 K2 K3 K4 K5 K6 K7 K8].
  destruct (rinode_run s v D fi fi fb 1 K1 K3 ltac:(lia) ltac:(lia)) as (s1 & E1 & Ha1). rewrite (mk_bind_Ret _ _ _ _ _ E1). cbv zeta.
  destruct (K5 1 ltac:(lia)) as [Esz Hsz]. rewrite (xint_id (d_size (D 1))) by apply Hok. rewrite Esz. set (n := Z.of_nat (length (F 1))) in *. set (m := (n / BSIZE + 1) * BSIZE).
  assert (Hm : 0 <= m < 2 ^ 20) by (unfold m; rewrite NBLK_eq in Hsz; unfold BSIZE in *; change (2 ^ 20) with 1048576; Z.to_euclidean_division_equations; lia).
  change (2 ^ 20) with 1048576 in Hm. rewrite (u32_id m), xint_id by (word_unfold; lia). set (d := set_dsize m (D 1)).
  assert (Hdok : dinode_ok d) by (destruct Hok; split; try done; cbn; word_unfold; lia).
  destruct (winode_run s1 v fi fb 1 d Ha1 ltac:(unfold NINODES; lia) Hdok) as (s2 & E2 & Ha2). rewrite (mk_bind_Ret _ _ _ _ _ E2).
  unfold get at 1. erewrite mk_bind_Ret by reflexivity. rewrite (a_block _ _ _ _ Ha2). pose proof (ho_free _ _ _ _ _ _ K2) as Hf. pose proof nmeta_eq as EM.
  change BPB with 4096 in Hfb. replace (i32 fb) with fb by word.
  unfold balloc. change (BSIZE * 8) with 4096. rewrite (proj2 (Z.ltb_lt fb 4096)) by lia.
  assert (E3 : exists s3, (assert true;; sb ← get m_sb; wsect (sb_bmapstart sb) (used_bits fb)) s2 = Ret tt s3 /\ at_ s3 (put_block 58 (used_bits fb) (inode_put 1 d v)) fi fb).
  { erewrite mk_bind_Ret by reflexivity. unfold get. erewrite mk_bind_Ret by reflexivity. rewrite (a_sb _ _ _ _ Ha2). apply wsect_at; [done|done|]. apply (used_bits_bit fb 0); change BPB with 4096; lia. }
  destruct E3 as (s3 & E3 & Ha3). rewrite (mk_bind_Ret _ _ _ _ _ E3). exists (m_img s3), (upd D 1 d). split; [done|].
  set (v3 := put_block _ _ _) in *. assert (Ev : forall b, 0 <= b < FSSIZE -> v3 b = sector (m_img s3) b) by (intros b Hb; symmetry; by apply (a_sector _ _ _ _ Ha3)).
  split.
  - apply (holds_agree v3); [done|]. apply holds_put; [|lia|apply (used_bits_bit fb 0); change BPB with 4096; lia]. apply holds_inode; [|unfold NINODES; lia|done].
    eapply holds_same_addrs; [|exact K2]. intros i Hi. unfold upd. case_decide; [by subst|done].
  - intros i Hi. destruct (IBLOCK_eq i ltac:(lia)) as (Eb & Rb & _). rewrite <- Ev by (unfold FSSIZE; lia). unfold v3. rewrite put_block_ne by lia.
    apply (stored_put v D fi fi); [done|lia|lia|unfold NINODES; lia|done| |done]. apply (ho_length _ _ _ _ _ _ K2). by vm_compute.
  - intros i Hi. destruct (K7 i Hi) as (? & ? & ? & ? & ?). unfold upd. case_decide; [by subst i|done].
  - intros i Hi. change ROOTINO with 1. unfold upd. destruct (decide (i = 1)) as [->|]; [done|by apply K5].
  - intros b Hb. rewrite <- Ev by (unfold FSSIZE; lia). unfold v3, put_block. case_decide; [done|]. rewrite inode_put_ne by (unfold NINODES; lia). apply K8. lia.
Qed.
End image.

Section mkfs.
Context `{HostFileLaws}.

(** The empty image. *)
Lemma format_run s : m_sb s = mkfs_sb -> m_freeinode s = 1 -> m_freeblock s = nmeta ->
  exists s1, zero_sectors (Z.to_nat FSSIZE) 0 s = Ret tt s1 /\ at_ s1 (fun _ => zero_block) 1 nmeta.
Proof using Type.
  intros E1 E2 E3. assert (HF : Z.of_nat (Z.to_nat FSSIZE) = FSSIZE) by (rewrite Z2Nat.id; [done|unfold FSSIZE; lia]).
  destruct (zero_sectors_run (Z.to_nat FSSIZE) s 0) as (h' & E & Hv & Hs); rewrite ?HF; [done|lia|intros; lia|lia|]. rewrite HF in Hv, Hs.
  eexists. split; [exact E|]. split; cbn [m_img m_sb m_freeinode m_freeblock]; [|done..]. unfold FSSIZE, BSIZE in *. lia.
Qed.

Lemma fill_run files s : at_ s start 1 nmeta -> Forall input_ok files -> 2 + Z.of_nat (length files) <= NINODES -> used files < BPB ->
  exists s1 s2 s3 s4 F K, ialloc T_DIR s = Ret ROOTINO s1 /\ iappend ROOTINO (mk_dirent (xshort ROOTINO) [46]) s1 = Ret tt s2 /\
    iappend ROOTINO (mk_dirent (xshort ROOTINO) [46; 46]) s2 = Ret tt s3 /\ add_files ROOTINO (fst <$> files) s3 = Ret tt s4 /\
    disk start s4 F K (2 + Z.of_nat (length files)) (used files) /\
    F ROOTINO = root_bytes files /\ K ROOTINO = T_DIR /\ (forall k, 2 <= k -> F k = default [] (contents <$> files !! Z.to_nat (k - 2)) /\ K k = T_FILE).
Proof using Type.
  intros Ha Hin Hcnt Hfit. rewrite xshort_id by (unfold ROOTINO; lia). unfold NINODES in Hcnt. change BPB with 4096 in Hfit. pose proof (content_cost_nonneg files) as Hcc.
  assert (Hbig : 4096 < FSSIZE) by (unfold FSSIZE; lia). set (n := Z.of_nat (length files)) in *. unfold used, dir_size in *. fold n in Hfit |- *. rewrite nmeta_eq in Hfit.
  pose proof (cost_mono 32 (16 * (2 + n)) ltac:(lia)) as Hc. assert (Hdir : 16 * (2 + n) <= NBLK * BSIZE) by (rewrite NBLK_eq; unfold BSIZE; lia).
  destruct (ialloc_run start s _ _ 1 nmeta T_DIR (start_disk s Ha)) as (s1 & E1 & Hd1); [done|done|]. set (F1 := upd _ 1 []) in Hd1.
  assert (Hl1 : Z.of_nat (length (mk_dirent ROOTINO [46])) = 16) by reflexivity. assert (Hl2 : Z.of_nat (length (mk_dirent ROOTINO [46; 46])) = 16) by reflexivity.
  change (cost 32) with 1 in Hc. assert (Hc1 : cost (0 + 16) = 1) by reflexivity. assert (Hc2 : cost (16 + 16) = 1) by reflexivity. assert (Hc0 : cost 0 = 0) by reflexivity.
  destruct (iappend_run start s1 F1 _ (1 + 1) nmeta ROOTINO (mk_dirent ROOTINO [46]) Hd1) as (s2 & E2 & Hd2); change (Z.of_nat (length (F1 ROOTINO))) with 0; rewrite ?Hl1, ?Hc0, ?Hc1; [unfold ROOTINO; lia|apply mk_dirent_ok|lia|rewrite nmeta_eq; lia|].
  change (Z.of_nat (length (F1 ROOTINO))) with 0 in Hd2. rewrite Hl1, Hc0, Hc1 in Hd2. set (F2 := upd F1 ROOTINO _) in Hd2.
  assert (EF2 : F2 ROOTINO = mk_dirent ROOTINO [46]) by (unfold F2; by rewrite upd_eq).
  destruct (iappend_run start s2 F2 _ (1 + 1) _ ROOTINO (mk_dirent ROOTINO [46; 46]) Hd2) as (s3 & E3 & Hd3); rewrite ?EF2, ?Hl1, ?Hl2, ?Hc2; [unfold ROOTINO; lia|apply mk_dirent_ok|lia|rewrite nmeta_eq; change (cost 16) with 1; lia|].
  rewrite EF2, Hl1, Hl2, Hc2 in Hd3. fold dots in Hd3. change (cost 16) with 1 in Hd3. set (F3 := upd F2 ROOTINO dots) in Hd3.
  assert (EF3 : F3 ROOTINO = dots) by (unfold F3; by rewrite upd_eq). assert (Hld : Z.of_nat (length dots) = 32) by reflexivity.
  destruct (add_files_run start files s3 F3 _ (1 + 1) _ Hd3) as (s4 & E4 & Hd4); rewrite ?EF3, ?Hld; fold n; [done|unfold NINODES; lia|done|lia|change (cost 32) with 1; replace (32 + 16 * n) with (16 * (2 + n)) by lia; rewrite nmeta_eq; lia|].
  rewrite EF3, Hld in Hd4. fold n in Hd4. change (cost 32) with 1 in Hd4. replace (32 + 16 * n) with (16 * (2 + n)) in Hd4 by lia. change (1 + 1) with 2 in *.
  exists s1, s2, s3, s4. eexists _, _. split; [exact E1|]. split; [exact E2|]. split; [exact E3|]. split; [exact E4|]. split; [|split; [|split]].
  - replace (nmeta + cost (16 * (2 + n)) + content_cost files) with (nmeta + 1 - 0 + 1 - 1 + cost (16 * (2 + n)) - 1 + content_cost files) by lia. exact Hd4.
  - unfold with_files. by rewrite decide_True, EF3 by done.
  - done.
  - intros k Hk. unfold with_files, with_kinds. rewrite decide_False by (unfold ROOTINO; lia). by rewrite !decide_True by done.
Qed.

(** What the kernel finds on a finished image. *)
Lemma finished_image h D F K files : finished h D F K (2 + Z.of_nat (length files)) (used files) -> 2 + Z.of_nat (length files) <= NINODES -> used files < BPB ->
  F ROOTINO = root_bytes files -> K ROOTINO = T_DIR -> (forall k, 2 <= k -> F k = default [] (contents <$> files !! Z.to_nat (k - 2)) /\ K k = T_FILE) ->
  Forall input_ok files -> image (sector h) files.
Proof using Type.
  intros [N1 N2 N3 N4 N5] Hcnt Hfit HF HK Hfk Hin. change BPB with 4096 in Hfit. pose proof nmeta_eq as EM. set (n := Z.of_nat (length files)) in *. unfold NINODES in Hcnt.
  assert (Hdl : Z.of_nat (length (root_bytes files)) = dir_size files).
  { unfold root_bytes, dir_size. rewrite length_app, Nat2Z.inj_add, entries_length. change (Z.of_nat (length dots)) with 32. lia. }
  assert (Hdr : 0 <= dir_size files / BSIZE <= 6) by (unfold dir_size; fold n; unfold BSIZE; Z.to_euclidean_division_equations; lia).
  split.
  - rewrite N5 by lia. rewrite decide_False by lia. apply sb_block_decode.
  - intros b Hb. rewrite N5, decide_False by lia. unfold start. by rewrite put_block_ne by lia.
  - intros b Hb. unfold in_use, BBLOCK. change (sb_bmapstart mkfs_sb) with 58. change BPB with 4096. unfold FSSIZE in Hb.
    assert (Hq : 0 <= b / 4096 <= 61) by (Z.to_euclidean_division_equations; lia). pose proof (Z.mod_pos_bound b 4096 ltac:(lia)). rewrite u32_id by (word_unfold; lia). rewrite N5 by lia.
    assert (0 <= used files) by (unfold used; pose proof (cost_nonneg (dir_size files) ltac:(unfold dir_size; lia)); pose proof (content_cost_nonneg files); lia).
    destruct (decide (b / 4096 + 58 = 58)) as [E|E].
    + rewrite (proj2 (used_bits_bit (used files) (b mod 4096) ltac:(change BPB with 4096; lia) ltac:(lia))). f_equal. Z.to_euclidean_division_equations; lia.
    + unfold start. rewrite put_block_ne by lia. rewrite bit_of_testbit, zero_block_byte, Z.bits_0 by lia. symmetry. apply Z.ltb_ge. Z.to_euclidean_division_equations; lia.
  - assert (Hr : 1 <= ROOTINO < 2 + n) by (unfold ROOTINO; lia). destruct (on_disk_dinode _ _ _ (N2 ROOTINO Hr)) as (_ & E1 & E2 & E3 & _). destruct (N3 _ Hr) as [T1 T2].
    pose proof (N4 _ Hr) as E4. cbv zeta in E4. rewrite decide_True, HF, Hdl in E4 by done. rewrite E1, E2, E3, T1, T2, HK, E4. split; [done|]. split; [done|]. split; [done|].
    intros x Hx. unfold BSIZE in Hx, Hdr. rewrite <- inode_byte_direct by (unfold NDIRECT, BSIZE; lia). rewrite (on_disk_byte _ _ _ _ (N2 _ Hr)) by lia. rewrite <- HF. apply (ho_byte _ _ _ _ _ _ N1); [done|]. rewrite NBLK_eq. unfold BSIZE. lia.
  - intros k f Hk ip. pose proof (lookup_lt_Some _ _ _ Hk) as Hlt. assert (Hr : 1 <= 2 + Z.of_nat k < 2 + n) by lia.
    destruct (on_disk_dinode _ _ _ (N2 _ Hr)) as (_ & E1 & E2 & E3 & _). destruct (N3 _ Hr) as [T1 T2]. destruct (Hfk (2 + Z.of_nat k) ltac:(lia)) as [HFk HKk].
    replace (Z.to_nat (2 + Z.of_nat k - 2)) with k in HFk by lia. rewrite Hk in HFk. cbn in HFk. pose proof (N4 _ Hr) as E4. cbv zeta in E4. rewrite decide_False, HFk in E4 by (unfold ROOTINO; lia).
    unfold ip. rewrite E1, E2, E3, T1, T2, HKk, E4. split; [done|]. split; [done|]. split; [done|].
    intros x Hx. rewrite (on_disk_byte _ _ _ _ (N2 _ Hr)) by lia. rewrite <- HFk. apply (ho_byte _ _ _ _ _ _ N1); [lia|].
    assert (Hi : input_ok f) by (by eapply Forall_lookup_1). pose proof (in_size _ Hi). lia.
Qed.

Lemma build_run (fsfd : host) (sb : superblock) (files : list input) :
  Forall input_ok files -> 2 + Z.of_nat (length files) <= NINODES -> used files < BPB ->
  exists h', build (fst <$> files) (Mst fsfd sb 1 0) = Exited 0 (Some h') /\ image (sector h') files.
Proof using Type.
  intros Hin Hcnt Hfit. unfold build. erewrite mk_bind_Ret by reflexivity. cbn [m_img m_freeinode].
  destruct (format_run (Mst fsfd mkfs_sb 1 nmeta) eq_refl eq_refl eq_refl) as (s1 & E1 & Ha1). rewrite (mk_bind_Ret _ _ _ _ _ E1).
  unfold get at 1. erewrite mk_bind_Ret by reflexivity. rewrite (a_sb _ _ _ _ Ha1). fold sb_block.
  destruct (wsect_at s1 _ _ _ 1 sb_block Ha1) as (s2 & E2 & Ha2); [done|apply sb_block_decode|]. rewrite (mk_bind_Ret _ _ _ _ _ E2).
  destruct (fill_run files s2 Ha2 Hin Hcnt Hfit) as (s3 & s4 & s5 & s6 & F & K & E3 & E4 & E5 & E6 & Hd & HF & HK & Hfk).
  rewrite (mk_bind_Ret _ _ _ _ _ E3), (mk_bind_Ret _ _ _ _ _ (eq_refl : assert (ROOTINO =? ROOTINO) s3 = Ret tt s3)).
  rewrite (mk_bind_Ret _ _ _ _ _ E4), (mk_bind_Ret _ _ _ _ _ E5), (mk_bind_Ret _ _ _ _ _ E6).
  destruct (finish_run s6 F K _ _ Hd) as (h' & D & E7 & Hfin); [unfold ROOTINO; lia|done|]. exists h'. split; [exact E7|]. by eapply finished_image.
Qed.
(** What mkfs would build, were it not for its assertion on the size of an inode,
    which always fails ([mkfs_aborts]).  If the files can be opened, have names
    without a slash and fit (an inode has direct blocks and one indirect block, the
    image has 200 inodes, and the blocks in use must be covered by the first block
    of the bitmap), then the code of [main] after the assertions exits with status
    0 and leaves an image on which the kernel finds: the
    super block; an empty log; a bitmap with exactly the blocks in use; a root
    directory with the entries dot, dotdot and one for each file, and free
    entries after them; and at the inode of each entry a file with the contents
    that were read. *)
Theorem mkfs_builds (fsfd : host) (sb : superblock) (files : list input) :
  Forall input_ok files -> 2 + Z.of_nat (length files) <= NINODES -> used files < BPB ->
  exists h', build (fst <$> files) (Mst fsfd sb 1 0) = Exited 0 (Some h') /\ image (sector h') files.
Proof using Type. apply build_run. Qed.

(** A file may not outgrow its indirect block: the assertion in the loop compares
    with [MAXFILE], which counts blocks that mkfs does not use, and the next byte
    makes it write behind the array [indirect]. *)
Theorem iappend_overrun (v0 : Z -> list Z) (s : mst) (F : Z -> list Z) (K : Z -> Z) (fi fb i : Z) (p : list Z) :
  disk v0 s F K fi fb -> 1 <= i < fi -> Z.of_nat (length (F i)) = NBLK * BSIZE -> p <> [] -> iappend i p s = Overrun.
Proof using Type.
  intros (v & D & Hd) Hi Hfull Hp. pose proof (disk_dinode _ _ _ _ _ _ _ _ i Hd Hi) as Hok. destruct Hd as [K1 K2 K3 K4 K5 K6 K7 K8]. destruct (K5 i Hi) as [Esz _].
  destruct (rinode_run s v D fi fi fb i K1 K3 Hi ltac:(lia)) as (s1 & E1 & Ha1). unfold iappend. rewrite (mk_bind_Ret _ _ _ _ _ E1). cbv zeta. rewrite xint_id by apply Hok. rewrite Esz, Hfull.
  assert (Hd : daddr (D i) NDIRECT <> 0) by (rewrite K6 by done; unfold nbf; rewrite Hfull; vm_compute; auto).
  pose proof (indirect_used _ _ _ _ _ _ i K2 Hi Hd) as Ri. pose proof (ho_free _ _ _ _ _ _ K2) as Hf. pose proof nmeta_eq as EM.
  assert (E : iappend_loop (S (length p)) p (Z.of_nat (length p)) (NBLK * BSIZE) (D i) s1 = Overrun).
  { cbn [iappend_loop]. rewrite (proj2 (Z.gtb_lt _ _)) by (destruct p; [done|cbn; lia]). change (NBLK * BSIZE / BSIZE) with 139. change (139 <? MAXFILE) with true.
    rewrite (mk_bind_Ret _ _ _ _ _ (eq_refl : assert true s1 = Ret tt s1)). unfold iappend_block. change (139 <? NDIRECT) with false. cbv iota.
    assert (E2 : forall f : Z * dinode -> mk (Z * dinode), ((din ← fill_addr (D i) NDIRECT; indirect ← rsect (xint (daddr din NDIRECT));
        if negb (139 - NDIRECT <? NINDIRECT) then overrun else
        if get32 indirect (4 * (139 - NDIRECT)) =? 0 then
          b ← next_block; let indirect := put32 indirect (4 * (139 - NDIRECT)) (xint b) in
          wsect (xint (daddr din NDIRECT)) indirect;; mret (xint (get32 indirect (4 * (139 - NDIRECT))), din)
        else mret (xint (get32 indirect (4 * (139 - NDIRECT))), din)) ≫= f) s1 = Overrun); [|apply E2].
    intros f. unfold mbind at 1, mk_bind at 1. rewrite (mk_bind_Ret _ _ _ _ _ (fill_addr_old s1 (D i) NDIRECT (daddr_uint _ _ (dk_addrs _ Hok)) Hd)).
    rewrite xint_id by apply daddr_uint, Hok. destruct (rsect_at s1 v fi fb (daddr (D i) NDIRECT) Ha1) as (s2 & E3 & _); [lia|]. by rewrite (mk_bind_Ret _ _ _ _ _ E3). }
  unfold mbind, mk_bind. by rewrite E.
Qed.

(** [main] never gets as far as opening the image: an inode has 60 bytes, which
    do not divide a block. *)
Theorem mkfs_aborts (path : list Z) (files : list (list Z)) : main (path :: files) = Aborted.
Proof using Type. reflexivity. Qed.
End mkfs.

(** ** Names in the root directory *)

Definition pad (n : nat) (l : list Z) : list Z := take n l ++ replicate (n - length l) 0.

Lemma pad_length n l : length (pad n l) = n.
Proof. unfold pad. rewrite length_app, length_take, length_replicate. lia. Qed.

Lemma pad_byte n l x : 0 <= x -> byte_at (pad n l) x = byte_at (take n l) x.
Proof.
  intros Hx. unfold pad. rewrite byte_at_app by done. case_decide as E; [done|]. rewrite (byte_at_past (take n l)) by lia.
  unfold byte_at. destruct (replicate _ _ !! _) eqn:E'; [|done]. by apply lookup_replicate in E' as [-> _].
Qed.

Lemma cprefix_pad n : forall l m, cprefix n (take n l ++ replicate m 0) = cprefix n l.
Proof.
  induction n as [|n IH]; intros [|a l] m; try done; cbn.
  - destruct m; done.
  - by rewrite IH.
Qed.

Lemma cprefix_end n : forall l, cprefix n (l ++ [0]) = cprefix n l.
Proof. induction n as [|n IH]; intros [|a l]; try done. cbn. by rewrite IH. Qed.

(** An entry with a name shorter than the field. *)
Lemma mk_dirent_pad inum name x : 0 <= x < 16 -> byte_at (mk_dirent inum (take (Z.to_nat DIRSIZ) name)) x = byte_at (mk_dirent inum (pad (Z.to_nat DIRSIZ) name)) x.
Proof.
  intros Hx. change (Z.to_nat DIRSIZ) with 14%nat. set (nm := take 14 name). assert (Hl : (length nm <= 14)%nat) by (unfold nm; rewrite length_take; lia).
  unfold mk_dirent. rewrite !byte_at_put_bytes by (rewrite ?put16_length, ?length_replicate, ?pad_length; lia). rewrite pad_length.
  destruct (decide (2 <= x < 2 + Z.of_nat 14)) as [E|E]; [|by rewrite decide_False by lia]. rewrite pad_byte by lia. fold nm. case_decide as E2; [done|].
  rewrite (byte_at_past nm) by lia. unfold put16. rewrite !byte_at_put8 by (rewrite ?put8_length, ?length_replicate; lia). rewrite !decide_False by lia.
  unfold byte_at. destruct (replicate 16 0 !! Z.to_nat x) eqn:E3; [|done]. by apply lookup_replicate in E3 as [-> _].
Qed.

(** The names of the directory, in the order of its entries. *)
Definition dir_names (files : list input) : list (list Z) := [46] :: [46; 46] :: (file_name ∘ fst <$> files).
Definition dir_inums (j : Z) : Z := Z.max ROOTINO j.

Lemma entries_byte files : forall inum k f x, files !! k = Some f -> 0 <= x < 16 ->
  byte_at (entries inum files) (16 * Z.of_nat k + x) = byte_at (dir_entry (inum + Z.of_nat k) (fst f)) x.
Proof.
  induction files as [|g files IH]; intros inum k f x Hk Hx; [done|]. cbn [entries]. pose proof (dir_entry_length inum (fst g)) as Hl. rewrite byte_at_app by lia. rewrite Hl.
  destruct k as [|k].
  - injection Hk as <-. rewrite decide_True by lia. by rewrite Z.add_0_r, Z.add_0_l.
  - rewrite decide_False by lia. replace (16 * Z.of_nat (S k) + x - 16) with (16 * Z.of_nat k + x) by lia. rewrite (IH _ k f) by done. do 2 f_equal. lia.
Qed.

Lemma root_byte files j name x : dir_names files !! j = Some name -> 0 <= x < 16 ->
  byte_at (root_bytes files) (16 * Z.of_nat j + x) = byte_at (mk_dirent (dir_inums (Z.of_nat j)) (take (Z.to_nat DIRSIZ) name)) x.
Proof.
  intros Hj Hx. unfold root_bytes. rewrite byte_at_app by lia. change (Z.of_nat (length dots)) with 32. unfold dots. destruct j as [|[|j]].
  - injection Hj as <-. rewrite decide_True by lia. rewrite byte_at_app by lia. change (Z.of_nat (length (mk_dirent ROOTINO [46]))) with 16. by rewrite decide_True by lia.
  - injection Hj as <-. rewrite decide_True by lia. rewrite byte_at_app by lia. change (Z.of_nat (length (mk_dirent ROOTINO [46]))) with 16. rewrite decide_False by lia.
    replace (16 * Z.of_nat 1 + x - 16) with x by lia. done.
  - rewrite decide_False by lia. change ((file_name ∘ fst <$> files) !! j = Some name) in Hj.
    rewrite list_lookup_fmap in Hj. apply fmap_Some in Hj as (f & Ef & ->).
    replace (16 * Z.of_nat (S (S j)) + x - 32) with (16 * Z.of_nat j + x) by lia. rewrite (entries_byte _ _ _ f) by done. unfold dir_entry, dir_inums, ROOTINO. do 3 f_equal. lia.
Qed.

Section names.
Context (v : Z -> list Z) (files : list input) (Him : image v files) (Hcnt : 2 + Z.of_nat (length files) <= NINODES).
Context (Hnames : Forall (fun f => Forall byte_ok (file_name (fst f))) files).
Let root := on_disk v ROOTINO.

Lemma dir_count_root : 2 + Z.of_nat (length files) <= Z.of_nat (dir_count root) /\ 16 * Z.of_nat (dir_count root) = i_size root.
Proof using Him Hcnt.
  destruct (im_root _ _ Him) as (_ & _ & Es & _). unfold dir_count, root. rewrite Es. unfold dir_size, DIRENT_SIZE, BSIZE. unfold NINODES in Hcnt. split; Z.to_euclidean_division_equations; lia.
Qed.

Lemma root_entry j name : dir_names files !! j = Some name -> de_inum (entry v root (Z.of_nat j)) = dir_inums (Z.of_nat j) /\ same_name (de_name (entry v root (Z.of_nat j))) name.
Proof using Him Hcnt Hnames.
  intros Hj. destruct dir_count_root as [Hc Hs]. pose proof (lookup_lt_Some _ _ _ Hj) as Hlt. unfold dir_names in Hlt. cbn [length] in Hlt. rewrite length_fmap in Hlt. unfold NINODES in Hcnt. unfold input in *.
  assert (Hb : Forall byte_ok name).
  { destruct j as [|[|j]]; [injection Hj as <-; repeat (apply Forall_cons; split; [word_unfold; lia|]); done..|]. change ((file_name ∘ fst <$> files) !! j = Some name) in Hj. rewrite list_lookup_fmap in Hj. apply fmap_Some in Hj as (f & Ef & ->). by apply (Forall_lookup_1 _ _ _ _ Hnames Ef). }
  destruct (mk_dirent_reads (dir_inums (Z.of_nat j)) (pad (Z.to_nat DIRSIZ) name) (entry v root (Z.of_nat j))) as [E1 E2].
  - unfold dir_inums, ROOTINO. change (2 ^ 16) with 65536. lia.
  - apply pad_length.
  - unfold pad. apply Forall_app. split; [by apply Forall_take|]. apply Forall_replicate. word_unfold. lia.
  - intros x Hx. change DIRENT_SIZE with 16 in Hx. rewrite <- mk_dirent_pad, <- (root_byte files j name x) by (done || lia).
    unfold entry, file_bytes, DIRENT_SIZE. unfold byte_at at 1. rewrite list_lookup_fmap, lookup_seqZ_lt by lia. cbn [fmap option_fmap option_map default].
    destruct (im_root _ _ Him) as (_ & _ & _ & Er). replace (16 * Z.of_nat j + (0 + Z.of_nat (Z.to_nat x))) with (16 * Z.of_nat j + x) by lia. fold root in Er. rewrite Er by lia. unfold id.
    symmetry. apply u8_id. rewrite (root_byte files j name x) by (done || lia). unfold byte_at. destruct (_ !! Z.to_nat x) as [y|] eqn:Ey; cbn; [|word_unfold; lia].
    eapply Forall_lookup_1; [apply mk_dirent_ok|exact Ey].
  - split; [done|]. rewrite E2. unfold same_name, pad. apply cprefix_pad.
Qed.

(** The kernel finds every file of the image under its name.  In the root
    directory as mkfs leaves it, the lookup of the name of entry [j] gives the
    inode of that entry, unless an earlier entry has the same first fourteen
    characters: for dot and dotdot the root, for the file number [k] of the
    arguments, without the leading underscore, the inode [k + 2]. *)
Theorem mkfs_names (j : nat) (name : list Z) : dir_names files !! j = Some name ->
  (forall j' name', (j' < j)%nat -> dir_names files !! j' = Some name' -> ~ same_name name' name) ->
  dir_inum v (on_disk v ROOTINO) (name ++ [0]) = Some (Z.max ROOTINO (Z.of_nat j)).
Proof using Him Hcnt Hnames.
  intros Hj Hfirst. destruct dir_count_root as [Hc Hs]. pose proof (lookup_lt_Some _ _ _ Hj) as Hlt. assert (Hlen : length (dir_names files) = S (S (length files))) by (unfold dir_names; cbn [length]; by rewrite length_fmap). unfold input in *.
  destruct (root_entry j name Hj) as [E1 E2]. fold root. unfold dir_inum.
  assert (Hn0 : forall i, dir_inums i =? 0 = false) by (intros i; unfold dir_inums, ROOTINO; lia).
  assert (E : find_entry v root (name ++ [0]) (dir_count root) 0 = Some (Z.of_nat j)).
  { apply find_entry_Some. split; [lia|]. split.
    - unfold named. rewrite E1, Hn0. cbn [negb andb]. apply bool_decide_true. unfold same_name in *. rewrite cprefix_end. done.
    - intros i Hi. destruct (lookup_lt_is_Some_2 (dir_names files) (Z.to_nat i)) as [name' Hi']; [lia|]. destruct (root_entry _ _ Hi') as [_ E4]. rewrite Z2Nat.id in E4 by lia.
      unfold named. rewrite (bool_decide_false (same_name _ _)), andb_false_r; [done|]. intros Hsame. apply (Hfirst (Z.to_nat i) name'); [lia|done|]. unfold same_name in *. rewrite cprefix_end in Hsame. congruence. }
  rewrite E. cbn. by rewrite E1.
Qed.
End names.

(** ** An example: a file in memory *)

Record ram := Ram { ram_byte : Z -> Z; ram_size : Z; ram_pos : Z }.

#[export] Instance ram_file : HostFile := {|
  host := ram;
  h_open := fun _ => Some (Ram (fun _ => 0) 0 0);
  h_lseek := fun o h => (o, Ram (ram_byte h) (ram_size h) o);
  h_read := fun n h =>
    let m := Z.max 0 (Z.min n (ram_size h - ram_pos h)) in
    ((fun i => ram_byte h (ram_pos h + i)) <$> seqZ 0 m, Ram (ram_byte h) (ram_size h) (ram_pos h + m));
  h_write := fun l h =>
    let n := Z.of_nat (length l) in
    (n, Ram (fun x => if decide (ram_pos h <= x < ram_pos h + n) then byte_at l (x - ram_pos h) else ram_byte h x)
          (Z.max (ram_size h) (ram_pos h + n)) (ram_pos h + n));
  h_input := fun path => Some [replicate 512 (byte_at path 0); path];
|}.

#[export] Instance ram_laws : HostFileLaws.
Proof.
  refine {| f_size := ram_size; f_byte := ram_byte; f_pos := ram_pos |}.
  - done.
  - intros n h Hn Hs. cbn. replace (Z.max 0 (Z.min n (ram_size h - ram_pos h))) with n by lia. done.
  - done.
Defined.

(** Two files, one with a leading underscore. *)
Definition ex_input (path : list Z) : input := (path, [replicate 512 (byte_at path 0); path]).
Definition ex_inputs : list input := [ex_input [95; 108; 115]; ex_input [82]].

Lemma ex_inputs_ok : Forall input_ok ex_inputs.
Proof.
  assert (H : forall path, Forall byte_ok path -> path <> [] -> slash ∉ path -> (length path < 100)%nat -> input_ok (ex_input path)).
  { intros path Hb Hne Hs Hl. split; [done|done| |].
    - apply Forall_cons. split; [|by apply Forall_cons]. apply Forall_replicate. destruct path as [|a path]; [done|]. by apply Forall_cons in Hb as [Hb _].
    - unfold content_size, contents, ex_input. cbn [snd concat]. rewrite !length_app, length_replicate, NBLK_eq. cbn [length]. unfold BSIZE. lia. }
  repeat (apply Forall_cons; split; [apply H; [repeat (apply Forall_cons; split; [word_unfold; lia|]); done|done|set_unfold; unfold slash; lia|cbn; lia]|]). done.
Qed.

Lemma mkfs_builds_witness : exists h', build (fst <$> ex_inputs) (Mst (H := ram_file) (Ram (fun _ => 0) 0 0) (SuperBlock 0 0 0 0 0 0 0) 1 0) = Exited 0 (Some h') /\ image (sector h') ex_inputs.
Proof. apply mkfs_builds; [exact ex_inputs_ok|by vm_compute|by vm_compute]. Defined.

Lemma mkfs_names_witness : exists h' : host, image (sector h') ex_inputs /\ dir_inum (sector h') (on_disk (sector h') ROOTINO) [108; 115; 0] = Some 2.
Proof.
  destruct (@build_run ram_file ram_laws (Ram (fun _ => 0) 0 0) (SuperBlock 0 0 0 0 0 0 0) ex_inputs) as (h' & _ & Him); [exact ex_inputs_ok|by vm_compute|by vm_compute|].
  exists h'. split; [exact Him|]. apply (mkfs_names _ _ Him) with (j := 2%nat) (name := [108; 115]).
  - by vm_compute.
  - repeat (apply Forall_cons; split; [repeat (apply Forall_cons; split; [word_unfold; lia|]); done|]). done.
  - done.
  - intros j' name' Hj' Hn. destruct j' as [|[|j']]; [injection Hn as <-|injection Hn as <-|lia]; by vm_compute.
Defined.
