(* ===== verification/Console.v ===== *)
(** * The console (src/console.c)

    [consputc] sends a character to the serial port, whose output is kept as a
    list, and to the CGA screen, whose cells and cursor are a part of the
    state.  The hardware cursor registers hold the position. *)

From S2P Require Import Prelude Layout CString Spinlock Kalloc State Sched Sleeplock Bio Log Fs.

Definition BACKSPACE : Z := 0x100.
Definition INPUT_BUF : Z := 128.
Definition NEWLINE : Z := 10.
Definition CR : Z := 13.
Definition DEL : Z := 0x7f.
(** [C(x)] of a letter is its code minus that of ['@']. *)
Definition CTRL_D : Z := 4.
Definition CTRL_H : Z := 8.
Definition CTRL_P : Z := 16.
Definition CTRL_U : Z := 21.
Definition cons_lock : lockid := ("console"%string, 0).

(** ** Printing *)

Definition digit (d : Z) : Z := if d <? 10 then 48 + d else 87 + d.

(** [do ... while((x /= base) != 0)]: the digits, least significant first. *)
Fixpoint digits_loop (fuel : nat) (x base : Z) : list Z :=
  match fuel with
  | O => []
  | S fuel' =>
    digit (x mod base) :: (if x / base =? 0 then [] else digits_loop fuel' (x / base) base)
  end.

(** The characters [printint] puts; [buf] has 16 elements. *)
Definition printint (xx base : Z) (sign : bool) : list Z :=
  let neg := sign && (xx <? 0) in
  let x := if neg then u32 (- xx) else u32 xx in
  let buf := digits_loop 32 x base ++ (if neg then [45] else []) in
  rev buf.

(** An argument of [cprintf]: a word, or a pointer to a string. *)
Inductive arg :=
  | AInt (v : Z)
  | AStr (s : option (list Z)).

Definition as_int (a : arg) : option Z := match a with AInt v => Some v | AStr _ => None end.
Definition as_str (a : arg) : option (list Z) :=
  match a with
  | AStr None => Some [40; 110; 117; 108; 108; 41]
  | AStr (Some s) => Some s
  | AInt _ => None
  end.

(** The characters printed for a format and its arguments; [None] when an
    argument is missing or of the wrong type. *)
Fixpoint cprintf_chars (fmt : list Z) (args : list arg) : option (list Z) :=
  match fmt with
  | [] => Some []
  | c :: fmt' =>
    if negb (c =? 37) then cons c <$> cprintf_chars fmt' args
    else
      match fmt' with
      | [] => Some []
      | d :: fmt'' =>
        if d =? 100 then
          a ← head args; v ← as_int a; app (printint v 10 true) <$> cprintf_chars fmt'' (tail args)
        else if (d =? 120) || (d =? 112) then
          a ← head args; v ← as_int a; app (printint v 16 false) <$> cprintf_chars fmt'' (tail args)
        else if d =? 115 then
          a ← head args; s ← as_str a; app s <$> cprintf_chars fmt'' (tail args)
        else if d =? 37 then cons 37 <$> cprintf_chars fmt'' args
        else (fun l => 37 :: d :: l) <$> cprintf_chars fmt'' args
      end
  end.

(** ** The screen *)

Definition cell (crt : gmap Z Z) (i : Z) : Z := default 0 (crt !! i).
Definition black_on_white (c : Z) : Z := Z.lor (Z.land c 0xff) 0x0700.

Definition scroll (pos : Z) (crt : gmap Z Z) : gmap Z Z :=
  let crt := foldl (fun m i => <[i := cell crt (i + 80)]> m) crt (seqZ 0 (23 * 80)) in
  foldl (fun m i => <[i := 0]> m) crt (seqZ pos (24 * 80 - pos)).

(** [None] is the panic; the position is kept in two 8-bit registers. *)
Definition cgaputc (c pos : Z) (crt : gmap Z Z) : option (Z * gmap Z Z) :=
  let '(pos, crt) :=
    if c =? NEWLINE then (pos + (80 - pos mod 80), crt)
    else if c =? BACKSPACE then (if pos >? 0 then pos - 1 else pos, crt)
    else (pos + 1, <[pos := black_on_white c]> crt) in
  if (pos <? 0) || (pos >? 25 * 80) then None
  else
    let '(pos, crt) :=
      if pos / 80 >=? 24 then (pos - 80, scroll (pos - 80) crt) else (pos, crt) in
    Some (u16 pos, <[pos := black_on_white 32]> crt).

Definition get_cons : M kernel console := gets k_cons.
Definition upd_cons (f : console -> console) : M kernel unit :=
  modify (fun s => set_k_cons (f (k_cons s)) s).

Definition serial_chars (c : Z) : list Z := if c =? BACKSPACE then [8; 32; 8] else [c].

(** After a panic, when [panicked] is set, nothing runs any more: here a panic
    ends the computation. *)
Definition consputc (c : Z) : M kernel unit :=
  upd_cons (fun k => set_c_serial (c_serial k ++ serial_chars c) k);;
  k ← get_cons;
  match cgaputc c (c_pos k) (c_crt k) with
  | None => panic "pos under/overflow"
  | Some (pos, crt) => upd_cons (fun k => set_c_pos pos (set_c_crt crt k))
  end.

Fixpoint consputs (l : list Z) : M kernel unit :=
  match l with [] => mret tt | c :: l' => consputc c;; consputs l' end.

(** [cons.locking] is set, as it is from [consoleinit] to a panic. *)
Definition cprintf (fmt : list Z) (args : list arg) : M kernel unit :=
  acquire cons_lock;;
  match cprintf_chars fmt args with
  | None => undef "cprintf: bad arguments"
  | Some l => consputs l
  end;;
  release cons_lock.

(** ** The input line *)

Definition ring (k : console) (i : Z) : Z := default 0 (c_buf k !! Z.to_nat (u32 i mod INPUT_BUF)).

Fixpoint kill_line (fuel : nat) : M kernel unit :=
  match fuel with
  | O => undef "consoleintr: out of fuel"
  | S fuel' =>
    k ← get_cons;
    if negb (c_e k =? c_w k) && negb (ring k (c_e k - 1) =? NEWLINE) then
      upd_cons (fun k => set_c_e (u32 (c_e k - 1)) k);;
      consputc BACKSPACE;;
      kill_line fuel'
    else mret tt
  end.

(** One character of the loop of [consoleintr]; the line being edited has at
    most [INPUT_BUF] characters. *)
Definition console_char (c : Z) : M kernel bool :=
  k ← get_cons;
  if c =? CTRL_P then mret true
  else if c =? CTRL_U then kill_line (S (Z.to_nat INPUT_BUF));; mret false
  else if (c =? CTRL_H) || (c =? DEL) then
    when (negb (c_e k =? c_w k))
      (upd_cons (fun k => set_c_e (u32 (c_e k - 1)) k);; consputc BACKSPACE);;
    mret false
  else
    when (negb (c =? 0) && (u32 (c_e k - c_r k) <? INPUT_BUF))
      (let c := if c =? CR then NEWLINE else c in
       upd_cons (fun k => set_c_e (u32 (c_e k + 1))
                            (set_c_buf (<[Z.to_nat (c_e k mod INPUT_BUF) := c]> (c_buf k)) k));;
       consputc c;;
       k ← get_cons;
       when ((c =? NEWLINE) || (c =? CTRL_D) || (c_e k =? u32 (c_r k + INPUT_BUF)))
         (upd_cons (fun k => set_c_w (c_e k) k);; wakeup chan_input));;
    mret false.

(** [cs] are the characters [getc] delivers before it returns -1. *)
Fixpoint console_chars (cs : list Z) (doprocdump : bool) : M kernel bool :=
  match cs with
  | [] => mret doprocdump
  | c :: cs' => d ← console_char c; console_chars cs' (doprocdump || d)
  end.

(** [procdump], which only prints, is the argument of that name. *)
Definition consoleintr (procdump : M kernel unit) (cs : list Z) : M kernel unit :=
  acquire cons_lock;;
  d ← console_chars cs false;
  release cons_lock;;
  when d procdump.

(** The bytes copied so far are [acc]; the result is [target - n] and the bytes. *)
Fixpoint consoleread_loop `{DiskDriver} (fuel ip : nat) (target n : Z) (acc : list Z) : M kernel (Z * list Z) :=
  let finish (n : Z) (acc : list Z) : M kernel (Z * list Z) :=
    release cons_lock;; ilock ip;; mret (target - n, acc) in
  match fuel with
  | O => undef "consoleread: out of fuel"
  | S fuel' =>
    if n >? 0 then
      k ← get_cons;
      if c_r k =? c_w k then
        p ← myproc;
        pr ← proc_at p;
        if p_killed pr then release cons_lock;; ilock ip;; mret (-1, acc)
        else sleep chan_input cons_lock
      else
        let c := ring k (c_r k) in
        upd_cons (set_c_r (u32 (c_r k + 1)));;
        if c =? CTRL_D then
          when (n <? target) (upd_cons (fun k => set_c_r (u32 (c_r k - 1)) k));;
          finish n acc
        else if c =? NEWLINE then finish (n - 1) (acc ++ [c])
        else consoleread_loop fuel' ip target (n - 1) (acc ++ [c])
    else finish n acc
  end.

Definition consoleread `{DiskDriver} (ip : nat) (n : Z) : M kernel (Z * list Z) :=
  iunlock ip;;
  acquire cons_lock;;
  consoleread_loop (S (Z.to_nat n)) ip n n [].

Definition consolewrite `{DiskDriver} (ip : nat) (buf : list Z) (n : Z) : M kernel Z :=
  iunlock ip;;
  acquire cons_lock;;
  consputs ((fun c => Z.land c 0xff) <$> take (Z.to_nat n) buf);;
  release cons_lock;;
  ilock ip;;
  mret n.

Definition CONSOLE : Z := 1.

(** The entries [consoleinit] makes in [devsw]. *)
#[export] Instance consoleinit `{DiskDriver} : Devsw := {|
  dev_read := fun major => if major =? CONSOLE then Some consoleread else None;
  dev_write := fun major => if major =? CONSOLE then Some consolewrite else None |}.

(** ** Numbers *)

Definition digit_val (c : Z) : Z := if c <? 58 then c - 48 else c - 87.

(** The number a string of digits denotes, most significant first. *)
Definition number (base : Z) (l : list Z) : Z := foldl (fun n c => n * base + digit_val c) 0 l.

Lemma digit_val_digit d : 0 <= d < 16 -> digit_val (digit d) = d.
Proof.
  intros Hd. unfold digit_val, digit.
  destruct (Z.ltb_spec d 10); [destruct (Z.ltb_spec (48 + d) 58)|destruct (Z.ltb_spec (87 + d) 58)]; lia.
Qed.

Lemma number_snoc base l c : number base (l ++ [c]) = number base l * base + digit_val c.
Proof. unfold number. by rewrite foldl_app. Qed.

Lemma digits_loop_number base fuel : forall x, 2 <= base <= 16 -> 0 <= x < base ^ Z.of_nat fuel ->
  number base (rev (digits_loop fuel x base)) = x.
Proof.
  induction fuel as [|fuel IH]; intros x Hb Hx; [change (Z.of_nat 0) with 0 in Hx; rewrite Z.pow_0_r in Hx; cbn; lia|].
  rewrite Nat2Z.inj_succ, Z.pow_succ_r in Hx by lia. cbn [digits_loop rev]. rewrite number_snoc.
  pose proof (Z.mod_pos_bound x base). pose proof (Z.div_mod x base). rewrite digit_val_digit by lia. destruct (Z.eqb_spec (x / base) 0) as [E|Hne].
  - cbn. lia.
  - rewrite IH; [lia|done|]. split; [apply Z.div_pos; lia|]. apply Z.div_lt_upper_bound; lia.
Qed.

Lemma digits_loop_length base fuel (k : nat) : forall x, 2 <= base -> 0 <= x < base ^ Z.of_nat k -> (0 < k)%nat ->
  (length (digits_loop fuel x base) <= k)%nat.
Proof.
  revert k. induction fuel as [|fuel IH]; intros k x Hb Hx Hk; cbn [digits_loop length]; [lia|].
  destruct (Z.eqb_spec (x / base) 0) as [E|Hne]; [cbn; lia|]. destruct k as [|k]; [lia|].
  rewrite Nat2Z.inj_succ, Z.pow_succ_r in Hx by lia. apply le_n_S. apply IH; [done| |].
  - split; [apply Z.div_pos; lia|]. apply Z.div_lt_upper_bound; lia.
  - destruct k; [|lia]. change (Z.of_nat 0) with 0 in Hx. rewrite Z.pow_0_r in Hx. exfalso. apply Hne. apply Z.div_small. lia.
Qed.

Lemma digits_loop_digits base fuel : forall x, 2 <= base <= 10 -> 0 <= x -> Forall (fun c => 48 <= c <= 57) (digits_loop fuel x base).
Proof.
  induction fuel as [|fuel IH]; intros x Hb Hx; cbn [digits_loop]; [constructor|]. pose proof (Z.mod_pos_bound x base).
  constructor; [unfold digit; rewrite (proj2 (Z.ltb_lt _ _)) by lia; lia|]. destruct (_ =? 0); [constructor|]. apply IH; [done|].
  apply Z.div_pos; lia.
Qed.

Lemma number_ge l : forall n, 0 <= n -> Forall (fun c => 48 <= c <= 57) l -> n <= foldl (fun n c => n * 10 + digit_val c) n l.
Proof.
  induction l as [|c l IH]; intros n Hn Hl; cbn [foldl]; [lia|]. apply Forall_cons in Hl as [Hc Hl].
  assert (0 <= digit_val c) by (unfold digit_val; rewrite (proj2 (Z.ltb_lt _ _)); lia).
  specialize (IH (n * 10 + digit_val c) ltac:(lia) Hl). lia.
Qed.

(** [atoi] reads digits up to the first character that is none. *)
Lemma atoi_number l : forall n r c, Forall (fun c => 48 <= c <= 57) l -> ~ 48 <= c <= 57 -> 0 <= n ->
  foldl (fun n c => n * 10 + digit_val c) n l < 2 ^ 31 ->
  atoi_loop (l ++ c :: r) n = Some (foldl (fun n c => n * 10 + digit_val c) n l).
Proof.
  induction l as [|a l IH]; intros n r c Hl Hc Hn Hlt; cbn [app atoi_loop foldl].
  - destruct (Z.leb_spec 48 c), (Z.leb_spec c 57); (lia || done).
  - apply Forall_cons in Hl as [Ha Hl]. rewrite (proj2 (Z.leb_le 48 a)), (proj2 (Z.leb_le a 57)) by lia. cbn [andb].
    assert (Ed : digit_val a = a - 48) by (unfold digit_val; rewrite (proj2 (Z.ltb_lt _ _)); lia). cbn [foldl] in Hlt. rewrite Ed in *.
    pose proof (number_ge l (n * 10 + (a - 48))) as Hge. specialize (Hge ltac:(lia) Hl).
    replace (n * 10 + a - 48) with (n * 10 + (a - 48)) by lia. rewrite i32_id by lia. apply IH; (done || lia).
Qed.

Lemma printint_neg xx : - 2 ^ 31 <= xx < 0 -> printint xx 10 true = 45 :: rev (digits_loop 32 (- xx) 10).
Proof.
  intros Hx. unfold printint. rewrite (proj2 (Z.ltb_lt xx 0)) by lia. cbn [andb]. rewrite rev_app_distr. cbn [rev app].
  do 2 f_equal. unfold u32. rewrite Z.mod_small by lia. done.
Qed.

(** [printint] of the kernel prints what it should, within its buffer.  A
    non-negative number in decimal is what [atoi] of the user library reads
    back, a negative one is a minus sign and the digits of its absolute value,
    also for the least integer; a hexadecimal number denotes the 32 bits; and no
    number takes more than 11 of the 16 characters of the buffer. *)
Theorem printint_roundtrip (xx : Z) : - 2 ^ 31 <= xx < 2 ^ 31 ->
  (length (printint xx 10 true) <= 11)%nat /\ (length (printint xx 16 false) <= 8)%nat /\
  number 16 (printint xx 16 false) = u32 xx /\
  (if xx <? 0 then exists l, printint xx 10 true = 45 :: l /\ number 10 l = - xx
   else atoi (printint xx 10 true ++ [0]) = Some xx).
Proof.
  intros Hx. assert (Hu : 0 <= u32 xx < 2 ^ 32) by apply u32_range.
  assert (Eh : printint xx 16 false = rev (digits_loop 32 (u32 xx) 16)) by (unfold printint; cbn [andb]; by rewrite (right_id_L [] (++))).
  rewrite Eh. split; [|split; [rewrite length_rev; apply (digits_loop_length 16 32 8); lia|]].
  { destruct (Z.ltb_spec xx 0).
    - rewrite printint_neg by lia. cbn [length]. apply le_n_S. rewrite length_rev. apply (digits_loop_length 10 32 10); lia.
    - unfold printint. rewrite (proj2 (Z.ltb_ge xx 0)) by lia. cbn [andb]. rewrite (right_id_L [] (++)), length_rev. unfold u32.
      rewrite Z.mod_small by lia. pose proof (digits_loop_length 10 32 10 xx). lia. }
  split; [apply digits_loop_number; [lia|split; [lia|]]; apply Z.lt_le_trans with (2 ^ 32); [lia|by vm_compute]|].
  destruct (Z.ltb_spec xx 0) as [Hneg|Hpos].
  - eexists. split; [apply printint_neg; lia|]. apply digits_loop_number; [lia|]. split; [lia|]. apply Z.lt_le_trans with (2 ^ 32); [lia|by vm_compute].
  - unfold printint. rewrite (proj2 (Z.ltb_ge xx 0)) by lia. cbn [andb]. rewrite (right_id_L [] (++)). unfold u32.
    rewrite Z.mod_small by lia.
    assert (En : number 10 (rev (digits_loop 32 xx 10)) = xx) by (apply digits_loop_number; [lia|]; split; [lia|]; apply Z.lt_le_trans with (2 ^ 32); [lia|by vm_compute]).
    unfold atoi. rewrite atoi_number.
    + by fold (number 10 (rev (digits_loop 32 xx 10))); rewrite En.
    + apply Forall_rev, digits_loop_digits; lia.
    + lia.
    + lia.
    + fold (number 10 (rev (digits_loop 32 xx 10))). rewrite En. lia.
Qed.

Lemma printint_roundtrip_witness : atoi (printint 2026 10 true ++ [0]) = Some 2026.
Proof. apply (printint_roundtrip 2026). lia. Defined.

(** ** The console's state *)

Definition ROWS : Z := 24.

(** The cursor is on the screen, above the last row. *)
Definition on_screen (k : console) : Prop := 0 <= c_pos k < ROWS * 80.

Definition same_input (k k' : console) : Prop :=
  c_buf k' = c_buf k /\ c_r k' = c_r k /\ c_w k' = c_w k /\ c_e k' = c_e k.

Lemma cgaputc_ok c pos crt : 0 <= pos < ROWS * 80 ->
  exists pos' crt', cgaputc c pos crt = Some (pos', crt') /\ 0 <= pos' < ROWS * 80.
Proof.
  unfold ROWS. intros Hp. unfold cgaputc.
  set (step := if c =? NEWLINE then _ else _). assert (Hs : 0 <= step.1 <= 24 * 80).
  { unfold step. destruct (c =? NEWLINE); [cbn; word|]. destruct (c =? BACKSPACE); [|cbn; lia]. cbn.
    rewrite Z.gtb_ltb. destruct (Z.ltb_spec 0 pos); lia. }
  destruct step as [pos1 crt1]. cbn [fst] in Hs. rewrite (proj2 (Z.ltb_ge pos1 0)), Z.gtb_ltb, (proj2 (Z.ltb_ge (25 * 80) pos1)) by lia. cbn [orb].
  rewrite Z.geb_leb. destruct (Z.leb_spec 24 (pos1 / 80)) as [H|H]; eexists _, _; (split; [reflexivity|]); unfold u16; word.
Qed.

Lemma consputc_run c cx s : on_screen (k_cons s) -> exists k', consputc c cx s = Done tt cx (set_k_cons k' s) /\
  same_input (k_cons s) k' /\ on_screen k'.
Proof.
  intros Hp. unfold consputc, upd_cons. rewrite bind_modify. unfold get_cons. rewrite bind_gets. cbn [k_cons set_k_cons c_pos c_crt set_c_serial].
  destruct (cgaputc_ok c (c_pos (k_cons s)) (c_crt (k_cons s)) Hp) as (pos & crt & E & Hpos). rewrite E.
  eexists. split; [reflexivity|]. by split.
Qed.

(** *** The characters typed *)

Definition typed (k : console) (from n : Z) : list Z := (fun j => ring k (from + j)) <$> seqZ 0 n.

(** The characters ready to be read, and the line being edited. *)
Definition ready (k : console) : list Z := typed k (c_r k) (u32 (c_w k - c_r k)).
Definition line (k : console) : list Z := typed k (c_w k) (u32 (c_e k - c_w k)).

Record cons_ok (k : console) : Prop := ConsOk {
  co_buf : length (c_buf k) = Z.to_nat INPUT_BUF;
  co_r : uint_ok (c_r k);
  co_w : uint_ok (c_w k);
  co_e : uint_ok (c_e k);
  co_count : u32 (c_w k - c_r k) + u32 (c_e k - c_w k) <= INPUT_BUF;
  co_line : NEWLINE ∉ line k;
  co_pos : on_screen k;
}.

Lemma typed_length k from n : 0 <= n -> Z.of_nat (length (typed k from n)) = n.
Proof. intros Hn. unfold typed. rewrite length_fmap, length_seqZ. lia. Qed.

Lemma typed_snoc k from n : 0 <= n -> typed k from (n + 1) = typed k from n ++ [ring k (from + n)].
Proof. intros Hn. unfold typed. rewrite seqZ_app by lia. rewrite fmap_app. f_equal. Qed.

Lemma typed_ext k k' from n : (forall j, 0 <= j < n -> ring k' (from + j) = ring k (from + j)) -> typed k' from n = typed k from n.
Proof. intros E. unfold typed. apply list_fmap_ext. intros i j [-> Hj]%lookup_seqZ. apply E. lia. Qed.

Lemma same_input_lists k k' : same_input k k' -> ready k' = ready k /\ line k' = line k.
Proof. intros (Eb & Er & Ew & Ee). unfold ready, line, typed, ring. by rewrite Eb, Er, Ew, Ee. Qed.

Lemma same_input_ok k k' : cons_ok k -> same_input k k' -> on_screen k' -> cons_ok k'.
Proof.
  intros [C1 C2 C3 C4 C5 C6 C7] Hs Hp. destruct (same_input_lists k k' Hs) as [_ El]. destruct Hs as (Eb & Er & Ew & Ee).
  split; [by rewrite Eb|by rewrite Er|by rewrite Ew|by rewrite Ee|by rewrite Er, Ew, Ee|by rewrite El|done].
Qed.

(** *** An abstract line editor *)

(** What a character does to the characters ready and the line being edited. *)
Definition edit (c : Z) (st : list Z * list Z) : list Z * list Z :=
  let '(rdy, l) := st in
  if c =? CTRL_P then st
  else if c =? CTRL_U then (rdy, [])
  else if (c =? CTRL_H) || (c =? DEL) then (rdy, removelast l)
  else if negb (c =? 0) && (Z.of_nat (length rdy + length l) <? INPUT_BUF) then
    let c := if c =? CR then NEWLINE else c in
    if (c =? NEWLINE) || (c =? CTRL_D) || (Z.of_nat (length rdy + length l) + 1 =? INPUT_BUF)
    then (rdy ++ l ++ [c], []) else (rdy, l ++ [c])
  else st.

Definition editor (k : console) : list Z * list Z := (ready k, line k).

Lemma ready_length k : Z.of_nat (length (ready k)) = u32 (c_w k - c_r k).
Proof. apply typed_length. apply u32_range. Qed.
Lemma line_length k : Z.of_nat (length (line k)) = u32 (c_e k - c_w k).
Proof. apply typed_length. apply u32_range. Qed.

(** The last character goes away. *)
Lemma erase_line k : cons_ok k -> c_e k <> c_w k -> let k' := set_c_e (u32 (c_e k - 1)) k in
  line k = line k' ++ [ring k (c_e k - 1)] /\ ready k' = ready k /\ cons_ok k'.
Proof.
  intros [C1 C2 C3 C4 C5 C6 C7] Hne k'.
  assert (Hn : u32 (c_e k - c_w k) = u32 (c_e k' - c_w k') + 1) by (cbn; word).
  assert (El : line k = line k' ++ [ring k (c_e k - 1)]).
  { unfold line. rewrite Hn, typed_snoc by apply u32_range. f_equal. f_equal. unfold ring. do 2 f_equal. cbn. unfold INPUT_BUF. word. }
  split; [exact El|]. split; [reflexivity|]. split; [exact C1|exact C2|exact C3|apply u32_range| | |exact C7].
  - cbn in *. lia.
  - intros Hin. apply C6. rewrite El. apply elem_of_app. by left.
Qed.

Definition stored (c : Z) (k : console) : console :=
  set_c_e (u32 (c_e k + 1)) (set_c_buf (<[Z.to_nat (c_e k mod INPUT_BUF) := c]> (c_buf k)) k).

Lemma stored_ring c k i : length (c_buf k) = Z.to_nat INPUT_BUF -> uint_ok (c_e k) ->
  ring (stored c k) i = if decide (u32 i mod INPUT_BUF = c_e k mod INPUT_BUF) then c else ring k i.
Proof.
  intros Hl He. unfold ring, stored. cbn [c_buf set_c_e set_c_buf]. case_decide as E.
  - rewrite E, list_lookup_insert_eq; [done|]. rewrite Hl. unfold INPUT_BUF. word.
  - rewrite list_lookup_insert_ne; [done|]. intros E'. apply E. unfold INPUT_BUF in *. apply Z2Nat.inj in E'; word.
Qed.

(** A character is added to the line, if there is room. *)
Lemma store_line c k : cons_ok k -> u32 (c_e k - c_r k) < INPUT_BUF ->
  line (stored c k) = line k ++ [c] /\ ready (stored c k) = ready k /\
  u32 (c_w k - c_r k) + u32 (c_e (stored c k) - c_w k) <= INPUT_BUF.
Proof.
  intros [C1 C2 C3 C4 C5 C6 C7] Hroom.
  assert (Hn : u32 (c_e (stored c k) - c_w (stored c k)) = u32 (c_e k - c_w k) + 1) by (cbn; unfold INPUT_BUF in *; word).
  assert (Hsum : u32 (c_e k - c_r k) = u32 (c_w k - c_r k) + u32 (c_e k - c_w k)) by (unfold INPUT_BUF in *; word).
  split; [|split; [|cbn in *; lia]].
  - unfold line. rewrite Hn, typed_snoc by apply u32_range. f_equal.
    + apply typed_ext. intros j Hj. rewrite stored_ring by done. rewrite decide_False; [done|]. cbn [c_w stored set_c_e set_c_buf] in *. unfold INPUT_BUF in *. word.
    + f_equal. rewrite stored_ring by done. rewrite decide_True; [done|]. cbn. unfold INPUT_BUF. word.
  - unfold ready. cbn [c_w c_r stored set_c_e set_c_buf]. apply typed_ext. intros j Hj. rewrite stored_ring by done.
    rewrite decide_False; [done|]. unfold INPUT_BUF in *. word.
Qed.

(** The line becomes ready. *)
Lemma commit_line k : uint_ok (c_r k) -> uint_ok (c_w k) -> uint_ok (c_e k) -> u32 (c_w k - c_r k) + u32 (c_e k - c_w k) <= INPUT_BUF ->
  let k' := set_c_w (c_e k) k in ready k' = ready k ++ line k /\ line k' = [].
Proof.
  intros C2 C3 C4 C5 k'. split.
  - unfold ready, line. cbn [c_w c_r k' set_c_w].
    replace (u32 (c_e k - c_r k)) with (u32 (c_w k - c_r k) + u32 (c_e k - c_w k)) by (unfold INPUT_BUF in *; word).
    unfold typed. rewrite seqZ_app by apply u32_range. rewrite fmap_app. f_equal.
    apply list_eq. intros i. rewrite !list_lookup_fmap. destruct (decide (Z.of_nat i < u32 (c_e k - c_w k))) as [Hi|Hi].
    + rewrite !lookup_seqZ_lt by done. cbn. f_equal. unfold ring. cbn [c_buf k' set_c_w]. do 2 f_equal. unfold INPUT_BUF in *. word.
    + rewrite !lookup_seqZ_ge by lia. done.
  - unfold line. cbn. by rewrite Z.sub_diag.
Qed.

Lemma line_nil k : cons_ok k -> c_e k = c_w k <-> line k = [].
Proof.
  intros [_ C2 C3 C4 _ _ _]. pose proof (line_length k) as Hl. split.
  - intros E. apply nil_length_inv. rewrite E, Z.sub_diag in Hl. change (u32 0) with 0 in Hl. lia.
  - intros E. rewrite E in Hl. cbn in Hl. word.
Qed.

Lemma bind_consputc {B} c cx s (f : unit -> M kernel B) : on_screen (k_cons s) -> exists k',
  (consputc c ≫= f) cx s = f tt cx (set_k_cons k' s) /\ same_input (k_cons s) k' /\ on_screen k'.
Proof. intros Hp. destruct (consputc_run c cx s Hp) as (k' & E & Hs). exists k'. split; [by erewrite bind_Done by exact E|exact Hs]. Qed.

Lemma kill_line_run fuel : forall cx s, cons_ok (k_cons s) -> (length (line (k_cons s)) < fuel)%nat ->
  exists k', kill_line fuel cx s = Done tt cx (set_k_cons k' s) /\ cons_ok k' /\ ready k' = ready (k_cons s) /\ line k' = [].
Proof.
  induction fuel as [|fuel IH]; intros cx s Hok Hl; [lia|]. cbn [kill_line]. unfold get_cons. rewrite bind_gets.
  destruct (Z.eqb_spec (c_e (k_cons s)) (c_w (k_cons s))) as [E|Hne]; cbn [negb andb].
  { exists (k_cons s). split; [by destruct s|]. split; [done|]. split; [done|]. by apply line_nil. }
  destruct (erase_line (k_cons s) Hok Hne) as (El & Er & Hok'). set (k1 := set_c_e _ _) in *.
  assert (Hnl : ring (k_cons s) (c_e (k_cons s) - 1) <> NEWLINE).
  { intros E. apply (co_line _ Hok). rewrite El, E. apply elem_of_app. right. by left. }
  rewrite (proj2 (Z.eqb_neq _ _) Hnl). cbn [negb]. unfold upd_cons. rewrite bind_modify. fold k1.
  destruct (bind_consputc BACKSPACE cx (set_k_cons k1 s) (fun _ => kill_line fuel) (co_pos _ Hok')) as (k2 & E2 & Hs2 & Hp2). rewrite E2.
  destruct (same_input_lists k1 k2 Hs2) as [Er2 El2]. cbn [k_cons set_k_cons] in *.
  destruct (IH cx (set_k_cons k2 s)) as (k' & E' & Hok'' & Er' & El').
  - by apply same_input_ok with k1.
  - cbn [k_cons set_k_cons]. rewrite El2. rewrite El, length_app in Hl. cbn in Hl. lia.
  - exists k'. split; [exact E'|]. split; [done|]. cbn [k_cons set_k_cons] in Er'. split; [congruence|done].
Qed.

(** The rest of the kernel after a character: readers may have been woken. *)
Definition at_console (s s' : kernel) (k : console) : Prop :=
  s' = set_k_cons k s \/ s' = woken chan_input (set_k_cons k s).

Lemma at_console_cons s s' k : at_console s s' k -> k_cons s' = k.
Proof. by intros [-> | ->]. Qed.

Lemma store_run cx s c : ptable_lock ∉ held cx -> cons_ok (k_cons s) -> Z.of_nat (length (ready (k_cons s)) + length (line (k_cons s))) < INPUT_BUF ->
  exists k' s', (upd_cons (stored c);; consputc c;; k ← get_cons;
      when ((c =? NEWLINE) || (c =? CTRL_D) || (c_e k =? u32 (c_r k + INPUT_BUF)))
        (upd_cons (fun k => set_c_w (c_e k) k);; wakeup chan_input)) cx s = Done tt cx s' /\
    at_console s s' k' /\ cons_ok k' /\
    editor k' = if (c =? NEWLINE) || (c =? CTRL_D) || (Z.of_nat (length (ready (k_cons s)) + length (line (k_cons s))) + 1 =? INPUT_BUF)
      then (ready (k_cons s) ++ line (k_cons s) ++ [c], []) else (ready (k_cons s), line (k_cons s) ++ [c]).
Proof.
  intros Hnh Hok Hroom. set (k := k_cons s) in *. pose proof (ready_length k) as Hr. pose proof (line_length k) as Hl.
  destruct Hok as [C1 C2 C3 C4 C5 C6 C7] eqn:Ek. clear Ek.
  assert (Hroom' : u32 (c_e k - c_r k) < INPUT_BUF) by (unfold INPUT_BUF in *; word).
  destruct (store_line c k) as (El & Er & Hc); [by split|done|]. set (k1 := stored c k) in *.
  unfold upd_cons. rewrite bind_modify. fold k. fold k1.
  destruct (consputc_run c cx (set_k_cons k1 s) C7) as (k2 & E2 & Hs2 & Hp2). erewrite bind_Done by exact E2. cbn [k_cons set_k_cons] in Hs2.
  unfold get_cons. rewrite bind_gets. cbn [k_cons set_k_cons]. destruct (same_input_lists k1 k2 Hs2) as [Er2 El2]. destruct Hs2 as (Eb & E2r & E2w & E2e).
  assert (Hfull : (c_e k2 =? u32 (c_r k2 + INPUT_BUF)) = (Z.of_nat (length (ready k) + length (line k)) + 1 =? INPUT_BUF)).
  { rewrite E2e, E2r. unfold k1, stored. cbn [c_e c_r set_c_e set_c_buf]. unfold INPUT_BUF in *.
    destruct (Z.eqb_spec (Z.of_nat (length (ready k) + length (line k)) + 1) 128); [apply Z.eqb_eq|apply Z.eqb_neq]; word. }
  rewrite Hfull. set (b := (c =? NEWLINE) || (c =? CTRL_D) || _). destruct b eqn:Hb; cbn [when].
  - rewrite bind_modify. cbn [k_cons set_k_cons]. rewrite wakeup_run by done. exists (set_c_w (c_e k2) k2). eexists. split; [reflexivity|].
    split; [by right|]. destruct (commit_line k2) as [Ecr Ecl]; [by rewrite E2r|by rewrite E2w|rewrite E2e; apply u32_range|by rewrite E2r, E2w, E2e|].
    split; [|unfold editor; by rewrite Ecr, Ecl, Er2, El2, Er, El].
    split; cbn [c_buf c_r c_w c_e set_c_w]; [by rewrite Eb; cbn; rewrite length_insert|by rewrite E2r|rewrite E2e; apply u32_range|rewrite E2e; apply u32_range| | |done].
    + rewrite E2e, E2r. rewrite Z.sub_diag. change (u32 0) with 0. cbn in Hc |- *. unfold INPUT_BUF in *. word.
    + rewrite Ecl. apply not_elem_of_nil.
  - exists k2. eexists. split; [reflexivity|]. split; [by left|]. split; [|unfold editor; by rewrite Er2, El2, Er, El].
    split; [by rewrite Eb; cbn; rewrite length_insert|by rewrite E2r|by rewrite E2w|rewrite E2e; apply u32_range|by rewrite E2r, E2w, E2e| |done].
    rewrite El2, El. apply not_elem_of_app. split; [done|]. apply orb_false_iff in Hb as [Hb _]. apply orb_false_iff in Hb as [Hb _].
    apply Z.eqb_neq in Hb. rewrite list_elem_of_singleton. congruence.
Qed.

Lemma removelast_snoc {A} (l : list A) x : removelast (l ++ [x]) = l.
Proof. apply removelast_last. Qed.

Lemma console_char_run c cx s : ptable_lock ∉ held cx -> cons_ok (k_cons s) -> exists k' s',
  console_char c cx s = Done (c =? CTRL_P) cx s' /\ at_console s s' k' /\ cons_ok k' /\ editor k' = edit c (editor (k_cons s)).
Proof.
  intros Hnh Hok. unfold console_char, edit. unfold editor at 2 4. unfold get_cons. rewrite bind_gets.
  destruct (c =? CTRL_P) eqn:Hp.
  { exists (k_cons s), s. split; [done|]. split; [left; by destruct s|]. done. }
  destruct (c =? CTRL_U).
  { destruct (kill_line_run (S (Z.to_nat INPUT_BUF)) cx s Hok) as (k' & E & Hok' & Er & El).
    - pose proof (line_length (k_cons s)) as Hl. pose proof (co_count _ Hok). pose proof (ready_length (k_cons s)). lia.
    - exists k'. eexists. erewrite bind_Done by exact E. split; [reflexivity|]. split; [by left|]. split; [done|]. unfold editor. by rewrite Er, El. }
  destruct ((c =? CTRL_H) || (c =? DEL)).
  { destruct (Z.eqb_spec (c_e (k_cons s)) (c_w (k_cons s))) as [E|Hne]; cbn [negb when].
    - exists (k_cons s), s. split; [done|]. split; [left; by destruct s|]. split; [done|]. apply line_nil in E; [|done]. unfold editor. by rewrite E.
    - destruct (erase_line (k_cons s) Hok Hne) as (El & Er & Hok'). set (k1 := set_c_e _ _) in *.
      destruct (consputc_run BACKSPACE cx (set_k_cons k1 s) (co_pos _ Hok')) as (k2 & E2 & Hs2 & Hp2).
      exists k2. eexists. split.
      { erewrite bind_Done; [reflexivity|]. unfold upd_cons. rewrite bind_modify. exact E2. }
      split; [by left|]. split; [by apply same_input_ok with k1|]. destruct (same_input_lists k1 k2 Hs2) as [Er2 El2].
      unfold editor. by rewrite Er2, El2, El, removelast_snoc, Er. }
  assert (Hfull : (u32 (c_e (k_cons s) - c_r (k_cons s)) <? INPUT_BUF) = (Z.of_nat (length (ready (k_cons s)) + length (line (k_cons s))) <? INPUT_BUF)).
  { pose proof (ready_length (k_cons s)) as Hr. pose proof (line_length (k_cons s)) as Hl. destruct Hok as [_ C2 C3 C4 C5 _ _].
    f_equal. unfold INPUT_BUF in *. word. }
  rewrite Hfull. destruct (negb (c =? 0) && _) eqn:Hroom; cbn [when].
  - apply andb_prop in Hroom as [_ Hroom]. apply Z.ltb_lt in Hroom.
    destruct (store_run cx s (if c =? CR then NEWLINE else c) Hnh Hok Hroom) as (k' & s' & E & Hrest).
    exists k', s'. split; [|exact Hrest]. erewrite bind_Done by exact E. reflexivity.
  - exists (k_cons s), s. split; [done|]. split; [left; by destruct s|]. done.
Qed.

Lemma console_chars_run cs : forall cx s d, ptable_lock ∉ held cx -> cons_ok (k_cons s) -> exists s',
  console_chars cs d cx s = Done (d || bool_decide (CTRL_P ∈ cs)) cx s' /\ cons_ok (k_cons s') /\
  editor (k_cons s') = foldl (fun st c => edit c st) (editor (k_cons s)) cs.
Proof.
  induction cs as [|c cs IH]; intros cx s d Hnh Hok; cbn [console_chars foldl].
  { exists s. split; [|done]. rewrite bool_decide_false by apply not_elem_of_nil. by rewrite orb_false_r. }
  destruct (console_char_run c cx s Hnh Hok) as (k1 & s1 & E1 & H1 & Hok1 & Ed1). erewrite bind_Done by exact E1.
  rewrite <- (at_console_cons _ _ _ H1) in Hok1, Ed1.
  destruct (IH cx s1 (d || (c =? CTRL_P)) Hnh Hok1) as (s' & E & Hok' & Ed'). exists s'. split; [|split; [done|by rewrite Ed', Ed1]].
  rewrite E. f_equal. rewrite <- orb_assoc. f_equal. destruct (Z.eqb_spec c CTRL_P) as [->|Hc]; cbn [orb].
  - symmetry. apply bool_decide_eq_true. by left.
  - apply bool_decide_ext. rewrite elem_of_cons. naive_solver.
Qed.

(** *** Reading *)

Lemma read_ready k c r : cons_ok k -> ready k = c :: r -> let k' := set_c_r (u32 (c_r k + 1)) k in
  c_r k <> c_w k /\ ring k (c_r k) = c /\ ready k' = r /\ line k' = line k /\ cons_ok k'.
Proof.
  intros [C1 C2 C3 C4 C5 C6 C7] E k'. pose proof (ready_length k) as Hl. rewrite E in Hl. cbn [length] in Hl.
  assert (Hr : ready k = ring k (c_r k) :: ready k').
  { unfold ready at 1, typed. replace (u32 (c_w k - c_r k)) with (Z.succ (u32 (c_w k - c_r k) - 1)) by lia.
    rewrite seqZ_cons by lia. cbn [fmap list_fmap]. rewrite Z.add_0_r. f_equal. unfold ready, typed. cbn [c_w c_r k' set_c_r].
    replace (u32 (c_w k - u32 (c_r k + 1))) with (u32 (c_w k - c_r k) - 1) by word.
    apply list_eq. intros i. rewrite !list_lookup_fmap. destruct (decide (Z.of_nat i < u32 (c_w k - c_r k) - 1)) as [Hi|Hi].
    - rewrite !lookup_seqZ_lt by lia. cbn [fmap option_fmap option_map]. f_equal. unfold ring. cbn [c_buf k' set_c_r]. do 2 f_equal. unfold INPUT_BUF. word.
    - rewrite !lookup_seqZ_ge by lia. done. }
  rewrite E in Hr. injection Hr as E1 E2. split; [intros Ew; rewrite Ew, Z.sub_diag in Hl; change (u32 0) with 0 in Hl; lia|].
  split; [done|]. split; [done|]. split; [done|]. split; cbn; try done; [apply u32_range|].
  unfold INPUT_BUF in *. word.
Qed.

Section reading.
Context `{DiskDriver}.

Lemma consoleread_loop_run ip target rest l : forall fuel n acc cx s, cons_ok (k_cons s) ->
  ready (k_cons s) = l ++ NEWLINE :: rest -> NEWLINE ∉ l -> CTRL_D ∉ l -> Z.of_nat (length l) < n -> (length l < fuel)%nat ->
  exists k', consoleread_loop fuel ip target n acc cx s =
    (release cons_lock;; ilock ip;; mret (target - n + Z.of_nat (length l) + 1, acc ++ l ++ [NEWLINE])) cx (set_k_cons k' s) /\
    cons_ok k' /\ ready k' = rest /\ line k' = line (k_cons s).
Proof.
  induction l as [|c l IH]; intros fuel n acc cx s Hok Er Hn Hd Hlen Hf; (destruct fuel as [|fuel]; [cbn in Hf; lia|]);
    cbn [length] in Hlen, Hf; cbn [consoleread_loop]; unfold get_cons; rewrite (proj2 (Z.gtb_lt _ _)), bind_gets by lia.
  - destruct (read_ready _ _ _ Hok Er) as (Hne & Ec & Er' & El & Hok'). rewrite (proj2 (Z.eqb_neq _ _) Hne), Ec.
    unfold upd_cons. rewrite bind_modify. change (NEWLINE =? CTRL_D) with false. rewrite Z.eqb_refl.
    eexists. split; [cbn [length]; by replace (target - n + Z.of_nat 0 + 1) with (target - (n - 1)) by lia|done].
  - apply not_elem_of_cons in Hn as [Hn Hnl], Hd as [Hd Hdl].
    destruct (read_ready _ _ _ Hok Er) as (Hne & Ec & Er' & El & Hok'). rewrite (proj2 (Z.eqb_neq _ _) Hne), Ec.
    unfold upd_cons. rewrite bind_modify, (proj2 (Z.eqb_neq c CTRL_D)), (proj2 (Z.eqb_neq c NEWLINE)) by congruence.
    destruct (IH fuel (n - 1) (acc ++ [c]) cx (set_k_cons (set_c_r (u32 (c_r (k_cons s) + 1)) (k_cons s)) s)) as (k' & E & Hok'' & Er'' & El'');
      cbn [k_cons set_k_cons]; [done|done|done|done|lia|lia|].
    exists k'. split; [|cbn [k_cons set_k_cons] in El''; split; [done|split; [done|congruence]]].
    rewrite E. cbn [length]. rewrite <- app_assoc. cbn [app].
    by replace (target - (n - 1) + Z.of_nat (length l) + 1) with (target - n + Z.of_nat (S (length l)) + 1) by lia.
Qed.
End reading.

(** ** What the console promises *)

(** An empty input buffer, the cursor at the last position of the screen. *)
Definition ex_console : console := Console (replicate (Z.to_nat INPUT_BUF) 0) 0 0 0 (ROWS * 80 - 1) ∅ [].
Definition ex_tty : kernel := set_k_cons ex_console ex_kernel.

Lemma ex_console_ok : cons_ok ex_console.
Proof. split; try (vm_compute; intuition discriminate). apply not_elem_of_nil. Qed.

(** C17: The keyboard interrupt implements a line editor.  For any characters
    that arrive, [consoleintr] completes: the ring buffer with its three wrapping
    indices keeps its invariant, and the characters ready to be read and the line
    being edited are what the abstract editor [edit] makes of them, one character
    after the other: control-U empties the line (the loop that erases it ends),
    backspace drops its last character, a character that does not fit is dropped,
    and an end of line, control-D or a full buffer make the line ready.  The
    process table is printed when a control-P was among the characters. *)
Theorem console_edits_lines (procdump : M kernel unit) (cs : list Z) (cx : ctx) (s : kernel) :
  cons_lock ∉ held cx -> ptable_lock ∉ held cx -> cons_ok (k_cons s) ->
  exists s', consoleintr procdump cs cx s = (when (bool_decide (CTRL_P ∈ cs)) procdump) cx s' /\
    cons_ok (k_cons s') /\ editor (k_cons s') = foldl (fun st c => edit c st) (editor (k_cons s)) cs.
Proof.
  intros Hc Hp Hok. unfold consoleintr. rewrite bind_acquire by done.
  destruct (console_chars_run cs (Ctx ({[cons_lock]} ∪ held cx) (cur cx)) s false) as (s' & E & Hok' & Ed); [|done|].
  - cbn [held]. apply not_elem_of_union. split; [by apply not_elem_of_singleton|done].
  - exists s'. split; [|done]. erewrite bind_Done by exact E. erewrite bind_Done by by apply release_acquired. by rewrite ctx_eta.
Qed.

Lemma console_edits_lines_witness : exists s',
  consoleintr (mret tt) [97; 98; CTRL_H; CR; 99] ex_idle ex_tty = Done tt ex_idle s' /\ editor (k_cons s') = ([97; NEWLINE], [99]).
Proof.
  destruct (console_edits_lines (mret tt) [97; 98; CTRL_H; CR; 99] ex_idle ex_tty) as (s' & E & _ & Ed).
  - apply not_elem_of_empty.
  - apply not_elem_of_empty.
  - exact ex_console_ok.
  - exists s'. split; [exact E|exact Ed].
Defined.

Lemma consputs_run l : forall cx s, on_screen (k_cons s) -> exists k', consputs l cx s = Done tt cx (set_k_cons k' s) /\
  same_input (k_cons s) k' /\ on_screen k'.
Proof.
  induction l as [|c l IH]; intros cx s Hs; cbn [consputs].
  { exists (k_cons s). split; [by destruct s|]. split; [by repeat split|done]. }
  destruct (bind_consputc c cx s (fun _ => consputs l) Hs) as (k1 & E & Hi & Hs1). rewrite E.
  destruct (IH cx (set_k_cons k1 s) Hs1) as (k2 & E2 & Hi2 & Hs2). exists k2. split; [exact E2|]. split; [|done].
  destruct Hi as (? & ? & ? & ?), Hi2 as (? & ? & ? & ?). cbn in *. repeat split; congruence.
Qed.

(** C34: The state of the console is well-formed at all times, so that output
    never stops the kernel.  Whatever is printed, through any number of scrolls,
    [cprintf] completes, the cursor stays on the screen - the panic of [cgaputc]
    on a position out of range is not reached - and the input buffer with the
    line being edited is as it was. *)
Theorem cprintf_keeps_console (fmt : list Z) (args : list arg) (l : list Z) (cx : ctx) (s : kernel) :
  cons_lock ∉ held cx -> cons_ok (k_cons s) -> cprintf_chars fmt args = Some l ->
  exists k', cprintf fmt args cx s = Done tt cx (set_k_cons k' s) /\ cons_ok k' /\ editor k' = editor (k_cons s).
Proof.
  intros Hc Hok El. unfold cprintf. rewrite bind_acquire, El by done.
  destruct (consputs_run l (Ctx ({[cons_lock]} ∪ held cx) (cur cx)) s (co_pos _ Hok)) as (k' & E & Hi & Hs).
  exists k'. erewrite bind_Done by exact E. rewrite release_acquired, ctx_eta by done. split; [done|].
  split; [by apply same_input_ok with (k_cons s)|]. unfold editor. by destruct (same_input_lists _ _ Hi) as [-> ->].
Qed.

(** [cprintf("%d\n", -7)] on the last position of the screen. *)
Lemma cprintf_keeps_console_witness : exists k', cprintf [37; 100; 10] [AInt (-7)] ex_idle ex_tty = Done tt ex_idle (set_k_cons k' ex_tty) /\
  cons_ok k' /\ editor k' = ([], []).
Proof.
  apply (cprintf_keeps_console [37; 100; 10] [AInt (-7)] [45; 55; 10] ex_idle ex_tty).
  - apply not_elem_of_empty.
  - exact ex_console_ok.
  - vm_compute. reflexivity.
Defined.

Section consoleread.
Context `{DiskDriver}.

(** A reader gets the first line that is ready.  A process that holds the
    lock of the console's inode and reads at least as many bytes as the line has
    gets the line with its end of line and nothing more; what follows stays in
    the buffer for the next reader, the line being edited is not touched, and the
    process has the inode's lock again. *)
Theorem consoleread_line (ip n : nat) (l rest : list Z) (cx : ctx) (s : kernel) (p : nat) (pr : proc) (inode : inode) :
  held cx = ∅ -> runs cx s p pr -> p_state pr = RUNNING ->
  k_inodes s !! ip = Some inode -> 1 <= i_ref inode -> i_valid inode = true -> i_lock inode = SleepLock true (p_pid pr) ->
  cons_ok (k_cons s) -> ready (k_cons s) = l ++ NEWLINE :: rest -> NEWLINE ∉ l -> CTRL_D ∉ l -> (length l < n)%nat ->
  exists s', consoleread ip (Z.of_nat n) cx s = Done (Z.of_nat (length l) + 1, l ++ [NEWLINE]) cx s' /\
    cons_ok (k_cons s') /\ editor (k_cons s') = (rest, line (k_cons s)) /\ k_inodes s' !! ip = Some inode.
Proof.
  intros Hh Hrun Hst Hip Href Hv Hlk Hok Er Hn Hd Hlen. assert (Hnh : forall lk, lk ∉ held cx) by (rewrite Hh; intros lk; apply not_elem_of_empty).
  unfold consoleread. erewrite bind_Done by (eapply iunlock_run; [exact Hrun|exact Hip|done..]).
  set (s1 := woken _ _). rewrite bind_acquire by done.
  destruct (consoleread_loop_run ip (Z.of_nat n) rest l (S (Z.to_nat (Z.of_nat n))) (Z.of_nat n) []
    (Ctx ({[cons_lock]} ∪ held cx) (cur cx)) s1) as (k' & E & Hok' & Er' & El'); [done..|lia|lia|].
  rewrite E. erewrite bind_Done by by apply release_acquired. rewrite ctx_eta.
  assert (Hip1 : k_inodes (set_k_cons k' s1) !! ip = Some (set_i_lock (SleepLock false 0) inode)).
  { cbn. apply list_lookup_insert_eq. by apply lookup_lt_Some in Hip. }
  erewrite bind_Done; [|eapply (ilock_valid cx _ p pr); [|exact Hip1|done..]].
  - eexists. split; [unfold mret, M_ret; do 2 f_equal; lia|]. cbn [lock_inode k_cons set_k_inodes set_k_cons k_inodes].
    split; [done|]. split; [unfold editor; by rewrite Er', El'|].
    rewrite list_lookup_insert_eq by (apply lookup_lt_Some in Hip1; exact Hip1). f_equal. destruct inode; cbn in *. by rewrite Hlk.
  - destruct Hrun as [Hc Hp]. split; [done|]. by apply (runs_woken (chan_inode_lock ip) cx s p pr).
Qed.
End consoleread.

Definition ex_typed : console :=
  Console (<[0%nat := 97]> (<[1%nat := NEWLINE]> (replicate (Z.to_nat INPUT_BUF) 0))) 0 2 2 0 ∅ [].
Definition ex_cons_inode : inode := Inode 1 3 1 (SleepLock true 1) true T_DEV 1 1 1 0 (replicate 13 0).
Definition ex_reading : kernel := set_k_inodes [ex_cons_inode] (set_k_cons ex_typed ex_kernel).

Lemma consoleread_line_witness : exists s',
  consoleread 0 16 ex_idle ex_reading = Done (2, [97; NEWLINE]) ex_idle s' /\ cons_ok (k_cons s') /\
  editor (k_cons s') = ([], []) /\ k_inodes s' !! 0%nat = Some ex_cons_inode.
Proof.
  apply (consoleread_line 0 16 [97] [] ex_idle ex_reading 0 ex_proc ex_cons_inode); try reflexivity.
  - split; reflexivity.
  - split; try (vm_compute; intuition discriminate). apply not_elem_of_nil.
  - intros E%list_elem_of_singleton. discriminate E.
  - intros E%list_elem_of_singleton. discriminate E.
  - cbn. lia.
Defined.
