(* ===== verification/Pipe.v ===== *)
(** * Pipes (src/pipe.c)

    A pipe occupies a page of its own; [k_pipes] maps the address of the page to
    the structure stored there.  [nread] and [nwrite] are unsigned counters that
    wrap around. *)

From S2P Require Import Prelude Layout CString Spinlock Kalloc State Sched.

Definition PIPESIZE : Z := 512.

Definition pipe_lock (p : Z) : lockid := ("pipe"%string, p).

(** [&p->nread] and [&p->nwrite]: after the spin lock and the data. *)
Definition chan_nread (p : Z) : Z := p + 52 + PIPESIZE.
Definition chan_nwrite (p : Z) : Z := p + 52 + PIPESIZE + 4.

Definition pipe_at (p : Z) : M kernel pipe := fun c s =>
  match k_pipes s !! p with Some pi => Done pi c s | None => Undef "not a pipe" end.

Definition set_pipe (p : Z) (pi : pipe) : M kernel unit :=
  modify (fun s => set_k_pipes (<[p := pi]> (k_pipes s)) s).

Definition full (pi : pipe) : bool := pi_nwrite pi =? u32 (pi_nread pi + PIPESIZE).
Definition empty (pi : pipe) : bool := pi_nread pi =? pi_nwrite pi.

(** [p->data[p->nwrite++ % PIPESIZE] = ch] *)
Definition put_byte (ch : Z) (pi : pipe) : pipe :=
  set_pi_nwrite (u32 (pi_nwrite pi + 1))
    (set_pi_data (<[Z.to_nat (pi_nwrite pi mod PIPESIZE) := ch]> (pi_data pi)) pi).

(** [p->data[p->nread++ % PIPESIZE]] *)
Definition get_byte (pi : pipe) : Z * pipe :=
  (default 0 (pi_data pi !! Z.to_nat (pi_nread pi mod PIPESIZE)),
   set_pi_nread (u32 (pi_nread pi + 1)) pi).

(** [for(i = 0; i < n; i++)] of [pipewrite]; a writer that sleeps goes on at
    the same byte. *)
Fixpoint pipewrite_loop (p : Z) (src : list Z) (n : Z) : M kernel Z :=
  match src with
  | [] =>
    wakeup (chan_nread p);;
    release (pipe_lock p);;
    mret n
  | ch :: src' =>
    pi ← pipe_at p;
    if full pi then
      me ← myproc;
      pr ← proc_at me;
      if negb (pi_readopen pi) || p_killed pr then release (pipe_lock p);; mret (-1)
      else
        wakeup (chan_nread p);;
        sleep (chan_nwrite p) (pipe_lock p)
    else
      set_pipe p (put_byte ch pi);;
      pipewrite_loop p src' n
  end.

(** [src] are the bytes at [addr]. *)
Definition pipewrite (p : Z) (src : list Z) (n : Z) : M kernel Z :=
  acquire (pipe_lock p);;
  pipewrite_loop p (take (Z.to_nat n) src) n.

Fixpoint piperead_loop (n : nat) (p : Z) (acc : list Z) : M kernel (list Z) :=
  match n with
  | O => mret acc
  | S n' =>
    pi ← pipe_at p;
    if empty pi then mret acc
    else
      let '(ch, pi) := get_byte pi in
      set_pipe p pi;;
      piperead_loop n' p (acc ++ [ch])
  end.

(** The number of bytes, and the bytes stored at [addr]. *)
Definition piperead (p n : Z) : M kernel (Z * list Z) :=
  acquire (pipe_lock p);;
  pi ← pipe_at p;
  if empty pi && pi_writeopen pi then
    me ← myproc;
    pr ← proc_at me;
    if p_killed pr then release (pipe_lock p);; mret (-1, [])
    else sleep (chan_nread p) (pipe_lock p)
  else
    bytes ← piperead_loop (Z.to_nat n) p [];
    wakeup (chan_nwrite p);;
    release (pipe_lock p);;
    mret (Z.of_nat (length bytes), bytes).

Section alloc.
Context (kend : Z).

(** The page of a freed pipe is no longer one. *)
Definition free_pipe (p : Z) : M kernel unit :=
  zoom L_mem (kfree kend p);;
  modify (fun s => set_k_pipes (delete p (k_pipes s)) s).

Definition pipeclose (p : Z) (writable : bool) : M kernel unit :=
  acquire (pipe_lock p);;
  pi ← pipe_at p;
  (if writable
   then set_pipe p (set_pi_writeopen false pi);; wakeup (chan_nread p)
   else set_pipe p (set_pi_readopen false pi);; wakeup (chan_nwrite p));;
  pi ← pipe_at p;
  if negb (pi_readopen pi) && negb (pi_writeopen pi)
  then release (pipe_lock p);; free_pipe p
  else release (pipe_lock p).
End alloc.

(** ** The ring buffer is a queue *)

Definition pipe_ok (pi : pipe) : Prop :=
  length (pi_data pi) = Z.to_nat PIPESIZE /\ uint_ok (pi_nread pi) /\ uint_ok (pi_nwrite pi) /\
  u32 (pi_nwrite pi - pi_nread pi) <= PIPESIZE.

Definition count (pi : pipe) : Z := u32 (pi_nwrite pi - pi_nread pi).
Definition slot (pi : pipe) (k : Z) : Z := byte_at (pi_data pi) ((pi_nread pi + k) mod PIPESIZE).
Definition contents (pi : pipe) : list Z := slot pi <$> seqZ 0 (count pi).

Lemma contents_length pi : Z.of_nat (length (contents pi)) = count pi.
Proof. unfold contents. rewrite length_fmap, length_seqZ. assert (0 <= count pi) by (unfold count; word). lia. Qed.

Lemma contents_lookup pi (k : nat) : Z.of_nat k < count pi -> contents pi !! k = Some (slot pi (Z.of_nat k)).
Proof.
  intros Hk. unfold contents. rewrite list_lookup_fmap, lookup_seqZ_lt by lia. done.
Qed.

Lemma full_count pi : pipe_ok pi -> full pi = bool_decide (count pi = PIPESIZE).
Proof.
  intros (_ & Hr & Hw & Hc). unfold full, count, PIPESIZE in *. case_bool_decide as E.
  - apply Z.eqb_eq. word.
  - apply Z.eqb_neq. word.
Qed.

Lemma empty_contents pi : pipe_ok pi -> empty pi = bool_decide (contents pi = []).
Proof.
  intros (_ & Hr & Hw & Hc). unfold empty. pose proof (contents_length pi) as Hl. case_bool_decide as E.
  - rewrite E in Hl. cbn in Hl. apply Z.eqb_eq. unfold count in Hl. word.
  - apply Z.eqb_neq. intros En. apply E. apply nil_length_inv. unfold count in Hl.
    rewrite En, Z.sub_diag in Hl. change (u32 0) with 0 in Hl. lia.
Qed.

Lemma put_byte_queue ch pi : pipe_ok pi -> full pi = false ->
  pipe_ok (put_byte ch pi) /\ contents (put_byte ch pi) = contents pi ++ [ch].
Proof.
  intros Hok Hf. rewrite full_count in Hf by done. apply bool_decide_eq_false in Hf.
  destruct Hok as (Hl & Hr & Hw & Hc). fold (count pi) in Hc.
  assert (Hcnt : count (put_byte ch pi) = count pi + 1) by (unfold count, PIPESIZE in *; cbn; word).
  assert (Hpos : 0 <= count pi) by (unfold count; word).
  split.
  { split_and!; cbn; [by rewrite length_insert|done|apply u32_range|]. fold (count pi).
    change (u32 (u32 (pi_nwrite pi + 1) - pi_nread pi)) with (count (put_byte ch pi)). lia. }
  apply list_eq. intros k. pose proof (contents_length pi) as HL.
  destruct (decide (Z.of_nat k < count pi)) as [Hk|Hk].
  - rewrite contents_lookup by lia. rewrite lookup_app_l by lia. rewrite contents_lookup by done.
    f_equal. unfold slot, byte_at. cbn. rewrite list_lookup_insert_ne; [done|].
    intros E. apply Z2Nat.inj in E; unfold count, PIPESIZE in *; word.
  - destruct (decide (Z.of_nat k = count pi)) as [Ek|Hk'].
    + rewrite contents_lookup by lia. rewrite lookup_app_r by lia.
      replace (k - length (contents pi))%nat with 0%nat by lia. cbn [lookup list_lookup]. f_equal.
      unfold slot, byte_at. cbn. rewrite Ek.
      replace ((pi_nread pi + count pi) mod PIPESIZE) with (pi_nwrite pi mod PIPESIZE)
        by (unfold count, PIPESIZE; word).
      rewrite list_lookup_insert_eq; [done|]. rewrite Hl. unfold PIPESIZE. word.
    + rewrite !lookup_ge_None_2; [done|rewrite length_app; cbn; lia|].
      pose proof (contents_length (put_byte ch pi)). lia.
Qed.

Lemma get_byte_queue pi ch pi' : pipe_ok pi -> empty pi = false -> get_byte pi = (ch, pi') ->
  pipe_ok pi' /\ contents pi = ch :: contents pi'.
Proof.
  intros Hok He [= Hch <-]. rewrite empty_contents in He by done. apply bool_decide_eq_false in He.
  pose proof (contents_length pi) as HL. assert (length (contents pi) <> 0%nat) by (by intros ?%nil_length_inv).
  destruct Hok as (Hl & Hr & Hw & Hc). fold (count pi) in Hc.
  set (pi' := set_pi_nread _ pi). assert (Hcnt : count pi' = count pi - 1).
  { assert (0 < count pi) by lia. subst pi'. unfold count, PIPESIZE in *; cbn; word. }
  split; [split_and!; cbn; try done; [apply u32_range|]; change (count pi' <= PIPESIZE); lia|].
  apply list_eq. intros [|k].
  - rewrite contents_lookup by lia. cbn [lookup list_lookup]. f_equal. rewrite <- Hch. unfold slot, byte_at.
    by rewrite Z.add_0_r.
  - cbn [lookup list_lookup]. pose proof (contents_length pi') as HL'.
    destruct (decide (Z.of_nat k < count pi')) as [Hk|Hk].
    + change (contents pi !! S k = contents pi' !! k).
      rewrite !contents_lookup by lia. f_equal. unfold slot. cbn. f_equal.
      unfold PIPESIZE. word.
    + change (contents pi !! S k = contents pi' !! k). rewrite !lookup_ge_None_2 by lia. done.
Qed.

(** ** The calls on a pipe *)

Definition with_pipe (p : Z) (pi : pipe) (s : kernel) : kernel :=
  set_k_pipes (<[p := pi]> (k_pipes s)) s.

Definition same_ends (pi pi' : pipe) : Prop :=
  pi_readopen pi' = pi_readopen pi /\ pi_writeopen pi' = pi_writeopen pi.

(** [pi'] holds [q], and is otherwise as [pi]. *)
Definition holds (pi pi' : pipe) (q : list Z) : Prop :=
  pipe_ok pi' /\ contents pi' = q /\ same_ends pi pi'.

Lemma holds_refl pi : pipe_ok pi -> holds pi pi (contents pi).
Proof. intros. split; [done|]. split; [done|]. by split. Qed.

Lemma holds_trans pi pi' pi'' q q' : holds pi pi' q -> holds pi' pi'' q' -> holds pi pi'' q'.
Proof. intros (_ & _ & [E1 E2]) (H1 & H2 & [E3 E4]). split; [done|]. split; [done|]. split; congruence. Qed.

Lemma with_pipe_id p pi s : k_pipes s !! p = Some pi -> with_pipe p pi s = s.
Proof. intros Hp. unfold with_pipe. rewrite insert_id by done. by destruct s. Qed.

Lemma with_pipe_twice p pi pi' s : with_pipe p pi' (with_pipe p pi s) = with_pipe p pi' s.
Proof. unfold with_pipe. cbn. by rewrite insert_insert_eq. Qed.

Lemma with_pipe_lookup p pi s : k_pipes (with_pipe p pi s) !! p = Some pi.
Proof. apply lookup_insert_eq. Qed.

Lemma bind_pipe_at {B} p pi (k : pipe -> M kernel B) c s :
  k_pipes s !! p = Some pi -> (pipe_at p ≫= k) c s = k pi c s.
Proof. intros E. unfold mbind, M_bind, pipe_at. by rewrite E. Qed.

Lemma bind_set_pipe {B} p pi (k : unit -> M kernel B) c s :
  (set_pipe p pi ≫= k) c s = k tt c (with_pipe p pi s).
Proof. done. Qed.

Lemma piperead_loop_run p n : forall pi acc c s, k_pipes s !! p = Some pi -> pipe_ok pi ->
  exists pi', holds pi pi' (drop n (contents pi)) /\
    piperead_loop n p acc c s = Done (acc ++ take n (contents pi)) c (with_pipe p pi' s).
Proof.
  induction n as [|n IH]; intros pi acc c s Hp Hok; cbn [piperead_loop].
  - exists pi. split; [by apply holds_refl|]. by rewrite app_nil_r, with_pipe_id.
  - erewrite bind_pipe_at by done. destruct (empty pi) eqn:He.
    + rewrite empty_contents in He by done. apply bool_decide_eq_true in He. rewrite He.
      exists pi. split; [rewrite drop_nil, <- He; by apply holds_refl|]. by rewrite take_nil, app_nil_r, with_pipe_id.
    + destruct (get_byte pi) as [ch pi1] eqn:Hg. destruct (get_byte_queue _ _ _ Hok He Hg) as [Hok1 Hc].
      rewrite bind_set_pipe. destruct (IH pi1 (acc ++ [ch]) c (with_pipe p pi1 s)) as (pi' & Hh & Hrun);
        [apply with_pipe_lookup|done|].
      exists pi'. rewrite Hrun, Hc, with_pipe_twice. split; [|cbn; by rewrite <- app_assoc].
      eapply holds_trans; [|exact Hh]. split_and!; [done|reflexivity|]. by injection Hg as _ <-.
Qed.

(** The bytes that fit are queued; the rest of the call depends on whether any
    are left. *)
Lemma pipewrite_loop_run p n : forall l pi c s, k_pipes s !! p = Some pi -> pipe_ok pi ->
  let room := Z.to_nat (PIPESIZE - count pi) in
  exists pi', holds pi pi' (contents pi ++ take room l) /\
    pipewrite_loop p l n c s = pipewrite_loop p (drop room l) n c (with_pipe p pi' s) /\
    (drop room l <> [] -> full pi' = true).
Proof.
  induction l as [|ch l IH]; intros pi c s Hp Hok room.
  - exists pi. rewrite take_nil, drop_nil, app_nil_r, with_pipe_id by done.
    split; [by apply holds_refl|done].
  - pose proof (contents_length pi) as Hl. assert (count pi <= PIPESIZE) by apply Hok.
    destruct (full pi) eqn:Hf.
    + exists pi. assert (room = 0%nat) as ->.
      { rewrite full_count in Hf by done. apply bool_decide_eq_true in Hf. lia. }
      rewrite take_0, drop_0, app_nil_r, with_pipe_id by done. split; [by apply holds_refl|done].
    + destruct (put_byte_queue ch pi Hok Hf) as [Hok1 Hc].
      cbn [pipewrite_loop]. erewrite bind_pipe_at, Hf, bind_set_pipe by done.
      destruct (IH (put_byte ch pi) c (with_pipe p (put_byte ch pi) s)) as (pi' & Hh & Hrun & Hfull);
        [apply with_pipe_lookup|done|].
      pose proof (contents_length (put_byte ch pi)) as Hl1. rewrite Hc, length_app in Hl1. cbn in Hl1.
      assert (room = S (Z.to_nat (PIPESIZE - count (put_byte ch pi)))) as ->.
      { rewrite full_count in Hf by done. apply bool_decide_eq_false in Hf. lia. }
      exists pi'. cbn [take drop]. rewrite Hc, <- app_assoc in Hh. rewrite Hrun, with_pipe_twice.
      split; [|done]. eapply holds_trans; [|exact Hh]. by split_and!.
Qed.

Section calls.
Context (c : ctx) (s : kernel) (me : nat) (pr : proc) (p : Z) (pi : pipe).
Context (Hruns : runs c s me pr) (Hrunning : p_state pr = RUNNING) (Hheld : held c = ∅).
Context (Hp : k_pipes s !! p = Some pi) (Hok : pipe_ok pi).

Lemma pipewrite_run src n : let l := take (Z.to_nat n) src in let room := Z.to_nat (PIPESIZE - count pi) in
  exists pi', holds pi pi' (contents pi ++ take room l) /\
    pipewrite p src n c s =
      if bool_decide (length l <= room)%nat then Done n c (woken (chan_nread p) (with_pipe p pi' s))
      else if negb (pi_readopen pi) || p_killed pr then Done (-1) c (with_pipe p pi' s)
      else Sleep (chan_nwrite p) (slept me (chan_nwrite p) (woken (chan_nread p) (with_pipe p pi' s))).
Proof using Hruns Hrunning Hheld Hp Hok.
  intros l room. unfold pipewrite. rewrite bind_acquire by set_solver. fold l.
  destruct (pipewrite_loop_run p n l pi (Ctx ({[pipe_lock p]} ∪ held c) (cur c)) s Hp Hok)
    as (pi' & Hh & Hrun & Hfull). exists pi'. split; [done|]. rewrite Hrun. fold room in Hfull |- *.
  case_bool_decide as Hlen.
  - rewrite drop_ge by done. cbn [pipewrite_loop].
    erewrite bind_Done by (apply wakeup_run; cbn [held]; set_solver). by rewrite bind_release by set_solver.
  - destruct (drop room l) as [|ch rest] eqn:E; [apply (f_equal length) in E; rewrite length_drop in E; cbn in E; lia|].
    cbn [pipewrite_loop]. erewrite bind_pipe_at by apply with_pipe_lookup. rewrite Hfull by done.
    erewrite bind_myproc by exact Hruns. unfold proc_at. erewrite bind_elem_at by apply Hruns.
    destruct Hh as (_ & _ & [-> _]). destruct (_ || _); [by rewrite bind_release by set_solver|].
    erewrite bind_Done by (apply wakeup_run; cbn [held]; set_solver).
    eapply sleep_run; [by apply runs_woken| |done]. cbn [held]. set_solver.
Qed.

Lemma piperead_run n : let q := contents pi in
  exists pi', holds pi pi' (drop (Z.to_nat n) q) /\
    piperead p n c s =
      if bool_decide (q = []) && pi_writeopen pi then
        if p_killed pr then Done (-1, []) c s else Sleep (chan_nread p) (slept me (chan_nread p) s)
      else Done (Z.of_nat (length (take (Z.to_nat n) q)), take (Z.to_nat n) q) c
             (woken (chan_nwrite p) (with_pipe p pi' s)).
Proof using Hruns Hrunning Hheld Hp Hok.
  intros q. unfold piperead. rewrite bind_acquire by set_solver. erewrite bind_pipe_at by done.
  rewrite empty_contents by done. fold q.
  destruct (piperead_loop_run p (Z.to_nat n) pi [] (Ctx ({[pipe_lock p]} ∪ held c) (cur c)) s Hp Hok)
    as (pi' & Hh & Hrun). exists pi'. split; [done|].
  destruct (bool_decide (q = []) && pi_writeopen pi).
  - erewrite bind_myproc by exact Hruns. unfold proc_at. erewrite bind_elem_at by apply Hruns.
    destruct (p_killed pr); [by rewrite bind_release by set_solver|].
    eapply sleep_run; [exact Hruns| |done]. cbn [held]. set_solver.
  - erewrite bind_Done by exact Hrun. erewrite bind_Done by (apply wakeup_run; cbn [held]; set_solver).
    by rewrite bind_release by set_solver.
Qed.
End calls.

(** ** Transfer through a pipe

    A history of the pipe at [p] consists of runs of [pipewrite] and [piperead]
    by any processes, a run ending when the call returns or goes to sleep (a
    writer that is woken calls again with its remaining bytes), and of other
    changes of the kernel that leave the pipe alone. *)

Inductive event :=
  | EWrite (bytes : list Z) (finished : bool)
  | ERead (bytes : list Z).

Inductive history (p : Z) (s0 : kernel) : list event -> kernel -> Prop :=
  | h_start : history p s0 [] s0
  | h_write es s c me pr src n s' r :
      history p s0 es s -> runs c s me pr -> p_state pr = RUNNING -> held c = ∅ ->
      pipewrite p src n c s = Done r c s' ->
      history p s0 (es ++ [EWrite (take (Z.to_nat n) src) (negb (r =? -1))]) s'
  | h_write_sleeps es s c me pr src n s' chan :
      history p s0 es s -> runs c s me pr -> p_state pr = RUNNING -> held c = ∅ ->
      pipewrite p src n c s = Sleep chan s' ->
      history p s0 (es ++ [EWrite (take (Z.to_nat n) src) false]) s'
  | h_read es s c me pr n r s' :
      history p s0 es s -> runs c s me pr -> p_state pr = RUNNING -> held c = ∅ ->
      piperead p n c s = Done r c s' -> history p s0 (es ++ [ERead (snd r)]) s'
  | h_read_sleeps es s c me pr n s' chan :
      history p s0 es s -> runs c s me pr -> p_state pr = RUNNING -> held c = ∅ ->
      piperead p n c s = Sleep chan s' -> history p s0 es s'
  | h_other es s s' :
      history p s0 es s -> k_pipes s' !! p = k_pipes s !! p -> history p s0 es s'.

(** The bytes a sequence of events may have put into the pipe: all bytes of the
    writes that finished, and a first part of those of the others. *)
Inductive written : list event -> list Z -> Prop :=
  | w_nil : written [] []
  | w_finished es w l : written es w -> written (es ++ [EWrite l true]) (w ++ l)
  | w_unfinished es w l k : written es w -> written (es ++ [EWrite l false]) (w ++ take k l)
  | w_read es w l : written es w -> written (es ++ [ERead l]) w.

Definition read_bytes (es : list event) : list Z :=
  concat ((fun e => match e with ERead l => l | EWrite _ _ => [] end) <$> es).

Lemma read_bytes_snoc es e : read_bytes (es ++ [e]) = read_bytes es ++ match e with ERead l => l | _ => [] end.
Proof. unfold read_bytes. rewrite fmap_app, concat_app. cbn. by rewrite app_nil_r. Qed.

Definition transfers (p : Z) (es : list event) (s : kernel) : Prop :=
  exists pi w, k_pipes s !! p = Some pi /\ pipe_ok pi /\ written es w /\ w = read_bytes es ++ contents pi.

Lemma write_transfers p es s s' pi pi' l k (finished : bool) : transfers p es s -> k_pipes s !! p = Some pi ->
  k_pipes s' !! p = Some pi' -> holds pi pi' (contents pi ++ take k l) ->
  (finished = true -> (length l <= k)%nat) -> transfers p (es ++ [EWrite l finished]) s'.
Proof.
  intros (pi0 & w & Hp & Hok & Hw & ->) Hp0 Hp' (Hok' & Hc & _) Hfin.
  assert (pi0 = pi) as -> by congruence.
  exists pi', ((read_bytes es ++ contents pi) ++ take k l). split; [done|]. split; [done|]. split.
  - destruct finished; [|by constructor]. rewrite take_ge by auto. by constructor.
  - by rewrite read_bytes_snoc, app_nil_r, Hc, app_assoc.
Qed.

Lemma history_transfers p s0 es s : transfers p [] s0 -> history p s0 es s -> transfers p es s.
Proof.
  intros H0 H. induction H as [|es s c me pr src n s' r Hh IH Hr Hst Hl E|es s c me pr src n s' chan Hh IH Hr Hst Hl E
    |es s c me pr n r s' Hh IH Hr Hst Hl E|es s c me pr n s' chan Hh IH Hr Hst Hl E|es s s' Hh IH E]; [done|..].
  - pose proof IH as (pi & w & Hp & Hok & _). destruct (pipewrite_run c s me pr p pi Hr Hst Hl Hp Hok src n) as (pi' & Hh' & E').
    rewrite E' in E. case_bool_decide as Hlen; [|destruct (_ || _)]; simplify_eq;
      (eapply write_transfers; [exact IH|exact Hp|apply with_pipe_lookup|exact Hh'|]).
    + by intros _.
    + by cbn.
  - pose proof IH as (pi & w & Hp & Hok & _). destruct (pipewrite_run c s me pr p pi Hr Hst Hl Hp Hok src n) as (pi' & Hh' & E').
    rewrite E' in E. case_bool_decide as Hlen; [|destruct (_ || _)]; simplify_eq.
    eapply write_transfers; [exact IH|exact Hp|apply with_pipe_lookup|exact Hh'|done].
  - destruct IH as (pi & w & Hp & Hok & Hw & ->). destruct (piperead_run c s me pr p pi Hr Hst Hl Hp Hok n) as (pi' & Hh' & E').
    rewrite E' in E. destruct (_ && _); [destruct (p_killed pr)|]; simplify_eq; cbn [snd].
    + exists pi, (read_bytes es ++ contents pi). rewrite read_bytes_snoc, app_nil_r. repeat (split; [first [done|by constructor]|]). done.
    + exists pi', (read_bytes es ++ contents pi). split; [apply with_pipe_lookup|]. split; [apply Hh'|].
      split; [by constructor|]. destruct Hh' as (_ & -> & _). by rewrite read_bytes_snoc, <- app_assoc, take_drop.
  - destruct IH as (pi & w & Hp & Hok & Hw & ->). destruct (piperead_run c s me pr p pi Hr Hst Hl Hp Hok n) as (pi' & Hh' & E').
    rewrite E' in E. destruct (_ && _); [destruct (p_killed pr)|]; simplify_eq.
    by exists pi, (read_bytes es ++ contents pi).
  - destruct IH as (pi & w & Hp & IH). exists pi, w. by rewrite E.
Qed.

(** [pipewrite] appends to the queue the bytes that fit.  It returns [n]
    when all do, waking the readers; else it fails when nobody reads any more
    or the writer has been killed, and otherwise wakes the readers and sleeps. *)
Theorem pipewrite_queues (c : ctx) (s : kernel) (me : nat) (pr : proc) (p : Z) (pi : pipe) (src : list Z) (n : Z) :
  runs c s me pr -> p_state pr = RUNNING -> held c = ∅ -> k_pipes s !! p = Some pi -> pipe_ok pi ->
  let l := take (Z.to_nat n) src in let room := Z.to_nat (PIPESIZE - Z.of_nat (length (contents pi))) in
  exists pi', holds pi pi' (contents pi ++ take room l) /\
    pipewrite p src n c s =
      if bool_decide (length l <= room)%nat then Done n c (woken (chan_nread p) (with_pipe p pi' s))
      else if negb (pi_readopen pi) || p_killed pr then Done (-1) c (with_pipe p pi' s)
      else Sleep (chan_nwrite p) (slept me (chan_nwrite p) (woken (chan_nread p) (with_pipe p pi' s))).
Proof. intros. subst room. rewrite contents_length. by apply (pipewrite_run c s me pr). Qed.

(** [piperead] removes up to [n] bytes from the front of the queue and wakes
    the writers; on an empty queue that has a writer it sleeps, or fails when
    the reader has been killed. *)
Theorem piperead_dequeues (c : ctx) (s : kernel) (me : nat) (pr : proc) (p : Z) (pi : pipe) (n : Z) :
  runs c s me pr -> p_state pr = RUNNING -> held c = ∅ -> k_pipes s !! p = Some pi -> pipe_ok pi ->
  exists pi', holds pi pi' (drop (Z.to_nat n) (contents pi)) /\
    piperead p n c s =
      if bool_decide (contents pi = []) && pi_writeopen pi then
        if p_killed pr then Done (-1, []) c s else Sleep (chan_nread p) (slept me (chan_nread p) s)
      else
        let l := take (Z.to_nat n) (contents pi) in
        Done (Z.of_nat (length l), l) c (woken (chan_nwrite p) (with_pipe p pi' s)).
Proof. intros. by apply (piperead_run c s me pr). Qed.

(** C12: A pipe is a FIFO channel.  In every history of a pipe that starts empty,
    the bytes that went in are those that came out followed by those still in
    the ring, at most [PIPESIZE], in the order they were written. *)
Theorem pipe_fifo (p : Z) (s0 s : kernel) (pi0 : pipe) (es : list event) :
  k_pipes s0 !! p = Some pi0 -> pipe_ok pi0 -> contents pi0 = [] -> history p s0 es s ->
  exists pi w, k_pipes s !! p = Some pi /\ written es w /\ w = read_bytes es ++ contents pi /\
    Z.of_nat (length (contents pi)) <= PIPESIZE.
Proof.
  intros Hp Hok Hc Hh. apply history_transfers in Hh as (pi & w & Hp' & Hok' & Hw & E).
  - exists pi, w. split_and!; try done. rewrite contents_length. apply Hok'.
  - exists pi0, []. split_and!; [done|done|constructor|by rewrite Hc].
Qed.

(** The examples: a pipe at address 4096 whose counters are about to wrap. *)
Definition ex_pipe : pipe := Pipe (replicate 512 0) (2 ^ 32 - 1) (2 ^ 32 - 1) true true.
Definition ex_pipe_state : kernel := with_pipe 4096 ex_pipe ex_kernel.

Lemma ex_pipe_ok : pipe_ok ex_pipe.
Proof. split_and!; [done|split; done|split; done|done]. Qed.

Lemma pipewrite_queues_witness :
  exists pi', contents pi' = [104; 105] /\
    pipewrite 4096 [104; 105] 2 ex_idle ex_pipe_state =
      Done 2 ex_idle (woken (chan_nread 4096) (with_pipe 4096 pi' ex_pipe_state)).
Proof.
  destruct (pipewrite_queues ex_idle ex_pipe_state 0 ex_proc 4096 ex_pipe [104; 105] 2) as (pi' & (_ & Hc & _) & E);
    [exact ex_runs|done|done|done|exact ex_pipe_ok|]. by exists pi'.
Defined.

Lemma piperead_dequeues_witness :
  piperead 4096 3 ex_idle ex_pipe_state = Sleep (chan_nread 4096) (slept 0 (chan_nread 4096) ex_pipe_state).
Proof.
  destruct (piperead_dequeues ex_idle ex_pipe_state 0 ex_proc 4096 ex_pipe 3) as (pi' & _ & E);
    [exact ex_runs|done|done|done|exact ex_pipe_ok|]. exact E.
Defined.

Lemma pipe_fifo_witness : exists s pi w, k_pipes s !! 4096 = Some pi /\
  written [EWrite [7; 8] true] w /\ w = [] ++ contents pi.
Proof.
  set (s := match pipewrite 4096 [7; 8] 2 ex_idle ex_pipe_state with Done _ _ s => s | _ => ex_pipe_state end).
  destruct (pipe_fifo 4096 ex_pipe_state s ex_pipe [EWrite [7; 8] true]) as (pi & w & Hp & Hw & E & _);
    [done|exact ex_pipe_ok|done| |by exists s, pi, w].
  apply (h_write 4096 ex_pipe_state [] ex_pipe_state ex_idle 0 ex_proc [7; 8] 2 s 2); [constructor|exact ex_runs|done|done|done].
Defined.
