(* ===== verification/File.v ===== *)
(** * Open files (src/file.c), and the creation of pipes (src/pipe.c) *)

From S2P Require Import Prelude Layout CString Spinlock Kalloc State Sched Sleeplock Bio Log Fs Pipe.

Definition ftable_lock : lockid := ("ftable"%string, 0).

Fixpoint find_file (fs : list file) (i : nat) : option nat :=
  match fs with
  | [] => None
  | f :: fs' => if f_ref f =? 0 then Some i else find_file fs' (S i)
  end.

Definition filealloc : M kernel (option nat) :=
  acquire ftable_lock;;
  fs ← gets k_files;
  match find_file fs 0 with
  | Some i =>
    upd_file i (set_f_ref 1);;
    release ftable_lock;;
    mret (Some i)
  | None => release ftable_lock;; mret None
  end.

Definition filedup (i : nat) : M kernel nat :=
  acquire ftable_lock;;
  f ← file_at i;
  if f_ref f <? 1 then panic "filedup" else
  upd_file i (set_f_ref (f_ref f + 1));;
  release ftable_lock;;
  mret i.

Section file.
Context `{DiskDriver} `{Devsw} (kend : Z).

(** The inode of an open inode file; a null one is dereferenced by the callee. *)
Definition the_ip (f : file) : M kernel nat :=
  match f_ip f with None => undef "f->ip is null" | Some ip => mret ip end.

Definition fileclose (i : nat) : M kernel unit :=
  acquire ftable_lock;;
  f ← file_at i;
  if f_ref f <? 1 then panic "fileclose" else
  upd_file i (set_f_ref (f_ref f - 1));;
  if f_ref f - 1 >? 0 then release ftable_lock
  else
    ff ← file_at i;
    upd_file i (set_f_ref 0);;
    upd_file i (set_f_type FD_NONE);;
    release ftable_lock;;
    match f_type ff with
    | FD_PIPE => pipeclose kend (f_pipe ff) (f_writable ff)
    | FD_INODE => begin_op;; ip ← the_ip ff; iput ip;; end_op
    | FD_NONE => mret tt
    end.

Definition filestat (i : nat) : M kernel (Z * option stat) :=
  f ← file_at i;
  match f_type f with
  | FD_INODE =>
    ip ← the_ip f;
    ilock ip;;
    st ← stati ip;
    iunlock ip;;
    mret (0, Some st)
  | _ => mret (-1, None)
  end.

Definition fileread (i : nat) (n : Z) : M kernel (Z * list Z) :=
  f ← file_at i;
  if negb (f_readable f) then mret (-1, [])
  else
    match f_type f with
    | FD_PIPE => piperead (f_pipe f) n
    | FD_INODE =>
      ip ← the_ip f;
      ilock ip;;
      r ← readi ip (f_off f) (u32 n);
      when (i32 (fst r) >? 0) (upd_file i (set_f_off (u32 (f_off f + fst r))));;
      iunlock ip;;
      mret (i32 (fst r), snd r)
    | FD_NONE => panic "fileread"
    end.

(** The loop of [filewrite] that fills the gap between the end of the file and
    its offset: byte [j] is written at the current size plus [j]. *)
Fixpoint fill_loop (n : nat) (ip : nat) (j : Z) : M kernel unit :=
  match n with
  | O => mret tt
  | S n' =>
    begin_op;;
    ilock ip;;
    d ← inode_at ip;
    writei ip [0] (u32 (i_size d + j)) 1;;
    iunlock ip;;
    end_op;;
    fill_loop n' ip (j + 1)
  end.

(** [((MAXOPBLOCKS-1-1-2) / 2) * 512] *)
Definition max_write : Z := (MAXOPBLOCKS - 1 - 1 - 2) / 2 * 512.

Fixpoint filewrite_loop (fuel : nat) (i ip : nat) (src : list Z) (done size : Z) : M kernel Z :=
  match fuel with
  | O => undef "filewrite: out of fuel"
  | S fuel' =>
    if done <? size then
      let n1 := Z.min (size - done) max_write in
      begin_op;;
      ilock ip;;
      f ← file_at i;
      r ← writei ip (drop (Z.to_nat done) src) (f_off f) n1;
      when (r >? 0) (upd_file i (set_f_off (u32 (f_off f + r))));;
      iunlock ip;;
      end_op;;
      if r <? 0 then mret (-1)
      else if negb (r =? n1) then panic "short filewrite"
      else filewrite_loop fuel' i ip src (done + r) size
    else mret (if done =? size then size else -1)
  end.

(** [src] are the [size] bytes at [addr]. *)
Definition filewrite (i : nat) (src : list Z) (size : Z) : M kernel Z :=
  f ← file_at i;
  if negb (f_writable f) then mret (-1)
  else
    match f_type f with
    | FD_PIPE => pipewrite (f_pipe f) src size
    | FD_INODE =>
      ip ← the_ip f;
      d ← inode_at ip;
      when ((i_size d <? f_off f) && negb (size =? 0))
        (fill_loop (Z.to_nat (f_off f - i_size d)) ip 0);;
      r ← filewrite_loop (S (Z.to_nat size)) i ip src 0 size;
      mret r
    | FD_NONE => panic "filewrite"
    end.

(** [_off_t] is a signed 32-bit type. *)
Definition filelseek (i : nat) (offset : Z) : M kernel Z :=
  begin_op;;
  f ← file_at i;
  let temp := i32 (f_off f + offset) in
  if temp <? 0 then panic "lseek offset negative reach" else
  upd_file i (set_f_off (u32 temp));;
  end_op;;
  mret temp.

(** [goto bad] of [pipealloc]. *)
Definition pipealloc_bad (f0 f1 : option nat) : M kernel (option (nat * nat)) :=
  match f0 with Some f => fileclose f | None => mret tt end;;
  match f1 with Some f => fileclose f | None => mret tt end;;
  mret None.

(** A new pipe; its data are whatever the page holds. *)
Definition new_pipe (p : Z) (s : kernel) : kernel :=
  let data := (fun i => rd (pm (k_mem s)) (p + 52 + i)) <$> seqZ 0 PIPESIZE in
  set_k_pipes (<[p := Pipe data 0 0 true true]> (k_pipes s)) s.

(** The files of the two ends, [None] for the result -1. *)
Definition pipealloc : M kernel (option (nat * nat)) :=
  f0 ← filealloc;
  match f0 with
  | None => pipealloc_bad None None
  | Some a =>
    f1 ← filealloc;
    match f1 with
    | None => pipealloc_bad (Some a) None
    | Some b =>
      p ← zoom L_mem kalloc;
      if p =? 0 then pipealloc_bad (Some a) (Some b)
      else
        modify (new_pipe p);;
        upd_file a (fun f => set_f_pipe p (set_f_writable false (set_f_readable true (set_f_type FD_PIPE f))));;
        upd_file b (fun f => set_f_pipe p (set_f_writable true (set_f_readable false (set_f_type FD_PIPE f))));;
        mret (Some (a, b))
    end
  end.
End file.
