(* ===== verification/FileOps.v ===== *)
(** * Reading and writing open files (src/file.c)

    [filewrite] and [fileread] on inodes, with the log, the cache and the inodes
    under them: the contents of files, and what is on the disk when they return. *)

From S2P Require Import Prelude Layout CString Spinlock Kalloc State Sched Sleeplock Bio Cache Log Journal Trans Fs Blocks Inode Console Pipe File.

#[local] Opaque HEAD bread brelse log_write view pending balloc commit.

(** ** Blocks outside the log *)

Section home.
Context (sz st : Z) (sb : superblock) (v v' : Z -> list Z) (E : forall b, home st b -> v b = v' b) (Hbm : bitmap sz st sb v).

Lemma data_block_home a : data_block st sb v a -> data_block st sb v' a.
Proof using E Hbm. intros [D1 D2 D3 D4 D5]. split; try done; [by rewrite (in_use_home sz st sb v v')|by rewrite <- E]. Qed.

Lemma file_ok_home ip : file_ok st sb v ip -> file_ok st sb v' ip.
Proof using E Hbm.
  intros [K1 K2 K3 K4 K5 K6 K7 K8 K9]. split; try done.
  - intros k Hk Hne. by apply data_block_home, K4.
  - by apply data_block_home.
  - split; [apply K8|]. rewrite (in_use_home sz st sb v v') by (done || lia). apply K8.
Qed.

Lemma file_byte_home ip x : file_ok st sb v ip -> 0 <= x -> x / BSIZE < NDIRECT -> file_byte v' ip x = file_byte v ip x.
Proof using E.
  intros Hf Hx Hd. unfold file_byte. destruct (Z.eqb_spec (addr_of ip (x / BSIZE)) 0) as [|Hne]; [done|].
  assert (Hq : 0 <= x / BSIZE) by (apply Z.div_pos; [lia|done]). by rewrite (E _ (db_home _ _ _ _ (fk_data _ _ _ _ Hf _ (conj Hq Hd) Hne))).
Qed.

Lemma has_free_home n : has_free sb v n -> has_free sb v' n.
Proof using E Hbm.
  intros (l & H1 & H2 & H3). exists l. split; [done|]. split; [done|]. intros b Hb. destruct (H3 b Hb) as [Hr Hu]. split; [done|]. by rewrite (in_use_home sz st sb v v').
Qed.
End home.

Section file_ops.
Context `{SyncDisk} `{Devsw} (c : ctx) (me : nat) (pr : proc) (Hh : held c = ∅) (Hst : p_state pr = RUNNING) (sz st : Z).

(** No operation is open; inode [i] is [ip], a file in its direct blocks, not
    locked by anyone; [f] blocks are free. *)
Record settled (f : nat) (s : kernel) (i : nat) (ip : inode) : Prop := Settled {
  se_trans : trans me pr sz st c [] ∅ s;
  se_ops : l_outstanding (k_log s) = 0;
  se_log : LOGSIZE <= l_size (k_log s);
  se_inode : k_inodes s !! i = Some ip;
  se_cached : i_valid ip = true /\ 1 <= i_ref ip /\ i_lock ip = SleepLock false 0;
  se_bitmap : bitmap sz st (k_sb s) (view s);
  se_file : file_ok st (k_sb s) (view s) ip;
  se_free : has_free (k_sb s) (view s) f;
}.

Lemma not_held l : l ∉ held c.
Proof using Hh. rewrite Hh. apply not_elem_of_empty. Qed.

(** The state after [begin_op] and [ilock]. *)
Definition entered (s : kernel) (i : nat) (ip : inode) : kernel :=
  set_k_inodes (<[i := acquired pr ip]> (k_inodes s)) (with_log (set_l_outstanding 1 (k_log s)) s).

Lemma entered_view s i ip b : view s b = view (entered s i ip) b.
Proof using Type. symmetry. by apply view_frame. Qed.

Lemma same_acquired ip : same_file ip (acquired pr ip).
Proof using Type. by repeat split. Qed.

Lemma enter_file n f s i ip : settled f s i ip -> (n <= 20)%nat ->
  exists s1, begin_op c s = Done tt c s1 /\ ilock i c s1 = Done tt c (entered s i ip) /\ fstate c me pr sz st n f (entered s i ip) i (acquired pr ip).
Proof using Hh Hst H0.
  intros [St So Sl Si (Sv & Sr & Sk) Sb Sf Sfree] Hn. set (l := set_l_outstanding 1 (k_log s)). pose proof (tr_log _ _ _ _ _ _ _ _ St) as [L1 L2 L3 L4].
  assert (Ht1 : trans me pr sz st c [] ∅ (with_log l s)) by (apply trans_with_log; [exact St|by split|apply St|apply St]).
  assert (Hi : k_inodes (with_log l s) !! i = Some ip) by exact Si.
  exists (with_log l s). split; [|split].
  - rewrite begin_op_run; [by rewrite So|apply not_held|apply St|]. rewrite L3, So. cbn. unfold LOGSIZE, MAXOPBLOCKS. lia.
  - rewrite (ilock_valid c (with_log l s) me pr (tr_runs _ _ _ _ _ _ _ _ Ht1) i ip Hi Sr (not_held _) Sv); [done|by rewrite Sk].
  - split; [| |by apply (bitmap_ext _ _ _ (view s)); [intros b; apply entered_view|]| |].
    + apply op_inodes. exists []. split; [exact Ht1|]. unfold fits. cbn [k_log with_log set_k_log l l_size l_outstanding set_l_outstanding length]. rewrite HEAD_value. unfold LOGSIZE, MAXOPBLOCKS in *. lia.
    + cbn. apply list_lookup_insert_eq. by apply lookup_lt_Some in Si.
    + eapply same_file_ok; [apply same_acquired|]. eapply file_ok_ext; [|exact Sf]. intros b. apply entered_view.
    + eapply has_free_ext; [|exact Sfree]. intros b. apply entered_view.
Qed.

Definition released (ip : inode) : inode := set_i_lock (SleepLock false 0) ip.

(** What the disk has been through from [s] to [s'], seen after recovery. *)
Definition crash_atomic (s s' : kernel) : Prop :=
  exists l, d_past (k_disk s') = l ++ d_past (k_disk s) /\ forall d, d ∈ d_blocks (k_disk s') :: l -> header_ok sz st (rdblk d st) /\
    ((forall b, home st b -> rdblk (replay st d) b = view s b) \/ (forall b, home st b -> rdblk (replay st d) b = view s' b)).

(** [iunlock] and [end_op]. *)
Lemma leave_file n f s i ip : fstate c me pr sz st n f s i ip -> l_outstanding (k_log s) = 1 -> LOGSIZE <= l_size (k_log s) ->
  i_valid ip = true -> 1 <= i_ref ip -> i_lock ip = SleepLock true (p_pid pr) ->
  exists s1 s', iunlock i c s = Done tt c s1 /\ end_op c s1 = Done tt c s' /\ settled f s' i (released ip) /\
    (forall b, home st b -> view s' b = view s b) /\ k_files s' = k_files s /\ k_sb s' = k_sb s /\
    k_inodes s' = <[i := released ip]> (k_inodes s) /\ atomic_update sz st s s'.
Proof using Hh Hst H0.
  intros Hf Ho Hl Hv Hr Hk. pose proof Hf as [Fop Fi Fb Ff Ffree]. destruct Fop as (bs & Ht & Hfit).
  assert (Hsf : same_file ip (released ip)) by (by repeat split). destruct (set_inode c me pr sz st n f s i ip (released ip) Hf Hsf) as [Hf1 _].
  set (s0 := set_k_inodes (<[i := released ip]> (k_inodes s)) s) in *. set (s1 := woken (chan_inode_lock i) s0).
  assert (Ht1 : trans me pr sz st c bs ∅ s1) by (apply (trans_frame _ _ _ _ _ _ _ s); [apply runs_woken, Hst; apply Ht|done..]).
  destruct (end_op_last c me pr Hh Hst sz st bs s1 Ht1) as (s' & E' & Ht' & Ho' & Hat & Hsz & Hrest); [destruct Hfit; lia|exact Ho|].
  assert (Hv1 : forall b, view s1 b = view s b) by (intros b; by apply view_frame).
  assert (Hv' : forall b, home st b -> view s' b = view s b).
  { intros b Hb. rewrite (trans_view _ _ _ _ _ _ _ _ Ht') by apply not_elem_of_nil. by rewrite (proj1 Hat b Hb), Hv1. }
  assert (Hsym : forall b, home st b -> view s b = view s' b) by (intros b Hb; symmetry; by apply Hv').
  assert (Ei : k_inodes s' = <[i := released ip]> (k_inodes s)) by exact (f_equal k_inodes Hrest).
  assert (Es : k_sb s' = k_sb s) by exact (f_equal k_sb Hrest).
  exists s1, s'. split; [|split; [exact E'|split]].
  - rewrite (iunlock_run c s me pr (tr_runs _ _ _ _ _ _ _ _ Ht) i ip Fi Hr (not_held _) Hk (not_held _)). done.
  - split; [exact Ht'|exact Ho'|rewrite Hsz; exact Hl| |by split| | |]; rewrite ?Es.
    + rewrite Ei. apply list_lookup_insert_eq. by apply lookup_lt_Some in Fi.
    + by eapply bitmap_home.
    + eapply same_file_ok; [exact Hsf|]. by eapply file_ok_home.
    + by eapply has_free_home.
  - split; [exact Hv'|]. split; [exact (f_equal k_files Hrest)|]. split; [exact Es|]. split; [exact Ei|].
    destruct Hat as [A1 (l & A2 & A3)]. split; [intros b Hb; by rewrite A1, Hv1|]. exists l. split; [exact A2|]. intros d Hd.
    destruct (A3 d Hd) as [B1 [B2|B2]]; (split; [exact B1|]); [by left|right]. intros b Hb. by rewrite B2, Hv1.
Qed.

Lemma fstate_files n f s i ip fs : fstate c me pr sz st n f s i ip -> fstate c me pr sz st n f (set_k_files fs s) i ip.
Proof using Type.
  intros [Fop Fi Fb Ff Ffree]. assert (Hv : forall b, view s b = view (set_k_files fs s) b) by (intros b; symmetry; by apply view_frame).
  split; [|exact Fi|by eapply bitmap_ext|by eapply file_ok_ext|by eapply has_free_ext].
  destruct Fop as (bs & Ht & Hfit). exists bs. split; [|exact Hfit]. apply (trans_frame _ _ _ _ _ _ _ s); [apply Ht|done..].
Qed.

(** Between [s] and [s'], [bytes] were written at [off] of inode [i]. *)
Record stored (s s' : kernel) (i : nat) (ip ip' : inode) (off : Z) (bytes : list Z) : Prop := Stored {
  sd_inode : written_inode ip ip' off (Z.of_nat (length bytes));
  sd_covers : covers ip' off (Z.of_nat (length bytes));
  sd_inodes : k_inodes s' = <[i := ip']> (k_inodes s);
  sd_sb : k_sb s' = k_sb s;
  sd_bytes : forall x, 0 <= x -> x / BSIZE < NDIRECT -> file_byte (view s') ip' x = patched (file_byte (view s) ip) off bytes x;
  sd_kept : forall a, data_block st (k_sb s) (view s) a -> ~ touched (k_sb s) ip' a -> view s' a = view s a;
  sd_data : forall a, data_block st (k_sb s) (view s) a -> data_block st (k_sb s) (view s') a;
  sd_disk : forall b, home st b -> rdblk (d_blocks (k_disk s')) b = view s' b;
}.

Lemma written_released ip ip' off N : i_lock ip = SleepLock false 0 -> written_inode (acquired pr ip) ip' off N -> written_inode ip (released ip') off N.
Proof using Type.
  intros Hl [E Ha]. split; [|exact Ha]. rewrite E. cbn [i_addrs set_i_size set_i_addrs]. destruct ip. cbn in Hl. rewrite Hl. reflexivity.
Qed.

Lemma write_op f s i ip src off N (k := Z.to_nat (spans off N)) : settled (k + f) s i ip -> 0 <= off -> 0 <= N -> off + N <= NDIRECT * BSIZE -> (k <= 6)%nat ->
  exists s1 s2 s3, begin_op c s = Done tt c s1 /\ ilock i c s1 = Done tt c s2 /\ k_files s2 = k_files s /\ k_inodes s2 !! i = Some (acquired pr ip) /\
    writei i src off N c s2 = Done N c s3 /\ k_files s3 = k_files s /\
    forall fs, exists s4 s' ip', iunlock i c (set_k_files fs s3) = Done tt c s4 /\ end_op c s4 = Done tt c s' /\ k_files s' = fs /\
      settled f s' i ip' /\ stored s s' i ip ip' off (get_bytes src 0 N) /\ crash_atomic s s'.
Proof using Hh Hst H0.
  intros Hs Ho HN Hin Hk. destruct (enter_file (3 * k + 1) (k + f) s i ip Hs ltac:(lia)) as (s1 & E1 & E2 & Hf2). set (s2 := entered s i ip) in *.
  destruct (writei_run c me pr Hh Hst sz st 0 f s2 i (acquired pr ip) src off N Hf2 Ho HN Hin) as (s3 & ip3 & E3 & Hf3 & Hw & Hcov & Hc3).
  destruct Hc3 as [C1 C2 C3 C4 C5 C6]. exists s1, s2, s3. do 2 (split; [done|]). split; [done|]. split; [apply Hf2|]. split; [exact E3|].
  split; [exact (f_equal k_files C1)|]. intros fs. pose proof (fstate_files _ _ _ _ _ fs Hf3) as Hf4.
  pose proof Hs as [St So Sl Si (Sv & Sr & Sk) Sb Sf Sfree]. pose proof (proj1 Hw) as Ew.
  assert (El : l_outstanding (k_log s3) = 1 /\ l_size (k_log s3) = l_size (k_log s)).
  { pose proof (f_equal (fun s => (l_outstanding (k_log s), l_size (k_log s))) C1) as El. cbn in El. by injection El as -> ->. }
  destruct (leave_file 0 f (set_k_files fs s3) i ip3 Hf4) as (s4 & s' & E4 & E5 & Hs' & Hv & Hfs & Hsb & Hi & Hat).
  { apply El. } { change (LOGSIZE <= l_size (k_log s3)). rewrite (proj2 El). exact Sl. } { by rewrite Ew. } { by rewrite Ew. } { by rewrite Ew. }
  assert (Hv3 : forall b, home st b -> view s' b = view s3 b) by (intros b Hb; rewrite Hv by done; by apply view_frame).
  assert (Hs3 : forall b, home st b -> view s3 b = view s' b) by (intros b Hb; by rewrite Hv3).
  assert (Esb : k_sb s3 = k_sb s) by exact (f_equal k_sb C1).
  exists s4, s', (released ip3). split; [exact E4|]. split; [exact E5|]. split; [exact Hfs|]. split; [exact Hs'|].
  assert (Hdb : forall a, data_block st (k_sb s) (view s) a -> data_block st (k_sb s) (view s2) a).
  { intros a Ha. eapply data_block_ext; [|exact Ha]. intros b. apply entered_view. }
  assert (Hdisk : forall b, home st b -> rdblk (d_blocks (k_disk s')) b = view s' b).
  { intros b Hb. symmetry. apply (trans_view _ _ _ _ _ _ _ _ (se_trans _ _ _ _ Hs')), not_elem_of_nil. }
  split; [split; [rewrite get_bytes_length by done; by apply written_released|by rewrite get_bytes_length| | | | | |exact Hdisk]|].
  - rewrite Hi. change (k_inodes (set_k_files fs s3)) with (k_inodes s3). rewrite C2. cbn. by rewrite !list_insert_insert_eq.
  - rewrite Hsb. exact Esb.
  - intros x Hx Hd. change (file_byte (view s') (released ip3) x) with (file_byte (view s') ip3 x).
    rewrite (file_byte_home st (k_sb s3) (view s3) (view s') Hs3 ip3) by (done || apply Hf3). rewrite C4 by done. unfold patched. case_decide; [done|].
    symmetry. apply (file_byte_ext (view s) (view s2) ip). intros b. apply entered_view.
  - intros a Ha Hno. rewrite Hv3 by apply Ha. rewrite C5; [symmetry; apply entered_view|by apply Hdb|exact Hno].
  - intros a Ha. eapply (data_block_home sz st (k_sb s) (view s3)); [exact Hs3| |by apply C6, Hdb]. rewrite <- Esb. apply Hf3.
  - destruct Hat as [_ (l & Hp & Hrec)]. exists l. change (k_disk (set_k_files fs s3)) with (k_disk s3) in *. rewrite C3 in *. change (k_disk s2) with (k_disk s) in *.
    split; [exact Hp|]. intros d Hd. destruct (Hrec d Hd) as [Hok [R|R]]; (split; [exact Hok|]); [left|right]; intros b Hb; rewrite R by done.
    + symmetry. apply (trans_view _ _ _ _ _ _ _ _ St), not_elem_of_nil.
    + symmetry. by rewrite Hv by done.
Qed.

Lemma stored_nil f s i ip off : settled f s i ip -> stored s s i ip ip off [].
Proof using Type.
  intros Hs. split; [|intros k; cbn; lia|by rewrite list_insert_id by apply Hs|done| |done|done|].
  - split; [by destruct ip|done].
  - intros x _ _. unfold patched. by rewrite decide_False by (cbn; lia).
  - intros b Hb. symmetry. apply (trans_view _ _ _ _ _ _ _ _ (se_trans _ _ _ _ Hs)), not_elem_of_nil.
Qed.

Lemma written_inode_trans ip ip1 ip2 off m n : 0 <= m -> 0 <= n -> written_inode ip ip1 off m -> written_inode ip1 ip2 (off + m) n -> written_inode ip ip2 off (m + n).
Proof using Type.
  intros Hm Hn [E1 A1] [E2 A2]. split.
  - rewrite E2, E1. cbn [i_addrs i_size set_i_size set_i_addrs]. rewrite !Z.gtb_ltb.
    destruct (Z.ltb_spec 0 m), (Z.ltb_spec 0 n), (Z.ltb_spec 0 (m + n)); try lia; unfold set_i_size, set_i_addrs; cbn; f_equal; lia.
  - intros k Hk Hne. rewrite A2; [by apply A1|done|by rewrite A1].
Qed.

Lemma stored_app s s1 s2 i ip ip1 ip2 off l1 l2 : stored s s1 i ip ip1 off l1 -> stored s1 s2 i ip1 ip2 (off + Z.of_nat (length l1)) l2 ->
  stored s s2 i ip ip2 off (l1 ++ l2).
Proof using Type.
  intros [A1 Ac A2 A3 A4 A5 A6 A7] [B1 Bc B2 B3 B4 B5 B6 B7]. rewrite A3 in *. split; [| | | | | | |exact B7].
  - rewrite length_app, Nat2Z.inj_add. eapply written_inode_trans; [lia|lia|exact A1|exact B1].
  - rewrite length_app, Nat2Z.inj_add. apply covers_join; [lia|lia|eapply covers_grown; [apply B1|exact Ac]|exact Bc].
  - rewrite B2, A2. by rewrite list_insert_insert_eq.
  - congruence.
  - intros x Hx Hd. rewrite B4 by done. rewrite <- patched_app. unfold patched at 1 2. case_decide; [done|]. by apply A4.
  - intros a Ha Hno. rewrite B5; [apply A5; [done|]|by apply A6|exact Hno]. intros [(k & Hk & Ek & Hne)|Ha']; apply Hno.
    + left. exists k. split; [done|]. split; [|done]. rewrite (proj2 B1); [done|lia|congruence].
    + right. rewrite Ha'. unfold iblock. by rewrite (proj1 B1).
  - intros a Ha. by apply B6, A6.
Qed.

Lemma settled_le f f' s i ip : (f' <= f)%nat -> settled f s i ip -> settled f' s i ip.
Proof using Type. intros Hle [S1 S2 S3 S4 S5 S6 S7 S8]. split; try done. by eapply has_free_le. Qed.

Lemma get_bytes_drop d l n : 0 <= d -> get_bytes (drop (Z.to_nat d) l) 0 n = get_bytes l d n.
Proof using Type.
  intros Hd. unfold get_bytes. apply list_fmap_ext. intros j x Hx. apply lookup_seqZ in Hx as [-> Hj]. unfold byte_at. rewrite lookup_drop. do 2 f_equal. lia.
Qed.

(** One round of the loop of [filewrite]. *)
Lemma filewrite_round f s i ip fi fl src done size fuel (n1 := Z.min (size - done) max_write) : settled (5 + f) s i ip ->
  k_files s !! fi = Some fl -> 0 <= f_off fl -> 0 <= done < size -> f_off fl + n1 <= NDIRECT * BSIZE ->
  exists s' ip', filewrite_loop (S fuel) fi i src done size c s = filewrite_loop fuel fi i src (done + n1) size c s' /\
    k_files s' = <[fi := set_f_off (f_off fl + n1) fl]> (k_files s) /\ settled f s' i ip' /\
    stored s s' i ip ip' (f_off fl) (get_bytes src done n1) /\ crash_atomic s s'.
Proof using Hh Hst H0.
  intros Hs Hfl Ho Hd Hin. assert (Hmax : max_write = 1536) by reflexivity. assert (Hlim : NDIRECT * BSIZE = 5632) by reflexivity.
  pose proof (spans_bound (f_off fl) n1 Ho ltac:(lia)) as Hsp.
  assert (Hk : (Z.to_nat (spans (f_off fl) n1) <= 5)%nat).
  { assert (n1 / BSIZE <= 3) by (unfold BSIZE; Z.to_euclidean_division_equations; lia). lia. }
  assert (Hs' : settled (Z.to_nat (spans (f_off fl) n1) + f) s i ip) by (eapply settled_le; [|exact Hs]; lia).
  destruct (write_op f s i ip (drop (Z.to_nat done) src) (f_off fl) n1 Hs' Ho ltac:(lia) ltac:(lia) ltac:(lia)) as (s1 & s2 & s3 & E1 & E2 & Hf2 & _ & E3 & Hf3 & Hend).
  destruct (Hend (<[fi := set_f_off (f_off fl + n1) fl]> (k_files s))) as (s4 & s' & ip' & E4 & E5 & Hf5 & Hset & Hstored & Hcr).
  exists s', ip'. rewrite get_bytes_drop in Hstored by lia. split; [|split; [exact Hf5|split; [exact Hset|by split]]].
  cbn [filewrite_loop]. rewrite (proj2 (Z.ltb_lt _ _)) by lia. fold n1. erewrite bind_Done by exact E1. erewrite bind_Done by exact E2.
  unfold file_at. erewrite bind_elem_at by (rewrite Hf2; exact Hfl). erewrite bind_Done by exact E3.
  rewrite Z.gtb_ltb, (proj2 (Z.ltb_lt 0 n1)) by lia. cbn [when]. unfold upd_file. erewrite bind_elem_upd by (rewrite Hf3; exact Hfl).
  rewrite (u32_id (f_off fl + n1)) by (word_unfold; lia). rewrite Hf3. erewrite bind_Done by exact E4. erewrite bind_Done by exact E5.
  rewrite (proj2 (Z.ltb_ge n1 0)) by lia. by rewrite Z.eqb_refl.
Qed.

Lemma filewrite_loop_run q : forall f s i ip fi fl src done size fuel, settled (5 * q + f) s i ip -> k_files s !! fi = Some fl -> 0 <= f_off fl ->
  0 <= done <= size -> size - done <= Z.of_nat q * max_write -> f_off fl + (size - done) <= NDIRECT * BSIZE -> (q < fuel)%nat ->
  exists s' ip', filewrite_loop fuel fi i src done size c s = Done size c s' /\
    k_files s' = <[fi := set_f_off (f_off fl + (size - done)) fl]> (k_files s) /\ settled f s' i ip' /\
    stored s s' i ip ip' (f_off fl) (get_bytes src done (size - done)).
Proof using Hh Hst H0.
  assert (Hmax : max_write = 1536) by reflexivity.
  induction q as [|q IH]; intros f s i ip fi fl src done size fuel Hs Hfl Ho Hd Hq Hin Hfuel; (destruct fuel as [|fuel]; [lia|]).
  all: destruct (decide (done = size)) as [->|Hne];
    [exists s, ip; rewrite Z.sub_diag, Z.add_0_r; cbn [filewrite_loop]; rewrite Z.ltb_irrefl, Z.eqb_refl;
     split; [done|]; split; [rewrite list_insert_id; [done|]; rewrite Hfl; by destruct fl|];
     split; [eapply settled_le; [|exact Hs]; lia|by eapply stored_nil]|].
  1: lia. set (n1 := Z.min (size - done) max_write).
  destruct (filewrite_round (5 * q + f) s i ip fi fl src done size fuel) as (s1 & ip1 & E1 & Hf1 & Hs1 & Hst1 & _); [eapply settled_le; [|exact Hs]; lia|done|done|lia|lia|].
  fold n1 in E1, Hf1, Hst1. pose proof (lookup_lt_Some _ _ _ Hfl) as Hlen.
  destruct (IH f s1 i ip1 fi (set_f_off (f_off fl + n1) fl) src (done + n1) size fuel Hs1) as (s' & ip' & E' & Hf' & Hs' & Hst'); cbn [f_off set_f_off]; [|lia|lia|lia|lia|lia|].
  { rewrite Hf1. by apply list_lookup_insert_eq. }
  exists s', ip'. rewrite E1. split; [exact E'|]. cbn [f_off set_f_off] in *. split; [|split; [exact Hs'|]].
  - rewrite Hf', Hf1, list_insert_insert_eq. f_equal. unfold set_f_off. cbn. f_equal. lia.
  - rewrite (get_bytes_split src done n1 (size - done)) by lia. eapply stored_app; [exact Hst1|]. rewrite get_bytes_length by lia.
    replace (size - done - n1) with (size - (done + n1)) by lia. exact Hst'.
Qed.

(** *** The gap between the end of the file and the offset *)

Lemma fill_loop_run n : forall f s i ip j, settled (n + f) s i ip -> 0 <= j -> 0 <= i_size ip ->
  2 * i_size ip + Z.of_nat n * (2 * j + Z.of_nat n + 1) <= 2 * (NDIRECT * BSIZE) ->
  exists s' ip', fill_loop n i j c s = Done tt c s' /\ settled f s' i ip' /\ k_files s' = k_files s /\
    2 * i_size ip' = 2 * i_size ip + Z.of_nat n * (2 * j + Z.of_nat n + 1).
Proof using Hh Hst H0.
  assert (Hlim : NDIRECT * BSIZE = 5632) by reflexivity.
  induction n as [|n IH]; intros f s i ip j Hs Hj Hsz Hin; cbn [fill_loop].
  { exists s, ip. split; [done|]. split; [done|]. split; [done|]. lia. }
  assert (Hsp : spans (i_size ip + j) 1 = 1) by (unfold spans; cbn [Z.eqb]; replace (i_size ip + j + 1 - 1) with (i_size ip + j) by lia; lia).
  destruct (write_op (n + f) s i ip [0] (i_size ip + j) 1) as (s1 & s2 & s3 & E1 & E2 & Hf2 & Hi2 & E3 & Hf3 & Hend); rewrite ?Hsp; [exact Hs|lia|lia|lia|lia|].
  destruct (Hend (k_files s)) as (s4 & s5 & ip5 & E4 & E5 & Hf5 & Hset & [D1 _ _ _ _ _ _ _] & _).
  assert (Efs : set_k_files (k_files s) s3 = s3) by (rewrite <- Hf3; by destruct s3). rewrite Efs in E4.
  assert (Esz : i_size ip5 = i_size ip + j + 1) by (rewrite (proj1 D1); change (Z.of_nat (length (get_bytes [0] 0 1))) with 1; cbn; lia).
  erewrite bind_Done by exact E1. erewrite bind_Done by exact E2. unfold inode_at. erewrite bind_elem_at by exact Hi2.
  change (i_size (acquired pr ip)) with (i_size ip). rewrite u32_id by (word_unfold; lia).
  erewrite bind_Done by exact E3. erewrite bind_Done by exact E4. erewrite bind_Done by exact E5.
  destruct (IH f s5 i ip5 (j + 1) Hset) as (s' & ip' & E' & Hs' & Hf' & Hsz'); [lia|lia|lia|]. exists s', ip'. split; [exact E'|]. split; [exact Hs'|]. split; [congruence|]. lia.
Qed.

(** *** Reading *)

Lemma fileread_run f s i ip fi fl n : settled f s i ip -> k_files s !! fi = Some fl -> f_readable fl = true -> f_type fl = FD_INODE -> f_ip fl = Some i ->
  no_holes ip (i_size ip) -> i_size ip <= NDIRECT * BSIZE -> 0 <= f_off fl <= i_size ip -> 0 <= n < 2 ^ 31 ->
  let m := Z.min n (i_size ip - f_off fl) in
  exists s', fileread fi n c s = Done (m, file_bytes (view s) ip (f_off fl) m) c s' /\ settled f s' i ip /\
    k_files s' = <[fi := set_f_off (f_off fl + m) fl]> (k_files s) /\ k_disk s' = k_disk s /\ (forall b, view s' b = view s b).
Proof using Hh Hst H0.
  intros [St So Sl Si (Sv & Sr & Sk) Sb Sf Sfree] Hfl Hrd Hty Hip Hnh Hsz Ho Hn m. assert (Hlim : NDIRECT * BSIZE = 5632) by reflexivity.
  set (s1 := set_k_inodes (<[i := acquired pr ip]> (k_inodes s)) s). pose proof (lookup_lt_Some _ _ _ Si) as Hlen.
  assert (E1 : ilock i c s = Done tt c s1) by (apply (ilock_valid c s me pr (tr_runs _ _ _ _ _ _ _ _ St) i ip Si Sr (not_held _) Sv); by rewrite Sk).
  assert (Hv1 : forall b, view s b = view s1 b) by (intros b; symmetry; by apply view_frame).
  assert (Hf1 : fstate c me pr sz st 0 f s1 i (acquired pr ip)).
  { split; [|by apply list_lookup_insert_eq|by eapply bitmap_ext|eapply same_file_ok; [apply same_acquired|by eapply file_ok_ext]|by eapply has_free_ext].
    exists []. split; [apply (trans_frame _ _ _ _ _ _ _ s); [apply St|done..]|]. unfold fits. rewrite HEAD_value. unfold LOGSIZE, MAXOPBLOCKS. cbn. lia. }
  destruct (readi_run c me pr Hh Hst sz st 0 f s1 i (acquired pr ip) (f_off fl) n Hf1 Hnh Hsz Ho Hn) as (s2 & E2 & Hf2 & [Bv Br Bd] & Bl).
  change (i_size (acquired pr ip)) with (i_size ip) in E2. fold m in E2.
  set (s3 := set_k_files (<[fi := set_f_off (f_off fl + m) fl]> (k_files s)) s2). pose proof (fstate_files _ _ _ _ _ (<[fi := set_f_off (f_off fl + m) fl]> (k_files s)) Hf2) as Hf3. fold s3 in Hf3.
  destruct (fs_op _ _ _ _ _ _ _ _ _ _ Hf3) as (bs & Ht3 & _).
  assert (Hbs : bs = []).
  { apply nil_length_inv. pose proof (lg_n _ _ _ (tr_log _ _ _ _ _ _ _ _ Ht3)) as L. change (k_log s3) with (k_log s2) in L. rewrite Bl in L.
    change (k_log s1) with (k_log s) in L. rewrite (lg_n _ _ _ (tr_log _ _ _ _ _ _ _ _ St)) in L. cbn in L. lia. }
  subst bs. pose proof (iunlock_run c s3 me pr (tr_runs _ _ _ _ _ _ _ _ Ht3) i (acquired pr ip) (fs_inode _ _ _ _ _ _ _ _ _ _ Hf3) Sr (not_held _) eq_refl (not_held _)) as E4.
  assert (Hi3 : <[i := released (acquired pr ip)]> (k_inodes s3) = k_inodes s).
  { change (k_inodes s3) with (k_inodes s2). rewrite (fsrest_inodes _ _ Br). cbn. rewrite list_insert_insert_eq. apply list_insert_id. rewrite Si. f_equal.
    destruct ip. cbn in Sk. rewrite Sk. reflexivity. }
  unfold lock_inode in E4. change (set_i_lock (SleepLock false 0) (acquired pr ip)) with (released (acquired pr ip)) in E4. rewrite Hi3 in E4.
  set (s4 := woken _ _) in E4. assert (Hv4 : forall b, view s4 b = view s b).
  { intros b. rewrite (view_frame s2 s4) by reflexivity. rewrite Bv. symmetry. apply Hv1. }
  assert (Hv4' : forall b, view s b = view s4 b) by (intros b; by rewrite Hv4).
  assert (Es : k_sb s4 = k_sb s) by exact (fsrest_sb _ _ Br). assert (El : k_log s4 = k_log s) by exact Bl.
  exists s4. split; [|split; [|split; [reflexivity|split; [exact Bd|exact Hv4]]]].
  - unfold fileread, file_at. erewrite bind_elem_at by exact Hfl. rewrite Hrd, Hty. cbn [negb]. unfold the_ip. rewrite Hip. autorewrite with run.
    erewrite bind_Done by exact E1. rewrite (u32_id n) by (word_unfold; lia). erewrite bind_Done by exact E2. cbn [fst snd].
    assert (Hm : i32 m = m) by (unfold m; word). rewrite Hm. rewrite (u32_id (f_off fl + m)) by (word_unfold; lia).
    assert (Ew : (when (m >? 0) (upd_file fi (set_f_off (f_off fl + m)))) c s2 = Done tt c s3).
    { assert (Hfs : k_files s2 = k_files s) by exact (f_equal k_files Br). rewrite Z.gtb_ltb. destruct (Z.ltb_spec 0 m); cbn [when].
      - unfold upd_file. erewrite elem_upd_run by (rewrite Hfs; exact Hfl). unfold s3. by rewrite Hfs.
      - unfold s3. replace (f_off fl + m) with (f_off fl) by lia. rewrite list_insert_id by (rewrite Hfl; by destruct fl). rewrite <- Hfs. by destruct s2. }
    erewrite bind_Done by exact Ew. erewrite bind_Done by exact E4. reflexivity.
  - split; rewrite ?Es, ?El; [|done|done|exact Si|done|by eapply bitmap_ext|by eapply file_ok_ext|by eapply has_free_ext].
    apply (trans_frame _ _ _ _ _ _ _ s3); [apply runs_woken, Hst; apply Ht3|done..].
Qed.
End file_ops.

(** ** Writing a file *)

(** The operations that a write of [size] bytes takes. *)
Definition chunks (size : Z) : nat := Z.to_nat ((size + max_write - 1) / max_write).

Lemma chunks_bound size : 0 <= size -> size <= Z.of_nat (chunks size) * max_write /\ (chunks size <= Z.to_nat size)%nat.
Proof. intros Hs. unfold chunks. change max_write with 1536. split; Z.to_euclidean_division_equations; lia. Qed.

(** At an offset inside the file no gap has to be filled. *)
Lemma filewrite_inode `{DiskDriver} `{Devsw} c s i ip fi fl src size : k_files s !! fi = Some fl -> f_writable fl = true -> f_type fl = FD_INODE ->
  f_ip fl = Some i -> k_inodes s !! i = Some ip -> f_off fl <= i_size ip ->
  filewrite fi src size c s = (r ← filewrite_loop (S (Z.to_nat size)) fi i src 0 size; mret r) c s.
Proof.
  intros Hfl Hw Hty Hip Hi Ho. unfold filewrite, file_at. erewrite bind_elem_at by exact Hfl. rewrite Hw, Hty. cbn [negb]. unfold the_ip. rewrite Hip. autorewrite with run.
  unfold inode_at. erewrite bind_elem_at by exact Hi. rewrite (proj2 (Z.ltb_ge _ _)) by lia. cbn [andb when]. by autorewrite with run.
Qed.

(** C2: [filewrite] on a file in its direct blocks, at an offset inside the
    file: all bytes of the caller are in the file at the offset, the other bytes
    of the file and all other data blocks are as before, the size and the offset
    have advanced, and when it returns everything is on the disk. *)
Theorem filewrite_writes `{SyncDisk} `{Devsw} (c : ctx) (me : nat) (pr : proc) (sz st : Z) (f : nat) (s : kernel) (i : nat) (ip : inode)
    (fi : nat) (fl : file) (src : list Z) (size : Z) :
  held c = ∅ -> p_state pr = RUNNING -> settled c me pr sz st (5 * chunks size + f) s i ip -> k_files s !! fi = Some fl ->
  f_writable fl = true -> f_type fl = FD_INODE -> f_ip fl = Some i -> 0 <= f_off fl <= i_size ip -> 0 <= size ->
  f_off fl + size <= NDIRECT * BSIZE ->
  exists s' ip', filewrite fi src size c s = Done size c s' /\ settled c me pr sz st f s' i ip' /\
    k_files s' = <[fi := set_f_off (f_off fl + size) fl]> (k_files s) /\
    i_size ip' = (if size >? 0 then Z.max (i_size ip) (f_off fl + size) else i_size ip) /\
    (forall x, 0 <= x < NDIRECT * BSIZE -> file_byte (view s') ip' x =
      if decide (f_off fl <= x < f_off fl + size) then u8 (byte_at src (x - f_off fl)) else file_byte (view s) ip x) /\
    (forall a, data_block st (k_sb s) (view s) a -> ~ touched (k_sb s) ip' a -> view s' a = view s a) /\
    (forall b, home st b -> rdblk (d_blocks (k_disk s')) b = view s' b).
Proof.
  intros Hh Hst Hs Hfl Hw Hty Hip Ho Hsz Hin. destruct (chunks_bound size Hsz) as [Hc1 Hc2].
  destruct (filewrite_loop_run c me pr Hh Hst sz st (chunks size) f s i ip fi fl src 0 size (S (Z.to_nat size)) Hs Hfl) as (s' & ip' & E & Hf' & Hs' & [D1 _ D2 D3 D4 D5 D6 D7]); try lia.
  rewrite Z.sub_0_r in *. exists s', ip'. split; [|split; [exact Hs'|split; [exact Hf'|]]].
  - rewrite (filewrite_inode c s i ip fi fl) by (done || lia || apply Hs). by erewrite bind_Done by exact E.
  - rewrite get_bytes_length in D1 by done. split; [by rewrite (proj1 D1)|]. split; [|by split].
    intros x Hx. rewrite D4; [|lia|apply Z.div_lt_upper_bound; [done|]; unfold BSIZE, NDIRECT in *; lia]. unfold patched. rewrite get_bytes_length by done. case_decide; [|done].
    by rewrite byte_at_get_bytes by lia.
Qed.

(** C3: A write of at most [max_write] bytes, at an offset inside the file and
    within its direct blocks, is atomic.  Whatever the disk goes through
    meanwhile, [recover_from_log], run at the next boot on any of these disks,
    leaves the blocks outside the log all as before the call, or all as after it. *)
Theorem filewrite_atomic `{SyncDisk} `{Devsw} (c : ctx) (me : nat) (pr : proc) (sz st : Z) (f : nat) (s : kernel) (i : nat) (ip : inode)
    (fi : nat) (fl : file) (src : list Z) (size : Z) :
  held c = ∅ -> p_state pr = RUNNING -> settled c me pr sz st (5 + f) s i ip -> k_files s !! fi = Some fl ->
  f_writable fl = true -> f_type fl = FD_INODE -> f_ip fl = Some i -> 0 <= f_off fl <= i_size ip -> 0 < size <= max_write ->
  f_off fl + size <= NDIRECT * BSIZE ->
  exists s' l, filewrite fi src size c s = Done size c s' /\ d_past (k_disk s') = l ++ d_past (k_disk s) /\
    forall d, d ∈ d_blocks (k_disk s') :: l ->
    forall c' me' pr' s0, held c' = ∅ -> p_state pr' = RUNNING -> d_size (k_disk s0) = sz -> d_blocks (k_disk s0) = d ->
      rebooted c' me' pr' st s0 -> exists s1, recover_from_log c' s0 = Done tt c' s1 /\
      ((forall b, home st b -> rdblk (d_blocks (k_disk s1)) b = view s b) \/
       (forall b, home st b -> rdblk (d_blocks (k_disk s1)) b = view s' b)).
Proof.
  intros Hh Hst Hs Hfl Hw Hty Hip Ho Hsz Hin.
  destruct (filewrite_round c me pr Hh Hst sz st f s i ip fi fl src 0 size (Z.to_nat size) Hs Hfl) as (s' & ip' & E & _ & _ & _ & (l & Hp & Hl)); [lia|lia|lia|].
  rewrite Z.sub_0_r, Z.min_l, Z.add_0_l in E by lia. exists s', l. split; [|split; [exact Hp|]].
  - rewrite (filewrite_inode c s i ip fi fl) by (done || lia || apply Hs). erewrite bind_Done; [reflexivity|].
    rewrite E. destruct (Z.to_nat size) as [|k] eqn:Ek; [lia|]. cbn [filewrite_loop]. by rewrite Z.ltb_irrefl, Z.eqb_refl.
  - intros d Hd c' me' pr' s0 Hh' Hst' Hsz' Hdb Hre. destruct (Hl d Hd) as [Hok Hcase].
    destruct (recover_booted c' me' pr' sz st s0 Hh' Hst' Hre Hsz') as (s1 & E1 & Hd1); [by rewrite Hdb|].
    exists s1. split; [exact E1|]. rewrite Hdb in Hd1. destruct Hcase as [R|R]; [left|right]; intros b Hb; by rewrite Hd1, R.
Qed.

(** ** The gap before the offset *)

(** C36: When the offset is [d] bytes past the end of the file, [filewrite] means
    to fill the gap with [d] zero bytes.  Byte [j] goes to the current end of the
    file plus [j], and the end moves: the file grows by [d * (d + 1) / 2] bytes
    before the write, and keeps that size if it is past the bytes written. *)
Theorem filewrite_overshoots `{SyncDisk} `{Devsw} (c : ctx) (me : nat) (pr : proc) (sz st : Z) (f : nat) (s : kernel) (i : nat) (ip : inode)
    (fi : nat) (fl : file) (src : list Z) (size d : Z) :
  held c = ∅ -> p_state pr = RUNNING -> settled c me pr sz st (Z.to_nat d + (5 * chunks size + f)) s i ip -> k_files s !! fi = Some fl ->
  f_writable fl = true -> f_type fl = FD_INODE -> f_ip fl = Some i -> 0 <= i_size ip -> 0 < d -> f_off fl = i_size ip + d -> 0 < size ->
  i_size ip + d * (d + 1) / 2 <= NDIRECT * BSIZE -> f_off fl + size <= NDIRECT * BSIZE ->
  exists s' ip', filewrite fi src size c s = Done size c s' /\ settled c me pr sz st f s' i ip' /\
    i_size ip' = Z.max (i_size ip + d * (d + 1) / 2) (i_size ip + d + size).
Proof.
  intros Hh Hst Hs Hfl Hw Hty Hip Hsz Hd Ho Hn Hfill Hin. destruct (chunks_bound size ltac:(lia)) as [Hc1 Hc2].
  assert (Hhalf : 2 * (d * (d + 1) / 2) = d * (d + 1)).
  { destruct (Z.Even_or_Odd d) as [[k ->]|[k ->]];
      [replace (2 * k * (2 * k + 1)) with (k * (2 * k + 1) * 2) by lia|replace ((2 * k + 1) * (2 * k + 1 + 1)) with ((2 * k + 1) * (k + 1) * 2) by lia]; rewrite Z.div_mul by done; lia. }
  destruct (fill_loop_run c me pr Hh Hst sz st (Z.to_nat d) _ s i ip 0 Hs) as (s1 & ip1 & E1 & Hs1 & Hf1 & Hsz1); [lia|lia| |].
  { rewrite Z2Nat.id by lia. replace (d * (2 * 0 + d + 1)) with (d * (d + 1)) by lia. lia. }
  rewrite Z2Nat.id in Hsz1 by lia. replace (d * (2 * 0 + d + 1)) with (d * (d + 1)) in Hsz1 by lia.
  destruct (filewrite_loop_run c me pr Hh Hst sz st (chunks size) f s1 i ip1 fi fl src 0 size (S (Z.to_nat size)) Hs1) as (s' & ip' & E & Hf' & Hs' & [D1 _ _ _ _ _ _ _]); [by rewrite Hf1|lia..|].
  rewrite Z.sub_0_r in *. exists s', ip'. split; [|split; [exact Hs'|]].
  - unfold filewrite, file_at. erewrite bind_elem_at by exact Hfl. rewrite Hw, Hty. cbn [negb]. unfold the_ip. rewrite Hip. autorewrite with run.
    unfold inode_at. erewrite bind_elem_at by apply Hs. rewrite (proj2 (Z.ltb_lt _ _)), (proj2 (Z.eqb_neq size 0)) by lia. cbn [andb negb when].
    replace (f_off fl - i_size ip) with d by lia. erewrite bind_Done by exact E1. by erewrite bind_Done by exact E.
  - rewrite get_bytes_length in D1 by lia. rewrite (proj1 D1). cbn [i_size set_i_size]. rewrite Z.gtb_ltb, (proj2 (Z.ltb_lt 0 size)) by lia. lia.
Qed.

(** ** Writing and reading *)

Lemma stored_no_holes st s s' i ip ip' off bytes : stored st s s' i ip ip' off bytes -> 0 <= off <= i_size ip -> no_holes ip (i_size ip) -> no_holes ip' (i_size ip').
Proof.
  intros [D1 D2 _ _ _ _ _ _] Ho Hnh k Hk Hlt. destruct D1 as [E Ha]. rewrite E in Hlt. cbn [i_size set_i_size] in Hlt.
  destruct (decide (k * BSIZE < i_size ip)) as [Hin|Hout]; [rewrite Ha; [by apply Hnh|done|by apply Hnh]|].
  rewrite Z.gtb_ltb in Hlt. destruct (Z.ltb_spec 0 (Z.of_nat (length bytes))); apply D2; unfold BSIZE in *; lia.
Qed.

(** C19: In a file without holes that stays within its direct blocks (5632
    bytes), what [filewrite] has written through one open file, at an offset
    inside the file, [fileread] reads through another one of the same inode at
    the same offset. *)
Theorem write_read_back `{SyncDisk} `{Devsw} (c : ctx) (me : nat) (pr : proc) (sz st : Z) (f : nat) (s : kernel) (i : nat) (ip : inode)
    (fi fj : nat) (fl fr : file) (src : list Z) (size : Z) :
  held c = ∅ -> p_state pr = RUNNING -> settled c me pr sz st (5 * chunks size + f) s i ip -> no_holes ip (i_size ip) -> i_size ip <= NDIRECT * BSIZE ->
  k_files s !! fi = Some fl -> f_writable fl = true -> f_type fl = FD_INODE -> f_ip fl = Some i -> 0 <= f_off fl <= i_size ip ->
  fi <> fj -> k_files s !! fj = Some fr -> f_readable fr = true -> f_type fr = FD_INODE -> f_ip fr = Some i -> f_off fr = f_off fl ->
  Z.of_nat (length src) = size -> Forall byte_ok src -> f_off fl + size <= NDIRECT * BSIZE ->
  exists s' s'', filewrite fi src size c s = Done size c s' /\ fileread fj size c s' = Done (size, src) c s''.
Proof.
  intros Hh Hst Hs Hnh Hmax Hfl Hw Hty Hip Ho Hne Hfr Hrd Hty' Hip' Hoff Hlen Hbytes Hin. assert (Hlim : NDIRECT * BSIZE = 5632) by reflexivity.
  destruct (chunks_bound size ltac:(lia)) as [Hc1 Hc2].
  destruct (filewrite_loop_run c me pr Hh Hst sz st (chunks size) f s i ip fi fl src 0 size (S (Z.to_nat size)) Hs Hfl) as (s' & ip' & E & Hf' & Hs' & Hstd); try lia.
  rewrite Z.sub_0_r in *. pose proof (stored_no_holes _ _ _ _ _ _ _ _ Hstd Ho Hnh) as Hnh'. pose proof Hstd as [D1 _ _ _ D4 _ _ _].
  rewrite get_bytes_length in D1 by lia. destruct D1 as [Ei _].
  assert (Hsize : i_size ip' = Z.max (i_size ip) (f_off fl + size)) by (rewrite Ei; cbn [i_size set_i_size]; rewrite Z.gtb_ltb; destruct (Z.ltb_spec 0 size); lia).
  assert (Hfr' : k_files s' !! fj = Some fr) by (rewrite Hf'; by rewrite list_lookup_insert_ne).
  destruct (fileread_run c me pr Hh Hst sz st f s' i ip' fj fr size Hs' Hfr' Hrd Hty' Hip' Hnh') as (s'' & E' & _); [lia|lia|lia|].
  exists s', s''. split.
  - rewrite (filewrite_inode c s i ip fi fl) by (done || lia || apply Hs). by erewrite bind_Done by exact E.
  - rewrite E', Hoff. rewrite Z.min_l by lia. do 2 f_equal. apply list_eq. intros k. unfold file_bytes. rewrite list_lookup_fmap.
    destruct (decide (Z.of_nat k < size)) as [Hk|Hk].
    + rewrite lookup_seqZ_lt by lia. cbn [fmap option_fmap option_map]. rewrite D4; [|lia|apply Z.div_lt_upper_bound; [done|]; unfold BSIZE, NDIRECT in *; lia].
      unfold patched. rewrite get_bytes_length by lia. rewrite decide_True by lia. rewrite byte_at_get_bytes by lia.
      replace (0 + (f_off fl + (0 + Z.of_nat k) - f_off fl)) with (Z.of_nat k) by lia. unfold byte_at. rewrite Nat2Z.id.
      destruct (lookup_lt_is_Some_2 src k) as [x Hx]; [lia|]. rewrite Hx. cbn. f_equal. apply u8_id. by eapply Forall_lookup_1.
    + rewrite lookup_seqZ_ge by lia. symmetry. apply lookup_ge_None. lia.
Qed.

(** ** An example

    The disk of the file in [Inode], with blocks 60 to 95 free; files 0 and 1 of
    the file table are that file, at offset 5 and at offset [off]. *)

Definition ex_room : list Z := <[7%nat := 15]> (replicate 8 255) ++ replicate 4 0 ++ replicate 500 255.

Lemma ex_room_in_use v b : v 40 = ex_room -> 0 <= b < 100 -> in_use ex_sb v b = (b <? 60) || (96 <=? b).
Proof.
  intros Ev Hb. unfold in_use. rewrite ex_bblock, Ev by done. rewrite Z.mod_small by (unfold BPB, BSIZE; lia).
  assert (H : forallb (fun b => Bool.eqb (bit_of ex_room b) ((b <? 60) || (96 <=? b))) (seqZ 0 100) = true) by (vm_compute; reflexivity).
  rewrite forallb_forall in H. apply eqb_prop, H. apply list_elem_of_In, elem_of_seqZ. lia.
Qed.

Definition ex_open (off : Z) : file := File FD_INODE 1 true true 0 (Some 0%nat) off.

Lemma ex_settled f o1 o2 : (f <= 36)%nat -> exists s, settled ex_idle 0 ex_proc 100 2 f s 0 ex_ip /\ k_files s = [ex_open o1; ex_open o2] /\ k_sb s = ex_sb.
Proof.
  intros Hf. destruct (ex_fs_trans {[40 := ex_room]}) as (s & E & El & Ht). destruct (ex_fs_boot (replicate 512 0) {[40 := ex_room]}) as (s0 & E0 & _ & Hd & _).
  rewrite E in E0. injection E0 as <-. set (s1 := set_k_files [ex_open o1; ex_open o2] (set_k_inodes [ex_ip] (set_k_sb ex_sb s))). exists s1. split; [|by split].
  assert (Hv : forall b, view s1 b = rdblk (<[2 := replicate 512 0]> {[40 := ex_room]}) b).
  { intros b. rewrite (view_frame s) by reflexivity. rewrite (trans_view _ _ _ _ _ _ _ b Ht) by apply not_elem_of_nil. by rewrite Hd. }
  assert (Hu : forall b, 0 <= b < 100 -> in_use ex_sb (view s1) b = (b <? 60) || (96 <=? b)) by (intros b; apply ex_room_in_use; by rewrite Hv).
  assert (El1 : k_log s1 = ex_log) by exact El.
  split; [|rewrite El1; reflexivity|rewrite El1; unfold LOGSIZE, MAXOPBLOCKS; cbn; lia|reflexivity|by repeat split| | |]; change (k_sb s1) with ex_sb.
  - apply (trans_frame _ _ _ _ _ _ _ s); [apply Ht|done..].
  - apply ex_bitmap_free; [by rewrite Hv|]. intros b Hb E'. rewrite Hu in E' by done. lia.
  - apply ex_file_ok; [|by rewrite Hv|by rewrite Hv]. intros b Hb. rewrite Hu by lia. lia.
  - apply (has_free_le _ _ 36); [done|]. exists (seqZ 60 36). split; [apply NoDup_seqZ|]. split; [done|]. intros b Hb%elem_of_seqZ. split; [cbn; lia|]. rewrite Hu by lia. lia.
Qed.

Lemma filewrite_writes_witness : exists s s', filewrite 0 [72; 105] 2 ex_idle s = Done 2 ex_idle s' /\ (forall b, home 2 b -> rdblk (d_blocks (k_disk s')) b = view s' b).
Proof.
  destruct (ex_settled 5 5 0 ltac:(lia)) as (s & Hs & Hfs & _).
  destruct (filewrite_writes ex_idle 0 ex_proc 100 2 0 s 0 ex_ip 0 (ex_open 5) [72; 105] 2) as (s' & ip' & E & _ & _ & _ & _ & _ & Hd); try done; [by rewrite Hfs|].
  exists s, s'. by split.
Defined.

Lemma filewrite_atomic_witness : exists s s' l, filewrite 0 [72; 105] 2 ex_idle s = Done 2 ex_idle s' /\ d_past (k_disk s') = l ++ d_past (k_disk s).
Proof.
  destruct (ex_settled 5 5 0 ltac:(lia)) as (s & Hs & Hfs & _).
  destruct (filewrite_atomic ex_idle 0 ex_proc 100 2 0 s 0 ex_ip 0 (ex_open 5) [72; 105] 2) as (s' & l & E & Hp & _); try done; [by rewrite Hfs|].
  exists s, s', l. by split.
Defined.

(** Writing one byte three past the end of a file of 5 bytes makes it 11 bytes
    long, not 9. *)
Lemma filewrite_overshoots_witness : exists s s' ip', filewrite 0 [72] 1 ex_idle s = Done 1 ex_idle s' /\ k_inodes s' !! 0%nat = Some ip' /\ i_size ip' = 11.
Proof.
  destruct (ex_settled 8 8 0 ltac:(lia)) as (s & Hs & Hfs & _).
  destruct (filewrite_overshoots ex_idle 0 ex_proc 100 2 0 s 0 ex_ip 0 (ex_open 8) [72] 1 3) as (s' & ip' & E & Hs' & Hsz); try done; [by rewrite Hfs|].
  exists s, s', ip'. split; [exact E|]. split; [apply Hs'|exact Hsz].
Defined.

Lemma write_read_back_witness : exists s s' s'', filewrite 0 [72; 105] 2 ex_idle s = Done 2 ex_idle s' /\ fileread 1 2 ex_idle s' = Done (2, [72; 105]) ex_idle s''.
Proof.
  destruct (ex_settled 5 5 5 ltac:(lia)) as (s & Hs & Hfs & _).
  destruct (write_read_back ex_idle 0 ex_proc 100 2 0 s 0 ex_ip 0 1 (ex_open 5) (ex_open 5) [72; 105] 2) as (s' & s'' & E & E'); try done; [|by rewrite Hfs|by rewrite Hfs|by repeat constructor|].
  - intros k Hk Hlt. rewrite ex_addr by done. cbn [i_size ex_ip] in Hlt. rewrite decide_True; [done|]. unfold BSIZE in Hlt. lia.
  - by exists s, s', s''.
Defined.
