(* ===== verification/Proc.v ===== *)
(** * Creation and end of processes (src/proc.c)

    A process's trap frame and initial context lie in its kernel stack, a page
    of the byte memory; the offsets are those of the C structures. *)

From S2P Require Import Prelude Layout CString Spinlock Kalloc Vm State Sched Sleeplock Bio Log Fs Pipe File.

(** [sizeof(struct trapframe)], [sizeof(struct context)] and field offsets. *)
Definition TF_SIZE : Z := 76.
Definition CONTEXT_SIZE : Z := 20.
Definition TF_ebp : Z := 8.
Definition TF_eax : Z := 28.
Definition TF_es : Z := 40.
Definition TF_ds : Z := 44.
Definition TF_trapno : Z := 48.
Definition TF_err : Z := 52.
Definition TF_eip : Z := 56.
Definition TF_cs : Z := 60.
Definition TF_eflags : Z := 64.
Definition TF_esp : Z := 68.
Definition TF_ss : Z := 72.
Definition CONTEXT_eip : Z := 16.

Definition mem_modify (f : mem -> mem) : M kernel unit :=
  modify (fun s => set_k_mem (set_pm f (k_mem s)) s).
Definition mem_get {A} (f : mem -> A) : M kernel A := gets (fun s => f (pm (k_mem s))).

Definition is_unused (p : proc) : bool := state_is UNUSED p.

Section proc.
(** [end] and [data] of the linker, and the addresses of [trapret] and
    [forkret] in the kernel text. *)
Context `{DiskDriver} `{Devsw} (kend kdata trapret forkret : Z).

Definition allocproc : M kernel (option nat) :=
  acquire ptable_lock;;
  ps ← gets k_procs;
  match find_proc is_unused ps 0 with
  | None => release ptable_lock;; mret None
  | Some p =>
    upd_proc p (set_p_state EMBRYO);;
    pid ← gets k_nextpid;
    upd_proc p (set_p_pid pid);;
    next ← incr_int pid;
    modify (set_k_nextpid next);;
    release ptable_lock;;
    kstack ← zoom L_mem kalloc;
    upd_proc p (set_p_kstack kstack);;
    if kstack =? 0 then upd_proc p (set_p_state UNUSED);; mret None
    else
      let sp := kstack + KSTACKSIZE in
      let sp := sp - TF_SIZE in
      upd_proc p (set_p_tf sp);;
      let sp := sp - 4 in
      mem_modify (fun m => wr32 m sp trapret);;
      let sp := sp - CONTEXT_SIZE in
      upd_proc p (set_p_context sp);;
      mem_modify (fun m => memset m sp 0 CONTEXT_SIZE);;
      mem_modify (fun m => wr32 m (sp + CONTEXT_eip) forkret);;
      acquire tickslock;;
      t ← gets k_ticks;
      upd_proc p (set_p_creation_time t);;
      upd_proc p (set_p_wait_time 0);;
      release tickslock;;
      mret (Some p)
  end.

(** [strlen("initcode")+1] characters, as [safestrcpy] stores them. *)
Definition initcode_name : list Z := [105; 110; 105; 116; 99; 111; 100; 101; 0].

(** The bytes of [p->name] after [safestrcpy] of a string. *)
Definition copy_name (src : list Z) : list Z := default [] (safestrcpy src 16).

(** [start] and [size] are those of the embedded init program; the model's
    [panic] on a null process stands for the write through a null pointer. *)
Definition userinit (start size : Z) : M kernel unit :=
  r ← allocproc;
  match r with
  | None => undef "userinit: null process"
  | Some p =>
    modify (set_k_initproc (Some p));;
    pgdir ← zoom L_mem (setupkvm kend kdata);
    upd_proc p (set_p_pgdir pgdir);;
    if pgdir =? 0 then panic "userinit: out of memory?" else
    zoom L_mem (inituvm pgdir start size);;
    upd_proc p (set_p_sz PGSIZE);;
    pr ← proc_at p;
    let tf := p_tf pr in
    let udata := Z.lor (Z.shiftl SEG_UDATA 3) DPL_USER in
    mem_modify (fun m => memset m tf 0 TF_SIZE);;
    mem_modify (fun m => wr (wr m (tf + TF_cs) (Z.lor (Z.shiftl SEG_UCODE 3) DPL_USER)) (tf + TF_cs + 1) 0);;
    mem_modify (fun m => wr (wr m (tf + TF_ds) udata) (tf + TF_ds + 1) 0);;
    mem_modify (fun m => wr (wr m (tf + TF_es) udata) (tf + TF_es + 1) 0);;
    mem_modify (fun m => wr (wr m (tf + TF_ss) udata) (tf + TF_ss + 1) 0);;
    mem_modify (fun m => wr32 m (tf + TF_eflags) FL_IF);;
    mem_modify (fun m => wr32 m (tf + TF_esp) PGSIZE);;
    mem_modify (fun m => wr32 m (tf + TF_eip) 0);;
    upd_proc p (set_p_name (copy_name initcode_name));;
    cwd ← namei [slash];
    upd_proc p (set_p_cwd cwd);;
    acquire ptable_lock;;
    upd_proc p (set_p_state RUNNABLE);;
    release ptable_lock
  end.

(** [switchuvm], which loads the page table, has no effect on this state. *)
Definition growproc (n : Z) : M kernel Z :=
  p ← myproc;
  pr ← proc_at p;
  let sz := p_sz pr in
  sz ← (if n >? 0 then zoom L_mem (allocuvm kend (p_pgdir pr) sz (u32 (sz + n)))
        else if n <? 0 then zoom L_mem (deallocuvm kend (p_pgdir pr) sz (u32 (sz + n)))
        else mret sz);
  if negb (n =? 0) && (sz =? 0) then mret (-1)
  else upd_proc p (set_p_sz sz);; mret 0.

(** [for(i = 0; i < NOFILE; i++)] of [fork]. *)
Fixpoint dup_files (fs : list (option nat)) (i np : nat) : M kernel unit :=
  match fs with
  | [] => mret tt
  | None :: fs' => dup_files fs' (S i) np
  | Some f :: fs' =>
    g ← filedup f;
    upd_proc np (fun pr => set_p_ofile (<[i := Some g]> (p_ofile pr)) pr);;
    dup_files fs' (S i) np
  end.

Definition valid_priority (p : proc) : bool :=
  (p_priority p =? LOW) || (p_priority p =? MEDIUM) || (p_priority p =? HIGH).

Definition fork : M kernel Z :=
  me ← myproc;
  cp ← proc_at me;
  r ← allocproc;
  match r with
  | None => mret (-1)
  | Some np =>
    pgdir ← zoom L_mem (copyuvm kend kdata (p_pgdir cp) (p_sz cp));
    upd_proc np (set_p_pgdir pgdir);;
    pr ← proc_at np;
    if pgdir =? 0 then
      zoom L_mem (kfree kend (p_kstack pr));;
      upd_proc np (set_p_kstack 0);;
      upd_proc np (set_p_state UNUSED);;
      mret (-1)
    else
      upd_proc np (set_p_sz (p_sz cp));;
      upd_proc np (set_p_parent (Some me));;
      mem_modify (fun m => memmove m (p_tf pr) (p_tf cp) TF_SIZE);;
      mem_modify (fun m => wr32 m (p_tf pr + TF_eax) 0);;
      dup_files (p_ofile cp) 0 np;;
      cwd ← (match p_cwd cp with None => undef "cwd is null" | Some cwd => idup cwd end);
      upd_proc np (set_p_cwd (Some cwd));;
      upd_proc np (set_p_name (copy_name (p_name cp)));;
      pr ← proc_at np;
      let pid := p_pid pr in
      when (negb (valid_priority pr)) (upd_proc np (set_p_priority MEDIUM));;
      acquire ptable_lock;;
      t ← gets k_ticks;
      upd_proc np (set_p_start_time t);;
      upd_proc np (set_p_state RUNNABLE);;
      release ptable_lock;;
      mret pid
  end.

Fixpoint close_files (fs : list (option nat)) (fd me : nat) : M kernel unit :=
  match fs with
  | [] => mret tt
  | None :: fs' => close_files fs' (S fd) me
  | Some f :: fs' =>
    fileclose kend f;;
    upd_proc me (fun pr => set_p_ofile (<[fd := None]> (p_ofile pr)) pr);;
    close_files fs' (S fd) me
  end.

(** The loop of [exit] over the [n] entries of the process table from [i] on:
    the children of [me] are passed to [init]. *)
Fixpoint reparent (n : nat) (i me : nat) (init : option nat) : M kernel unit :=
  match n with
  | O => mret tt
  | S n' =>
    p ← proc_at i;
    when (bool_decide (p_parent p = Some me))
      (upd_proc i (set_p_parent init);;
       when (state_is ZOMBIE p) (wakeup1 (from_option chan_proc 0 init)));;
    reparent n' (S i) me init
  end.

(** [exit] does not return: it ends in the scheduler, or panics. *)
Definition exit : M kernel unit :=
  me ← myproc;
  init ← gets k_initproc;
  if bool_decide (init = Some me) then panic "init exiting" else
  cp ← proc_at me;
  close_files (p_ofile cp) 0 me;;
  begin_op;;
  (match p_cwd cp with None => undef "cwd is null" | Some cwd => iput cwd end);;
  end_op;;
  upd_proc me (set_p_cwd None);;
  acquire ptable_lock;;
  cp ← proc_at me;
  wakeup1 (from_option chan_proc 0 (p_parent cp));;
  reparent (Z.to_nat NPROC) 0 me init;;
  acquire tickslock;;
  t ← gets k_ticks;
  upd_proc me (set_p_end_time t);;
  release tickslock;;
  upd_proc me (fun p => set_p_wait_time (u32 (p_start_time p - p_creation_time p)) p);;
  upd_proc me (fun p => set_p_turnaround_time (u32 (p_end_time p - p_creation_time p)) p);;
  upd_proc me (set_p_state ZOMBIE);;
  sched me 0.

(** The scan of [wait]: a dead child, or whether there are children at all. *)
Fixpoint wait_scan (ps : list proc) (i me : nat) (havekids : bool) : nat + bool :=
  match ps with
  | [] => inr havekids
  | p :: ps' =>
    if negb (bool_decide (p_parent p = Some me)) then wait_scan ps' (S i) me havekids
    else if state_is ZOMBIE p then inl i
    else wait_scan ps' (S i) me true
  end.

(** [p->name[0] = 0] *)
Definition clear_name (p : proc) : proc := set_p_name (<[0%nat := 0]> (p_name p)) p.

Definition wait : M kernel Z :=
  me ← myproc;
  acquire ptable_lock;;
  ps ← gets k_procs;
  match wait_scan ps 0 me false with
  | inl i =>
    p ← proc_at i;
    zoom L_mem (kfree kend (p_kstack p));;
    upd_proc i (set_p_kstack 0);;
    zoom L_mem (freevm kend (p_pgdir p));;
    upd_proc i (set_p_pid 0);;
    upd_proc i (set_p_parent None);;
    upd_proc i clear_name;;
    upd_proc i (set_p_killed false);;
    upd_proc i (set_p_state UNUSED);;
    release ptable_lock;;
    mret (p_pid p)
  | inr havekids =>
    cp ← proc_at me;
    if negb havekids || p_killed cp then release ptable_lock;; mret (-1)
    else sleep (chan_proc me) ptable_lock
  end.

(** [forkret]: the first return of a new process to user space. *)
Definition forkret_body : M kernel unit :=
  release ptable_lock;;
  first ← gets k_first;
  when first (modify (set_k_first false);; iinit ROOTDEV;; initlog ROOTDEV).
End proc.
