(* ===== verification/Kbd.v ===== *)
(** * The keyboard, the serial line and the process listing

    src/kbd.c with the tables of src/kbd.h, the receiving side of src/uart.c,
    and [procdump] (src/proc.c), which control-P on the console runs.  A device
    is the list of the bytes it has ready, which reading its data port takes
    from the front. *)

From S2P Require Import Prelude Layout CString Spinlock Kalloc State Sched Sleeplock Bio Log Fs Console Proc.

(** ** The tables of src/kbd.h *)

Definition SHIFT : Z := 1.
Definition CTL : Z := 2.
Definition ALT : Z := 4.
Definition CAPSLOCK : Z := 8.
Definition NUMLOCK : Z := 16.
Definition SCROLLLOCK : Z := 32.
Definition E0ESC : Z := 64.

(** The entry of an array given by its first elements and designated ones; the
    others are 0. *)
Fixpoint designated (l : list (Z * Z)) (i : Z) : Z :=
  match l with [] => 0 | (j, v) :: l' => if i =? j then v else designated l' i end.
Definition entry_of (l : list Z) (d : list (Z * Z)) (i : Z) : Z :=
  match l !! Z.to_nat i with Some v => v | None => designated d i end.

Definition shiftcode : Z -> Z :=
  entry_of [] [(0x1D, CTL); (0x2A, SHIFT); (0x36, SHIFT); (0x38, ALT); (0x9D, CTL); (0xB8, ALT)].
Definition togglecode : Z -> Z := entry_of [] [(0x3A, CAPSLOCK); (0x45, NUMLOCK); (0x46, SCROLLLOCK)].

(** [KEY_UP], [KEY_DN], [KEY_PGUP], [KEY_PGDN], [KEY_LF], [KEY_RT], [KEY_HOME],
    [KEY_END], [KEY_INS] and [KEY_DEL] *)
Definition arrows : list (Z * Z) :=
  [ (0xC8, 0xE2); (0xD0, 0xE3); (0xC9, 0xE6); (0xD1, 0xE7); (0xCB, 0xE4); (0xCD, 0xE5);
    (0x97, 0xE0); (0xCF, 0xE1); (0xD2, 0xE8); (0xD3, 0xE9) ].

Definition normal_keys : list Z :=
  [ 0; 27; 49; 50; 51; 52; 53; 54; 55; 56; 57; 48; 45; 61; 8; 9;
    113; 119; 101; 114; 116; 121; 117; 105; 111; 112; 91; 93; 10; 0; 97; 115;
    100; 102; 103; 104; 106; 107; 108; 59; 39; 96; 0; 92; 122; 120; 99; 118;
    98; 110; 109; 44; 46; 47; 0; 42; 0; 32; 0; 0; 0; 0; 0; 0;
    0; 0; 0; 0; 0; 0; 0; 55; 56; 57; 45; 52; 53; 54; 43; 49;
    50; 51; 48; 46; 0; 0; 0; 0 ].
Definition normalmap : Z -> Z := entry_of normal_keys ([ (0x9C, 10); (0xB5, 47) ] ++ arrows).

Definition shift_keys : list Z :=
  [ 0; 27; 33; 64; 35; 36; 37; 94; 38; 42; 40; 41; 95; 43; 8; 9;
    81; 87; 69; 82; 84; 89; 85; 73; 79; 80; 123; 125; 10; 0; 65; 83;
    68; 70; 71; 72; 74; 75; 76; 58; 34; 126; 0; 124; 90; 88; 67; 86;
    66; 78; 77; 60; 62; 63; 0; 42; 0; 32; 0; 0; 0; 0; 0; 0;
    0; 0; 0; 0; 0; 0; 0; 55; 56; 57; 45; 52; 53; 54; 43; 49;
    50; 51; 48; 46; 0; 0; 0; 0 ].
Definition shiftmap : Z -> Z := entry_of shift_keys ([ (0x9C, 10); (0xB5, 47) ] ++ arrows).

(** [C('/')], 47 - 64, is stored in an [uchar]. *)
Definition ctl_keys : list Z :=
  [ 0; 0; 0; 0; 0; 0; 0; 0; 0; 0; 0; 0; 0; 0; 0; 0;
    17; 23; 5; 18; 20; 25; 21; 9; 15; 16; 0; 0; 13; 0; 1; 19;
    4; 6; 7; 8; 10; 11; 12; 0; 0; 0; 0; 28; 26; 24; 3; 22;
    2; 14; 13; 0; 0; 239; 0; 0 ].
Definition ctlmap : Z -> Z := entry_of ctl_keys ([ (0x9C, 13); (0xB5, 239) ] ++ arrows).

(** ** [kbdgetc] *)

(** The static variable [shift], and the bytes at [KBDATAP]. *)
Record kbd := Kbd { shift : Z; kb_port : list Z }.

Definition charcode (i : Z) : Z -> Z :=
  if i =? 0 then normalmap else if i =? 1 then shiftmap else ctlmap.

(** The swap of the cases under caps lock. *)
Definition caps (sh c : Z) : Z :=
  if has_flag sh CAPSLOCK then
    if (97 <=? c) && (c <=? 122) then c - 32
    else if (65 <=? c) && (c <=? 90) then c + 32
    else c
  else c.

(** What a byte of the controller does to [shift], and the value returned. *)
Definition scancode (sh data : Z) : Z * Z :=
  if data =? 0xE0 then (0, Z.lor sh E0ESC)
  else if has_flag data 0x80 then
    let data := if has_flag sh E0ESC then data else Z.land data 0x7F in
    (0, Z.land sh (Z.lnot (Z.lor (shiftcode data) E0ESC)))
  else
    let '(data, sh) :=
      if has_flag sh E0ESC then (Z.lor data 0x80, Z.land sh (Z.lnot E0ESC)) else (data, sh) in
    let sh := Z.lor sh (shiftcode data) in
    let sh := Z.lxor sh (togglecode data) in
    (caps sh (charcode (Z.land sh (Z.lor CTL SHIFT)) data), sh).

Definition kbdgetc (k : kbd) : Z * kbd :=
  match kb_port k with
  | [] => (-1, k)
  | data :: port => let '(c, sh) := scancode (shift k) data in (c, Kbd sh port)
  end.

(** [while((c = getc()) >= 0)]: the characters of a device [d], [n] at most. *)
Fixpoint getc_all {D} (getc : D -> Z * D) (n : nat) (d : D) : list Z * D :=
  match n with
  | O => ([], d)
  | S n' =>
    let '(c, d) := getc d in
    if c >=? 0 then let '(cs, d) := getc_all getc n' d in (c :: cs, d) else ([], d)
  end.

(** ** The serial line *)

(** [uart]: is there one; the bytes at [COM1]. *)
Record uartdev := Uart { uart : bool; ua_port : list Z }.

Definition uartgetc (u : uartdev) : Z * uartdev :=
  if negb (uart u) then (-1, u)
  else match ua_port u with [] => (-1, u) | c :: port => (c, Uart (uart u) port) end.

(** ** [procdump] *)

(** Offset of [ebp] in [struct context]. *)
Definition CONTEXT_ebp : Z := 12.

(** The saved program counters along the chain of frame pointers; the rest of
    the ten entries are 0. *)
Fixpoint callerpcs (n : nat) (m : mem) (ebp : Z) : list Z :=
  match n with
  | O => []
  | S n' =>
    if (ebp =? 0) || (ebp <? KERNBASE) || (ebp =? 0xffffffff) then replicate n 0
    else rd32 m (ebp + 4) :: callerpcs n' m (rd32 m ebp)
  end.
Definition getcallerpcs (m : mem) (v : Z) : list Z := callerpcs 10 m (u32 (v - 8)).

Definition state_name (st : procstate) : list Z :=
  match st with
  | UNUSED => [117; 110; 117; 115; 101; 100]
  | EMBRYO => [101; 109; 98; 114; 121; 111]
  | SLEEPING => [115; 108; 101; 101; 112; 32]
  | RUNNABLE => [114; 117; 110; 98; 108; 101]
  | RUNNING => [114; 117; 110; 32; 32; 32]
  | ZOMBIE => [122; 111; 109; 98; 105; 101]
  end.

(** [for(i=0; i<10 && pc[i] != 0; i++)] *)
Fixpoint print_pcs (pcs : list Z) : M kernel unit :=
  match pcs with
  | [] => mret tt
  | pc :: pcs' => if pc =? 0 then mret tt else cprintf [32; 37; 112] [AInt pc];; print_pcs pcs'
  end.

Definition dump_proc (p : proc) : M kernel unit :=
  if state_is UNUSED p then mret tt
  else
    cprintf [37; 100; 32; 37; 115; 32; 37; 115]
      [AInt (p_pid p); AStr (Some (state_name (p_state p))); AStr (Some (cprefix 16 (p_name p)))];;
    when (state_is SLEEPING p)
      (pcs ← mem_get (fun m => getcallerpcs m (u32 (rd32 m (p_context p + CONTEXT_ebp) + 8)));
       print_pcs pcs);;
    cprintf [NEWLINE] [].

Fixpoint dump_procs (ps : list proc) : M kernel unit :=
  match ps with [] => mret tt | p :: ps' => dump_proc p;; dump_procs ps' end.

(** The table does not change while it is printed. *)
Definition procdump : M kernel unit := ps ← gets k_procs; dump_procs ps.

(** ** The interrupts *)

(** The keyboard delivers a character per byte at most. *)
Definition kbdintr (k : kbd) : M kernel kbd :=
  let '(cs, k) := getc_all kbdgetc (S (length (kb_port k))) k in
  consoleintr procdump cs;; mret k.

Definition uartintr (u : uartdev) : M kernel uartdev :=
  let '(cs, u) := getc_all uartgetc (S (length (ua_port u))) u in
  consoleintr procdump cs;; mret u.

(** ** Typing *)

(** The keyboard of the PC/AT with its US layout, as the hardware documents it
    (scan code set 1): the keys of a row have consecutive codes from the one
    given, and are engraved with a character and the one shift gives. *)
Definition rows : list (Z * (list Z * list Z)) :=
  [ (0x02, (literal "1234567890-=", literal "!@#$%^&*()_+"));
    (0x0F, ([9], []));
    (0x10, (literal "qwertyuiop[]", literal "QWERTYUIOP{}"));
    (0x1C, ([10], []));
    (0x1E, (literal "asdfghjkl;'`", literal "ASDFGHJKL:" ++ [34; 126]));
    (0x2B, (literal "\zxcvbnm,./", literal "|ZXCVBNM<>?"));
    (0x39, ([32], [])) ].
Definition LEFT_SHIFT : Z := 0x2A.
Definition LEFT_CTRL : Z := 0x1D.

Fixpoint key_of (keys : list Z) (c i : Z) : option Z :=
  match keys with [] => None | k :: keys' => if k =? c then Some i else key_of keys' c (i + 1) end.

(** The key of a character and whether it needs shift. *)
Fixpoint find_key (rs : list (Z * (list Z * list Z))) (c : Z) : option (Z * bool) :=
  match rs with
  | [] => None
  | (first, (plain, shifted)) :: rs' =>
    match key_of plain c first, key_of shifted c first with
    | Some k, _ => Some (k, false)
    | None, Some k => Some (k, true)
    | None, None => find_key rs' c
    end
  end.

(** A key sends its code when it is pressed, and the code with the top bit set
    when it is released; a modifier is held around it. *)
Definition tap (k : Z) : list Z := [k; k + 128].
Definition tap_with (m k : Z) : list Z := [m] ++ tap k ++ [m + 128].

Inductive press := Char (c : Z) | Ctrl (c : Z).
Definition stroke (p : press) : list Z :=
  match p with
  | Char c => match find_key rows c with Some (k, sh) => if sh : bool then tap_with LEFT_SHIFT k else tap k | None => [] end
  | Ctrl c => match find_key rows c with Some (k, _) => tap_with LEFT_CTRL k | None => [] end
  end.

(** The printing characters, tabs and newlines, and control with a letter. *)
Definition typeable (p : press) : Prop :=
  match p with Char c => c = 9 \/ c = 10 \/ 32 <= c <= 126 | Ctrl c => 97 <= c <= 122 end.
Definition presses : list press := (Char <$> (9 :: 10 :: seqZ 32 95)) ++ (Ctrl <$> seqZ 97 26).

(** The character that is meant: caps lock swaps the cases of the letters. *)
Definition meant (lock : bool) (p : press) : Z :=
  match p with
  | Char c =>
    if lock then
      if bool_decide (97 <= c <= 122) then c - 32 else if bool_decide (65 <= c <= 90) then c + 32 else c
    else c
  | Ctrl c => c - 96
  end.
Definition locks (lock : bool) : Z := if lock then CAPSLOCK else 0.

(** What a run of bytes gives from the state [sh] of the modifiers. *)
Fixpoint scan (sh : Z) (port : list Z) : list Z * Z :=
  match port with
  | [] => ([], sh)
  | data :: port' =>
    let '(c, sh) := scancode sh data in let '(cs, sh) := scan sh port' in (c :: cs, sh)
  end.

Lemma scan_app l1 l2 sh : scan sh (l1 ++ l2) =
  let '(c1, sh1) := scan sh l1 in let '(c2, sh2) := scan sh1 l2 in (c1 ++ c2, sh2).
Proof.
  revert sh. induction l1 as [|d l1 IH]; intros sh; cbn [app scan]; [by destruct (scan sh l2)|].
  destruct (scancode sh d) as [c sh']. rewrite IH. destruct (scan sh' l1) as [c1 sh1]. by destruct (scan sh1 l2).
Qed.

Lemma getc_all_scan port sh cs sh' : scan sh port = (cs, sh') -> Forall (fun c => 0 <= c) cs ->
  getc_all kbdgetc (S (length port)) (Kbd sh port) = (cs, Kbd sh' []).
Proof.
  revert sh cs. induction port as [|d port IH]; intros sh cs; cbn [scan length].
  - by intros [= <- <-] _.
  - destruct (scancode sh d) as [c sh1] eqn:E1. destruct (scan sh1 port) as [cs1 sh2] eqn:E2. intros [= <- <-] [Hc Hcs]%Forall_cons.
    cbn [getc_all kbdgetc kb_port shift]. rewrite E1. assert (c >=? 0 = true) as -> by lia.
    specialize (IH sh1 cs1 E2 Hcs). cbn [getc_all kbdgetc kb_port shift length] in IH |- *. by rewrite IH.
Qed.

(** Whether the caps lock is on or off, one stroke gives one character. *)
Definition stroke_ok (lock : bool) (p : press) : bool :=
  let '(cs, sh') := scan (locks lock) (stroke p) in
  forallb (fun x => 0 <=? x) cs && bool_decide (List.filter (fun x => negb (x =? 0)) cs = [meant lock p]) && (sh' =? locks lock).

Lemma strokes_ok : forallb (fun p => stroke_ok false p && stroke_ok true p) presses = true.
Proof. vm_compute. reflexivity. Qed.

Lemma stroke_spec lock p : typeable p -> exists cs, scan (locks lock) (stroke p) = (cs, locks lock) /\
  Forall (fun x => 0 <= x) cs /\ List.filter (fun x => negb (x =? 0)) cs = [meant lock p].
Proof.
  intros Hp. assert (In : p ∈ presses).
  { unfold presses. rewrite elem_of_app, !list_elem_of_fmap. destruct p as [c|c]; [left|right]; exists c; (split; [done|]);
      rewrite ?elem_of_cons, elem_of_seqZ; unfold typeable in Hp; lia. }
  pose proof strokes_ok as H. rewrite forallb_forall in H. apply list_elem_of_In, H, andb_prop in In as [H0 H1].
  assert (Hok : stroke_ok lock p = true) by (by destruct lock). clear - Hok. unfold stroke_ok in Hok.
  destruct (scan (locks lock) (stroke p)) as [cs sh'] eqn:E. apply andb_prop in Hok as [[Hp Hf]%andb_prop Hs].
  exists cs. split_and!; [f_equal; lia| |by apply bool_decide_eq_true in Hf].
  rewrite forallb_forall in Hp. apply Forall_forall. intros x Hx%list_elem_of_In%Hp. lia.
Qed.

(** C18: typing on a US PC/AT keyboard delivers what is engraved on the keys.  The
    scan codes the controller sends for a text typed on it, with shift held where
    the layout needs it, and with control held for control characters, make
    [kbdgetc] return the characters of the text in order, all of them, with 0 for
    the events that are not a character (which the console skips); with caps lock
    on, the letters with their cases swapped.  All bytes are consumed and the
    modifiers are as before. *)
Theorem kbd_types_text (lock : bool) (text : list press) : Forall typeable text ->
  let port := concat (stroke <$> text) in
  exists cs, getc_all kbdgetc (S (length port)) (Kbd (locks lock) port) = (cs, Kbd (locks lock) []) /\
    List.filter (fun c => negb (c =? 0)) cs = meant lock <$> text.
Proof.
  intros Ht port. subst port.
  assert (H : exists cs, scan (locks lock) (concat (stroke <$> text)) = (cs, locks lock) /\ Forall (fun x => 0 <= x) cs /\
    List.filter (fun c => negb (c =? 0)) cs = meant lock <$> text).
  { induction Ht as [|p text Hp _ (cs & E & Hn & Hf)]; [by exists []|].
    destruct (stroke_spec lock p Hp) as (cs1 & E1 & Hn1 & Hf1). exists (cs1 ++ cs). split_and!.
    - rewrite fmap_cons. cbn [concat]. by rewrite scan_app, E1, E.
    - by apply Forall_app.
    - by rewrite List.filter_app, Hf1, Hf. }
  destruct H as (cs & E & Hn & Hf). exists cs. split; [by apply getc_all_scan|done].
Qed.

(** "Hi!" and control-P, with caps lock on. *)
Lemma kbd_types_text_witness : let port := concat (stroke <$> [Char 72; Char 105; Char 33; Ctrl 112]) in exists cs,
  getc_all kbdgetc (S (length port)) (Kbd CAPSLOCK port) = (cs, Kbd CAPSLOCK []) /\
  List.filter (fun c => negb (c =? 0)) cs = [104; 73; 33; 16].
Proof. apply (kbd_types_text true [Char 72; Char 105; Char 33; Ctrl 112]). repeat constructor; unfold typeable; lia. Defined.
