(* ===== verification/Syscall.v ===== *)
(** * System call arguments (src/syscall.c)

    The kernel reads and writes user memory through the page table of the
    current process; an access to an absent page traps into the page fault
    handler and is repeated. *)

From S2P Require Import Prelude Layout CString Spinlock Kalloc Vm State Sched Sleeplock Bio Log Fs Pipe File Proc.

Section user.
Context (kend : Z).

(** The kernel address of user address [va] for an access that needs the page
    table flags [need].  An access to a page that is not there faults in the
    kernel, and [lazy_fault] is what the handler does to the memory; its message on
    the console is left out. *)
Definition user_ka (need va : Z) : M kernel Z :=
  p ← myproc;
  pr ← proc_at p;
  let pgdir := p_pgdir pr in
  let walk : M kmem Z :=
    pte ← walkpgdir pgdir va false;
    if pte =? 0 then mret 0 else load pte in
  e ← zoom L_mem walk;
  if bool_decide (Z.land e need = need) then mret (u32 (P2V (PTE_ADDR e) + va mod PGSIZE))
  else
    ok ← zoom L_mem (lazy_fault kend pgdir va);
    if (ok : bool) then
      e ← zoom L_mem walk;
      mret (u32 (P2V (PTE_ADDR e) + va mod PGSIZE))
    else undef "page fault: out of memory".

Definition uload (va : Z) : M kernel Z :=
  a ← user_ka PTE_P va; mem_get (fun m => rd m a).

Definition ustore (va v : Z) : M kernel unit :=
  a ← user_ka (Z.lor PTE_P PTE_W) va; mem_modify (fun m => wr m a v).

(** [n] bytes from user address [va] on. *)
Fixpoint uload_bytes (n : nat) (va : Z) : M kernel (list Z) :=
  match n with
  | O => mret []
  | S n' => x ← uload va; l ← uload_bytes n' (u32 (va + 1)); mret (x :: l)
  end.

Fixpoint ustore_bytes (va : Z) (l : list Z) : M kernel unit :=
  match l with [] => mret tt | x :: l' => ustore va x;; ustore_bytes (u32 (va + 1)) l' end.

Definition uload32 (va : Z) : M kernel Z := l ← uload_bytes 4 va; mret (get32 l 0).
Definition ustore32 (va v : Z) : M kernel unit := ustore_bytes va (word_bytes v).

(** [None] is the result -1. *)
Definition fetchint (addr : Z) : M kernel (option Z) :=
  p ← myproc;
  pr ← proc_at p;
  if (addr >=? p_sz pr) || (u32 (addr + 4) >? p_sz pr) then mret None
  else v ← uload32 addr; mret (Some (i32 v)).

(** The characters from [s] to the terminating null, if it comes before [ep]. *)
Fixpoint scan_str (n : nat) (s : Z) : M kernel (option (list Z)) :=
  match n with
  | O => mret None
  | S n' =>
    x ← uload s;
    if x =? 0 then mret (Some [])
    else r ← scan_str n' (s + 1); mret (cons x <$> r)
  end.

Definition fetchstr (addr : Z) : M kernel (option (list Z)) :=
  p ← myproc;
  pr ← proc_at p;
  if addr >=? p_sz pr then mret None
  else scan_str (Z.to_nat (p_sz pr - addr)) addr.

Definition argint (n : Z) : M kernel (option Z) :=
  p ← myproc;
  pr ← proc_at p;
  esp ← mem_get (fun m => rd32 m (p_tf pr + TF_esp));
  fetchint (u32 (esp + 4 + 4 * n)).

Definition argptr (n size : Z) : M kernel (option Z) :=
  p ← myproc;
  pr ← proc_at p;
  r ← argint n;
  match r with
  | None => mret None
  | Some i =>
    if (size <? 0) || (u32 i >=? p_sz pr) || (u32 (i + size) >? p_sz pr) then mret None
    else mret (Some (u32 i))
  end.

Definition argstr (n : Z) : M kernel (option (list Z)) :=
  r ← argint n;
  match r with None => mret None | Some addr => fetchstr (u32 addr) end.

(** The table [syscalls] is given by its non-null entries. *)
Definition syscall (syscalls : Z -> option (M kernel Z)) (NELEM : Z) : M kernel unit :=
  p ← myproc;
  pr ← proc_at p;
  num ← mem_get (fun m => i32 (rd32 m (p_tf pr + TF_eax)));
  match (if (num >? 0) && (num <? NELEM) then syscalls num else None) with
  | Some f =>
    r ← f;
    pr ← proc_at p;
    mem_modify (fun m => wr32 m (p_tf pr + TF_eax) (u32 r))
  | None => mem_modify (fun m => wr32 m (p_tf pr + TF_eax) (u32 (-1)))
  end.
End user.
