(* ===== verification/Sysfile.v ===== *)
(** * File system calls (src/sysfile.c) *)

From S2P Require Import Prelude Layout CString Spinlock Kalloc Vm State Sched Sleeplock Bio Log Fs Pipe File Proc Syscall.

Definition O_RDONLY : Z := 0x000.
Definition O_WRONLY : Z := 0x001.
Definition O_RDWR : Z := 0x002.
Definition O_CREATE : Z := 0x200.
Definition O_EXTENT : Z := 0x200.
Definition O_NOFOLLOW : Z := 0x04.

(** [sizeof(struct stat)] *)
Definition STAT_SIZE : Z := 20.

Definition dot : list Z := [46; 0].
Definition dotdot : list Z := [46; 46; 0].

(** The first free slot of the descriptor table. *)
Fixpoint free_fd (fs : list (option nat)) (fd : nat) : option nat :=
  match fs with
  | [] => None
  | None :: _ => Some fd
  | Some _ :: fs' => free_fd fs' (S fd)
  end.

Definition fdalloc (f : nat) : M kernel (option nat) :=
  p ← myproc;
  pr ← proc_at p;
  match free_fd (p_ofile pr) 0 with
  | Some fd => upd_proc p (fun pr => set_p_ofile (<[fd := Some f]> (p_ofile pr)) pr);; mret (Some fd)
  | None => mret None
  end.

(** [m ?? r ; k]: the early return of [-1]. *)
Definition or_fail {A} (m : M kernel (option A)) (k : A -> M kernel Z) : M kernel Z :=
  r ← m; match r with None => mret (-1) | Some a => k a end.

Section sysfile.
Context `{DiskDriver} `{Devsw} (kend : Z).

Abbreviation argint := (argint kend).
Abbreviation argptr := (argptr kend).
Abbreviation argstr := (argstr kend).

Definition argfd (n : Z) : M kernel (option (Z * nat)) :=
  r ← argint n;
  match r with
  | None => mret None
  | Some fd =>
    if (fd <? 0) || (fd >=? NOFILE) then mret None
    else
      p ← myproc;
      pr ← proc_at p;
      match p_ofile pr !! Z.to_nat fd with
      | Some (Some f) => mret (Some (fd, f))
      | _ => mret None
      end
  end.

Definition sys_dup : M kernel Z :=
  or_fail (argfd 0) (fun '(_, f) =>
  or_fail (fdalloc f) (fun fd =>
  filedup f;; mret (Z.of_nat fd))).

(** The callee copies the bytes to the user while it holds its locks; here they
    are copied when it has returned them. *)
Definition sys_read : M kernel Z :=
  or_fail (argfd 0) (fun '(_, f) =>
  or_fail (argint 2) (fun n =>
  or_fail (argptr 1 n) (fun p =>
  r ← fileread f n;
  ustore_bytes kend p (snd r);;
  mret (fst r)))).

(** The bytes the callee reads from the user are fetched first. *)
Definition sys_write : M kernel Z :=
  or_fail (argfd 0) (fun '(_, f) =>
  or_fail (argint 2) (fun n =>
  or_fail (argptr 1 n) (fun p =>
  src ← uload_bytes kend (Z.to_nat n) p;
  filewrite f src n))).

Definition sys_close : M kernel Z :=
  or_fail (argfd 0) (fun '(fd, f) =>
  p ← myproc;
  upd_proc p (fun pr => set_p_ofile (<[Z.to_nat fd := None]> (p_ofile pr)) pr);;
  fileclose kend f;;
  mret 0).

(** The fields at their offsets in [struct stat]; the padding is not written. *)
Definition store_stat (va : Z) (st : stat) : M kernel unit :=
  ustore_bytes kend va (take 2 (word_bytes (st_type st)));;
  ustore32 kend (va + 4) (st_dev st);;
  ustore32 kend (va + 8) (st_ino st);;
  ustore_bytes kend (va + 12) (take 2 (word_bytes (st_nlink st)));;
  ustore32 kend (va + 16) (st_size st).

Definition sys_fstat : M kernel Z :=
  or_fail (argfd 0) (fun '(_, f) =>
  or_fail (argptr 1 STAT_SIZE) (fun p =>
  r ← filestat f;
  match snd r with Some st => store_stat p st | None => mret tt end;;
  mret (fst r))).

(** [bad:] of [sys_link]. *)
Definition link_bad (ip : nat) : M kernel Z :=
  ilock ip;;
  upd_inode ip (fun d => set_i_nlink (i16 (i_nlink d - 1)) d);;
  iupdate ip;;
  iunlockput ip;;
  end_op;;
  mret (-1).

Definition sys_link : M kernel Z :=
  or_fail (argstr 0) (fun old =>
  or_fail (argstr 1) (fun new =>
  begin_op;;
  r ← namei old;
  match r with
  | None => end_op;; mret (-1)
  | Some ip =>
    ilock ip;;
    d ← inode_at ip;
    if i_type d =? T_DIR then iunlockput ip;; end_op;; mret (-1)
    else
      upd_inode ip (fun d => set_i_nlink (i16 (i_nlink d + 1)) d);;
      iupdate ip;;
      iunlock ip;;
      r ← nameiparent new;
      match r with
      | None => link_bad ip
      | Some (dp, name) =>
        ilock dp;;
        dd ← inode_at dp;
        d ← inode_at ip;
        ok ← (if negb (i_dev dd =? i_dev d) then mret false
              else r ← dirlink dp name (i_inum d); mret (negb (r <? 0)));
        if (ok : bool) then
          iunlockput dp;;
          iput ip;;
          end_op;;
          mret 0
        else iunlockput dp;; link_bad ip
      end
  end)).

Fixpoint isdirempty_loop (fuel : nat) (dp : nat) (off : Z) : M kernel bool :=
  match fuel with
  | O => undef "isdirempty: out of fuel"
  | S fuel' =>
    d ← inode_at dp;
    if off <? i_size d then
      r ← readi dp off DIRENT_SIZE;
      if negb (fst r =? DIRENT_SIZE) then panic "isdirempty: readi"
      else if negb (de_inum (snd r) =? 0) then mret false
      else isdirempty_loop fuel' dp (u32 (off + DIRENT_SIZE))
    else mret true
  end.

Definition isdirempty (dp : nat) : M kernel bool :=
  d ← inode_at dp;
  isdirempty_loop (S (Z.to_nat (i_size d / DIRENT_SIZE + 1))) dp (2 * DIRENT_SIZE).

(** [bad:] of [sys_unlink]. *)
Definition unlink_bad (dp : nat) : M kernel Z := iunlockput dp;; end_op;; mret (-1).

Definition name_is (name t : list Z) : bool := bool_decide (namecmp name t = Some 0).

Definition sys_unlink : M kernel Z :=
  or_fail (argstr 0) (fun path =>
  begin_op;;
  r ← nameiparent path;
  match r with
  | None => end_op;; mret (-1)
  | Some (dp, name) =>
    ilock dp;;
    if name_is name dot || name_is name dotdot then unlink_bad dp
    else
      r ← dirlookup dp name;
      match r with
      | None => unlink_bad dp
      | Some (ip, off) =>
        ilock ip;;
        d ← inode_at ip;
        if i_nlink d <? 1 then panic "unlink: nlink < 1" else
        nonempty ← (if i_type d =? T_DIR then e ← isdirempty ip; mret (negb e) else mret false);
        if (nonempty : bool) then iunlockput ip;; unlink_bad dp
        else
          n ← writei dp (replicate (Z.to_nat DIRENT_SIZE) 0) off DIRENT_SIZE;
          if negb (n =? DIRENT_SIZE) then panic "unlink: writei" else
          d ← inode_at ip;
          when (i_type d =? T_DIR)
            (upd_inode dp (fun d => set_i_nlink (i16 (i_nlink d - 1)) d);; iupdate dp);;
          iunlockput dp;;
          upd_inode ip (fun d => set_i_nlink (i16 (i_nlink d - 1)) d);;
          iupdate ip;;
          iunlockput ip;;
          end_op;;
          mret 0
      end
  end).

Definition create (path : list Z) (type major minor : Z) : M kernel (option nat) :=
  r ← nameiparent path;
  match r with
  | None => mret None
  | Some (dp, name) =>
    ilock dp;;
    r ← dirlookup dp name;
    match r with
    | Some (ip, _) =>
      iunlockput dp;;
      ilock ip;;
      d ← inode_at ip;
      if (type =? T_FILE) && (i_type d =? T_FILE) then mret (Some ip)
      else iunlockput ip;; mret None
    | None =>
      dd ← inode_at dp;
      ip ← ialloc (i_dev dd) type;
      ilock ip;;
      upd_inode ip (fun d => set_i_nlink 1 (set_i_minor minor (set_i_major major d)));;
      iupdate ip;;
      d ← inode_at ip;
      when (type =? T_DIR)
        (upd_inode dp (fun d => set_i_nlink (i16 (i_nlink d + 1)) d);;
         iupdate dp;;
         dd ← inode_at dp;
         r ← dirlink ip dot (i_inum d);
         if r <? 0 then panic "create dots"
         else
           r ← dirlink ip dotdot (i_inum dd);
           when (r <? 0) (panic "create dots"));;
      r ← dirlink dp name (i_inum d);
      if r <? 0 then panic "create: dirlink" else
      iunlockput dp;;
      mret (Some ip)
    end
  end.

(** The end of [sys_open], for an inode that is locked. *)
Definition open_inode (ip : nat) (omode : Z) : M kernel Z :=
  fr ← filealloc;
  fdr ← (match fr with None => mret None | Some f => fdalloc f end);
  match fr, fdr with
  | Some f, Some fd =>
    iunlock ip;;
    end_op;;
    upd_file f (fun fl =>
      set_f_writable (has_flag omode O_WRONLY || has_flag omode O_RDWR)
        (set_f_readable (negb (has_flag omode O_WRONLY))
          (set_f_off 0 (set_f_ip (Some ip) (set_f_type FD_INODE fl)))));;
    mret (Z.of_nat fd)
  | _, _ =>
    match fr with Some f => fileclose kend f | None => mret tt end;;
    iunlockput ip;;
    end_op;;
    mret (-1)
  end.

(** The path stored in a symbolic link is only read and printed. *)
Definition sys_open : M kernel Z :=
  or_fail (argstr 0) (fun path =>
  or_fail (argint 1) (fun omode =>
  begin_op;;
  if has_flag omode O_CREATE then
    r ← (if has_flag omode O_EXTENT then create path T_EXTENT 0 0 else create path T_FILE 0 0);
    match r with
    | None => end_op;; mret (-1)
    | Some ip => open_inode ip omode
    end
  else
    r ← namei path;
    match r with
    | None => end_op;; mret (-1)
    | Some ip =>
      ilock ip;;
      d ← inode_at ip;
      when (i_type d =? T_SYMLINK) (readi ip 0 20;; mret tt);;
      if (i_type d =? T_DIR) && negb (omode =? O_RDONLY)
      then iunlockput ip;; end_op;; mret (-1)
      else open_inode ip omode
    end)).

Definition made (r : option nat) : M kernel Z :=
  match r with
  | None => end_op;; mret (-1)
  | Some ip => iunlockput ip;; end_op;; mret 0
  end.

Definition sys_mkdir : M kernel Z :=
  begin_op;;
  path ← argstr 0;
  r ← (match path with None => mret None | Some path => create path T_DIR 0 0 end);
  made r.

Definition sys_mknod : M kernel Z :=
  begin_op;;
  path ← argstr 0;
  r ← (match path with
       | None => mret None
       | Some path =>
         major ← argint 1;
         match major with
         | None => mret None
         | Some major =>
           minor ← argint 2;
           match minor with
           | None => mret None
           | Some minor => create path T_DEV (i16 major) (i16 minor)
           end
         end
       end);
  made r.

Definition sys_chdir : M kernel Z :=
  p ← myproc;
  begin_op;;
  path ← argstr 0;
  r ← (match path with None => mret None | Some path => namei path end);
  match r with
  | None => end_op;; mret (-1)
  | Some ip =>
    ilock ip;;
    d ← inode_at ip;
    if negb (i_type d =? T_DIR) then iunlockput ip;; end_op;; mret (-1)
    else
      iunlock ip;;
      pr ← proc_at p;
      (match p_cwd pr with None => undef "cwd is null" | Some cwd => iput cwd end);;
      end_op;;
      upd_proc p (set_p_cwd (Some ip));;
      mret 0
  end.

(** The argument strings of [exec], at most [n] more. *)
Fixpoint fetch_argv (n : nat) (uargv i : Z) : M kernel (option (list (list Z))) :=
  match n with
  | O => mret None
  | S n' =>
    r ← fetchint kend (u32 (uargv + 4 * i));
    match r with
    | None => mret None
    | Some 0 => mret (Some [])
    | Some uarg =>
      s ← fetchstr kend (u32 uarg);
      match s with
      | None => mret None
      | Some s => r ← fetch_argv n' uargv (i + 1); mret (cons s <$> r)
      end
    end
  end.

Definition sys_exec (exec : list Z -> list (list Z) -> M kernel Z) : M kernel Z :=
  or_fail (argstr 0) (fun path =>
  or_fail (argint 1) (fun uargv =>
  or_fail (fetch_argv (Z.to_nat MAXARG) (u32 uargv) 0) (fun argv => exec path argv))).

Definition clear_fd (fd : nat) : M kernel unit :=
  p ← myproc; upd_proc p (fun pr => set_p_ofile (<[fd := None]> (p_ofile pr)) pr).

Definition sys_pipe : M kernel Z :=
  or_fail (argptr 0 8) (fun fd =>
  or_fail (pipealloc kend) (fun '(rf, wf) =>
  fd0 ← fdalloc rf;
  fd1 ← (match fd0 with None => mret None | Some _ => fdalloc wf end);
  match fd0, fd1 with
  | Some a, Some b =>
    ustore32 kend fd (Z.of_nat a);;
    ustore32 kend (fd + 4) (Z.of_nat b);;
    mret 0
  | _, _ =>
    match fd0 with Some a => clear_fd a | None => mret tt end;;
    fileclose kend rf;;
    fileclose kend wf;;
    mret (-1)
  end)).

(** The inode that [create] returns is locked, and [filewrite] locks it again;
    the test [filewrite < 0] compares the address of the function. *)
Definition sys_symlink : M kernel Z :=
  or_fail (argstr 0) (fun target =>
  or_fail (argstr 1) (fun path =>
  begin_op;;
  r ← create path T_SYMLINK 0 0;
  match r with
  | None => mret (-1)
  | Some ip =>
    fr ← filealloc;
    match fr with
    | None => undef "fileclose of a null file"
    | Some f =>
      upd_file f (fun fl =>
        set_f_writable true (set_f_readable false (set_f_off 0 (set_f_ip (Some ip) (set_f_type FD_INODE fl)))));;
      filewrite f (target ++ [0]) (Z.of_nat (length target) + 1);;
      fileclose kend f;;
      end_op;;
      mret 0
    end
  end)).

Definition sys_lseek : M kernel Z :=
  or_fail (argfd 0) (fun '(_, f) =>
  or_fail (argint 1) (fun offset => filelseek f offset)).
End sysfile.
