(* ===== verification/Exec.v ===== *)
(** * Loading a program (src/exec.c, [loaduvm] of src/vm.c) and [clone]
    (src/proc.c) *)

From S2P Require Import Prelude Layout CString Spinlock Kalloc Vm State Sched Sleeplock Bio Log Fs Pipe File Proc Syscall.

Definition ELF_MAGIC : Z := 0x464C457F.
Definition ELF_PROG_LOAD : Z := 1.

Record elfhdr := Elfhdr { magic : Z; entry : Z; phoff : Z; phnum : Z }.
Record proghdr := Proghdr { ph_type : Z; ph_off : Z; ph_vaddr : Z; ph_filesz : Z; ph_memsz : Z }.

(** [sizeof] of the two structures, and their fields in the bytes of the file. *)
Definition ELFHDR_SIZE : Z := 52.
Definition PROGHDR_SIZE : Z := 32.

Definition decode_elfhdr (l : list Z) : elfhdr :=
  Elfhdr (get32 l 0) (get32 l 24) (get32 l 28) (get16 l 44).
Definition decode_proghdr (l : list Z) : proghdr :=
  Proghdr (get32 l 0) (get32 l 4) (get32 l 8) (get32 l 16) (get32 l 20).

(** The last element of a path, for [p->name]. *)
Fixpoint last_elem (last s : list Z) : list Z :=
  match s with
  | [] => last
  | x :: s' => if x =? slash then last_elem s' s' else last_elem last s'
  end.

Section exec.
Context `{DiskDriver} `{Devsw} (kend kdata : Z).

Fixpoint loaduvm_loop (fuel : nat) (pgdir addr : Z) (ip : nat) (offset i sz : Z) : M kernel Z :=
  match fuel with
  | O => undef "loaduvm: out of fuel"
  | S fuel' =>
    if i <? sz then
      pte ← zoom L_mem (walkpgdir pgdir (u32 (addr + i)) false);
      if pte =? 0 then panic "loaduvm: address should exist" else
      e ← zoom L_mem (load pte);
      let pa := PTE_ADDR e in
      let n := if sz - i <? PGSIZE then sz - i else PGSIZE in
      r ← readi ip (u32 (offset + i)) n;
      mem_modify (fun m => wr_bytes m (P2V pa) (snd r));;
      if negb (u32 (fst r) =? n) then mret (-1)
      else loaduvm_loop fuel' pgdir addr ip offset (u32 (i + PGSIZE)) sz
    else mret 0
  end.

Definition loaduvm (pgdir addr : Z) (ip : nat) (offset sz : Z) : M kernel Z :=
  if negb (addr mod PGSIZE =? 0) then panic "loaduvm: addr must be page aligned"
  else loaduvm_loop (S (Z.to_nat (sz / PGSIZE + 1))) pgdir addr ip offset 0 sz.

(** The program headers; [None] is the jump to [bad]. *)
Fixpoint load_segments (n : nat) (pgdir : Z) (ip : nat) (off sz : Z) : M kernel (option Z) :=
  match n with
  | O => mret (Some sz)
  | S n' =>
    r ← readi ip (u32 off) PROGHDR_SIZE;
    if negb (fst r =? PROGHDR_SIZE) then mret None
    else
      let ph := decode_proghdr (snd r) in
      if negb (ph_type ph =? ELF_PROG_LOAD) then load_segments n' pgdir ip (i32 (off + PROGHDR_SIZE)) sz
      else if ph_memsz ph <? ph_filesz ph then mret None
      else if u32 (ph_vaddr ph + ph_memsz ph) <? ph_vaddr ph then mret None
      else
        sz ← zoom L_mem (allocuvm kend pgdir sz (u32 (ph_vaddr ph + ph_memsz ph)));
        if sz =? 0 then mret None
        else if negb (ph_vaddr ph mod PGSIZE =? 0) then mret None
        else
          r ← loaduvm pgdir (ph_vaddr ph) ip (ph_off ph) (ph_filesz ph);
          if r <? 0 then mret None
          else load_segments n' pgdir ip (i32 (off + PROGHDR_SIZE)) sz
  end.

(** The argument strings, pushed from [sp] down: the stack pointer and the
    addresses of the strings. *)
Fixpoint push_args (argv : list (list Z)) (argc pgdir sp : Z) : M kernel (option (Z * list Z)) :=
  match argv with
  | [] => mret (Some (sp, []))
  | s :: argv' =>
    if argc >=? MAXARG then mret None
    else
      let n := Z.of_nat (length s) + 1 in
      let sp := Z.land (u32 (sp - n)) (u32 (Z.lnot 3)) in
      r ← zoom L_mem (copyout pgdir sp (s ++ [0]) n);
      if r <? 0 then mret None
      else
        rest ← push_args argv' (argc + 1) pgdir sp;
        mret ((fun '(sp', l) => (sp', sp :: l)) <$> rest)
  end.

(** [ustack], for the addresses [l] of the strings. *)
Definition ustack_words (sp : Z) (l : list Z) : list Z :=
  let argc := Z.of_nat (length l) in
  [0xffffffff; argc; u32 (sp - (argc + 1) * 4)] ++ l ++ [0].

(** [bad:] *)
Definition exec_bad (pgdir : Z) (ip : option nat) : M kernel Z :=
  when (negb (pgdir =? 0)) (zoom L_mem (freevm kend pgdir));;
  match ip with Some ip => iunlockput ip;; end_op | None => mret tt end;;
  mret (-1).

(** "Commit to the user image". *)
Definition exec_commit (me : nat) (path : list Z) (elf : elfhdr) (pgdir sz sp : Z) : M kernel Z :=
  upd_proc me (set_p_name (copy_name (last_elem path path ++ [0])));;
  pr ← proc_at me;
  let oldpgdir := p_pgdir pr in
  upd_proc me (set_p_pgdir pgdir);;
  upd_proc me (set_p_sz sz);;
  mem_modify (fun m => wr32 m (p_tf pr + TF_eip) (entry elf));;
  mem_modify (fun m => wr32 m (p_tf pr + TF_esp) sp);;
  upd_proc me (set_p_priority LOW);;
  zoom L_mem (freevm kend oldpgdir);;
  mret 0.

(** The user stack and the arguments; the inode has been released. *)
Definition exec_stack (me : nat) (path : list Z) (argv : list (list Z)) (elf : elfhdr) (pgdir sz : Z) : M kernel Z :=
  let sz := PGROUNDUP sz in
  sz ← zoom L_mem (allocuvm kend pgdir sz (u32 (sz + 2 * PGSIZE)));
  if sz =? 0 then exec_bad pgdir None
  else
    zoom L_mem (clearpteu pgdir (u32 (sz - 2 * PGSIZE)));;
    r ← push_args argv 0 pgdir sz;
    match r with
    | None => exec_bad pgdir None
    | Some (sp, l) =>
      let ws := ustack_words sp l in
      let n := Z.of_nat (length ws) * 4 in
      let sp := u32 (sp - n) in
      r ← zoom L_mem (copyout pgdir sp (concat (word_bytes <$> ws)) n);
      if r <? 0 then exec_bad pgdir None
      else exec_commit me path elf pgdir sz sp
    end.

Definition exec (path : list Z) (argv : list (list Z)) : M kernel Z :=
  me ← myproc;
  begin_op;;
  r ← namei path;
  match r with
  | None => end_op;; mret (-1)
  | Some ip =>
    ilock ip;;
    r ← readi ip 0 ELFHDR_SIZE;
    if negb (fst r =? ELFHDR_SIZE) then exec_bad 0 (Some ip)
    else
      let elf := decode_elfhdr (snd r) in
      if negb (magic elf =? ELF_MAGIC) then exec_bad 0 (Some ip)
      else
        pgdir ← zoom L_mem (setupkvm kend kdata);
        if pgdir =? 0 then exec_bad 0 (Some ip)
        else
          r ← load_segments (Z.to_nat (phnum elf)) pgdir ip (i32 (phoff elf)) 0;
          match r with
          | None => exec_bad pgdir (Some ip)
          | Some sz =>
            iunlockput ip;;
            end_op;;
            exec_stack me path argv elf pgdir sz
          end
  end.

(** The loop of [clone] over the open files duplicates the entry of the new
    process, and takes the caller's file for an inode. *)
Fixpoint clone_files (fs : list (option nat)) (i np : nat) : M kernel unit :=
  match fs with
  | [] => mret tt
  | f :: _ =>
    match f with
    | None => mret tt
    | Some _ =>
      pr ← proc_at np;
      match p_ofile pr !! i with
      | Some (Some g) =>
        g' ← filedup g;
        upd_proc np (fun pr => set_p_ofile (<[i := Some g']> (p_ofile pr)) pr)
      | _ => undef "clone: filedup of a null file"
      end
    end;;
    undef "clone: idup of a file"
  end.

(** No return statement ends the function. *)
Definition clone (trapret forkret fcn arg stack : Z) : M kernel Z :=
  me ← myproc;
  cp ← proc_at me;
  let ustack := u32 (stack + PGSIZE - 4) in
  r ← allocproc trapret forkret;
  match r with
  | None => mret (-1)
  | Some np =>
    upd_proc np (set_p_pgdir (p_pgdir cp));;
    upd_proc np (set_p_sz (p_sz cp));;
    upd_proc np (set_p_ustack stack);;
    upd_proc np (set_p_parent None);;
    pr ← proc_at np;
    mem_modify (fun m => memmove m (p_tf pr) (p_tf cp) TF_SIZE);;
    mem_modify (fun m => wr32 m (p_tf pr + TF_eax) (p_pid pr));;
    mem_modify (fun m => wr32 m (p_tf pr + TF_ebp) (u32 (ustack - 4)));;
    mem_modify (fun m => wr32 m (p_tf pr + TF_esp) (u32 (ustack - 4)));;
    mem_modify (fun m => wr32 m (p_tf pr + TF_eip) fcn);;
    ustore32 kend ustack arg;;
    ustore32 kend (u32 (ustack - 4)) 0xffffffff;;
    ustore32 kend (u32 (ustack - 8)) 0xffffffff;;
    clone_files (p_ofile cp) 0 np;;
    undef "clone: no value is returned"
  end.
End exec.
