(* ===== verification/Boot.v ===== *)
(** * The boot loader (src/bootmain.c)

    The boot loader reads the kernel, an ELF file, from the disk into physical
    memory, with the ports of the disk.  The drive is an interface, [Drive]; its
    laws are those of a disk with 28-bit block addresses. *)

From S2P Require Import Prelude Layout CString State Fs Inode Exec.

(** ** The drive *)

Class Drive := {
  drive : Type;
  d_outb : Z -> Z -> drive -> drive;
  d_inb : Z -> drive -> Z * drive;
  d_insl : Z -> nat -> drive -> list Z * drive;
}.

Definition SECTSIZE : Z := 512.

Section loader.
Context `{Drive}.

(** Each poll of the status takes fuel. *)
Fixpoint waitdisk (fuel : nat) (d : drive) : option drive :=
  match fuel with
  | O => None
  | S fuel' =>
    let r := d_inb 0x1F7 d in
    if negb (Z.land (fst r) 0xC0 =? 0x40) then waitdisk fuel' (snd r) else Some (snd r)
  end.

(** [insl] stores the words it reads at [dst]. *)
Fixpoint store (m : mem) (dst : Z) (l : list Z) : mem :=
  match l with [] => m | x :: l' => store (wr m dst x) (dst + 1) l' end.

(** The command to read one sector. *)
Definition read_command (offset : Z) (d : drive) : drive :=
  let d := d_outb 0x1F2 1 d in
  let d := d_outb 0x1F3 (u8 offset) d in
  let d := d_outb 0x1F4 (u8 (Z.shiftr offset 8)) d in
  let d := d_outb 0x1F5 (u8 (Z.shiftr offset 16)) d in
  let d := d_outb 0x1F6 (u8 (Z.lor (Z.shiftr offset 24) 0xE0)) d in
  d_outb 0x1F7 0x20 d.

Context (polls : nat).

Definition readsect (dst offset : Z) (s : mem * drive) : option (mem * drive) :=
  d ← waitdisk polls (snd s);
  d ← waitdisk polls (read_command offset d);
  let r := d_insl 0x1F0 (Z.to_nat (SECTSIZE / 4)) d in
  Some (store (fst s) dst (fst r), snd r).

Fixpoint readseg_loop (fuel : nat) (pa epa offset : Z) (s : mem * drive) : option (mem * drive) :=
  match fuel with
  | O => None
  | S fuel' =>
    if pa <? epa then
      s ← readsect pa offset s;
      readseg_loop fuel' (u32 (pa + SECTSIZE)) epa (u32 (offset + 1)) s
    else Some s
  end.

Definition readseg (pa count offset : Z) (s : mem * drive) : option (mem * drive) :=
  let epa := u32 (pa + count) in
  let pa := u32 (pa - offset mod SECTSIZE) in
  let offset := u32 (offset / SECTSIZE + 1) in
  readseg_loop (Z.to_nat (count / SECTSIZE + 3)) pa epa offset s.

(** The headers are read from memory: the fields of [struct elfhdr] and
    [struct proghdr] at an address. *)
Definition rd16 (m : mem) (a : Z) : Z := rd m a + 2 ^ 8 * rd m (a + 1).
Definition elf_magic (m : mem) (elf : Z) : Z := rd32 m elf.
Definition elf_entry (m : mem) (elf : Z) : Z := rd32 m (elf + 24).
Definition elf_phoff (m : mem) (elf : Z) : Z := rd32 m (elf + 28).
Definition elf_phnum (m : mem) (elf : Z) : Z := rd16 m (elf + 44).
Definition ph_off (m : mem) (ph : Z) : Z := rd32 m (ph + 4).
Definition ph_paddr (m : mem) (ph : Z) : Z := rd32 m (ph + 12).
Definition ph_filesz (m : mem) (ph : Z) : Z := rd32 m (ph + 16).
Definition ph_memsz (m : mem) (ph : Z) : Z := rd32 m (ph + 20).

Fixpoint load_loop (fuel : nat) (ph eph : Z) (s : mem * drive) : option (mem * drive) :=
  if ph <? eph then
    match fuel with
    | O => None
    | S fuel' =>
      let pa := ph_paddr (fst s) ph in
      s ← readseg pa (ph_filesz (fst s) ph) (ph_off (fst s) ph) s;
      let filesz := ph_filesz (fst s) ph in
      let memsz := ph_memsz (fst s) ph in
      let s := if memsz >? filesz
        then (stosb (fst s) (u32 (pa + filesz)) 0 (Z.to_nat (memsz - filesz)), snd s) else s in
      load_loop fuel' (u32 (ph + PROGHDR_SIZE)) eph s
    end
  else Some s.

Definition ELF_SCRATCH : Z := 0x10000.

(** The entry point that is called, none if [bootmain] returns, and the memory
    then. *)
Definition bootmain (s : mem * drive) : option (option Z * mem) :=
  let elf := ELF_SCRATCH in
  s ← readseg elf 4096 0 s;
  if negb (elf_magic (fst s) elf =? ELF_MAGIC) then Some (None, fst s)
  else
    let ph := u32 (elf + elf_phoff (fst s) elf) in
    let phnum := elf_phnum (fst s) elf in
    let eph := u32 (ph + PROGHDR_SIZE * phnum) in
    s ← load_loop (Z.to_nat phnum) ph eph s;
    Some (Some (elf_entry (fst s) elf), fst s).
End loader.

(** ** What a drive promises *)

(** The sectors of the drive; the status shows that it is ready after some
    polls; after the command to read one sector, with its number in four
    registers, the data port gives the bytes of the sector. *)
Class DriveLaws `{Drive} := {
  d_sector : Z -> list Z;
  d_polls : nat;
  d_length : forall b, length (d_sector b) = 512%nat;
  d_bytes : forall b, Forall byte_ok (d_sector b);
  d_ready : forall d, is_Some (waitdisk d_polls d);
  d_reads : forall d d' l0 l1 l2 dev, byte_ok l0 -> byte_ok l1 -> byte_ok l2 -> byte_ok dev -> Z.land dev 0xF0 = 0xE0 ->
    waitdisk d_polls (d_outb 0x1F7 0x20 (d_outb 0x1F6 dev (d_outb 0x1F5 l2 (d_outb 0x1F4 l1 (d_outb 0x1F3 l0 (d_outb 0x1F2 1 d)))))) = Some d' ->
    fst (d_insl 0x1F0 128 d') = d_sector (l0 + 2 ^ 8 * l1 + 2 ^ 16 * l2 + 2 ^ 24 * Z.land dev 0x0F);
}.

(** ** Reading sectors *)

Lemma store_spec l : forall m a b, rd (store m a l) b = if decide (a <= b < a + Z.of_nat (length l)) then u8 (byte_at l (b - a)) else rd m b.
Proof.
  induction l as [|x l IH]; intros m a b; cbn [store length]; [by rewrite decide_False by lia|]. rewrite IH, rd_wr. unfold byte_at.
  destruct (decide (a = b)) as [->|Hne].
  - rewrite decide_False, decide_True by lia. by rewrite Z.sub_diag.
  - destruct (decide (a + 1 <= b < _)); [|by rewrite decide_False by lia]. rewrite decide_True by lia.
    by replace (Z.to_nat (b - a)) with (S (Z.to_nat (b - (a + 1)))) by lia.
Qed.

(** The register with the high bits of the sector number. *)
Lemma drive_register h : 0 <= h < 16 -> byte_ok (Z.lor h 0xE0) /\ u8 (Z.lor h 0xE0) = Z.lor h 0xE0 /\ Z.land (Z.lor h 0xE0) 0xF0 = 0xE0 /\ Z.land (Z.lor h 0xE0) 0x0F = h.
Proof.
  intros Hh. assert (E : forallb (fun h => (0 <=? Z.lor h 0xE0) && (Z.lor h 0xE0 <? 256) && (Z.land (Z.lor h 0xE0) 0xF0 =? 0xE0) && (Z.land (Z.lor h 0xE0) 0x0F =? h)) (seqZ 0 16) = true) by reflexivity.
  rewrite forallb_forall in E. specialize (E h). rewrite <- list_elem_of_In, elem_of_seqZ in E. specialize (E ltac:(lia)).
  apply andb_prop in E as [[[E1 E2]%andb_prop E3]%andb_prop E4]. assert (byte_ok (Z.lor h 0xE0)) by (word_unfold; lia). split; [done|]. split; [by apply u8_id|]. lia.
Qed.

Section reading.
Context `{DriveLaws}.
Abbreviation polls := d_polls.

Lemma command_sector offset : 0 <= offset < 2 ^ 28 ->
  u8 offset + 2 ^ 8 * u8 (Z.shiftr offset 8) + 2 ^ 16 * u8 (Z.shiftr offset 16) + 2 ^ 24 * Z.land (u8 (Z.lor (Z.shiftr offset 24) 0xE0)) 0x0F = offset.
Proof using Type.
  intros Ho. rewrite !Z.shiftr_div_pow2 by lia. assert (Hh : 0 <= offset / 2 ^ 24 < 16) by (change (2 ^ 28) with 268435456 in Ho; change (2 ^ 24) with 16777216; Z.to_euclidean_division_equations; lia).
  destruct (drive_register _ Hh) as (_ & -> & _ & ->). change (2 ^ 24) with 16777216. word_unfold. change (2 ^ 28) with 268435456 in Ho. Z.to_euclidean_division_equations; lia.
Qed.

Lemma readsect_run m d dst offset : 0 <= offset < 2 ^ 28 -> exists d', readsect polls dst offset (m, d) = Some (store m dst (d_sector offset), d').
Proof using Type.
  intros Ho. unfold readsect. cbn [fst snd]. destruct (d_ready d) as [d1 ->]. cbn. destruct (d_ready (read_command offset d1)) as [d2 E2]. rewrite E2. cbn.
  change (Z.to_nat (SECTSIZE / 4)) with 128%nat. eexists. do 3 f_equal.
  assert (Hh : 0 <= Z.shiftr offset 24 < 16) by (rewrite Z.shiftr_div_pow2 by lia; change (2 ^ 28) with 268435456 in Ho; change (2 ^ 24) with 16777216; Z.to_euclidean_division_equations; lia).
  destruct (drive_register _ Hh) as (R1 & R2 & R3 & R4).
  rewrite (d_reads _ _ _ _ _ _ (u8_range _) (u8_range _) (u8_range _) (u8_range _) ltac:(by rewrite R2) E2). by rewrite command_sector.
Qed.

(** The rounds of the loop. *)
Definition rounds (n : Z) : Z := (n + 511) / 512.

Lemma readseg_loop_run fuel : forall pa epa q m d, 0 <= pa -> pa <= epa + 511 -> 0 <= epa <= 2 ^ 32 - 512 -> 0 <= q -> q + rounds (epa - pa) <= 2 ^ 28 -> rounds (epa - pa) < Z.of_nat fuel ->
  exists m' d', readseg_loop polls fuel pa epa q (m, d) = Some (m', d') /\
    forall b, rd m' b = if decide (pa <= b < pa + 512 * rounds (epa - pa)) then byte_at (d_sector (q + (b - pa) / 512)) ((b - pa) mod 512) else rd m b.
Proof using Type.
  induction fuel as [|fuel IH]; intros pa epa q m d Hpa Hle Hepa Hq Hmax Hfuel; [unfold rounds in *; Z.to_euclidean_division_equations; lia|]. cbn [readseg_loop].
  change (2 ^ 32) with 4294967296 in *. change (2 ^ 28) with 268435456 in *. destruct (Z.ltb_spec pa epa) as [Hlt|Hge].
  - assert (Hr : rounds (epa - pa) = rounds (epa - (pa + 512)) + 1 /\ 0 <= rounds (epa - (pa + 512))) by (unfold rounds; Z.to_euclidean_division_equations; lia). destruct Hr as [Hr Hr0].
    destruct (readsect_run m d pa q) as [d1 E1]; [change (2 ^ 28) with 268435456; lia|]. rewrite E1. cbn [mbind option_bind]. change SECTSIZE with 512.
    rewrite !u32_id by (word_unfold; lia). destruct (IH (pa + 512) epa (q + 1) (store m pa (d_sector q)) d1) as (m' & d' & E & Hm); [lia|lia|lia|lia|lia|lia|].
    exists m', d'. split; [exact E|]. intros b. rewrite Hm, store_spec, d_length. change (Z.of_nat 512) with 512.
    destruct (decide (pa + 512 <= b < pa + 512 + 512 * rounds (epa - (pa + 512)))) as [Hin|Hout].
    + rewrite decide_True by lia. f_equal; [f_equal|]; Z.to_euclidean_division_equations; lia.
    + destruct (decide (pa <= b < pa + 512)) as [Hin|Hout2]; [|by rewrite decide_False by lia]. rewrite decide_True by lia.
      rewrite Z.div_small, Z.mod_small, Z.add_0_r by lia. unfold byte_at. destruct (lookup_lt_is_Some_2 (d_sector q) (Z.to_nat (b - pa))) as [y Ey]; [rewrite d_length; lia|].
      rewrite Ey. cbn. apply u8_id. eapply Forall_lookup_1; [apply d_bytes|exact Ey].
  - exists m, d. split; [done|]. intros b. rewrite decide_False; [done|]. unfold rounds. Z.to_euclidean_division_equations; lia.
Qed.

(** Byte [x] of the kernel, which starts at sector 1. *)
Definition kbyte (x : Z) : Z := byte_at (d_sector (x / 512 + 1)) (x mod 512).

(** The bytes of memory that [readseg] writes. *)
Definition seg_from (pa offset : Z) : Z := pa - offset mod 512.
Definition seg_to (pa count offset : Z) : Z := seg_from pa offset + 512 * rounds (count + offset mod 512).

Lemma readseg_run pa count offset m d : 0 <= count -> 0 <= offset -> 0 <= seg_from pa offset -> pa + count <= 2 ^ 32 - 512 -> offset + count < 2 ^ 32 ->
  exists m' d', readseg polls pa count offset (m, d) = Some (m', d') /\
    forall b, rd m' b = if decide (seg_from pa offset <= b < seg_to pa count offset) then kbyte (offset + (b - pa)) else rd m b.
Proof using Type.
  intros Hc Ho Hpa Hmax Hsec. unfold readseg, seg_from, seg_to in *. change SECTSIZE with 512. change (2 ^ 32) with 4294967296 in *.
  pose proof (Z.mod_pos_bound offset 512 ltac:(lia)) as Hm. assert (Hq : 0 <= offset / 512 < 8388608) by (Z.to_euclidean_division_equations; lia).
  rewrite !u32_id by (word_unfold; lia). set (lo := pa - offset mod 512) in *. assert (El : pa + count - lo = count + offset mod 512) by (unfold lo; lia).
  destruct (readseg_loop_run (Z.to_nat (count / 512 + 3)) lo (pa + count) (offset / 512 + 1) m d) as (m' & d' & E & Hr); rewrite ?El; change (2 ^ 32) with 4294967296; change (2 ^ 28) with 268435456;
    [lia|lia|lia|lia|unfold rounds; Z.to_euclidean_division_equations; lia|unfold rounds; Z.to_euclidean_division_equations; lia|].
  exists m', d'. split; [exact E|]. intros b. rewrite Hr, El. fold lo. destruct (decide (lo <= b < _)) as [Hin|Hout]; [|done]. unfold kbyte. unfold lo in *.
  f_equal; [f_equal|]; Z.to_euclidean_division_equations; lia.
Qed.

(** ** The kernel in its file *)

Definition kword (x : Z) : Z := kbyte x + 2 ^ 8 * kbyte (x + 1) + 2 ^ 16 * kbyte (x + 2) + 2 ^ 24 * kbyte (x + 3).
Definition k_entry : Z := kword 24.
Definition k_phoff : Z := kword 28.
Definition k_phnum : Z := kbyte 44 + 2 ^ 8 * kbyte 45.
Definition s_off (i : Z) : Z := kword (k_phoff + 32 * i + 4).
Definition s_paddr (i : Z) : Z := kword (k_phoff + 32 * i + 12).
Definition s_filesz (i : Z) : Z := kword (k_phoff + 32 * i + 16).
Definition s_memsz (i : Z) : Z := kword (k_phoff + 32 * i + 20).

(** Where segment [i] begins and ends in memory, and what loading it touches. *)
Definition s_end (i : Z) : Z := s_paddr i + Z.max (s_filesz i) (s_memsz i).
Definition s_low (i : Z) : Z := seg_from (s_paddr i) (s_off i).
Definition s_high (i : Z) : Z := Z.max (seg_to (s_paddr i) (s_filesz i) (s_off i)) (s_end i).

(** A kernel the boot loader can load: its headers are in the first page, its
    segments in memory and not over the headers; and loading a segment does not
    touch the segments before it. *)
Record bootable : Prop := Bootable {
  bt_magic : kword 0 = ELF_MAGIC;
  bt_headers : k_phoff + 32 * k_phnum <= 4096;
  bt_memory : forall i, 0 <= i < k_phnum -> 0 <= s_low i /\ s_end i <= 2 ^ 32 - 512 /\ s_off i + s_filesz i < 2 ^ 32;
  bt_scratch : forall i, 0 <= i < k_phnum -> s_high i <= ELF_SCRATCH \/ ELF_SCRATCH + 4096 <= s_low i;
  bt_apart : forall i j, 0 <= i < j -> j < k_phnum -> s_end i <= s_low j \/ s_high j <= s_paddr i;
}.

Definition loaded_segment (m : mem) (i : Z) : Prop :=
  (forall x, 0 <= x < s_filesz i -> rd m (s_paddr i + x) = kbyte (s_off i + x)) /\
  (forall x, s_filesz i <= x < s_memsz i -> rd m (s_paddr i + x) = 0).
Definition has_headers (m : mem) : Prop := forall x, 0 <= x < 4096 -> rd m (ELF_SCRATCH + x) = kbyte x.

Lemma kbyte_ok x : byte_ok (kbyte x).
Proof using Type.
  unfold kbyte, byte_at. destruct (d_sector _ !! _) as [y|] eqn:E; cbn; [|word_unfold; lia]. eapply Forall_lookup_1; [apply d_bytes|exact E].
Qed.

Lemma kword_ok x : uint_ok (kword x).
Proof using Type.
  pose proof (kbyte_ok x). pose proof (kbyte_ok (x + 1)). pose proof (kbyte_ok (x + 2)). pose proof (kbyte_ok (x + 3)). unfold kword. change (2 ^ 24) with 16777216. word_unfold. lia.
Qed.

Lemma header_word m x : has_headers m -> 0 <= x -> x + 4 <= 4096 -> rd32 m (ELF_SCRATCH + x) = kword x.
Proof using Type. intros Hh Hx Hle. unfold rd32, kword. by rewrite <- !Z.add_assoc, !Hh by lia. Qed.

Lemma seg_covers pa count offset : 0 <= count -> seg_from pa offset <= pa /\ pa + count <= seg_to pa count offset.
Proof using Type.
  intros Hc. unfold seg_to, seg_from, rounds. pose proof (Z.mod_pos_bound offset 512 ltac:(lia)). split; [lia|]. Z.to_euclidean_division_equations; lia.
Qed.

(** Loading one segment. *)
Lemma load_segment i m d : bootable -> 0 <= i < k_phnum -> exists m1 d1 m2,
  readseg polls (s_paddr i) (s_filesz i) (s_off i) (m, d) = Some (m1, d1) /\
  m2 = (if s_memsz i >? s_filesz i then stosb m1 (u32 (s_paddr i + s_filesz i)) 0 (Z.to_nat (s_memsz i - s_filesz i)) else m1) /\
  loaded_segment m2 i /\ (forall b, b < s_low i \/ s_high i <= b -> rd m1 b = rd m b) /\ (forall b, b < s_low i \/ s_high i <= b -> rd m2 b = rd m b).
Proof using Type.
  intros [_ _ Bm _ _] Hi. destruct (Bm i Hi) as (M1 & M2 & M3). pose proof (kword_ok (k_phoff + 32 * i + 16)) as Hf. pose proof (kword_ok (k_phoff + 32 * i + 20)) as Hm. pose proof (kword_ok (k_phoff + 32 * i + 4)) as Ho.
  pose proof (kword_ok (k_phoff + 32 * i + 12)) as Hp. fold (s_filesz i) in Hf. fold (s_memsz i) in Hm. fold (s_off i) in Ho. fold (s_paddr i) in Hp. unfold s_end in M2. change (2 ^ 32) with 4294967296 in *. unfold uint_ok in Hf, Hm, Ho, Hp. change (2 ^ 32) with 4294967296 in *.
  destruct (readseg_run (s_paddr i) (s_filesz i) (s_off i) m d) as (m1 & d1 & E1 & H1); [lia|lia|done|change (2 ^ 32) with 4294967296; lia|done|].
  pose proof (seg_covers (s_paddr i) (s_filesz i) (s_off i) ltac:(lia)) as [C1 C2].
  assert (Hin : forall x, 0 <= x < s_filesz i -> rd m1 (s_paddr i + x) = kbyte (s_off i + x)).
  { intros x Hx. rewrite H1, decide_True by lia. f_equal. lia. }
  assert (Hout : forall b, b < s_low i \/ s_high i <= b -> rd m1 b = rd m b).
  { intros b Hb. rewrite H1, decide_False; [done|]. unfold s_low, s_high in Hb. lia. }
  eexists m1, d1, _. split; [exact E1|]. split; [reflexivity|]. rewrite Z.gtb_ltb. destruct (Z.ltb_spec (s_filesz i) (s_memsz i)) as [Hlt|Hge].
  - assert (Hs : forall b, rd (stosb m1 (u32 (s_paddr i + s_filesz i)) 0 (Z.to_nat (s_memsz i - s_filesz i))) b = if decide (s_paddr i + s_filesz i <= b < s_paddr i + s_memsz i) then 0 else rd m1 b).
    { intros b. rewrite stosb_spec, u32_id by (word_unfold; lia). rewrite Z2Nat.id by lia. replace (s_paddr i + s_filesz i + (s_memsz i - s_filesz i)) with (s_paddr i + s_memsz i) by lia. done. }
    split; [split|split; [done|]].
    + intros x Hx. rewrite Hs, decide_False by lia. by apply Hin.
    + intros x Hx. by rewrite Hs, decide_True by lia.
    + intros b Hb. rewrite Hs, decide_False; [by apply Hout|]. unfold s_low, s_high, s_end in Hb. lia.
  - split; [split; [done|lia]|]. done.
Qed.

Lemma load_loop_run n : forall i m d, bootable -> 0 <= i -> i + Z.of_nat n = k_phnum -> has_headers m -> (forall j, 0 <= j < i -> loaded_segment m j) ->
  exists m' d', load_loop polls n (ELF_SCRATCH + k_phoff + 32 * i) (ELF_SCRATCH + k_phoff + 32 * k_phnum) (m, d) = Some (m', d') /\
    has_headers m' /\ forall j, 0 <= j < k_phnum -> loaded_segment m' j.
Proof using Type.
  induction n as [|n IH]; intros i m d Hb Hi Hn Hh Hl; cbn [load_loop].
  - rewrite (proj2 (Z.ltb_ge _ _)) by lia. exists m, d. split; [done|]. split; [done|]. intros j Hj. apply Hl. lia.
  - rewrite (proj2 (Z.ltb_lt _ _)) by lia. cbn [fst]. pose proof (bt_headers Hb) as Hph. pose proof (kword_ok 28) as Hpo. fold k_phoff in Hpo. unfold uint_ok in Hpo. unfold ph_paddr, ph_filesz, ph_off, ph_memsz.
    assert (Hw : forall m', has_headers m' -> forall o, 0 <= o -> o + 4 <= 32 -> rd32 m' (ELF_SCRATCH + k_phoff + 32 * i + o) = kword (k_phoff + 32 * i + o)).
    { intros m' Hh' o Ho Ho4. replace (ELF_SCRATCH + k_phoff + 32 * i + o) with (ELF_SCRATCH + (k_phoff + 32 * i + o)) by lia. apply header_word; [done|lia|lia]. }
    rewrite !(Hw m Hh) by lia. fold (s_paddr i) (s_filesz i) (s_off i).
    destruct (load_segment i m d Hb ltac:(lia)) as (m1 & d1 & m2 & E1 & -> & Hl2 & H1 & H2). rewrite E1. cbn [mbind option_bind fst snd].
    assert (Hscr : forall x, 0 <= x < 4096 -> ELF_SCRATCH + x < s_low i \/ s_high i <= ELF_SCRATCH + x) by (intros x Hx; destruct (bt_scratch Hb i ltac:(lia)); lia).
    assert (Hh1 : has_headers m1) by (intros x Hx; rewrite H1 by (by apply Hscr); by apply Hh). rewrite !(Hw m1 Hh1) by lia. fold (s_filesz i) (s_memsz i).
    set (m2 := if s_memsz i >? s_filesz i then _ else m1) in *. assert (Es : (if s_memsz i >? s_filesz i then (stosb m1 (u32 (s_paddr i + s_filesz i)) 0 (Z.to_nat (s_memsz i - s_filesz i)), d1) else (m1, d1)) = (m2, d1)) by (unfold m2; by destruct (_ >? _)).
    rewrite Es. change PROGHDR_SIZE with 32. rewrite u32_id by (unfold ELF_SCRATCH; word_unfold; lia).
    replace (ELF_SCRATCH + k_phoff + 32 * i + 32) with (ELF_SCRATCH + k_phoff + 32 * (i + 1)) by lia. apply IH; [done|lia|lia| |].
    + intros x Hx. rewrite H2 by (by apply Hscr). by apply Hh.
    + intros j Hj. destruct (decide (j = i)) as [->|Hne]; [done|]. destruct (Hl j ltac:(lia)) as [L1 L2]. destruct (bt_memory Hb j ltac:(lia)) as (_ & _ & _). pose proof (bt_apart Hb j i ltac:(lia) ltac:(lia)) as Hap. unfold s_end in Hap.
      split; intros x Hx; rewrite H2 by (unfold s_filesz in *; pose proof (kword_ok (k_phoff + 32 * j + 16)) as Hk; unfold uint_ok in Hk; lia); [by apply L1|by apply L2].
Qed.

(** C21: The boot loader loads the kernel.  If the file on the disk has the magic
    number of ELF, its headers in the first page and segments that are apart in
    the sense above, [bootmain] calls the entry point of the file, and in memory
    every segment has the bytes of the file, followed by zeros up to its size in
    memory; that the loader reads whole sectors does no harm. *)
Theorem bootmain_loads (m : mem) (d : drive) : bootable ->
  exists m', bootmain polls (m, d) = Some (Some k_entry, m') /\ forall i, 0 <= i < k_phnum -> loaded_segment m' i.
Proof using Type.
  intros Hb. unfold bootmain. destruct (readseg_run ELF_SCRATCH 4096 0 m d) as (m1 & d1 & E1 & H1); [lia|lia|done|by vm_compute|by vm_compute|]. rewrite E1. cbn [mbind option_bind fst].
  assert (Hh : has_headers m1).
  { intros x Hx. rewrite H1. change (seg_from ELF_SCRATCH 0) with ELF_SCRATCH. change (seg_to ELF_SCRATCH 4096 0) with (ELF_SCRATCH + 4096). rewrite decide_True by lia. f_equal. lia. }
  pose proof (bt_headers Hb) as Hph. pose proof (kword_ok 28) as Hpo. fold k_phoff in Hpo. unfold uint_ok in Hpo.
  assert (Hpn : 0 <= k_phnum) by (unfold k_phnum; pose proof (kbyte_ok 44); pose proof (kbyte_ok 45); word_unfold; lia).
  unfold elf_magic, elf_phoff, elf_phnum, elf_entry. assert (E0 : rd32 m1 ELF_SCRATCH = kword 0) by (rewrite <- (header_word m1 0) by (done || lia); done). rewrite E0, !(header_word m1) by (done || lia). rewrite (bt_magic Hb), Z.eqb_refl. cbn [negb].
  unfold rd16. rewrite <- Z.add_assoc, !Hh by lia. change (44 + 1) with 45. fold k_phoff k_phnum. change PROGHDR_SIZE with 32. rewrite !(u32_id (ELF_SCRATCH + k_phoff)) by (unfold ELF_SCRATCH; word_unfold; lia). rewrite (u32_id (_ + 32 * _)) by (unfold ELF_SCRATCH; word_unfold; lia).
  destruct (load_loop_run (Z.to_nat k_phnum) 0 m1 d1 Hb) as (m' & d' & E & Hh' & Hl); [lia|lia|done|lia|]. rewrite Z.mul_0_r, Z.add_0_r in E. rewrite E. cbn [mbind option_bind fst].
  exists m'. split; [|done]. do 2 f_equal. by rewrite header_word by (done || lia).
Qed.
End reading.

(** ** An example drive *)

(** The registers, the sector that has been read, and whether the drive is busy. *)
Record ata := Ata { t_lba0 : Z; t_lba1 : Z; t_lba2 : Z; t_dev : Z; t_data : list Z; t_busy : bool }.

Section ata.
Context (file : Z -> Z) (Hfile : forall x, byte_ok (file x)).

(** The file from sector 1 on. *)
Definition ata_sector (b : Z) : list Z := (fun i => file (512 * (b - 1) + i)) <$> seqZ 0 512.
Definition ata_outb (port v : Z) (d : ata) : ata :=
  if port =? 0x1F3 then Ata v (t_lba1 d) (t_lba2 d) (t_dev d) (t_data d) (t_busy d)
  else if port =? 0x1F4 then Ata (t_lba0 d) v (t_lba2 d) (t_dev d) (t_data d) (t_busy d)
  else if port =? 0x1F5 then Ata (t_lba0 d) (t_lba1 d) v (t_dev d) (t_data d) (t_busy d)
  else if port =? 0x1F6 then Ata (t_lba0 d) (t_lba1 d) (t_lba2 d) v (t_data d) (t_busy d)
  else if (port =? 0x1F7) && (v =? 0x20) then
    Ata (t_lba0 d) (t_lba1 d) (t_lba2 d) (t_dev d)
      (ata_sector (t_lba0 d + 2 ^ 8 * t_lba1 d + 2 ^ 16 * t_lba2 d + 2 ^ 24 * Z.land (t_dev d) 0x0F)) true
  else d.
#[local] Instance ata_drive : Drive := {|
  drive := ata;
  d_outb := ata_outb;
  d_inb := fun _ d => (if t_busy d then 0x80 else 0x40, Ata (t_lba0 d) (t_lba1 d) (t_lba2 d) (t_dev d) (t_data d) false);
  d_insl := fun _ n d => (take (4 * n) (t_data d), d);
|}.

Lemma ata_sector_length b : length (ata_sector b) = 512%nat.
Proof using Type. unfold ata_sector. by rewrite length_fmap, length_seqZ. Qed.

#[local] Instance ata_laws : DriveLaws.
Proof using Hfile.
  refine {| d_sector := ata_sector; d_polls := 2 |}.
  - exact ata_sector_length.
  - intros b. unfold ata_sector. apply Forall_fmap, Forall_forall. intros x _. apply Hfile.
  - intros [? ? ? ? ? []]; by eexists.
  - intros d d' l0 l1 l2 dev _ _ _ _ _ Hw. injection Hw as <-. cbn [fst d_insl ata_drive t_data]. apply take_ge. by rewrite ata_sector_length.
Defined.

Lemma kbyte_file x : kbyte x = file x.
Proof using Type.
  unfold kbyte. cbn [d_sector ata_laws]. unfold ata_sector, byte_at. pose proof (Z.mod_pos_bound x 512 ltac:(lia)) as Hm. rewrite list_lookup_fmap, lookup_seqZ_lt by lia. cbn.
  f_equal. pose proof (Z.div_mod x 512 ltac:(lia)). lia.
Qed.
End ata.

(** A kernel of two segments. *)
Definition ex_words : list (Z * Z) :=
  [(0, ELF_MAGIC); (24, 0x10000C); (28, 52); (44, 2);
   (52 + 4, 512); (52 + 12, 0x100000); (52 + 16, 600); (52 + 20, 1000);
   (84 + 4, 1200); (84 + 12, 0x102000); (84 + 16, 4); (84 + 20, 4); (512, 0x12345678); (1200, 7)].
Definition ex_kernel (x : Z) : Z :=
  u8 (foldr (fun w r => if decide (fst w <= x < fst w + 4) then Z.shiftr (snd w) (8 * (x - fst w)) else r) 0 ex_words).

Lemma ex_kernel_ok x : byte_ok (ex_kernel x).
Proof. apply u8_range. Qed.

Section example.
Context `{DriveLaws} (Hk : forall x, kbyte x = ex_kernel x).

Lemma ex_word x : kword x = ex_kernel x + 2 ^ 8 * ex_kernel (x + 1) + 2 ^ 16 * ex_kernel (x + 2) + 2 ^ 24 * ex_kernel (x + 3).
Proof using Hk. unfold kword. by rewrite !Hk. Qed.

Lemma ex_header : k_phnum = 2 /\ k_phoff = 52 /\ k_entry = 0x10000C.
Proof using Hk. unfold k_phnum, k_phoff, k_entry. rewrite !ex_word, !Hk. by vm_compute. Qed.

Lemma ex_segment0 : s_off 0 = 512 /\ s_paddr 0 = 0x100000 /\ s_filesz 0 = 600 /\ s_memsz 0 = 1000.
Proof using Hk. destruct ex_header as (_ & Eo & _). unfold s_off, s_paddr, s_filesz, s_memsz. rewrite Eo, !ex_word. by vm_compute. Qed.

Lemma ex_segment1 : s_off 1 = 1200 /\ s_paddr 1 = 0x102000 /\ s_filesz 1 = 4 /\ s_memsz 1 = 4.
Proof using Hk. destruct ex_header as (_ & Eo & _). unfold s_off, s_paddr, s_filesz, s_memsz. rewrite Eo, !ex_word. by vm_compute. Qed.

Lemma ex_bootable : bootable.
Proof using Hk.
  destruct ex_header as (En & Eo & _). destruct ex_segment0 as (A1 & A2 & A3 & A4). destruct ex_segment1 as (B1 & B2 & B3 & B4). split; rewrite ?En, ?Eo.
  - rewrite ex_word. by vm_compute.
  - lia.
  - intros i Hi. assert (i = 0 \/ i = 1) as [->| ->] by lia; unfold s_low, s_end; rewrite ?A1, ?A2, ?A3, ?A4, ?B1, ?B2, ?B3, ?B4; by vm_compute.
  - intros i Hi. right. assert (i = 0 \/ i = 1) as [->| ->] by lia; unfold s_low; rewrite ?A1, ?A2, ?B1, ?B2; by vm_compute.
  - intros i j Hi Hj. left. assert (i = 0) as -> by lia. assert (j = 1) as -> by lia. unfold s_end, s_low. rewrite A2, A3, A4, B1, B2. by vm_compute.
Qed.
End example.

Lemma bootmain_loads_witness :
  exists m', bootmain (H := ata_drive ex_kernel) (d_polls (DriveLaws := ata_laws ex_kernel ex_kernel_ok)) (∅, Ata 0 0 0 0 [] false) = Some (Some 0x10000C, m') /\ rd m' 0x100000 = 0x78 /\ rd m' 0x100300 = 0 /\ rd m' 0x102000 = 7.
Proof.
  set (D := ata_laws ex_kernel ex_kernel_ok). assert (Hk : forall x, kbyte (H0 := D) x = ex_kernel x) by apply kbyte_file. clearbody D.
  destruct (ex_header Hk) as (En & _ & Ee). destruct (ex_segment0 Hk) as (A1 & A2 & A3 & A4). destruct (ex_segment1 Hk) as (B1 & B2 & B3 & B4).
  destruct (@bootmain_loads _ D ∅ (Ata 0 0 0 0 [] false) (ex_bootable Hk)) as (m' & E & Hl). rewrite Ee in E. exists m'. split; [exact E|]. rewrite En in Hl.
  destruct (Hl 0 ltac:(lia)) as [L1 L2]. destruct (Hl 1 ltac:(lia)) as [L3 _]. rewrite A1, A2, A3 in L1. rewrite A2, A3, A4 in L2. rewrite B1, B2, B3 in L3.
  split; [rewrite <- (Z.add_0_r 0x100000), L1, Hk by lia; by vm_compute|]. split; [apply (L2 0x300); lia|]. rewrite <- (Z.add_0_r 0x102000), L3, Hk by lia. by vm_compute.
Defined.
