(* ===== verification/Trap.v ===== *)
(** * Traps (src/trap.c) and the process system calls (src/sysproc.c)

    [trap] is given the trap number and the saved code segment of the frame at
    address [tf].  It is modelled for both configurations, LAZY and LOCALITY;
    the handlers of the keyboard and of the serial port and the disk's status
    are parameters. *)

From S2P Require Import Prelude Layout CString Spinlock Kalloc Vm State Sched Sleeplock Bio Ide Log Fs Console Pipe File Proc Syscall Sysfile Exec.

Definition T_PGFLT : Z := 14.
Definition T_SYSCALL : Z := 64.
Definition T_IRQ0 : Z := 32.
Definition IRQ_TIMER : Z := 0.
Definition IRQ_KBD : Z := 1.
Definition IRQ_COM1 : Z := 4.
Definition IRQ_IDE : Z := 14.
Definition IRQ_SPURIOUS : Z := 31.

Section sysproc.
Context `{DiskDriver} `{Devsw} (kend kdata trapret forkret : Z).

Definition sys_fork : M kernel Z := fork kend kdata trapret forkret.
Definition sys_exit : M kernel Z := exit kend;; mret 0.
Definition sys_wait : M kernel Z := wait kend.
Definition sys_kill : M kernel Z := or_fail (argint kend 0) kill.
Definition sys_getpid : M kernel Z := mypid.

(** The new pages are allocated by the page fault handler. *)
Definition sys_sbrk : M kernel Z :=
  or_fail (argint kend 0) (fun n =>
  p ← myproc;
  pr ← proc_at p;
  upd_proc p (set_p_sz (u32 (p_sz pr + n)));;
  mret (i32 (p_sz pr))).

(** One test of the loop, for the time [ticks0] at which the call started; the
    comparison is between unsigned numbers. *)
Definition sleep_test (ticks0 n : Z) : M kernel Z :=
  t ← gets k_ticks;
  if u32 (t - ticks0) <? u32 n then
    p ← myproc;
    pr ← proc_at p;
    if p_killed pr then release tickslock;; mret (-1)
    else sleep chan_ticks tickslock
  else release tickslock;; mret 0.

Definition sys_sleep : M kernel Z :=
  or_fail (argint kend 0) (fun n =>
  acquire tickslock;;
  ticks0 ← gets k_ticks;
  sleep_test ticks0 n).

Definition sys_uptime : M kernel Z :=
  acquire tickslock;;
  xticks ← gets k_ticks;
  release tickslock;;
  mret (i32 xticks).

Definition sys_set_sched_priority : M kernel Z := or_fail (argint kend 0) set_sched_priority.
Definition sys_get_sched_priority : M kernel Z := or_fail (argint kend 0) get_sched_priority.
Definition sys_fifo_position : M kernel Z := or_fail (argint kend 0) fifo_position.
Definition sys_ticks_running : M kernel Z :=
  or_fail (argint kend 0) (fun pid => arg0 ← argint kend 0; ticks_running arg0 pid).

(** The table of src/syscall.c. *)
Definition syscall_list : list (M kernel Z) :=
  [ sys_fork; sys_exit; sys_wait; sys_pipe kend; sys_read kend; sys_kill;
    sys_exec kend (exec kend kdata); sys_fstat kend; sys_chdir kend; sys_dup kend;
    sys_getpid; sys_sbrk; sys_sleep; sys_uptime; sys_open kend; sys_write kend;
    sys_mknod kend; sys_unlink kend; sys_link kend; sys_mkdir kend; sys_close kend;
    sys_set_sched_priority; sys_get_sched_priority; sys_fifo_position;
    sys_ticks_running; sys_lseek kend; sys_symlink kend ].

(** Entry 0 is null. *)
Definition syscalls (num : Z) : option (M kernel Z) :=
  if num <=? 0 then None else syscall_list !! Z.to_nat (num - 1).
Definition NELEM_syscalls : Z := 28.

(** ** Traps *)

Context (kbdintr uartintr : M kernel unit) (ide_ok : bool).

(** [myproc()] where the code tests it against null. *)
Definition curproc : M kernel (option nat) :=
  c ← ask; mret (if cur c <? 0 then None else Some (Z.to_nat (cur c))).

Definition exit_if_killed (user : bool) : M kernel unit :=
  p ← curproc;
  match p with
  | None => mret tt
  | Some p => pr ← proc_at p; when (p_killed pr && user) (exit kend)
  end.

Definition trap_syscall (tf : Z) : M kernel unit :=
  p ← myproc;
  pr ← proc_at p;
  when (p_killed pr) (exit kend);;
  upd_proc p (set_p_tf tf);;
  syscall syscalls NELEM_syscalls;;
  pr ← proc_at p;
  when (p_killed pr) (exit kend).

Definition timer_tick (cpuid : Z) : M kernel unit :=
  when (cpuid =? 0)
    (acquire tickslock;;
     t ← gets k_ticks;
     modify (set_k_ticks (u32 (t + 1)));;
     wakeup chan_ticks;;
     release tickslock).

(** [myproc()->killed = 1] *)
Definition kill_self : M kernel unit := p ← myproc; upd_proc p (set_p_killed true).

(** The end of [trap]. *)
Definition trap_tail (user : bool) (trapno : Z) : M kernel unit :=
  exit_if_killed user;;
  p ← curproc;
  match p with
  | None => mret tt
  | Some p => pr ← proc_at p; when (state_is RUNNING pr && (trapno =? T_IRQ0 + IRQ_TIMER)) yield
  end;;
  exit_if_killed user.

(** A field of the frame at [tf]. *)
Definition frame_word (tf off : Z) : M kernel Z := mem_get (fun m => rd32 m (tf + off)).

Definition spurious (cpuid tf cs : Z) : M kernel unit :=
  eip ← frame_word tf TF_eip;
  cprintf (literal "cpu%d: spurious interrupt at %x:%x" ++ [10]) [AInt cpuid; AInt cs; AInt eip].

(** The interrupt cases of the switch, the same in both configurations; [None]
    for the other trap numbers.  ([lapiceoi] writes to the local APIC only.) *)
Definition device_trap (cpuid tf trapno cs : Z) : option (M kernel unit) :=
  if trapno =? T_IRQ0 + IRQ_TIMER then Some (timer_tick cpuid)
  else if trapno =? T_IRQ0 + IRQ_IDE then Some (ideintr ide_ok)
  else if trapno =? T_IRQ0 + IRQ_IDE + 1 then Some (mret tt)
  else if trapno =? T_IRQ0 + IRQ_KBD then Some kbdintr
  else if trapno =? T_IRQ0 + IRQ_COM1 then Some uartintr
  else if (trapno =? T_IRQ0 + 7) || (trapno =? T_IRQ0 + IRQ_SPURIOUS) then Some (spurious cpuid tf cs)
  else None.

(** [case default] *)
Definition default_trap (cpuid tf trapno cs cr2 : Z) : M kernel unit :=
  p ← curproc;
  eip ← frame_word tf TF_eip;
  if bool_decide (p = None) || (Z.land cs 3 =? 0) then
    cprintf (literal "unexpected trap %d from cpu %d eip %x (cr2=0x%x)" ++ [10]) [AInt trapno; AInt cpuid; AInt eip; AInt cr2];;
    panic "trap"
  else
    p ← myproc;
    pr ← proc_at p;
    err ← frame_word tf TF_err;
    cprintf (literal "pid %d %s: trap %d err %d on cpu %d eip 0x%x addr 0x%x--kill proc" ++ [10])
      [AInt (p_pid pr); AStr (Some (cprefix 16 (p_name pr))); AInt trapno; AInt err; AInt cpuid; AInt eip; AInt cr2];;
    kill_self.

Definition from_user (cs : Z) : bool := Z.land cs 3 =? DPL_USER.

(** [case T_PGFLT]: [lazy_fault] and [locality_fault] with their messages. *)
Definition page_fault_LAZY (cr2 : Z) : M kernel bool :=
  mem ← zoom L_mem kalloc;
  if mem =? 0 then mret false
  else
    mem_modify (fun m => memset m mem 0 PGSIZE);;
    let va := PGROUNDDOWN cr2 in
    p ← myproc;
    pr ← proc_at p;
    cprintf (literal "From Lazy Allocation : %s --- page fault occurred at 0x%x-page " ++ [10]) [AStr (Some (cprefix 16 (p_name pr))); AInt va];;
    r ← zoom L_mem (mappages (p_pgdir pr) va PGSIZE (V2P mem) (Z.lor PTE_W PTE_U));
    if r <? 0 then zoom L_mem (kfree kend mem);; mret false
    else mret true.

Fixpoint page_loop_LOCALITY (n : nat) (start i : Z) : M kernel bool :=
  match n with
  | O => mret true
  | S n' =>
    mem ← zoom L_mem kalloc;
    if mem =? 0 then mret false
    else
      mem_modify (fun m => memset m mem 0 PGSIZE);;
      let va := u32 (start + i * PGSIZE) in
      p ← myproc;
      pr ← proc_at p;
      r ← zoom L_mem (mappages (p_pgdir pr) va PGSIZE (V2P mem) (Z.lor PTE_W PTE_U));
      if r <? 0 then zoom L_mem (kfree kend mem);; mret false
      else
        cprintf (literal "Allocated page %d at virtual address: 0x%x" ++ [10]) [AInt (i + 1); AInt va];;
        page_loop_LOCALITY n' start (i + 1)
  end.

Definition page_fault_LOCALITY (cr2 : Z) : M kernel bool :=
  p ← myproc;
  pr ← proc_at p;
  cprintf (literal "From Localilty Allocation : %s --- page fault occurred at  0x%x - page address" ++ [10]) [AStr (Some (cprefix 16 (p_name pr))); AInt cr2];;
  page_loop_LOCALITY 3 (PGROUNDDOWN cr2) 0.

Definition trap_LAZY (cpuid tf trapno cs cr2 : Z) : M kernel unit :=
  if trapno =? T_SYSCALL then trap_syscall tf
  else
    match device_trap cpuid tf trapno cs with
    | Some h => h;; trap_tail (from_user cs) trapno
    | None =>
      if trapno =? T_PGFLT then
        ok ← page_fault_LAZY cr2;
        if (ok : bool) then mret tt
        else kill_self;; trap_tail (from_user cs) trapno
      else default_trap cpuid tf trapno cs cr2;; kill_self;; trap_tail (from_user cs) trapno
    end.

(** The code after the switch is inside it here: the interrupt cases, which end
    with [break], skip it, so that the clock does not make a process yield. *)
Definition trap_LOCALITY (cpuid tf trapno cs cr2 : Z) : M kernel unit :=
  if trapno =? T_SYSCALL then trap_syscall tf
  else
    match device_trap cpuid tf trapno cs with
    | Some h => h
    | None =>
      if trapno =? T_PGFLT then
        ok ← page_fault_LOCALITY cr2;
        if (ok : bool) then mret tt
        else kill_self;; trap_tail (from_user cs) trapno
      else default_trap cpuid tf trapno cs cr2;; kill_self;; trap_tail (from_user cs) trapno
    end.
End sysproc.
