(* ===== verification/Segments.v ===== *)
(** * Descriptor tables: how the processor enters the kernel

    The segment, gate and task-state descriptors of src/mmu.h, the registers that
    src/x86.h loads with them, and the code that fills them: [seginit] and
    [switchuvm] of src/vm.c, [tvinit] and [idtinit] of src/trap.c.  [deliver] is
    what the processor does with the tables when an interrupt occurs. *)

From S2P Require Import Prelude Layout CString State Proc Trap.

(** ** Descriptors (src/mmu.h) *)

Definition NSEGS : Z := 6.
Definition STA_X : Z := 0x8.
Definition STA_W : Z := 0x2.
Definition STA_R : Z := 0x2.
Definition STS_T32A : Z := 0x9.
Definition STS_IG32 : Z := 0xE.
Definition STS_TG32 : Z := 0xF.

(** A value stored into a bit-field of [n] bits. *)
Definition bits (n v : Z) : Z := v mod 2 ^ n.

Record segdesc := Segdesc {
  lim_15_0 : Z; base_15_0 : Z; base_23_16 : Z; seg_type : Z; seg_s : Z; seg_dpl : Z; seg_p : Z;
  lim_19_16 : Z; avl : Z; seg_rsv1 : Z; db : Z; seg_g : Z; base_31_24 : Z;
}.

Definition SEG (type base lim dpl : Z) : segdesc :=
  Segdesc (bits 16 (Z.land (Z.shiftr lim 12) 0xffff)) (bits 16 (Z.land (u32 base) 0xffff))
    (bits 8 (Z.land (Z.shiftr (u32 base) 16) 0xff)) (bits 4 type) 1 (bits 2 dpl) 1
    (bits 4 (Z.shiftr (u32 lim) 28)) 0 0 1 1 (bits 8 (Z.shiftr (u32 base) 24)).
Definition SEG16 (type base lim dpl : Z) : segdesc :=
  Segdesc (bits 16 (Z.land lim 0xffff)) (bits 16 (Z.land (u32 base) 0xffff))
    (bits 8 (Z.land (Z.shiftr (u32 base) 16) 0xff)) (bits 4 type) 1 (bits 2 dpl) 1
    (bits 4 (Z.shiftr (u32 lim) 16)) 0 0 1 0 (bits 8 (Z.shiftr (u32 base) 24)).
Definition set_s (v : Z) (d : segdesc) : segdesc :=
  Segdesc (lim_15_0 d) (base_15_0 d) (base_23_16 d) (seg_type d) (bits 1 v) (seg_dpl d) (seg_p d) (lim_19_16 d) (avl d) (seg_rsv1 d) (db d) (seg_g d) (base_31_24 d).
Definition set_type (v : Z) (d : segdesc) : segdesc :=
  Segdesc (lim_15_0 d) (base_15_0 d) (base_23_16 d) (bits 4 v) (seg_s d) (seg_dpl d) (seg_p d) (lim_19_16 d) (avl d) (seg_rsv1 d) (db d) (seg_g d) (base_31_24 d).
(** A descriptor of zeros. *)
Definition nullseg : segdesc := Segdesc 0 0 0 0 0 0 0 0 0 0 0 0 0.

Record gatedesc := Gatedesc {
  off_15_0 : Z; gate_cs : Z; gate_args : Z; gate_rsv1 : Z; gate_type : Z; gate_s : Z; gate_dpl : Z; gate_p : Z; off_31_16 : Z;
}.
Definition SETGATE (istrap : bool) (sel off d : Z) : gatedesc :=
  Gatedesc (bits 16 (Z.land (u32 off) 0xffff)) (bits 16 sel) 0 0 (bits 4 (if istrap then STS_TG32 else STS_IG32)) 0 (bits 2 d) 1 (bits 16 (Z.shiftr (u32 off) 16)).
Definition nullgate : gatedesc := Gatedesc 0 0 0 0 0 0 0 0 0.

(** The fields of the task state that the kernel sets, and its size. *)
Record taskstate := Taskstate { ts_esp0 : Z; ts_ss0 : Z; ts_iomb : Z }.
Definition TS_SIZE : Z := 104.

(** ** One processor (src/proc.h): its tables, and the registers loaded from
    them; [None] until they are loaded. *)

Record percpu := Percpu {
  c_apicid : Z; c_ts : taskstate; c_gdt : list segdesc; c_started : Z;
  c_gdtr : option (Z * Z); c_idtr : option (Z * Z); c_tr : option Z; c_cr3 : option Z;
}.
Definition set_c_gdt (f : list segdesc -> list segdesc) (c : percpu) : percpu := Percpu (c_apicid c) (c_ts c) (f (c_gdt c)) (c_started c) (c_gdtr c) (c_idtr c) (c_tr c) (c_cr3 c).
Definition set_c_ts (f : taskstate -> taskstate) (c : percpu) : percpu := Percpu (c_apicid c) (f (c_ts c)) (c_gdt c) (c_started c) (c_gdtr c) (c_idtr c) (c_tr c) (c_cr3 c).
Definition set_c_started (v : Z) (c : percpu) : percpu := Percpu (c_apicid c) (c_ts c) (c_gdt c) v (c_gdtr c) (c_idtr c) (c_tr c) (c_cr3 c).

(** The registers (src/x86.h): [lgdt] and [lidt] pass the size and the address
    in three half-words. *)
Definition pd (p size : Z) : list Z := [u16 (size - 1); u16 (u32 p); u16 (Z.shiftr (u32 p) 16)].
(** The base and the limit the processor reads there. *)
Definition table_reg (l : list Z) : option (Z * Z) :=
  match l with [lim; lo; hi] => Some (lo + 2 ^ 16 * hi, lim) | _ => None end.
Definition lgdt (p size : Z) (c : percpu) : percpu := Percpu (c_apicid c) (c_ts c) (c_gdt c) (c_started c) (table_reg (pd p size)) (c_idtr c) (c_tr c) (c_cr3 c).
Definition lidt (p size : Z) (c : percpu) : percpu := Percpu (c_apicid c) (c_ts c) (c_gdt c) (c_started c) (c_gdtr c) (table_reg (pd p size)) (c_tr c) (c_cr3 c).
(** [ltr] takes a descriptor of an available task state and marks it busy (bit 1
    of its type); [None] is a protection fault. *)
Definition ltr (sel : Z) (c : percpu) : option percpu :=
  d ← c_gdt c !! Z.to_nat (u16 sel / 8);
  if (seg_s d =? 0) && (seg_type d =? STS_T32A) && (seg_p d =? 1) then
    Some (Percpu (c_apicid c) (c_ts c) (<[Z.to_nat (u16 sel / 8) := set_type (Z.lor (seg_type d) 2) d]> (c_gdt c)) (c_started c) (c_gdtr c) (c_idtr c) (Some (u16 sel)) (c_cr3 c))
  else None.
Definition lcr3 (val : Z) (c : percpu) : percpu := Percpu (c_apicid c) (c_ts c) (c_gdt c) (c_started c) (c_gdtr c) (c_idtr c) (c_tr c) (Some val).

(** ** Filling the tables *)

(** [gdt] is the address of the processor's table; a descriptor has 8 bytes. *)
Definition seginit (gdt : Z) (c : percpu) : percpu :=
  let c := set_c_gdt (<[Z.to_nat SEG_KCODE := SEG (Z.lor STA_X STA_R) 0 0xffffffff 0]>) c in
  let c := set_c_gdt (<[Z.to_nat SEG_KDATA := SEG STA_W 0 0xffffffff 0]>) c in
  let c := set_c_gdt (<[Z.to_nat SEG_UCODE := SEG (Z.lor STA_X STA_R) 0 0xffffffff DPL_USER]>) c in
  let c := set_c_gdt (<[Z.to_nat SEG_UDATA := SEG STA_W 0 0xffffffff DPL_USER]>) c in
  lgdt gdt (8 * NSEGS) c.

Definition switchkvm (kpgdir : Z) (c : percpu) : percpu := lcr3 (V2P kpgdir) c.

(** [ts] is the address of the processor's task state.  [pushcli] and [popcli]
    around the assignments are those of [Spinlock.Cli]. *)
Definition switchuvm (ts : Z) (p : option proc) (c : percpu) : string + percpu :=
  match p with
  | None => inl "switchuvm: no process"%string
  | Some p =>
    if p_kstack p =? 0 then inl "switchuvm: no kstack"%string
    else if p_pgdir p =? 0 then inl "switchuvm: no pgdir"%string
    else
      let c := set_c_gdt (<[Z.to_nat SEG_TSS := SEG16 STS_T32A ts (TS_SIZE - 1) 0]>) c in
      let c := set_c_gdt (alter (set_s 0) (Z.to_nat SEG_TSS)) c in
      let c := set_c_ts (fun t => Taskstate (ts_esp0 t) (u16 (Z.shiftl SEG_KDATA 3)) (ts_iomb t)) c in
      let c := set_c_ts (fun t => Taskstate (u32 (p_kstack p + KSTACKSIZE)) (ts_ss0 t) (ts_iomb t)) c in
      let c := set_c_ts (fun t => Taskstate (ts_esp0 t) (ts_ss0 t) (u16 0xFFFF)) c in
      match ltr (Z.shiftl SEG_TSS 3) c with
      | None => inl "general protection"%string
      | Some c => inr (lcr3 (V2P (p_pgdir p)) c)
      end
  end.

(** [vectors] are the entry points of the trap vectors. *)
Fixpoint tvinit_loop (n : nat) (i : nat) (vectors : Z -> Z) (idt : list gatedesc) : list gatedesc :=
  match n with
  | O => idt
  | S n' => tvinit_loop n' (S i) vectors (<[i := SETGATE false (Z.shiftl SEG_KCODE 3) (vectors (Z.of_nat i)) 0]> idt)
  end.
Definition tvinit (vectors : Z -> Z) (idt : list gatedesc) : list gatedesc :=
  let idt := tvinit_loop 256 0 vectors idt in
  <[Z.to_nat T_SYSCALL := SETGATE true (Z.shiftl SEG_KCODE 3) (vectors T_SYSCALL) DPL_USER]> idt.
(** [idt] is the address of the table. *)
Definition idtinit (idt : Z) (c : percpu) : percpu := lidt idt (8 * 256) c.

(** ** What the tables mean to the processor *)

Definition seg_base (d : segdesc) : Z := base_15_0 d + 2 ^ 16 * base_23_16 d + 2 ^ 24 * base_31_24 d.
Definition seg_limit (d : segdesc) : Z :=
  let l := lim_15_0 d + 2 ^ 16 * lim_19_16 d in if seg_g d =? 1 then l * 4096 + 4095 else l.
Definition gate_off (g : gatedesc) : Z := off_15_0 g + 2 ^ 16 * off_31_16 g.

(** The result of an interrupt: the new code segment, instruction, stack segment,
    stack pointer and interrupt flag. *)
Inductive delivery := Enters (cs eip ss esp : Z) (ifl : bool) | Fault.

Section deliver.
(** The addresses of the tables; [c] is a processor. *)
Context (gdt ts idt_at : Z) (c : percpu) (idt : list gatedesc).

(** The descriptor that a selector chooses. *)
Definition descriptor (sel : Z) : option segdesc :=
  '(base, lim) ← c_gdtr c;
  if (base =? gdt) && (sel / 8 * 8 + 7 <=? lim) then c_gdt c !! Z.to_nat (sel / 8) else None.

(** The task state: the one of the processor, if the register leads there. *)
Definition task : option taskstate :=
  sel ← c_tr c;
  d ← descriptor sel;
  if (seg_s d =? 0) && (seg_type d =? Z.lor STS_T32A 2) && (seg_p d =? 1) && (seg_base d =? ts) && (TS_SIZE - 1 <=? seg_limit d) then Some (c_ts c) else None.

(** Interrupt [n] while user code runs, by an [int] instruction if [soft]. *)
Definition deliver (ifl soft : bool) (n : Z) : delivery :=
  let cpl := DPL_USER in
  match
    '(base, lim) ← c_idtr c;
    if negb ((base =? idt_at) && (8 * n + 7 <=? lim)) then None else
    g ← idt !! Z.to_nat n;
    if negb ((gate_s g =? 0) && ((gate_type g =? STS_IG32) || (gate_type g =? STS_TG32)) && (gate_p g =? 1)) then None else
    if soft && (gate_dpl g <? cpl) then None else
    d ← descriptor (gate_cs g);
    if negb ((seg_s d =? 1) && Z.testbit (seg_type d) 3 && (seg_p d =? 1) && (seg_dpl d <? cpl)) then None else
    t ← task;
    Some (Enters (gate_cs g / 4 * 4 + seg_dpl d) (seg_base d + gate_off g) (ts_ss0 t) (ts_esp0 t) (ifl && (gate_type g =? STS_TG32)))
  with
  | Some r => r
  | None => Fault
  end.

(** Whether an instruction may access an I/O port: the privilege level of the
    flags allows it, or the bit map of the task state, which begins at [ts_iomb],
    is there and may. *)
Definition io_possible (cpl iopl port : Z) : bool :=
  (cpl <=? iopl) ||
  match task, (sel ← c_tr c; descriptor sel) with
  | Some t, Some d => ts_iomb t + port / 8 + 1 <=? seg_limit d
  | _, _ => false
  end.
End deliver.

(** ** The descriptors say what they should *)

Lemma land_mask x n : 0 <= n -> Z.land x (2 ^ n - 1) = x mod 2 ^ n.
Proof. intros Hn. replace (2 ^ n - 1) with (Z.ones n) by (rewrite Z.ones_equiv; lia). by rewrite Z.land_ones. Qed.

Lemma bits_small n v : 0 <= v < 2 ^ n -> bits n v = v.
Proof. intros. unfold bits. by apply Z.mod_small. Qed.

(** The two halves and the four bytes of a word. *)
Lemma word_halves x : uint_ok x -> bits 16 (Z.land (u32 x) 0xffff) + 2 ^ 16 * bits 16 (Z.shiftr (u32 x) 16) = x.
Proof.
  intros Hx. rewrite u32_id by done. change 0xffff with (2 ^ 16 - 1). rewrite land_mask, Z.shiftr_div_pow2 by lia. unfold bits. word.
Qed.

Lemma word_bytes x : uint_ok x ->
  bits 16 (Z.land (u32 x) 0xffff) + 2 ^ 16 * bits 8 (Z.land (Z.shiftr (u32 x) 16) 0xff) + 2 ^ 24 * bits 8 (Z.shiftr (u32 x) 24) = x.
Proof.
  intros Hx. rewrite u32_id by done. change 0xffff with (2 ^ 16 - 1). change 0xff with (2 ^ 8 - 1). rewrite !land_mask, !Z.shiftr_div_pow2 by lia. unfold bits.
  change (2 ^ 24) with 16777216. word.
Qed.

Lemma SEG_base type base lim dpl : uint_ok base -> seg_base (SEG type base lim dpl) = base.
Proof. apply word_bytes. Qed.

Lemma SEG16_base type base lim dpl : uint_ok base -> seg_base (SEG16 type base lim dpl) = base.
Proof. apply word_bytes. Qed.

(** A normal segment reaches to the end of the page of its limit. *)
Lemma SEG_limit type base lim dpl : uint_ok lim -> seg_limit (SEG type base lim dpl) = lim / 4096 * 4096 + 4095.
Proof.
  intros Hl. unfold seg_limit. cbn [SEG lim_15_0 lim_19_16 seg_g]. rewrite u32_id by done. change 0xffff with (2 ^ 16 - 1). rewrite land_mask, !Z.shiftr_div_pow2 by lia.
  unfold bits. change (2 ^ 12) with 4096. change (2 ^ 28) with 268435456. change (2 ^ 4) with 16. cbn [Z.eqb Pos.eqb]. f_equal. f_equal. word.
Qed.

Lemma gate_off_SETGATE istrap sel off d : uint_ok off -> gate_off (SETGATE istrap sel off d) = off.
Proof. apply word_halves. Qed.

Lemma table_reg_pd p size : uint_ok p -> 0 < size <= 2 ^ 16 -> table_reg (pd p size) = Some (p, size - 1).
Proof.
  intros Hp Hs. cbn [table_reg pd]. rewrite u32_id by done. rewrite Z.shiftr_div_pow2 by lia. f_equal. f_equal; word.
Qed.

Lemma tvinit_loop_lookup vectors k n : forall i idt, (i + n <= length idt)%nat ->
  tvinit_loop n i vectors idt !! k = if decide (i <= k < i + n)%nat then Some (SETGATE false (Z.shiftl SEG_KCODE 3) (vectors (Z.of_nat k)) 0) else idt !! k.
Proof.
  induction n as [|n IH]; intros i idt Hl; cbn [tvinit_loop]; [by rewrite decide_False by lia|]. rewrite IH by (rewrite length_insert; lia).
  destruct (decide (S i <= k < S i + n)%nat); [by rewrite decide_True by lia|]. destruct (decide (k = i)) as [->|Hne].
  - rewrite decide_True by lia. by rewrite list_lookup_insert_eq by lia.
  - rewrite decide_False by lia. by rewrite list_lookup_insert_ne.
Qed.

Lemma tvinit_lookup vectors idt n : length idt = 256%nat -> 0 <= n < 256 ->
  tvinit vectors idt !! Z.to_nat n = Some (if n =? T_SYSCALL then SETGATE true (Z.shiftl SEG_KCODE 3) (vectors n) DPL_USER else SETGATE false (Z.shiftl SEG_KCODE 3) (vectors n) 0).
Proof.
  intros Hl Hn. unfold tvinit. assert (Hlen : length (tvinit_loop 256 0 vectors idt) = 256%nat).
  { assert (E : forall n i l, length (tvinit_loop n i vectors l) = length l) by (induction n0 as [|k IH]; intros i l; cbn [tvinit_loop]; [done|]; by rewrite IH, length_insert). by rewrite E. }
  destruct (Z.eqb_spec n T_SYSCALL) as [->|Hne].
  - rewrite list_lookup_insert_eq by (rewrite Hlen; vm_compute; lia). done.
  - rewrite list_lookup_insert_ne by (unfold T_SYSCALL in *; lia). rewrite tvinit_loop_lookup by lia. rewrite decide_True by lia. by rewrite Z2Nat.id by lia.
Qed.

(** ** Entering the kernel *)

(** The tables of a processor that is set up. *)
Record cpu_ready (gdt idt_at : Z) (c : percpu) : Prop := CpuReady {
  cr_len : length (c_gdt c) = Z.to_nat NSEGS;
  cr_kcode : c_gdt c !! Z.to_nat SEG_KCODE = Some (SEG (Z.lor STA_X STA_R) 0 0xffffffff 0);
  cr_kdata : c_gdt c !! Z.to_nat SEG_KDATA = Some (SEG STA_W 0 0xffffffff 0);
  cr_ucode : c_gdt c !! Z.to_nat SEG_UCODE = Some (SEG (Z.lor STA_X STA_R) 0 0xffffffff DPL_USER);
  cr_udata : c_gdt c !! Z.to_nat SEG_UDATA = Some (SEG STA_W 0 0xffffffff DPL_USER);
  cr_gdtr : c_gdtr c = Some (gdt, 8 * NSEGS - 1);
  cr_idtr : c_idtr c = Some (idt_at, 8 * 256 - 1);
}.

Lemma ready_init gdt idt_at c : uint_ok gdt -> uint_ok idt_at -> length (c_gdt c) = Z.to_nat NSEGS -> cpu_ready gdt idt_at (idtinit idt_at (seginit gdt c)).
Proof.
  intros Hg Hi Hl. destruct c as [id ts l st g i t c3]. cbn [c_gdt] in Hl. change (Z.to_nat NSEGS) with 6%nat in Hl.
  destruct l as [|d0 [|d1 [|d2 [|d3 [|d4 [|d5 [|]]]]]]]; try discriminate Hl.
  split; try reflexivity; unfold idtinit, seginit, lidt, lgdt; cbn [c_gdtr c_idtr]; by apply table_reg_pd.
Qed.

(** The processor after [switchuvm]. *)
Lemma switchuvm_run gdt idt_at ts p c : cpu_ready gdt idt_at c -> uint_ok ts -> p_kstack p <> 0 -> p_pgdir p <> 0 -> exists c',
  switchuvm ts (Some p) c = inr c' /\ cpu_ready gdt idt_at c' /\ c_cr3 c' = Some (V2P (p_pgdir p)) /\ c_tr c' = Some (Z.shiftl SEG_TSS 3) /\
  c_ts c' = Taskstate (u32 (p_kstack p + KSTACKSIZE)) (Z.shiftl SEG_KDATA 3) 0xFFFF /\ c_apicid c' = c_apicid c /\ c_started c' = c_started c /\
  c_gdt c' !! Z.to_nat SEG_TSS = Some (set_type (Z.lor STS_T32A 2) (set_s 0 (SEG16 STS_T32A ts (TS_SIZE - 1) 0))).
Proof.
  intros [R1 R2 R3 R4 R5 R6 R7] Ht Hk Hp. destruct c as [id t l st g i tr c3]. cbn [c_gdt c_gdtr c_idtr] in *. change (Z.to_nat NSEGS) with 6%nat in R1.
  destruct l as [|d0 [|d1 [|d2 [|d3 [|d4 [|d5 [|]]]]]]]; try discriminate R1.
  unfold switchuvm. rewrite (proj2 (Z.eqb_neq _ _) Hk), (proj2 (Z.eqb_neq _ _) Hp). eexists. split; [reflexivity|]. split; [by split|]. done.
Qed.

(** The processors that the kernel's code makes: [seginit] and [idtinit] set one
    up, and the scheduler switches it to processes and back. *)
Inductive configured (gdt idt_at ts : Z) : percpu -> Prop :=
| configured_init c : length (c_gdt c) = Z.to_nat NSEGS -> configured gdt idt_at ts (idtinit idt_at (seginit gdt c))
| configured_user p c c' : configured gdt idt_at ts c -> switchuvm ts (Some p) c = inr c' -> configured gdt idt_at ts c'
| configured_kernel kpgdir c : configured gdt idt_at ts c -> configured gdt idt_at ts (switchkvm kpgdir c).

Lemma configured_ready gdt idt_at ts c : uint_ok gdt -> uint_ok idt_at -> uint_ok ts -> configured gdt idt_at ts c -> cpu_ready gdt idt_at c.
Proof.
  intros Hg Hi Ht. induction 1 as [c Hl|p c c' _ IH E|kpgdir c _ [R1 R2 R3 R4 R5 R6 R7]]; [by apply ready_init| |by split].
  destruct (decide (p_kstack p = 0)) as [Hk|Hk]; [unfold switchuvm in E; by rewrite Hk in E|].
  destruct (decide (p_pgdir p = 0)) as [Hp|Hp]; [unfold switchuvm in E; rewrite (proj2 (Z.eqb_neq _ _) Hk), Hp in E; done|].
  destruct (switchuvm_run gdt idt_at ts p c IH Ht Hk Hp) as (c1 & E1 & Hr & _). congruence.
Qed.

(** C16: What happens to user code on an interrupt.  On a processor set up by
    [seginit] and [idtinit], with the table that [tvinit] makes, and after any
    number of switches the last of which is [switchuvm] to a process: every interrupt enters the kernel at its trap
    vector, in the kernel's segments, on the kernel stack of the process, with
    interrupts off except for system calls; an [int] instruction does so for system
    calls only and faults for all other vectors; and I/O ports are out of reach. *)
Theorem user_traps (gdt idt_at ts : Z) (vectors : Z -> Z) (idt : list gatedesc) (p : proc) (c : percpu) :
  uint_ok gdt -> uint_ok idt_at -> uint_ok ts -> configured gdt idt_at ts c -> length idt = 256%nat -> (forall n, uint_ok (vectors n)) -> p_kstack p <> 0 -> p_pgdir p <> 0 ->
  exists c', switchuvm ts (Some p) c = inr c' /\ c_cr3 c' = Some (V2P (p_pgdir p)) /\
    (forall n ifl, 0 <= n < 256 ->
      let enters := Enters (Z.shiftl SEG_KCODE 3) (vectors n) (Z.shiftl SEG_KDATA 3) (u32 (p_kstack p + KSTACKSIZE)) (ifl && (n =? T_SYSCALL)) in
      deliver gdt ts idt_at c' (tvinit vectors idt) ifl false n = enters /\
      deliver gdt ts idt_at c' (tvinit vectors idt) ifl true n = if n =? T_SYSCALL then enters else Fault) /\
    (forall port, 0 <= port -> io_possible gdt ts c' DPL_USER 0 port = false).
Proof.
  intros Hg Hi Ht Hc Hl Hv Hk Hp. pose proof (configured_ready _ _ _ _ Hg Hi Ht Hc) as Hr.
  destruct (switchuvm_run gdt idt_at ts p c Hr Ht Hk Hp) as (c' & E & Hr' & E3 & Etr & Ets & _ & _ & Etss). exists c'.
  split; [done|]. split; [done|]. destruct Hr' as [R1 R2 R3 R4 R5 R6 R7].
  set (d := set_type _ (set_s 0 (SEG16 STS_T32A ts (TS_SIZE - 1) 0))) in Etss.
  assert (Hdesc : descriptor gdt c' (Z.shiftl SEG_TSS 3) = Some d) by (unfold descriptor; rewrite R6; cbn [mbind option_bind]; by rewrite Z.eqb_refl).
  assert (Hlim : seg_limit d = TS_SIZE - 1) by reflexivity.
  assert (Htask : task gdt ts c' = Some (c_ts c')).
  { unfold task. rewrite Etr. cbn [mbind option_bind]. rewrite Hdesc. cbn [mbind option_bind]. change (seg_base d) with (seg_base (SEG16 STS_T32A ts (TS_SIZE - 1) 0)).
    rewrite SEG16_base, (Z.eqb_refl ts), Hlim by done. reflexivity. }
  split.
  - intros n ifl Hn. cbv zeta. unfold deliver. rewrite R7. cbn [mbind option_bind]. rewrite Z.eqb_refl, (proj2 (Z.leb_le _ _)) by lia. cbn [negb andb].
    rewrite tvinit_lookup by done. cbn [mbind option_bind]. assert (Hkc : descriptor gdt c' 8 = Some (SEG (Z.lor STA_X STA_R) 0 0xffffffff 0)) by (unfold descriptor; rewrite R6; cbn [mbind option_bind]; by rewrite Z.eqb_refl).
    pose proof (gate_off_SETGATE true (Z.shiftl SEG_KCODE 3) (vectors n) DPL_USER (Hv n)) as G1. pose proof (gate_off_SETGATE false (Z.shiftl SEG_KCODE 3) (vectors n) 0 (Hv n)) as G2.
    destruct (n =? T_SYSCALL).
    + change (gate_cs (SETGATE true (Z.shiftl SEG_KCODE 3) (vectors n) DPL_USER)) with 8. rewrite Hkc, Htask, G1, Ets. split; reflexivity.
    + change (gate_cs (SETGATE false (Z.shiftl SEG_KCODE 3) (vectors n) 0)) with 8. rewrite Hkc, Htask, G2, Ets. split; reflexivity.
  - intros port Hport. unfold io_possible. rewrite Htask, Etr. cbn [mbind option_bind]. rewrite Hdesc, Hlim, Ets. change (DPL_USER <=? 0) with false. cbn [orb ts_iomb].
    apply Z.leb_gt. unfold TS_SIZE. Z.to_euclidean_division_equations; lia.
Qed.

(** The interrupts of the first process on the boot processor. *)
Definition ex_cpu : percpu := Percpu 0 (Taskstate 0 0 0) (replicate 6 nullseg) 0 None None None None.
Definition ex_kproc : proc := Proc 4096 0x80200000 0x80300000 RUNNING 1 None None 0 0 0 0 false [] None [] 0 0 0 0 0 0 0.

Lemma user_traps_witness : exists c', switchuvm 0x80110000 (Some ex_kproc) (idtinit 0x80114000 (seginit 0x80112000 ex_cpu)) = inr c' /\
  deliver 0x80112000 0x80110000 0x80114000 c' (tvinit (fun n => 0x80105000 + n mod 256) (replicate 256 nullgate)) true true 64 = Enters 8 0x80105040 16 0x80301000 true /\
  deliver 0x80112000 0x80110000 0x80114000 c' (tvinit (fun n => 0x80105000 + n mod 256) (replicate 256 nullgate)) true true 14 = Fault.
Proof.
  destruct (user_traps 0x80112000 0x80114000 0x80110000 (fun n => 0x80105000 + n mod 256) (replicate 256 nullgate) ex_kproc (idtinit 0x80114000 (seginit 0x80112000 ex_cpu))) as (c' & E & _ & Hd & _).
  - done.
  - done.
  - done.
  - by apply configured_init.
  - done.
  - intros n. pose proof (Z.mod_pos_bound n 256 ltac:(lia)). word_unfold. lia.
  - done.
  - done.
  - exists c'. split; [exact E|]. destruct (Hd 64 true ltac:(lia)) as [_ H1]. destruct (Hd 14 true ltac:(lia)) as [_ H2]. split; [exact H1|exact H2].
Defined.
