(* ===== verification/Scheduler.v ===== *)
(** * The scheduler loops (src/proc.c)

    [scheduler] in its three builds: DEFAULT, FIFO and PRIORITY.  The state is
    that of the kernel and the processor the loop runs on, whose registers
    [switchuvm] and [switchkvm] load.  [swtch] to a process is a parameter: all
    that happens until control comes back, with the lock of the process table
    held again. *)

From S2P Require Import Prelude Layout CString Spinlock Kalloc State Sched Proc Trap Segments.

Record cpustate := Cpustate { cs_kernel : kernel; cs_cpu : percpu }.
Definition L_kernel : lens cpustate kernel.
Proof. by refine (Lens cs_kernel (fun k s => Cpustate k (cs_cpu s)) _ _ _); intros; destruct s. Defined.
Definition set_cpu (p : percpu) (s : cpustate) : cpustate := Cpustate (cs_kernel s) p.

(** [c->proc = p], of which [myproc()] is a copy; [-1] is the null pointer. *)
Definition set_proc (p : Z) : M cpustate unit := fun c s => Done tt (Ctx (held c) p) s.

Section scheduler.
(** The address of the task state of the processor, and [kpgdir]. *)
Context (ts kpgdir : Z) (swtch : nat -> M cpustate unit).

Definition switch_to (i : nat) : M cpustate unit :=
  pr ← zoom L_kernel (proc_at i);
  cpu ← gets cs_cpu;
  match switchuvm ts (Some pr) cpu with
  | inl msg => panic msg
  | inr cpu => modify (set_cpu cpu)
  end.

(** [p->ticks_runs++] *)
Definition count_run (i : nat) : M kernel unit :=
  pr ← proc_at i;
  n ← incr_int (p_ticks_runs pr);
  upd_proc i (set_p_ticks_runs n).

(** From [c->proc = p] to [c->proc = 0]; [before] is what PRIORITY does in
    between. *)
Definition dispatch (before : nat -> M kernel unit) (i : nat) : M cpustate unit :=
  set_proc (Z.of_nat i);;
  switch_to i;;
  zoom L_kernel (before i);;
  zoom L_kernel (upd_proc i (set_p_state RUNNING));;
  swtch i;;
  zoom L_kernel (count_run i);;
  modify (fun s => set_cpu (switchkvm kpgdir (cs_cpu s)) s);;
  set_proc (-1).

(** DEFAULT: [for(p = ptable.proc; p < &ptable.proc[NPROC]; p++)], from entry [i]
    on. *)
Fixpoint default_loop (n i : nat) : M cpustate unit :=
  match n with
  | O => mret tt
  | S n' =>
    pr ← zoom L_kernel (proc_at i);
    (if negb (state_is RUNNABLE pr) then mret tt else dispatch (fun _ => mret tt) i);;
    default_loop n' (S i)
  end.
Definition default_body : M cpustate unit := default_loop (Z.to_nat NPROC) 0.

Definition set_start (i : nat) : M kernel unit :=
  pr ← proc_at i;
  when (p_start_time pr =? 0)
    (acquire tickslock;; t ← gets k_ticks; upd_proc i (set_p_start_time t);; release tickslock).

(** FIFO and PRIORITY run the process they selected. *)
Definition selected_body (select : list proc -> option nat) (before : nat -> M kernel unit) : M cpustate unit :=
  ps ← zoom L_kernel (gets k_procs);
  match select ps with Some i => dispatch before i | None => mret tt end.
Definition fifo_body : M cpustate unit := selected_body fifo_select (fun _ => mret tt).
Definition priority_body : M cpustate unit := selected_body priority_select set_start.

(** [n] rounds of [for(;;)].  ([sti] lets interrupts in before the lock is
    taken.) *)
Fixpoint rounds (body : M cpustate unit) (n : nat) : M cpustate unit :=
  match n with
  | O => mret tt
  | S n' => acquire ptable_lock;; body;; release ptable_lock;; rounds body n'
  end.
Definition scheduler (body : M cpustate unit) (n : nat) : M cpustate unit := set_proc (-1);; rounds body n.
End scheduler.

(** ** Running the loops *)

Lemma bind_set_proc {B} p (k : unit -> M cpustate B) c s : (set_proc p ≫= k) c s = k tt (Ctx (held c) p) s.
Proof. done. Qed.

Lemma bind_kernel {A B} (m : M kernel A) (k : A -> M cpustate B) c s a c' t : m c (cs_kernel s) = Done a c' t ->
  (zoom L_kernel m ≫= k) c s = k a c' (Cpustate t (cs_cpu s)).
Proof. intros E. apply bind_Done. unfold zoom. cbn. by rewrite E. Qed.

Section fairness.
Context (gdt idt_at ts kpgdir : Z) (Hts : uint_ok ts) (swtch : nat -> M cpustate unit) (j : nat).

Definition procs (s : cpustate) : list proc := k_procs (cs_kernel s).
Definition run_counts (s : cpustate) : list Z := p_ticks_runs <$> procs s.

(** What [switchuvm] needs of the processor and of the processes. *)
Record sched_ok (s : cpustate) : Prop := SchedOk {
  so_cpu : cpu_ready gdt idt_at (cs_cpu s);
  so_size : length (procs s) = Z.to_nat NPROC;
  so_loaded : forall i p, procs s !! i = Some p -> active p = true -> p_kstack p <> 0 /\ p_pgdir p <> 0;
}.

(** A process that has been switched to comes back, with the lock held.  In the
    meantime nobody counts runs, and no process stops being runnable, for only
    the scheduler makes one run; and [j], after its turn, is runnable again. *)
Definition turns_end : Prop := forall i p c s,
  held c = {[ptable_lock]} -> cur c = Z.of_nat i -> sched_ok s -> procs s !! i = Some p -> p_state p = RUNNING ->
  exists s', swtch i c s = Done tt c s' /\ sched_ok s' /\ run_counts s' = run_counts s /\
    forall k q, procs s !! k = Some q -> p_state q = RUNNABLE \/ (k = i /\ k = j) -> exists q', procs s' !! k = Some q' /\ p_state q' = RUNNABLE.

Context (Hturn : turns_end).

(** The scheduler's context inside the loop. *)
Definition looping : ctx := Ctx {[ptable_lock]} (-1).

(** The state when the process gets the processor, and when the scheduler has it
    again. *)
Definition switched (i : nat) (p : proc) (cpu : percpu) (s : cpustate) : cpustate :=
  Cpustate (set_k_procs (<[i := set_p_state RUNNING p]> (procs s)) (cs_kernel s)) cpu.
Definition counted (i : nat) (p : proc) (s : cpustate) : cpustate :=
  Cpustate (set_k_procs (<[i := set_p_ticks_runs (p_ticks_runs p + 1) p]> (procs s)) (cs_kernel s)) (switchkvm kpgdir (cs_cpu s)).

Lemma dispatch_eq i p cpu s s2 p2 (c1 := Ctx {[ptable_lock]} (Z.of_nat i)) : procs s !! i = Some p -> switchuvm ts (Some p) (cs_cpu s) = inr cpu ->
  swtch i c1 (switched i p cpu s) = Done tt c1 s2 -> procs s2 !! i = Some p2 -> p_ticks_runs p2 < 2 ^ 31 - 1 ->
  dispatch ts kpgdir swtch (fun _ => mret tt) i looping s = Done tt looping (counted i p2 s2).
Proof using Type.
  intros Hp Esw E2 Hp2 Ht. unfold dispatch. rewrite bind_set_proc. fold c1. unfold switch_to. rewrite bind_assoc.
  erewrite bind_kernel by (unfold proc_at, elem_at; unfold procs in Hp; rewrite Hp; reflexivity). rewrite bind_assoc, bind_gets. cbn [cs_cpu].
  rewrite Esw, bind_modify. rewrite (bind_kernel _ _ _ _ tt c1 (cs_kernel s)) by done.
  erewrite bind_kernel by (apply elem_upd_run; exact Hp). erewrite bind_Done by exact E2.
  assert (Ecount : count_run i c1 (cs_kernel s2) = Done tt c1 (cs_kernel (counted i p2 s2))).
  { unfold count_run, proc_at. erewrite bind_elem_at by exact Hp2. rewrite bind_incr_int by done. unfold upd_proc. by erewrite elem_upd_run by exact Hp2. }
  erewrite bind_kernel by exact Ecount. by rewrite bind_modify.
Qed.

Lemma switched_ok i p cpu s : sched_ok s -> procs s !! i = Some p -> active p = true -> cpu_ready gdt idt_at cpu -> sched_ok (switched i p cpu s).
Proof using Type.
  intros [S1 S2 S3] Hp Ha Hcpu. split; [done|by unfold procs, switched; cbn; rewrite length_insert|]. intros k q Hq Hr. unfold procs, switched in Hq. cbn in Hq.
  apply list_lookup_insert_Some in Hq as [(-> & <- & _)|[_ Hq]]; [by apply (S3 k p)|by apply (S3 k)].
Qed.

Lemma counted_ok i p s : sched_ok s -> procs s !! i = Some p -> sched_ok (counted i p s).
Proof using Type.
  intros [[R1 R2 R3 R4 R5 R6 R7] S2 S3] Hp. split; [done|by unfold procs, counted; cbn; rewrite length_insert|]. intros k q Hq Hr. unfold procs, counted in Hq. cbn in Hq.
  apply list_lookup_insert_Some in Hq as [(<- & <- & _)|[_ Hq]]; [by apply (S3 i p)|by apply (S3 k)].
Qed.

Lemma dispatch_run i p s : sched_ok s -> procs s !! i = Some p -> p_state p = RUNNABLE -> p_ticks_runs p < 2 ^ 31 - 1 ->
  exists s', dispatch ts kpgdir swtch (fun _ => mret tt) i looping s = Done tt looping s' /\ sched_ok s' /\
    run_counts s' = <[i := p_ticks_runs p + 1]> (run_counts s) /\
    forall k q, procs s !! k = Some q -> p_state q = RUNNABLE -> k <> i \/ k = j -> exists q', procs s' !! k = Some q' /\ p_state q' = RUNNABLE.
Proof using Hts Hturn.
  intros Hs Hp Hr Ht. assert (Ha : active p = true) by (unfold active, state_is; by rewrite bool_decide_eq_true_2).
  destruct (so_loaded _ Hs i p Hp Ha) as [Hk Hd]. pose proof (lookup_lt_Some _ _ _ Hp) as Hlen.
  destruct (switchuvm_run gdt idt_at ts p (cs_cpu s) (so_cpu _ Hs) Hts Hk Hd) as (cpu & Esw & Hcpu & _).
  destruct (Hturn i (set_p_state RUNNING p) (Ctx {[ptable_lock]} (Z.of_nat i)) (switched i p cpu s)) as (s2 & E2 & Hs2 & Hc & Hrun);
    [done|done|by apply switched_ok|by apply list_lookup_insert_eq|done|].
  assert (Hc2 : run_counts s2 = run_counts s).
  { rewrite Hc. unfold run_counts. change (procs (switched i p cpu s)) with (<[i := set_p_state RUNNING p]> (procs s)).
    rewrite list_fmap_insert. apply list_insert_id. by rewrite list_lookup_fmap, Hp. }
  assert (Hi2 : run_counts s2 !! i = Some (p_ticks_runs p)) by (rewrite Hc2; unfold run_counts; by rewrite list_lookup_fmap, Hp).
  unfold run_counts in Hi2. rewrite list_lookup_fmap in Hi2. destruct (procs s2 !! i) as [p2|] eqn:Hp2; [|done]. injection Hi2 as Et.
  exists (counted i p2 s2). split; [apply (dispatch_eq i p cpu); by (done || rewrite Et)|]. split; [by apply counted_ok|]. split.
  { unfold run_counts at 1. change (procs (counted i p2 s2)) with (<[i := set_p_ticks_runs (p_ticks_runs p2 + 1) p2]> (procs s2)).
    rewrite list_fmap_insert. cbn [p_ticks_runs set_p_ticks_runs]. by rewrite Et, <- Hc2. }
  intros k q Hq Hrq Hor. unfold procs, counted. cbn. destruct (decide (k = i)) as [->|Hne].
  - destruct Hor as [|Hij]; [done|]. destruct (Hrun i (set_p_state RUNNING p)) as (q' & Hq' & Hr'); [by apply list_lookup_insert_eq|by right|].
    exists (set_p_ticks_runs (p_ticks_runs p2 + 1) p2). rewrite list_lookup_insert_eq by (by eapply lookup_lt_Some). split; [done|].
    rewrite Hp2 in Hq'. by injection Hq' as <-.
  - destruct (Hrun k q) as (q' & Hq' & Hr'); [unfold procs, switched; cbn; by rewrite list_lookup_insert_ne|by left|]. exists q'. by rewrite list_lookup_insert_ne.
Qed.

(** One pass over the table: it returns, no entry is counted more than once, and
    [j] is counted once if the pass has not gone by it. *)
Lemma default_loop_run n : forall i s pj, (i + n = Z.to_nat NPROC)%nat -> sched_ok s -> procs s !! j = Some pj -> p_state pj = RUNNABLE ->
  (forall k t, (i <= k)%nat -> run_counts s !! k = Some t -> t < 2 ^ 31 - 1) ->
  exists s' pj', default_loop ts kpgdir swtch n i looping s = Done tt looping s' /\ sched_ok s' /\
    (forall k t', run_counts s' !! k = Some t' -> exists t, run_counts s !! k = Some t /\ t' <= t + (if decide (i <= k)%nat then 1 else 0)) /\
    procs s' !! j = Some pj' /\ p_state pj' = RUNNABLE /\ p_ticks_runs pj' = p_ticks_runs pj + (if decide (i <= j)%nat then 1 else 0).
Proof using Hts Hturn.
  induction n as [|n IH]; intros i s pj Hn Hs Hj Hr Ht; cbn [default_loop].
  { exists s, pj. split; [done|]. split; [done|]. pose proof (lookup_lt_Some _ _ _ Hj) as Hlt. rewrite (so_size _ Hs) in Hlt. rewrite decide_False by lia.
    split; [|split; [done|split; [done|lia]]]. intros k t' Hk. exists t'. split; [done|]. case_decide; lia. }
  destruct (lookup_lt_is_Some_2 (procs s) i) as [p Hp]; [rewrite (so_size _ Hs); lia|].
  rewrite (bind_kernel _ _ _ _ p looping (cs_kernel s)) by (unfold proc_at, elem_at; unfold procs in Hp; by rewrite Hp).
  replace (Cpustate (cs_kernel s) (cs_cpu s)) with s by (by destruct s).
  unfold state_is. case_bool_decide as Hrun; cbn [negb].
  - assert (Hti : p_ticks_runs p < 2 ^ 31 - 1) by (apply (Ht i); [done|]; unfold run_counts; by rewrite list_lookup_fmap, Hp).
    destruct (dispatch_run i p s Hs Hp Hrun Hti) as (s1 & E1 & Hs1 & Hc1 & Hrun1). erewrite bind_Done by exact E1.
    destruct (Hrun1 j pj Hj Hr) as (pj1 & Hj1 & Hr1); [by right|].
    assert (Hcj : p_ticks_runs pj1 = p_ticks_runs pj + (if decide (i = j) then 1 else 0)).
    { assert (H : run_counts s1 !! j = Some (p_ticks_runs pj1)) by (unfold run_counts; by rewrite list_lookup_fmap, Hj1). rewrite Hc1 in H.
      case_decide as Hij; [subst i; rewrite Hj in Hp; injection Hp as <-; rewrite list_lookup_insert_eq in H by (unfold run_counts; rewrite length_fmap; by eapply lookup_lt_Some); by injection H as <-|].
      rewrite list_lookup_insert_ne in H by done. unfold run_counts in H. rewrite list_lookup_fmap, Hj in H. injection H as <-. lia. }
    destruct (IH (S i) s1 pj1) as (s' & pj' & E' & Hs' & Hc' & Hj' & Hr' & Hcj'); [lia|done|done|done| |].
    { intros k t Hk. rewrite Hc1, list_lookup_insert_ne by lia. apply Ht. lia. }
    exists s', pj'. split; [exact E'|]. split; [done|]. split; [|split; [done|split; [done|]]].
    + intros k t' Hk. destruct (Hc' k t' Hk) as (t1 & Hk1 & Hle). rewrite Hc1 in Hk1. apply list_lookup_insert_Some in Hk1 as [(<- & <- & _)|[Hne Hk1]].
      * exists (p_ticks_runs p). split; [unfold run_counts; by rewrite list_lookup_fmap, Hp|]. rewrite decide_False in Hle by lia. rewrite decide_True by lia. lia.
      * exists t1. split; [done|]. repeat case_decide; lia.
    + rewrite Hcj', Hcj. repeat case_decide; lia.
  - rewrite bind_ret. assert (Hne : i <> j) by (intros ->; rewrite Hj in Hp; by injection Hp as <-).
    destruct (IH (S i) s pj) as (s' & pj' & E' & Hs' & Hc' & Hj' & Hr' & Hcj'); [lia|done|done|done|intros k t Hk; apply Ht; lia|].
    exists s', pj'. split; [exact E'|]. split; [done|]. split; [|split; [done|split; [done|rewrite Hcj'; repeat case_decide; lia]]].
    intros k t' Hk. destruct (Hc' k t' Hk) as (t & Hk1 & Hle). exists t. split; [done|]. repeat case_decide; lia.
Qed.

Lemma rounds_run n : forall s pj, sched_ok s -> procs s !! j = Some pj -> p_state pj = RUNNABLE ->
  (forall k t, run_counts s !! k = Some t -> t + Z.of_nat n < 2 ^ 31) ->
  exists s' pj', rounds (default_body ts kpgdir swtch) n (Ctx ∅ (-1)) s = Done tt (Ctx ∅ (-1)) s' /\ sched_ok s' /\
    procs s' !! j = Some pj' /\ p_state pj' = RUNNABLE /\ p_ticks_runs pj' = p_ticks_runs pj + Z.of_nat n.
Proof using Hts Hturn.
  induction n as [|n IH]; intros s pj Hs Hj Hr Ht; cbn [rounds]; [exists s, pj; do 4 (split; [done|]); lia|].
  rewrite bind_acquire by (apply not_elem_of_empty). cbn [held cur]. rewrite (right_id_L ∅ (∪)).
  destruct (default_loop_run (Z.to_nat NPROC) 0 s pj) as (s1 & pj1 & E1 & Hs1 & Hc1 & Hj1 & Hr1 & Et1); [lia|done..|intros k t _ Hk; apply Ht in Hk; lia|].
  erewrite bind_Done by exact E1. erewrite bind_Done by (apply release_eq; cbn; set_solver). cbn [held cur looping]. replace ({[ptable_lock]} ∖ {[ptable_lock]}) with (∅ : gset lockid) by set_solver.
  destruct (IH s1 pj1 Hs1 Hj1 Hr1) as (s' & pj' & E' & Hs' & Hj' & Hr' & Et').
  { intros k t' Hk. destruct (Hc1 k t' Hk) as (t & Hk' & Hle). apply Ht in Hk'. rewrite decide_True in Hle by lia. lia. }
  exists s', pj'. split; [exact E'|]. do 3 (split; [done|]). rewrite Et', Et1, decide_True by lia. lia.
Qed.
End fairness.


(** Two processes that only yield. *)
Definition ex_yield (i : nat) : M cpustate unit := zoom L_kernel (upd_proc i (set_p_state RUNNABLE)).
Definition ex_runnable : proc := set_p_state RUNNABLE ex_kproc.
Definition ex_sched : cpustate :=
  Cpustate (set_k_procs ([ex_runnable; ex_runnable] ++ replicate 62 (set_p_state UNUSED ex_proc)) ex_kernel) (idtinit 0x80114000 (seginit 0x80112000 ex_cpu)).

Lemma ex_yield_turns gdt idt_at j : turns_end gdt idt_at ex_yield j.
Proof.
  intros i p c s _ _ [S1 S2 S3] Hp Hr. assert (Ha : active p = true) by (unfold active, state_is; rewrite Hr; reflexivity).
  destruct (S3 i p Hp Ha) as [Hk Hd]. pose proof (lookup_lt_Some _ _ _ Hp) as Hlen. unfold ex_yield, zoom. cbn [lget L_kernel].
  unfold upd_proc. erewrite elem_upd_run by exact Hp. eexists. split; [reflexivity|]. cbn [lset L_kernel].
  set (s' := Cpustate _ _). assert (Es : procs s' = <[i := set_p_state RUNNABLE p]> (procs s)) by reflexivity. split; [split|split].
  - exact S1.
  - by rewrite Es, length_insert.
  - intros k q. rewrite Es. intros [(<- & <- & _)|[_ Hq]]%list_lookup_insert_Some Hq'; [done|by apply (S3 k)].
  - unfold run_counts. rewrite Es, list_fmap_insert. apply list_insert_id. by rewrite list_lookup_fmap, Hp.
  - intros k q Hq Hor. rewrite Es. destruct (decide (k = i)) as [->|Hne]; [rewrite list_lookup_insert_eq by done; by eexists|].
    rewrite list_lookup_insert_ne by done. exists q. split; [done|]. by destruct Hor as [|[? _]].
Qed.

