(* ===== verification/Machine.v ===== *)
(** * The machine at start-up

    src/mp.c, which finds the processors in tables that the BIOS left in memory;
    src/ioapic.c, src/picirq.c and src/lapic.c, which program the interrupt
    controllers and read the clock.  A register is an address and its value; a
    sequence of writes to registers is a list, or the registers after them. *)

From S2P Require Import Prelude Layout CString State Trap.

(** ** Processors (src/mp.c) *)

Definition MPPROC : Z := 0x00.
Definition MPBUS : Z := 0x01.
Definition MPIOAPIC : Z := 0x02.
Definition MPIOINTR : Z := 0x03.
Definition MPLINTR : Z := 0x04.

(** [sizeof] of [struct mp], [mpconf], [mpproc] and [mpioapic]. *)
Definition MP_SIZE : Z := 16.
Definition MPCONF_SIZE : Z := 44.
Definition MPPROC_SIZE : Z := 20.
Definition MPIOAPIC_SIZE : Z := 8.

Definition mread (m : mem) (a : Z) (n : nat) : list Z := (fun i => rd m (a + i)) <$> seqZ 0 (Z.of_nat n).
Definition rd16 (m : mem) (a : Z) : Z := rd m a + 2 ^ 8 * rd m (a + 1).

Definition sum (m : mem) (addr len : Z) : Z :=
  u8 (foldl (fun s i => i32 (s + rd m (addr + i))) 0 (seqZ 0 len)).

(** The signatures of the two structures. *)
Definition MP_SIG : list Z := [95; 77; 80; 95].
Definition PCMP_SIG : list Z := [80; 67; 77; 80].

Fixpoint mpsearch1_loop (fuel : nat) (m : mem) (p e : Z) : option Z :=
  match fuel with
  | O => None
  | S fuel' =>
    if p <? e then
      if bool_decide (memcmp (mread m p 4) MP_SIG 4 = Some 0) && (sum m p MP_SIZE =? 0) then Some p
      else mpsearch1_loop fuel' m (u32 (p + MP_SIZE)) e
    else None
  end.
Definition mpsearch1 (m : mem) (a len : Z) : option Z :=
  let addr := P2V a in
  mpsearch1_loop (Z.to_nat (len / MP_SIZE + 1)) m addr (u32 (addr + len)).

Definition mpsearch (m : mem) : option Z :=
  let bda := P2V 0x400 in
  let p := Z.shiftl (Z.lor (Z.shiftl (rd m (bda + 0x0F)) 8) (rd m (bda + 0x0E))) 4 in
  if negb (p =? 0) then
    match mpsearch1 m p 1024 with
    | Some mp => Some mp
    | None => mpsearch1 m 0xF0000 0x10000
    end
  else
    let p := Z.lor (Z.shiftl (rd m (bda + 0x14)) 8) (rd m (bda + 0x13)) * 1024 in
    match mpsearch1 m (u32 (p - 1024)) 1024 with
    | Some mp => Some mp
    | None => mpsearch1 m 0xF0000 0x10000
    end.

(** The addresses of the two structures. *)
Definition mpconfig (m : mem) : option (Z * Z) :=
  match mpsearch m with
  | None => None
  | Some mp =>
    let physaddr := rd32 m (mp + 4) in
    if physaddr =? 0 then None
    else
      let conf := P2V physaddr in
      if negb (bool_decide (memcmp (mread m conf 4) PCMP_SIG 4 = Some 0)) then None
      else if negb (rd m (conf + 6) =? 1) && negb (rd m (conf + 6) =? 4) then None
      else if negb (sum m conf (rd16 m (conf + 4)) =? 0) then None
      else Some (mp, conf)
  end.

(** What [mpinit] sets: the address of the local APICs, the APIC numbers of
    [cpus], in order, and [ioapicid]. *)
Record mpinfo := MpInfo { mi_lapic : Z; mi_apicids : list Z; mi_ioapicid : Z }.

(** The loop over the table, with [ismp]; [None] when it takes more rounds than
    its fuel.  In the default case the [break] leaves the switch only. *)
Fixpoint mpinit_loop (fuel : nat) (m : mem) (p e : Z) (i : mpinfo) (ismp : bool) : option (mpinfo * bool) :=
  match fuel with
  | O => None
  | S fuel' =>
    if p <? e then
      let t := rd m p in
      if t =? MPPROC then
        mpinit_loop fuel' m (u32 (p + MPPROC_SIZE)) e
          (if Z.of_nat (length (mi_apicids i)) <? NCPU
           then MpInfo (mi_lapic i) (mi_apicids i ++ [rd m (p + 1)]) (mi_ioapicid i) else i) ismp
      else if t =? MPIOAPIC then
        mpinit_loop fuel' m (u32 (p + MPIOAPIC_SIZE)) e (MpInfo (mi_lapic i) (mi_apicids i) (rd m (p + 1))) ismp
      else if (t =? MPBUS) || (t =? MPIOINTR) || (t =? MPLINTR) then
        mpinit_loop fuel' m (u32 (p + 8)) e i ismp
      else mpinit_loop fuel' m p e i false
    else Some (i, ismp)
  end.

(** [mpinit] with a number of rounds: what it has found and whether it writes to
    the IMCR ports, a panic, or more rounds. *)
Inductive mpresult :=
  | Found (i : mpinfo) (imcr : bool)
  | Panics (msg : string)
  | Runs.
Definition mpinit (fuel : nat) (m : mem) : mpresult :=
  match mpconfig m with
  | None => Panics "Expect to run on an SMP"
  | Some (mp, conf) =>
    let lapic := rd32 m (conf + 36) in
    match mpinit_loop fuel m (u32 (conf + MPCONF_SIZE)) (u32 (conf + rd16 m (conf + 4))) (MpInfo lapic [] 0) true with
    | None => Runs
    | Some (i, ismp) =>
      if negb ismp then Panics "Didn't find a suitable machine"
      else Found i (negb (rd m (mp + 12) =? 0))
    end
  end.

(** *** The tables *)

(** An entry of the table. *)
Inductive mpentry :=
  | EProc (apicid : Z) (rest : list Z)
  | EIoapic (apicno : Z) (rest : list Z)
  | EOther (type : Z) (rest : list Z).
Definition entry_bytes (e : mpentry) : list Z :=
  match e with
  | EProc id rest => MPPROC :: id :: rest
  | EIoapic no rest => MPIOAPIC :: no :: rest
  | EOther t rest => t :: rest
  end.
Definition entry_ok (e : mpentry) : Prop :=
  match e with
  | EProc _ rest => length rest = 18%nat
  | EIoapic _ rest => length rest = 6%nat
  | EOther t rest => length rest = 7%nat /\ (t = MPBUS \/ t = MPIOINTR \/ t = MPLINTR)
  end.
Definition apicids (es : list mpentry) : list Z := omap (fun e => match e with EProc id _ => Some id | _ => None end) es.
Definition ioapics (es : list mpentry) : list Z := omap (fun e => match e with EIoapic no _ => Some no | _ => None end) es.

(** Memory has the bytes [l] at [a]. *)
Definition bytes_at (m : mem) (a : Z) (l : list Z) : Prop := forall k x, l !! k = Some x -> rd m (a + Z.of_nat k) = x.

Lemma bytes_at_app m a l1 l2 : bytes_at m a (l1 ++ l2) <-> bytes_at m a l1 /\ bytes_at m (a + Z.of_nat (length l1)) l2.
Proof.
  split.
  - intros Hb. split.
    + intros k x Hk. apply Hb. by apply lookup_app_l_Some.
    + intros k x Hk. rewrite <- Z.add_assoc, <- Nat2Z.inj_add. apply Hb. rewrite lookup_app_r by lia. by replace (length l1 + k - length l1)%nat with k by lia.
  - intros [H1 H2] k x [Hk|[Hle Hk]]%lookup_app_Some; [by apply H1|]. specialize (H2 _ _ Hk). rewrite <- H2. f_equal. lia.
Qed.

Definition table_bytes (es : list mpentry) : list Z := concat (entry_bytes <$> es).

(** The entries are read one by one. *)
Lemma mpinit_loop_run m es : forall fuel p i, Forall entry_ok es -> bytes_at m p (table_bytes es) -> 0 <= p -> p + Z.of_nat (length (table_bytes es)) < 2 ^ 32 -> (length es < fuel)%nat ->
  mpinit_loop fuel m p (p + Z.of_nat (length (table_bytes es))) i true =
  Some (MpInfo (mi_lapic i) (mi_apicids i ++ take (Z.to_nat NCPU - length (mi_apicids i)) (apicids es)) (List.last (ioapics es) (mi_ioapicid i)), true).
Proof.
  induction es as [|e es IH]; intros fuel p i Hok Hb Hp Hmax Hfuel; (destruct fuel as [|fuel]; [cbn in Hfuel; lia|]); cbn [mpinit_loop].
  - cbn. rewrite Z.add_0_r, Z.ltb_irrefl, take_nil, app_nil_r. by destruct i.
  - apply Forall_cons in Hok as [He Hok]. unfold table_bytes in *. cbn [fmap list_fmap concat] in *. rewrite length_app in *. apply bytes_at_app in Hb as [Hbe Hbs].
    set (n := length (concat (entry_bytes <$> es))) in *. cbn [length] in Hfuel.
    assert (Hlen : (8 <= length (entry_bytes e))%nat) by (destruct e; cbn in *; lia). rewrite (proj2 (Z.ltb_lt _ _)) by lia.
    assert (H0 : forall x, entry_bytes e !! 0%nat = Some x -> rd m p = x) by (intros x Hx; rewrite <- (Hbe _ _ Hx); f_equal; lia).
    assert (H1 : forall x, entry_bytes e !! 1%nat = Some x -> rd m (p + 1) = x) by (intros x Hx; rewrite <- (Hbe _ _ Hx); f_equal; lia).
    assert (Hnext : forall j, mpinit_loop fuel m (p + Z.of_nat (length (entry_bytes e))) (p + Z.of_nat (length (entry_bytes e) + n)) j true =
      Some (MpInfo (mi_lapic j) (mi_apicids j ++ take (Z.to_nat NCPU - length (mi_apicids j)) (apicids es)) (List.last (ioapics es) (mi_ioapicid j)), true)).
    { intros j. rewrite Nat2Z.inj_add, Z.add_assoc. apply IH; [done|done|lia|lia|lia]. }
    change (2 ^ 32) with 4294967296 in Hmax. destruct e as [id rest|no rest|t rest]; cbn [entry_ok] in He; cbn [entry_bytes length] in *.
    + rewrite (H0 MPPROC) by done. rewrite Z.eqb_refl. rewrite u32_id by (unfold MPPROC_SIZE; word_unfold; lia). replace (p + MPPROC_SIZE) with (p + Z.of_nat (S (S (length rest)))) by (rewrite He; done). rewrite Hnext.
      change (apicids (EProc id rest :: es)) with (id :: apicids es). change (ioapics (EProc id rest :: es)) with (ioapics es). rewrite (H1 id) by done. change (Z.to_nat NCPU) with 8%nat. unfold NCPU.
      destruct (Z.ltb_spec (Z.of_nat (length (mi_apicids i))) 8) as [Hlt|Hge]; cbn [mi_lapic mi_apicids mi_ioapicid].
      * rewrite length_app. cbn [length]. replace (8 - length (mi_apicids i))%nat with (S (8 - (length (mi_apicids i) + 1)))%nat by lia. cbn [take]. by rewrite <- app_assoc.
      * replace (8 - length (mi_apicids i))%nat with 0%nat by lia. by rewrite !take_0.
    + rewrite (H0 MPIOAPIC) by done. change (MPIOAPIC =? MPPROC) with false. rewrite Z.eqb_refl. rewrite u32_id by (unfold MPIOAPIC_SIZE; word_unfold; lia). replace (p + MPIOAPIC_SIZE) with (p + Z.of_nat (S (S (length rest)))) by (rewrite He; done). rewrite Hnext.
      rewrite (H1 no) by done. cbn [mi_lapic mi_apicids mi_ioapicid]. change (apicids (EIoapic no rest :: es)) with (apicids es). change (ioapics (EIoapic no rest :: es)) with (no :: ioapics es). do 3 f_equal.
      destruct (ioapics es) as [|y l]; [done|]. cbn [List.last]. clear. revert y. induction l as [|z l IHl]; intros y; [done|]. apply IHl.
    + destruct He as [He Ht]. rewrite (H0 t) by done. assert (Hc : (t =? MPPROC) = false /\ (t =? MPIOAPIC) = false /\ (t =? MPBUS) || (t =? MPIOINTR) || (t =? MPLINTR) = true) by (destruct Ht as [->|[->| ->]]; done).
      destruct Hc as (-> & -> & ->). rewrite u32_id by (word_unfold; lia). replace (p + 8) with (p + Z.of_nat (S (length rest))) by (rewrite He; done). by rewrite Hnext.
Qed.

(** A structure [struct mp] at an address. *)
Definition is_mp (m : mem) (p : Z) : bool := bool_decide (memcmp (mread m p 4) MP_SIG 4 = Some 0) && (sum m p MP_SIZE =? 0).

Lemma mpsearch1_first m k : forall fuel p e, (k < fuel)%nat -> 0 <= p -> p + 16 * Z.of_nat k < e -> e < 2 ^ 32 ->
  is_mp m (p + 16 * Z.of_nat k) = true -> (forall j, (j < k)%nat -> is_mp m (p + 16 * Z.of_nat j) = false) -> mpsearch1_loop fuel m p e = Some (p + 16 * Z.of_nat k).
Proof.
  induction k as [|k IH]; intros fuel p e Hf Hp Hke He Hmp Hno; (destruct fuel as [|fuel]; [lia|]); cbn [mpsearch1_loop]; rewrite (proj2 (Z.ltb_lt _ _)) by lia; fold (is_mp m p); change (2 ^ 32) with 4294967296 in *.
  - rewrite Z.add_0_r in *. by rewrite Hmp.
  - assert (E0 : is_mp m p = false) by (rewrite <- (Hno 0%nat) by lia; f_equal; lia). rewrite E0. unfold MP_SIZE. rewrite u32_id by (word_unfold; lia).
    replace (p + 16 * Z.of_nat (S k)) with (p + 16 + 16 * Z.of_nat k) in * by lia. apply IH; [lia|lia|lia|done|done|]. intros j Hj. replace (p + 16 + 16 * Z.of_nat j) with (p + 16 * Z.of_nat (S j)) by lia. apply Hno. lia.
Qed.

Lemma mread_bytes m a l : bytes_at m a l -> mread m a (length l) = l.
Proof.
  intros Hb. apply list_eq. intros k. unfold mread. rewrite list_lookup_fmap. destruct (decide (k < length l)%nat) as [Hk|Hk].
  - rewrite lookup_seqZ_lt by lia. destruct (lookup_lt_is_Some_2 l k Hk) as [x Hx]. rewrite Hx. cbn. f_equal. by apply Hb.
  - rewrite lookup_seqZ_ge by lia. symmetry. apply lookup_ge_None. lia.
Qed.

(** The address of the extended BIOS data area. *)
Definition ebda (m : mem) : Z := Z.shiftl (Z.lor (Z.shiftl (rd m (P2V 0x400 + 0x0F)) 8) (rd m (P2V 0x400 + 0x0E))) 4.

(** The tables of a machine: a [struct mp] in the first kilobyte of that area, not
    a second one before it, and a configuration table of [len] bytes that begins
    with the entries [es]. *)
Record tables (m : mem) (mp conf : Z) (es : list mpentry) (len : Z) : Prop := Tables {
  tb_ebda : 0 < ebda m < 2 ^ 20;
  tb_mp : exists k, (k < 64)%nat /\ mp = P2V (ebda m) + 16 * Z.of_nat k /\ is_mp m mp = true /\
    forall j, (j < k)%nat -> is_mp m (P2V (ebda m) + 16 * Z.of_nat j) = false;
  tb_conf : rd32 m (mp + 4) <> 0 /\ conf = P2V (rd32 m (mp + 4));
  tb_sig : bytes_at m conf PCMP_SIG;
  tb_version : rd m (conf + 6) = 1 \/ rd m (conf + 6) = 4;
  tb_length : rd16 m (conf + 4) = len /\ 0 <= conf /\ conf + len < 2 ^ 32 /\ MPCONF_SIZE + Z.of_nat (length (table_bytes es)) <= len;
  tb_sum : sum m conf len = 0;
  tb_entries : bytes_at m (conf + MPCONF_SIZE) (table_bytes es);
  tb_ok : Forall entry_ok es;
}.

Lemma tables_mpconfig m mp conf es len : tables m mp conf es len -> mpconfig m = Some (mp, conf).
Proof.
  intros [T1 (k & T2 & Emp & T3 & T4) [T5 T6] T7 T8 (T9 & T10 & T11 & _) T12 _ _].
  assert (Es : mpsearch m = Some mp).
  { unfold mpsearch. fold (ebda m). rewrite (proj2 (Z.eqb_neq (ebda m) 0)) by lia. cbn [negb]. change (2 ^ 20) with 1048576 in T1.
    assert (EP : P2V (ebda m) = ebda m + 0x80000000) by (unfold P2V, KERNBASE; apply u32_id; word_unfold; lia).
    unfold mpsearch1. rewrite (u32_id (P2V (ebda m) + 1024)) by (rewrite EP; word_unfold; lia). rewrite EP in *.
    rewrite (mpsearch1_first m k) by (first [done | change (2 ^ 32) with 4294967296; change (Z.to_nat (1024 / MP_SIZE + 1)) with 65%nat; lia | by rewrite <- Emp]). by rewrite <- Emp. }
  unfold mpconfig. rewrite Es. rewrite (proj2 (Z.eqb_neq _ _) T5), <- T6. pose proof (mread_bytes _ _ _ T7) as Er. cbn [length PCMP_SIG] in Er. rewrite Er. rewrite bool_decide_true by done. cbn [negb].
  assert (Ev : negb (rd m (conf + 6) =? 1) && negb (rd m (conf + 6) =? 4) = false) by (destruct T8 as [-> | ->]; done). rewrite Ev, T9, T12. done.
Qed.

(** [mpinit] finds the processors.  On a machine with the tables of the MP
    specification, whose entries are of the five known types, [mpinit] ends; it
    has taken the APIC numbers of the first [NCPU] processors, in the order of the
    table, the address of the local APICs and the number of the last I/O APIC. *)
Theorem mpinit_finds (m : mem) (mp conf : Z) (es : list mpentry) (fuel : nat) :
  tables m mp conf es (MPCONF_SIZE + Z.of_nat (length (table_bytes es))) -> (length es < fuel)%nat ->
  mpinit fuel m = Found (MpInfo (rd32 m (conf + 36)) (take (Z.to_nat NCPU) (apicids es)) (List.last (ioapics es) 0)) (negb (rd m (mp + 12) =? 0)).
Proof.
  intros Ht Hf. unfold mpinit. rewrite (tables_mpconfig _ _ _ _ _ Ht). destruct Ht as [_ _ _ _ _ (L1 & L2 & L3 & _) _ Hb Hok]. rewrite L1. unfold MPCONF_SIZE in *. change (2 ^ 32) with 4294967296 in L3.
  rewrite !u32_id by (word_unfold; lia). rewrite Z.add_assoc. rewrite mpinit_loop_run by (done || change (2 ^ 32) with 4294967296; lia). cbn [mi_lapic mi_apicids mi_ioapicid length app]. by rewrite Nat.sub_0_r.
Qed.

(** The tables are in the memory below the kernel. *)
Lemma mread_ext m m' a n : (forall b, a <= b < a + Z.of_nat n -> rd m' b = rd m b) -> mread m' a n = mread m a n.
Proof. intros H. apply list_fmap_ext. intros k i Hi. apply H. apply lookup_seqZ in Hi as [-> Hi]. lia. Qed.

Lemma sum_ext m m' a len : (forall b, a <= b < a + len -> rd m' b = rd m b) -> sum m' a len = sum m a len.
Proof.
  intros H. unfold sum. f_equal. assert (E : forall l s0, (forall i, i ∈ l -> rd m' (a + i) = rd m (a + i)) ->
    foldl (fun s i => i32 (s + rd m' (a + i))) s0 l = foldl (fun s i => i32 (s + rd m (a + i))) s0 l).
  { induction l as [|i l IH]; intros s0 Hl; [done|]. cbn [foldl]. rewrite (Hl i) by by left. apply IH. intros j Hj. apply Hl. by right. }
  apply E. intros i Hi%elem_of_seqZ. apply H. lia.
Qed.

Lemma is_mp_ext m m' p : (forall a, p <= a < p + 16 -> rd m' a = rd m a) -> is_mp m' p = is_mp m p.
Proof. intros H. unfold is_mp. rewrite (mread_ext m m') by (intros; apply H; lia). by rewrite (sum_ext m m') by (intros; apply H; unfold MP_SIZE in *; lia). Qed.

Lemma tables_low m m' mp conf es len : tables m mp conf es len -> mp + 16 <= KERNLINK -> KERNBASE <= conf -> conf + len <= KERNLINK ->
  (forall a, KERNBASE <= a < KERNLINK -> rd m' a = rd m a) -> tables m' mp conf es len /\ rd32 m' (conf + 36) = rd32 m (conf + 36) /\ rd m' (mp + 12) = rd m (mp + 12).
Proof.
  intros [T1 (k & T2 & Emp & T3 & T4) [T5 T6] T7 T8 (T9 & T10 & T11 & T12) T13 T14 T15] Hmp Hc1 Hc2 Hm. unfold MPCONF_SIZE in *.
  assert (Ee : ebda m' = ebda m) by (unfold ebda; by rewrite !Hm by (vm_compute; done)).
  assert (Hp : KERNBASE <= P2V (ebda m)) by (change (2 ^ 20) with 1048576 in T1; unfold P2V; sizes; word).
  assert (Ebytes : forall a l, KERNBASE <= a -> a + Z.of_nat (length l) <= KERNLINK -> bytes_at m a l -> bytes_at m' a l).
  { intros a l H1 H2 Hb j x Hj. pose proof (lookup_lt_Some _ _ _ Hj). rewrite Hm by lia. by apply Hb. }
  assert (Eword : forall a, KERNBASE <= a -> a + 4 <= KERNLINK -> rd32 m' a = rd32 m a) by (intros a H1 H2; apply rd32_ext; intros b Hb; apply Hm; lia).
  split; [|split; [apply Eword; lia|apply Hm; lia]]. split.
  - by rewrite Ee.
  - exists k. rewrite Ee. split; [done|]. split; [done|]. split; [rewrite (is_mp_ext m m'); [done|]; intros; apply Hm; lia|].
    intros j Hj. rewrite (is_mp_ext m m'); [by apply T4|]. intros a Ha. apply Hm. lia.
  - by rewrite Eword by lia.
  - apply Ebytes; [done|cbn; lia|done].
  - by rewrite Hm by lia.
  - unfold rd16 in *. rewrite !Hm by lia. done.
  - rewrite (sum_ext m m'); [done|]. intros b Hb. apply Hm. lia.
  - unfold MPCONF_SIZE; apply Ebytes; [lia|lia|done].
  - done.
Qed.

Lemma mpinit_loop_unknown m p e i : forall fuel b, p < e -> rd m p ∉ [MPPROC; MPBUS; MPIOAPIC; MPIOINTR; MPLINTR] -> mpinit_loop fuel m p e i b = None.
Proof.
  induction fuel as [|fuel IH]; intros b Hp Ht; [done|]. cbn [mpinit_loop]. rewrite (proj2 (Z.ltb_lt _ _) Hp). set (t := rd m p) in *. set_unfold in Ht.
  rewrite !(proj2 (Z.eqb_neq t _)) by tauto. cbn [orb]. apply IH; [done|]. set_unfold. tauto.
Qed.

(** The entries before an unknown one do not make the loop return. *)
Lemma mpinit_loop_more m es : forall fuel p e i, Forall entry_ok es -> bytes_at m p (table_bytes es) -> 0 <= p -> p + Z.of_nat (length (table_bytes es)) < e -> e < 2 ^ 32 ->
  rd m (p + Z.of_nat (length (table_bytes es))) ∉ [MPPROC; MPBUS; MPIOAPIC; MPIOINTR; MPLINTR] -> mpinit_loop fuel m p e i true = None.
Proof.
  induction es as [|en es IH]; intros fuel p e i Hok Hb Hp Hlt He Ht.
  - cbn in Ht, Hlt. rewrite Z.add_0_r in Ht, Hlt. by apply mpinit_loop_unknown.
  - destruct fuel as [|fuel]; [done|]. apply Forall_cons in Hok as [Hen Hok]. unfold table_bytes in *. cbn [fmap list_fmap concat] in *. rewrite length_app, Nat2Z.inj_add in *. apply bytes_at_app in Hb as [Hbe Hbs]. rewrite Z.add_assoc in Ht.
    assert (H0 : forall x, entry_bytes en !! 0%nat = Some x -> rd m p = x) by (intros x Hx; rewrite <- (Hbe _ _ Hx); f_equal; lia). change (2 ^ 32) with 4294967296 in *.
    assert (Hnext : forall j, mpinit_loop fuel m (p + Z.of_nat (length (entry_bytes en))) e j true = None) by (intros j; apply IH; [done|done|lia|lia|done|done]).
    cbn [mpinit_loop]. rewrite (proj2 (Z.ltb_lt p e)) by (destruct en; cbn [entry_ok entry_bytes length] in *; lia). destruct en as [id rest|no rest|t rest]; cbn [entry_ok] in Hen; cbn [entry_bytes length] in *.
    + rewrite (H0 MPPROC) by done. rewrite Z.eqb_refl, u32_id by (unfold MPPROC_SIZE; word_unfold; lia). replace (p + MPPROC_SIZE) with (p + Z.of_nat (S (S (length rest)))) by (rewrite Hen; done). apply Hnext.
    + rewrite (H0 MPIOAPIC) by done. change (MPIOAPIC =? MPPROC) with false. rewrite Z.eqb_refl, u32_id by (unfold MPIOAPIC_SIZE; word_unfold; lia). replace (p + MPIOAPIC_SIZE) with (p + Z.of_nat (S (S (length rest)))) by (rewrite Hen; done). apply Hnext.
    + destruct Hen as [Hen Hty]. rewrite (H0 t) by done. assert (Hc : (t =? MPPROC) = false /\ (t =? MPIOAPIC) = false /\ (t =? MPBUS) || (t =? MPIOINTR) || (t =? MPLINTR) = true) by (destruct Hty as [->|[->| ->]]; done).
      destruct Hc as (-> & -> & ->). rewrite u32_id by (word_unfold; lia). replace (p + 8) with (p + Z.of_nat (S (length rest))) by (rewrite Hen; done). apply Hnext.
Qed.

(** C38: An entry of a type that [mpinit] does not know makes it run forever.  The
    default case of its switch means to end the loop and to panic, but its [break]
    only leaves the switch, and the pointer has not moved. *)
Theorem mpinit_hangs (m : mem) (mp conf : Z) (es : list mpentry) (len : Z) :
  tables m mp conf es len -> let p := conf + MPCONF_SIZE + Z.of_nat (length (table_bytes es)) in
  p < conf + len -> rd m p ∉ [MPPROC; MPBUS; MPIOAPIC; MPIOINTR; MPLINTR] -> forall fuel, mpinit fuel m = Runs.
Proof.
  intros Ht p Hp Hty fuel. unfold mpinit. rewrite (tables_mpconfig _ _ _ _ _ Ht). destruct Ht as [_ _ _ _ _ (L1 & L2 & L3 & L4) _ Hb Hok]. rewrite L1. unfold p, MPCONF_SIZE in *. change (2 ^ 32) with 4294967296 in L3.
  rewrite !u32_id by (word_unfold; lia). rewrite (mpinit_loop_more m es) by (done || change (2 ^ 32) with 4294967296; lia). done.
Qed.

(** An example: two processors and an I/O APIC. *)
Definition poke (m : mem) (a : Z) (l : list Z) : mem := foldl (fun m '(i, x) => wr m (a + i) x) m (zip (seqZ 0 (Z.of_nat (length l))) l).
Definition ex_entries : list mpentry := [EProc 0 (replicate 18 0); EProc 3 (replicate 18 0); EOther MPBUS (replicate 7 0); EIoapic 5 (replicate 6 0)].
Definition ex_tables (extra : list Z) (check : Z) : mem :=
  let es := table_bytes ex_entries ++ extra in
  let m := poke ∅ (P2V 0x40E) [0xC0; 0x9F] in
  let m := poke m (P2V 0x9FC10) (MP_SIG ++ [0; 0x10; 0x0F; 0; 1; 4; 129; 0; 0; 0; 0; 0]) in
  let m := poke m (P2V 0xF1000) (PCMP_SIG ++ [44 + Z.of_nat (length es); 0; 4; check] ++ replicate 28 0 ++ [0; 0; 0xE0; 0xFE] ++ replicate 4 0) in
  poke m (P2V 0xF102C) es.

Lemma mread_bytes_at m a l : mread m a (length l) = l -> bytes_at m a l.
Proof.
  intros E k x Hk. pose proof (lookup_lt_Some _ _ _ Hk) as Hlt. rewrite <- E in Hk. unfold mread in Hk. rewrite list_lookup_fmap, lookup_seqZ_lt in Hk by lia. cbn in Hk. by injection Hk.
Qed.

Lemma ex_tables_ok extra check : (extra, check) ∈ [([], 127); ([9; 0; 0; 0; 0; 0; 0; 0], 110)] ->
  tables (ex_tables extra check) (P2V 0x9FC10) (P2V 0xF1000) ex_entries (MPCONF_SIZE + Z.of_nat (length (table_bytes ex_entries)) + Z.of_nat (length extra)).
Proof.
  intros Hin. assert (E : (extra, check) = ([], 127) \/ (extra, check) = ([9; 0; 0; 0; 0; 0; 0; 0], 110)) by (set_unfold in Hin; naive_solver). clear Hin.
  destruct E as [E|E]; injection E as -> ->; (split; [vm_compute; done| |vm_compute; done|apply mread_bytes_at; vm_compute; done|right; vm_compute; done|vm_compute; done|vm_compute; done|apply mread_bytes_at; vm_compute; done|]).
  1,3: exists 1%nat; split; [lia|]; split; [vm_compute; done|]; split; [vm_compute; done|]; intros j Hj; assert (j = 0%nat) as -> by lia; vm_compute; done.
  all: unfold ex_entries; repeat (apply Forall_cons; split; [cbn; auto|]); done.
Qed.

Lemma mpinit_finds_witness : mpinit 5 (ex_tables [] 127) = Found (MpInfo 0xFEE00000 [0; 3] 5) false.
Proof.
  rewrite (mpinit_finds _ (P2V 0x9FC10) (P2V 0xF1000) ex_entries); [vm_compute; done| |cbn; lia].
  rewrite <- (Z.add_0_r (_ + _)). apply (ex_tables_ok [] 127). set_solver.
Defined.

Lemma mpinit_hangs_witness : mpinit 1000 (ex_tables [9; 0; 0; 0; 0; 0; 0; 0] 110) = Runs.
Proof.
  apply (mpinit_hangs _ (P2V 0x9FC10) (P2V 0xF1000) ex_entries (MPCONF_SIZE + Z.of_nat (length (table_bytes ex_entries)) + 8)).
  - apply (ex_tables_ok [9; 0; 0; 0; 0; 0; 0; 0] 110). set_solver.
  - vm_compute. done.
  - assert (E : rd (ex_tables [9; 0; 0; 0; 0; 0; 0; 0] 110) (P2V 0xF1000 + MPCONF_SIZE + Z.of_nat (length (table_bytes ex_entries))) = 9) by (vm_compute; done). rewrite E. set_unfold. unfold MPPROC, MPBUS, MPIOAPIC, MPIOINTR, MPLINTR. lia.
Defined.

(** ** The I/O APIC (src/ioapic.c) *)

Definition REG_ID : Z := 0x00.
Definition REG_VER : Z := 0x01.
Definition REG_TABLE : Z := 0x10.
Definition INT_DISABLED : Z := 0x00010000.

(** The structure in memory gives access to the register chosen by [reg]. *)
Record ioapic := Ioapic { io_reg : Z; io_regs : Z -> Z }.
Definition ioapicread (reg : Z) (a : ioapic) : Z * ioapic := (io_regs a reg, Ioapic reg (io_regs a)).
Definition ioapicwrite (reg data : Z) (a : ioapic) : ioapic :=
  Ioapic reg (fun r => if decide (r = reg) then u32 data else io_regs a r).

Fixpoint ioapicinit_loop (n : nat) (i : Z) (a : ioapic) : ioapic :=
  match n with
  | O => a
  | S n' =>
    let a := ioapicwrite (REG_TABLE + 2 * i) (Z.lor INT_DISABLED (T_IRQ0 + i)) a in
    let a := ioapicwrite (REG_TABLE + 2 * i + 1) 0 a in
    ioapicinit_loop n' (i + 1) a
  end.
Definition maxintr (a : ioapic) : Z := Z.land (Z.shiftr (io_regs a REG_VER) 16) 0xFF.
(** Also whether a message about the number of the I/O APIC is printed. *)
Definition ioapicinit (ioapicid : Z) (a : ioapic) : bool * ioapic :=
  let r := ioapicread REG_VER a in
  let maxintr := Z.land (Z.shiftr (fst r) 16) 0xFF in
  let r := ioapicread REG_ID (snd r) in
  let id := Z.shiftr (fst r) 24 in
  (negb (id =? ioapicid), ioapicinit_loop (Z.to_nat (maxintr + 1)) 0 (snd r)).
Definition ioapicenable (irq cpunum : Z) (a : ioapic) : ioapic :=
  let a := ioapicwrite (REG_TABLE + 2 * irq) (T_IRQ0 + irq) a in
  ioapicwrite (REG_TABLE + 2 * irq + 1) (Z.shiftl cpunum 24) a.

(** An entry of the redirection table: whether the interrupt is masked, its
    vector and the processor it goes to. *)
Definition masked (a : ioapic) (i : Z) : bool := negb (Z.land (io_regs a (REG_TABLE + 2 * i)) INT_DISABLED =? 0).
Definition vector (a : ioapic) (i : Z) : Z := Z.land (io_regs a (REG_TABLE + 2 * i)) 0xFF.
Definition dest (a : ioapic) (i : Z) : Z := Z.shiftr (io_regs a (REG_TABLE + 2 * i + 1)) 24.

Lemma ioapicinit_loop_reg n : forall i a r, 0 <= i -> io_regs (ioapicinit_loop n i a) r =
  if decide (REG_TABLE + 2 * i <= r < REG_TABLE + 2 * (i + Z.of_nat n))
  then (if Z.even r then u32 (Z.lor INT_DISABLED (T_IRQ0 + (r - REG_TABLE) / 2)) else 0) else io_regs a r.
Proof.
  unfold REG_TABLE. induction n as [|n IH]; intros i a r Hi; cbn [ioapicinit_loop]; [by rewrite decide_False by lia|]. rewrite IH by lia. unfold ioapicwrite, REG_TABLE. cbn [io_regs].
  destruct (decide (16 + 2 * (i + 1) <= r < 16 + 2 * (i + 1 + Z.of_nat n))) as [Hin|Hout]; [by rewrite decide_True by lia|].
  destruct (decide (r = 16 + 2 * i + 1)) as [->|Hne1]; [|destruct (decide (r = 16 + 2 * i)) as [->|Hne2]].
  - rewrite decide_True by lia. replace (16 + 2 * i + 1) with (1 + 2 * (8 + i)) by lia. by rewrite Z.even_add_mul_2.
  - rewrite decide_True by lia. replace (Z.even (16 + 2 * i)) with true by (replace (16 + 2 * i) with (0 + 2 * (8 + i)) by lia; by rewrite Z.even_add_mul_2).
    do 3 f_equal. Z.to_euclidean_division_equations; lia.
  - by rewrite decide_False by lia.
Qed.

(** The lines that have been enabled, each with its processor; the last call counts. *)
Definition enable_all (l : list (Z * Z)) (a : ioapic) : ioapic := foldl (fun a p => ioapicenable (fst p) (snd p) a) a l.

Lemma vector_bits i : 0 <= i < 224 -> let v := 32 + i in u32 (Z.lor 65536 v) = Z.lor 65536 v /\ Z.land (Z.lor 65536 v) 65536 = 65536 /\
  Z.land (Z.lor 65536 v) 255 = v /\ u32 v = v /\ Z.land v 65536 = 0 /\ Z.land v 255 = v.
Proof.
  intros Hi v. assert (E : forallb (fun i => let v := 32 + i in (u32 (Z.lor 65536 v) =? Z.lor 65536 v) && (Z.land (Z.lor 65536 v) 65536 =? 65536) && (Z.land (Z.lor 65536 v) 255 =? v) && (u32 v =? v) && (Z.land v 65536 =? 0) && (Z.land v 255 =? v)) (seqZ 0 224) = true) by (vm_compute; done).
  rewrite forallb_forall in E. specialize (E i). rewrite <- list_elem_of_In, elem_of_seqZ in E. specialize (E ltac:(lia)). cbv zeta in E. fold v in E. rewrite !andb_true_iff, !Z.eqb_eq in E. tauto.
Qed.

Lemma ioapicenable_reg irq cpu b i :
  io_regs (ioapicenable irq cpu b) (16 + 2 * i) = (if decide (i = irq) then u32 (32 + irq) else io_regs b (16 + 2 * i)) /\
  io_regs (ioapicenable irq cpu b) (16 + 2 * i + 1) = (if decide (i = irq) then u32 (Z.shiftl cpu 24) else io_regs b (16 + 2 * i + 1)).
Proof.
  unfold ioapicenable, ioapicwrite, REG_TABLE, T_IRQ0. cbn [io_regs]. split.
  - rewrite decide_False by lia. destruct (decide (i = irq)); [by rewrite decide_True by lia|by rewrite decide_False by lia].
  - destruct (decide (i = irq)); [by rewrite decide_True by lia|]. by rewrite !decide_False by lia.
Qed.

Lemma elem_of_fst_snoc (l : list (Z * Z)) p i : i ∈ (l ++ [p]).*1 <-> i ∈ l.*1 \/ i = fst p.
Proof. rewrite fmap_app, elem_of_app. cbn. by rewrite list_elem_of_singleton. Qed.

(** The two words of an entry after any calls of [ioapicenable]. *)
Lemma enable_all_low l b i : io_regs (enable_all l b) (16 + 2 * i) = if bool_decide (i ∈ l.*1) then u32 (32 + i) else io_regs b (16 + 2 * i).
Proof.
  induction l as [|p l IH] using rev_ind; [by rewrite bool_decide_false by apply not_elem_of_nil|]. unfold enable_all in *. rewrite foldl_snoc, (proj1 (ioapicenable_reg _ _ _ _)), IH.
  rewrite (bool_decide_ext _ _ (elem_of_fst_snoc l p i)). destruct (decide (i = fst p)) as [->|Hne]; [by rewrite bool_decide_true by by right|].
  by rewrite (bool_decide_ext (i ∈ l.*1 \/ i = fst p) (i ∈ l.*1)) by tauto.
Qed.

Lemma enable_all_high l1 l2 cpu b i : i ∉ l2.*1 -> io_regs (enable_all (l1 ++ (i, cpu) :: l2) b) (16 + 2 * i + 1) = u32 (Z.shiftl cpu 24).
Proof.
  unfold enable_all. rewrite foldl_app. cbn [foldl]. generalize (foldl (fun a p => ioapicenable (fst p) (snd p) a) b l1) as b1. intros b1.
  induction l2 as [|p l2 IH] using rev_ind; intros Hno.
  - cbn [foldl]. by rewrite (proj2 (ioapicenable_reg _ _ _ _)), decide_True by done.
  - rewrite elem_of_fst_snoc in Hno. rewrite foldl_snoc, (proj2 (ioapicenable_reg _ _ _ _)), decide_False by tauto. apply IH. tauto.
Qed.

Lemma ioapicinit_low ioapicid a i : 0 <= i <= maxintr a -> io_regs (snd (ioapicinit ioapicid a)) (16 + 2 * i) = u32 (Z.lor 65536 (32 + i)).
Proof.
  intros Hi. unfold ioapicinit. cbn [fst snd ioapicread io_regs]. fold (maxintr a). rewrite ioapicinit_loop_reg by lia. unfold REG_TABLE, T_IRQ0, INT_DISABLED. rewrite decide_True by lia.
  replace (Z.even (16 + 2 * i)) with true by (replace (16 + 2 * i) with (0 + 2 * (8 + i)) by lia; by rewrite Z.even_add_mul_2).
  by replace ((16 + 2 * i - 16) / 2) with i by (Z.to_euclidean_division_equations; lia).
Qed.

(** C28: Interrupts go where they are sent, and no others come.  After [ioapicinit]
    and any calls of [ioapicenable], a line of the I/O APIC is masked unless it
    has been enabled; it has the vector [T_IRQ0] plus its number; and if it is
    enabled it goes to the processor of the last call for it. *)
Theorem ioapic_routes (a : ioapic) (ioapicid : Z) (l : list (Z * Z)) (i : Z) :
  maxintr a < 224 -> Forall (fun p => 0 <= fst p <= maxintr a /\ 0 <= snd p < 256) l -> 0 <= i <= maxintr a ->
  let a' := enable_all l (snd (ioapicinit ioapicid a)) in
  masked a' i = bool_decide (i ∉ l.*1) /\ vector a' i = T_IRQ0 + i /\
  forall l1 l2 cpu, l = l1 ++ (i, cpu) :: l2 -> i ∉ l2.*1 -> dest a' i = cpu.
Proof.
  intros Hmax Hl Hi. cbv zeta. destruct (vector_bits i ltac:(lia)) as (V1 & V2 & V3 & V4 & V5 & V6).
  unfold masked, vector, dest, REG_TABLE, INT_DISABLED, T_IRQ0. rewrite enable_all_low, ioapicinit_low, V1, V4 by done. split; [|split].
  - repeat case_bool_decide; try done; by rewrite ?V5, ?V2.
  - by case_bool_decide.
  - intros l1 l2 cpu -> Hno. apply Forall_app in Hl as [_ [[_ Hc] _]%Forall_cons]. cbn [snd] in Hc. rewrite enable_all_high by done.
    rewrite Z.shiftl_mul_pow2, Z.shiftr_div_pow2 by lia. change (2 ^ 24) with 16777216. rewrite u32_id by (word_unfold; lia). by rewrite Z.div_mul by lia.
Qed.

Lemma ioapic_routes_witness : let a := enable_all [(1, 0); (14, 1)] (snd (ioapicinit 0 (Ioapic 0 (fun r => if decide (r = 1) then 0x170011 else 0)))) in
  masked a 14 = false /\ masked a 4 = true /\ vector a 14 = 46 /\ dest a 14 = 1.
Proof.
  set (a0 := Ioapic 0 _). assert (Hm : maxintr a0 = 23) by (vm_compute; done).
  assert (Hl : Forall (fun p : Z * Z => 0 <= fst p <= maxintr a0 /\ 0 <= snd p < 256) [(1, 0); (14, 1)]) by (rewrite Hm; repeat (apply Forall_cons; split; [cbn; lia|]); done).
  destruct (ioapic_routes a0 0 [(1, 0); (14, 1)] 14) as (E1 & E2 & E3); [rewrite Hm; lia|done|rewrite Hm; lia|].
  destruct (ioapic_routes a0 0 [(1, 0); (14, 1)] 4) as (E4 & _ & _); [rewrite Hm; lia|done|rewrite Hm; lia|].
  cbv zeta in *. rewrite E1, E2, E4. split; [vm_compute; done|]. split; [vm_compute; done|]. split; [done|]. apply (E3 [(1, 0)] [] 1); [done|set_solver].
Defined.

(** ** The other interrupt controllers (src/picirq.c, src/lapic.c) *)

Definition IO_PIC1 : Z := 0x20.
Definition IO_PIC2 : Z := 0xA0.
(** Ports and the bytes written to them. *)
Definition picinit : list (Z * Z) := [(IO_PIC1 + 1, 0xFF); (IO_PIC2 + 1, 0xFF)].

Definition ID : Z := 0x0020 / 4.
Definition VER : Z := 0x0030 / 4.
Definition TPR : Z := 0x0080 / 4.
Definition EOI : Z := 0x00B0 / 4.
Definition SVR : Z := 0x00F0 / 4.
Definition ENABLE : Z := 0x00000100.
Definition ESR : Z := 0x0280 / 4.
Definition ICRLO : Z := 0x0300 / 4.
Definition INIT : Z := 0x00000500.
Definition STARTUP : Z := 0x00000600.
Definition DELIVS : Z := 0x00001000.
Definition ASSERT : Z := 0x00004000.
Definition LEVEL : Z := 0x00008000.
Definition BCAST : Z := 0x00080000.
Definition ICRHI : Z := 0x0310 / 4.
Definition TIMER : Z := 0x0320 / 4.
Definition X1 : Z := 0x0000000B.
Definition PERIODIC : Z := 0x00020000.
Definition PCINT : Z := 0x0340 / 4.
Definition LINT0 : Z := 0x0350 / 4.
Definition LINT1 : Z := 0x0360 / 4.
Definition ERROR : Z := 0x0370 / 4.
Definition MASKED : Z := 0x00010000.
Definition TICR : Z := 0x0380 / 4.
Definition TDCR : Z := 0x03E0 / 4.
Definition IRQ_ERROR : Z := 19.

(** Registers of the local APIC and the values written to them. *)
Definition lapicw (index value : Z) : list (Z * Z) := [(index, value)].

(** [while(lapic[ICRLO] & DELIVS)], with the values that are read; whether the
    loop ends. *)
Fixpoint delivered (reads : list Z) : bool :=
  match reads with [] => false | x :: reads' => if negb (Z.land x DELIVS =? 0) then delivered reads' else true end.

(** [lapic] says whether [mpinit] has set the address, [ver] is the register
    [VER]; [None] if the interrupt is not delivered. *)
Definition lapicinit (lapic : bool) (ver : Z) (reads : list Z) : option (list (Z * Z)) :=
  if negb lapic then Some []
  else if negb (delivered reads) then None
  else Some (
    lapicw SVR (Z.lor ENABLE (T_IRQ0 + IRQ_SPURIOUS)) ++
    lapicw TDCR X1 ++
    lapicw TIMER (Z.lor PERIODIC (T_IRQ0 + IRQ_TIMER)) ++
    lapicw TICR 10000000 ++
    lapicw LINT0 MASKED ++
    lapicw LINT1 MASKED ++
    (if Z.land (Z.shiftr ver 16) 0xFF >=? 4 then lapicw PCINT MASKED else []) ++
    lapicw ERROR (T_IRQ0 + IRQ_ERROR) ++
    lapicw ESR 0 ++
    lapicw ESR 0 ++
    lapicw EOI 0 ++
    lapicw ICRHI 0 ++
    lapicw ICRLO (Z.lor (Z.lor BCAST INIT) LEVEL) ++
    lapicw TPR 0).

(** [id] is the register [ID]. *)
Definition lapicid (lapic : bool) (id : Z) : Z := if negb lapic then 0 else Z.shiftr id 24.
Definition lapiceoi (lapic : bool) : list (Z * Z) := if lapic then lapicw EOI 0 else [].

Definition CMOS_PORT : Z := 0x70.
Definition wr16 (m : mem) (a v : Z) : mem := wr (wr m a v) (a + 1) (Z.shiftr v 8).

(** The memory, the bytes written to ports and the registers that are written. *)
Definition lapicstartap (apicid addr : Z) (m : mem) : mem * list (Z * Z) * list (Z * Z) :=
  let ports := [(CMOS_PORT, 0xF); (CMOS_PORT + 1, 0x0A)] in
  let wrv := P2V (Z.lor (Z.shiftl 0x40 4) 0x67) in
  let m := wr16 m wrv 0 in
  let m := wr16 m (wrv + 2) (Z.shiftr addr 4) in
  let ipi := lapicw ICRHI (u32 (Z.shiftl apicid 24)) ++ lapicw ICRLO (Z.lor STARTUP (Z.shiftr addr 12)) in
  (m, ports,
   lapicw ICRHI (u32 (Z.shiftl apicid 24)) ++ lapicw ICRLO (Z.lor (Z.lor INIT LEVEL) ASSERT) ++ lapicw ICRLO (Z.lor INIT LEVEL) ++ ipi ++ ipi).

(** The page where a processor starts that receives a value of [ICRLO], and the
    address of the warm reset vector. *)
Definition start_page (v : Z) : Z := Z.land v 0xFF * 4096.
Definition warm_reset (m : mem) : Z := rd16 m (P2V 0x469) * 16 + rd16 m (P2V 0x467).

Lemma startup_vector q : 0 <= q < 256 -> Z.land (Z.lor STARTUP q) 0x700 = STARTUP /\ Z.land (Z.lor STARTUP q) 0xFF = q.
Proof.
  intros Hq. assert (E : forallb (fun q => (Z.land (Z.lor STARTUP q) 0x700 =? STARTUP) && (Z.land (Z.lor STARTUP q) 0xFF =? q)) (seqZ 0 256) = true) by (vm_compute; done).
  rewrite forallb_forall in E. specialize (E q). rewrite <- list_elem_of_In, elem_of_seqZ in E. specialize (E ltac:(lia)). rewrite andb_true_iff, !Z.eqb_eq in E. exact E.
Qed.

(** [lapicstartap] starts the processor at the address it is given, a page below
    one megabyte: the interrupts go to the processor, the last two are startup
    interrupts for the page, and the warm reset vector has its address. *)
Theorem startap_starts (apicid addr : Z) (m : mem) : 0 <= apicid < 256 -> 0 <= addr < 2 ^ 20 -> addr mod 4096 = 0 ->
  let '(m', ports, regs) := lapicstartap apicid addr m in
  warm_reset m' = addr /\ Forall (fun w => fst w = ICRHI -> Z.shiftr (snd w) 24 = apicid) regs /\
  exists v, drop 3 regs = [(ICRHI, apicid * 2 ^ 24); (ICRLO, v); (ICRHI, apicid * 2 ^ 24); (ICRLO, v)] /\ Z.land v 0x700 = STARTUP /\ start_page v = addr.
Proof.
  intros Ha Hd Hp. unfold lapicstartap. change (2 ^ 20) with 1048576 in Hd. rewrite !(Z.shiftl_mul_pow2 apicid) by lia. change (2 ^ 24) with 16777216. rewrite u32_id by (word_unfold; lia).
  assert (Hq : 0 <= Z.shiftr addr 12 < 256) by (rewrite Z.shiftr_div_pow2 by lia; change (2 ^ 12) with 4096; Z.to_euclidean_division_equations; lia).
  destruct (startup_vector _ Hq) as [E1 E2]. split; [|split].
  - unfold warm_reset, rd16, wr16. change (P2V (Z.lor (Z.shiftl 0x40 4) 0x67)) with 0x80000467. change (P2V 0x469) with 0x80000469. change (P2V 0x467) with 0x80000467. cbn [Z.add Pos.add Pos.succ].
    rewrite !rd_wr. repeat first [rewrite decide_True by lia|rewrite decide_False by lia]. rewrite !Z.shiftr_div_pow2 by lia. change (2 ^ 4) with 16. change (0 / 2 ^ 8) with 0. change (u8 0) with 0.
    word_unfold. Z.to_euclidean_division_equations; lia.
  - unfold lapicw. cbn [app]. repeat (apply Forall_cons; split; [cbn [fst snd]; intros Hw; try discriminate Hw; rewrite Z.shiftr_div_pow2 by lia; change (2 ^ 24) with 16777216; by rewrite Z.div_mul by lia|]). done.
  - exists (Z.lor STARTUP (Z.shiftr addr 12)). split; [done|]. split; [done|]. unfold start_page. rewrite E2, Z.shiftr_div_pow2 by lia. change (2 ^ 12) with 4096. Z.to_euclidean_division_equations; lia.
Qed.

(** ** The clock (src/lapic.c) *)

Definition CMOS_STATA : Z := 0x0a.
Definition CMOS_STATB : Z := 0x0b.
Definition CMOS_UIP : Z := Z.shiftl 1 7.
Definition SECS : Z := 0x00.
Definition MINS : Z := 0x02.
Definition HOURS : Z := 0x04.
Definition DAY : Z := 0x07.
Definition MONTH : Z := 0x08.
Definition YEAR : Z := 0x09.

Record rtcdate := Rtcdate { second : Z; minute : Z; hour : Z; day : Z; month : Z; year : Z }.
#[export] Instance rtcdate_eq_dec : EqDecision rtcdate.
Proof. solve_decision. Defined.

Section clock.
(** The byte that read number [n] of the chip gives for a register. *)
Context (clock : nat -> Z -> Z).

Definition cmos_read (reg : Z) (n : nat) : Z * nat := (clock n reg, S n).

Definition fill_rtcdate (n : nat) : rtcdate * nat :=
  let '(s, n) := cmos_read SECS n in
  let '(mi, n) := cmos_read MINS n in
  let '(h, n) := cmos_read HOURS n in
  let '(d, n) := cmos_read DAY n in
  let '(mo, n) := cmos_read MONTH n in
  let '(y, n) := cmos_read YEAR n in
  (Rtcdate s mi h d mo y, n).

Fixpoint cmostime_loop (fuel : nat) (n : nat) : option (rtcdate * nat) :=
  match fuel with
  | O => None
  | S fuel' =>
    let '(t1, n) := fill_rtcdate n in
    let '(a, n) := cmos_read CMOS_STATA n in
    if negb (Z.land a CMOS_UIP =? 0) then cmostime_loop fuel' n
    else
      let '(t2, n) := fill_rtcdate n in
      if bool_decide (t1 = t2) then Some (t1, n) else cmostime_loop fuel' n
  end.

Definition CONV (x : Z) : Z := u32 (Z.shiftr x 4 * 10 + Z.land x 0xf).

Definition cmostime (fuel n : nat) : option rtcdate :=
  let '(sb, n) := cmos_read CMOS_STATB n in
  let bcd := Z.land sb (Z.shiftl 1 2) =? 0 in
  '(t1, _) ← cmostime_loop fuel n;
  let t1 := if bcd then Rtcdate (CONV (second t1)) (CONV (minute t1)) (CONV (hour t1)) (CONV (day t1)) (CONV (month t1)) (CONV (year t1)) else t1 in
  Some (Rtcdate (second t1) (minute t1) (hour t1) (day t1) (month t1) (u32 (year t1 + 2000))).

(** *** A clock that shows a date *)

Definition bcd_of (x : Z) : Z := x / 10 * 16 + x mod 10.
Definition shows (bcd : bool) (d : rtcdate) (n : nat) : Prop :=
  let enc := if bcd then bcd_of else id in
  clock n SECS = enc (second d) /\ clock n MINS = enc (minute d) /\ clock n HOURS = enc (hour d) /\ clock n DAY = enc (day d) /\
  clock n MONTH = enc (month d) /\ clock n YEAR = enc (year d - 2000) /\ Z.land (clock n CMOS_STATA) CMOS_UIP = 0.
Definition date_ok (d : rtcdate) : Prop :=
  0 <= second d < 100 /\ 0 <= minute d < 100 /\ 0 <= hour d < 100 /\ 0 <= day d < 100 /\ 0 <= month d < 100 /\ 2000 <= year d < 2100.

Lemma CONV_bcd x : 0 <= x < 100 -> CONV (bcd_of x) = x.
Proof using Type.
  intros Hx. assert (E : forallb (fun x => CONV (bcd_of x) =? x) (seqZ 0 100) = true) by (vm_compute; done).
  rewrite forallb_forall in E. specialize (E x). rewrite <- list_elem_of_In, elem_of_seqZ in E. apply Z.eqb_eq, E. lia.
Qed.

(** The bytes of the registers of a clock that shows a date. *)
Definition shown (bcd : bool) (d : rtcdate) : rtcdate :=
  let enc := if bcd then bcd_of else id in
  Rtcdate (enc (second d)) (enc (minute d)) (enc (hour d)) (enc (day d)) (enc (month d)) (enc (year d - 2000)).

Lemma fill_shows bcd d n : (forall k, (n <= k)%nat -> shows bcd d k) -> fill_rtcdate n = (shown bcd d, 6 + n)%nat.
Proof using Type.
  intros Hs. unfold fill_rtcdate, cmos_read, shown. f_equal. f_equal.
  - apply (Hs n). lia.
  - apply (Hs (1 + n)%nat). lia.
  - apply (Hs (2 + n)%nat). lia.
  - apply (Hs (3 + n)%nat). lia.
  - apply (Hs (4 + n)%nat). lia.
  - apply (Hs (5 + n)%nat). lia.
Qed.

Lemma cmostime_loop_stable bcd d f n : (forall k, (n <= k)%nat -> shows bcd d k) -> cmostime_loop (S f) n = Some (shown bcd d, 13 + n)%nat.
Proof using Type.
  intros Hs. cbn [cmostime_loop]. rewrite (fill_shows bcd d) by done. unfold cmos_read.
  assert (Ha : Z.land (clock (6 + n)%nat CMOS_STATA) CMOS_UIP = 0) by (apply (Hs (6 + n)%nat); lia). rewrite Ha. cbn [negb Z.eqb].
  rewrite (fill_shows bcd d) by (intros k Hk; apply Hs; lia). by rewrite bool_decide_true by done.
Qed.

(** Each round that does not end the loop reads the chip at least seven times. *)
Lemma cmostime_loop_round f n : is_Some (cmostime_loop (S f) n) \/ exists k, (n + 7 <= k)%nat /\ cmostime_loop (S f) n = cmostime_loop f k.
Proof using Type.
  cbn [cmostime_loop]. unfold fill_rtcdate, cmos_read. destruct (negb _); [right; eexists; split; [|done]; lia|].
  destruct (bool_decide _); [left; by eexists|right; eexists; split; [|done]; lia].
Qed.

(** Once the clock is stable the loop ends. *)
Lemma cmostime_loop_ends fuel n N bcd d : (forall k, (N <= k)%nat -> shows bcd d k) -> (N <= n + 7 * fuel)%nat -> is_Some (cmostime_loop (S fuel) n).
Proof using Type.
  intros Hs. revert n. induction fuel as [|fuel IH]; intros n Hn.
  - rewrite (cmostime_loop_stable bcd d); [by eexists|]. intros k Hk. apply Hs. lia.
  - destruct (cmostime_loop_round (S fuel) n) as [He|(k & Hk & ->)]; [done|]. apply IH. lia.
Qed.

(** [cmostime] reads the date of a clock that does not change meanwhile, in both
    of its formats. *)
Theorem cmostime_reads (n fuel : nat) (d : rtcdate) : let bcd := Z.land (clock n CMOS_STATB) 4 =? 0 in
  date_ok d -> (forall k, (n < k)%nat -> shows bcd d k) -> (0 < fuel)%nat -> cmostime fuel n = Some d.
Proof using Type.
  intros bcd (D1 & D2 & D3 & D4 & D5 & D6) Hs Hf. destruct fuel as [|fuel]; [lia|]. unfold cmostime, cmos_read.
  rewrite (cmostime_loop_stable bcd d) by (intros k Hk; apply Hs; lia). cbn [mbind option_bind]. change (Z.shiftl 1 2) with 4. fold bcd. f_equal.
  destruct d as [s mi h dd mo y]. unfold shown. cbn [second minute hour day month year] in *.
  destruct bcd; cbn [second minute hour day month year]; [rewrite !CONV_bcd by lia|unfold id]; rewrite u32_id by (word_unfold; lia); f_equal; lia.
Qed.

(** A clock that becomes stable after any number of reads is read. *)
Theorem cmostime_returns (n N fuel : nat) (bcd : bool) (d : rtcdate) :
  (forall k, (N <= k)%nat -> shows bcd d k) -> (N <= n + 7 * fuel)%nat -> is_Some (cmostime (S fuel) n).
Proof using Type.
  intros Hs Hn. unfold cmostime, cmos_read. destruct (cmostime_loop_ends fuel (S n) N bcd d Hs ltac:(lia)) as [[t k] ->]. by eexists.
Qed.
End clock.
