(* ===== verification/UserMem.v ===== *)
(** * User memory as the kernel sees it (src/syscall.c, src/trap.c, src/sysproc.c)

    Lazy allocation is transparent: a page below the size of a process that was
    never touched reads as zeroes, and an access of the kernel to it through the
    page table faults, allocates the page and goes on.  The system call
    arguments are what the user's memory holds in that sense. *)

From S2P Require Import Prelude Layout CString Spinlock Kalloc Vm AddrSpace State Sched Sleeplock Bio Log Fs Pipe File Proc Syscall Sysfile Trap.

(** The byte at a user address; pages not allocated yet are zero. *)
Definition lazy_mem (m : mem) (tabs : gmap Z Z) (x : Z) : Z := default 0 (umem m tabs x).

Definition PW : Z := Z.lor PTE_P PTE_W.

Section access.
Context (kend : Z) (Hend : end_ok kend).

(** Process [p] runs in a well-formed address space whose pages are writable. *)
Record uspace (c : ctx) (s : kernel) (p : nat) (pr : proc) (l : list Z) (tabs : gmap Z Z) : Prop := USpace {
  us_lock : kmem_lock ∉ held c;
  us_runs : runs c s p pr;
  us_space : space kend (k_mem s) l (p_pgdir pr) tabs;
  us_write : forall va, page_va va -> va < KERNBASE -> present (pm (k_mem s)) tabs va = true ->
    Z.land (pte_val (pm (k_mem s)) tabs va) PW = PW;
}.

(** No page gets lost; only the page tables and pages that were free have changed, and the memory
    the user sees is [u]. *)
Record accessed (c : ctx) (s : kernel) (p : nat) (pr : proc) (l : list Z) (tabs : gmap Z Z)
    (km : kmem) (l' : list Z) (tabs' : gmap Z Z) (u : Z -> Z) : Prop := Accessed {
  ac_space : uspace c (set_k_mem km s) p pr l' tabs';
  ac_mem : forall x, user_addr x -> lazy_mem (pm km) tabs' x = u x;
  ac_own : forall q, q ∈ l \/ owns (pm (k_mem s)) (p_pgdir pr) tabs q <-> q ∈ l' \/ owns (pm km) (p_pgdir pr) tabs' q;
  ac_off : forall a, pg a ∉ l -> ~ owns (pm (k_mem s)) (p_pgdir pr) tabs (pg a) -> rd (pm km) a = rd (pm (k_mem s)) a;
  ac_stay : forall va, page_va va -> present (pm (k_mem s)) tabs va = true -> present (pm km) tabs' va = true;
}.

Lemma accessed_refl c s p pr l tabs : uspace c s p pr l tabs ->
  accessed c s p pr l tabs (k_mem s) l tabs (lazy_mem (pm (k_mem s)) tabs).
Proof. intros Hs. split; [by destruct s|done|done|done|done]. Qed.

Lemma accessed_trans c s p pr l tabs km1 l1 tabs1 u1 km2 l2 tabs2 u2 :
  accessed c s p pr l tabs km1 l1 tabs1 u1 -> accessed c (set_k_mem km1 s) p pr l1 tabs1 km2 l2 tabs2 u2 ->
  accessed c s p pr l tabs km2 l2 tabs2 u2.
Proof.
  intros [H1 _ O1 M1 S1] [H2 U2 O2 M2 S2]. cbn [k_mem set_k_mem] in *. split; [done|done|intros q; by rewrite O1, O2| |by eauto].
  intros a Ha Ho. assert (Hn : ~ (pg a ∈ l1 \/ owns (pm km1) (p_pgdir pr) tabs1 (pg a))) by (rewrite <- O1; tauto).
  rewrite M2 by tauto. by apply M1.
Qed.

(** The walk of the page table in [user_ka]. *)
Definition walk (pgdir va : Z) : M kmem Z :=
  pte ← walkpgdir pgdir va false; if pte =? 0 then mret 0 else load pte.

Lemma walk_pte c s l pgdir tabs va : kmem_lock ∉ held c -> space kend s l pgdir tabs ->
  walk pgdir va c s = Done (pte_val (pm s) tabs va) c s.
Proof using Hend.
  intros Hc [Hs _]. unfold walk. rewrite (bind_Done _ _ _ _ _ _ _ (walk_noalloc kend Hend c s pgdir tabs va (vs_pt _ _ _ _ _ Hs))).
  unfold walked, pte_val. destruct (tabs !! PDX va) as [t|] eqn:Ht; [|done].
  destruct (pt_some _ _ _ _ (vs_pt _ _ _ _ _ Hs) _ _ Ht) as (_ & (H & _)%(page_range _ Hend) & _). pose proof (PTX_range va).
  rewrite (proj2 (Z.eqb_neq _ _)) by (sizes; lia). done.
Qed.
End access.

Lemma pte_val_pg m tabs x : user_addr x -> pte_val m tabs (pg x) = pte_val m tabs x.
Proof.
  intros Hx. unfold user_addr in Hx. unfold pte_val, pg. rewrite !PDX_eq, !PTX_eq by addr.
  change (2 ^ 22) with 4194304. change (2 ^ 12) with 4096.
  match goal with |- context [?a / 4194304] => replace (a / 4194304) with (x / 4194304) by addr; replace (a / 4096) with (x / 4096) by addr end. done.
Qed.

Lemma present_P m tabs va : present m tabs va = bool_decide (Z.land (pte_val m tabs va) PTE_P = PTE_P).
Proof.
  unfold present, bit_set, PTE_P. change 1 with (Z.ones 1). rewrite Z.land_ones by lia. change (Z.ones 1) with 1. change (2 ^ 1) with 2.
  pose proof (Z.mod_pos_bound (pte_val m tabs va) 2 ltac:(lia)). case_bool_decide; [by rewrite (proj2 (Z.eqb_neq _ _)) by lia|].
  by replace (pte_val m tabs va mod 2) with 0 by lia.
Qed.

Lemma mk_pte_writable f : Z.land (mk_pte f wu) PW = PW.
Proof.
  unfold mk_pte. rewrite <- Z.lor_assoc, Z.land_lor_distr_l. replace (Z.land (Z.lor wu PTE_P) PW) with PW by reflexivity.
  apply Z.bits_inj. intros n. rewrite Z.lor_spec, Z.land_spec. destruct (Z.testbit f n), (Z.testbit PW n); done.
Qed.

Section transparent.
Context (kend : Z) (Hend : end_ok kend).

Lemma zoom_Done {A} (m : M kmem A) c s a c' km : m c (k_mem s) = Done a c' km -> zoom L_mem m c s = Done a c' (set_k_mem km s).
Proof. intros E. unfold zoom. cbn [lget lset L_mem]. by rewrite E. Qed.

Lemma zoom_walk c s p pr l tabs x : uspace kend c s p pr l tabs -> user_addr x ->
  zoom L_mem (walk (p_pgdir pr) x) c s = Done (pte_val (pm (k_mem s)) tabs (pg x)) c s.
Proof using Hend.
  intros [Hl _ Hs _] Hx. rewrite pte_val_pg by done. erewrite zoom_Done by (eapply (walk_pte kend Hend); [exact Hl|exact Hs]).
  by destruct s.
Qed.

(** The byte of the frame behind a user address of a present page. *)
Lemma user_frame c s p pr l tabs x : uspace kend c s p pr l tabs -> user_addr x -> present (pm (k_mem s)) tabs (pg x) = true ->
  u32 (P2V (PTE_ADDR (pte_val (pm (k_mem s)) tabs (pg x))) + x mod PGSIZE) = frame (pm (k_mem s)) tabs (pg x) + x mod PGSIZE.
Proof using Hend.
  intros [_ _ Hs _] Hx Hp. destruct (pg_va x Hx) as (Hpv & Hpk & Hoff).
  destruct (uo_page _ _ _ _ _ (proj2 Hs) _ Hpv Hpk Hp) as ((H1 & H2 & _)%(page_range _ Hend) & _). fold (frame (pm (k_mem s)) tabs (pg x)).
  apply u32_id. addr.
Qed.

(** The page fault that an access to an absent page takes. *)
Lemma fault_run c s p pr l tabs x : uspace kend c s p pr l tabs -> user_addr x -> present (pm (k_mem s)) tabs (pg x) = false ->
  (2 <= length l)%nat ->
  exists km l' tabs', zoom L_mem (lazy_fault kend (p_pgdir pr) x) c s = Done true c (set_k_mem km s) /\
    accessed kend c s p pr l tabs km l' tabs' (lazy_mem (pm (k_mem s)) tabs) /\
    present (pm km) tabs' (pg x) = true /\ (length l <= S (S (length l')))%nat.
Proof using Hend.
  intros [Hl Hrun Hs Hw] Hx Hp Hlen.
  destruct (lazy_fault_full kend (ex_page 1) Hend c Hl ex_data_ok (k_mem s) l (p_pgdir pr) tabs x Hs Hx Hp)
    as (r & km & l' & tabs' & E & Hs' & Hr & Hn & Hu & (f & Hpte) & Ho & Hm).
  destruct r; [|specialize (Hr eq_refl); lia]. exists km, l', tabs'. clear Hr.
  assert (Hp' : forall va, page_va va -> pte_val (pm km) tabs' va = if decide (va = pg x) then mk_pte (V2P f) wu else pte_val (pm (k_mem s)) tabs va).
  { intros va Hva. rewrite Hpte by done. destruct (decide (va = pg x)); [by rewrite decide_True|by rewrite decide_False by naive_solver]. }
  assert (Hpn : present (pm km) tabs' (pg x) = true).
  { unfold present. rewrite Hp', decide_True by (done || (apply pg_va; exact Hx)). pose proof (mk_pte_writable (V2P f)) as Hb.
    unfold bit_set. apply negb_true_iff, Z.eqb_neq. intros E0. apply (f_equal (fun z => Z.land z PTE_P)) in Hb.
    rewrite <- Z.land_assoc in Hb. change (Z.land PW PTE_P) with PTE_P in Hb. rewrite E0 in Hb. done. }
  split; [by apply zoom_Done|]. split; [|done].
  split; [split; cbn [k_mem set_k_mem]; [done|done|done|]| |done|done|].
  - intros va Hva Hk Hpr. rewrite Hp' by done. unfold present in Hpr. rewrite Hp' in Hpr by done.
    destruct (decide (va = pg x)); [apply mk_pte_writable|by apply Hw].
  - intros y Hy. unfold lazy_mem. rewrite Hu by done. destruct (decide (true = true /\ pg y = pg x)) as [[_ E']|_]; [|done].
    cbn. unfold umem. by rewrite E', Hp.
  - intros va Hva Hpr. destruct (decide (va = pg x)) as [->|Hne]; [done|]. unfold present. by rewrite Hp', decide_False.
Qed.

(** The pages an access to [x] may take from the allocator. *)
Definition cost (m : mem) (tabs : gmap Z Z) (x : Z) : nat := if present m tabs (pg x) then 0 else 2.

Lemma user_ka_run need c s p pr l tabs x : need = PTE_P \/ need = PW -> uspace kend c s p pr l tabs -> user_addr x ->
  (cost (pm (k_mem s)) tabs x <= length l)%nat ->
  exists km l' tabs', user_ka kend need x c s = Done (frame (pm km) tabs' (pg x) + x mod PGSIZE) c (set_k_mem km s) /\
    accessed kend c s p pr l tabs km l' tabs' (lazy_mem (pm (k_mem s)) tabs) /\ present (pm km) tabs' (pg x) = true /\
    (length l <= cost (pm (k_mem s)) tabs x + length l')%nat.
Proof using Hend.
  intros Hneed Hs Hx Hc. pose proof Hs as [Hl Hrun Hsp Hw]. unfold user_ka. erewrite bind_myproc by exact Hrun.
  unfold proc_at. erewrite bind_elem_at by exact (proj2 Hrun). fold (walk (p_pgdir pr) x).
  rewrite (bind_Done _ _ _ _ _ _ _ (zoom_walk c s p pr l tabs x Hs Hx)). unfold cost in *.
  destruct (pg_va x Hx) as (Hpv & Hpk & _). destruct (present (pm (k_mem s)) tabs (pg x)) eqn:Hp.
  - rewrite bool_decide_true.
    + exists (k_mem s), l, tabs. split; [|split; [by apply accessed_refl|done]].
      rewrite (user_frame c s p pr l tabs x Hs Hx Hp). by destruct s.
    + destruct Hneed as [->| ->]; [|by apply Hw]. rewrite present_P in Hp. by apply bool_decide_eq_true in Hp.
  - rewrite bool_decide_false.
    + destruct (fault_run c s p pr l tabs x Hs Hx Hp Hc) as (km & l' & tabs' & E & Ha & Hp' & Hn).
      rewrite (bind_Done _ _ _ _ _ _ _ E). exists km, l', tabs'.
      rewrite (bind_Done _ _ _ _ _ _ _ (zoom_walk c (set_k_mem km s) p pr l' tabs' x (ac_space _ _ _ _ _ _ _ _ _ _ _ Ha) Hx)).
      split; [|split; [done|split; [done|lia]]].
      by rewrite (user_frame c (set_k_mem km s) p pr l' tabs' x (ac_space _ _ _ _ _ _ _ _ _ _ _ Ha) Hx Hp').
    + intros E. rewrite present_P, bool_decide_eq_false in Hp. apply Hp. destruct Hneed as [->| ->]; [done|].
      apply (f_equal (fun z => Z.land z PTE_P)) in E. by rewrite <- Z.land_assoc in E.
Qed.

(** The pages an access to [n] bytes may take. *)
Definition budget (m : mem) (tabs : gmap Z Z) (va : Z) (n : nat) : Z :=
  if bool_decide (n = 0%nat) then 0
  else 2 * ((va + Z.of_nat n - 1) / PGSIZE - va / PGSIZE) + Z.of_nat (cost m tabs va).

Lemma budget_bound m tabs va n : 0 <= va -> budget m tabs va n <= 2 * (Z.of_nat n / PGSIZE + 2).
Proof.
  intros Hva. unfold budget, cost. case_bool_decide; [subst n; addr|]. destruct (present m tabs (pg va)); addr.
Qed.

(** After the first byte of a range, the rest is within what is left. *)
Lemma budget_next m tabs m' tabs' va n : 0 <= va -> present m' tabs' (pg va) = true ->
  Z.of_nat (cost m tabs va) + budget m' tabs' (va + 1) n <= budget m tabs va (S n).
Proof.
  intros Hva Hp. unfold budget. rewrite (bool_decide_false (S n = 0%nat)) by lia. case_bool_decide as Hn; [subst n; addr|].
  destruct (decide (pg (va + 1) = pg va)) as [E|E].
  - assert (Hc : cost m' tabs' (va + 1) = 0%nat) by (unfold cost; by rewrite E, Hp). rewrite Hc. unfold pg in E. addr.
  - assert (Hc : (cost m' tabs' (va + 1) <= 2)%nat) by (unfold cost; destruct (present m' tabs' (pg (va + 1))); lia). unfold pg in E. addr.
Qed.

Lemma budget_step m tabs m' tabs' va n (l l' : list Z) : 0 <= va -> budget m tabs va (S n) <= Z.of_nat (length l) ->
  (length l <= cost m tabs va + length l')%nat -> present m' tabs' (pg va) = true -> budget m' tabs' (va + 1) n <= Z.of_nat (length l').
Proof. intros Hva Hb Hl Hp. pose proof (budget_next m tabs m' tabs' va n Hva Hp). lia. Qed.

Lemma budget_cost m tabs va n (l : list Z) : 0 <= va -> budget m tabs va (S n) <= Z.of_nat (length l) -> (cost m tabs va <= length l)%nat.
Proof. intros Hva. unfold budget. rewrite bool_decide_false by lia. addr. Qed.

Lemma uload_run c s p pr l tabs x : uspace kend c s p pr l tabs -> user_addr x -> (cost (pm (k_mem s)) tabs x <= length l)%nat ->
  exists km l' tabs', uload kend x c s = Done (lazy_mem (pm (k_mem s)) tabs x) c (set_k_mem km s) /\
    accessed kend c s p pr l tabs km l' tabs' (lazy_mem (pm (k_mem s)) tabs) /\ present (pm km) tabs' (pg x) = true /\
    (length l <= cost (pm (k_mem s)) tabs x + length l')%nat.
Proof using Hend.
  intros Hs Hx Hc. destruct (user_ka_run PTE_P c s p pr l tabs x (or_introl eq_refl) Hs Hx Hc) as (km & l' & tabs' & E & Ha & Hp & Hn).
  exists km, l', tabs'. split; [|done]. unfold uload. rewrite (bind_Done _ _ _ _ _ _ _ E). unfold mem_get, gets. cbn [k_mem set_k_mem].
  f_equal. rewrite <- (ac_mem _ _ _ _ _ _ _ _ _ _ _ Ha x Hx). unfold lazy_mem, umem. by rewrite Hp.
Qed.

(** Reading a range gives the bytes the user has there. *)
Lemma uload_bytes_run_n n : forall c s p pr l tabs va, uspace kend c s p pr l tabs -> 0 <= va -> va + Z.of_nat n <= KERNBASE ->
  budget (pm (k_mem s)) tabs va n <= Z.of_nat (length l) ->
  exists km l' tabs', uload_bytes kend n va c s = Done (lazy_mem (pm (k_mem s)) tabs <$> seqZ va (Z.of_nat n)) c (set_k_mem km s) /\
    accessed kend c s p pr l tabs km l' tabs' (lazy_mem (pm (k_mem s)) tabs) /\
    Z.of_nat (length l) <= budget (pm (k_mem s)) tabs va n + Z.of_nat (length l').
Proof using Hend.
  induction n as [|n IH]; intros c s p pr l tabs va Hs Hva Hn Hb; cbn [uload_bytes].
  { exists (k_mem s), l, tabs. split; [by destruct s|]. split; [by apply accessed_refl|unfold budget; rewrite bool_decide_true by done; lia]. }
  assert (Hx : user_addr va) by (unfold user_addr; lia).
  destruct (uload_run c s p pr l tabs va Hs Hx) as (km1 & l1 & tabs1 & E1 & Ha1 & Hp1 & Hl1); [by eapply budget_cost|].
  rewrite (bind_Done _ _ _ _ _ _ _ E1). rewrite (u32_id (va + 1)) by addr.
  destruct (IH c (set_k_mem km1 s) p pr l1 tabs1 (va + 1)) as (km & l' & tabs' & E & Ha & Hc); [apply Ha1|lia|lia|by eapply budget_step|].
  rewrite (bind_Done _ _ _ _ _ _ _ E). exists km, l', tabs'. split.
  - unfold mret, M_ret. f_equal. rewrite (seqZ_cons va (Z.of_nat (S n))) by lia. rewrite fmap_cons. replace (Z.pred (Z.of_nat (S n))) with (Z.of_nat n) by lia. f_equal.
    change (Z.succ va) with (va + 1). apply list_fmap_ext. intros i y Hy. apply lookup_seqZ in Hy as [-> Hi].
    apply (ac_mem _ _ _ _ _ _ _ _ _ _ _ Ha1). unfold user_addr. lia.
  - assert (Hu : accessed kend c (set_k_mem km1 s) p pr l1 tabs1 km l' tabs' (lazy_mem (pm (k_mem s)) tabs)).
    { destruct Ha as [A1 A2 A3 A4 A5]. split; try done. intros x Hxx. rewrite A2 by done. by apply (ac_mem _ _ _ _ _ _ _ _ _ _ _ Ha1). }
    split; [by eapply accessed_trans|]. pose proof (budget_next (pm (k_mem s)) tabs (pm km1) tabs1 va n Hva Hp1). cbn [k_mem set_k_mem] in Hc. lia.
Qed.

(** *** System call arguments *)

(** The [int] at a user address, in the memory [u] the user sees. *)
Definition int_at (u : Z -> Z) (a : Z) : Z := i32 (get32 (u <$> seqZ a 4) 0).

(** Argument [n] of a system call with the user stack pointer [esp]: an [int]
    that lies below the size of the process. *)
Definition arg (u : Z -> Z) (sz esp n : Z) : option Z :=
  let a := u32 (esp + 4 + 4 * n) in if a + 4 <=? sz then Some (int_at u a) else None.

Definition user_esp (s : kernel) (pr : proc) : Z := rd32 (pm (k_mem s)) (p_tf pr + TF_esp).

Lemma fetchint_run c s p pr l tabs addr : uspace kend c s p pr l tabs -> uint_ok (p_sz pr) -> uint_ok addr ->
  p_sz pr <= KERNBASE \/ addr + 4 <= KERNBASE -> (4 <= length l)%nat ->
  exists km l' tabs', fetchint kend addr c s =
      Done (if addr + 4 <=? p_sz pr then Some (int_at (lazy_mem (pm (k_mem s)) tabs) addr) else None) c (set_k_mem km s) /\
    accessed kend c s p pr l tabs km l' tabs' (lazy_mem (pm (k_mem s)) tabs) /\ (length l <= 4 + length l')%nat.
Proof using Hend.
  intros Hs Hsz Ha Hk Hl. unfold fetchint. erewrite bind_myproc by exact (us_runs _ _ _ _ _ _ _ Hs).
  unfold proc_at. erewrite bind_elem_at by exact (proj2 (us_runs _ _ _ _ _ _ _ Hs)).
  destruct ((addr >=? p_sz pr) || (u32 (addr + 4) >? p_sz pr)) eqn:Hb.
  { replace (addr + 4 <=? p_sz pr) with false by (symmetry; apply Z.leb_gt; apply orb_true_iff in Hb as [Hb|Hb]; [apply Z.geb_le in Hb|apply Z.gtb_lt in Hb]; destruct Hk; addr).
    exists (k_mem s), l, tabs. split; [by destruct s|]. split; [by apply accessed_refl|lia]. }
  apply orb_false_iff in Hb as [Hb1 Hb2]. assert (addr < p_sz pr) by lia.
  assert (addr + 4 <= p_sz pr) by (rewrite u32_id in Hb2 by (destruct Hk; addr); lia).
  rewrite (proj2 (Z.leb_le _ _)) by done.
  unfold uload32. pose proof (budget_bound (pm (k_mem s)) tabs addr 4 ltac:(word_unfold; lia)) as Hbd. change (2 * (Z.of_nat 4 / PGSIZE + 2)) with 4 in Hbd.
  destruct (uload_bytes_run_n 4 c s p pr l tabs addr Hs) as (km & l' & tabs' & E & Hac & Hn); [word_unfold; lia|lia|lia|].
  exists km, l', tabs'. split; [|split; [done|]].
  - erewrite bind_Done; [|erewrite bind_Done by exact E; reflexivity]. done.
  - lia.
Qed.

Lemma argint_run c s p pr l tabs n : uspace kend c s p pr l tabs -> uint_ok (p_sz pr) ->
  p_sz pr <= KERNBASE \/ u32 (user_esp s pr + 4 + 4 * n) + 4 <= KERNBASE -> (4 <= length l)%nat ->
  exists km l' tabs', argint kend n c s = Done (arg (lazy_mem (pm (k_mem s)) tabs) (p_sz pr) (user_esp s pr) n) c (set_k_mem km s) /\
    accessed kend c s p pr l tabs km l' tabs' (lazy_mem (pm (k_mem s)) tabs) /\ (length l <= 4 + length l')%nat.
Proof using Hend.
  intros Hs Hsz Hk Hl. unfold argint. erewrite bind_myproc by exact (us_runs _ _ _ _ _ _ _ Hs).
  unfold proc_at. erewrite bind_elem_at by exact (proj2 (us_runs _ _ _ _ _ _ _ Hs)). unfold mem_get. rewrite bind_gets.
  apply fetchint_run; [done|done|apply u32_range|done|done].
Qed.

(** What [fetchstr] finds at [a] with [n] bytes left: a string with its NUL, or
    no NUL at all. *)
Definition string_at (u : Z -> Z) (a : Z) (n : nat) (r : option (list Z)) : Prop :=
  match r with
  | Some str => (length str < n)%nat /\ 0 ∉ str /\ u <$> seqZ a (Z.of_nat (length str) + 1) = str ++ [0]
  | None => forall x, a <= x < a + Z.of_nat n -> u x <> 0
  end.

Lemma string_at_ext u u' a n r : (forall x, a <= x < a + Z.of_nat n -> u x = u' x) -> string_at u a n r -> string_at u' a n r.
Proof.
  intros Hu. destruct r as [str|]; cbn; [|intros H x Hx; rewrite <- Hu by done; by apply H].
  intros (Hl & Hz & E). split; [done|]. split; [done|]. rewrite <- E. apply list_fmap_ext. intros i x Hx. apply lookup_seqZ in Hx as [-> Hi].
  symmetry. apply Hu. lia.
Qed.

Lemma string_at_cons u a n r : u a <> 0 -> string_at u (a + 1) n r -> string_at u a (S n) (cons (u a) <$> r).
Proof.
  intros Hne. destruct r as [str|]; cbn.
  - intros (Hl & Hz & E). split; [lia|]. split; [by apply not_elem_of_cons|].
    rewrite seqZ_cons by lia. rewrite fmap_cons. replace (Z.pred (Z.of_nat (S (length str)) + 1)) with (Z.of_nat (length str) + 1) by lia.
    change (Z.succ a) with (a + 1). by rewrite E.
  - intros H x Hx. destruct (decide (x = a)) as [->|]; [done|]. apply H. lia.
Qed.

Lemma accessed_view c s p pr l tabs km l' tabs' u u' : (forall x, user_addr x -> u x = u' x) ->
  accessed kend c s p pr l tabs km l' tabs' u -> accessed kend c s p pr l tabs km l' tabs' u'.
Proof. intros Hu [A1 A2 A3 A4 A5]. split; try done. intros x Hx. by rewrite A2, Hu. Qed.

Lemma scan_str_run n : forall c s p pr l tabs a, uspace kend c s p pr l tabs -> 0 <= a -> a + Z.of_nat n <= KERNBASE ->
  budget (pm (k_mem s)) tabs a n <= Z.of_nat (length l) ->
  exists r km l' tabs', scan_str kend n a c s = Done r c (set_k_mem km s) /\
    accessed kend c s p pr l tabs km l' tabs' (lazy_mem (pm (k_mem s)) tabs) /\ string_at (lazy_mem (pm (k_mem s)) tabs) a n r.
Proof using Hend.
  induction n as [|n IH]; intros c s p pr l tabs a Hs Ha Hn Hb; cbn [scan_str].
  { exists None, (k_mem s), l, tabs. split; [by destruct s|]. split; [by apply accessed_refl|]. cbn. lia. }
  destruct (uload_run c s p pr l tabs a Hs) as (km1 & l1 & tabs1 & E1 & Ha1 & Hp1 & Hl1); [unfold user_addr; lia|by eapply budget_cost|].
  rewrite (bind_Done _ _ _ _ _ _ _ E1). set (u := lazy_mem (pm (k_mem s)) tabs) in *. destruct (Z.eqb_spec (u a) 0) as [E0|Hne].
  { exists (Some []), km1, l1, tabs1. split; [done|]. split; [done|]. split; [cbn; lia|]. split; [apply not_elem_of_nil|]. rewrite (seqZ_cons a) by (cbn; lia). rewrite fmap_cons, E0. done. }
  destruct (IH c (set_k_mem km1 s) p pr l1 tabs1 (a + 1)) as (r & km & l' & tabs' & E & Hac & Hr); [apply Ha1|lia|lia|by eapply budget_step|].
  rewrite (bind_Done _ _ _ _ _ _ _ E). exists (cons (u a) <$> r), km, l', tabs'. split; [done|].
  pose proof (ac_mem _ _ _ _ _ _ _ _ _ _ _ Ha1) as Hu. cbn [k_mem set_k_mem] in *.
  split; [eapply accessed_trans; [exact Ha1|]; by eapply accessed_view|].
  apply string_at_cons; [done|]. eapply string_at_ext; [|exact Hr]. intros x Hx. apply Hu. unfold user_addr. lia.
Qed.

(** *** Storing *)

(** The memory [u] with the bytes [bs] at [va]. *)
Definition stored_at (u : Z -> Z) (va : Z) (bs : list Z) (x : Z) : Z :=
  if decide (va <= x < va + Z.of_nat (length bs)) then default 0 (bs !! Z.to_nat (x - va)) else u x.

Lemma stored_cons u va b bs x : stored_at (stored_at u va [b]) (va + 1) bs x = stored_at u va (b :: bs) x.
Proof.
  unfold stored_at. cbn [length]. destruct (decide (x = va)) as [->|Hne].
  - rewrite decide_False, decide_True by lia. rewrite decide_True by lia. by rewrite Z.sub_diag.
  - destruct (decide (va + 1 <= x < va + 1 + Z.of_nat (length bs))).
    + rewrite decide_True by lia. by replace (Z.to_nat (x - va)) with (S (Z.to_nat (x - (va + 1)))) by lia.
    + rewrite !decide_False by lia. done.
Qed.

Lemma stored_ext u u' va bs x : u x = u' x -> stored_at u va bs x = stored_at u' va bs x.
Proof. unfold stored_at. by case_decide. Qed.

Lemma ustore_run c s p pr l tabs x v : uspace kend c s p pr l tabs -> user_addr x -> byte_ok v -> (cost (pm (k_mem s)) tabs x <= length l)%nat ->
  exists km l' tabs', ustore kend x v c s = Done tt c (set_k_mem km s) /\
    accessed kend c s p pr l tabs km l' tabs' (stored_at (lazy_mem (pm (k_mem s)) tabs) x [v]) /\ present (pm km) tabs' (pg x) = true /\
    (length l <= cost (pm (k_mem s)) tabs x + length l')%nat.
Proof using Hend.
  intros Hs Hx Hv Hc. destruct (user_ka_run PW c s p pr l tabs x (or_intror eq_refl) Hs Hx Hc) as (km & l' & tabs' & E & Ha & Hp & Hn).
  destruct (ac_space _ _ _ _ _ _ _ _ _ _ _ Ha) as [Hl Hrun Hsp Hw]. cbn [k_mem set_k_mem] in *.
  destruct (user_store kend 0 Hend km l' (p_pgdir pr) tabs' x v Hsp Hx Hp) as (Hs' & Hpte & Hu & Hoff).
  set (km' := set_pm _ km) in *. assert (Hpr : forall va, present (pm km') tabs' va = present (pm km) tabs' va) by (intros va; unfold present; by rewrite Hpte).
  exists km', l', tabs'. split; [|split; [|split; [by rewrite Hpr|done]]].
  - unfold ustore. change (Z.lor PTE_P PTE_W) with PW. rewrite (bind_Done _ _ _ _ _ _ _ E). reflexivity.
  - destruct Ha as [_ A2 A3 A4 A5]. split.
    + split; cbn [k_mem set_k_mem]; [done|done|done|]. intros va Hva Hk Hp'. rewrite Hpte. apply Hw; [done|done|by rewrite <- Hpr].
    + intros y Hy. unfold lazy_mem, stored_at. rewrite Hu by done. cbn [length]. destruct (decide (y = x)) as [->|Hne].
      * rewrite decide_True by lia. rewrite Z.sub_diag. change ([v] !! Z.to_nat 0) with (Some v). unfold default, from_option, id. word.
      * rewrite decide_False by lia. apply A2. done.
    + intros q. rewrite A3. by rewrite (owns_ext (pm km) (pm km')).
    + intros a Hal Hno. rewrite <- A4 by done. apply Hoff. intros Ho. destruct (proj2 (A3 (pg a)) (or_intror Ho)); done.
    + intros va Hva Hp'. rewrite Hpr. by apply A5.
Qed.

Lemma ustore_bytes_run bs : forall c s p pr l tabs va, uspace kend c s p pr l tabs -> 0 <= va -> va + Z.of_nat (length bs) <= KERNBASE ->
  Forall byte_ok bs -> budget (pm (k_mem s)) tabs va (length bs) <= Z.of_nat (length l) ->
  exists km l' tabs', ustore_bytes kend va bs c s = Done tt c (set_k_mem km s) /\
    accessed kend c s p pr l tabs km l' tabs' (stored_at (lazy_mem (pm (k_mem s)) tabs) va bs) /\
    Z.of_nat (length l) <= budget (pm (k_mem s)) tabs va (length bs) + Z.of_nat (length l').
Proof using Hend.
  induction bs as [|b bs IH]; intros c s p pr l tabs va Hs Hva Hn Hby Hb; cbn [ustore_bytes length] in *.
  { exists (k_mem s), l, tabs. split; [by destruct s|]. split; [|unfold budget; rewrite bool_decide_true by done; lia].
    eapply accessed_view; [|by apply accessed_refl]. intros x _. unfold stored_at. cbn [length]. by rewrite decide_False by lia. }
  apply Forall_cons in Hby as [Hby Hbs].
  destruct (ustore_run c s p pr l tabs va b Hs) as (km1 & l1 & tabs1 & E1 & Ha1 & Hp1 & Hl1); [unfold user_addr; lia|done|by eapply budget_cost|].
  rewrite (bind_Done _ _ _ _ _ _ _ E1). rewrite (u32_id (va + 1)) by addr.
  destruct (IH c (set_k_mem km1 s) p pr l1 tabs1 (va + 1)) as (km & l' & tabs' & E & Ha & Hc); [apply Ha1|lia|lia|done|by eapply budget_step|].
  exists km, l', tabs'. split; [done|].
  split; [|pose proof (budget_next (pm (k_mem s)) tabs (pm km1) tabs1 va (length bs) Hva Hp1); cbn [k_mem set_k_mem] in Hc; lia].
  eapply accessed_trans; [exact Ha1|]. eapply accessed_view; [|exact Ha].
  intros x Hx. cbn [k_mem set_k_mem]. rewrite <- stored_cons. apply stored_ext. by apply (ac_mem _ _ _ _ _ _ _ _ _ _ _ Ha1).
Qed.
End transparent.

(** ** An example process

    Process 0 has one page of memory, none of it allocated yet; its trap frame,
    with the user stack pointer 0, lies in a page of the kernel. *)

Definition ex_frees (n : nat) : list Z := (fun i => ex_page (Z.of_nat i)) <$> seq 1 n.
Definition ex_mem (n : nat) : kmem := foldr kfreed (Kmem ∅ 0 true) (ex_frees n).
Definition ex_tf : Z := ex_page 90.
Definition ex_uproc (sz : Z) : proc := set_p_sz sz (set_p_pgdir (ex_page 0) (set_p_tf ex_tf ex_proc)).
Definition ex_ukernel (n : nat) (sz : Z) : kernel := set_k_mem (ex_mem n) (set_k_procs [ex_uproc sz] ex_kernel).

Lemma ex_frees_elem n p : p ∈ ex_frees n <-> exists i, (1 <= i <= n)%nat /\ p = ex_page (Z.of_nat i).
Proof.
  unfold ex_frees. rewrite list_elem_of_fmap. split.
  - intros (i & -> & Hi). apply elem_of_seq in Hi. exists i. split; [lia|done].
  - intros (i & Hi & ->). exists i. split; [done|]. apply elem_of_seq. lia.
Qed.

Lemma foldr_kfreed l : Forall (page_ok KERNLINK) l -> NoDup l ->
  kmem_ok KERNLINK (foldr kfreed (Kmem ∅ 0 true) l) l /\
  forall a, (forall p, p ∈ l -> ~ in_page p a) -> rd (pm (foldr kfreed (Kmem ∅ 0 true) l)) a = 0.
Proof.
  intros Hp Hn. induction l as [|p l IH]; cbn [foldr]; [split; [apply kmem_ok_empty|done]|].
  apply Forall_cons in Hp as [Hp Hl]. apply NoDup_cons in Hn as [Hpl Hn]. destruct (IH Hl Hn) as [Hk Hr]. split.
  - by apply kfreed_ok; [sizes; lia|..].
  - intros a Ha. rewrite (kfreed_mem KERNLINK) by (done || (apply (Ha p); by left)). apply Hr. intros q Hq. apply Ha. by right.
Qed.

Lemma ex_mem_ok n : (n <= 80)%nat -> kmem_ok KERNLINK (ex_mem n) (ex_frees n) /\
  forall a, (forall p, p ∈ ex_frees n -> ~ in_page p a) -> rd (pm (ex_mem n)) a = 0.
Proof.
  intros Hn. apply foldr_kfreed.
  - apply Forall_forall. intros p (i & Hi & ->)%ex_frees_elem. apply ex_page_ok. lia.
  - apply NoDup_fmap_2; [|apply NoDup_seq]. intros i j E. unfold ex_page in E. sizes. lia.
Qed.

Lemma ex_zero n i a : (n <= 80)%nat -> i = 0 \/ 80 < i < 100 -> ex_page i <= a < ex_page i + PGSIZE -> rd (pm (ex_mem n)) a = 0.
Proof.
  intros Hn Hi Ha. apply (proj2 (ex_mem_ok n Hn)). intros p (j & Hj & ->)%ex_frees_elem. unfold in_page, ex_page in *. sizes. lia.
Qed.

Lemma ex_uspace n sz : (n <= 80)%nat -> uspace KERNLINK ex_ctx (ex_ukernel n sz) 0 (ex_uproc sz) (ex_frees n) ∅.
Proof.
  intros Hn. split.
  - exact ex_lock.
  - split; reflexivity.
  - cbn [k_mem ex_ukernel set_k_mem p_pgdir ex_uproc set_p_sz set_p_pgdir]. apply bare_space. split; [|done]. split; [by apply ex_mem_ok| | |done].
    + split; [by apply ex_page_ok| |..]; try done. intros i Hi _. unfold bit_set, rd32.
      rewrite !(ex_zero n 0) by (done || by left || (unfold ex_page; sizes; lia)). done.
    + intros (i & Hi & E)%ex_frees_elem. unfold ex_page in E. sizes. lia.
  - intros va _ _ Hp. done.
Qed.

(** ** What system calls get from and give to user memory *)

Lemma fetchstr_run kend c s p pr l tabs a : end_ok kend -> uspace kend c s p pr l tabs -> 0 <= a -> 0 <= p_sz pr <= KERNBASE -> 2 * (p_sz pr / PGSIZE + 2) <= Z.of_nat (length l) ->
  exists r km l' tabs', fetchstr kend a c s = Done r c (set_k_mem km s) /\ accessed kend c s p pr l tabs km l' tabs' (lazy_mem (pm (k_mem s)) tabs) /\
    if a <? p_sz pr then string_at (lazy_mem (pm (k_mem s)) tabs) a (Z.to_nat (p_sz pr - a)) r else r = None.
Proof.
  intros Hend Hs Ha Hsz Hl. unfold fetchstr. erewrite bind_myproc by exact (us_runs _ _ _ _ _ _ _ Hs).
  unfold proc_at. erewrite bind_elem_at by exact (proj2 (us_runs _ _ _ _ _ _ _ Hs)).
  destruct (Z.ltb_spec a (p_sz pr)) as [Hlt|Hge].
  - replace (a >=? p_sz pr) with false by (symmetry; rewrite Z.geb_leb; apply Z.leb_gt; lia).
    apply (scan_str_run kend Hend); [done|done|lia|].
    pose proof (budget_bound (pm (k_mem s)) tabs a (Z.to_nat (p_sz pr - a)) Ha) as Hb. rewrite Z2Nat.id in Hb by lia.
    assert ((p_sz pr - a) / PGSIZE <= p_sz pr / PGSIZE) by (apply Z.div_le_mono; sizes; lia). lia.
  - rewrite (proj2 (Z.geb_le _ _)) by lia. exists None, (k_mem s), l, tabs. split; [by destruct s|]. split; [by apply accessed_refl|done].
Qed.

Section theorems.
Context (kend : Z) (Hend : end_ok kend) (c : ctx) (s : kernel) (p : nat) (pr : proc) (l : list Z) (tabs : gmap Z Z).
Context (Hs : uspace kend c s p pr l tabs).

Abbreviation u := (lazy_mem (pm (k_mem s)) tabs).
Abbreviation esp := (user_esp s pr).

(** C23: a string argument is the string the user has in memory.  [argstr] gives
    the characters from the address in the argument up to the first NUL - pages
    that were not allocated yet read as zeroes and are allocated on the way - and
    fails exactly when the argument or the string does not end below the size of
    the process.  What the user sees of the memory, and all memory that is
    neither free nor the user's, stay as they are. *)
Theorem argstr_reads (n : Z) : 0 <= p_sz pr <= KERNBASE -> 4 + 2 * (p_sz pr / PGSIZE + 2) <= Z.of_nat (length l) ->
  exists r km l' tabs', argstr kend n c s = Done r c (set_k_mem km s) /\ accessed kend c s p pr l tabs km l' tabs' u /\
    match arg u (p_sz pr) esp n with
    | Some i => if u32 i <? p_sz pr then string_at u (u32 i) (Z.to_nat (p_sz pr - u32 i)) r else r = None
    | None => r = None
    end.
Proof using Hs Hend.
  intros Hsz Hl. unfold argstr. assert (0 <= p_sz pr / PGSIZE) by addr.
  destruct (argint_run kend Hend c s p pr l tabs n Hs) as (km1 & l1 & tabs1 & E1 & Ha1 & Hl1); [addr|left; lia|lia|].
  rewrite (bind_Done _ _ _ _ _ _ _ E1). destruct (arg u (p_sz pr) esp n) as [i|]; [|by exists None, km1, l1, tabs1].
  pose proof (ac_mem _ _ _ _ _ _ _ _ _ _ _ Ha1) as Hu1.
  destruct (fetchstr_run kend c (set_k_mem km1 s) p pr l1 tabs1 (u32 i) Hend (ac_space _ _ _ _ _ _ _ _ _ _ _ Ha1)) as (r & km & l' & tabs' & E & Ha & Hr);
    [apply u32_range|done|lia|].
  exists r, km, l', tabs'. split; [exact E|]. cbn [k_mem set_k_mem] in *. split.
  - eapply accessed_trans; [exact Ha1|]. eapply accessed_view; [|exact Ha]. intros x Hx. by apply Hu1.
  - destruct (u32 i <? p_sz pr) eqn:Hlt; [|done]. apply Z.ltb_lt in Hlt. eapply string_at_ext; [|exact Hr]. intros x Hx. apply Hu1.
    pose proof (u32_range i) as Hi. unfold user_addr. word_unfold. lia.
Qed.

Lemma argptr_run (n size : Z) : uint_ok (p_sz pr) -> p_sz pr <= KERNBASE \/ u32 (esp + 4 + 4 * n) + 4 <= KERNBASE -> (4 <= length l)%nat ->
  exists km l' tabs', argptr kend n size c s = Done
      match arg u (p_sz pr) esp n with
      | Some i => if (size <? 0) || (u32 i >=? p_sz pr) || (u32 (i + size) >? p_sz pr) then None else Some (u32 i)
      | None => None
      end c (set_k_mem km s) /\ accessed kend c s p pr l tabs km l' tabs' u.
Proof using Hs Hend.
  intros Hsz Hk Hl. unfold argptr. erewrite bind_myproc by exact (us_runs _ _ _ _ _ _ _ Hs).
  unfold proc_at. erewrite bind_elem_at by exact (proj2 (us_runs _ _ _ _ _ _ _ Hs)).
  destruct (argint_run kend Hend c s p pr l tabs n Hs Hsz Hk Hl) as (km1 & l1 & tabs1 & E1 & Ha1 & _).
  rewrite (bind_Done _ _ _ _ _ _ _ E1). exists km1, l1, tabs1. destruct (arg u (p_sz pr) esp n) as [i|]; [|done].
  by destruct (_ || _ || _).
Qed.

(** A buffer argument lies in the memory of the process.  If the process is
    no larger than the user half of the address space, [argptr] returns the
    address in the argument exactly when all of the buffer is below the size of
    the process; the sum of address and size does not wrap around. *)
Theorem argptr_inside (n size : Z) : 0 <= p_sz pr <= KERNBASE -> - 2 ^ 31 <= size < 2 ^ 31 -> (4 <= length l)%nat ->
  exists km l' tabs', argptr kend n size c s = Done
      match arg u (p_sz pr) esp n with
      | Some i => if bool_decide (0 <= size /\ u32 i < p_sz pr /\ u32 i + size <= p_sz pr) then Some (u32 i) else None
      | None => None
      end c (set_k_mem km s) /\ accessed kend c s p pr l tabs km l' tabs' u.
Proof using Hs Hend.
  intros Hsz Hsize Hl. destruct (argptr_run n size) as (km & l' & tabs' & E & Ha); [addr|left; lia|done|].
  exists km, l', tabs'. split; [|done]. rewrite E. f_equal. destruct (arg u (p_sz pr) esp n) as [i|]; [|done].
  destruct (size <? 0) eqn:H1; [by rewrite bool_decide_false by lia|]. apply Z.ltb_ge in H1.
  destruct (u32 i >=? p_sz pr) eqn:H2; [by rewrite bool_decide_false by lia|]. cbn [orb].
  rewrite Z.geb_leb in H2. apply Z.leb_gt in H2. assert (E' : u32 (i + size) = u32 i + size) by addr. rewrite E'. destruct (Z.gtb_spec (u32 i + size) (p_sz pr)); [by rewrite bool_decide_false by lia|by rewrite bool_decide_true by lia].
Qed.

(** C26: what the kernel copies to a user buffer arrives there and nowhere else.
    After the bytes [bs] are stored at [va], also across pages that were never
    touched, the user reads them there and everything else as before; no page is
    lost and no memory but the user's and the allocator's changes. *)
Theorem copy_to_user (va : Z) (bs : list Z) : 0 <= va -> va + Z.of_nat (length bs) <= KERNBASE -> Forall byte_ok bs ->
  2 * (Z.of_nat (length bs) / PGSIZE + 2) <= Z.of_nat (length l) ->
  exists km l' tabs', ustore_bytes kend va bs c s = Done tt c (set_k_mem km s) /\
    accessed kend c s p pr l tabs km l' tabs' (stored_at u va bs).
Proof using Hs Hend.
  intros Hva Hn Hb Hl. pose proof (budget_bound (pm (k_mem s)) tabs va (length bs) Hva).
  destruct (ustore_bytes_run kend Hend bs c s p pr l tabs va Hs Hva Hn Hb) as (km & l' & tabs' & E & Ha & _); [lia|].
  by exists km, l', tabs'.
Qed.
End theorems.

Lemma ex_frees_length n : length (ex_frees n) = n.
Proof. unfold ex_frees. by rewrite length_fmap, length_seq. Qed.

Lemma argstr_reads_witness : exists r km l' tabs',
  argstr KERNLINK 0 ex_ctx (ex_ukernel 12 PGSIZE) = Done r ex_ctx (set_k_mem km (ex_ukernel 12 PGSIZE)) /\
  accessed KERNLINK ex_ctx (ex_ukernel 12 PGSIZE) 0 (ex_uproc PGSIZE) (ex_frees 12) ∅ km l' tabs' (lazy_mem (pm (ex_mem 12)) ∅) /\
  match arg (lazy_mem (pm (ex_mem 12)) ∅) PGSIZE (user_esp (ex_ukernel 12 PGSIZE) (ex_uproc PGSIZE)) 0 with
  | Some i => if u32 i <? PGSIZE then string_at (lazy_mem (pm (ex_mem 12)) ∅) (u32 i) (Z.to_nat (PGSIZE - u32 i)) r else r = None
  | None => r = None
  end.
Proof.
  apply (argstr_reads KERNLINK ex_end_ok ex_ctx (ex_ukernel 12 PGSIZE) 0 (ex_uproc PGSIZE) (ex_frees 12) ∅).
  - apply ex_uspace. lia.
  - cbn [ex_uproc p_sz set_p_sz]. addr.
  - rewrite ex_frees_length. cbn [ex_uproc p_sz set_p_sz]. addr.
Defined.

Lemma argptr_inside_witness : exists km l' tabs',
  argptr KERNLINK 1 16 ex_ctx (ex_ukernel 12 PGSIZE) = Done
    match arg (lazy_mem (pm (ex_mem 12)) ∅) PGSIZE (user_esp (ex_ukernel 12 PGSIZE) (ex_uproc PGSIZE)) 1 with
    | Some i => if bool_decide (0 <= 16 /\ u32 i < PGSIZE /\ u32 i + 16 <= PGSIZE) then Some (u32 i) else None
    | None => None
    end ex_ctx (set_k_mem km (ex_ukernel 12 PGSIZE)) /\
  accessed KERNLINK ex_ctx (ex_ukernel 12 PGSIZE) 0 (ex_uproc PGSIZE) (ex_frees 12) ∅ km l' tabs' (lazy_mem (pm (ex_mem 12)) ∅).
Proof.
  apply (argptr_inside KERNLINK ex_end_ok ex_ctx (ex_ukernel 12 PGSIZE) 0 (ex_uproc PGSIZE) (ex_frees 12) ∅ ltac:(apply ex_uspace; lia) 1 16).
  - cbn [ex_uproc p_sz set_p_sz]. addr.
  - lia.
  - rewrite ex_frees_length. lia.
Defined.

Lemma copy_to_user_witness : exists km l' tabs',
  ustore_bytes KERNLINK 4095 [1; 2] ex_ctx (ex_ukernel 12 (2 * PGSIZE)) = Done tt ex_ctx (set_k_mem km (ex_ukernel 12 (2 * PGSIZE))) /\
  accessed KERNLINK ex_ctx (ex_ukernel 12 (2 * PGSIZE)) 0 (ex_uproc (2 * PGSIZE)) (ex_frees 12) ∅ km l' tabs'
    (stored_at (lazy_mem (pm (ex_mem 12)) ∅) 4095 [1; 2]).
Proof.
  apply (copy_to_user KERNLINK ex_end_ok ex_ctx (ex_ukernel 12 (2 * PGSIZE)) 0 (ex_uproc (2 * PGSIZE)) (ex_frees 12) ∅ ltac:(apply ex_uspace; lia) 4095 [1; 2]).
  - lia.
  - cbn. addr.
  - repeat (apply Forall_cons; split; [word|]). apply Forall_nil. exact I.
  - rewrite ex_frees_length. cbn [length]. addr.
Defined.

(** ** The size of a process is not bounded *)

(** The trap frame is neither free nor a part of the user's memory. *)
Definition tf_apart (s : kernel) (pr : proc) (l : list Z) (tabs : gmap Z Z) : Prop :=
  forall a, p_tf pr + TF_esp <= a < p_tf pr + TF_esp + 4 -> pg a ∉ l /\ ~ owns (pm (k_mem s)) (p_pgdir pr) tabs (pg a).

Lemma esp_kept kend c s p pr l tabs km l' tabs' u : accessed kend c s p pr l tabs km l' tabs' u -> tf_apart s pr l tabs ->
  rd32 (pm km) (p_tf pr + TF_esp) = user_esp s pr.
Proof.
  intros Ha Ht. unfold user_esp, rd32.
  assert (H : forall i, 0 <= i < 4 -> rd (pm km) (p_tf pr + TF_esp + i) = rd (pm (k_mem s)) (p_tf pr + TF_esp + i)).
  { intros i Hi. destruct (Ht (p_tf pr + TF_esp + i)); [lia|]. by apply (ac_off _ _ _ _ _ _ _ _ _ _ _ Ha). }
  pose proof (H 0 ltac:(lia)) as H0. rewrite Z.add_0_r in H0. by rewrite H0, !H by lia.
Qed.

(** The process after [sbrk]. *)
Lemma sys_sbrk_run kend c s p pr l tabs n : end_ok kend -> uspace kend c s p pr l tabs -> 0 <= p_sz pr <= KERNBASE -> (4 <= length l)%nat ->
  arg (lazy_mem (pm (k_mem s)) tabs) (p_sz pr) (user_esp s pr) 0 = Some n ->
  exists km l' tabs', let pr' := set_p_sz (u32 (p_sz pr + n)) pr in let s' := set_k_procs (<[p := pr']> (k_procs s)) (set_k_mem km s) in
    sys_sbrk kend c s = Done (i32 (p_sz pr)) c s' /\ accessed kend c s p pr l tabs km l' tabs' (lazy_mem (pm (k_mem s)) tabs) /\
    (length l <= 4 + length l')%nat /\ uspace kend c s' p pr' l' tabs'.
Proof.
  intros Hend Hs Hsz Hl Harg. destruct (argint_run kend Hend c s p pr l tabs 0 Hs) as (km & l' & tabs' & E & Ha & Hn); [addr|left; lia|done|].
  rewrite Harg in E. exists km, l', tabs'. intros pr' s'. destruct (us_runs _ _ _ _ _ _ _ Hs) as [Hc Hp].
  split; [|split; [done|split; [done|]]].
  - unfold sys_sbrk, or_fail. rewrite (bind_Done _ _ _ _ _ _ _ E). erewrite bind_myproc by exact (us_runs _ _ _ _ _ _ _ (ac_space _ _ _ _ _ _ _ _ _ _ _ Ha)).
    unfold proc_at. erewrite bind_elem_at by exact Hp. unfold upd_proc. erewrite bind_elem_upd by exact Hp. reflexivity.
  - destruct (ac_space _ _ _ _ _ _ _ _ _ _ _ Ha) as [H1 H2 H3 H4]. split; try done. split; [done|]. cbn.
    apply list_lookup_insert_eq. by apply lookup_lt_Some in Hp.
Qed.

(** C37: [sbrk] lets a process reach kernel memory.  It adds its argument to the
    size of the process without looking at the result; with a size above
    KERNBASE, [argptr] accepts a buffer in the kernel's half of the address
    space, for the next system call to read or to overwrite. *)
Theorem sbrk_exposes_kernel kend c s p pr l tabs (n k i size : Z) : end_ok kend ->
  uspace kend c s p pr l tabs -> tf_apart s pr l tabs -> 0 <= p_sz pr <= KERNBASE -> (8 <= length l)%nat ->
  let u := lazy_mem (pm (k_mem s)) tabs in
  arg u (p_sz pr) (user_esp s pr) 0 = Some n -> arg u (p_sz pr) (user_esp s pr) k = Some i ->
  0 <= n -> KERNBASE <= u32 i -> 0 < size -> u32 i + size <= p_sz pr + n < 2 ^ 32 ->
  exists s' s'', sys_sbrk kend c s = Done (i32 (p_sz pr)) c s' /\ argptr kend k size c s' = Done (Some (u32 i)) c s''.
Proof.
  intros Hend Hs Ht Hsz Hl u Hn Hi Hn0 Hk Hsize Hin.
  destruct (sys_sbrk_run kend c s p pr l tabs n Hend Hs Hsz ltac:(lia) Hn) as (km & l' & tabs' & E & Ha & Hl' & Hs').
  set (pr' := set_p_sz _ pr) in *. set (s' := set_k_procs _ _) in *.
  assert (Hesp : user_esp s' pr' = user_esp s pr) by exact (esp_kept _ _ _ _ _ _ _ _ _ _ _ Ha Ht).
  assert (Hk' : u32 (user_esp s pr + 4 + 4 * k) + 4 <= p_sz pr) by (unfold arg in Hi; case_match eqn:Hb; [by apply Z.leb_le|done]).
  destruct (argptr_run kend Hend c s' p pr' l' tabs' Hs' k size) as (km2 & l2 & tabs2 & E2 & _).
  { cbn. rewrite u32_id; addr. } { right. rewrite Hesp. lia. } { lia. }
  exists s', (set_k_mem km2 s'). split; [done|]. rewrite E2. f_equal.
  assert (Earg : arg (lazy_mem (pm (k_mem s')) tabs') (p_sz pr') (user_esp s' pr') k = Some i).
  { unfold arg in *. rewrite Hesp. set (a := u32 (user_esp s pr + 4 + 4 * k)) in *. cbn [p_sz pr' set_p_sz]. rewrite u32_id by addr.
    rewrite (proj2 (Z.leb_le _ _) Hk') in Hi. rewrite (proj2 (Z.leb_le _ _)) by lia. rewrite <- Hi. f_equal. unfold int_at. do 2 f_equal.
    apply list_fmap_ext. intros j x Hx. apply lookup_seqZ in Hx as [-> Hj]. apply (ac_mem _ _ _ _ _ _ _ _ _ _ _ Ha).
    pose proof (u32_range (user_esp s pr + 4 + 4 * k)). fold a in H. unfold user_addr. word_unfold. lia. }
  rewrite Earg. cbn [p_sz pr' set_p_sz]. rewrite (u32_id (p_sz pr + n)) by addr.
  replace (u32 (i + size)) with (u32 i + size) by addr.
  rewrite (proj2 (Z.ltb_ge _ _)), Z.geb_leb, (proj2 (Z.leb_gt _ _)), Z.gtb_ltb, (proj2 (Z.ltb_ge _ _)) by lia. done.
Qed.

(** The arguments [2^31 - 1] and [KERNBASE] on the stack of the example. *)
Definition ex_args : list Z := [255; 255; 255; 127; 0; 0; 0; 128].

Lemma ex_tf_apart n : (n <= 80)%nat -> tf_apart (ex_ukernel n PGSIZE) (ex_uproc PGSIZE) (ex_frees n) ∅.
Proof.
  intros Hn a Ha. cbn [ex_uproc p_tf set_p_sz set_p_pgdir set_p_tf] in Ha. unfold ex_tf, ex_page, TF_esp in Ha.
  assert (E : pg a = ex_page 90) by (unfold pg, ex_page; addr). rewrite E. split.
  - intros (i & Hi & E')%ex_frees_elem. unfold ex_page in E'. sizes. lia.
  - intros [E'|[(i & Hi)|(va & _ & _ & Hp & _)]]; [|done|done]. cbn in E'. unfold ex_page in E'. sizes. lia.
Qed.

Lemma ex_with_args : exists s l tabs, uspace KERNLINK ex_ctx s 0 (ex_uproc PGSIZE) l tabs /\ tf_apart s (ex_uproc PGSIZE) l tabs /\ (8 <= length l)%nat /\
  arg (lazy_mem (pm (k_mem s)) tabs) PGSIZE (user_esp s (ex_uproc PGSIZE)) 0 = Some (2 ^ 31 - 1) /\
  arg (lazy_mem (pm (k_mem s)) tabs) PGSIZE (user_esp s (ex_uproc PGSIZE)) 1 = Some (- 2 ^ 31).
Proof.
  assert (H20 : (20 <= 80)%nat) by lia. pose proof (ex_uspace 20 PGSIZE H20) as Hs. pose proof (ex_tf_apart 20 H20) as Ht.
  destruct (ustore_bytes_run KERNLINK ex_end_ok ex_args ex_ctx (ex_ukernel 20 PGSIZE) 0 (ex_uproc PGSIZE) (ex_frees 20) ∅ 4 Hs)
    as (km & l & tabs & _ & Ha & Hc); [lia|cbn; addr|repeat (apply Forall_cons; split; [word|]); by apply Forall_nil|
      rewrite ex_frees_length; pose proof (budget_bound (pm (k_mem (ex_ukernel 20 PGSIZE))) ∅ 4 (length ex_args)); cbn [length ex_args] in *; addr|].
  exists (set_k_mem km (ex_ukernel 20 PGSIZE)), l, tabs.
  assert (Eesp : user_esp (set_k_mem km (ex_ukernel 20 PGSIZE)) (ex_uproc PGSIZE) = 0).
  { etransitivity; [exact (esp_kept _ _ _ _ _ _ _ _ _ _ _ Ha Ht)|]. unfold user_esp, rd32. cbn [k_mem ex_ukernel set_k_mem ex_uproc p_tf set_p_sz set_p_pgdir set_p_tf].
    rewrite !(ex_zero 20 90) by (lia || (unfold ex_tf, ex_page, TF_esp; sizes; lia)). done. }
  assert (Eint : forall a, 0 <= a <= 100 -> int_at (lazy_mem (pm km) tabs) a = int_at (stored_at (lazy_mem (pm (ex_mem 20)) ∅) 4 ex_args) a).
  { intros a Ha0. unfold int_at. do 2 f_equal. apply list_fmap_ext. intros j x Hx. apply lookup_seqZ in Hx as [-> Hj].
    apply (ac_mem _ _ _ _ _ _ _ _ _ _ _ Ha). unfold user_addr. sizes. lia. }
  split; [apply Ha|]. split; [|split; [|split]].
  - intros a Hx. destruct (Ht a Hx) as [H1 H2]. assert (Hn : ~ (pg a ∈ l \/ owns (pm km) (p_pgdir (ex_uproc PGSIZE)) tabs (pg a))).
    { rewrite <- (ac_own _ _ _ _ _ _ _ _ _ _ _ Ha). tauto. } cbn [k_mem set_k_mem]. tauto.
  - rewrite ex_frees_length in Hc. pose proof (budget_bound (pm (k_mem (ex_ukernel 20 PGSIZE))) ∅ 4 (length ex_args)). cbn [length ex_args] in *. addr.
  - rewrite Eesp. unfold arg. cbn [k_mem set_k_mem]. change (u32 (0 + 4 + 4 * 0)) with 4. change (4 + 4 <=? PGSIZE) with true. cbv iota. rewrite Eint by lia. reflexivity.
  - rewrite Eesp. unfold arg. cbn [k_mem set_k_mem]. change (u32 (0 + 4 + 4 * 1)) with 8. change (8 + 4 <=? PGSIZE) with true. cbv iota. rewrite Eint by lia. reflexivity.
Qed.

Lemma sbrk_exposes_kernel_witness : exists s s' s'',
  sys_sbrk KERNLINK ex_ctx s = Done PGSIZE ex_ctx s' /\ argptr KERNLINK 1 16 ex_ctx s' = Done (Some KERNBASE) ex_ctx s''.
Proof.
  destruct ex_with_args as (s & l & tabs & Hs & Ht & Hl & H0 & H1). exists s.
  apply (sbrk_exposes_kernel KERNLINK ex_ctx s 0 (ex_uproc PGSIZE) l tabs (2 ^ 31 - 1) 1 (- 2 ^ 31) 16).
  - exact ex_end_ok.
  - exact Hs.
  - exact Ht.
  - cbn [ex_uproc p_sz set_p_sz]. addr.
  - exact Hl.
  - exact H0.
  - exact H1.
  - lia.
  - addr.
  - lia.
  - cbn [ex_uproc p_sz set_p_sz]. addr.
Defined.
