(* ===== verification/Fork.v ===== *)
(** * Forking and reaping processes (src/proc.c)

    [fork] and [wait] over the process table, the page allocator, the address
    spaces, the file table and the inode cache. *)

From S2P Require Import Prelude Layout CString Spinlock Kalloc Vm AddrSpace State Sched Sleeplock Bio Log Fs Pipe File Proc UserMem.

(** ** Running code that fills one entry of the process table *)

Section entry.
Context (c : ctx) (np : nat).

(** The state [s] with [x] as entry [np] of the process table. *)
Definition at_np (x : proc) (s : kernel) : kernel := set_k_procs (<[np := x]> (k_procs s)) s.

Lemma upd_np x g s : (np < length (k_procs s))%nat -> upd_proc np g c (at_np x s) = Done tt c (at_np (g x) s).
Proof using Type.
  intros Hn. unfold upd_proc. erewrite elem_upd_run by (cbn; by apply list_lookup_insert_eq). unfold at_np. cbn. by rewrite list_insert_insert_eq.
Qed.

Lemma bind_upd_np {B} x g (k : unit -> M kernel B) s : (np < length (k_procs s))%nat -> (upd_proc np g ≫= k) c (at_np x s) = k tt c (at_np (g x) s).
Proof using Type. intros Hn. by erewrite bind_Done by by apply upd_np. Qed.

Lemma bind_proc_np {B} x (k : proc -> M kernel B) s : (np < length (k_procs s))%nat -> (proc_at np ≫= k) c (at_np x s) = k x c (at_np x s).
Proof using Type. intros Hn. unfold proc_at. erewrite bind_elem_at; [done|]. cbn. by apply list_lookup_insert_eq. Qed.

Lemma bind_mem {B} f x (k : unit -> M kernel B) s : (mem_modify f ≫= k) c (at_np x s) = k tt c (at_np x (set_k_mem (set_pm f (k_mem s)) s)).
Proof using Type. reflexivity. Qed.

Lemma bind_zoom {A B} (m : M kmem A) x (k : A -> M kernel B) s a km : m c (k_mem s) = Done a c km ->
  (zoom L_mem m ≫= k) c (at_np x s) = k a c (at_np x (set_k_mem km s)).
Proof using Type. intros E. erewrite bind_Done by by apply zoom_Done. done. Qed.
End entry.

Lemma at_np_id np x s : k_procs s !! np = Some x -> s = at_np np x s.
Proof. intros Hx. unfold at_np. rewrite list_insert_id by done. by destruct s. Qed.

(** ** File references *)

Lemma filedup_run c s f fl : ftable_lock ∉ held c -> k_files s !! f = Some fl -> 1 <= f_ref fl ->
  filedup f c s = Done f c (set_k_files (<[f := set_f_ref (f_ref fl + 1) fl]> (k_files s)) s).
Proof.
  intros Hl Hf Hr. unfold filedup, file_at. rewrite bind_acquire by done. erewrite bind_elem_at by done. rewrite (proj2 (Z.ltb_ge _ _)) by lia.
  unfold upd_file. erewrite bind_elem_upd by done. erewrite bind_Done by by apply release_acquired. by rewrite ctx_eta.
Qed.

(** The file table with one more reference for each entry of [fs]. *)
Fixpoint dups (fs : list (option nat)) (l : list file) : list file :=
  match fs with
  | [] => l
  | None :: fs' => dups fs' l
  | Some f :: fs' => dups fs' (alter (fun fl => set_f_ref (f_ref fl + 1) fl) f l)
  end.

Definition refs (f : nat) (fs : list (option nat)) : Z := Z.of_nat (length (filter (.= Some f) fs)).

Lemma dups_lookup fs : forall l f, dups fs l !! f = (fun fl => set_f_ref (f_ref fl + refs f fs) fl) <$> l !! f.
Proof.
  induction fs as [|[g|] fs IH]; intros l f; cbn [dups].
  - destruct (l !! f) as [fl|]; [|done]. cbn. rewrite Z.add_0_r. by destruct fl.
  - rewrite IH. unfold refs. rewrite filter_cons. destruct (decide (g = f)) as [->|Hne].
    + rewrite decide_True by done. rewrite list_lookup_alter_eq. destruct (l !! f) as [fl|]; [|done]. cbn. f_equal. unfold set_f_ref. cbn. f_equal. lia.
    + rewrite decide_False by congruence. by rewrite list_lookup_alter_ne.
  - rewrite IH. unfold refs. by rewrite filter_cons, decide_False.
Qed.

(** [fs] written over a table from entry [i] on. *)
Fixpoint overlay (fs : list (option nat)) (i : nat) (l : list (option nat)) : list (option nat) :=
  match fs with
  | [] => l
  | None :: fs' => overlay fs' (S i) l
  | Some f :: fs' => overlay fs' (S i) (<[i := Some f]> l)
  end.

Lemma overlay_empty fs : forall pre, overlay fs (length pre) (pre ++ replicate (length fs) None) = pre ++ fs.
Proof.
  induction fs as [|o fs IH]; intros pre; cbn [overlay length replicate]; [done|].
  assert (E : forall l : list (option nat), pre ++ o :: l = (pre ++ [o]) ++ l) by (intros l; by rewrite <- app_assoc).
  assert (El : S (length pre) = length (pre ++ [o])) by (rewrite length_app; cbn; lia).
  destruct o as [f|].
  - rewrite insert_app_r_alt by lia. rewrite Nat.sub_diag. cbn [insert list_insert]. rewrite El, (E (replicate (length fs) None)), (E fs). apply IH.
  - rewrite El, (E (replicate (length fs) None)), (E fs). apply IH.
Qed.

(** Every file in [fs] is open. *)
Definition files_open (l : list file) (fs : list (option nat)) : Prop :=
  forall f, Some f ∈ fs -> exists fl, l !! f = Some fl /\ 1 <= f_ref fl.

Lemma dup_files_run c np fs : ftable_lock ∉ held c -> forall i x s, files_open (k_files s) fs -> (np < length (k_procs s))%nat ->
  dup_files fs i np c (at_np np x s) = Done tt c (at_np np (set_p_ofile (overlay fs i (p_ofile x)) x) (set_k_files (dups fs (k_files s)) s)).
Proof.
  intros Hl. induction fs as [|[f|] fs IH]; intros i x s Ho Hn; cbn [dup_files dups overlay].
  - unfold at_np. cbn. f_equal. destruct s, x. reflexivity.
  - destruct (Ho f) as (fl & Hf & Hr); [by left|]. erewrite bind_Done by (by apply filedup_run; [|cbn; exact Hf|]).
    change (set_k_files ?l (at_np np x s)) with (at_np np x (set_k_files l s)). rewrite bind_upd_np by done.
    change (k_files (at_np np x s)) with (k_files s). rewrite IH; [| |done].
    + cbn [p_ofile set_p_ofile k_files set_k_files]. assert (E : <[f := set_f_ref (f_ref fl + 1) fl]> (k_files s) = alter (fun fl => set_f_ref (f_ref fl + 1) fl) f (k_files s)).
      { apply list_eq. intros j. destruct (decide (j = f)) as [->|Hne].
        - rewrite list_lookup_insert_eq, list_lookup_alter_eq, Hf by by apply lookup_lt_Some in Hf. done.
        - by rewrite list_lookup_insert_ne, list_lookup_alter_ne. }
      rewrite E. destruct x. reflexivity.
    + intros g Hg. cbn [k_files set_k_files]. destruct (decide (g = f)) as [->|Hne].
      * rewrite list_lookup_insert_eq by by apply lookup_lt_Some in Hf. eexists. split; [done|]. cbn. lia.
      * rewrite list_lookup_insert_ne by done. apply Ho. by right.
  - apply IH; [|done]. intros g Hg. apply Ho. by right.
Qed.

(** ** allocproc *)

Section fork.
Context `{SyncDisk} `{Devsw} (kend kdata trapret forkret : Z) (c : ctx) (Hh : held c = ∅).

Lemma lock_free lk : lk ∉ held c.
Proof using Hh. rewrite Hh. apply not_elem_of_empty. Qed.

(** The top of a kernel stack at page [f]. *)
Definition tf_of (f : Z) : Z := f + KSTACKSIZE - TF_SIZE.

Definition stack_init (f : Z) (m : mem) : mem :=
  let sp := tf_of f - 4 in
  wr32 (memset (wr32 m sp trapret) (sp - CONTEXT_SIZE) 0 CONTEXT_SIZE) (sp - CONTEXT_SIZE + CONTEXT_eip) forkret.

Lemma stack_init_out f m a : ~ in_page f a -> rd (stack_init f m) a = rd m a.
Proof using Type.
  intros Ha. unfold in_page in Ha. unfold stack_init, tf_of, TF_SIZE, CONTEXT_SIZE, CONTEXT_eip in *.
  rewrite rd_wr32_ne by (unfold KSTACKSIZE, PGSIZE in *; lia). rewrite rd_memset, decide_False by (unfold KSTACKSIZE, PGSIZE in *; lia).
  apply rd_wr32_ne. unfold KSTACKSIZE, PGSIZE in *. lia.
Qed.

Lemma stack_init_ok f m : mem_ok m -> mem_ok (stack_init f m).
Proof using Type. intros Hm. unfold stack_init. apply mem_ok_wr32, mem_ok_memset; [done|]. by apply mem_ok_wr32. Qed.

(** The new entry. *)
Definition embryo (f pid t : Z) (q : proc) : proc :=
  set_p_wait_time 0 (set_p_creation_time t (set_p_context (tf_of f - 4 - CONTEXT_SIZE) (set_p_tf (tf_of f)
    (set_p_kstack f (set_p_pid pid (set_p_state EMBRYO q)))))).

Context (s : kernel) (np : nat) (q : proc) (Hfind : find_proc is_unused (k_procs s) 0 = Some np) (Hq : k_procs s !! np = Some q) (Hpid : k_nextpid s < 2 ^ 31 - 1).

Lemma np_length : (np < length (k_procs s))%nat.
Proof using Hq. by apply lookup_lt_Some in Hq. Qed.

Definition numbered (s : kernel) : kernel := set_k_nextpid (k_nextpid s + 1) s.

Lemma allocproc_run f km : kalloc c (k_mem s) = Done f c km -> f <> 0 ->
  allocproc trapret forkret c s = Done (Some np) c (at_np np (embryo f (k_nextpid s) (k_ticks s) q) (set_k_mem (set_pm (stack_init f) km) (numbered s))).
Proof using Hh Hfind Hq Hpid.
  intros E Hf. unfold allocproc. rewrite bind_acquire by apply lock_free. rewrite bind_gets, Hfind. rewrite (at_np_id np q s Hq) at 1.
  rewrite bind_upd_np by apply np_length. rewrite bind_gets. rewrite bind_upd_np by apply np_length. rewrite bind_incr_int by exact Hpid. rewrite bind_modify.
  change (k_nextpid (at_np np ?x s)) with (k_nextpid s). change (set_k_nextpid ?v (at_np np ?x s)) with (at_np np x (set_k_nextpid v s)).
  rewrite bind_release by apply lock_free. rewrite (bind_zoom c np kalloc _ _ _ f km) by exact E. rewrite bind_upd_np by apply np_length.
  rewrite (proj2 (Z.eqb_neq f 0) Hf). cbv zeta. rewrite bind_upd_np by apply np_length. rewrite bind_mem, bind_upd_np by apply np_length. rewrite !bind_mem.
  rewrite bind_acquire by apply lock_free. rewrite bind_gets. rewrite bind_upd_np by apply np_length. rewrite bind_upd_np by apply np_length.
  rewrite bind_release by apply lock_free. reflexivity.
Qed.

Lemma allocproc_nomem km : kalloc c (k_mem s) = Done 0 c km ->
  allocproc trapret forkret c s = Done None c (at_np np (set_p_state UNUSED (set_p_kstack 0 (set_p_pid (k_nextpid s) (set_p_state EMBRYO q)))) (set_k_mem km (numbered s))).
Proof using Hh Hfind Hq Hpid.
  intros E. unfold allocproc. rewrite bind_acquire by apply lock_free. rewrite bind_gets, Hfind. rewrite (at_np_id np q s Hq) at 1.
  rewrite bind_upd_np by apply np_length. rewrite bind_gets. rewrite bind_upd_np by apply np_length. rewrite bind_incr_int by exact Hpid. rewrite bind_modify.
  change (k_nextpid (at_np np ?x s)) with (k_nextpid s). change (set_k_nextpid ?v (at_np np ?x s)) with (at_np np x (set_k_nextpid v s)).
  rewrite bind_release by apply lock_free. rewrite (bind_zoom c np kalloc _ _ _ 0 km) by exact E. rewrite bind_upd_np by apply np_length.
  change (0 =? 0) with true. cbn iota. by rewrite bind_upd_np by apply np_length.
Qed.
End fork.

(** ** The memory of parent and child *)

Section fork_memory.
Context (kend kdata : Z) (Hend : end_ok kend) (Hdata : data_ok kdata) (trapret forkret : Z) (c : ctx) (Hc : kmem_lock ∉ held c).
Context (m : kmem) (f : Z) (l : list Z) (pgdir : Z) (tabs : gmap Z Z) (Hs : space kend m (f :: l) pgdir tabs).

(** The memory after [allocproc], which took page [f] for the kernel stack. *)
Definition with_stack : kmem := set_pm (stack_init trapret forkret f) (set_freelist (rd32 (pm m) f) m).

Lemma with_stack_space : kalloc c m = Done f c (set_freelist (rd32 (pm m) f) m) /\ f <> 0 /\ space kend with_stack l pgdir tabs /\
  spare kend with_stack l pgdir tabs f /\ f ∉ l /\ page_ok kend f.
Proof using Hend Hc Hs.
  destruct (take_page kend Hend c Hc m f l pgdir tabs Hs) as (E & Hf & Hs1 & Hsp). pose proof Hsp as (Hp & Hl & _).
  destruct (fill_page kend Hend _ l pgdir tabs f (stack_init trapret forkret f (pm (set_freelist (rd32 (pm m) f) m))) Hs1 Hsp) as (Hs2 & Hsp2 & _).
  - apply stack_init_ok. apply (vs_kmem _ _ _ _ _ (proj1 Hs)).
  - intros a. apply stack_init_out.
  - by split_and!.
Qed.

Lemma with_stack_off : same_off (f :: l) (pm m) (pm with_stack).
Proof using Hend Hc Hs.
  intros a Ha. apply stack_init_out. intros Hin. apply Ha. destruct with_stack_space as (_ & _ & _ & _ & _ & Hp). apply in_page_pg in Hin as ->; [by left|apply Hp].
Qed.

Lemma same_off_trans L m1 m2 m3 : same_off L m1 m2 -> same_off L m2 m3 -> same_off L m1 m3.
Proof using Type. intros H1 H2 a Ha. rewrite H2 by done. by apply H1. Qed.

Lemma same_off_cons m1 m2 : same_off l m1 m2 -> same_off (f :: l) m1 m2.
Proof using Type. intros H1 a Ha. apply H1. intros Hin. apply Ha. by right. Qed.

(** When [copyuvm] fails, the stack goes back too. *)
Lemma unstack m2 : back kend l (pm with_stack) m2 -> kfree kend f c m2 = Done tt c (kfreed f m2) /\ back kend (f :: l) (pm m) (kfreed f m2).
Proof using Hend Hc Hs.
  destruct with_stack_space as (_ & _ & _ & _ & Hfl & Hp). intros (l2 & Hk & Hl2 & Hm2).
  split; [apply (kfree_run kend Hend); [done|by intros _]|]. exists (f :: l2). split; [|split].
  - apply (kfreed_ok kend Hend); [done|done|]. by rewrite Hl2.
  - intros p. rewrite !elem_of_cons, Hl2. tauto.
  - intros a Ha. assert (Hout : ~ in_page f a) by (intros Hin; apply Ha; apply in_page_pg in Hin as ->; [by left|apply Hp]).
    rewrite (kfreed_mem kend) by done. rewrite Hm2 by (intros Hin; apply Ha; by right). by apply with_stack_off.
Qed.

(** The trap frame of the child is that of the parent at [tf], with result 0. *)
Definition with_frame (tf : Z) (m2 : kmem) : kmem :=
  set_pm (fun m => wr32 m (tf_of f + TF_eax) 0) (set_pm (fun m => memmove m (tf_of f) tf TF_SIZE) m2).

Record forked (sz tf : Z) (m' : kmem) (d : Z) : Prop := Forked {
  fk_space : exists l' tabs', space kend m' l' d tabs' /\ (forall p, p ∈ f :: l <-> p = f \/ p ∈ l' \/ owns (pm m') d tabs' p) /\
    (forall x, user_addr x -> umem (pm m') tabs' x = if decide (pg x < sz) then umem (pm m) tabs x else None);
  fk_parent : forall x, user_addr x -> umem (pm m') tabs x = umem (pm m) tabs x;
  fk_frame : forall i, 0 <= i < TF_SIZE -> rd (pm m') (tf_of f + i) = if decide (TF_eax <= i < TF_eax + 4) then 0 else rd (pm m) (tf + i);
  fk_off : same_off (f :: l) (pm m) (pm m');
}.

Lemma with_frame_out tf m2 a : ~ in_page f a -> mem_ok (pm m2) -> rd (pm (with_frame tf m2)) a = rd (pm m2) a.
Proof using Type.
  intros Ha Hm. unfold in_page, tf_of in *. cbn [pm with_frame set_pm]. rewrite rd_wr32_ne by (unfold tf_of, TF_eax, TF_SIZE, KSTACKSIZE, PGSIZE in *; lia).
  rewrite rd_memmove by done. rewrite decide_False; [done|]. unfold tf_of, TF_SIZE, KSTACKSIZE, PGSIZE in *. lia.
Qed.

Lemma child_forked sz tf m2 d j l' tabs' : 0 <= sz -> child kend kdata l (pm with_stack) tabs j m2 l' d tabs' -> sz <= j -> page_va j -> j <= 0 \/ j < sz + PGSIZE ->
  (forall a, tf <= a < tf + TF_SIZE -> pg a ∉ f :: l) -> forked sz tf (with_frame tf m2) d.
Proof using Hend Hc Hs.
  intros Hsz [Csp Cpg Cm Cu _ _] Hj Hpj Hj' Htf. destruct with_stack_space as (_ & _ & _ & _ & Hfl & Hp).
  assert (Hm2 : mem_ok (pm m2)) by apply (vs_kmem _ _ _ _ _ (proj1 Csp)).
  assert (Hspare : spare kend m2 l' d tabs' f) by (split; [done|]; split; intros Hin; apply Hfl, Cpg; [by left|by right]).
  assert (Hout : forall a, ~ in_page f a -> rd (pm (with_frame tf m2)) a = rd (pm m2) a) by (intros a Ha; by apply with_frame_out).
  assert (Hm' : mem_ok (pm (with_frame tf m2))) by (cbn; by apply mem_ok_wr32, mem_ok_memmove).
  assert (Hoff : same_off (f :: l) (pm m) (pm (with_frame tf m2))).
  { eapply same_off_trans; [apply with_stack_off|]. eapply same_off_trans; [apply same_off_cons, Cm|]. intros a Ha. apply Hout.
    intros Hin. apply Ha. apply in_page_pg in Hin as ->; [by left|apply Hp]. }
  destruct (fill_page kend Hend m2 l' d tabs' f (pm (with_frame tf m2)) Csp Hspare Hm' Hout) as (Hs3 & _ & Hv3).
  split; [| | |exact Hoff].
  - exists l', tabs'. split; [exact Hs3|]. split.
    + intros p. rewrite elem_of_cons, Cpg. by rewrite (owns_ext (pm m2) (pm (with_frame tf m2)) d tabs' p Hv3).
    + intros x Hx. rewrite (umem_fill kend m2 l' d tabs' f) by done. rewrite Cu by done. pose proof (proj1 (proj1 (pg_va x Hx))) as [].
      destruct Hpj as [_ Hpj]. assert (aligned (pg x)) by (unfold pg; addr). assert (pg x < j <-> pg x < sz) as E by addr.
      destruct (space_same_off kend m (f :: l) pgdir tabs (pm with_stack) Hs with_stack_off) as (_ & _ & Hu). repeat case_decide; try tauto. by apply Hu.
  - apply (space_same_off kend m (f :: l) pgdir tabs _ Hs Hoff).
  - intros i Hi. unfold with_frame. cbn [pm set_pm]. rewrite rd_wr32. destruct (decide (tf_of f + TF_eax <= tf_of f + i < _)).
    + rewrite decide_True by lia. by rewrite Z.div_0_l by lia.
    + rewrite decide_False by lia. rewrite rd_memmove by done. rewrite decide_True by lia. replace (tf + (tf_of f + i - tf_of f)) with (tf + i) by lia.
      rewrite Cm by (intros Hin; apply (Htf (tf + i)); [lia|by right]). apply with_stack_off, Htf. lia.
Qed.
End fork_memory.

(** ** fork *)

Lemma idup_run c s i ip : icache_lock ∉ held c -> k_inodes s !! i = Some ip ->
  idup i c s = Done i c (set_k_inodes (<[i := set_i_ref (i_ref ip + 1) ip]> (k_inodes s)) s).
Proof.
  intros Hl Hi. unfold idup. rewrite bind_acquire by done. unfold upd_inode. erewrite bind_elem_upd by done.
  erewrite bind_Done by by apply release_acquired. by rewrite ctx_eta.
Qed.

Lemma bind_cur {B} c s p pr (k : proc -> M kernel B) : runs c s p pr -> (proc_at p ≫= k) c s = k pr c s.
Proof. intros [_ Hp]. unfold proc_at. by erewrite bind_elem_at by exact Hp. Qed.

(** The entry of a child that shares the files and the directory of [cp]. *)
Record child_of (me : nat) (cp : proc) (d f pid : Z) (x : proc) : Prop := ChildOf {
  co_state : p_state x = RUNNABLE;
  co_pid : p_pid x = pid;
  co_parent : p_parent x = Some me;
  co_pgdir : p_pgdir x = d;
  co_size : p_sz x = p_sz cp;
  co_stack : p_kstack x = f /\ p_tf x = tf_of f /\ p_context x = tf_of f - 4 - CONTEXT_SIZE;
  co_files : p_ofile x = p_ofile cp;
  co_cwd : p_cwd x = p_cwd cp;
  co_name : p_name x = copy_name (p_name cp);
  co_priority : valid_priority x = true;
}.

Section forking.
Context (kend kdata : Z) (Hend : end_ok kend) (Hdata : data_ok kdata) (trapret forkret : Z) (c : ctx) (Hh : held c = ∅).
Context (s : kernel) (me np : nat) (cp q : proc) (tabs : gmap Z Z) (cwd : nat) (ip : inode).
Context (Hrun : runs c s me cp) (Hst : p_state cp = RUNNING).
Context (Hfind : find_proc is_unused (k_procs s) 0 = Some np) (Hq : k_procs s !! np = Some q) (Hnof : p_ofile q = replicate (length (p_ofile cp)) None) (Hpid : k_nextpid s < 2 ^ 31 - 1).
Context (Hopen : files_open (k_files s) (p_ofile cp)) (Hcwd : p_cwd cp = Some cwd) (Hip : k_inodes s !! cwd = Some ip).

(** [fork] when there is no memory for the address space. *)
Lemma fork_nomem f m2 : copyuvm kend kdata (p_pgdir cp) (p_sz cp) c (set_pm (stack_init trapret forkret f) (set_freelist (rd32 (pm (k_mem s)) f) (k_mem s))) = Done 0 c m2 ->
  kalloc c (k_mem s) = Done f c (set_freelist (rd32 (pm (k_mem s)) f) (k_mem s)) -> f <> 0 -> kfree kend f c m2 = Done tt c (kfreed f m2) ->
  fork kend kdata trapret forkret c s = Done (-1) c
    (at_np np (set_p_state UNUSED (set_p_kstack 0 (set_p_pgdir 0 (embryo f (k_nextpid s) (k_ticks s) q)))) (set_k_mem (kfreed f m2) (numbered s))).
Proof using Hh Hrun Hfind Hq Hpid.
  intros E1 E0 Hf E2. unfold fork. erewrite bind_myproc by exact Hrun. erewrite bind_cur by exact Hrun.
  erewrite bind_Done by (by apply (allocproc_run trapret forkret c Hh s np q Hfind Hq Hpid f _ E0)).
  set (x0 := embryo f (k_nextpid s) (k_ticks s) q). set (s1 := set_k_mem _ (numbered s)).
  assert (Hn : forall s', k_procs s' = k_procs s -> (np < length (k_procs s'))%nat) by (intros s' ->; by apply (np_length s np q)).
  cbv iota beta. rewrite (bind_zoom c np _ x0 _ s1 0 m2) by exact E1. rewrite bind_upd_np by by apply Hn. rewrite bind_proc_np by by apply Hn.
  change (0 =? 0) with true. cbv iota. change (p_kstack (set_p_pgdir 0 x0)) with f. rewrite (bind_zoom c np _ _ _ _ tt (kfreed f m2)) by exact E2.
  rewrite bind_upd_np by by apply Hn. by rewrite bind_upd_np by by apply Hn.
Qed.

(** The rest of [fork] once the child has its memory. *)
Lemma fork_tail f d m2 : d <> 0 -> copyuvm kend kdata (p_pgdir cp) (p_sz cp) c (set_pm (stack_init trapret forkret f) (set_freelist (rd32 (pm (k_mem s)) f) (k_mem s))) = Done d c m2 ->
  kalloc c (k_mem s) = Done f c (set_freelist (rd32 (pm (k_mem s)) f) (k_mem s)) -> f <> 0 ->
  exists x, fork kend kdata trapret forkret c s = Done (k_nextpid s) c
      (at_np np x (set_k_inodes (<[cwd := set_i_ref (i_ref ip + 1) ip]> (k_inodes s)) (set_k_files (dups (p_ofile cp) (k_files s))
        (set_k_mem (with_frame f (p_tf cp) m2) (numbered s))))) /\ child_of me cp d f (k_nextpid s) x.
Proof using Hh Hrun Hfind Hq Hnof Hpid Hopen Hcwd Hip.
  intros Hd E1 E0 Hf. unfold fork. erewrite bind_myproc by exact Hrun. erewrite bind_cur by exact Hrun.
  erewrite bind_Done by (by apply (allocproc_run trapret forkret c Hh s np q Hfind Hq Hpid f _ E0)).
  set (x0 := embryo f (k_nextpid s) (k_ticks s) q). set (s1 := set_k_mem _ (numbered s)).
  assert (Hn : forall s', k_procs s' = k_procs s -> (np < length (k_procs s'))%nat) by (intros s' ->; by apply (np_length s np q)).
  cbv iota beta. rewrite (bind_zoom c np _ x0 _ s1 d m2) by exact E1. rewrite bind_upd_np by by apply Hn. rewrite bind_proc_np by by apply Hn.
  rewrite (proj2 (Z.eqb_neq d 0) Hd). rewrite bind_upd_np by by apply Hn. rewrite bind_upd_np by by apply Hn. rewrite !bind_mem.
  set (x1 := set_p_parent (Some me) (set_p_sz (p_sz cp) (set_p_pgdir d x0))). set (s2 := set_k_mem _ (set_k_mem _ _)).
  erewrite bind_Done by (apply (dup_files_run c np (p_ofile cp) (lock_free c Hh _) 0 x1 s2); [exact Hopen|by apply Hn]).
  change (p_ofile x1) with (p_ofile q). rewrite Hnof. pose proof (overlay_empty (p_ofile cp) []) as Hov. cbn [length app] in Hov. rewrite Hov. clear Hov.
  set (x2 := set_p_ofile (p_ofile cp) x1). set (s3 := set_k_files _ s2). rewrite Hcwd.
  erewrite bind_Done by (apply (idup_run c (at_np np x2 s3) cwd ip (lock_free c Hh _)); exact Hip).
  change (set_k_inodes ?l (at_np np x2 s3)) with (at_np np x2 (set_k_inodes l s3)). set (s4 := set_k_inodes _ s3).
  rewrite bind_upd_np by by apply Hn. rewrite bind_upd_np by by apply Hn. rewrite bind_proc_np by by apply Hn. cbv zeta.
  set (x3 := set_p_name _ (set_p_cwd _ x2)). set (x4 := if valid_priority x3 then x3 else set_p_priority MEDIUM x3).
  assert (Ew : (when (negb (valid_priority x3)) (upd_proc np (set_p_priority MEDIUM))) c (at_np np x3 s4) = Done tt c (at_np np x4 s4)).
  { unfold x4. destruct (valid_priority x3); [done|]. cbn [negb when]. by apply upd_np, Hn. }
  erewrite bind_Done by exact Ew. rewrite bind_acquire by apply (lock_free c Hh). rewrite bind_gets.
  rewrite bind_upd_np by by apply Hn. rewrite bind_upd_np by by apply Hn. erewrite bind_Done by (apply release_acquired, (lock_free c Hh)). rewrite ctx_eta.
  eexists. split; [reflexivity|].
  assert (Hv : valid_priority (set_p_state RUNNABLE (set_p_start_time (k_ticks s) x4)) = true).
  { change (valid_priority x4 = true). unfold x4. by destruct (valid_priority x3) eqn:E. }
  split; try exact Hv; unfold x4; destruct (valid_priority x3); try reflexivity; try (by rewrite Hcwd); by split.
Qed.
End forking.

(** [fork] fails: the pages it took are back, and nothing else has changed but
    the next process number and fields of an unused entry. *)
Record fork_failed (kend : Z) (L : list Z) (s s' : kernel) : Prop := ForkFailed {
  ff_mem : back kend L (pm (k_mem s)) (k_mem s');
  ff_used : forall i pr, k_procs s !! i = Some pr -> p_state pr <> UNUSED -> k_procs s' !! i = Some pr;
  ff_unused : forall i pr, k_procs s !! i = Some pr -> p_state pr = UNUSED -> exists pr', k_procs s' !! i = Some pr' /\ p_state pr' = UNUSED;
  ff_files : k_files s' = k_files s;
  ff_inodes : k_inodes s' = k_inodes s;
}.

Lemma back_self kend s L pgdir tabs : space kend s L pgdir tabs -> back kend L (pm s) s.
Proof. intros Hs. exists L. split; [apply (vs_kmem _ _ _ _ _ (proj1 Hs))|done]. Qed.

Lemma failed_at kend L s np q x m' : k_procs s !! np = Some q -> p_state q = UNUSED -> p_state x = UNUSED -> back kend L (pm (k_mem s)) m' ->
  fork_failed kend L s (at_np np x (set_k_mem m' (numbered s))).
Proof.
  intros Hq Hu Hx Hb. pose proof (lookup_lt_Some _ _ _ Hq) as Hlen. split; [exact Hb| | |done|done].
  - intros i pr Hi Hs. cbn. rewrite list_lookup_insert_ne; [done|]. intros <-. congruence.
  - intros i pr Hi Hs. cbn. destruct (decide (np = i)) as [<-|Hne]; [rewrite list_lookup_insert_eq by done; by exists x|].
    rewrite list_lookup_insert_ne by done. by exists pr.
Qed.

(** C7: [fork] makes a copy of the calling process, or nothing, if all pages
    below its size are present ([copyuvm] panics otherwise) and the counter of the
    process numbers has not reached its end.  It returns -1, and all pages are free
    that were free before, only if no entry is unused or no more pages are free
    than the kernel stack, the kernel's mappings and two for each page of the
    process need.  Otherwise it returns the
    process number of a new runnable child in an entry that was unused, whose
    memory reads as that of the parent, whose trap frame is that of the parent
    with result 0, and which shares the parent's open files and directory, their
    reference counts adjusted; the memory of the parent is as before. *)
Theorem fork_copies (kend kdata trapret forkret : Z) (c : ctx) (s : kernel) (me : nat) (cp : proc) (L : list Z) (tabs : gmap Z Z) (cwd : nat) (ip : inode) :
  end_ok kend -> data_ok kdata -> held c = ∅ -> runs c s me cp -> p_state cp = RUNNING -> k_nextpid s < 2 ^ 31 - 1 ->
  space kend (k_mem s) L (p_pgdir cp) tabs -> 0 <= p_sz cp <= KERNBASE -> (forall va, page_va va -> va < p_sz cp -> present (pm (k_mem s)) tabs va = true) ->
  (forall a, p_tf cp <= a < p_tf cp + TF_SIZE -> pg a ∉ L) ->
  (forall i q, k_procs s !! i = Some q -> p_state q = UNUSED -> p_ofile q = replicate (length (p_ofile cp)) None) ->
  files_open (k_files s) (p_ofile cp) -> p_cwd cp = Some cwd -> k_inodes s !! cwd = Some ip ->
  exists r s', fork kend kdata trapret forkret c s = Done r c s' /\
    ((r = -1 /\ fork_failed kend L s s' /\
      ((forall i q, k_procs s !! i = Some q -> p_state q <> UNUSED) \/ Z.of_nat (length L) <= 66 + 2 * pages_of (p_sz cp))) \/
     (r = k_nextpid s /\ exists np q x d f l, L = f :: l /\ k_procs s !! np = Some q /\ p_state q = UNUSED /\ np <> me /\
        k_procs s' = <[np := x]> (k_procs s) /\ child_of me cp d f r x /\
        forked kend (k_mem s) f l tabs (p_sz cp) (p_tf cp) (k_mem s') d /\
        (forall j fl, k_files s !! j = Some fl -> k_files s' !! j = Some (set_f_ref (f_ref fl + refs j (p_ofile cp)) fl)) /\
        k_inodes s' = <[cwd := set_i_ref (i_ref ip + 1) ip]> (k_inodes s) /\ k_nextpid s' = r + 1)).
Proof.
  intros He Hd Hh Hrun Hst Hpid Hs Hsz Hall Htf Hnof Hopen Hcwd Hip. assert (Hc : kmem_lock ∉ held c) by (rewrite Hh; apply not_elem_of_empty).
  assert (Hpages : 0 <= pages_of (p_sz cp)) by (unfold pages_of; addr).
  assert (E0 : forall r, allocproc trapret forkret c s = r -> fork kend kdata trapret forkret c s = match r with Done None c' s' => Done (-1) c' s' | _ => fork kend kdata trapret forkret c s end).
  { intros r <-. destruct (allocproc trapret forkret c s) as [[np|] c' s'| | |] eqn:E; try done. unfold fork. erewrite bind_myproc by exact Hrun. erewrite bind_cur by exact Hrun.
    by erewrite bind_Done by exact E. }
  destruct (find_proc is_unused (k_procs s) 0) as [np|] eqn:Hfind.
  - destruct (proj1 (find_proc_Some _ _ _ _) Hfind) as (q & _ & Hq & Hu & _). rewrite Nat.sub_0_r in Hq. apply bool_decide_eq_true in Hu.
    assert (Hnm : np <> me) by (intros ->; rewrite (proj2 Hrun) in Hq; injection Hq as <-; congruence).
    destruct L as [|f l].
    + rewrite (E0 _ (allocproc_nomem trapret forkret c Hh s np q Hfind Hq Hpid _ (no_page kend He c Hc _ _ _ Hs))). eexists _, _. split; [reflexivity|]. left. split; [done|].
      split; [eapply failed_at; [exact Hq|done|done|by eapply back_self]|right; cbn; lia].
    + destruct (with_stack_space kend He trapret forkret c Hc (k_mem s) f l (p_pgdir cp) tabs Hs) as (Ea & Hf & Hs1 & _).
      destruct (copyuvm_run kend kdata He c Hc Hd _ l _ tabs (p_sz cp) Hs1 Hsz) as (d & m2 & Ec & Hcase).
      { intros va Hva Hlt. destruct (space_same_off kend _ _ _ _ _ Hs (with_stack_off kend He trapret forkret c Hc (k_mem s) f l (p_pgdir cp) tabs Hs)) as (_ & Hv & _).
        unfold present. rewrite Hv. by apply Hall. }
      destruct Hcase as [(-> & Hb & Hn)|(Hnz & j & l' & tabs' & Hch & Hj & Hpj & Hj')].
      * destruct (unstack kend He trapret forkret c Hc (k_mem s) f l (p_pgdir cp) tabs Hs m2 Hb) as [Ek Hb'].
        eexists _, _. split; [by apply (fork_nomem kend kdata trapret forkret c Hh s me np cp q Hrun Hfind Hq Hpid f m2)|]. left. split; [done|].
        split; [eapply failed_at; [exact Hq|done|done|exact Hb']|right; cbn [length]; lia].
      * destruct (fork_tail kend kdata trapret forkret c Hh s me np cp q cwd ip Hrun Hfind Hq (Hnof _ _ Hq Hu) Hpid Hopen Hcwd Hip f d m2 Hnz Ec Ea Hf) as (x & E & Hx).
        eexists _, _. split; [exact E|]. right. split; [done|]. exists np, q, x, d, f, l. do 4 (split; [done|]). split; [done|]. split; [done|].
        split; [by eapply (child_forked kend kdata He trapret forkret c Hc); [exact Hs|lia|exact Hch|..]|].
        split; [|done]. intros i fl Hi. cbn. by rewrite dups_lookup, Hi.
  - assert (Ea : allocproc trapret forkret c s = Done None c s).
    { unfold allocproc. rewrite bind_acquire by (rewrite Hh; apply not_elem_of_empty). rewrite bind_gets, Hfind. erewrite bind_Done by (apply release_acquired; rewrite Hh; apply not_elem_of_empty). by rewrite ctx_eta. }
    rewrite (E0 _ Ea). eexists _, _. split; [reflexivity|]. left. split; [done|]. split.
    + split; try done; [by eapply back_self|]. intros i pr Hi Hs'. by exists pr.
    + left. intros i q Hi Hu. pose proof (proj1 (find_proc_None _ _ _) Hfind i q Hi) as Hn. by apply bool_decide_eq_false in Hn.
Qed.

(** A process with one page forks; entry 1 becomes its child. *)
Lemma fork_copies_witness : exists s s' x, runs ex_idle s 0 (set_p_sz 100 (set_p_tf (ex_page 3) (set_p_cwd (Some 0%nat) (set_p_pgdir (ex_page 0) ex_proc)))) /\
  fork KERNLINK (ex_page 1) 0 0 ex_idle s = Done 2 ex_idle s' /\ k_procs s' !! 1%nat = Some x /\ p_state x = RUNNABLE /\ p_pid x = 2 /\ p_sz x = 100.
Proof.
  set (cp := set_p_sz 100 (set_p_tf (ex_page 3) (set_p_cwd (Some 0%nat) (set_p_pgdir (ex_page 0) ex_proc)))). set (q := set_p_state UNUSED ex_proc).
  set (ip := Inode ROOTDEV 1 1 (SleepLock false 0) true T_DIR 0 0 1 0 []).
  destruct ex_user as (m & L & tabs & Hs & Hp & HL & Hlo).
  set (s := set_k_inodes [ip] (set_k_mem m (set_k_procs [cp; q] ex_kernel))). exists s.
  destruct (fork_copies KERNLINK (ex_page 1) 0 0 ex_idle s 0 cp L tabs 0 ip) as (r & s' & E & [(_ & _ & [Hn|Hn])|(-> & np & q' & x & d & f & l & _ & Hq & Hu & Hne & Ep & Hx & _)]).
  - exact ex_end_ok.
  - exact ex_data_ok.
  - reflexivity.
  - by split.
  - reflexivity.
  - reflexivity.
  - exact Hs.
  - cbn. addr.
  - intros va [Hu Ha] Hva. change (p_sz cp) with 100 in Hva. replace va with 0 by addr. exact Hp.
  - intros a Ha Hin. change (p_tf cp) with (ex_page 3) in Ha. apply Hlo in Hin as [Hin|Hin]; clear - Ha Hin; unfold pg, ex_page, TF_SIZE in *; addr.
  - intros [|[|i]] q' Hq' Hs'; cbn in Hq'; [injection Hq' as <-; done|by injection Hq' as <-|done].
  - intros f Hf. change (Some f ∈ replicate 16 None) in Hf. by apply elem_of_replicate in Hf as [? _].
  - reflexivity.
  - reflexivity.
  - exfalso. by apply (Hn 1%nat q).
  - exfalso. change (pages_of (p_sz cp)) with 1 in Hn. lia.
  - exists s', x. destruct np as [|[|np]]; [done| |done]. split; [by split|]. split; [exact E|]. split; [by rewrite Ep|].
    destruct Hx as [X1 X2 _ _ X3 _ _ _ _ _]. split; [exact X1|]. split; [exact X2|exact X3].
Defined.

(** ** wait *)

Definition is_child (me : nat) (p : proc) : bool := bool_decide (p_parent p = Some me).

Lemma wait_scan_spec ps me : forall i kids, match wait_scan ps i me kids with
  | inl j => exists p, (i <= j)%nat /\ ps !! (j - i)%nat = Some p /\ is_child me p = true /\ p_state p = ZOMBIE
  | inr b => (forall k p, ps !! k = Some p -> is_child me p = true -> p_state p <> ZOMBIE) /\ (b = true <-> kids = true \/ exists k p, ps !! k = Some p /\ is_child me p = true)
  end.
Proof.
  induction ps as [|p ps IH]; intros i kids; cbn [wait_scan].
  - split; [by intros k p Hk|]. split; [by left|]. intros [?|(k & p & Hk & _)]; [done|]. by rewrite lookup_nil in Hk.
  - fold (is_child me p). destruct (is_child me p) eqn:Hc; cbn [negb]; [destruct (state_is ZOMBIE p) eqn:Hz|].
    + exists p. rewrite Nat.sub_diag. split; [lia|]. split; [done|]. split; [done|]. by apply bool_decide_eq_true in Hz.
    + apply bool_decide_eq_false in Hz. specialize (IH (S i) true). destruct (wait_scan ps (S i) me true) as [j|b].
      * destruct IH as (q & Hle & Hq & ?). exists q. split; [lia|]. by replace (j - i)%nat with (S (j - S i)) by lia.
      * destruct IH as [H1 H2]. split; [intros [|k] q Hk; [by injection Hk as <-|by eapply H1]|]. split; [intros _; right; by exists 0%nat, p|]. intros _. apply H2. by left.
    + specialize (IH (S i) kids). destruct (wait_scan ps (S i) me kids) as [j|b].
      * destruct IH as (q & Hle & Hq & ?). exists q. split; [lia|]. by replace (j - i)%nat with (S (j - S i)) by lia.
      * destruct IH as [H1 H2]. split; [intros [|k] q Hk; [injection Hk as <-; congruence|by eapply H1]|]. rewrite H2. split.
        -- intros [?|(k & q & Hk & Hq)]; [by left|right]. by exists (S k), q.
        -- intros [?|([|k] & q & Hk & Hq)]; [by left|injection Hk as <-; congruence|right]. by exists k, q.
Qed.

(** Sleeping with the lock of the process table. *)
Lemma sleep_ptable {A} c s p pr chan : runs c s p pr -> held c = ∅ ->
  @sleep A chan ptable_lock (Ctx ({[ptable_lock]} ∪ held c) (cur c)) s = Sleep chan (slept p chan s).
Proof.
  intros [Hc Hp] Hh. unfold sleep. autorewrite with run. cbn [cur]. rewrite Hc, (proj2 (Z.ltb_ge _ _)), Nat2Z.id by lia.
  rewrite bool_decide_eq_true_2 by done. cbn [negb when]. autorewrite with run.
  unfold upd_proc. erewrite bind_elem_upd by done. erewrite bind_elem_upd by (apply list_lookup_insert_eq; by eapply lookup_lt_Some).
  erewrite sched_switches; [| |cbn; apply list_lookup_insert_eq; rewrite length_insert; by eapply lookup_lt_Some|done].
  - cbn. rewrite list_insert_insert_eq. unfold slept. by erewrite alter_insert_at.
  - cbn. rewrite Hh. set_solver.
Qed.

(** Freeing the kernel stack and the address space of a dead process. *)
Lemma reap_memory kend (He : end_ok kend) c m L pgdir tabs f : kmem_lock ∉ held c -> space kend m L pgdir tabs -> spare kend m L pgdir tabs f ->
  exists m' l', kfree kend f c m = Done tt c (kfreed f m) /\ freevm kend pgdir c (kfreed f m) = Done tt c m' /\ kmem_ok kend m' l' /\
    forall x, x ∈ l' <-> x = f \/ x ∈ L \/ owns (pm m) pgdir tabs x.
Proof.
  intros Hc Hs Hsp. destruct (free_spare kend He c Hc m L pgdir tabs f Hs Hsp) as (E1 & [Hs1 Hu1] & Hv & _).
  destruct (freevm_run kend He c Hc (kfreed f m) (f :: L) pgdir tabs Hs1 Hu1) as (m' & l' & E2 & Hk & Hl & _). exists m', l'. do 3 (split; [done|]).
  intros x. rewrite Hl, elem_of_cons, (owns_ext (pm m) _ pgdir tabs x Hv). tauto.
Qed.

(** The entry of a child that has been reaped. *)
Definition reaped (p : proc) : proc :=
  set_p_state UNUSED (set_p_killed false (clear_name (set_p_parent None (set_p_pid 0 (set_p_kstack 0 p))))).

(** C13: [wait].  If the process has a dead child, [wait] returns the number of
    one: its entry is unused again, and its kernel stack and all pages of its
    address space are free.  With no dead child it returns -1, and changes
    nothing, if the process has no child at all or has been killed; if it has a
    child and has not been killed, it sleeps on its own entry, which is what
    [exit] wakes. *)
Theorem wait_reaps (kend : Z) (c : ctx) (s : kernel) (me : nat) (cp : proc) (L : list Z) :
  end_ok kend -> held c = ∅ -> runs c s me cp ->
  (forall i p, k_procs s !! i = Some p -> is_child me p = true -> p_state p = ZOMBIE ->
     exists tabs, space kend (k_mem s) L (p_pgdir p) tabs /\ spare kend (k_mem s) L (p_pgdir p) tabs (p_kstack p)) ->
  (exists i p s' l tabs, k_procs s !! i = Some p /\ is_child me p = true /\ p_state p = ZOMBIE /\ wait kend c s = Done (p_pid p) c s' /\
     k_procs s' = <[i := reaped p]> (k_procs s) /\ kmem_ok kend (k_mem s') l /\ space kend (k_mem s) L (p_pgdir p) tabs /\
     forall x, x ∈ l <-> x = p_kstack p \/ x ∈ L \/ owns (pm (k_mem s)) (p_pgdir p) tabs x) \/
  ((forall i p, k_procs s !! i = Some p -> is_child me p = true -> p_state p <> ZOMBIE) /\
   (((forall i p, k_procs s !! i = Some p -> is_child me p = false) \/ p_killed cp = true) /\ wait kend c s = Done (-1) c s \/
    (exists i p, k_procs s !! i = Some p /\ is_child me p = true) /\ p_killed cp = false /\ wait kend c s = Sleep (chan_proc me) (slept me (chan_proc me) s))).
Proof.
  intros He Hh Hrun Hmem. assert (Hlk : forall lk, lk ∉ held c) by (intros lk; rewrite Hh; apply not_elem_of_empty).
  pose proof (wait_scan_spec (k_procs s) me 0 false) as Hscan. unfold wait. erewrite bind_myproc by exact Hrun. rewrite bind_acquire by done. rewrite bind_gets.
  destruct (wait_scan (k_procs s) 0 me false) as [i|kids].
  - left. destruct Hscan as (p & _ & Hi & Hch & Hz). rewrite Nat.sub_0_r in Hi. destruct (Hmem i p Hi Hch Hz) as (tabs & Hs & Hsp).
    destruct (reap_memory kend He (Ctx ({[ptable_lock]} ∪ held c) (cur c)) (k_mem s) L (p_pgdir p) tabs (p_kstack p)) as (m2 & l2 & E1 & E2 & Hk & Hl); [|done|done|].
    { rewrite Hh. set_solver. }
    exists i, p, (at_np i (reaped p) (set_k_mem m2 s)), l2, tabs. do 3 (split; [done|]). split; [|split; [reflexivity|by split]].
    rewrite (at_np_id i p s Hi) at 1. pose proof (lookup_lt_Some _ _ _ Hi) as Hn.
    rewrite bind_proc_np by done. rewrite (bind_zoom _ i _ _ _ _ tt (kfreed (p_kstack p) (k_mem s))) by exact E1. rewrite bind_upd_np by done.
    rewrite (bind_zoom _ i _ _ _ _ tt m2) by exact E2. do 5 rewrite bind_upd_np by done. erewrite bind_Done by by apply release_acquired. by rewrite ctx_eta.
  - right. destruct Hscan as [Hno Hkids]. split; [done|]. erewrite bind_cur by exact Hrun.
    destruct (negb kids || p_killed cp) eqn:Ek.
    + left. split; [|erewrite bind_Done by (by apply release_acquired); by rewrite ctx_eta]. apply orb_true_iff in Ek as [Ek|Ek]; [left|by right].
      intros i p Hi. apply not_true_iff_false. intros Hc. apply negb_true_iff in Ek. assert (kids = true) by (apply Hkids; right; by exists i, p). congruence.
    + right. apply orb_false_iff in Ek as [Ek Hkl]. apply negb_false_iff in Ek. split; [apply Hkids in Ek as [?|?]; done|]. split; [exact Hkl|].
      by apply (sleep_ptable _ s me cp).
Qed.

(** A process whose child, entry 1, is dead. *)
Lemma wait_reaps_witness : exists s s', wait KERNLINK ex_idle s = Done 7 ex_idle s' /\ p_state <$> k_procs s' !! 1%nat = Some UNUSED.
Proof.
  set (p := set_p_kstack (ex_page 3) (set_p_pgdir (ex_page 0) (set_p_pid 7 (set_p_parent (Some 0%nat) (set_p_state ZOMBIE ex_proc))))).
  set (s := set_k_mem ex_state (set_k_procs [ex_proc; p] ex_kernel)). exists s.
  assert (Hsp : spare KERNLINK (k_mem s) [ex_page 1; ex_page 2] (ex_page 0) ∅ (ex_page 3)).
  { split; [by apply ex_page_ok|]. split; [rewrite !not_elem_of_cons; unfold ex_page; split_and!; [addr|addr|apply not_elem_of_nil]|].
    intros [E|[(i & E)|(va & _ & _ & E & _)]]; [unfold ex_page in E; addr|by rewrite lookup_empty in E|done]. }
  destruct (wait_reaps KERNLINK ex_idle s 0 ex_proc [ex_page 1; ex_page 2]) as [(i & q & s' & l & tabs & Hi & Hc & Hz & E & Hp & _)|(Hno & _)].
  - exact ex_end_ok.
  - reflexivity.
  - by split.
  - intros [|[|i]] q Hq; cbn in Hq; [injection Hq as <-|injection Hq as <-|done]; intros Hc Hz; [done|]. exists ∅. split; [exact ex_space|exact Hsp].
  - destruct i as [|[|i]]; cbn in Hi; [injection Hi as <-; discriminate Hz|injection Hi as <-|discriminate Hi]. exists s'. split; [exact E|]. rewrite Hp. reflexivity.
  - exfalso. by apply (Hno 1%nat p).
Defined.
