(* ===== verification/Isolation.v ===== *)
(** * Isolation of processes

    What a process does to the process table while it runs in the kernel.
    [meddles] is what it may do to the entry of another process: wake it, kill
    it, or hand it to the init process if it is its child.  [keeps] is a logic
    for the computations that stay within that; the operations of the kernel
    are shown to, one by one, up to the table of system calls. *)

From S2P Require Import Prelude Layout CString Spinlock Kalloc Vm State Sched Sleeplock Bio Ide Log Fs Console Pipe File Proc Kbd Syscall Sysfile Exec Trap Fork.

(** ** What one process may do to the entry of another *)

(** The fields that only the process itself changes. *)
Definition private (p : proc) : proc := set_p_state UNUSED (set_p_parent None (set_p_killed false p)).

Record meddles (me : nat) (init : option nat) (p p' : proc) : Prop := {
  md_private : private p' = private p;
  md_state : p_state p' = p_state p \/ (p_state p = SLEEPING /\ p_state p' = RUNNABLE);
  md_parent : p_parent p' = p_parent p \/ (p_parent p = Some me /\ p_parent p' = init);
  md_killed : p_killed p = true -> p_killed p' = true;
}.

(** An entry in use that [me] may not reclaim: it is not a dead child. *)
Definition foreign (me : nat) (p : proc) : Prop :=
  p_state p <> UNUSED /\ ~ (p_state p = ZOMBIE /\ p_parent p = Some me).

(** A pid is in use once. *)
Definition pids_ok (s : kernel) : Prop :=
  0 < k_nextpid s /\
  (forall i p, k_procs s !! i = Some p -> p_pid p < k_nextpid s) /\
  forall i j p q, k_procs s !! i = Some p -> k_procs s !! j = Some q -> p_pid p = p_pid q -> p_pid p <> 0 -> i = j.

(** From [s] to [s'], process [me] has only changed the entries in [X] and the
    entries that were free for it to take. *)
Record isolates (me : nat) (init : option nat) (X : gset nat) (s s' : kernel) : Prop := {
  is_length : length (k_procs s') = length (k_procs s);
  is_pids : pids_ok s -> pids_ok s';
  is_foreign : forall j p, j ∉ X -> k_procs s !! j = Some p -> foreign me p ->
    exists p', k_procs s' !! j = Some p' /\ meddles me init p p';
}.

Lemma meddles_refl me init p : meddles me init p p.
Proof. split; auto. Qed.

Lemma meddles_trans me init p q r : meddles me init p q -> meddles me init q r -> meddles me init p r.
Proof.
  intros [A B D E] [A' B' D' E']. split; [congruence| | |auto].
  - destruct B as [B|[B B0]], B' as [B'|[B' B0']]; rewrite ?B', ?B0', ?B, ?B0; auto; right; split; congruence.
  - destruct D as [D|[D D0]], D' as [D'|[D' D0']]; rewrite ?D', ?D0', ?D, ?D0; auto; right; split; congruence.
Qed.

Lemma meddles_foreign me init p q : meddles me init p q -> foreign me p -> foreign me q.
Proof.
  intros [_ B D _] [U Z]. split; [destruct B as [->|[_ ->]]; [done|discriminate]|].
  intros [Zq Pq]. destruct B as [B|[_ B]]; [|congruence]. destruct D as [D|[D _]]; apply Z; split; congruence.
Qed.

#[export] Instance isolates_preorder me init X : PreOrder (isolates me init X).
Proof.
  split.
  - intros s. split; auto. intros j p _ E _. exists p. split; [done|apply meddles_refl].
  - intros s s1 s2 [L P F] [L' P' F']. split; [congruence|auto|].
    intros j p Hj E Hf. destruct (F j p Hj E Hf) as (p1 & E1 & M1).
    destruct (F' j p1 Hj E1 (meddles_foreign _ _ _ _ M1 Hf)) as (p2 & E2 & M2).
    exists p2. split; [done|]. by apply (meddles_trans _ _ _ p1).
Qed.

(** A step that leaves the table, the pids and the init process alone. *)
Definition table (s : kernel) : list proc * option nat * Z := (k_procs s, k_initproc s, k_nextpid s).

Lemma isolates_table me init X s s' : table s' = table s -> isolates me init X s s'.
Proof.
  unfold table. intros [= E1 E2 E3]. split; [congruence| |].
  - unfold pids_ok. by rewrite E1, E3.
  - intros j p _ E _. rewrite E1. exists p. split; [done|apply meddles_refl].
Qed.

(** Reclaiming entries is invisible where they were free to be taken. *)
Lemma isolates_shrink me init X i p s s' : k_procs s !! i = Some p -> ~ foreign me p ->
  isolates me init ({[i]} ∪ X) s s' -> isolates me init X s s'.
Proof.
  intros E Hf [L P F]. split; auto. intros j q Hj Ej Hq. apply F; [|done..].
  intros [->%elem_of_singleton|]%elem_of_union; [|done]. simplify_eq. exact (Hf Hq).
Qed.

Lemma pids_ok_ext s s' : k_nextpid s' = k_nextpid s -> p_pid <$> k_procs s' = p_pid <$> k_procs s ->
  pids_ok s -> pids_ok s'.
Proof.
  intros En Ep (P0 & P1 & P2).
  assert (back : forall i p, k_procs s' !! i = Some p -> exists q, k_procs s !! i = Some q /\ p_pid q = p_pid p).
  { intros i p E. assert (F : (p_pid <$> k_procs s') !! i = Some (p_pid p)) by (by rewrite list_lookup_fmap, E).
    rewrite Ep, list_lookup_fmap in F. destruct (k_procs s !! i) as [q|]; [|done]. exists q. naive_solver. }
  unfold pids_ok. rewrite En. split_and!; [done| |].
  - intros i p E. destruct (back i p E) as (q & Eq & <-). eauto.
  - intros i j p q Ei Ej E0 N. destruct (back i p Ei) as (p' & Ei' & Hp), (back j q Ej) as (q' & Ej' & Hq).
    apply (P2 i j p' q'); congruence.
Qed.

(** A change of one entry that keeps its pid. *)
Lemma isolates_upd me init X s i p q : k_procs s !! i = Some p -> p_pid q = p_pid p ->
  i ∈ X \/ meddles me init p q -> isolates me init X s (set_k_procs (<[i := q]> (k_procs s)) s).
Proof.
  intros E Hpid H. split; [apply length_insert| |].
  - apply pids_ok_ext; [done|]. cbn. rewrite list_fmap_insert, Hpid. apply list_insert_id. by rewrite list_lookup_fmap, E.
  - intros j r Hj Er _. cbn. destruct (decide (j = i)) as [->|N].
    + simplify_eq. exists q. rewrite list_lookup_insert_eq by (by eapply lookup_lt_Some). split; [done|]. by destruct H.
    + exists r. rewrite list_lookup_insert_ne by done. split; [done|apply meddles_refl].
Qed.

(** ** Computations that keep a relation *)

(** Run by process [me] where [I] holds, [m] relates the state it starts in to
    the one it returns or sleeps in, where [I] holds too, and [me] still runs
    when it returns. *)
Definition stays {S A} (me : nat) (I : S -> Prop) (R : relation S) (s : S) (r : res S A) : Prop :=
  match r with
  | Done _ c' s' => cur c' = Z.of_nat me /\ I s' /\ R s s'
  | Sleep _ s' => I s' /\ R s s'
  | _ => True
  end.
Definition runs_within {S A} (me : nat) (I : S -> Prop) (R : relation S) (m : M S A) : Prop :=
  forall c s, cur c = Z.of_nat me -> I s -> stays me I R s (m c s).

Section within.
Context {S : Type} (me : nat) (I : S -> Prop) (R : relation S) `{!PreOrder R}.

Lemma within_ret {A} (a : A) : runs_within me I R (mret a).
Proof. by intros c s E HI. Qed.

Lemma stays_step {A} s s1 (r : res S A) : R s s1 -> stays me I R s1 r -> stays me I R s r.
Proof.
  intros R1. destruct r as [a c s2| |w s2|]; [intros (E2 & I2 & R2)|done|intros [I2 R2]|done].
  - split_and!; [done..|by transitivity s1].
  - split; [done|by transitivity s1].
Qed.

Lemma within_bind {A B} (m : M S A) (k : A -> M S B) :
  runs_within me I R m -> (forall a, runs_within me I R (k a)) -> runs_within me I R (m ≫= k).
Proof.
  intros Hm Hk c s E HI. specialize (Hm c s E HI). unfold mbind, M_bind. destruct (m c s) as [a c1 s1| | |]; [|done..].
  destruct Hm as (E1 & I1 & R1). apply (stays_step _ s1); [done|]. by apply Hk.
Qed.

(** The result of a sequence, where the second part depends on it. *)
Lemma within_assoc {A B D} (m : M S A) (f : A -> M S B) (k : B -> M S D) :
  runs_within me I R (m ≫= fun a => f a ≫= k) -> runs_within me I R ((m ≫= f) ≫= k).
Proof. intros H c s E HI. rewrite bind_assoc. by apply H. Qed.

Lemma within_bind_ret {A B} (a : A) (k : A -> M S B) : runs_within me I R (k a) -> runs_within me I R (mret a ≫= k).
Proof. done. Qed.

Lemma within_gets {A} (f : S -> A) : runs_within me I R (gets f).
Proof. by intros c s E HI. Qed.

Lemma within_ask : runs_within me I R ask.
Proof. by intros c s E HI. Qed.

Lemma within_panic {A} msg : runs_within me I R (@panic S A msg).
Proof. by intros c s E HI. Qed.

Lemma within_undef {A} msg : runs_within me I R (@undef S A msg).
Proof. by intros c s E HI. Qed.

Lemma within_modify f : (forall s, I s -> I (f s) /\ R s (f s)) -> runs_within me I R (modify f).
Proof. intros H c s E HI. by split; [|apply H]. Qed.

Lemma within_when b (m : M S unit) : runs_within me I R m -> runs_within me I R (when b m).
Proof. destruct b; [done|intros _; apply within_ret]. Qed.

Lemma within_set_held h : runs_within me I R (set_held h).
Proof. by intros c s E HI. Qed.

Lemma within_acquire lk : runs_within me I R (acquire lk).
Proof. intros c s E HI. unfold acquire, holding. autorewrite with run. by case_bool_decide. Qed.

Lemma within_release lk : runs_within me I R (release lk).
Proof. intros c s E HI. unfold release, holding. autorewrite with run. by case_bool_decide. Qed.

Lemma within_holding lk : runs_within me I R (holding lk).
Proof. intros c s E HI. by unfold holding. Qed.
End within.

Create HintDb within discriminated.
#[export] Hint Constants Opaque : within.
#[export] Hint Resolve within_ret within_gets within_ask within_panic within_undef within_acquire within_release
  within_holding : within.
#[export] Hint Extern 0 (PreOrder _) => typeclasses eauto : within.

(** One rule per shape of program; the database has the operations done so far. *)
Ltac within_step :=
  match goal with
  | |- forall _, _ => intro
  | |- runs_within _ _ _ (let _ := _ in _) => cbv zeta
  | |- runs_within _ _ _ (match ?x with _ => _ end) => destruct x eqn:?
  | |- runs_within _ _ _ (when _ _) => apply within_when; [exact _|]
  | |- runs_within _ _ _ _ => solve [eauto with within]
  | |- runs_within _ _ _ (_ ≫= _) => apply within_bind; [exact _| |]
  end.
Ltac within := repeat within_step.

(** Loops recurse on their fuel or on their list, which comes first. *)
Tactic Notation "within_loop" ident(x) reference(f) := induction x; intros; cbn [f]; within.

(** ** The page allocator and the page tables *)

Definition anywhere (s : kmem) : Prop := True.
Definition anything (s s' : kmem) : Prop := True.
#[export] Instance anything_preorder : PreOrder anything.
Proof. by split. Qed.

Section pages.
Context (me : nat) (kend kdata : Z).

Lemma tame_modify f : runs_within me anywhere anything (modify f).
Proof. by apply within_modify. Qed.
#[local] Hint Resolve tame_modify : within.

Lemma tame_load a : runs_within me anywhere anything (load a).
Proof. unfold load. within. Qed.
Lemma tame_store a v : runs_within me anywhere anything (store a v).
Proof. unfold store. within. Qed.
Lemma tame_kfree v : runs_within me anywhere anything (kfree kend v).
Proof. unfold kfree. within. Qed.
Lemma tame_kalloc : runs_within me anywhere anything kalloc.
Proof. unfold kalloc. within. Qed.
#[local] Hint Resolve tame_load tame_store tame_kfree tame_kalloc : within.

Lemma tame_walkpgdir pgdir va alloc : runs_within me anywhere anything (walkpgdir pgdir va alloc).
Proof. unfold walkpgdir. within. Qed.
#[local] Hint Resolve tame_walkpgdir : within.

Lemma tame_mappages_loop fuel : forall pgdir a last pa perm,
  runs_within me anywhere anything (mappages_loop fuel pgdir a last pa perm).
Proof. within_loop fuel mappages_loop. Qed.
Lemma tame_mappages pgdir va size pa perm : runs_within me anywhere anything (mappages pgdir va size pa perm).
Proof. apply tame_mappages_loop. Qed.
Lemma tame_dealloc_loop fuel : forall pgdir a oldsz, runs_within me anywhere anything (dealloc_loop kend fuel pgdir a oldsz).
Proof. within_loop fuel dealloc_loop. Qed.
#[local] Hint Resolve tame_mappages tame_dealloc_loop : within.

Lemma tame_deallocuvm pgdir oldsz newsz : runs_within me anywhere anything (deallocuvm kend pgdir oldsz newsz).
Proof. unfold deallocuvm. within. Qed.
Lemma tame_free_tables n : forall pgdir i, runs_within me anywhere anything (free_tables kend n pgdir i).
Proof. within_loop n free_tables. Qed.
#[local] Hint Resolve tame_deallocuvm tame_free_tables : within.

Lemma tame_freevm pgdir : runs_within me anywhere anything (freevm kend pgdir).
Proof. unfold freevm. within. Qed.
#[local] Hint Resolve tame_freevm : within.

Lemma tame_allocuvm_loop fuel : forall pgdir a oldsz newsz,
  runs_within me anywhere anything (allocuvm_loop kend fuel pgdir a oldsz newsz).
Proof. within_loop fuel allocuvm_loop. Qed.
Lemma tame_setupkvm_loop ks : forall pgdir, runs_within me anywhere anything (setupkvm_loop kend ks pgdir).
Proof. within_loop ks setupkvm_loop. Qed.
#[local] Hint Resolve tame_allocuvm_loop tame_setupkvm_loop : within.

Lemma tame_allocuvm pgdir oldsz newsz : runs_within me anywhere anything (allocuvm kend pgdir oldsz newsz).
Proof. unfold allocuvm. within. Qed.
Lemma tame_setupkvm : runs_within me anywhere anything (setupkvm kend kdata).
Proof. unfold setupkvm. within. Qed.
Lemma tame_clearpteu pgdir uva : runs_within me anywhere anything (clearpteu pgdir uva).
Proof. unfold clearpteu. within. Qed.
Lemma tame_copyuvm_loop fuel : forall pgdir d i sz, runs_within me anywhere anything (copyuvm_loop kend fuel pgdir d i sz).
Proof. within_loop fuel copyuvm_loop. Qed.
#[local] Hint Resolve tame_setupkvm tame_copyuvm_loop : within.

Lemma tame_copyuvm pgdir sz : runs_within me anywhere anything (copyuvm kend kdata pgdir sz).
Proof. unfold copyuvm. within. Qed.
Lemma tame_uva2ka pgdir uva : runs_within me anywhere anything (uva2ka pgdir uva).
Proof. unfold uva2ka. within. Qed.
#[local] Hint Resolve tame_uva2ka : within.

Lemma tame_copyout_loop fuel : forall pgdir va buf len, runs_within me anywhere anything (copyout_loop fuel pgdir va buf len).
Proof. within_loop fuel copyout_loop. Qed.
Lemma tame_copyout pgdir va p len : runs_within me anywhere anything (copyout pgdir va p len).
Proof. apply tame_copyout_loop. Qed.
Lemma tame_lazy_fault pgdir cr2 : runs_within me anywhere anything (lazy_fault kend pgdir cr2).
Proof. unfold lazy_fault. within. Qed.
Lemma tame_locality_loop n : forall pgdir start i, runs_within me anywhere anything (locality_loop kend n pgdir start i).
Proof. within_loop n locality_loop. Qed.
Lemma tame_locality_fault pgdir cr2 : runs_within me anywhere anything (locality_fault kend pgdir cr2).
Proof. apply tame_locality_loop. Qed.
End pages.

#[export] Hint Resolve tame_kfree tame_kalloc tame_load tame_walkpgdir tame_mappages tame_freevm tame_allocuvm tame_deallocuvm
  tame_setupkvm tame_clearpteu tame_copyuvm tame_copyout tame_lazy_fault tame_locality_fault : within.

(** ** The kernel's structures *)

(** [keeps me init X m]: run by [me] with the init process [init], [m] stays
    within [isolates me init X]. *)
Definition init_is (init : option nat) (s : kernel) : Prop := k_initproc s = init.
Abbreviation keeps me init X m := (runs_within me (init_is init) (isolates me init X) m).

Section structures.
Context (me : nat) (init : option nat) (X : gset nat).

Lemma stays_table {A} s (r : res kernel A) : init_is init s ->
  match r with Done _ c' s' => cur c' = Z.of_nat me /\ table s' = table s | Sleep _ s' => table s' = table s | _ => True end ->
  stays me (init_is init) (isolates me init X) s r.
Proof.
  unfold init_is, table. intros HI. destruct r as [a c' s'| |w s'|]; [intros [E T]| |intros T|]; try done.
  - split_and!; [done|congruence|by apply isolates_table].
  - split; [congruence|by apply isolates_table].
Qed.

Lemma keeps_modify f : (forall s, table (f s) = table s) -> keeps me init X (modify f).
Proof. intros Hf c s E HI. apply stays_table; [done|]. by split; [|apply Hf]. Qed.

Lemma keeps_zoom {A} (m : M kmem A) : runs_within me anywhere anything m -> keeps me init X (zoom L_mem m).
Proof.
  intros Hm c s E HI. specialize (Hm c (lget L_mem s) E Logic.I). apply stays_table; [done|]. unfold zoom.
  destruct (m c (lget L_mem s)); [|done..]. by split; [apply Hm|].
Qed.

Lemma keeps_elem_at {A} (get : kernel -> list A) i : keeps me init X (elem_at get i).
Proof. intros c s E HI. unfold elem_at. by destruct (get s !! i). Qed.

Lemma keeps_elem_upd {A} (get : kernel -> list A) put i f : (forall v s, table (put v s) = table s) ->
  keeps me init X (elem_upd get put i f).
Proof.
  intros Hp c s E HI. apply stays_table; [done|]. unfold elem_upd. destruct (get s !! i); [|done]. by split; [|apply Hp].
Qed.

Lemma keeps_upd_buf i f : keeps me init X (upd_buf i f).
Proof. by apply keeps_elem_upd. Qed.
Lemma keeps_upd_inode i f : keeps me init X (upd_inode i f).
Proof. by apply keeps_elem_upd. Qed.
Lemma keeps_upd_file i f : keeps me init X (upd_file i f).
Proof. by apply keeps_elem_upd. Qed.

Lemma keeps_upd_proc i g : i ∈ X -> (forall p, p_pid (g p) = p_pid p) -> keeps me init X (upd_proc i g).
Proof.
  intros Hi Hg c s E HI. unfold upd_proc, elem_upd. destruct (k_procs s !! i) as [p|] eqn:Ei; [|done].
  split_and!; [done..|]. apply (isolates_upd _ _ _ _ _ p); [done|apply Hg|by left].
Qed.

(** A change that any process may make to the entry of another. *)
Lemma keeps_meddle i g : (forall p, meddles me init p (g p)) -> keeps me init X (upd_proc i g).
Proof.
  intros Hg c s E HI. unfold upd_proc, elem_upd. destruct (k_procs s !! i) as [p|] eqn:Ei; [|done].
  split_and!; [done..|]. apply (isolates_upd _ _ _ _ _ p); [done| |by right].
  change (p_pid (private (g p)) = p_pid (private p)). by rewrite (md_private _ _ _ _ (Hg p)).
Qed.

Lemma keeps_cur {A} (k : ctx -> M kernel A) :
  (forall c, cur c = Z.of_nat me -> keeps me init X (k c)) -> keeps me init X (ask ≫= k).
Proof. intros Hk c s E HI. exact (Hk c E c s E HI). Qed.

Lemma keeps_myproc {A} (k : nat -> M kernel A) : keeps me init X (k me) -> keeps me init X (myproc ≫= k).
Proof.
  intros Hk c s E HI. unfold myproc. autorewrite with run. destruct (Z.ltb_spec (cur c) 0); [lia|].
  autorewrite with run. assert (Z.to_nat (cur c) = me) as -> by lia. exact (Hk c s E HI).
Qed.

Lemma keeps_curproc {A} (k : option nat -> M kernel A) : keeps me init X (k (Some me)) -> keeps me init X (curproc ≫= k).
Proof.
  intros Hk c s E HI. unfold curproc. autorewrite with run. destruct (Z.ltb_spec (cur c) 0); [lia|].
  assert (Z.to_nat (cur c) = me) as -> by lia. exact (Hk c s E HI).
Qed.

Lemma keeps_initproc {A} (k : option nat -> M kernel A) :
  keeps me init X (k init) -> keeps me init X (gets k_initproc ≫= k).
Proof. intros Hk c s E HI. rewrite bind_gets, HI. by apply Hk. Qed.

Lemma keeps_pipe_at p : keeps me init X (pipe_at p).
Proof. intros c s E HI. unfold pipe_at. by destruct (k_pipes s !! p). Qed.

Lemma keeps_sleep_on {A} chan : keeps me init X (@sleep_on kernel A chan).
Proof. by intros c s E HI. Qed.

(** Work on an entry that was [me]'s to take. *)
Lemma stays_reclaim {A} i p (m : M kernel A) c s : k_procs s !! i = Some p -> ~ foreign me p ->
  keeps me init ({[i]} ∪ X) m -> cur c = Z.of_nat me -> init_is init s ->
  stays me (init_is init) (isolates me init X) s (m c s).
Proof.
  intros Ei Hf Hm E HI. specialize (Hm c s E HI). destruct (m c s) as [a c' s'| |w s'|]; [|done| |done].
  - destruct Hm as (E1 & I1 & R1). split_and!; [done..|by apply (isolates_shrink _ _ _ i p)].
  - destruct Hm as [I1 R1]. split; [done|by apply (isolates_shrink _ _ _ i p)].
Qed.
End structures.

#[export] Hint Resolve keeps_zoom keeps_elem_at keeps_upd_buf keeps_upd_inode keeps_upd_file keeps_pipe_at
  keeps_sleep_on : within.
#[export] Hint Extern 1 (keeps _ _ _ (modify _)) => apply keeps_modify; reflexivity : within.
#[export] Hint Extern 1 (keeps _ _ _ (upd_proc _ _)) => apply keeps_upd_proc; [set_solver|reflexivity] : within.

(** The operations that stand for one access of the state. *)
Ltac keeps_unfold := unfold proc_at, buf_at, inode_at, file_at, get_log, upd_log, mem_get, mem_modify, get_cons, upd_cons,
  set_pipe, set_data.
Ltac keeps_step :=
  match goal with
  | |- keeps _ _ _ (myproc ≫= _) => apply keeps_myproc
  | |- keeps _ _ _ (curproc ≫= _) => apply keeps_curproc
  | |- keeps _ _ _ (gets k_initproc ≫= _) => apply keeps_initproc
  | |- keeps _ _ _ (zoom L_mem _) => apply keeps_zoom
  | |- keeps _ _ _ (or_fail _ _) => unfold or_fail
  | _ => within_step
  end.
Ltac keeps := keeps_unfold; repeat keeps_step.
Ltac stay := match goal with |- stays ?me (init_is ?init) (isolates ?me ?init ?X) _ (?m _ _) =>
  let H := fresh in assert (H : keeps me init X m); [keeps|by apply H] end.
Tactic Notation "keeps_loop" ident(x) reference(f) := induction x; intros; cbn [f]; keeps.

Section sched.
Context (me : nat) (init : option nat) (X : gset nat) (HX : me ∈ X).

Lemma keeps_mypid : keeps me init X mypid.
Proof. unfold mypid. keeps. Qed.

Lemma keeps_sched {A} p chan : keeps me init X (@sched A p chan).
Proof. unfold sched. keeps. Qed.
#[local] Hint Resolve keeps_sched : within.

Lemma keeps_sleep {A} chan lk : keeps me init X (@sleep A chan lk).
Proof.
  apply keeps_cur. intros c E. rewrite E, Nat2Z.id. keeps.
Qed.

Lemma wake_one_meddles chan p : meddles me init p (wake_one chan p).
Proof.
  unfold wake_one, state_is. case_bool_decide as S; cbn; [|apply meddles_refl].
  destruct (_ =? _); [|apply meddles_refl]. split; auto.
Qed.

Lemma keeps_wakeup1 chan : keeps me init X (wakeup1 chan).
Proof.
  apply within_modify. intros s HI. split; [done|]. split; [apply length_fmap| |].
  - apply pids_ok_ext; [done|]. cbn. rewrite <- list_fmap_compose. apply list_fmap_ext. intros i p _. cbn.
    unfold wake_one. by destruct (_ && _).
  - intros j p _ E _. cbn. rewrite list_lookup_fmap, E. exists (wake_one chan p). split; [done|apply wake_one_meddles].
Qed.
#[local] Hint Resolve keeps_wakeup1 : within.

Lemma keeps_wakeup chan : keeps me init X (wakeup chan).
Proof. unfold wakeup. keeps. Qed.

Lemma keeps_yield : keeps me init X yield.
Proof. unfold yield. keeps. Qed.
End sched.

#[export] Hint Resolve keeps_mypid keeps_sched keeps_sleep keeps_wakeup1 keeps_wakeup keeps_yield : within.
#[export] Hint Extern 2 (_ ∈ _) => set_solver : within.

Section locks.
Context (me : nat) (init : option nat) (X : gset nat) (HX : me ∈ X).

Lemma keeps_sl_get r : keeps me init X (sl_get r).
Proof. unfold sl_get. keeps. Qed.
Lemma keeps_sl_set r l : keeps me init X (sl_set r l).
Proof. unfold sl_set. keeps. Qed.
#[local] Hint Resolve keeps_sl_get keeps_sl_set : within.

Lemma keeps_acquiresleep r : keeps me init X (acquiresleep r).
Proof. unfold acquiresleep. keeps. Qed.
Lemma keeps_releasesleep r : keeps me init X (releasesleep r).
Proof. unfold releasesleep. keeps. Qed.
Lemma keeps_holdingsleep r : keeps me init X (holdingsleep r).
Proof. unfold holdingsleep. keeps. Qed.
#[local] Hint Resolve keeps_acquiresleep keeps_releasesleep keeps_holdingsleep : within.

(** Both disk drivers. *)
Lemma keeps_idestart b : keeps me init X (idestart b).
Proof. unfold idestart. keeps. apply keeps_modify. intros s. unfold set_drive. by destruct (_ =? 0). Qed.
Lemma keeps_append_loop fuel : forall j i, keeps me init X (append_loop fuel j i).
Proof. keeps_loop fuel append_loop. Qed.
#[local] Hint Resolve keeps_idestart keeps_append_loop : within.

Lemma keeps_enqueue i : keeps me init X (enqueue i).
Proof. unfold enqueue. keeps. Qed.
Lemma keeps_memide_iderw i : keeps me init X (memide_iderw i).
Proof. unfold memide_iderw. keeps. Qed.
#[local] Hint Resolve keeps_enqueue keeps_memide_iderw : within.

Lemma keeps_ide_iderw i : keeps me init X (ide_iderw i).
Proof. unfold ide_iderw. keeps. Qed.
Lemma keeps_ideintr ok : keeps me init X (ideintr ok).
Proof. unfold ideintr. keeps. Qed.
#[local] Hint Resolve keeps_ide_iderw keeps_ideintr : within.

(** The console, the log without the disk and the pipes. *)
Lemma keeps_consputc c : keeps me init X (consputc c).
Proof. unfold consputc. keeps. Qed.
Lemma keeps_log_block i : keeps me init X (log_block i).
Proof. unfold log_block. keeps. Qed.
Lemma keeps_set_log_block i v : keeps me init X (set_log_block i v).
Proof. unfold set_log_block. keeps. Qed.
#[local] Hint Resolve keeps_consputc keeps_log_block keeps_set_log_block : within.

Lemma keeps_consputs l : keeps me init X (consputs l).
Proof. keeps_loop l consputs. Qed.
Lemma keeps_kill_line fuel : keeps me init X (kill_line fuel).
Proof. keeps_loop fuel kill_line. Qed.
Lemma keeps_read_head_loop n : forall i data, keeps me init X (read_head_loop n i data).
Proof. keeps_loop n read_head_loop. Qed.
Lemma keeps_write_head_loop n : forall i b, keeps me init X (write_head_loop n i b).
Proof. keeps_loop n write_head_loop. Qed.
Lemma keeps_log_write b : keeps me init X (log_write b).
Proof. unfold log_write. keeps. Qed.
#[local] Hint Resolve keeps_consputs keeps_kill_line keeps_read_head_loop keeps_write_head_loop keeps_log_write : within.

Lemma keeps_cprintf fmt args : keeps me init X (cprintf fmt args).
Proof. unfold cprintf. keeps. Qed.
Lemma keeps_console_char c : keeps me init X (console_char c).
Proof. unfold console_char. keeps. Qed.
#[local] Hint Resolve keeps_cprintf keeps_console_char : within.

Lemma keeps_console_chars cs : forall doprocdump, keeps me init X (console_chars cs doprocdump).
Proof. keeps_loop cs console_chars. Qed.
#[local] Hint Resolve keeps_console_chars : within.

Lemma keeps_consoleintr procdump cs : keeps me init X procdump -> keeps me init X (consoleintr procdump cs).
Proof. intros Hp. unfold consoleintr. keeps. Qed.
End locks.

#[export] Hint Resolve keeps_acquiresleep keeps_releasesleep keeps_holdingsleep keeps_consputs keeps_log_block keeps_set_log_block keeps_read_head_loop keeps_write_head_loop keeps_log_write keeps_cprintf keeps_consoleintr keeps_ideintr : within.

(** ** Buffers, the log and the file system, on a disk that keeps to it *)

Section files.
Context (me : nat) (init : option nat) (X : gset nat) (HX : me ∈ X) `{DiskDriver} (Hdisk : forall i, keeps me init X (iderw i)).
#[local] Hint Resolve Hdisk : within.

Lemma keeps_bget_hit fuel : forall b dev blockno, keeps me init X (bget_hit fuel b dev blockno).
Proof. keeps_loop fuel bget_hit. Qed.
Lemma keeps_bget_free fuel : forall b, keeps me init X (bget_free fuel b).
Proof. keeps_loop fuel bget_free. Qed.
Lemma keeps_move_front b : keeps me init X (move_front b).
Proof. unfold move_front. keeps. Qed.
#[local] Hint Resolve keeps_bget_hit keeps_bget_free keeps_move_front : within.

Lemma keeps_bget dev blockno : keeps me init X (bget dev blockno).
Proof. unfold bget. keeps. Qed.
Lemma keeps_brelse b : keeps me init X (brelse b).
Proof. unfold brelse. keeps. Qed.
Lemma keeps_bwrite b : keeps me init X (bwrite b).
Proof. unfold bwrite. keeps. Qed.
#[local] Hint Resolve keeps_bget keeps_brelse keeps_bwrite : within.

Lemma keeps_bread dev blockno : keeps me init X (bread dev blockno).
Proof. unfold bread. keeps. Qed.
#[local] Hint Resolve keeps_bread : within.

Lemma keeps_install_loop n : forall tail, keeps me init X (install_loop n tail).
Proof. keeps_loop n install_loop. Qed.
Lemma keeps_read_head : keeps me init X read_head.
Proof. unfold read_head. keeps. Qed.
Lemma keeps_write_head : keeps me init X write_head.
Proof. unfold write_head. keeps. Qed.
Lemma keeps_readsb dev : keeps me init X (readsb dev).
Proof. unfold readsb. keeps. Qed.
Lemma keeps_write_log_loop n : forall tail, keeps me init X (write_log_loop n tail).
Proof. keeps_loop n write_log_loop. Qed.
#[local] Hint Resolve keeps_install_loop keeps_read_head keeps_write_head keeps_readsb keeps_write_log_loop : within.

Lemma keeps_install_trans : keeps me init X install_trans.
Proof. unfold install_trans. keeps. Qed.
Lemma keeps_write_log : keeps me init X write_log.
Proof. unfold write_log. keeps. Qed.
#[local] Hint Resolve keeps_install_trans keeps_write_log : within.

Lemma keeps_recover_from_log : keeps me init X recover_from_log.
Proof. unfold recover_from_log. keeps. Qed.
Lemma keeps_commit : keeps me init X commit.
Proof. unfold commit. keeps. Qed.
Lemma keeps_begin_op : keeps me init X begin_op.
Proof. unfold begin_op. keeps. Qed.
#[local] Hint Resolve keeps_recover_from_log keeps_commit keeps_begin_op : within.

Lemma keeps_initlog dev : keeps me init X (initlog dev).
Proof. unfold initlog. keeps. Qed.
Lemma keeps_end_op : keeps me init X end_op.
Proof. unfold end_op. keeps. Qed.
#[local] Hint Resolve keeps_initlog keeps_end_op : within.

Lemma keeps_bzero dev bno : keeps me init X (bzero dev bno).
Proof. unfold bzero. keeps. Qed.
Lemma keeps_bfree dev b : keeps me init X (bfree dev b).
Proof. unfold bfree. keeps. Qed.
Lemma keeps_iget dev inum : keeps me init X (iget dev inum).
Proof. unfold iget. keeps. Qed.
Lemma keeps_idup i : keeps me init X (idup i).
Proof. unfold idup. keeps. Qed.
Lemma keeps_iupdate i : keeps me init X (iupdate i).
Proof. unfold iupdate. keeps. Qed.
Lemma keeps_ilock i : keeps me init X (ilock i).
Proof. unfold ilock. keeps. Qed.
Lemma keeps_iunlock i : keeps me init X (iunlock i).
Proof. unfold iunlock. keeps. Qed.
#[local] Hint Resolve keeps_bzero keeps_bfree keeps_iget keeps_idup keeps_iupdate keeps_ilock keeps_iunlock : within.

Lemma keeps_balloc_loop fuel : forall dev b, keeps me init X (balloc_loop fuel dev b).
Proof. keeps_loop fuel balloc_loop. Qed.
Lemma keeps_ialloc_loop fuel : forall dev type inum, keeps me init X (ialloc_loop fuel dev type inum).
Proof. keeps_loop fuel ialloc_loop. Qed.
Lemma keeps_set_addr i k v : keeps me init X (set_addr i k v).
Proof. unfold set_addr. keeps. Qed.
#[local] Hint Resolve keeps_balloc_loop keeps_ialloc_loop keeps_set_addr : within.

Lemma keeps_balloc dev : keeps me init X (balloc dev).
Proof. unfold balloc. keeps. Qed.
Lemma keeps_ialloc dev type : keeps me init X (ialloc dev type).
Proof. unfold ialloc. keeps. Qed.
Lemma keeps_set_prev_extent k i v : keeps me init X (set_prev_extent k i v).
Proof. unfold set_prev_extent. keeps. Qed.
#[local] Hint Resolve keeps_balloc keeps_ialloc keeps_set_prev_extent : within.

Lemma keeps_bmap_extent k bn : keeps me init X (bmap_extent k bn).
Proof. unfold bmap_extent. keeps. Qed.
Lemma keeps_index_block dev addr pos : keeps me init X (index_block dev addr pos).
Proof. unfold index_block. keeps. Qed.
Lemma keeps_addr_alloc i k : keeps me init X (addr_alloc i k).
Proof. unfold addr_alloc. keeps. Qed.
#[local] Hint Resolve keeps_bmap_extent keeps_index_block keeps_addr_alloc : within.

Lemma keeps_bmap i bn : keeps me init X (bmap i bn).
Proof. unfold bmap. keeps. Qed.
Lemma keeps_itrunc_direct n : forall i k, keeps me init X (itrunc_direct n i k).
Proof. keeps_loop n itrunc_direct. Qed.
Lemma keeps_itrunc_indirect n : forall dev bp j, keeps me init X (itrunc_indirect n dev bp j).
Proof. keeps_loop n itrunc_indirect. Qed.
#[local] Hint Resolve keeps_bmap keeps_itrunc_direct keeps_itrunc_indirect : within.

Lemma keeps_itrunc i : keeps me init X (itrunc i).
Proof. unfold itrunc. keeps. Qed.
#[local] Hint Resolve keeps_itrunc : within.

Lemma keeps_iput i : keeps me init X (iput i).
Proof. unfold iput. keeps. Qed.
Lemma keeps_stati i : keeps me init X (stati i).
Proof. unfold stati. keeps. Qed.
Lemma keeps_readi_loop fuel : forall i off tot n acc, keeps me init X (readi_loop fuel i off tot n acc).
Proof. keeps_loop fuel readi_loop. Qed.
Lemma keeps_writei_loop fuel : forall i src off tot n, keeps me init X (writei_loop fuel i src off tot n).
Proof. keeps_loop fuel writei_loop. Qed.
#[local] Hint Resolve keeps_iput keeps_stati keeps_readi_loop keeps_writei_loop : within.

Lemma keeps_iunlockput i : keeps me init X (iunlockput i).
Proof. unfold iunlockput. keeps. Qed.
#[local] Hint Resolve keeps_iunlockput : within.

Lemma keeps_consoleread_loop fuel : forall ip target n acc, keeps me init X (consoleread_loop fuel ip target n acc).
Proof. keeps_loop fuel consoleread_loop. Qed.
#[local] Hint Resolve keeps_consoleread_loop : within.

Lemma keeps_consoleread ip n : keeps me init X (consoleread ip n).
Proof. unfold consoleread. keeps. Qed.
Lemma keeps_consolewrite ip buf n : keeps me init X (consolewrite ip buf n).
Proof. unfold consolewrite. keeps. Qed.
#[local] Hint Resolve keeps_consoleread keeps_consolewrite : within.

(** The devices keep to it too. *)
Context `{Devsw}.
Context (Hread : forall major f ip n, dev_read major = Some f -> keeps me init X (f ip n)).
Context (Hwrite : forall major f ip src n, dev_write major = Some f -> keeps me init X (f ip src n)).
#[local] Hint Resolve Hread Hwrite : within.

Lemma keeps_readi i off n : keeps me init X (readi i off n).
Proof. unfold readi. keeps. Qed.
Lemma keeps_writei i src off n : keeps me init X (writei i src off n).
Proof. unfold writei. keeps. Qed.
#[local] Hint Resolve keeps_readi keeps_writei : within.

Lemma keeps_dirlookup_loop fuel : forall dp name off, keeps me init X (dirlookup_loop fuel dp name off).
Proof. keeps_loop fuel dirlookup_loop. Qed.
Lemma keeps_dirlink_loop fuel : forall dp off, keeps me init X (dirlink_loop fuel dp off).
Proof. keeps_loop fuel dirlink_loop. Qed.
#[local] Hint Resolve keeps_dirlookup_loop keeps_dirlink_loop : within.

Lemma keeps_dirlookup dp name : keeps me init X (dirlookup dp name).
Proof. unfold dirlookup. keeps. Qed.
#[local] Hint Resolve keeps_dirlookup : within.

Lemma keeps_dirlink dp name inum : keeps me init X (dirlink dp name inum).
Proof. unfold dirlink. keeps. Qed.
Lemma keeps_namex_loop fuel : forall ip path parent name, keeps me init X (namex_loop fuel ip path parent name).
Proof. keeps_loop fuel namex_loop. Qed.
#[local] Hint Resolve keeps_dirlink keeps_namex_loop : within.

Lemma keeps_namex path parent : keeps me init X (namex path parent).
Proof. unfold namex. keeps. Qed.
#[local] Hint Resolve keeps_namex : within.

Lemma keeps_namei path : keeps me init X (namei path).
Proof. unfold namei. keeps. Qed.
Lemma keeps_nameiparent path : keeps me init X (nameiparent path).
Proof. unfold nameiparent. keeps. Qed.
#[local] Hint Resolve keeps_namei keeps_nameiparent : within.

(** ** Pipes and open files *)

Context (kend : Z).

Lemma keeps_pipewrite_loop p src : forall n, keeps me init X (pipewrite_loop p src n).
Proof. keeps_loop src pipewrite_loop. Qed.
#[local] Hint Resolve keeps_pipewrite_loop : within.

Lemma keeps_piperead_loop n : forall p acc, keeps me init X (piperead_loop n p acc).
Proof. keeps_loop n piperead_loop. Qed.
Lemma keeps_free_pipe p : keeps me init X (free_pipe kend p).
Proof. unfold free_pipe. keeps. Qed.
#[local] Hint Resolve keeps_piperead_loop keeps_free_pipe : within.

Lemma keeps_pipewrite p src n : keeps me init X (pipewrite p src n).
Proof. unfold pipewrite. keeps. Qed.
Lemma keeps_piperead p n : keeps me init X (piperead p n).
Proof. unfold piperead. keeps. Qed.
Lemma keeps_pipeclose p writable : keeps me init X (pipeclose kend p writable).
Proof. unfold pipeclose. keeps. Qed.
#[local] Hint Resolve keeps_pipewrite keeps_piperead keeps_pipeclose : within.

Lemma keeps_filealloc : keeps me init X filealloc.
Proof. unfold filealloc. keeps. Qed.
Lemma keeps_filedup i : keeps me init X (filedup i).
Proof. unfold filedup. keeps. Qed.
Lemma keeps_the_ip f : keeps me init X (the_ip f).
Proof. unfold the_ip. keeps. Qed.
#[local] Hint Resolve keeps_filealloc keeps_filedup keeps_the_ip : within.

Lemma keeps_fileclose i : keeps me init X (fileclose kend i).
Proof. unfold fileclose. keeps. Qed.
Lemma keeps_filestat i : keeps me init X (filestat i).
Proof. unfold filestat. keeps. Qed.
Lemma keeps_fileread i n : keeps me init X (fileread i n).
Proof. unfold fileread. keeps. Qed.
Lemma keeps_fill_loop n : forall ip j, keeps me init X (fill_loop n ip j).
Proof. keeps_loop n fill_loop. Qed.
Lemma keeps_filewrite_loop fuel : forall i ip src done size, keeps me init X (filewrite_loop fuel i ip src done size).
Proof. keeps_loop fuel filewrite_loop. Qed.
#[local] Hint Resolve keeps_fileclose keeps_filestat keeps_fileread keeps_fill_loop keeps_filewrite_loop : within.

Lemma keeps_filewrite i src size : keeps me init X (filewrite i src size).
Proof. unfold filewrite. keeps. Qed.
Lemma keeps_filelseek i offset : keeps me init X (filelseek i offset).
Proof. unfold filelseek. keeps. Qed.
Lemma keeps_pipealloc_bad f0 f1 : keeps me init X (pipealloc_bad kend f0 f1).
Proof. unfold pipealloc_bad. keeps. Qed.
#[local] Hint Resolve keeps_filewrite keeps_filelseek keeps_pipealloc_bad : within.

Lemma keeps_pipealloc : keeps me init X (pipealloc kend).
Proof. unfold pipealloc. keeps. Qed.
#[local] Hint Resolve keeps_pipealloc : within.

(** ** The arguments of system calls *)

Lemma keeps_user_ka need va : keeps me init X (user_ka kend need va).
Proof. unfold user_ka. keeps. Qed.
#[local] Hint Resolve keeps_user_ka : within.

Lemma keeps_uload va : keeps me init X (uload kend va).
Proof. unfold uload. keeps. Qed.
Lemma keeps_ustore va v : keeps me init X (ustore kend va v).
Proof. unfold ustore. keeps. Qed.
#[local] Hint Resolve keeps_uload keeps_ustore : within.

Lemma keeps_uload_bytes n : forall va, keeps me init X (uload_bytes kend n va).
Proof. keeps_loop n uload_bytes. Qed.
#[local] Hint Resolve keeps_uload_bytes : within.

Lemma keeps_ustore_bytes l : forall va, keeps me init X (ustore_bytes kend va l).
Proof. keeps_loop l ustore_bytes. Qed.
#[local] Hint Resolve keeps_ustore_bytes : within.

Lemma keeps_uload32 va : keeps me init X (uload32 kend va).
Proof. unfold uload32. keeps. Qed.
Lemma keeps_ustore32 va v : keeps me init X (ustore32 kend va v).
Proof. unfold ustore32. keeps. Qed.
Lemma keeps_scan_str n : forall s, keeps me init X (scan_str kend n s).
Proof. keeps_loop n scan_str. Qed.
#[local] Hint Resolve keeps_uload32 keeps_ustore32 keeps_scan_str : within.

Lemma keeps_fetchint addr : keeps me init X (fetchint kend addr).
Proof. unfold fetchint. keeps. Qed.
Lemma keeps_fetchstr addr : keeps me init X (fetchstr kend addr).
Proof. unfold fetchstr. keeps. Qed.
#[local] Hint Resolve keeps_fetchint keeps_fetchstr : within.

Lemma keeps_argint n : keeps me init X (argint kend n).
Proof. unfold argint. keeps. Qed.
#[local] Hint Resolve keeps_argint : within.

Lemma keeps_argptr n size : keeps me init X (argptr kend n size).
Proof. unfold argptr. keeps. Qed.
Lemma keeps_argstr n : keeps me init X (argstr kend n).
Proof. unfold argstr. keeps. Qed.
#[local] Hint Resolve keeps_argptr keeps_argstr : within.

End files.
#[export] Hint Resolve keeps_bget_hit keeps_bget_free keeps_move_front keeps_bget keeps_brelse keeps_bwrite
  keeps_bread keeps_install_loop keeps_read_head keeps_write_head keeps_readsb keeps_write_log_loop
  keeps_install_trans keeps_write_log keeps_recover_from_log keeps_commit keeps_begin_op keeps_initlog keeps_end_op
  keeps_bzero keeps_bfree keeps_iget keeps_idup keeps_iupdate keeps_ilock keeps_iunlock keeps_balloc_loop
  keeps_ialloc_loop keeps_set_addr keeps_balloc keeps_ialloc keeps_set_prev_extent keeps_bmap_extent keeps_index_block
  keeps_addr_alloc keeps_bmap keeps_itrunc_direct keeps_itrunc_indirect keeps_itrunc keeps_iput keeps_stati
  keeps_readi_loop keeps_writei_loop keeps_iunlockput keeps_consoleread keeps_consolewrite keeps_readi keeps_writei
  keeps_dirlookup_loop keeps_dirlink_loop keeps_dirlookup keeps_dirlink keeps_namex_loop keeps_namex keeps_namei
  keeps_nameiparent keeps_piperead_loop keeps_free_pipe keeps_pipewrite keeps_piperead keeps_pipeclose keeps_filealloc
  keeps_filedup keeps_the_ip keeps_fileclose keeps_filestat keeps_fileread keeps_fill_loop keeps_filewrite_loop
  keeps_filewrite keeps_filelseek keeps_pipealloc_bad keeps_pipealloc keeps_user_ka keeps_uload keeps_ustore
  keeps_uload_bytes keeps_uload32 keeps_ustore32 keeps_scan_str keeps_fetchint keeps_fetchstr keeps_argint
  keeps_argptr keeps_argstr keeps_pipewrite_loop keeps_ustore_bytes keeps_consoleread_loop : within.

(** ** Processes *)

(** Both disk drivers and every device, whatever the entries in [X]. *)
Record drivers_keep (me : nat) (init : option nat) `{DiskDriver} `{Devsw} : Prop := {
  dk_disk : forall X i, me ∈ X -> keeps me init X (iderw i);
  dk_read : forall X major f ip n, me ∈ X -> dev_read major = Some f -> keeps me init X (f ip n);
  dk_write : forall X major f ip src n, me ∈ X -> dev_write major = Some f -> keeps me init X (f ip src n);
}.

Section pids.
Context (me : nat) (init : option nat) (X : gset nat).

(** Giving an entry the pid 0 or one that has not been given yet. *)
Lemma isolates_pid s i q n : i ∈ X -> k_nextpid s <= n -> p_pid q = 0 \/ k_nextpid s <= p_pid q < n ->
  isolates me init X s (set_k_nextpid n (set_k_procs (<[i := q]> (k_procs s)) s)).
Proof.
  intros Hi Hn Hq. split; [apply length_insert| |].
  - intros (P0 & P1 & P2). unfold pids_ok. cbn. split_and!; [lia| |].
    + intros j r [(-> & -> & _)|[_ Ej]]%list_lookup_insert_Some; [lia|]. specialize (P1 j r Ej). lia.
    + intros j1 j2 r1 r2 E1 E2 E N. apply list_lookup_insert_Some in E1, E2.
      destruct E1 as [(<- & -> & _)|[N1 E1]], E2 as [(<- & -> & _)|[N2 E2]]; [done| | |by apply (P2 j1 j2 r1 r2)].
      * specialize (P1 j2 r2 E2). lia.
      * specialize (P1 j1 r1 E1). lia.
  - intros j r Hj Er _. cbn. exists r. rewrite list_lookup_insert_ne by (intros ->; done).
    split; [done|apply meddles_refl].
Qed.

Lemma keeps_clear_pid i : i ∈ X -> keeps me init X (upd_proc i (set_p_pid 0)).
Proof.
  intros Hi c s E HI. unfold upd_proc, elem_upd. destruct (k_procs s !! i) as [p|]; [|done]. split_and!; [done..|].
  pose proof (isolates_pid s i (set_p_pid 0 p) (k_nextpid s) Hi) as H. destruct s. apply H; [done|by left].
Qed.

Lemma keeps_fresh {A B} i (m : M kernel A) (k : A -> M kernel B) : i ∈ X -> keeps me init X (m ≫= k) ->
  keeps me init X ((gets k_nextpid ≫= fun pid => upd_proc i (set_p_pid pid) ≫= fun _ =>
    incr_int pid ≫= fun next => modify (set_k_nextpid next) ≫= fun _ => m) ≫= k).
Proof.
  intros Hi Hr c s E HI. rewrite bind_assoc, bind_gets, bind_assoc. unfold upd_proc.
  destruct (k_procs s !! i) as [p|] eqn:Ei; [|by unfold mbind, M_bind, elem_upd; rewrite Ei].
  rewrite (bind_elem_upd _ _ i p) by done. rewrite bind_assoc. destruct (Z.ltb_spec (k_nextpid s) (2 ^ 31 - 1)) as [Hlt|Hge].
  2: by unfold mbind, M_bind, incr_int; rewrite (proj2 (Z.ltb_ge _ _) Hge).
  rewrite bind_incr_int, bind_assoc, bind_modify by done. set (s1 := set_k_nextpid _ _).
  assert (R1 : isolates me init X s s1) by (apply isolates_pid; [done|lia|right; cbn; lia]).
  apply (stays_step _ _ _ _ s1); [done|]. by apply Hr.
Qed.
End pids.

Section proc.
Context (me : nat) (init : option nat) `{DiskDriver} `{Devsw} (Hd : drivers_keep me init).
Context (kend kdata trapret forkret : Z).

#[local] Hint Resolve dk_disk dk_read dk_write : within.

Lemma unused_taken s i : find_proc is_unused (k_procs s) 0 = Some i ->
  exists p, k_procs s !! i = Some p /\ ~ foreign me p.
Proof.
  intros (p & _ & Ep & Hp & _)%find_proc_Some. rewrite Nat.sub_0_r in Ep. exists p. split; [done|]. intros [N _].
  apply N. unfold is_unused, state_is in Hp. by case_bool_decide.
Qed.

Lemma dead_child_taken s i : wait_scan (k_procs s) 0 me false = inl i ->
  exists p, k_procs s !! i = Some p /\ ~ foreign me p.
Proof.
  intros E. pose proof (wait_scan_spec (k_procs s) me 0 false) as Hw. rewrite E in Hw.
  destruct Hw as (p & _ & Ep & Hc & Hz). rewrite Nat.sub_0_r in Ep. exists p. split; [done|]. intros [_ N]. apply N.
  split; [done|]. by apply bool_decide_eq_true in Hc.
Qed.

(** The table that [allocproc] and [wait] search is the one they then change. *)
Lemma keeps_locked {A} X lk (k : list proc -> M kernel A) :
  (forall c s, cur c = Z.of_nat me -> init_is init s -> stays me (init_is init) (isolates me init X) s (k (k_procs s) c s)) ->
  keeps me init X (acquire lk ≫= fun _ => gets k_procs ≫= k).
Proof.
  intros Hk c s E HI. destruct (decide (lk ∈ held c)) as [Hl|Hl].
  - unfold acquire, holding. autorewrite with run. by rewrite bool_decide_eq_true_2.
  - rewrite bind_acquire by done. rewrite bind_gets. by apply Hk.
Qed.

Lemma keeps_locked_bind {A B} X lk (f : list proc -> M kernel A) (k : A -> M kernel B) :
  (forall c s, cur c = Z.of_nat me -> init_is init s ->
    stays me (init_is init) (isolates me init X) s ((f (k_procs s) ≫= k) c s)) ->
  keeps me init X (acquire lk ≫= fun _ => (gets k_procs ≫= f) ≫= k).
Proof. exact (keeps_locked X lk (fun ps => f ps ≫= k)). Qed.

(** [allocproc] and what its caller does with the entry it finds. *)
Lemma keeps_allocproc {A} X (k : option nat -> M kernel A) : me ∈ X -> keeps me init X (k None) ->
  (forall np r, r = None \/ r = Some np -> keeps me init ({[np]} ∪ X) (k r)) ->
  keeps me init X (allocproc trapret forkret ≫= k).
Proof.
  intros HX Hn Hk. unfold allocproc. apply within_assoc.
  apply keeps_locked_bind.
  intros c s E HI. cbv beta. destruct (find_proc is_unused (k_procs s) 0) as [i|] eqn:Ef.
  - destruct (unused_taken s i Ef) as (p & Ei & Hf). apply (stays_reclaim _ _ _ i p); [done..| |done|done].
    specialize (Hk i). apply within_assoc, within_bind; [exact _|keeps|intros _]. apply keeps_fresh; [set_solver|].
    do 3 (apply within_assoc, within_bind; [exact _|keeps|intro]). destruct (_ =? 0).
    + apply within_assoc, within_bind; [exact _|keeps|intros _]. apply within_bind_ret, Hk. by left.
    + do 10 (apply within_assoc, within_bind; [exact _|keeps|intro]). apply within_bind_ret, Hk. by right.
  - assert (H1 : keeps me init X ((release ptable_lock ≫= fun _ => mret None) ≫= k)); [|by apply H1].
    apply within_assoc, within_bind; [exact _|keeps|intros _]. by apply within_bind_ret.
Qed.

Lemma keeps_dup_files X fs : me ∈ X -> forall i np, np ∈ X -> keeps me init X (dup_files fs i np).
Proof. intros HX. keeps_loop fs dup_files. Qed.
#[local] Hint Resolve keeps_dup_files : within.

Lemma keeps_fork X : me ∈ X -> keeps me init X (fork kend kdata trapret forkret).
Proof.
  intros HX. unfold fork. apply keeps_myproc, within_bind; [exact _|keeps|intros cp].
  apply keeps_allocproc; [done|keeps|]. intros np r Hr. assert (me ∈ {[np]} ∪ X) by set_solver.
  destruct Hr as [->| ->]; keeps.
Qed.

Lemma keeps_close_files X fs : me ∈ X -> forall fd, keeps me init X (close_files kend fs fd me).
Proof. intros HX. keeps_loop fs close_files. Qed.

(** An entry is looked at, and then changed. *)
Lemma keeps_look {A} X i (k : proc -> M kernel A) :
  (forall p c s, k_procs s !! i = Some p -> cur c = Z.of_nat me -> init_is init s ->
    stays me (init_is init) (isolates me init X) s (k p c s)) ->
  keeps me init X (proc_at i ≫= k).
Proof.
  intros Hk c s E HI. destruct (k_procs s !! i) as [p|] eqn:Ei.
  - unfold proc_at. rewrite (bind_elem_at _ _ p) by done. by apply Hk.
  - unfold mbind, M_bind, proc_at, elem_at. by rewrite Ei.
Qed.

Lemma stays_meddle {A} X i p g (k : unit -> M kernel A) c s : k_procs s !! i = Some p -> meddles me init p (g p) ->
  keeps me init X (k tt) -> cur c = Z.of_nat me -> init_is init s ->
  stays me (init_is init) (isolates me init X) s ((upd_proc i g ≫= k) c s).
Proof.
  intros Ei Hg Hk E HI. unfold upd_proc. rewrite (bind_elem_upd _ _ i p) by done. eapply stays_step; [exact _| |by apply Hk].
  apply (isolates_upd _ _ _ _ _ p); [done| |by right].
  change (p_pid (private (g p)) = p_pid (private p)). by rewrite (md_private _ _ _ _ Hg).
Qed.

Lemma keeps_reparent X n : me ∈ X -> forall i, keeps me init X (reparent n i me init).
Proof.
  intros HX. induction n as [|n IH]; intros i; cbn [reparent]; [keeps|].
  apply keeps_look. intros p c s Ei E HI. case_bool_decide as Hp; cbn [when]; [|by apply IH].
  rewrite bind_assoc. apply (stays_meddle _ _ p); [done|split; auto|keeps|done..].
Qed.
#[local] Hint Resolve keeps_close_files keeps_reparent : within.

Lemma keeps_exit X : me ∈ X -> keeps me init X (exit kend).
Proof. intros HX. unfold exit. keeps. Qed.

Lemma keeps_wait X : me ∈ X -> keeps me init X (wait kend).
Proof.
  intros HX. unfold wait. apply keeps_myproc, keeps_locked. intros c s E HI.
  destruct (wait_scan (k_procs s) 0 me false) as [i|kids] eqn:Ew.
  - destruct (dead_child_taken s i Ew) as (p & Ei & Hf). apply (stays_reclaim _ _ _ i p); [done..| |done|done].
    assert (keeps me init ({[i]} ∪ X) (upd_proc i (set_p_pid 0))) by (apply keeps_clear_pid; set_solver). keeps.
  - stay.
Qed.

Lemma keeps_kill X pid : me ∈ X -> keeps me init X (kill pid).
Proof.
  intros HX. unfold kill. do 2 (apply within_bind; [exact _|keeps|intros]). destruct (find_proc _ _ _) as [i|]; [|keeps].
  apply within_bind; [exact _|apply keeps_meddle; intros p; split; auto|intros _].
  apply keeps_look. intros p c s Ei E HI. destruct (state_is SLEEPING p) eqn:Hs; cbn [when].
  - apply bool_decide_eq_true in Hs. apply (stays_meddle _ _ p); [done|split; auto|keeps|done..].
  - rewrite bind_ret. stay.
Qed.
End proc.

#[export] Hint Resolve dk_disk dk_read dk_write keeps_fork keeps_exit keeps_wait keeps_kill : within.

(** ** The system calls *)

Section calls.
Context (me : nat) (init : option nat) `{DiskDriver} `{Devsw} (Hd : drivers_keep me init).
Context (X : gset nat) (HX : me ∈ X) (kend kdata trapret forkret : Z).

Lemma keeps_fdalloc f : keeps me init X (fdalloc f).
Proof. unfold fdalloc. keeps. Qed.
Lemma keeps_argfd n : keeps me init X (argfd kend n).
Proof. unfold argfd. keeps. Qed.
Lemma keeps_clear_fd fd : keeps me init X (clear_fd fd).
Proof. unfold clear_fd. keeps. Qed.
#[local] Hint Resolve keeps_fdalloc keeps_argfd keeps_clear_fd : within.

Lemma keeps_sys_dup : keeps me init X (sys_dup kend).
Proof. unfold sys_dup. keeps. Qed.
Lemma keeps_sys_read : keeps me init X (sys_read kend).
Proof. unfold sys_read. keeps. Qed.
Lemma keeps_sys_write : keeps me init X (sys_write kend).
Proof. unfold sys_write. keeps. Qed.
Lemma keeps_sys_close : keeps me init X (sys_close kend).
Proof. unfold sys_close. keeps. Qed.
Lemma keeps_store_stat va st : keeps me init X (store_stat kend va st).
Proof. unfold store_stat. keeps. Qed.
#[local] Hint Resolve keeps_sys_dup keeps_sys_read keeps_sys_write keeps_sys_close keeps_store_stat : within.

Lemma keeps_sys_fstat : keeps me init X (sys_fstat kend).
Proof. unfold sys_fstat. keeps. Qed.
Lemma keeps_link_bad ip : keeps me init X (link_bad ip).
Proof. unfold link_bad. keeps. Qed.
Lemma keeps_isdirempty_loop fuel : forall dp off, keeps me init X (isdirempty_loop fuel dp off).
Proof. keeps_loop fuel isdirempty_loop. Qed.
Lemma keeps_unlink_bad dp : keeps me init X (unlink_bad dp).
Proof. unfold unlink_bad. keeps. Qed.
#[local] Hint Resolve keeps_sys_fstat keeps_link_bad keeps_isdirempty_loop keeps_unlink_bad : within.

Lemma keeps_sys_link : keeps me init X (sys_link kend).
Proof. unfold sys_link. keeps. Qed.
Lemma keeps_isdirempty dp : keeps me init X (isdirempty dp).
Proof. unfold isdirempty. keeps. Qed.
Lemma keeps_create path type major minor : keeps me init X (create path type major minor).
Proof. unfold create. keeps. Qed.
#[local] Hint Resolve keeps_sys_link keeps_isdirempty keeps_create : within.

Lemma keeps_sys_unlink : keeps me init X (sys_unlink kend).
Proof. unfold sys_unlink. keeps. Qed.
Lemma keeps_open_inode ip omode : keeps me init X (open_inode kend ip omode).
Proof. unfold open_inode. keeps. Qed.
Lemma keeps_made r : keeps me init X (made r).
Proof. unfold made. keeps. Qed.
#[local] Hint Resolve keeps_sys_unlink keeps_open_inode keeps_made : within.

Lemma keeps_sys_open : keeps me init X (sys_open kend).
Proof. unfold sys_open. keeps. Qed.
Lemma keeps_sys_mkdir : keeps me init X (sys_mkdir kend).
Proof. unfold sys_mkdir. keeps. Qed.
Lemma keeps_sys_mknod : keeps me init X (sys_mknod kend).
Proof. unfold sys_mknod. keeps. Qed.
Lemma keeps_sys_chdir : keeps me init X (sys_chdir kend).
Proof. unfold sys_chdir. keeps. Qed.
Lemma keeps_fetch_argv n : forall uargv i, keeps me init X (fetch_argv kend n uargv i).
Proof. keeps_loop n fetch_argv. Qed.
Lemma keeps_sys_pipe : keeps me init X (sys_pipe kend).
Proof. unfold sys_pipe. keeps. Qed.
Lemma keeps_sys_symlink : keeps me init X (sys_symlink kend).
Proof. unfold sys_symlink. keeps. Qed.
Lemma keeps_sys_lseek : keeps me init X (sys_lseek kend).
Proof. unfold sys_lseek. keeps. Qed.
#[local] Hint Resolve keeps_sys_open keeps_sys_mkdir keeps_sys_mknod keeps_sys_chdir keeps_fetch_argv keeps_sys_pipe keeps_sys_symlink keeps_sys_lseek : within.

Lemma keeps_loaduvm_loop fuel : forall pgdir addr ip offset i sz, keeps me init X (loaduvm_loop fuel pgdir addr ip offset i sz).
Proof. keeps_loop fuel loaduvm_loop. Qed.
#[local] Hint Resolve keeps_loaduvm_loop : within.

Lemma keeps_loaduvm pgdir addr ip offset sz : keeps me init X (loaduvm pgdir addr ip offset sz).
Proof. unfold loaduvm. keeps. Qed.
Lemma keeps_push_args argv : forall argc pgdir sp, keeps me init X (push_args argv argc pgdir sp).
Proof. keeps_loop argv push_args. Qed.
#[local] Hint Resolve keeps_loaduvm keeps_push_args : within.

Lemma keeps_load_segments n : forall pgdir ip off sz, keeps me init X (load_segments kend n pgdir ip off sz).
Proof. keeps_loop n load_segments. Qed.
Lemma keeps_exec_bad pgdir ip : keeps me init X (exec_bad kend pgdir ip).
Proof. unfold exec_bad. keeps. Qed.
Lemma keeps_exec_commit path elf pgdir sz sp : keeps me init X (exec_commit kend me path elf pgdir sz sp).
Proof. unfold exec_commit. keeps. Qed.
#[local] Hint Resolve keeps_load_segments keeps_exec_bad keeps_exec_commit : within.

Lemma keeps_exec_stack path argv elf pgdir sz : keeps me init X (exec_stack kend me path argv elf pgdir sz).
Proof. unfold exec_stack. keeps. Qed.
#[local] Hint Resolve keeps_exec_stack : within.

Lemma keeps_exec path argv : keeps me init X (exec kend kdata path argv).
Proof. unfold exec. keeps. Qed.
#[local] Hint Resolve keeps_exec : within.

(** src/sysproc.c and the functions of src/proc.c it calls *)
Lemma keeps_set_sched_priority priority : keeps me init X (set_sched_priority priority).
Proof. unfold set_sched_priority. keeps. Qed.
Lemma keeps_get_sched_priority pid : keeps me init X (get_sched_priority pid).
Proof. unfold get_sched_priority. keeps. Qed.
Lemma keeps_fifo_position pid : keeps me init X (fifo_position pid).
Proof. unfold fifo_position. keeps. Qed.
Lemma keeps_ticks_running arg0 pid : keeps me init X (ticks_running arg0 pid).
Proof. unfold ticks_running. keeps. Qed.
Lemma keeps_sleep_test ticks0 n : keeps me init X (sleep_test ticks0 n).
Proof. unfold sleep_test. keeps. Qed.
#[local] Hint Resolve keeps_set_sched_priority keeps_get_sched_priority keeps_fifo_position keeps_ticks_running keeps_sleep_test : within.

(** The table: every entry of it. *)
Lemma keeps_syscall_list : Forall (fun m => keeps me init X m) (syscall_list kend kdata trapret forkret).
Proof.
  unfold syscall_list, sys_fork, sys_exit, sys_wait, sys_kill, sys_getpid, sys_exec, sys_sbrk, sys_sleep, sys_uptime,
    sys_set_sched_priority, sys_get_sched_priority, sys_fifo_position, sys_ticks_running.
  repeat constructor; keeps.
Qed.

Lemma keeps_syscalls num m : syscalls kend kdata trapret forkret num = Some m -> keeps me init X m.
Proof. unfold syscalls. destruct (num <=? 0); [done|]. by apply Forall_lookup_1, keeps_syscall_list. Qed.
#[local] Hint Resolve keeps_syscalls : within.

Lemma keeps_syscall : keeps me init X (syscall (syscalls kend kdata trapret forkret) NELEM_syscalls).
Proof. unfold syscall. keeps. destruct (_ && _); [eauto with within|discriminate]. Qed.
#[local] Hint Resolve keeps_syscall : within.

(** ** Traps and interrupts *)
Lemma keeps_print_pcs pcs : keeps me init X (print_pcs pcs).
Proof. keeps_loop pcs print_pcs. Qed.
#[local] Hint Resolve keeps_print_pcs : within.

Lemma keeps_dump_proc p : keeps me init X (dump_proc p).
Proof. unfold dump_proc. keeps. Qed.
#[local] Hint Resolve keeps_dump_proc : within.

Lemma keeps_dump_procs ps : keeps me init X (dump_procs ps).
Proof. keeps_loop ps dump_procs. Qed.
#[local] Hint Resolve keeps_dump_procs : within.

Lemma keeps_procdump : keeps me init X procdump.
Proof. unfold procdump. keeps. Qed.
#[local] Hint Resolve keeps_procdump : within.

Lemma keeps_kbdintr k : keeps me init X (kbdintr k).
Proof. unfold kbdintr. keeps. Qed.
Lemma keeps_uartintr u : keeps me init X (uartintr u).
Proof. unfold uartintr. keeps. Qed.
Lemma keeps_exit_if_killed user : keeps me init X (exit_if_killed kend user).
Proof. unfold exit_if_killed. keeps. Qed.
Lemma keeps_trap_syscall tf : keeps me init X (trap_syscall kend kdata trapret forkret tf).
Proof. unfold trap_syscall. keeps. Qed.
Lemma keeps_timer_tick cpuid : keeps me init X (timer_tick cpuid).
Proof. unfold timer_tick. keeps. Qed.
Lemma keeps_kill_self : keeps me init X kill_self.
Proof. unfold kill_self. keeps. Qed.
#[local] Hint Resolve keeps_kbdintr keeps_uartintr keeps_exit_if_killed keeps_trap_syscall keeps_timer_tick keeps_kill_self : within.

Lemma keeps_trap_tail user trapno : keeps me init X (trap_tail kend user trapno).
Proof. unfold trap_tail. keeps. Qed.
Lemma keeps_default_trap cpuid tf trapno cs cr2 : keeps me init X (default_trap cpuid tf trapno cs cr2).
Proof. unfold default_trap, frame_word. keeps. Qed.
Lemma keeps_spurious cpuid tf cs : keeps me init X (spurious cpuid tf cs).
Proof. unfold spurious, frame_word. keeps. Qed.
Lemma keeps_page_fault_LAZY cr2 : keeps me init X (page_fault_LAZY kend cr2).
Proof. unfold page_fault_LAZY. keeps. Qed.
Lemma keeps_page_loop_LOCALITY n : forall start i, keeps me init X (page_loop_LOCALITY kend n start i).
Proof. keeps_loop n page_loop_LOCALITY. Qed.
#[local] Hint Resolve keeps_spurious keeps_page_fault_LAZY keeps_page_loop_LOCALITY : within.
Lemma keeps_page_fault_LOCALITY cr2 : keeps me init X (page_fault_LOCALITY kend cr2).
Proof. unfold page_fault_LOCALITY. keeps. Qed.
#[local] Hint Resolve keeps_page_fault_LOCALITY : within.
#[local] Hint Resolve keeps_trap_tail keeps_default_trap : within.


(** The interrupt handlers, for what the devices have ready. *)
Context (k : kbd) (u : uartdev) (ide_ok : bool).
Abbreviation kbd_handler := (kbdintr k;; mret tt).
Abbreviation uart_handler := (uartintr u;; mret tt).

Lemma keeps_device_trap cpuid tf trapno cs h : device_trap kbd_handler uart_handler ide_ok cpuid tf trapno cs = Some h -> keeps me init X h.
Proof. unfold device_trap. repeat (destruct (_ : bool); [intros [= <-]; keeps|]). done. Qed.
#[local] Hint Resolve keeps_device_trap : within.

Lemma keeps_trap_LAZY cpuid tf trapno cs cr2 :
  keeps me init X (trap_LAZY kend kdata trapret forkret kbd_handler uart_handler ide_ok cpuid tf trapno cs cr2).
Proof. unfold trap_LAZY. keeps. Qed.

Lemma keeps_trap_LOCALITY cpuid tf trapno cs cr2 :
  keeps me init X (trap_LOCALITY kend kdata trapret forkret kbd_handler uart_handler ide_ok cpuid tf trapno cs cr2).
Proof. unfold trap_LOCALITY. keeps. Qed.

End calls.

(** ** The kernel as it is linked *)

Section kernel.
Context (driver : DiskDriver) (Hdriver : driver = memide_iderw \/ driver = ide_iderw).
Context (kend kdata trapret forkret : Z).

Lemma drivers_keep_console me init : @drivers_keep me init driver consoleinit.
Proof.
  assert (Hd : forall X i, me ∈ X -> keeps me init X (driver i)).
  { intros X i HX. destruct Hdriver as [->| ->]; [by apply keeps_memide_iderw|by apply keeps_ide_iderw]. }
  split; [exact Hd| |]; intros X major f ip; cbn; destruct (major =? CONSOLE); try done.
  - intros n HX [= <-]. apply keeps_consoleread; [done|]. intros i. by apply Hd.
  - intros src n HX [= <-]. apply keeps_consolewrite; [done|]. intros i. by apply Hd.
Qed.

(** A trap of the LAZY or of the LOCALITY kernel, with what the keyboard, the
    serial line and the disk report. *)
Record event := Event {
  ev_cpu : Z; ev_tf : Z; ev_trapno : Z; ev_cs : Z; ev_cr2 : Z;
  ev_kbd : kbd; ev_uart : uartdev; ev_ide_ok : bool;
}.
Definition trap (lazy : bool) (e : event) : M kernel unit :=
  (if lazy then @trap_LAZY driver consoleinit else @trap_LOCALITY driver consoleinit) kend kdata trapret forkret
    (kbdintr (ev_kbd e);; mret tt) (uartintr (ev_uart e);; mret tt) (ev_ide_ok e)
    (ev_cpu e) (ev_tf e) (ev_trapno e) (ev_cs e) (ev_cr2 e).

Lemma keeps_trap me init lazy e : keeps me init {[me]} (trap lazy e).
Proof.
  unfold trap. pose proof (drivers_keep_console me init) as Hd. assert (HX : me ∈ ({[me]} : gset nat)) by set_solver.
  destruct lazy; [by apply keeps_trap_LAZY|by apply keeps_trap_LOCALITY].
Qed.

(** The process running on [c] traps, and comes back to user space or gives up
    the CPU in [s']. *)
Inductive traps (me : nat) (s s' : kernel) : Prop :=
  | traps_done lazy e c c' : cur c = Z.of_nat me -> trap lazy e c s = Done tt c' s' -> traps me s s'
  | traps_sleep lazy e c chan : cur c = Z.of_nat me -> trap lazy e c s = Sleep chan s' -> traps me s s'.

Lemma traps_isolates me s s' : traps me s s' -> isolates me (k_initproc s) {[me]} s s'.
Proof.
  intros [lazy e c c' Hc E|lazy e c chan Hc E].
  - pose proof (keeps_trap me (k_initproc s) lazy e c s Hc eq_refl) as H. rewrite E in H. apply H.
  - pose proof (keeps_trap me (k_initproc s) lazy e c s Hc eq_refl) as H. rewrite E in H. apply H.
Qed.

(** A process that is neither free nor dead. *)
Definition alive (p : proc) : Prop := p_state p <> UNUSED /\ p_state p <> ZOMBIE.

(** What the other processes leave of an entry [p]. *)
Record undisturbed (p p' : proc) : Prop := {
  un_private : private p' = private p;
  un_state : p_state p' = p_state p \/ (p_state p = SLEEPING /\ p_state p' = RUNNABLE);
  un_killed : p_killed p = true -> p_killed p' = true;
}.

Lemma undisturbed_step me j s s' p : me <> j -> traps me s s' -> k_procs s !! j = Some p -> alive p ->
  exists p', k_procs s' !! j = Some p' /\ alive p' /\ undisturbed p p'.
Proof.
  intros N T Ej [U Z]. apply traps_isolates in T as [_ _ F].
  destruct (F j p) as (p' & Ej' & [A B _ D]); [set_solver|done|split; [done|naive_solver]|].
  exists p'. split_and!; [done| |by split]. destruct B as [B|[_ B]]; split; congruence.
Qed.

Lemma undisturbed_trans p q r : undisturbed p q -> undisturbed q r -> undisturbed p r.
Proof.
  intros [A B D] [A' B' D']. split; [congruence| |auto].
  destruct B as [B|[B B0]], B' as [B'|[B' B0']]; rewrite ?B', ?B0', ?B, ?B0; auto; right; split; congruence.
Qed.

(** The other processes trap, any number of times. *)
Definition others_trap (j : nat) (s s' : kernel) : Prop := exists me, me <> j /\ traps me s s'.

(** C4: processes are isolated in the kernel.  Take any sequence of system calls,
    page faults and interrupts of the other processes, each one followed until it
    returns or until the process gives up the processor in it (what the call does
    after it has been resumed is not part of the step).  It leaves the entry of a
    live process [j] as it was, but for a wake-up (from sleeping to runnable), a
    kill and its parent: its size, page table, kernel stack, trap frame, context,
    sleep channel, pid, open files, directory, name and times are the same, and a
    kill is never undone.  All the while a pid is never given to two entries; the
    counter of the pids is an [int], and a step in which it overflows has no
    outcome. *)
Theorem process_undisturbed (j : nat) (s s' : kernel) (p : proc) :
  rtc (others_trap j) s s' -> k_procs s !! j = Some p -> alive p -> pids_ok s ->
  (exists p', k_procs s' !! j = Some p' /\ alive p' /\ undisturbed p p') /\ pids_ok s'.
Proof.
  intros H. revert p. induction H as [s|s s1 s' (me & N & T) _ IH]; intros p Ej Hl Hp.
  - split; [|done]. exists p. split_and!; [done..|]. by split; auto.
  - destruct (undisturbed_step me j s s1 p N T Ej Hl) as (p1 & E1 & L1 & U1).
    destruct (IH p1 E1 L1 (is_pids _ _ _ _ _ (traps_isolates _ _ _ T) Hp)) as [(p' & E' & L' & U') Hp'].
    split; [|done]. exists p'. split_and!; [done..|by apply (undisturbed_trans _ p1)].
Qed.
End kernel.

(** Process 0 runs when the clock ticks, which wakes process 1. *)
Definition ex_sleeper : proc := set_p_pid 2 (set_p_chan chan_ticks (set_p_state SLEEPING ex_proc)).
Definition ex_two : kernel := set_k_nextpid 3 (set_k_procs [set_p_pid 1 ex_proc; ex_sleeper] ex_kernel).
Definition ex_ticked : kernel :=
  set_k_procs [set_p_state RUNNABLE (set_p_pid 1 ex_proc); set_p_state RUNNABLE ex_sleeper] (set_k_ticks 1 ex_two).
Definition ex_tick : event := Event 0 0 (T_IRQ0 + IRQ_TIMER) 0x23 0 (Kbd 0 []) (Uart true []) true.

Lemma process_undisturbed_witness :
  rtc (others_trap memide 0x80400000 0x80108000 0 0 1) ex_two ex_ticked /\ alive ex_sleeper /\ pids_ok ex_two /\
  (exists p', k_procs ex_ticked !! 1%nat = Some p' /\ alive p' /\ undisturbed ex_sleeper p') /\ pids_ok ex_ticked.
Proof.
  assert (H1 : rtc (others_trap memide 0x80400000 0x80108000 0 0 1) ex_two ex_ticked).
  { apply rtc_once. exists 0%nat. split; [discriminate|]. apply (traps_sleep _ _ _ _ _ _ _ _ true ex_tick ex_idle 0); reflexivity. }
  assert (H2 : alive ex_sleeper) by (split; discriminate).
  assert (H3 : pids_ok ex_two).
  { split; [reflexivity|]. split.
    - intros [|[|[|i]]] p [= <-]; reflexivity.
    - intros [|[|[|i]]] [|[|[|j]]] p q [= <-] [= <-]; done. }
  split; [exact H1|]. split; [exact H2|]. split; [exact H3|].
  apply (process_undisturbed memide (or_introl eq_refl) 0x80400000 0x80108000 0 0 1 ex_two ex_ticked ex_sleeper H1 eq_refl H2 H3).
Defined.

