(* ===== verification/Grep.v ===== *)
(** * The pattern matcher of grep (src/grep.c)

    A NUL-terminated string is the list of its characters, so the terminator is
    the end of the list.  The matcher is compared with the language its pattern
    denotes, and the loop that reads a file with the lines of the file. *)

From S2P Require Import Prelude.

Definition CARET : Z := 94.
Definition DOLLAR : Z := 36.
Definition DOT : Z := 46.
Definition STAR : Z := 42.
Definition NL : Z := 10.

(** ** The code *)

(** [matchstar] calls [matchhere] on the rest of the pattern, [here]. *)
Fixpoint matchstar (c : Z) (here : list Z -> bool) (text : list Z) : bool :=
  if here text then true
  else match text with
  | [] => false
  | t :: text' => if (t =? c) || (c =? DOT) then matchstar c here text' else false
  end.

Fixpoint matchhere (re text : list Z) {struct re} : bool :=
  match re with
  | [] => true
  | r0 :: re1 =>
    let rest :=
      if (r0 =? DOLLAR) && bool_decide (re1 = []) then bool_decide (text = [])
      else match text with
      | t :: text' => if (r0 =? DOT) || (r0 =? t) then matchhere re1 text' else false
      | [] => false
      end in
    match re1 with
    | r1 :: re2 => if r1 =? STAR then matchstar r0 (matchhere re2) text else rest
    | [] => rest
    end
  end.

(** The [do ... while] of [match]. *)
Fixpoint match_loop (re text : list Z) {struct text} : bool :=
  if matchhere re text then true
  else match text with [] => false | _ :: text' => match_loop re text' end.

Definition match_ (re text : list Z) : bool :=
  match re with
  | r0 :: re1 => if r0 =? CARET then matchhere re1 text else match_loop re text
  | [] => match_loop re text
  end.

(** [strchr(p, '\n')]: what is before the newline and what is after it. *)
Fixpoint strchr_nl (p : list Z) : option (list Z * list Z) :=
  match p with
  | [] => None
  | c :: p' =>
    if c =? 0 then None
    else if c =? NL then Some ([], p')
    else '(l, r) ← strchr_nl p'; Some (c :: l, r)
  end.

(** [while((q = strchr(p, '\n')) != 0)]: what is written, and the bytes from [p]
    on at the end.  Each round consumes at least the newline. *)
Fixpoint lines_loop (fuel : nat) (pattern p : list Z) : list Z * list Z :=
  match fuel with
  | O => ([], p)
  | S fuel' =>
    match strchr_nl p with
    | None => ([], p)
    | Some (line, p') =>
      let '(out, rest) := lines_loop fuel' pattern p' in
      ((if match_ pattern line then line ++ [NL] else []) ++ out, rest)
    end
  end.

Definition BUFSZ : nat := 1024.

(** [grep]: [buf] are the [m] bytes in the buffer, [input] is what the file still
    has, and [sizes] says how many bytes each [read] delivers at most. *)
Fixpoint grep_loop (sizes : list nat) (pattern buf input : list Z) : list Z :=
  match sizes with
  | [] => []
  | k :: sizes' =>
    let n := (k `min` (BUFSZ - length buf - 1) `min` length input)%nat in
    if (n =? 0)%nat then []
    else
      let b := buf ++ take n input in
      let '(out, p) := lines_loop (length b) pattern b in
      let buf' := if (length p =? length b)%nat then [] else p in
      out ++ grep_loop sizes' pattern buf' (drop n input)
  end.

Definition grep (sizes : list nat) (pattern input : list Z) : list Z := grep_loop sizes pattern [] input.

(** ** The language of a pattern *)

Inductive item : Type :=
  | One (c : Z)
  | Many (c : Z).

(** The items of a pattern, and whether it ends in [$]. *)
Fixpoint parse (re : list Z) : list item * bool :=
  match re with
  | [] => ([], false)
  | r0 :: re1 =>
    let rest := if (r0 =? DOLLAR) && bool_decide (re1 = []) then ([], true)
                else let '(l, e) := parse re1 in (One r0 :: l, e) in
    match re1 with
    | r1 :: re2 => if r1 =? STAR then let '(l, e) := parse re2 in (Many r0 :: l, e) else rest
    | [] => rest
    end
  end.

Definition accepts (c t : Z) : Prop := c = DOT \/ t = c.

Fixpoint denotes (l : list item) (w : list Z) : Prop :=
  match l with
  | [] => w = []
  | One c :: l' => exists t w', w = t :: w' /\ accepts c t /\ denotes l' w'
  | Many c :: l' => exists w1 w2, w = w1 ++ w2 /\ Forall (accepts c) w1 /\ denotes l' w2
  end.

(** A prefix of [text] is in the language, all of it if the pattern ends in [$]. *)
Definition prefix_matches (re text : list Z) : Prop :=
  exists w rest, text = w ++ rest /\ denotes (parse re).1 w /\ ((parse re).2 = true -> rest = []).

Definition found (re text : list Z) : Prop :=
  match re with
  | r0 :: re1 => if r0 =? CARET then prefix_matches re1 text else exists pre suf, text = pre ++ suf /\ prefix_matches re suf
  | [] => True
  end.

(** The lines of a text that end in a newline. *)
Fixpoint lines (text : list Z) : list (list Z) :=
  match text with
  | [] => []
  | c :: text' =>
    if c =? NL then [] :: lines text'
    else match lines text' with [] => [] | l :: ls => (c :: l) :: ls end
  end.

Definition selected (pattern text : list Z) : list Z :=
  concat ((fun l => l ++ [NL]) <$> filter (fun l => match_ pattern l = true) (lines text)).

(** ** The matcher *)

Lemma accepts_code c t : (t =? c) || (c =? DOT) = true <-> accepts c t.
Proof. unfold accepts. rewrite orb_true_iff, !Z.eqb_eq. tauto. Qed.

Lemma matchstar_spec c here text : matchstar c here text = true <->
  exists w1 w2, text = w1 ++ w2 /\ Forall (accepts c) w1 /\ here w2 = true.
Proof.
  induction text as [|t text IH]; cbn [matchstar].
  - split.
    + destruct (here []) eqn:E; [|done]. by exists [], [].
    + intros (w1 & w2 & [-> ->]%symmetry%app_eq_nil & _ & ->). done.
  - destruct (here (t :: text)) eqn:E; [split; [|done]; intros _; by exists [], (t :: text)|].
    destruct ((t =? c) || (c =? DOT)) eqn:Ea.
    + apply accepts_code in Ea. rewrite IH. split.
      * intros (w1 & w2 & -> & H1 & H2). exists (t :: w1), w2. by rewrite Forall_cons.
      * intros (w1 & w2 & Ew & H1 & H2). destruct w1 as [|x w1]; [cbn in Ew; congruence|]. cbn in Ew. injection Ew as -> ->.
        apply Forall_cons in H1 as [_ H1]. by exists w1, w2.
    + split; [done|]. intros (w1 & w2 & Ew & H1 & H2). destruct w1 as [|x w1]; [cbn in Ew; congruence|]. cbn in Ew. injection Ew as -> ->.
      apply Forall_cons in H1 as [Hx _]. apply accepts_code in Hx. congruence.
Qed.

(** The two ways a pattern that is not empty begins. *)
Lemma pattern_cases r0 re1 : (exists re2, re1 = STAR :: re2) \/
  (forall text, matchhere (r0 :: re1) text =
     if (r0 =? DOLLAR) && bool_decide (re1 = []) then bool_decide (text = [])
     else match text with
     | t :: text' => if (r0 =? DOT) || (r0 =? t) then matchhere re1 text' else false
     | [] => false
     end) /\
  parse (r0 :: re1) = (if (r0 =? DOLLAR) && bool_decide (re1 = []) then ([], true)
                       else let '(l, e) := parse re1 in (One r0 :: l, e)).
Proof.
  destruct re1 as [|r1 re2]; [by right|]. destruct (Z.eqb_spec r1 STAR) as [->|Hne]; [left; by exists re2|right].
  cbn [matchhere parse]. by rewrite (proj2 (Z.eqb_neq _ _) Hne).
Qed.

Lemma prefix_star r0 re2 text : prefix_matches (r0 :: STAR :: re2) text <->
  exists w1 w2, text = w1 ++ w2 /\ Forall (accepts r0) w1 /\ prefix_matches re2 w2.
Proof.
  unfold prefix_matches. change (parse (r0 :: STAR :: re2)) with (let '(l, e) := parse re2 in (Many r0 :: l, e)).
  destruct (parse re2) as [l e]. cbn [fst snd denotes]. split.
  - intros (w & rest & -> & (w1 & w2 & -> & H1 & H2) & He). exists w1, (w2 ++ rest). rewrite app_assoc. split; [done|]. split; [done|].
    by exists w2, rest.
  - intros (w1 & w2 & -> & H1 & w & rest & -> & H2 & He). exists (w1 ++ w), rest. rewrite app_assoc. split; [done|]. split; [|done].
    by exists w1, w.
Qed.

Lemma prefix_one r0 re1 text : parse (r0 :: re1) = (let '(l, e) := parse re1 in (One r0 :: l, e)) ->
  prefix_matches (r0 :: re1) text <-> exists t text', text = t :: text' /\ accepts r0 t /\ prefix_matches re1 text'.
Proof.
  intros E. unfold prefix_matches. rewrite E. destruct (parse re1) as [l e]. cbn [fst snd denotes]. split.
  - intros (w & rest & -> & (t & w' & -> & Ht & Hw) & He). exists t, (w' ++ rest). split; [done|]. split; [done|]. by exists w', rest.
  - intros (t & text' & -> & Ht & w & rest & -> & Hw & He). exists (t :: w), rest. split; [done|]. split; [|done]. by exists t, w.
Qed.

Lemma matchhere_spec re : forall text, matchhere re text = true <-> prefix_matches re text.
Proof.
  remember (length re) as n eqn:Hn. revert re Hn. induction n as [n IH] using lt_wf_ind. intros re -> text.
  destruct re as [|r0 re1]; [split; [|done]; intros _; by exists [], text|].
  destruct (pattern_cases r0 re1) as [(re2 & ->)|[Em Ep]].
  - cbn [matchhere]. rewrite Z.eqb_refl, matchstar_spec, prefix_star. split; intros (w1 & w2 & ? & ? & Hm); exists w1, w2; (split; [done|split; [done|]]).
    + eapply IH in Hm; [done| |done]. cbn. lia.
    + eapply IH; [|done|done]. cbn. lia.
  - rewrite Em. destruct ((r0 =? DOLLAR) && bool_decide (re1 = [])).
    + unfold prefix_matches. rewrite Ep. cbn. rewrite bool_decide_eq_true. split; [intros ->; by exists [], []|].
      intros (w & rest & -> & -> & He). by apply He.
    + rewrite prefix_one by done. destruct text as [|t text']; [split; [done|intros (? & ? & ? & _); done]|].
      assert (Hacc : (r0 =? DOT) || (r0 =? t) = true <-> accepts r0 t) by (unfold accepts; rewrite orb_true_iff, !Z.eqb_eq; intuition).
      split.
      * destruct (_ || _) eqn:Ea; [|done]. intros Hm. exists t, text'. split; [done|]. split; [by apply Hacc|].
        eapply IH in Hm; [done| |done]. cbn. lia.
      * intros (t' & text'' & Et & Ha & Hm). injection Et as <- <-. apply Hacc in Ha as ->. eapply IH; [|done|done]. cbn. lia.
Qed.

Lemma match_loop_spec re text : match_loop re text = true <-> exists pre suf, text = pre ++ suf /\ prefix_matches re suf.
Proof.
  induction text as [|t text IH]; cbn [match_loop].
  - destruct (matchhere re []) eqn:E.
    + split; [|done]. intros _. exists [], []. split; [done|]. by apply matchhere_spec.
    + split; [done|]. intros (pre & suf & [-> ->]%symmetry%app_eq_nil & Hs). apply matchhere_spec in Hs. congruence.
  - destruct (matchhere re (t :: text)) eqn:E.
    + split; [|done]. intros _. exists [], (t :: text). split; [done|]. by apply matchhere_spec.
    + rewrite IH. split.
      * intros (pre & suf & -> & Hs). by exists (t :: pre), suf.
      * intros (pre & suf & Et & Hs). destruct pre as [|x pre]; cbn in Et; [|injection Et as -> ->; by exists pre, suf].
        subst suf. apply matchhere_spec in Hs. congruence.
Qed.

(** ** The lines of a file *)

(** What follows the last newline. *)
Fixpoint unfinished (text : list Z) : list Z :=
  match text with
  | [] => []
  | _ :: text' => if decide (NL ∈ text) then unfinished text' else text
  end.

Lemma unfinished_none text : NL ∉ text -> unfinished text = text.
Proof. destruct text as [|c text]; [done|]. intros Hn. cbn [unfinished]. by rewrite decide_False. Qed.

Lemma unfinished_app l r : unfinished (l ++ NL :: r) = unfinished r.
Proof.
  induction l as [|c l IH]; cbn [app unfinished].
  - by rewrite decide_True by (apply elem_of_cons; by left).
  - rewrite decide_True; [exact IH|]. apply elem_of_cons. right. apply elem_of_app. right. apply elem_of_cons. by left.
Qed.

Lemma lines_app l r : NL ∉ l -> lines (l ++ NL :: r) = l :: lines r.
Proof.
  induction l as [|c l IH]; intros Hl; [done|]. apply not_elem_of_cons in Hl as [Hc Hl]. cbn [app lines].
  rewrite (proj2 (Z.eqb_neq c NL)) by congruence. by rewrite IH.
Qed.

Lemma lines_none l : NL ∉ l -> lines l = [].
Proof.
  induction l as [|c l IH]; intros Hl; [done|]. apply not_elem_of_cons in Hl as [Hc Hl]. cbn [lines].
  rewrite (proj2 (Z.eqb_neq c NL)) by congruence. by rewrite IH.
Qed.

Lemma strchr_nl_Some p l r : strchr_nl p = Some (l, r) -> p = l ++ NL :: r /\ NL ∉ l.
Proof.
  revert l r. induction p as [|c p IH]; intros l r; cbn [strchr_nl]; [done|]. destruct (c =? 0); [done|].
  destruct (Z.eqb_spec c NL) as [->|Hc]; [intros E; injection E as <- <-; split; [done|apply not_elem_of_nil]|].
  destruct (strchr_nl p) as [[l' r']|]; [|done]. cbn. intros E. injection E as <- <-. destruct (IH l' r' eq_refl) as [-> Hn].
  split; [done|]. apply not_elem_of_cons. split; congruence.
Qed.

Lemma strchr_nl_None p : 0 ∉ p -> strchr_nl p = None -> NL ∉ p.
Proof.
  induction p as [|c p IH]; intros Hz E; [apply not_elem_of_nil|]. apply not_elem_of_cons in Hz as [Hc Hz]. cbn [strchr_nl] in E.
  rewrite (proj2 (Z.eqb_neq c 0)) in E by congruence. destruct (Z.eqb_spec c NL) as [|Hn]; [done|].
  destruct (strchr_nl p) as [[]|]; [done|]. apply not_elem_of_cons. split; [congruence|by apply IH].
Qed.

Lemma selected_cons pattern l r : NL ∉ l ->
  selected pattern (l ++ NL :: r) = (if match_ pattern l then l ++ [NL] else []) ++ selected pattern r.
Proof.
  intros Hl. unfold selected. rewrite lines_app by done. rewrite filter_cons. destruct (match_ pattern l); [|done]. reflexivity.
Qed.

Lemma lines_loop_spec pattern fuel : forall p more, 0 ∉ p -> (length p <= fuel)%nat ->
  let '(out, rest) := lines_loop fuel pattern p in
  out ++ selected pattern (rest ++ more) = selected pattern (p ++ more) /\ rest = unfinished p.
Proof.
  induction fuel as [|fuel IH]; intros p more Hz Hlen.
  - assert (p = []) as -> by (apply nil_length_inv; lia). done.
  - cbn [lines_loop]. destruct (strchr_nl p) as [[l r]|] eqn:E.
    + apply strchr_nl_Some in E as [-> Hl]. rewrite length_app in Hlen. cbn in Hlen.
      assert (0 ∉ r) by (intros Hr; apply Hz; apply elem_of_app; right; apply elem_of_cons; by right).
      specialize (IH r more). destruct (lines_loop fuel pattern r) as [out rest]. destruct IH as [E ->]; [done|lia|].
      rewrite <- !app_assoc. cbn [app]. rewrite selected_cons, unfinished_app, <- E by done. done.
    + apply strchr_nl_None in E; [|done]. by rewrite unfinished_none.
Qed.

Lemma unfinished_length text : NL ∈ text -> (length (unfinished text) < length text)%nat.
Proof.
  induction text as [|c text IH]; intros Hin; [by apply not_elem_of_nil in Hin|]. cbn [unfinished]. rewrite decide_True by done. cbn.
  destruct (decide (NL ∈ text)) as [Hin'|Hn]; [specialize (IH Hin'); lia|]. rewrite unfinished_none by done. lia.
Qed.

Lemma unfinished_nl text : NL ∉ unfinished text.
Proof. induction text as [|c text IH]; [apply not_elem_of_nil|]. cbn [unfinished]. by case_decide. Qed.

(** Every [read] brings at least one byte and completes a line, until the file is
    exhausted. *)
Fixpoint completes (sizes : list nat) (buf input : list Z) : Prop :=
  match sizes with
  | [] => input = []
  | k :: sizes' =>
    let n := (k `min` (BUFSZ - length buf - 1) `min` length input)%nat in
    let b := buf ++ take n input in
    n <> 0%nat /\ NL ∈ b /\ completes sizes' (unfinished b) (drop n input)
  end.

Lemma not_elem_unfinished x text : x ∉ text -> x ∉ unfinished text.
Proof.
  induction text as [|c text IH]; intros Hx; [done|]. cbn [unfinished]. case_decide; [|done]. apply IH.
  by apply not_elem_of_cons in Hx as [_ ?].
Qed.

Lemma grep_loop_spec pattern sizes : forall buf input, 0 ∉ buf ++ input -> NL ∉ buf -> completes sizes buf input ->
  grep_loop sizes pattern buf input = selected pattern (buf ++ input).
Proof.
  induction sizes as [|k sizes IH]; intros buf input Hz Hnl Hc; cbn [completes] in Hc; cbn [grep_loop].
  - subst input. rewrite app_nil_r. unfold selected. by rewrite lines_none.
  - set (n := (k `min` (BUFSZ - length buf - 1) `min` length input)%nat) in *. destruct Hc as (Hn & Hb & Hc).
    rewrite (proj2 (Nat.eqb_neq n 0)) by done. set (b := buf ++ take n input) in *.
    assert (Eb : buf ++ input = b ++ drop n input) by (unfold b; by rewrite <- app_assoc, take_drop).
    rewrite Eb in *. apply not_elem_of_app in Hz as [Hzb Hzd].
    pose proof (lines_loop_spec pattern (length b) b (drop n input) Hzb (le_n _)) as Hl.
    destruct (lines_loop (length b) pattern b) as [out p]. destruct Hl as [<- ->].
    pose proof (unfinished_length b Hb) as Hlen. rewrite (proj2 (Nat.eqb_neq _ _)) by lia. f_equal. apply IH; [|apply unfinished_nl|done].
    apply not_elem_of_app. split; [by apply not_elem_unfinished|done].
Qed.

(** ** Theorems *)

(** C29: [match] of src/grep.c, a backtracking matcher on the text of the
    pattern, finds exactly the texts in which the pattern occurs: with [^] at
    the start of the text, else anywhere, and with [$] only at its end, where
    the pattern denotes a concatenation of characters, [.] and starred
    characters. *)
Theorem match_denotes (re text : list Z) : match_ re text = true <-> found re text.
Proof.
  unfold match_, found. destruct re as [|r0 re1]; [destruct text; done|].
  destruct (r0 =? CARET); [apply matchhere_spec|apply match_loop_spec].
Qed.

(** When every [read] completes a line, [grep] writes the complete lines of
    the file that match, in their order and each once, however the file is cut
    into reads. *)
Theorem grep_selects_lines (sizes : list nat) (pattern input : list Z) :
  0 ∉ input -> completes sizes [] input -> grep sizes pattern input = selected pattern input.
Proof. intros Hz Hc. apply grep_loop_spec; [done|apply not_elem_of_nil|done]. Qed.

Lemma grep_selects_lines_witness : grep [3; 5]%nat [98; STAR; 99] [97; NL; 98; 99; NL; 98; NL] = [98; 99; NL].
Proof.
  rewrite (grep_selects_lines [3; 5]%nat [98; STAR; 99] [97; NL; 98; 99; NL; 98; NL]).
  - reflexivity.
  - refine (bool_decide_unpack _ _). vm_compute. exact I.
  - cbn [completes]. split; [vm_compute; discriminate|]. split; [refine (bool_decide_unpack _ _); vm_compute; exact I|].
    split; [vm_compute; discriminate|]. split; [refine (bool_decide_unpack _ _); vm_compute; exact I|]. reflexivity.
Defined.

(** A line that a [read] does not complete is dropped: when the buffer holds
    no newline [grep] empties it, so the same file gives another output when it
    arrives in smaller pieces, as from a pipe. *)
Theorem grep_loses_split_lines : exists pattern input,
  grep [3]%nat pattern input = selected pattern input /\ grep [1; 2]%nat pattern input <> selected pattern input.
Proof. exists [97], [97; 98; NL]. split; [reflexivity|discriminate]. Qed.
