(* ===== verification/Umalloc.v ===== *)
(** * The user-space allocator (src/umalloc.c)

    The free blocks form a circular list in order of address, through the headers
    in front of them; [freep] points to some block of it.  The model keeps the
    headers in memory, at their byte addresses: [ptr] and [size] of a block are
    where the code left them, and a client may overwrite what it was given.  [sbrk]
    is the system call of src/sysproc.c: it moves the end of the process. *)

From S2P Require Import Prelude.

Record header := Hdr { ptr : Z; size : Z }.

(** [h_brk] is the end of the process's memory, which [sbrk] moves. *)
Record heap := Heap { h_mem : gmap Z header; h_freep : Z; h_brk : Z }.

Definition sizeof_Header : Z := 8.

Definition set_ptr (p v : Z) (m : gmap Z header) : option (gmap Z header) :=
  h ← m !! p; Some (<[p := Hdr v (size h)]> m).
Definition set_size (p v : Z) (m : gmap Z header) : gmap Z header :=
  <[p := Hdr (from_option ptr 0 (m !! p)) v]> m.

(** [sys_sbrk] (src/sysproc.c): the memory that ends at [brk] grows by [n], in
    any case; the old end is the result. *)
Definition sbrk (brk n : Z) : Z * Z := (i32 brk, u32 (brk + n)).

Section alloc.
(** [&base] *)
Context (base : Z).

(** The [for] loop of [free]: the free block after which [bp] belongs. *)
Fixpoint free_find (fuel : nat) (m : gmap Z header) (p bp : Z) : option Z :=
  match fuel with
  | O => None
  | S fuel' =>
    hp ← m !! p;
    if (bp >? p) && (bp <? ptr hp) then Some p
    else if (p >=? ptr hp) && ((bp >? p) || (bp <? ptr hp)) then Some p
    else free_find fuel' m (ptr hp) bp
  end.

(** The block [bp] joins the block after it, ... *)
Definition join_next (m : gmap Z header) (p bp : Z) : option (gmap Z header) :=
  hp ← m !! p;
  hb ← m !! bp;
  if bp + sizeof_Header * size hb =? ptr hp then
    hn ← m !! ptr hp;
    Some (<[bp := Hdr (ptr hn) (u32 (size hb + size hn))]> m)
  else set_ptr bp (ptr hp) m.

(** ... and the block before it joins [bp]. *)
Definition join_prev (m : gmap Z header) (p bp : Z) : option (gmap Z header) :=
  hp ← m !! p;
  hb ← m !! bp;
  if p + sizeof_Header * size hp =? bp then
    Some (<[p := Hdr (ptr hb) (u32 (size hp + size hb))]> m)
  else set_ptr p bp m.

(** The list has at most as many blocks as there are headers. *)
Definition fuel_of (m : gmap Z header) : nat := S (S (base.size m)).

Definition free (ap : Z) (h : heap) : option heap :=
  let bp := ap - sizeof_Header in
  p ← free_find (fuel_of (h_mem h)) (h_mem h) (h_freep h) bp;
  m1 ← join_next (h_mem h) p bp;
  m2 ← join_prev m1 p bp;
  Some (Heap m2 p (h_brk h)).

(** [p == (char* )-1] *)
Definition morecore (nu : Z) (h : heap) : option (Z * heap) :=
  let nu := if nu <? 4096 then 4096 else nu in
  let n := i32 (u32 (nu * sizeof_Header)) in
  let '(p, brk) := sbrk (h_brk h) n in
  if p =? -1 then Some (0, Heap (h_mem h) (h_freep h) brk)
  else
    let hp := u32 p in
    h' ← free (hp + sizeof_Header) (Heap (set_size hp nu (h_mem h)) (h_freep h) brk);
    Some (h_freep h', h').

(** The loop of [malloc]. *)
Fixpoint malloc_loop (fuel : nat) (nunits prevp p : Z) (h : heap) : option (Z * heap) :=
  match fuel with
  | O => None
  | S fuel' =>
    hp ← h_mem h !! p;
    if size hp >=? nunits then
      if size hp =? nunits then
        m ← set_ptr prevp (ptr hp) (h_mem h);
        Some (p + sizeof_Header, Heap m prevp (h_brk h))
      else
        let rest := size hp - nunits in
        let q := p + sizeof_Header * rest in
        Some (q + sizeof_Header, Heap (set_size q nunits (set_size p rest (h_mem h))) prevp (h_brk h))
    else if p =? h_freep h then
      '(p', h') ← morecore nunits h;
      if p' =? 0 then Some (0, h')
      else hp' ← h_mem h' !! p'; malloc_loop fuel' nunits p' (ptr hp') h'
    else malloc_loop fuel' nunits p (ptr hp) h
  end.

Definition units (nbytes : Z) : Z := u32 (u32 (nbytes + sizeof_Header - 1) / sizeof_Header + 1).

Definition malloc (nbytes : Z) (h : heap) : option (Z * heap) :=
  let nunits := units nbytes in
  let h1 := if h_freep h =? 0 then Heap (<[base := Hdr base 0]> (h_mem h)) base (h_brk h) else h in
  h0 ← h_mem h1 !! h_freep h1;
  malloc_loop (2 * fuel_of (h_mem h1) + 2) nunits (h_freep h1) (ptr h0) h1.
End alloc.

(** ** Lists of blocks *)

(** The first address of a list of blocks [(address, size)], or [e]. *)
Definition hd_addr (l : list (Z * Z)) (e : Z) : Z := match l with (a, _) :: _ => a | [] => e end.

(** The headers in [m] link the blocks [l], and the last one to [e]. *)
Fixpoint chain (m : gmap Z header) (l : list (Z * Z)) (e : Z) : Prop :=
  match l with
  | [] => True
  | (a, s) :: l' => m !! a = Some (Hdr (hd_addr l' e) s) /\ chain m l' e
  end.

(** The blocks [l] lie between [lo] and [hi] in order of address. *)
Fixpoint spaced (lo : Z) (l : list (Z * Z)) (hi : Z) : Prop :=
  match l with
  | [] => lo <= hi
  | (a, s) :: l' => lo <= a /\ 1 <= s /\ spaced (a + 8 * s) l' hi
  end.

Definition within (a s x : Z) : Prop := a <= x < a + 8 * s.
Definition covers (l : list (Z * Z)) (x : Z) : Prop := exists a s, (a, s) ∈ l /\ within a s x.

Lemma hd_addr_app l1 l2 e : hd_addr (l1 ++ l2) e = hd_addr l1 (hd_addr l2 e).
Proof. destruct l1 as [|[a s] l1]; reflexivity. Qed.

Lemma chain_app m l1 l2 e : chain m (l1 ++ l2) e <-> chain m l1 (hd_addr l2 e) /\ chain m l2 e.
Proof.
  induction l1 as [|[a s] l1 IH]; cbn [app chain]; [tauto|]. rewrite hd_addr_app, IH. tauto.
Qed.

Lemma chain_frame m m' l e : (forall a, a ∈ l.*1 -> m' !! a = m !! a) -> chain m l e -> chain m' l e.
Proof.
  induction l as [|[a s] l IH]; intros Hf; [done|]. cbn [chain fmap list_fmap fst] in *. intros [E Hc]. split.
  - rewrite Hf; [exact E|]. by left.
  - apply IH; [|exact Hc]. intros b Hb. apply Hf. by right.
Qed.

Lemma chain_insert m l e a h : a ∉ l.*1 -> chain m l e -> chain (<[a := h]> m) l e.
Proof. intros Ha. apply chain_frame. intros b Hb. apply lookup_insert_ne. by intros ->. Qed.

Lemma spaced_le lo l hi : spaced lo l hi -> lo <= hi.
Proof. revert lo. induction l as [|[a s] l IH]; intros lo; cbn; [done|]. intros (H1 & H2 & H3%IH). lia. Qed.

Lemma spaced_mono lo lo' l hi hi' : spaced lo l hi -> lo' <= lo -> hi <= hi' -> spaced lo' l hi'.
Proof.
  revert lo lo'. induction l as [|[a s] l IH]; intros lo lo'; cbn; [lia|]. intros (H1 & H2 & H3) Hlo Hhi.
  split; [lia|]. split; [done|]. apply (IH (a + 8 * s)); [done|lia|done].
Qed.

Lemma spaced_app lo l1 l2 hi : spaced lo (l1 ++ l2) hi <-> exists mid, spaced lo l1 mid /\ spaced mid l2 hi.
Proof.
  revert lo. induction l1 as [|[a s] l1 IH]; intros lo; cbn [app spaced].
  - split.
    + intros Hs. exists lo. by split; [lia|].
    + intros (mid & Hm & Hs). by eapply spaced_mono.
  - rewrite IH. split.
    + intros (H1 & H2 & mid & H3 & H4). by exists mid.
    + intros (mid & (H1 & H2 & H3) & H4). split; [done|]. split; [done|]. by exists mid.
Qed.

Lemma spaced_elem lo l hi a s : spaced lo l hi -> (a, s) ∈ l -> lo <= a /\ 1 <= s /\ a + 8 * s <= hi.
Proof.
  intros Hs (l1 & l2 & ->)%list_elem_of_split. apply spaced_app in Hs as (mid & H1%spaced_le & H2 & H3 & H4%spaced_le). lia.
Qed.

Lemma spaced_addr lo l hi a : spaced lo l hi -> a ∈ l.*1 -> lo <= a < hi.
Proof. intros Hs ([b s] & -> & Hin)%list_elem_of_fmap. destruct (spaced_elem _ _ _ _ _ Hs Hin). cbn. lia. Qed.

Lemma spaced_out lo l hi a : spaced lo l hi -> a < lo \/ hi <= a -> a ∉ l.*1.
Proof. intros Hs Ho Hin. pose proof (spaced_addr _ _ _ _ Hs Hin). lia. Qed.

Lemma covers_app l1 l2 x : covers (l1 ++ l2) x <-> covers l1 x \/ covers l2 x.
Proof. unfold covers. setoid_rewrite elem_of_app. naive_solver. Qed.

Lemma covers_cons a s l x : covers ((a, s) :: l) x <-> within a s x \/ covers l x.
Proof.
  unfold covers. setoid_rewrite elem_of_cons. split.
  - intros (b & t & [E|Hin] & Hw); [injection E as -> ->; by left|right; by exists b, t].
  - intros [Hw|(b & t & Hin & Hw)]; [exists a, s; split; [by left|done]|exists b, t; split; [by right|done]].
Qed.

(** A block that overlaps none of [l] has a place in it. *)
Lemma spaced_split lo l hi b s : spaced lo l hi -> lo <= b -> b + 8 * s <= hi -> 1 <= s ->
  (forall x, within b s x -> ~ covers l x) -> exists l1 l2, l = l1 ++ l2 /\ spaced lo l1 b /\ spaced (b + 8 * s) l2 hi.
Proof.
  revert lo. induction l as [|[a t] l IH]; intros lo Hs Hlo Hhi H1 Hd.
  - exists [], []. by repeat split.
  - destruct Hs as (Ha & Ht & Hs). assert (Hdl : forall x, within b s x -> ~ covers l x).
    { intros x Hx Hc. apply (Hd x Hx). apply covers_cons. by right. }
    assert (Hda : forall x, within b s x -> ~ within a t x).
    { intros x Hx Hc. apply (Hd x Hx). apply covers_cons. by left. }
    unfold within in Hda. destruct (decide (b < a)) as [Hba|Hba].
    + exists [], ((a, t) :: l). split; [done|]. split; [done|]. cbn. split; [|done].
      destruct (decide (b + 8 * s <= a)); [done|]. exfalso. apply (Hda a); lia.
    + destruct (decide (a + 8 * t <= b)) as [Hab|Hab]; [|exfalso; apply (Hda b); lia].
      destruct (IH (a + 8 * t) Hs Hab Hhi H1 Hdl) as (l1 & l2 & -> & Hs1 & Hs2). exists ((a, t) :: l1), l2. by repeat split.
Qed.

(** ** The search of [free] *)

Fixpoint ascending (l : list (Z * Z)) (e : Z) : Prop :=
  match l with [] => True | (a, _) :: l' => a < hd_addr l' e /\ ascending l' e end.

Lemma spaced_ascending lo l hi e : spaced lo l hi -> hi <= e -> ascending l e.
Proof.
  revert lo. induction l as [|[a s] l IH]; intros lo; cbn; [done|]. intros (H1 & H2 & H3) He. split; [|by eapply IH].
  destruct l as [|[b t] l]; cbn in *; lia.
Qed.

Lemma ascending_hd l e : ascending l e -> hd_addr l e <= e.
Proof. induction l as [|[a s] l IH]; cbn; [done|]. intros [Ha Hl%IH]. lia. Qed.

Lemma ascending_app l1 l2 e : ascending (l1 ++ l2) e -> ascending l1 (hd_addr l2 e) /\ ascending l2 e.
Proof.
  induction l1 as [|[a s] l1 IH]; cbn [app ascending]; [done|]. rewrite hd_addr_app. intros [Ha Hl%IH]. tauto.
Qed.

(** The loop of [free] goes on at each block of [l]. *)
Definition stops (bp p nx : Z) : bool :=
  (bp >? p) && (bp <? nx) || (p >=? nx) && ((bp >? p) || (bp <? nx)).
Fixpoint passes (bp : Z) (l : list (Z * Z)) (e : Z) : Prop :=
  match l with [] => True | (a, _) :: l' => stops bp a (hd_addr l' e) = false /\ passes bp l' e end.

Lemma free_find_unfold fuel m p bp nx s : m !! p = Some (Hdr nx s) ->
  free_find (S fuel) m p bp = if stops bp p nx then Some p else free_find fuel m nx bp.
Proof. intros E. cbn [free_find]. rewrite E. cbn. unfold stops. by destruct (_ && _); [|destruct (_ && _)]. Qed.

Lemma free_find_pass m bp l e fuel : chain m l e -> passes bp l e ->
  free_find (length l + fuel) m (hd_addr l e) bp = free_find fuel m e bp.
Proof.
  induction l as [|[a s] l IH]; [done|]. intros [E Hc] [Hs Hp]. cbn [length Nat.add hd_addr].
  rewrite (free_find_unfold _ _ _ _ _ _ E), Hs. by apply IH.
Qed.

Lemma passes_before bp l e : ascending l e -> e < bp -> passes bp l e.
Proof.
  induction l as [|[a s] l IH]; [done|]. intros [Ha Hl] He. split; [|by apply IH]. pose proof (ascending_hd l e Hl). unfold stops.
  rewrite !Z.gtb_ltb, !Z.geb_leb. destruct (Z.ltb_spec bp (hd_addr l e)), (Z.leb_spec (hd_addr l e) a); lia || by rewrite !andb_false_r.
Qed.

Lemma passes_after lo bp base l hi : spaced lo l hi -> bp < lo -> base < bp -> passes bp l base.
Proof.
  revert lo. induction l as [|[a s] l IH]; intros lo; [done|]. intros (H1 & H2 & H3) Hlo Hb. split; [|eapply IH; [done|lia|done]].
  unfold stops. rewrite !Z.gtb_ltb, !Z.geb_leb, (proj2 (Z.ltb_ge a bp)) by lia. cbn [andb orb].
  destruct l as [|[b t] l]; cbn [hd_addr].
  - rewrite (proj2 (Z.ltb_ge bp base)) by lia. apply andb_false_r.
  - cbn in H3. by rewrite (proj2 (Z.leb_gt b a)) by lia.
Qed.

Lemma stops_pred bp p nx base : p < bp -> nx = base \/ bp < nx -> base <= p -> stops bp p nx = true.
Proof.
  intros Hp Hnx Hb. unfold stops. rewrite !Z.gtb_ltb, !Z.geb_leb, (proj2 (Z.ltb_lt p bp)) by lia. cbn [andb orb].
  destruct Hnx as [->|Hnx]; [|by rewrite (proj2 (Z.ltb_lt bp nx)) by lia]. rewrite (proj2 (Z.leb_le base p)) by lia. apply orb_true_r.
Qed.

Lemma chain_elem m l e a : chain m l e -> a ∈ l.*1 -> is_Some (m !! a).
Proof.
  induction l as [|[b s] l IH]; cbn; [by intros _ ?%not_elem_of_nil|]. intros [E Hc] [->|Hin]%elem_of_cons; [by eexists|by apply IH].
Qed.

Lemma ascending_NoDup l e : ascending l e -> NoDup l.*1.
Proof.
  assert (Hlt : forall l e, ascending l e -> forall b, b ∈ l.*1 -> hd_addr l e <= b).
  { clear. induction l as [|[a s] l IH]; intros e; cbn; [by intros _ b ?%not_elem_of_nil|].
    intros [Ha Hl] b [->|Hin]%elem_of_cons; [lia|]. specialize (IH e Hl b Hin). lia. }
  induction l as [|[a s] l IH]; cbn; [intros _; apply NoDup_nil_2|]. intros [Ha Hl]. apply NoDup_cons. split; [|by apply IH].
  intros Hin. specialize (Hlt l e Hl a Hin). lia.
Qed.

Lemma chain_length m l e e' : chain m l e -> ascending l e' -> (length l <= stdpp.base.size m)%nat.
Proof.
  intros Hc Ha. rewrite <- size_dom, <- (length_fmap fst l), <- (size_list_to_set (C := gset Z)) by by eapply ascending_NoDup.
  apply subseteq_size. intros a. rewrite elem_of_list_to_set, elem_of_dom. by apply chain_elem with e.
Qed.

Lemma passes_app bp l1 l2 e : passes bp l1 (hd_addr l2 e) -> passes bp l2 e -> passes bp (l1 ++ l2) e.
Proof. induction l1 as [|[a s] l1 IH]; [done|]. cbn [app passes]. rewrite hd_addr_app. intros [Hs Hp] H2. split; [done|]. by apply IH. Qed.

Lemma addr_split (l : list (Z * Z)) a : a ∈ l.*1 -> exists l1 s l2, l = l1 ++ (a, s) :: l2.
Proof. intros ([b s] & -> & (l1 & l2 & ->)%list_elem_of_split)%list_elem_of_fmap. by exists l1, s, l2. Qed.

Section search.
Context (base hi : Z) (m : gmap Z header) (l1 l2 : list (Z * Z)) (bp s : Z).
Context (Hs : 1 <= s) (Hl1 : spaced (base + 8) l1 bp) (Hl2 : spaced (bp + 8 * s) l2 hi).
Context (Hc : chain m ((base, 0) :: l1 ++ l2) base).
Context (k : list (Z * Z)) (p ps : Z) (Hk : (base, 0) :: l1 = k ++ [(p, ps)]).

Abbreviation nodes := ((base, 0) :: l1 ++ l2).

Lemma list_at_pred : (base, 0) :: l1 ++ l2 = k ++ (p, ps) :: l2.
Proof using Hk. change ((base, 0) :: l1 ++ l2) with (((base, 0) :: l1) ++ l2). by rewrite Hk, <- app_assoc. Qed.

Lemma base_bp : base + 8 <= bp.
Proof using Hl1. by eapply spaced_le. Qed.

Lemma before_ascending : ascending (k ++ [(p, ps)]) bp.
Proof using Hk Hl1 Hc.
  rewrite <- Hk. split; [|by eapply spaced_ascending]. pose proof base_bp. destruct l1 as [|[a t] l1']; cbn in *; lia.
Qed.

Lemma pred_lt : base <= p < bp.
Proof using Hk Hl1 Hc.
  destruct (ascending_app _ _ _ before_ascending) as [_ [Hp _]]. split; [|exact Hp].
  assert (Hin : p ∈ ((base, 0) :: l1).*1) by (rewrite Hk, fmap_app; apply elem_of_app; right; by left).
  cbn in Hin. apply elem_of_cons in Hin as [->|Hin]; [lia|]. pose proof (spaced_addr _ _ _ _ Hl1 Hin). lia.
Qed.

Lemma pred_parts : chain m k p /\ m !! p = Some (Hdr (hd_addr l2 base) ps) /\ chain m l2 base /\ hd_addr k p = base.
Proof using Hc Hk Hl1.
  rewrite list_at_pred in Hc. apply chain_app in Hc as [H1 [H2 H3]]. split; [done|]. split; [done|]. split; [done|].
  destruct k as [|[a t] k']; cbn in Hk; injection Hk; [by intros _ _ ->|by intros _ _ ->].
Qed.

Lemma find_path f : f ∈ nodes.*1 ->
  exists seg, chain m seg p /\ passes bp seg p /\ hd_addr seg p = f /\ (length seg <= length nodes)%nat.
Proof using Hs Hl1 Hl2 Hc Hk.
  destruct pred_parts as (C1 & C2 & C3 & Hb). pose proof pred_lt as Hp. pose proof base_bp as Hbb.
  destruct (ascending_app _ _ _ before_ascending) as [Hak _]. cbn [hd_addr] in Hak.
  rewrite list_at_pred. rewrite fmap_app, elem_of_app. cbn [fmap list_fmap fst]. rewrite elem_of_cons. intros [Hf|[->|Hf]].
  - apply addr_split in Hf as (k1 & t & k2 & Ek). rewrite Ek in C1, Hak. apply chain_app in C1 as [_ C1]. apply ascending_app in Hak as [_ Hak].
    exists ((f, t) :: k2). split; [done|]. split; [apply passes_before; [exact Hak|lia]|]. split; [done|]. rewrite Ek, !length_app. cbn. lia.
  - exists []. repeat split. cbn. lia.
  - apply addr_split in Hf as (m1 & t & m2 & El). rewrite El in C3, Hl2. apply chain_app in C3 as [_ C3].
    apply spaced_app in Hl2 as (mid & Hm & Hl2'). exists (((f, t) :: m2) ++ k). rewrite chain_app, Hb. split; [done|].
    split; [|split; [done|rewrite El, !length_app; cbn; rewrite length_app; cbn; lia]]. apply passes_app; [|apply passes_before; [exact Hak|lia]].
    rewrite Hb. apply spaced_le in Hm. eapply passes_after; [exact Hl2'|lia|lia].
Qed.

Lemma free_find_run f : f ∈ nodes.*1 -> free_find (fuel_of m) m f bp = Some p.
Proof using Hs Hl1 Hl2 Hc Hk.
  intros Hf. destruct (find_path f Hf) as (seg & C & P & Hh & Hlen). destruct pred_parts as (_ & Ep & _). pose proof pred_lt as Hp.
  assert (Hasc : ascending nodes hi).
  { pose proof base_bp as Hb. pose proof (spaced_le _ _ _ Hl2) as Hle.
    assert (Hsp : spaced (base + 8) (l1 ++ l2) hi) by (apply spaced_app; exists bp; split; [done|eapply spaced_mono; [exact Hl2|lia|lia]]).
    split; [|eapply spaced_ascending; [exact Hsp|lia]]. destruct (l1 ++ l2) as [|[a t] l]; cbn in *; lia. }
  pose proof (chain_length _ _ _ _ Hc Hasc) as Hsz. unfold fuel_of.
  replace (S (S (stdpp.base.size m))) with (length seg + S (S (stdpp.base.size m) - length seg))%nat by lia.
  rewrite <- Hh, (free_find_pass _ _ _ _ _ C P), (free_find_unfold _ _ _ _ _ _ Ep).
  rewrite (stops_pred bp p _ base); [done|lia| |lia].
  destruct l2 as [|[a t] l2']; [by left|right]. cbn in *. lia.
Qed.
End search.

(** ** The block joins its neighbours *)

Section join.
Context (base hi : Z) (m : gmap Z header) (l1 l2 : list (Z * Z)) (bp s q : Z).
Context (Hs : 1 <= s) (Hl1 : spaced (base + 8) l1 bp) (Hl2 : spaced (bp + 8 * s) l2 hi).
Context (Hc : chain m ((base, 0) :: l1 ++ l2) base) (Hbp : m !! bp = Some (Hdr q s)) (Hbase : 0 < base) (Hhi : hi <= 2 ^ 31).
Context (k : list (Z * Z)) (p ps : Z) (Hk : (base, 0) :: l1 = k ++ [(p, ps)]).

Abbreviation bb := (base_bp base l1 bp Hl1).
Abbreviation pp := (pred_parts base m l1 l2 bp Hl1 Hc k p ps Hk).
Abbreviation pl := (pred_lt base m l1 l2 bp Hl1 Hc k p ps Hk).

Lemma join_next_run : exists s' l2', join_next m p bp = Some (<[bp := Hdr (hd_addr l2' base) s']> m) /\
  chain m l2' base /\ spaced (bp + 8 * s') l2' hi /\ 1 <= s' /\
  (forall x, covers ((bp, s') :: l2') x <-> covers ((bp, s) :: l2) x) /\ s <= s' /\ (length l2' <= length l2)%nat.
Proof using Hs Hl1 Hl2 Hc Hbp Hbase Hhi Hk.
  destruct pp as (_ & Ep & C3 & _). pose proof pl as Hp. unfold join_next. rewrite Ep. cbn. rewrite Hbp. cbn.
  destruct (Z.eqb_spec (bp + sizeof_Header * s) (hd_addr l2 base)) as [E|Hne].
  - destruct l2 as [|[a t] l3]; cbn [hd_addr] in E; [unfold sizeof_Header in E; lia|]. cbn [chain] in C3. destruct C3 as [Ea C3].
    cbn in Hl2. destruct Hl2 as (Ha & Ht & Hl3). pose proof (spaced_le _ _ _ Hl3) as Hle. cbn [hd_addr]. rewrite Ea. cbn.
    exists (s + t), l3. unfold sizeof_Header in E. split; [|split; [done|split; [|split; [lia|split]]]].
    + do 3 f_equal. unfold u32. apply Z.mod_small. lia.
    + replace (bp + 8 * (s + t)) with (a + 8 * t) by lia. done.
    + intros x. rewrite !covers_cons. unfold within. split.
      * intros [Hx|Hx]; [|tauto]. destruct (decide (x < a)); [left|right; left]; lia.
      * intros [Hx|[Hx|Hx]]; [left; lia|left; lia|tauto].
    + split; [lia|cbn; lia].
  - exists s, l2. unfold set_ptr. rewrite Hbp. cbn. by repeat split.
Qed.

(** The list after [free] of the block. *)
Lemma joined : exists m' fl, (m1 ← join_next m p bp; join_prev m1 p bp) = Some m' /\
  chain m' ((base, 0) :: fl) base /\ spaced (base + 8) fl hi /\ p ∈ ((base, 0) :: fl).*1 /\
  (forall x, covers fl x <-> covers (l1 ++ l2) x \/ within bp s x) /\
  (forall a, a <> bp -> a <> p -> m' !! a = m !! a) /\ (exists a t, (a, t) ∈ fl /\ s <= t) /\
  (length fl <= S (length (l1 ++ l2)))%nat.
Proof using Hs Hl1 Hl2 Hc Hbp Hbase Hhi Hk.
  destruct pp as (C1 & Ep & _ & Hb). pose proof pl as Hp. pose proof bb as Hbb.
  destruct join_next_run as (s' & l2' & E1 & C3 & Hl2' & Hs' & Hcov & Hss & Hll). rewrite E1. cbn [mbind option_bind]. unfold join_prev.
  rewrite (lookup_insert_ne m bp p) by lia. rewrite Ep. cbn [mbind option_bind]. rewrite lookup_insert_eq. cbn [mbind option_bind size ptr].
  assert (Hk1 : forall a, a ∈ k.*1 -> a < p).
  { pose proof (before_ascending base m l1 l2 bp Hl1 Hc k p ps Hk) as Ha.
    intros a (k1 & t & k2 & Ek)%addr_split. rewrite Ek in Ha. apply ascending_app in Ha as [Ha _]. apply ascending_app in Ha as [_ Ha].
    cbn [hd_addr] in Ha. pose proof (ascending_hd _ _ (proj2 Ha)). destruct Ha as [Ha _]. lia. }
  assert (Hout2 : forall a, a ∈ l2'.*1 -> bp < a) by (intros a Ha; pose proof (spaced_addr _ _ _ _ Hl2' Ha); lia).
  pose proof (spaced_le _ _ _ Hl2') as Hle.
  assert (Hframe : forall h h' l e, (forall a, a ∈ l.*1 -> a <> bp /\ a <> p) -> chain m l e -> chain (<[p := h]> (<[bp := h']> m)) l e).
  { intros h h' l e Ho Hch. apply chain_insert; [intros Hin; destruct (Ho _ Hin); congruence|]. apply chain_insert; [intros Hin; destruct (Ho _ Hin); congruence|done]. }
  assert (Fk : forall h h' e, chain m k e -> chain (<[p := h]> (<[bp := h']> m)) k e) by
    (intros h h' e; apply Hframe; intros a Ha%Hk1; lia).
  assert (F2 : forall h h' e, chain m l2' e -> chain (<[p := h]> (<[bp := h']> m)) l2' e) by
    (intros h h' e; apply Hframe; intros a Ha%Hout2; lia).
  assert (Hcovt : forall x, covers (l1 ++ l2) x \/ within bp s x <-> covers l1 x \/ covers ((bp, s') :: l2') x).
  { intros x. rewrite Hcov, covers_app, covers_cons. tauto. }
  unfold set_ptr. rewrite lookup_insert_ne by lia. rewrite Ep. cbn [mbind option_bind size ptr].
  destruct (Z.eqb_spec (p + sizeof_Header * ps) bp) as [E|Hne]; unfold sizeof_Header in *.
  - destruct k as [|x k']; cbn in Hk; [injection Hk; intros; lia|]. injection Hk as <- El1. rewrite El1 in Hl1. apply spaced_app in Hl1 as (mid & S1 & S2 & S3 & S4).
    eexists _, (k' ++ (p, ps + s') :: l2'). split; [reflexivity|]. split; [|split; [|split; [|split]]].
    + change ((base, 0) :: k' ++ (p, ps + s') :: l2') with (((base, 0) :: k') ++ (p, ps + s') :: l2').
      rewrite (chain_app _ ((base, 0) :: k') ((p, ps + s') :: l2') base). split; [by apply Fk|]. split; [|by apply F2]. rewrite lookup_insert_eq. do 2 f_equal. unfold u32. apply Z.mod_small.
      pose proof (spaced_le _ _ _ S1). lia.
    + apply spaced_app. exists mid. split; [done|]. split; [done|]. split; [lia|]. by replace (p + 8 * (ps + s')) with (bp + 8 * s') by lia.
    + cbn. right. rewrite fmap_app. apply elem_of_app. right. by left.
    + intros x. rewrite Hcovt, El1, !covers_app, !covers_cons. assert (Hn : ~ covers [] x) by (intros (? & ? & Hin%not_elem_of_nil & _); done).
      unfold within. destruct (decide (x < bp)); intuition lia.
    + split; [intros a Ha1 Ha2; by rewrite !lookup_insert_ne|]. split; [|rewrite El1, !length_app; cbn; lia].
      exists p, (ps + s'). split; [|lia]. apply elem_of_app. right. by left.
  - eexists _, (l1 ++ (bp, s') :: l2'). split; [reflexivity|]. split; [|split; [|split; [|split]]].
    + change ((base, 0) :: l1 ++ (bp, s') :: l2') with (((base, 0) :: l1) ++ (bp, s') :: l2'). rewrite Hk, <- app_assoc. cbn [app].
      apply chain_app. split; [by apply Fk|]. split; [by rewrite lookup_insert_eq|]. split; [|by apply F2].
      rewrite lookup_insert_ne by lia. by rewrite lookup_insert_eq.
    + apply spaced_app. exists bp. split; [done|]. split; [lia|]. by split.
    + change ((base, 0) :: l1 ++ (bp, s') :: l2') with (((base, 0) :: l1) ++ (bp, s') :: l2'). rewrite Hk, !fmap_app.
      apply elem_of_app. left. apply elem_of_app. right. by left.
    + intros x. rewrite Hcovt, covers_app. tauto.
    + split; [intros a Ha1 Ha2; by rewrite !lookup_insert_ne|]. split; [|rewrite !length_app; cbn; lia].
      exists bp, s'. split; [|lia]. apply elem_of_app. right. by left.
Qed.
End join.

(** ** The heap *)

Lemma units_bound n : 0 <= n <= 2 ^ 29 -> n + 8 <= 8 * units n /\ 1 <= units n <= 2 ^ 27.
Proof. intros Hn. unfold units, sizeof_Header. word. Qed.

(** What [morecore] may ask for is below 2 GB. *)
Definition room (nu : Z) (h : heap) : Prop := h_brk h + 8 * Z.max 4096 nu <= 2 ^ 31.

Section heap.
Context (base : Z).

(** The free list is [fl]. *)
Record fl_ok (h : heap) (fl : list (Z * Z)) : Prop := FlOk {
  fl_chain : chain (h_mem h) ((base, 0) :: fl) base;
  fl_freep : h_freep h ∈ ((base, 0) :: fl).*1;
  fl_spaced : spaced (base + 8) fl (h_brk h);
  fl_base : 0 < base;
  fl_brk : h_brk h <= 2 ^ 31;
}.

(** The blocks [live] are in use. *)
Record live_ok (h : heap) (fl : list (Z * Z)) (live : gmap Z Z) : Prop := LiveOk {
  lv_range : forall a s, live !! a = Some s -> base + 8 <= a /\ 1 <= s /\ a + 8 * s <= h_brk h;
  lv_header : forall a s, live !! a = Some s -> exists q, h_mem h !! a = Some (Hdr q s);
  lv_used : forall a s x, live !! a = Some s -> within a s x -> ~ covers fl x;
  lv_apart : forall a s b t x, live !! a = Some s -> live !! b = Some t -> within a s x -> within b t x -> a = b;
}.

Lemma free_fl h fl bp s q : fl_ok h fl -> base + 8 <= bp -> bp + 8 * s <= h_brk h -> 1 <= s ->
  (forall x, within bp s x -> ~ covers fl x) -> h_mem h !! bp = Some (Hdr q s) ->
  exists h' fl', free (bp + 8) h = Some h' /\ fl_ok h' fl' /\ h_brk h' = h_brk h /\
    (forall x, covers fl' x <-> covers fl x \/ within bp s x) /\
    (forall a, a <> bp -> a ∉ ((base, 0) :: fl).*1 -> h_mem h' !! a = h_mem h !! a) /\ (exists a t, (a, t) ∈ fl' /\ s <= t) /\
    (length fl' <= S (length fl))%nat.
Proof using Type.
  intros [C F Sp Hb Hbrk] Hlo Hhi Hs Hd Hbp. destruct (spaced_split _ _ _ _ _ Sp Hlo Hhi Hs Hd) as (l1 & l2 & -> & S1 & S2).
  destruct (exists_last (l := (base, 0) :: l1)) as (k & [p ps] & Hk); [done|].
  pose proof (free_find_run base _ _ l1 l2 bp s Hs S1 S2 C k p ps Hk _ F) as Ef.
  destruct (joined base _ _ l1 l2 bp s q Hs S1 S2 C Hbp Hb Hbrk k p ps Hk) as (m' & fl' & E & C' & Sp' & Hp & Hcov & Hfr & Hbig).
  exists (Heap m' p (h_brk h)), fl'. split.
  { unfold free, sizeof_Header. replace (bp + 8 - 8) with bp by lia. rewrite Ef. cbn [mbind option_bind].
    destruct (join_next (h_mem h) p bp) as [m1|]; [|done]. cbn [mbind option_bind] in E |- *. by rewrite E. }
  split; [by split|]. split; [done|]. split; [done|]. split; [|done]. intros a Ha Hn. apply Hfr; [done|]. intros ->. apply Hn.
  rewrite (list_at_pred base l1 l2 k p ps Hk), fmap_app. apply elem_of_app. right. by left.
Qed.

Lemma live_not_node h fl live a s : fl_ok h fl -> live_ok h fl live -> live !! a = Some s -> a ∉ ((base, 0) :: fl).*1.
Proof using Type.
  intros Hf Hl Ha. destruct (lv_range _ _ _ Hl a s Ha) as (Hlo & Hs & _). cbn. rewrite not_elem_of_cons. split; [lia|].
  intros (l1 & t & l2 & E)%addr_split. apply (lv_used _ _ _ Hl a s a Ha); [unfold within; lia|].
  exists a, t. rewrite E. split; [apply elem_of_app; right; by left|]. unfold within.
  pose proof (fl_spaced _ _ Hf) as Sp. rewrite E in Sp. apply spaced_app in Sp as (mid & _ & _ & Ht & _). lia.
Qed.
(** Growing [fl] by a block that is not in use, with the headers of [live] kept. *)
Lemma live_frame h h' fl fl' live : live_ok h fl live -> h_brk h <= h_brk h' ->
  (forall a s, live !! a = Some s -> h_mem h' !! a = h_mem h !! a) ->
  (forall a s x, live !! a = Some s -> within a s x -> ~ covers fl' x) -> live_ok h' fl' live.
Proof using Type.
  intros [L1 L2 L3 L4] Hb Hm Hu. split; [|intros a s Ha; rewrite (Hm a s Ha); by apply L2|done|done].
  intros a s Ha. destruct (L1 a s Ha) as (? & ? & ?). lia.
Qed.

Lemma free_run h fl live a s : fl_ok h fl -> live_ok h fl live -> live !! a = Some s ->
  exists h' fl', free (a + 8) h = Some h' /\ fl_ok h' fl' /\ live_ok h' fl' (delete a live).
Proof using Type.
  intros Hf Hl Ha. destruct (lv_range _ _ _ Hl a s Ha) as (Hlo & Hs & Hhi). destruct (lv_header _ _ _ Hl a s Ha) as [q Hq].
  destruct (free_fl h fl a s q Hf Hlo Hhi Hs) as (h' & fl' & E & Hf' & Hb & Hcov & Hfr & _); [intros x; by eapply lv_used|done|].
  exists h', fl'. split; [done|]. split; [done|]. apply (live_frame h h' fl fl').
  - destruct Hl as [L1 L2 L3 L4]. split.
    + intros b t [_ Hbt]%lookup_delete_Some. by apply L1.
    + intros b t [_ Hbt]%lookup_delete_Some. by apply L2.
    + intros b t x [_ Hbt]%lookup_delete_Some. by apply L3.
    + intros b t b' t' x [_ Hbt]%lookup_delete_Some [_ Hbt']%lookup_delete_Some. by apply L4.
  - lia.
  - intros b t [Hne Hbt]%lookup_delete_Some. apply Hfr; [done|]. by eapply live_not_node.
  - intros b t x [Hne Hbt]%lookup_delete_Some Hx [Hc|Hx']%Hcov; [by eapply (lv_used _ _ _ Hl)|].
    apply Hne. by eapply (lv_apart _ _ _ Hl).
Qed.

Lemma morecore_run h fl live nu : fl_ok h fl -> live_ok h fl live -> 1 <= nu <= 2 ^ 27 ->
  room nu h ->
  exists h' fl', morecore nu h = Some (h_freep h', h') /\ fl_ok h' fl' /\ live_ok h' fl' live /\
    (forall x, covers fl x -> covers fl' x) /\ (exists a t, (a, t) ∈ fl' /\ nu <= t) /\ (length fl' <= S (length fl))%nat.
Proof using Type.
  intros Hf Hl Hnu Hroom. unfold morecore. set (nu' := if nu <? 4096 then 4096 else nu).
  assert (Hnu' : nu <= nu' <= 2 ^ 27) by (unfold nu'; destruct (Z.ltb_spec nu 4096); lia).
  assert (Hn : i32 (u32 (nu' * sizeof_Header)) = 8 * nu').
  { unfold sizeof_Header. rewrite (Z.mul_comm nu' 8). unfold u32. rewrite Z.mod_small by lia. apply i32_id. lia. }
  assert (Hok : h_brk h + 8 * nu' <= 2 ^ 31) by (unfold room in Hroom; unfold nu'; destruct (Z.ltb_spec nu 4096); lia).
  destruct Hf as [C F Sp Hb Hbrk] eqn:Ef. clear Ef. pose proof (spaced_le _ _ _ Sp) as Hle.
  rewrite Hn. unfold sbrk. rewrite (i32_id (h_brk h)), (proj2 (Z.eqb_neq (h_brk h) (-1))) by lia. rewrite (u32_id (h_brk h)), (u32_id (h_brk h + 8 * nu')) by (word_unfold; lia).
  set (m1 := set_size (h_brk h) nu' (h_mem h)). set (h1 := Heap m1 (h_freep h) (h_brk h + 8 * nu')).
  assert (Hout : h_brk h ∉ ((base, 0) :: fl).*1).
  { cbn. rewrite not_elem_of_cons. split; [lia|]. eapply spaced_out; [exact Sp|lia]. }
  assert (Hf1 : fl_ok h1 fl).
  { split; cbn [h_mem h_freep h_brk h1]; [by apply chain_insert|done|eapply spaced_mono; [exact Sp|lia|lia]|done|done]. }
  assert (Hun : forall x, within (h_brk h) nu' x -> ~ covers fl x).
  { intros x Hx (a & t & Hin & Hw). destruct (spaced_elem _ _ _ _ _ Sp Hin) as (? & ? & ?). unfold within in *. lia. }
  destruct (free_fl h1 fl (h_brk h) nu' (from_option ptr 0 (h_mem h !! h_brk h)) Hf1) as (h' & fl' & E & Hf' & Hb' & Hcov & Hfr & (a & t & Hat & Ht) & Hlen);
    [lia|cbn; lia|lia|done|by apply lookup_insert_eq|].
  exists h', fl'. unfold sizeof_Header. fold m1. fold h1. rewrite E. cbn [mbind option_bind]. split; [done|]. split; [done|].
  split; [|split; [intros x Hx; apply Hcov; by left|split; [exists a, t; split; [done|lia]|done]]].
  apply (live_frame h h' fl fl'); [done|rewrite Hb'; cbn; lia| |].
  - intros b u Hbu. destruct (lv_range _ _ _ Hl b u Hbu) as (? & ? & ?).
    rewrite Hfr; [|lia|by eapply live_not_node; [split| |]]. apply lookup_insert_ne. lia.
  - intros b u x Hbu Hx [Hc|Hx']%Hcov; [by eapply (lv_used _ _ _ Hl)|]. destruct (lv_range _ _ _ Hl b u Hbu) as (? & ? & ?).
    unfold within in *. lia.
Qed.
(** *** The walk of [malloc] *)

Definition last_addr (d : list (Z * Z)) (e : Z) : Z := from_option fst e (last d).

Lemma last_addr_cons x d e : last_addr (x :: d) e = last_addr d x.1.
Proof using Type. unfold last_addr. rewrite last_cons. by destruct (last d). Qed.

Lemma malloc_skip h nunits d : forall e prev fuel, chain (h_mem h) d e -> Forall (fun b => b.2 < nunits) d ->
  h_freep h ∉ d.*1 ->
  malloc_loop (length d + fuel) nunits prev (hd_addr d e) h = malloc_loop fuel nunits (last_addr d prev) e h.
Proof using Type.
  induction d as [|[a s] d IH]; intros e prev fuel; [done|]. intros [E Hc] [Hs Hd]%Forall_cons Hf. cbn in Hs.
  apply not_elem_of_cons in Hf as [Hfa Hf]. cbn [length Nat.add hd_addr malloc_loop]. rewrite E. cbn [mbind option_bind size ptr].
  rewrite Z.geb_leb, (proj2 (Z.leb_gt _ _)) by lia. cbn [fst] in Hfa. rewrite (proj2 (Z.eqb_neq a _)) by congruence.
  rewrite last_addr_cons. by apply IH.
Qed.

Lemma chain_last m x s0 d e : chain m ((x, s0) :: d) e -> exists s, m !! last_addr d x = Some (Hdr e s).
Proof using Type.
  revert x s0. induction d as [|[a s] d IH]; intros x s0 [E Hc]; [by exists s0|]. rewrite last_addr_cons. by eapply IH.
Qed.

Lemma last_addr_elem x s0 d : last_addr d x ∈ ((x, s0) :: d).*1.
Proof using Type.
  revert x s0. induction d as [|[a s] d IH]; intros x s0; [by left|]. rewrite last_addr_cons. cbn. right. by apply (IH a s).
Qed.

Lemma node_next h fl x : fl_ok h fl -> x ∈ ((base, 0) :: fl).*1 -> exists l1 s l2,
  (base, 0) :: fl = l1 ++ (x, s) :: l2 /\ h_mem h !! x = Some (Hdr (hd_addr l2 base) s).
Proof using Type.
  intros Hf (l1 & s & l2 & E)%addr_split. exists l1, s, l2. split; [done|]. pose proof (fl_chain _ _ Hf) as Hc.
  rewrite E in Hc. by apply chain_app in Hc as [_ [? _]].
Qed.

(** A node that points to a free block precedes it in the list. *)
Lemma node_before h fl x a s : fl_ok h fl -> x ∈ ((base, 0) :: fl).*1 -> h_mem h !! x = Some (Hdr a s) -> a <> base ->
  exists l1 t l2, (base, 0) :: fl = l1 ++ (x, s) :: (a, t) :: l2.
Proof using Type.
  intros Hf Hx E Ha. destruct (node_next h fl x Hf Hx) as (l1 & s' & l2 & El & E'). rewrite E in E'. injection E' as -> ->.
  destruct l2 as [|[b t] l2]; [done|]. by exists l1, t, l2.
Qed.

Lemma fl_ascending h fl : fl_ok h fl -> ascending ((base, 0) :: fl) (h_brk h).
Proof using Type.
  intros [C F Sp Hb Hbrk]. split; [|eapply spaced_ascending; [exact Sp|lia]]. pose proof (spaced_le _ _ _ Sp).
  destruct fl as [|[a t] l]; cbn in *; lia.
Qed.

Lemma NoDup_nodes h fl : fl_ok h fl -> NoDup ((base, 0) :: fl).*1.
Proof using Type. intros Hf. by eapply ascending_NoDup, fl_ascending. Qed.

(** The blocks in the order in which [malloc] looks at them, [freep] last. *)
Lemma visit_order h fl : fl_ok h fl -> exists r1 fs r2, (base, 0) :: fl = r1 ++ (h_freep h, fs) :: r2 /\
  chain (h_mem h) ((h_freep h, fs) :: r2 ++ r1) (h_freep h) /\ h_freep h ∉ (r2 ++ r1).*1.
Proof using Type.
  intros Hf. destruct (addr_split _ _ (fl_freep _ _ Hf)) as (r1 & fs & r2 & E). exists r1, fs, r2. split; [done|].
  pose proof (fl_chain _ _ Hf) as Hc. pose proof (NoDup_nodes _ _ Hf) as Hn. rewrite E in Hc, Hn. split.
  - apply chain_app in Hc as [C1 C2]. cbn [hd_addr] in C1.
    assert (Hb : hd_addr r1 (h_freep h) = base) by (destruct r1 as [|[b t] r1]; cbn in E; injection E; intros; cbn; congruence).
    change ((h_freep h, fs) :: r2 ++ r1) with (((h_freep h, fs) :: r2) ++ r1).
    rewrite (chain_app _ ((h_freep h, fs) :: r2) r1). by rewrite Hb.
  - rewrite fmap_app in Hn. cbn in Hn. apply NoDup_app in Hn as (_ & Hd & [H2 _]%NoDup_cons). rewrite fmap_app, elem_of_app.
    intros [Hin|Hin]; [done|]. apply (Hd _ Hin). by left.
Qed.

(** *** Taking a block *)

(** The result is a new block of [nunits] units, and the heap with it in use. *)
Definition gives (live : gmap Z Z) (nunits : Z) (res : option (Z * heap)) : Prop :=
  exists q h' fl', res = Some (q + 8, h') /\ fl_ok h' fl' /\ live_ok h' fl' (<[q := nunits]> live) /\
  (forall b t x, live !! b = Some t -> within b t x -> ~ within q nunits x) /\ base + 8 <= q /\ q + 8 * nunits <= h_brk h'.

Section carve.
Context (h : heap) (pre l1 l2 : list (Z * Z)) (prev ps a s nunits : Z) (live : gmap Z Z).
Abbreviation fl := (pre ++ (a, s) :: l2).
Context (Hf : fl_ok h fl) (Hl : live_ok h fl live) (Hpre : (base, 0) :: pre = l1 ++ [(prev, ps)]) (Hn : 1 <= nunits <= s).

Lemma carve_nodes : (base, 0) :: fl = l1 ++ (prev, ps) :: (a, s) :: l2.
Proof using Hpre. change ((base, 0) :: fl) with (((base, 0) :: pre) ++ (a, s) :: l2). by rewrite Hpre, <- app_assoc. Qed.

Lemma carve_spaced : spaced (base + 8) pre a /\ spaced (a + 8 * s) l2 (h_brk h) /\ base + 8 <= a.
Proof using Hf.
  pose proof (fl_spaced _ _ Hf) as Sp. apply spaced_app in Sp as (mid & S1 & S2 & S3 & S4). pose proof (spaced_le _ _ _ S1).
  split; [eapply spaced_mono; [exact S1|lia|done]|]. split; [done|lia].
Qed.

Lemma carve_chain : chain (h_mem h) l1 prev /\ h_mem h !! prev = Some (Hdr a ps) /\
  h_mem h !! a = Some (Hdr (hd_addr l2 base) s) /\ chain (h_mem h) l2 base.
Proof using Hf Hpre.
  pose proof (fl_chain _ _ Hf) as C. rewrite carve_nodes in C. apply chain_app in C as (C1 & C2 & C3 & C4). done.
Qed.

Lemma carve_prev : prev < a /\ (forall b, b ∈ l1.*1 -> b < prev) /\ (forall b, b ∈ l2.*1 -> a + 8 * s <= b).
Proof using Hf Hpre.
  destruct carve_spaced as (S1 & S2 & Hlo). pose proof (fl_ascending _ _ Hf) as Ha. rewrite carve_nodes in Ha.
  destruct (ascending_app _ _ _ Ha) as [H1 [H2 _]]. split; [done|]. split.
  - intros b (k1 & t & k2 & Ek)%addr_split. rewrite Ek in H1. apply ascending_app in H1 as [_ [H1 H3]]. cbn [hd_addr] in *.
    pose proof (ascending_hd _ _ H3). lia.
  - intros b Hb. by apply (spaced_addr _ _ _ _ S2 Hb).
Qed.

Lemma carve_live h' fl' q : h_brk h' = h_brk h -> a <= q -> q + 8 * nunits <= a + 8 * s ->
  (exists r, h_mem h' !! q = Some (Hdr r nunits)) -> (forall b, b <> q -> b ∉ ((base, 0) :: fl).*1 -> h_mem h' !! b = h_mem h !! b) ->
  (forall x, covers fl' x -> covers fl x /\ ~ within q nunits x) -> live_ok h' fl' (<[q := nunits]> live) /\
  (forall b t x, live !! b = Some t -> within b t x -> ~ within q nunits x).
Proof using Hf Hl Hn.
  intros Hb Hq1 Hq2 Hq Hm Hcov. destruct carve_spaced as (S1 & S2 & Hlo). pose proof (spaced_le _ _ _ S2) as Hle.
  assert (Hin : forall x, within q nunits x -> covers fl x).
  { intros x Hx. exists a, s. split; [apply elem_of_app; right; by left|]. unfold within in *. lia. }
  assert (Hdis : forall b t x, live !! b = Some t -> within b t x -> ~ within q nunits x).
  { intros b t x Hbt Hx Hx'. by apply (lv_used _ _ _ Hl b t x Hbt Hx), Hin. }
  assert (Hne : forall b t, live !! b = Some t -> b <> q).
  { intros b t Hbt ->. destruct (lv_range _ _ _ Hl q t Hbt) as (_ & Ht & _). apply (Hdis q t q Hbt); unfold within; lia. }
  split; [|done]. split.
  - intros b t [[<- <-]|[_ Hbt]]%lookup_insert_Some; [lia|]. rewrite Hb. by apply (lv_range _ _ _ Hl).
  - intros b t [[<- <-]|[_ Hbt]]%lookup_insert_Some; [done|]. rewrite Hm; [by apply (lv_header _ _ _ Hl)|by eapply Hne|by eapply live_not_node].
  - intros b t x [[<- <-]|[_ Hbt]]%lookup_insert_Some Hx [Hc Hnot]%Hcov; [done|]. by apply (lv_used _ _ _ Hl b t x).
  - intros b t b' t' x [[<- <-]|[_ Hbt]]%lookup_insert_Some [[<- <-]|[_ Hbt']]%lookup_insert_Some Hx Hx'; [done| | |by eapply (lv_apart _ _ _ Hl)].
    + destruct (Hdis _ _ x Hbt' Hx' Hx).
    + destruct (Hdis _ _ x Hbt Hx Hx').
Qed.

Lemma not_covers_ends x : within a s x -> ~ covers (pre ++ l2) x.
Proof using Hf.
  destruct carve_spaced as (S1 & S2 & _). intros Hx [(b & t & Hin & Hw)|(b & t & Hin & Hw)]%covers_app;
    [destruct (spaced_elem _ _ _ _ _ S1 Hin)|destruct (spaced_elem _ _ _ _ _ S2 Hin)]; unfold within in *; lia.
Qed.

Lemma carve_prev_node : base <= prev /\ prev ∈ ((base, 0) :: pre).*1.
Proof using Hf Hpre.
  destruct carve_spaced as (S1 & _ & _).
  assert (Hin : prev ∈ ((base, 0) :: pre).*1) by (rewrite Hpre, fmap_app; apply elem_of_app; right; by left). split; [|done].
  cbn in Hin. apply elem_of_cons in Hin as [->|Hin]; [done|]. pose proof (spaced_addr _ _ _ _ S1 Hin). lia.
Qed.

(** A block of the right size leaves the list, ... *)
Lemma carve_exact fuel : s = nunits -> gives live nunits (malloc_loop (S fuel) nunits prev a h).
Proof using Hf Hl Hpre Hn.
  intros Heq. unfold gives.
  destruct carve_spaced as (S1 & S2 & Hlo). destruct carve_chain as (C1 & C2 & C3 & C4). destruct carve_prev as (P1 & P2 & P3).
  pose proof (spaced_le _ _ _ S2) as Hle. pose proof carve_prev_node as Hprev.
  pose proof (fl_base _ _ Hf) as Hb. pose proof (fl_brk _ _ Hf) as Hbrk.
  cbn [malloc_loop]. rewrite C3. cbn [mbind option_bind size ptr]. rewrite Z.geb_leb, (proj2 (Z.leb_le _ _)) by lia.
  rewrite (proj2 (Z.eqb_eq s nunits)) by done.
  unfold set_ptr. rewrite C2. cbn [mbind option_bind size]. unfold sizeof_Header.
  exists a, (Heap (<[prev := Hdr (hd_addr l2 base) ps]> (h_mem h)) prev (h_brk h)), (pre ++ l2). split; [done|]. split.
  { split; cbn [h_mem h_freep h_brk]; [| | |done|done].
    - change ((base, 0) :: pre ++ l2) with (((base, 0) :: pre) ++ l2). rewrite Hpre, <- app_assoc. cbn [app]. apply chain_app.
      split; [apply chain_insert; [|exact C1]; intros Hin%P2; lia|]. split; [by rewrite lookup_insert_eq|].
      apply chain_insert; [|exact C4]. intros Hin%P3. lia.
    - change ((base, 0) :: pre ++ l2) with (((base, 0) :: pre) ++ l2). rewrite fmap_app. apply elem_of_app. left. apply Hprev.
    - apply spaced_app. exists a. split; [done|]. eapply spaced_mono; [exact S2|lia|lia]. }
  edestruct (carve_live (Heap (<[prev := Hdr (hd_addr l2 base) ps]> (h_mem h)) prev (h_brk h)) (pre ++ l2) a) as [Hl' Hd];
    [done|lia|lia|cbn; rewrite lookup_insert_ne, C3 by lia; eexists; by rewrite Heq| | |].
  { intros b Hbq Hbn. cbn. apply lookup_insert_ne. intros <-. apply Hbn. rewrite carve_nodes, fmap_app. apply elem_of_app. right. by left. }
  { intros x Hx. split; [|rewrite <- Heq; intros Hw; by apply not_covers_ends in Hx].
    rewrite covers_app in Hx |- *. rewrite covers_cons. tauto. }
  split; [done|]. split; [done|]. cbn. lia.
Qed.

(** ... and a larger one gives its end. *)
Lemma carve_split fuel : s <> nunits -> gives live nunits (malloc_loop (S fuel) nunits prev a h).
Proof using Hf Hl Hpre Hn.
  intros Hneq. unfold gives.
  destruct carve_spaced as (S1 & S2 & Hlo). destruct carve_chain as (C1 & C2 & C3 & C4). destruct carve_prev as (P1 & P2 & P3).
  pose proof (spaced_le _ _ _ S2) as Hle. pose proof carve_prev_node as Hprev.
  pose proof (fl_base _ _ Hf) as Hb. pose proof (fl_brk _ _ Hf) as Hbrk.
  cbn [malloc_loop]. rewrite C3. cbn [mbind option_bind size ptr]. rewrite Z.geb_leb, (proj2 (Z.leb_le _ _)) by lia.
  rewrite (proj2 (Z.eqb_neq s nunits)) by done.
  set (rest := s - nunits). set (q := a + sizeof_Header * rest). assert (Hq : q = a + 8 * (s - nunits)) by reflexivity.
  set (m1 := set_size a rest (h_mem h)). set (h' := Heap (set_size q nunits m1) prev (h_brk h)).
  assert (E1 : m1 = <[a := Hdr (hd_addr l2 base) rest]> (h_mem h)) by (unfold m1, set_size; by rewrite C3).
  exists q, h', (pre ++ (a, rest) :: l2). split; [done|]. split.
  { split; cbn [h_mem h_freep h_brk h']; [| | |done|done].
    - change ((base, 0) :: pre ++ (a, rest) :: l2) with (((base, 0) :: pre) ++ (a, rest) :: l2). rewrite Hpre, <- app_assoc. cbn [app].
      unfold set_size. rewrite E1. apply chain_app. split.
      { apply chain_insert; [intros Hin%P2; lia|]. apply chain_insert; [intros Hin%P2; lia|done]. }
      split; [by rewrite !lookup_insert_ne by lia|]. split; [rewrite lookup_insert_ne by lia; by rewrite lookup_insert_eq|].
      apply chain_insert; [intros Hin%P3; lia|]. apply chain_insert; [intros Hin%P3; lia|done].
    - change ((base, 0) :: pre ++ (a, rest) :: l2) with (((base, 0) :: pre) ++ (a, rest) :: l2). rewrite fmap_app.
      apply elem_of_app. left. apply Hprev.
    - apply spaced_app. exists a. split; [done|]. split; [lia|]. split; [lia|]. eapply spaced_mono; [exact S2|lia|lia]. }
  edestruct (carve_live h' (pre ++ (a, rest) :: l2) q) as [Hl' Hd]; [done|lia|lia|eexists; apply lookup_insert_eq| | |].
  { intros b Hbq Hbn. cbn [h_mem h']. unfold set_size. rewrite E1, !lookup_insert_ne; [done| |congruence]. intros <-. apply Hbn.
    rewrite fmap_cons, fmap_app. right. apply elem_of_app. right. by left. }
  { intros x Hx. rewrite covers_app, covers_cons in Hx |- *. unfold within in *. split; [intuition lia|]. intros Hw.
    destruct Hx as [Hx|[Hx|Hx]]; [|lia|]; (apply (not_covers_ends x); [unfold within; lia|apply covers_app; tauto]). }
  split; [done|]. split; [done|]. cbn. lia.
Qed.

Lemma carve_run fuel : gives live nunits (malloc_loop (S fuel) nunits prev a h).
Proof using Hf Hl Hpre Hn. destruct (decide (s = nunits)); [by apply carve_exact|by apply carve_split]. Qed.
End carve.

(** *** [malloc] *)

Lemma first_big (l : list (Z * Z)) n : (exists b, b ∈ l /\ n <= b.2) ->
  exists d1 a s d2, l = d1 ++ (a, s) :: d2 /\ n <= s /\ Forall (fun b => b.2 < n) d1.
Proof using Type.
  induction l as [|[a s] l IH]; intros (b & Hb & Hn); [by apply not_elem_of_nil in Hb|].
  destruct (decide (n <= s)) as [Hs|Hs]; [by exists [], a, s, l|]. destruct IH as (d1 & a' & s' & d2 & -> & Hs' & Hd).
  { apply elem_of_cons in Hb as [->|Hb]; [done|]. by exists b. }
  exists ((a, s) :: d1), a', s', d2. split; [done|]. split; [done|]. apply Forall_cons. split; [cbn; lia|done].
Qed.

Lemma node_size h fl a s : fl_ok h fl -> (a, s) ∈ (base, 0) :: fl -> exists nx, h_mem h !! a = Some (Hdr nx s).
Proof using Type.
  intros Hf (l1 & l2 & E)%list_elem_of_split. pose proof (fl_chain _ _ Hf) as C. rewrite E in C. apply chain_app in C as [_ [C _]]. by eexists.
Qed.

Lemma malloc_find h fl live nunits h0 fuel : fl_ok h fl -> live_ok h fl live -> 1 <= nunits ->
  (exists b, b ∈ fl /\ nunits <= b.2) -> h_mem h !! h_freep h = Some h0 -> (length fl + 2 <= fuel)%nat ->
  gives live nunits (malloc_loop fuel nunits (h_freep h) (ptr h0) h).
Proof using Type.
  intros Hf Hl Hn (b & Hb & Hnb) Hh0 Hfuel. destruct (visit_order h fl Hf) as (r1 & fs & r2 & E & C & Hfr). pose proof C as [Ef _].
  rewrite Hh0 in Ef. injection Ef as ->. cbn [ptr]. set (f := h_freep h) in *.
  destruct (first_big ((r2 ++ r1) ++ [(f, fs)]) nunits) as (d1 & a & s & d2 & Ed & Hs & Hsmall).
  { exists b. split; [|done]. assert (Hin : b ∈ (base, 0) :: fl) by (by right). rewrite E in Hin. set_solver. }
  assert (Hlen : (length d1 <= length fl)%nat).
  { apply (f_equal length) in E, Ed. rewrite ?length_app in *. cbn in *. rewrite ?length_app in *. cbn in *. lia. }
  assert (Hd1 : chain (h_mem h) ((f, fs) :: d1) a /\ f ∉ d1.*1 /\ hd_addr (r2 ++ r1) f = hd_addr d1 a).
  { destruct d2 as [|x d2 _] using rev_ind.
    - apply app_inj_tail in Ed as [<- Ea]. injection Ea as <- <-. done.
    - rewrite app_comm_cons, app_assoc in Ed. apply app_inj_tail in Ed as [Ed _]. rewrite Ed in *.
      change ((f, fs) :: d1 ++ (a, s) :: d2) with (((f, fs) :: d1) ++ (a, s) :: d2) in C. rewrite (chain_app _ ((f, fs) :: d1)) in C.
      split; [apply C|]. rewrite fmap_app, not_elem_of_app in Hfr. split; [apply Hfr|]. by rewrite hd_addr_app. }
  destruct Hd1 as (C1 & Hf1 & Hhd). destruct (chain_last _ _ _ _ _ C1) as [ps Hps]. set (prev := last_addr d1 f) in *.
  assert (Hin : forall x, x ∈ (f, fs) :: d1 \/ x = (a, s) -> x ∈ (base, 0) :: fl).
  { intros x Hx. assert (Hx' : x ∈ (f, fs) :: (r2 ++ r1) ++ [(f, fs)]) by (rewrite Ed; set_solver). rewrite E. set_solver. }
  destruct (node_size h fl a s Hf) as [nx Ha]; [apply Hin; by right|].
  destruct (node_size h fl base 0 Hf) as [nb Hbs]; [by left|].
  assert (Hab : a <> base) by (intros ->; rewrite Ha in Hbs; injection Hbs as _ Hz; lia).
  assert (Hpn : prev ∈ ((base, 0) :: fl).*1).
  { pose proof (last_addr_elem f fs d1) as Hp. fold prev in Hp. apply list_elem_of_fmap in Hp as (x & -> & Hx). apply list_elem_of_fmap.
    exists x. split; [done|]. apply Hin. by left. }
  destruct (node_before h fl prev a ps Hf Hpn Hps Hab) as (l1 & t & l2 & El).
  destruct (node_size h fl a t Hf) as [nx' Ha']; [rewrite El; set_solver|]. rewrite Ha in Ha'. injection Ha' as -> <-.
  assert (Hsplit : exists pre, fl = pre ++ (a, s) :: l2 /\ (base, 0) :: pre = l1 ++ [(prev, ps)]).
  { destruct l1 as [|y l1]; cbn in El.
    - injection El as Eb Ep Et. exists []. split; [exact Et|]. cbn. congruence.
    - injection El as Ey Et. exists (l1 ++ [(prev, ps)]). rewrite <- app_assoc. split; [exact Et|]. cbn. congruence. }
  destruct Hsplit as (pre & -> & Hpre). rewrite Hhd.
  replace fuel with (length d1 + S (fuel - length d1 - 1))%nat by lia. rewrite malloc_skip by (exact (proj2 C1) || done). fold prev.
  by apply (carve_run h pre l1 l2 prev ps a s nunits live Hf Hl Hpre).
Qed.
Lemma freep_header h fl : fl_ok h fl -> exists h0, h_mem h !! h_freep h = Some h0 /\ h_freep h <> 0.
Proof using Type.
  intros Hf. destruct (node_next h fl (h_freep h) Hf (fl_freep _ _ Hf)) as (l1 & s & l2 & _ & E). eexists. split; [exact E|].
  pose proof (fl_freep _ _ Hf) as Hin. pose proof (fl_base _ _ Hf). cbn in Hin. apply elem_of_cons in Hin as [->|Hin]; [lia|].
  pose proof (spaced_addr _ _ _ _ (fl_spaced _ _ Hf) Hin). lia.
Qed.

Lemma malloc_loop_run h fl live nunits h0 fuel : fl_ok h fl -> live_ok h fl live -> 1 <= nunits <= 2 ^ 27 ->
  room nunits h -> h_mem h !! h_freep h = Some h0 -> (2 * length fl + 6 <= fuel)%nat ->
  gives live nunits (malloc_loop fuel nunits (h_freep h) (ptr h0) h).
Proof using Type.
  intros Hf Hl Hn Hroom Hh0 Hfuel. destruct (decide (Exists (fun b => nunits <= b.2) fl)) as [Hbig|Hsmall].
  { apply Exists_exists in Hbig. apply (malloc_find h fl live nunits h0 fuel Hf Hl); [lia|exact Hbig|exact Hh0|lia]. }
  rewrite <- Forall_Exists_neg in Hsmall. destruct (visit_order h fl Hf) as (r1 & fs & r2 & E & [Ef C] & Hfr).
  assert (Hall : Forall (fun b => b.2 < nunits) ((base, 0) :: fl)).
  { apply Forall_cons. split; [cbn; lia|]. eapply Forall_impl; [exact Hsmall|]. intros b Hb. cbn in Hb. lia. }
  rewrite E, Forall_app, Forall_cons in Hall. destruct Hall as (H1 & H2 & H3). cbn in H2.
  assert (Hlen : (length (r2 ++ r1) = length fl)%nat).
  { apply (f_equal length) in E. rewrite ?length_app in *. cbn in *. rewrite ?length_app in *. lia. }
  rewrite Hh0 in Ef. injection Ef as ->. cbn [ptr].
  replace fuel with (length (r2 ++ r1) + S (fuel - length (r2 ++ r1) - 1))%nat by lia. rewrite malloc_skip by (done || by apply Forall_app).
  cbn [malloc_loop]. rewrite Hh0. cbn [mbind option_bind size]. rewrite Z.geb_leb, (proj2 (Z.leb_gt _ _)), Z.eqb_refl by lia.
  destruct (morecore_run h fl live nunits Hf Hl Hn Hroom) as (h' & fl' & Em & Hf' & Hl' & _ & (a & t & Hat & Ht) & Hlen').
  rewrite Em. cbn [mbind option_bind]. destruct (freep_header h' fl' Hf') as (h1 & Eh1 & Hne). rewrite (proj2 (Z.eqb_neq _ _)) by done.
  rewrite Eh1. cbn [mbind option_bind]. eapply malloc_find; [exact Hf'|exact Hl'|lia| |exact Eh1|lia]. by exists (a, t).
Qed.

(** The heap before the first [malloc], or with the blocks [live] in use. *)
Definition heap_ok (h : heap) (live : gmap Z Z) : Prop :=
  h_freep h = 0 /\ live = ∅ /\ 0 < base /\ base + 8 <= h_brk h <= 2 ^ 31 \/
  exists fl, fl_ok h fl /\ live_ok h fl live.

(** What [malloc] of [n] bytes returns. *)
Definition allocates (live : gmap Z Z) (n p : Z) (h' : heap) : Prop :=
  heap_ok h' (<[p - 8 := units n]> live) /\ base + 16 <= p /\ p + n <= h_brk h' /\
  (forall b t x, live !! b = Some t -> within b t x -> ~ p - 8 <= x < p + n) /\
  exists fl, fl_ok h' fl /\ forall x, covers fl x -> ~ p - 8 <= x < p + n.

Lemma malloc_run h live n : heap_ok h live -> 0 <= n <= 2 ^ 29 ->
  room (units n) h ->
  exists p h', malloc base n h = Some (p, h') /\ allocates live n p h'.
Proof using Type.
  intros Hok Hn Hroom. destruct (units_bound n Hn) as [Hu1 Hu2].
  assert (Hrun : forall h1 fl, h1 = (if h_freep h =? 0 then Heap (<[base := Hdr base 0]> (h_mem h)) base (h_brk h) else h) ->
    fl_ok h1 fl -> live_ok h1 fl live -> exists p h', malloc base n h = Some (p, h') /\ allocates live n p h').
  { intros h1 fl Eh Hf Hl. unfold malloc. rewrite <- Eh. destruct (freep_header h1 fl Hf) as (h0 & Eh0 & _). rewrite Eh0.
    cbn [mbind option_bind]. pose proof (chain_length _ _ _ _ (fl_chain _ _ Hf) (fl_ascending _ _ Hf)) as Hsz. cbn [length] in Hsz.
    destruct (malloc_loop_run h1 fl live (units n) h0 (2 * fuel_of (h_mem h1) + 2) Hf Hl Hu2) as (q & h' & fl' & E & Hf' & Hl' & Hd & Hq1 & Hq2);
      [rewrite Eh; unfold room; by destruct (h_freep h =? 0)|done|unfold fuel_of; lia|].
    exists (q + 8), h'. split; [exact E|]. unfold allocates. replace (q + 8 - 8) with q by lia. split; [right; by exists fl'|]. split; [lia|]. split; [lia|]. split.
    - intros b t x Hbt Hx Hx'. apply (Hd b t x Hbt Hx). unfold within. lia.
    - exists fl'. split; [done|]. intros x Hx Hx'. apply (lv_used _ _ _ Hl' q (units n) x); [by apply lookup_insert_eq|unfold within; lia|done]. }
  destruct Hok as [(Hz & -> & Hb & Hbrk)|(fl & Hf & Hl)].
  - eapply (Hrun _ []); [reflexivity| |]; rewrite Hz; cbn [Z.eqb].
    + split; cbn; [by rewrite lookup_insert_eq|by left|lia|done|lia].
    + split; intros *; by rewrite lookup_empty.
  - apply (Hrun h fl); [|done|done]. destruct (freep_header h fl Hf) as (_ & _ & Hne). by rewrite (proj2 (Z.eqb_neq _ _)).
Qed.
End heap.

(** ** Clients *)

(** A program uses [malloc] and [free] and writes into the blocks it has: a
    header may change that overlaps with the contents of a block in use. *)
Inductive client_step (base : Z) : heap * gmap Z Z -> heap * gmap Z Z -> Prop :=
| client_malloc h live n p h' : 0 <= n <= 2 ^ 29 -> room (units n) h -> malloc base n h = Some (p, h') ->
    client_step base (h, live) (h', <[p - 8 := units n]> live)
| client_free h live a s h' : live !! a = Some s -> free (a + 8) h = Some h' ->
    client_step base (h, live) (h', delete a live)
| client_store h live m' :
    (forall x, (forall a s y, live !! a = Some s -> a + 8 <= y < a + 8 * s -> ~ x <= y < x + 8) -> m' !! x = h_mem h !! x) ->
    client_step base (h, live) (Heap m' (h_freep h) (h_brk h), live).

Lemma store_ok base h live m' : heap_ok base h live ->
  (forall x, (forall a s y, live !! a = Some s -> a + 8 <= y < a + 8 * s -> ~ x <= y < x + 8) -> m' !! x = h_mem h !! x) ->
  heap_ok base (Heap m' (h_freep h) (h_brk h)) live.
Proof.
  intros [Hini|(fl & [C F Sp Hb Hbrk] & [L1 L2 L3 L4])] Hst; [by left|]. right. exists fl. split; split; cbn [h_mem h_freep h_brk]; try done.
  - eapply chain_frame; [|exact C]. intros x Hx. apply Hst. intros a s y Ha Hy Hxy. destruct (L1 a s Ha) as (Hlo & _ & _).
    cbn in Hx. apply elem_of_cons in Hx as [->|Hx]; [lia|]. apply addr_split in Hx as (k1 & t & k2 & Ek).
    apply (L3 a s y Ha); [unfold within; lia|]. exists x, t. rewrite Ek. split; [set_solver|]. rewrite Ek in Sp.
    apply spaced_app in Sp as (mid & _ & _ & Ht & _). unfold within. lia.
  - intros a s Ha. destruct (L2 a s Ha) as [q Hq]. exists q. rewrite <- Hq. apply Hst. intros b t y Hbt Hy Hxy.
    destruct (L1 a s Ha) as (_ & Hs & _). assert (a = b) as <- by (apply (L4 a s b t y); unfold within; (done || lia)). lia.
Qed.

Lemma client_step_ok base x y : client_step base x y -> heap_ok base x.1 x.2 -> heap_ok base y.1 y.2.
Proof.
  destruct 1 as [h live n p h' Hn Hr E|h live a s h' Ha E|h live m' Hst]; cbn [fst snd]; intros Hok.
  - destruct (malloc_run base h live n Hok Hn Hr) as (p' & h'' & E' & Ha). rewrite E in E'. injection E' as <- <-. apply Ha.
  - destruct Hok as [(_ & -> & _)|(fl & Hf & Hl)]; [by rewrite lookup_empty in Ha|].
    destruct (free_run base h fl live a s Hf Hl Ha) as (h'' & fl' & E' & Hf' & Hl'). rewrite E in E'. injection E' as <-. right. by exists fl'.
  - by apply store_ok.
Qed.

(** C9: Blocks in use never overlap.  Take any sequence of [malloc] (of at most
    2^29 bytes, while what it may ask of [sbrk] stays below 2 GB) and [free] of a
    program, and whatever it writes into its blocks.  Then [malloc] of [n] bytes, at
    most 2^29, with room below 2 GB, returns a block of at least [n] bytes above
    [base] and inside the memory of the process, which with its header is disjoint
    from every block in use and from every block of the free list; and [free] of a
    block in use always returns. *)
Theorem malloc_exclusive (base brk0 : Z) (m0 : gmap Z header) (h : heap) (live : gmap Z Z) :
  0 < base -> base + 8 <= brk0 <= 2 ^ 31 -> rtc (client_step base) (Heap m0 0 brk0, ∅) (h, live) ->
  (forall n, 0 <= n <= 2 ^ 29 -> room (units n) h -> exists p h', malloc base n h = Some (p, h') /\
    base + 16 <= p /\ p + n <= h_brk h' /\
    (forall b t x, live !! b = Some t -> within b t x -> ~ p - 8 <= x < p + n) /\
    exists fl, fl_ok base h' fl /\ forall x, covers fl x -> ~ p - 8 <= x < p + n) /\
  (forall a s, live !! a = Some s -> exists h', free (a + 8) h = Some h').
Proof.
  intros Hb Hbrk Hsteps.
  assert (Hok : heap_ok base h live).
  { remember (Heap m0 0 brk0, ∅) as x eqn:Ex. remember (h, live) as y eqn:Ey. assert (Hx : heap_ok base x.1 x.2) by (subst x; left; cbn; tauto).
    clear Ex. revert h live Ey. induction Hsteps as [x|x y z Hxy _ IH]; intros h live ->; [exact Hx|].
    eapply IH; [by eapply client_step_ok|reflexivity]. }
  split.
  - intros n Hn Hr. destruct (malloc_run base h live n Hok Hn Hr) as (p & h' & E & _ & Ha). exists p, h'. split; [exact E|exact Ha].
  - intros a s Ha. destruct Hok as [(_ & -> & _)|(fl & Hf & Hl)]; [by rewrite lookup_empty in Ha|].
    destruct (free_run base h fl live a s Hf Hl Ha) as (h' & _ & E & _). by exists h'.
Qed.

Lemma malloc_exclusive_witness : exists h, malloc 100 10 (Heap ∅ 0 4096) = Some (4096 + 8 * 4093 + 8, h) /\
    exists p h', malloc 100 20 h = Some (p, h') /\ p <> 0 /\ exists h'', free (4096 + 8 * 4093 + 8) h = Some h''.
Proof.
  destruct (malloc 100 10 (Heap ∅ 0 4096)) as [[p h]|] eqn:E; [|vm_compute in E; discriminate].
  assert (Ep : p = 4096 + 8 * 4093 + 8 /\ h_brk h = 36864) by (vm_compute in E; injection E as <- <-; done). destruct Ep as [-> Eb]. exists h. split; [reflexivity|].
  destruct (malloc_exclusive 100 4096 ∅ h {[4096 + 8 * 4093 := 3]}) as [Hm Hf].
  - lia.
  - lia.
  - apply rtc_once. change {[4096 + 8 * 4093 := 3]} with (<[4096 + 8 * 4093 + 8 - 8 := units 10]> (∅ : gmap Z Z)).
    apply client_malloc; [lia|vm_compute; discriminate|exact E].
  - destruct (Hm 20) as (p & h' & Em & Hp & _); [lia|unfold room; rewrite Eb; vm_compute; discriminate|]. exists p, h'. split; [exact Em|]. split; [lia|].
    apply (Hf (4096 + 8 * 4093) 3). reflexivity.
Defined.
