(* ===== verification/Sh.v ===== *)
(** * The shell (src/sh.c)

    A pointer into the command line is the suffix of the line it points to; the
    end of the list is the terminating NUL, at [es].  A panic of the shell ends
    it with a message. *)

From Stdlib Require Import Ascii String.
From S2P Require Import Prelude.

Definition ch (a : ascii) : Z := Z.of_nat (nat_of_ascii a).
Definition chars (s : string) : list Z := ch <$> list_ascii_of_string s.

Definition MAXARGS : nat := 10.
Definition O_RDONLY : Z := 0.
Definition O_WRONLY : Z := 1.
Definition O_RDWR : Z := 2.
Definition O_CREATE : Z := 512.

(** ** Commands *)

Record redir (W : Type) := Redir { r_file : W; r_mode : Z; r_fd : Z }.
Arguments Redir {W}. Arguments r_file {W}. Arguments r_mode {W}. Arguments r_fd {W}.

(** [struct cmd]; the words are pairs of pointers after parsing. *)
Inductive cmd (W : Type) : Type :=
  | EXEC (argv : list W)
  | REDIR (c : cmd W) (r : redir W)
  | PIPE (left right : cmd W)
  | LIST (left right : cmd W)
  | BACK (c : cmd W).
Arguments EXEC {W}. Arguments REDIR {W}. Arguments PIPE {W}. Arguments LIST {W}. Arguments BACK {W}.

Record word := Word { w_q : list Z; w_eq : list Z }.

Definition text (w : word) : list Z := take (length (w_q w) - length (w_eq w)) (w_q w).

(** ** Tokens *)

(** space, tab, carriage return, newline, vertical tab *)
Definition whitespace : list Z := [32; 9; 13; 10; 11].
Definition symbols : list Z := chars "<|>&;()".

Definition strchr (s : list Z) (c : Z) : bool := existsb (Z.eqb c) s.
#[local] Arguments strchr : simpl never.

Fixpoint skip_ws (s : list Z) : list Z :=
  match s with
  | c :: s' => if strchr whitespace c then skip_ws s' else s
  | [] => []
  end.

Fixpoint skip_word (s : list Z) : list Z :=
  match s with
  | c :: s' => if strchr whitespace c || strchr symbols c then s else skip_word s'
  | [] => []
  end.

Definition TOK_WORD : Z := ch "a".
Definition TOK_APPEND : Z := ch "+".

(** The token, its extent and the rest of the line. *)
Definition gettoken (s : list Z) : Z * word * list Z :=
  let q := skip_ws s in
  let '(ret, eq) :=
    match q with
    | [] => (0, [])
    | c :: s1 =>
      if c =? 0 then (0, q)
      else if strchr (chars "|();&<") c then (c, s1)
      else if c =? ch ">" then
        match s1 with
        | c' :: s2 => if c' =? ch ">" then (TOK_APPEND, s2) else (c, s1)
        | [] => (c, s1)
        end
      else (TOK_WORD, skip_word q)
    end in
  (ret, Word q eq, skip_ws eq).

(** [peek] also moves the pointer over white space. *)
Definition peek (s : list Z) (toks : string) : bool * list Z :=
  let s1 := skip_ws s in
  (match s1 with c :: _ => negb (c =? 0) && strchr (chars toks) c | [] => false end, s1).

(** ** The parser *)

Inductive outcome (A : Type) : Type :=
  | Ok (a : A) (s : list Z)
  | Error (msg : string)
  | Stuck.
Arguments Ok {A}. Arguments Error {A}. Arguments Stuck {A}.

Definition obind {A B} (m : outcome A) (k : A -> list Z -> outcome B) : outcome B :=
  match m with Ok a s => k a s | Error msg => Error msg | Stuck => Stuck end.

(** [parseredirs]: the redirections that follow, outermost last. *)
Fixpoint parseredirs (n : nat) (rs : list (redir word)) (s : list Z) : outcome (list (redir word)) :=
  match n with
  | O => Stuck
  | S n' =>
    let '(b, s) := peek s "<>" in
    if b then
      let '(tok, _, s) := gettoken s in
      let '(tok', w, s) := gettoken s in
      if negb (tok' =? TOK_WORD) then Error "missing file for redirection"
      else
        let rs' :=
          if tok =? ch "<" then rs ++ [Redir w O_RDONLY 0]
          else if tok =? ch ">" then rs ++ [Redir w (Z.lor O_WRONLY O_CREATE) 1]
          else if tok =? TOK_APPEND then rs ++ [Redir w (Z.lor O_WRONLY O_CREATE) 1]
          else rs in
        parseredirs n' rs' s
    else Ok rs s
  end.

Definition add_redirs {W} (c : cmd W) (rs : list (redir W)) : cmd W := foldl REDIR c rs.

(** The loop of [parseexec].  The command it fills in stays innermost, below the
    redirections. *)
Fixpoint parseargs (n : nat) (argv : list word) (rs : list (redir word)) (s : list Z) : outcome (cmd word) :=
  match n with
  | O => Stuck
  | S n' =>
    let '(b, s) := peek s "|)&;" in
    if b then Ok (add_redirs (EXEC argv) rs) s
    else
      let '(tok, w, s) := gettoken s in
      if tok =? 0 then Ok (add_redirs (EXEC argv) rs) s
      else if negb (tok =? TOK_WORD) then Error "syntax"
      else
        let argv' := argv ++ [w] in
        if (MAXARGS <=? length argv')%nat then Error "too many args"
        else obind (parseredirs n' rs s) (fun rs' s => parseargs n' argv' rs' s)
  end.

(** [while(peek(ps, es, "&"))] *)
Fixpoint parseback (n : nat) (c : cmd word) (s : list Z) : outcome (cmd word) :=
  match n with
  | O => Stuck
  | S n' =>
    let '(b, s) := peek s "&" in
    if b then let '(_, _, s) := gettoken s in parseback n' (BACK c) s
    else Ok c s
  end.

Fixpoint parseline (n : nat) (s : list Z) : outcome (cmd word) :=
  match n with
  | O => Stuck
  | S n' =>
    obind (parsepipe n' s) (fun c s =>
    obind (parseback n' c s) (fun c s =>
    let '(b, s) := peek s ";" in
    if b then
      let '(_, _, s) := gettoken s in
      obind (parseline n' s) (fun r s => Ok (LIST c r) s)
    else Ok c s))
  end
with parsepipe (n : nat) (s : list Z) : outcome (cmd word) :=
  match n with
  | O => Stuck
  | S n' =>
    obind (parseexec n' s) (fun c s =>
    let '(b, s) := peek s "|" in
    if b then
      let '(_, _, s) := gettoken s in
      obind (parsepipe n' s) (fun r s => Ok (PIPE c r) s)
    else Ok c s)
  end
with parseexec (n : nat) (s : list Z) : outcome (cmd word) :=
  match n with
  | O => Stuck
  | S n' =>
    let '(b, s) := peek s "(" in
    if b then parseblock n' s
    else obind (parseredirs n' [] s) (fun rs s => parseargs n' [] rs s)
  end
with parseblock (n : nat) (s : list Z) : outcome (cmd word) :=
  match n with
  | O => Stuck
  | S n' =>
    let '(b, s) := peek s "(" in
    if negb b then Error "parseblock"
    else
      let '(_, _, s) := gettoken s in
      obind (parseline n' s) (fun c s =>
      let '(b, s) := peek s ")" in
      if negb b then Error "syntax - missing )"
      else
        let '(_, _, s) := gettoken s in
        obind (parseredirs n' [] s) (fun rs s => Ok (add_redirs c rs) s))
  end.

(** Each level of the grammar is at most four calls deep. *)
Definition enough (s : list Z) : nat := (4 * length s + 8)%nat.

(** [parsecmd] up to [nulterminate], which follows as an operation of its own on
    the line and the command. *)
Definition parsecmd (s : list Z) : outcome (cmd word) :=
  obind (parseline (enough s) s) (fun c s =>
  let '(_, s) := peek s "" in
  if bool_decide (s = []) then Ok c s else Error "syntax").

(** [nulterminate]: a NUL after each word, in a line of length [es]. *)
Definition terminate (es : nat) (w : word) (buf : list Z) : list Z := <[(es - length (w_eq w))%nat := 0]> buf.

Fixpoint nulterminate (es : nat) (c : cmd word) (buf : list Z) : list Z :=
  match c with
  | EXEC argv => foldl (fun buf w => terminate es w buf) buf argv
  | REDIR c r => terminate es (r_file r) (nulterminate es c buf)
  | PIPE l r => nulterminate es r (nulterminate es l buf)
  | LIST l r => nulterminate es r (nulterminate es l buf)
  | BACK c => nulterminate es c buf
  end.

(** ** Running commands

    What a process of the shell does: system calls, whose results it goes on
    with, and forks, with the program of the child. *)

Inductive call : Type :=
  | Close (fd : Z)
  | Open (file : list Z) (mode : Z)
  | Chdir (path : list Z)
  | Dup (fd : Z)
  | Exec (argv : list (list Z))
  | Wait
  | Printf (fd : Z) (msg : string) (arg : list Z).

Inductive prog : Type :=
  | Exit
  | Call (c : call) (k : Z -> prog)
  | Pipe (k : option (Z * Z) -> prog)
  | Fork (child : prog) (k : Z -> prog).

Definition then_ (c : call) (k : prog) : prog := Call c (fun _ => k).

Definition panic (s : string) : prog := then_ (Printf 2 s []) Exit.

(** [fork1]: the parent goes on with [k]. *)
Definition fork1 (child k : prog) : prog := Fork child (fun pid => if pid =? -1 then panic "fork" else k).

Fixpoint runcmd (c : cmd (list Z)) : prog :=
  match c with
  | EXEC [] => Exit
  | EXEC (a :: argv) => then_ (Exec (a :: argv)) (then_ (Printf 2 "exec %s failed" a) Exit)
  | REDIR c r =>
    then_ (Close (r_fd r))
      (Call (Open (r_file r) (r_mode r)) (fun fd =>
         if fd <? 0 then then_ (Printf 2 "open %s failed" (r_file r)) Exit else runcmd c))
  | LIST l r => fork1 (runcmd l) (then_ Wait (runcmd r))
  | PIPE l r =>
    Pipe (fun p => match p with
      | None => panic "pipe"
      | Some (p0, p1) =>
        fork1 (then_ (Close 1) (then_ (Dup p1) (then_ (Close p0) (then_ (Close p1) (runcmd l)))))
          (fork1 (then_ (Close 0) (then_ (Dup p0) (then_ (Close p0) (then_ (Close p1) (runcmd r)))))
             (then_ (Close p0) (then_ (Close p1) (then_ Wait (then_ Wait Exit)))))
      end)
  | BACK c => fork1 (runcmd c) Exit
  end.

(** Replacing the words of a command. *)
Definition redir_map {W V} (f : W -> V) (r : redir W) : redir V := Redir (f (r_file r)) (r_mode r) (r_fd r).
Fixpoint cmd_map {W V} (f : W -> V) (c : cmd W) : cmd V :=
  match c with
  | EXEC argv => EXEC (f <$> argv)
  | REDIR c r => REDIR (cmd_map f c) (redir_map f r)
  | PIPE l r => PIPE (cmd_map f l) (cmd_map f r)
  | LIST l r => LIST (cmd_map f l) (cmd_map f r)
  | BACK c => BACK (cmd_map f c)
  end.

(** *** The loop of the shell

    The bytes that the shell reads from descriptor 0, up to the end of the file,
    are the argument [input]. *)

Definition NEWLINE : Z := 10.
Definition CR : Z := 13.

(** The characters read and the rest of the input; [n] is [max - 1 - i]. *)
Fixpoint gets (n : nat) (input : list Z) : list Z * list Z :=
  match n, input with
  | O, _ => ([], input)
  | S _, [] => ([], [])
  | S n', c :: rest =>
    if (c =? NEWLINE) || (c =? CR) then ([c], rest)
    else let '(buf, rest) := gets n' rest in (c :: buf, rest)
  end.

(** The string at the start of a buffer. *)
Fixpoint cstring (s : list Z) : list Z :=
  match s with
  | [] => []
  | c :: s' => if c =? 0 then [] else c :: cstring s'
  end.

Definition NBUF : nat := 100.

(** The string in [buf]; [None] is the end of the file. *)
Definition getcmd (input : list Z) : option (list Z * list Z) :=
  let '(buf, rest) := gets (NBUF - 1) input in
  match cstring buf with [] => None | s => Some (s, rest) end.

(** The path of a [cd] command. *)
Definition cd_path (buf : list Z) : option (list Z) :=
  match buf with
  | c :: d :: s :: path =>
    if (c =? ch "c") && (d =? ch "d") && (s =? 32) then Some (removelast path) else None
  | _ => None
  end.

(** What the child does: [runcmd(parsecmd(buf))]. *)
Definition child (buf : list Z) : prog :=
  match parsecmd buf with
  | Ok c _ => runcmd (cmd_map text c)
  | Error msg =>
    match parseline (enough buf) buf with
    | Ok _ s => then_ (Printf 2 "leftovers: %s" (skip_ws s)) (panic msg)
    | _ => panic msg
    end
  | Stuck => Exit
  end.

(** One command, and then [k]. *)
Definition command (buf : list Z) (k : prog) : prog :=
  match cd_path buf with
  | Some path => Call (Chdir path) (fun r => if r <? 0 then then_ (Printf 2 "cannot cd %s" path) k else k)
  | None => fork1 (child buf) (then_ Wait k)
  end.

(** Each command takes a character of the input at least. *)
Fixpoint main_loop (n : nat) (input : list Z) : prog :=
  then_ (Printf 2 "$ " [])
    match getcmd input, n with
    | Some (buf, rest), S n' => command buf (main_loop n' rest)
    | _, _ => Exit
    end.

(** A call to [open] that succeeds returns a descriptor that was not in use, so
    that the fourth is not below 3. *)
Fixpoint open_console (n : nat) (k : prog) : prog :=
  match n with
  | O => k
  | S n' =>
    Call (Open (chars "console") O_RDWR) (fun fd =>
      if fd >=? 0 then if fd >=? 3 then then_ (Close fd) k else open_console n' k else k)
  end.

Definition main (input : list Z) : prog := open_console 4 (main_loop (length input) input).

(** ** The parser terminates *)

Lemma skip_ws_length s : (length (skip_ws s) <= length s)%nat.
Proof. induction s as [|c s IH]; cbn [skip_ws length]; [lia|]. destruct (strchr whitespace c); cbn [length]; lia. Qed.

Lemma skip_word_length s : (length (skip_word s) <= length s)%nat.
Proof. induction s as [|c s IH]; cbn [skip_word length]; [lia|]. destruct (strchr whitespace c || strchr symbols c); cbn [length]; lia. Qed.

Lemma skip_ws_head c s r : skip_ws s = c :: r -> strchr whitespace c = false.
Proof. induction s as [|x s IH]; cbn; [done|]. destruct (strchr whitespace x) eqn:E; [exact IH|]. intros E'. by injection E' as -> ->. Qed.

Lemma skip_ws_idem s : skip_ws (skip_ws s) = skip_ws s.
Proof. destruct (skip_ws s) as [|c r] eqn:E; [done|]. cbn [skip_ws]. by rewrite (skip_ws_head _ _ _ E). Qed.

Lemma not_symbol c : strchr (chars "|();&<") c = false -> c <> ch ">" -> strchr symbols c = false.
Proof.
  unfold strchr, symbols, chars. cbn. rewrite !orb_false_iff, !Z.eqb_neq. unfold ch. cbn. intuition.
Qed.

Lemma gettoken_shorter s tok w s' : gettoken s = (tok, w, s') ->
  (length s' <= length s)%nat /\ (tok <> 0 -> (length s' < length s)%nat).
Proof.
  unfold gettoken. pose proof (skip_ws_length s) as Hl. destruct (skip_ws s) as [|c s1] eqn:Eq; [intros E; injection E as <- _ <-; cbn; lia|].
  cbn in Hl. pose proof (skip_ws_length s1) as H1.
  destruct (Z.eqb_spec c 0) as [->|Hc]; [intros E; injection E as <- _ <-; pose proof (skip_ws_length (0 :: s1)); cbn [length] in *; split; [lia|done]|].
  destruct (strchr (chars "|();&<") c) eqn:Es; [intros E; injection E as _ _ <-; lia|].
  destruct (Z.eqb_spec c (ch ">")) as [->|Hgt].
  - destruct s1 as [|c' s2]; [intros E; injection E as _ _ <-; cbn in *; lia|]. pose proof (skip_ws_length s2). cbn [length] in *.
    cbn [skip_ws] in H1. destruct (c' =? ch ">"); intros E; injection E as _ _ <-; lia.
  - intros E. injection E as _ _ <-. cbn [skip_word]. rewrite (skip_ws_head _ _ _ Eq), (not_symbol _ Es Hgt). cbn [orb].
    pose proof (skip_ws_length (skip_word s1)). pose proof (skip_word_length s1). lia.
Qed.

Lemma peek_true s toks s1 : peek s toks = (true, s1) -> (length s1 <= length s)%nat /\ (gettoken s1).1.1 <> 0.
Proof.
  unfold peek. intros E. pose proof (f_equal snd E) as E2. pose proof (f_equal fst E) as E1. cbn in E1, E2. subst s1. split; [apply skip_ws_length|].
  unfold gettoken. rewrite skip_ws_idem. destruct (skip_ws s) as [|c r]; [done|]. apply andb_true_iff in E1 as [Hc _].
  apply negb_true_iff in Hc. rewrite Hc. apply Z.eqb_neq in Hc. destruct (strchr (chars "|();&<") c); [exact Hc|].
  destruct (c =? ch ">"); [|done]. destruct r as [|c' r]; [exact Hc|]. by destruct (c' =? ch ">").
Qed.

Lemma peek_length s toks b s1 : peek s toks = (b, s1) -> (length s1 <= length s)%nat.
Proof. unfold peek. intros E. injection E as _ <-. apply skip_ws_length. Qed.

(** A token that [peek] saw takes something off the line. *)
Lemma peek_gettoken s toks s1 tok w s' : peek s toks = (true, s1) -> gettoken s1 = (tok, w, s') -> (length s' < length s)%nat.
Proof.
  intros Hp Hg. destruct (peek_true _ _ _ Hp) as [Hl Hne]. rewrite Hg in Hne. destruct (gettoken_shorter _ _ _ _ Hg) as [_ Hlt].
  specialize (Hlt Hne). lia.
Qed.

(** The parser returns, with no more of the line than it was given. *)
Definition returns {A} (m : outcome A) (s : list Z) : Prop :=
  match m with Ok _ s' => (length s' <= length s)%nat | Error _ => True | Stuck => False end.

Lemma returns_bind {A B} (m : outcome A) (k : A -> list Z -> outcome B) s :
  returns m s -> (forall a s', (length s' <= length s)%nat -> returns (k a s') s') -> returns (obind m k) s.
Proof.
  intros Hm Hk. destruct m as [a s'|msg|]; cbn in *; [|done|done]. specialize (Hk a s' Hm). destruct (k a s'); cbn in *; [lia|done|done].
Qed.

Lemma returns_le {A} (m : outcome A) s s' : returns m s -> (length s <= length s')%nat -> returns m s'.
Proof. destruct m; cbn; [lia|done|done]. Qed.

Lemma parseredirs_returns n : forall rs s, (length s < n)%nat -> returns (parseredirs n rs s) s.
Proof.
  induction n as [|n IH]; intros rs s Hn; [lia|]. cbn [parseredirs]. destruct (peek s "<>") as [b s1] eqn:Hp.
  pose proof (peek_length _ _ _ _ Hp) as H1. destruct b; [|exact H1]. destruct (gettoken s1) as [[tok w] s2] eqn:Hg.
  pose proof (peek_gettoken _ _ _ _ _ _ Hp Hg) as H2. destruct (gettoken s2) as [[tok' w'] s3] eqn:Hg'.
  destruct (gettoken_shorter _ _ _ _ Hg') as [H3 _]. destruct (negb _); [done|]. eapply returns_le; [apply IH; lia|lia].
Qed.

Lemma parseargs_returns n : forall argv rs s, (length s + 1 < n)%nat -> returns (parseargs n argv rs s) s.
Proof.
  induction n as [|n IH]; intros argv rs s Hn; [lia|]. cbn [parseargs]. destruct (peek s "|)&;") as [b s1] eqn:Hp.
  pose proof (peek_length _ _ _ _ Hp) as H1. destruct b; [exact H1|]. destruct (gettoken s1) as [[tok w] s2] eqn:Hg.
  destruct (gettoken_shorter _ _ _ _ Hg) as [H2 H2']. destruct (Z.eqb_spec tok 0) as [|Hne]; [cbn; lia|]. specialize (H2' Hne).
  destruct (negb _); [done|]. destruct (_ <=? _)%nat; [done|].
  eapply returns_le; [apply (returns_bind _ _ s2); [apply parseredirs_returns; lia|]|lia]. intros rs' s' Hs'. apply IH. lia.
Qed.

Lemma parseback_returns n : forall c s, (length s < n)%nat -> returns (parseback n c s) s.
Proof.
  induction n as [|n IH]; intros c s Hn; [lia|]. cbn [parseback]. destruct (peek s "&") as [b s1] eqn:Hp.
  pose proof (peek_length _ _ _ _ Hp) as H1. destruct b; [|exact H1]. destruct (gettoken s1) as [[tok w] s2] eqn:Hg.
  pose proof (peek_gettoken _ _ _ _ _ _ Hp Hg). eapply returns_le; [apply IH; lia|lia].
Qed.

Lemma parser_returns n : forall s,
  ((4 * length s + 6 <= n)%nat -> returns (parseline n s) s) /\ ((4 * length s + 5 <= n)%nat -> returns (parsepipe n s) s) /\
  ((4 * length s + 4 <= n)%nat -> returns (parseexec n s) s) /\ ((4 * length s + 3 <= n)%nat -> returns (parseblock n s) s).
Proof.
  induction n as [|n IH]; intros s; [split_and!; intros; lia|]. split_and!; intros Hn.
  - cbn [parseline]. apply returns_bind; [apply IH; lia|]. intros c s1 H1. apply returns_bind; [apply parseback_returns; lia|].
    intros c' s2 H2. destruct (peek s2 ";") as [b s3] eqn:Hp. pose proof (peek_length _ _ _ _ Hp) as H3. destruct b; [|exact H3].
    destruct (gettoken s3) as [[tok w] s4] eqn:Hg. pose proof (peek_gettoken _ _ _ _ _ _ Hp Hg) as H4.
    eapply returns_le; [apply (returns_bind _ _ s4); [apply IH; lia|]|lia]. intros r s5 H5. cbn. lia.
  - cbn [parsepipe]. apply returns_bind; [apply IH; lia|]. intros c s1 H1. destruct (peek s1 "|") as [b s2] eqn:Hp.
    pose proof (peek_length _ _ _ _ Hp) as H2. destruct b; [|exact H2]. destruct (gettoken s2) as [[tok w] s3] eqn:Hg.
    pose proof (peek_gettoken _ _ _ _ _ _ Hp Hg) as H3.
    eapply returns_le; [apply (returns_bind _ _ s3); [apply IH; lia|]|lia]. intros r s4 H4. cbn. lia.
  - cbn [parseexec]. destruct (peek s "(") as [b s1] eqn:Hp. pose proof (peek_length _ _ _ _ Hp) as H1. destruct b.
    + eapply returns_le; [apply IH; lia|lia].
    + eapply returns_le; [apply (returns_bind _ _ s1); [apply parseredirs_returns; lia|]|lia]. intros rs s2 H2. apply parseargs_returns. lia.
  - cbn [parseblock]. destruct (peek s "(") as [b s1] eqn:Hp. pose proof (peek_length _ _ _ _ Hp) as H1. destruct b; [|done]. cbn [negb].
    destruct (gettoken s1) as [[tok w] s2] eqn:Hg. pose proof (peek_gettoken _ _ _ _ _ _ Hp Hg) as H2.
    eapply returns_le; [apply (returns_bind _ _ s2); [apply IH; lia|]|lia]. intros c s3 H3. destruct (peek s3 ")") as [b s4] eqn:Hp'.
    pose proof (peek_length _ _ _ _ Hp') as H4. destruct b; [|done]. cbn [negb]. destruct (gettoken s4) as [[tok' w'] s5] eqn:Hg'.
    destruct (gettoken_shorter _ _ _ _ Hg') as [H5 _].
    eapply returns_le; [apply (returns_bind _ _ s5); [apply parseredirs_returns; lia|]|lia]. intros rs s6 H6. cbn. lia.
Qed.

(** ** Command lines and what they mean *)

Inductive arrow := In | Out | Append.
Record sredir := SRedir { sr_arrow : arrow; sr_file : list Z }.

(** The grammar of command lines. *)
Inductive sline : Type :=
  | SEnd (p : spipe) (back : nat)
  | SSeq (p : spipe) (back : nat) (rest : sline)
with spipe : Type :=
  | SOne (e : sexec)
  | SBar (e : sexec) (rest : spipe)
with sexec : Type :=
  | SBlock (l : sline) (rs : list sredir)
  | SSimple (rs : list sredir) (args : list (list Z * list sredir)).

Scheme sline_ind' := Induction for sline Sort Prop
  with spipe_ind' := Induction for spipe Sort Prop
  with sexec_ind' := Induction for sexec Sort Prop.
Combined Scheme syntax_ind from sline_ind', spipe_ind', sexec_ind'.

(** Printing, with a space after each token. *)
Definition tok (s : string) : list Z := chars s ++ [32].
Definition print_redir (r : sredir) : list Z :=
  (match sr_arrow r with In => tok "<" | Out => tok ">" | Append => tok ">>" end) ++ sr_file r ++ [32].
Definition print_redirs (rs : list sredir) : list Z := concat (print_redir <$> rs).
Definition print_arg (a : list Z * list sredir) : list Z := a.1 ++ [32] ++ print_redirs a.2.
Definition print_back (n : nat) : list Z := concat (replicate n (tok "&")).

Fixpoint print_line (l : sline) : list Z :=
  match l with
  | SEnd p n => print_pipe p ++ print_back n
  | SSeq p n r => print_pipe p ++ print_back n ++ tok ";" ++ print_line r
  end
with print_pipe (p : spipe) : list Z :=
  match p with SOne e => print_exec e | SBar e r => print_exec e ++ tok "|" ++ print_pipe r end
with print_exec (e : sexec) : list Z :=
  match e with
  | SBlock l rs => tok "(" ++ print_line l ++ tok ")" ++ print_redirs rs
  | SSimple rs args => print_redirs rs ++ concat (print_arg <$> args)
  end.

(** The command it stands for, with the words as strings. *)
Definition mean_redir (r : sredir) : redir (list Z) :=
  match sr_arrow r with
  | In => Redir (sr_file r) O_RDONLY 0
  | _ => Redir (sr_file r) (Z.lor O_WRONLY O_CREATE) 1
  end.

Fixpoint mean_line (l : sline) : cmd (list Z) :=
  match l with
  | SEnd p n => Nat.iter n BACK (mean_pipe p)
  | SSeq p n r => LIST (Nat.iter n BACK (mean_pipe p)) (mean_line r)
  end
with mean_pipe (p : spipe) : cmd (list Z) :=
  match p with SOne e => mean_exec e | SBar e r => PIPE (mean_exec e) (mean_pipe r) end
with mean_exec (e : sexec) : cmd (list Z) :=
  match e with
  | SBlock l rs => add_redirs (mean_line l) (mean_redir <$> rs)
  | SSimple rs args => add_redirs (EXEC args.*1) (mean_redir <$> rs ++ concat args.*2)
  end.

Definition word_char (c : Z) : bool := negb (strchr whitespace c) && negb (strchr symbols c) && negb (c =? 0).
Definition is_word (w : list Z) : Prop := w <> [] /\ Forall (fun c => word_char c = true) w.
Definition redirs_wf (rs : list sredir) : Prop := Forall (fun r => is_word (sr_file r)) rs.

Fixpoint line_wf (l : sline) : Prop :=
  match l with SEnd p _ => pipe_wf p | SSeq p _ r => pipe_wf p /\ line_wf r end
with pipe_wf (p : spipe) : Prop :=
  match p with SOne e => exec_wf e | SBar e r => exec_wf e /\ pipe_wf r end
with exec_wf (e : sexec) : Prop :=
  match e with
  | SBlock l rs => line_wf l /\ redirs_wf rs
  | SSimple rs args => redirs_wf rs /\ Forall (fun a => is_word a.1 /\ redirs_wf a.2) args /\ (length args < MAXARGS)%nat
  end.

Lemma cmd_map_redirs {W V} (f : W -> V) c rs : cmd_map f (add_redirs c rs) = add_redirs (cmd_map f c) (redir_map f <$> rs).
Proof. revert c. induction rs as [|r rs IH]; intros c; [done|]. cbn. apply IH. Qed.

(** *** The tokens of a printed line *)

(** The line does not start with white space. *)
Definition clean (s : list Z) : Prop := match s with c :: _ => strchr whitespace c = false | [] => True end.

Lemma skip_ws_clean s : clean s -> skip_ws s = s.
Proof. destruct s as [|c s]; [done|]. cbn [clean skip_ws]. by intros ->. Qed.

Lemma skip_ws_space s : skip_ws (32 :: s) = skip_ws s.
Proof. done. Qed.

Lemma word_char_spec c : word_char c = true -> strchr whitespace c = false /\ strchr symbols c = false /\ c <> 0.
Proof. unfold word_char. rewrite !andb_true_iff, !negb_true_iff, Z.eqb_neq. tauto. Qed.

Lemma word_clean w s : is_word w -> clean (w ++ s).
Proof. intros [Hne Hw]. destruct w as [|c w]; [done|]. apply Forall_cons in Hw as [Hc _]. by apply word_char_spec in Hc as (? & _). Qed.

Lemma skip_word_word w s : Forall (fun c => word_char c = true) w -> skip_word (w ++ 32 :: s) = 32 :: s.
Proof.
  induction w as [|c w IH]; intros Hw; [done|]. apply Forall_cons in Hw as [Hc Hw]. apply word_char_spec in Hc as (H1 & H2 & _).
  cbn [app skip_word]. rewrite H1, H2. by apply IH.
Qed.

Lemma gettoken_word w s : is_word w -> clean s -> gettoken (w ++ 32 :: s) = (TOK_WORD, Word (w ++ 32 :: s) (32 :: s), s).
Proof.
  intros Hw Hs. unfold gettoken. rewrite (skip_ws_clean (w ++ _)) by by apply word_clean. destruct Hw as [Hne Hw].
  pose proof (skip_word_word w s Hw) as Ew. destruct w as [|c w]; [done|]. apply Forall_cons in Hw as [Hc _].
  apply word_char_spec in Hc as (H1 & H2 & H3). cbn [app] in *. rewrite (proj2 (Z.eqb_neq c 0)) by done.
  assert (Hsym : strchr (chars "|();&<") c = false /\ c <> ch ">").
  { revert H2. unfold strchr, symbols, chars. cbn. rewrite !orb_false_iff, !Z.eqb_neq. intuition. }
  destruct Hsym as [-> Hgt]. rewrite (proj2 (Z.eqb_neq c (ch ">"))) by done. rewrite Ew, skip_ws_space, skip_ws_clean by done. done.
Qed.

Lemma text_word w s : text (Word (w ++ 32 :: s) (32 :: s)) = w.
Proof. unfold text. cbn [w_q w_eq]. rewrite length_app. apply take_app_length'. lia. Qed.

Lemma gettoken_symbol c s : c ∈ chars "|();&<" -> clean s -> gettoken (c :: 32 :: s) = (c, Word (c :: 32 :: s) (32 :: s), s).
Proof.
  intros Hc Hs. unfold gettoken.
  assert (Hf : strchr whitespace c = false /\ c <> 0 /\ strchr (chars "|();&<") c = true).
  { unfold chars in Hc. cbn in Hc. repeat (apply elem_of_cons in Hc as [->|Hc]; [by vm_compute|]). by apply not_elem_of_nil in Hc. }
  destruct Hf as (H1 & H2 & H3). rewrite (skip_ws_clean (c :: _)) by done. rewrite (proj2 (Z.eqb_neq c 0)), H3 by done.
  by rewrite skip_ws_space, skip_ws_clean.
Qed.

Lemma gettoken_out s : clean s -> gettoken (tok ">" ++ s) = (ch ">", Word (tok ">" ++ s) (32 :: s), s).
Proof.
  intros Hs. transitivity (ch ">", Word (tok ">" ++ s) (32 :: s), skip_ws (32 :: s)); [reflexivity|]. by rewrite skip_ws_space, skip_ws_clean.
Qed.

Lemma gettoken_append s : clean s -> gettoken (tok ">>" ++ s) = (TOK_APPEND, Word (tok ">>" ++ s) (32 :: s), s).
Proof.
  intros Hs. transitivity (TOK_APPEND, Word (tok ">>" ++ s) (32 :: s), skip_ws (32 :: s)); [reflexivity|]. by rewrite skip_ws_space, skip_ws_clean.
Qed.

(** [t] is empty or starts with one of [toks]. *)
Definition stops_at (toks : string) (t : list Z) : Prop := match t with [] => True | c :: _ => c ∈ chars toks end.

Lemma peek_clean s toks : clean s ->
  peek s toks = (match s with c :: _ => negb (c =? 0) && strchr (chars toks) c | [] => false end, s).
Proof. intros Hs. unfold peek. by rewrite skip_ws_clean. Qed.

Lemma strchr_true l c : strchr l c = true <-> c ∈ l.
Proof.
  unfold strchr. rewrite existsb_exists. split.
  - intros (x & Hx & ->%Z.eqb_eq). by apply list_elem_of_In.
  - intros Hc. exists c. split; [by apply list_elem_of_In|apply Z.eqb_refl].
Qed.

Lemma strchr_false l c : strchr l c = false <-> c ∉ l.
Proof. rewrite <- strchr_true. by destruct (strchr l c). Qed.

(** Whether a line starts with one of [toks] is decided when it starts with one of
    [all], a string of symbols. *)
Lemma peek_stop s toks all : stops_at all s -> Forall (fun c => strchr whitespace c = false /\ strchr (chars toks) c = false) (chars all) ->
  peek s toks = (false, s) /\ clean s.
Proof.
  intros Hs Hall. destruct s as [|c s]; [done|]. cbn in Hs. rewrite Forall_forall in Hall. destruct (Hall c Hs) as [H1 H2].
  split; [|done]. by rewrite peek_clean, H2, andb_false_r.
Qed.

Lemma peek_yes c s toks : c ∈ chars toks -> strchr whitespace c = false -> c <> 0 -> peek (c :: s) toks = (true, c :: s).
Proof.
  intros Hc Hw Hz. rewrite peek_clean by done. apply strchr_true in Hc. rewrite Hc. by rewrite (proj2 (Z.eqb_neq c 0)).
Qed.

Lemma peek_word w s toks : is_word w -> Forall (fun c => c ∈ symbols) (chars toks) -> peek (w ++ s) toks = (false, w ++ s).
Proof.
  intros Hw Hall. rewrite peek_clean by by apply word_clean. destruct Hw as [Hne Hw]. destruct w as [|c w]; [done|].
  apply Forall_cons in Hw as [(_ & Hc & _)%word_char_spec _]. cbn [app]. rewrite strchr_false in Hc. f_equal.
  apply andb_false_iff. right. apply strchr_false. rewrite Forall_forall in Hall. naive_solver.
Qed.

Ltac all_chars := unfold chars; cbn;
  repeat (apply Forall_cons; split; [first [by vm_compute | by (apply strchr_true; vm_compute)]|]); by apply Forall_nil.

Lemma clean_redirs rs t : clean t -> clean (print_redirs rs ++ t).
Proof. intros Ht. destruct rs as [|[[] f] rs]; done. Qed.

Lemma clean_args args t : Forall (fun a => is_word a.1 /\ redirs_wf a.2) args -> clean t -> clean (concat (print_arg <$> args) ++ t).
Proof.
  intros Ha Ht. destruct args as [|[w rs] args]; [done|]. apply Forall_cons in Ha as [[Hw _] _]. cbn.
  unfold print_arg. cbn. rewrite <- !app_assoc. by apply word_clean.
Qed.

(** *** Parsing what was printed *)

Definition arrow_tok (a : arrow) : Z := match a with In => ch "<" | Out => ch ">" | Append => TOK_APPEND end.

Lemma print_redir_eq r s : print_redir r ++ s =
  (match sr_arrow r with In => tok "<" | Out => tok ">" | Append => tok ">>" end) ++ sr_file r ++ 32 :: s.
Proof. unfold print_redir. by rewrite <- !app_assoc. Qed.

Lemma redir_tokens r s : is_word (sr_file r) -> clean s -> exists w,
  peek (print_redir r ++ s) "<>" = (true, print_redir r ++ s) /\
  gettoken (print_redir r ++ s) = (arrow_tok (sr_arrow r), w, sr_file r ++ 32 :: s).
Proof.
  intros Hw Hs. rewrite print_redir_eq. assert (Hc : clean (sr_file r ++ 32 :: s)) by by apply word_clean.
  destruct (sr_arrow r); eexists; (split; [apply peek_yes; [by vm_compute; repeat constructor|done|done]|]).
  - apply gettoken_symbol; [|done]. unfold chars. cbn. by repeat constructor.
  - by apply gettoken_out.
  - by apply gettoken_append.
Qed.

Lemma redirs_print rs : forall n rs0 t, redirs_wf rs -> clean t -> peek t "<>" = (false, t) ->
  (length (print_redirs rs ++ t) < n)%nat -> exists rs',
  parseredirs n rs0 (print_redirs rs ++ t) = Ok (rs0 ++ rs') t /\ redir_map text <$> rs' = mean_redir <$> rs.
Proof.
  induction rs as [|r rs IH]; intros n rs0 t Hwf Ht Hp Hn; (destruct n as [|n]; [lia|]).
  - exists []. cbn [print_redirs fmap list_fmap concat app parseredirs]. rewrite Hp. by rewrite (right_id_L [] (++)).
  - apply Forall_cons in Hwf as [Hw Hwf]. change (print_redirs (r :: rs)) with (print_redir r ++ print_redirs rs) in *.
    rewrite <- app_assoc in *. set (s := print_redirs rs ++ t) in *. assert (Hs : clean s) by by apply clean_redirs.
    destruct (redir_tokens r s Hw Hs) as (w & Ep & Eg). cbn [parseredirs]. rewrite Ep, Eg, gettoken_word by done. cbn [negb].
    rewrite print_redir_eq, length_app in Hn. rewrite length_app in Hn. cbn in Hn.
    assert (Hlen : (length s < n)%nat) by (destruct (sr_arrow r); cbn in Hn; lia).
    set (w' := Word (sr_file r ++ 32 :: s) (32 :: s)).
    destruct (IH n (rs0 ++ [redir_map (fun _ => w') (mean_redir r)]) t Hwf Ht Hp Hlen) as (rs' & E & Hrs').
    exists (redir_map (fun _ => w') (mean_redir r) :: rs'). split.
    + rewrite <- app_assoc in E. etransitivity; [|exact E]. unfold arrow_tok, mean_redir. by destruct (sr_arrow r).
    + cbn. rewrite Hrs'. f_equal. unfold redir_map, mean_redir. destruct (sr_arrow r); cbn; f_equal; apply text_word.
Qed.

Lemma print_args_cons w rs args t : concat (print_arg <$> (w, rs) :: args) ++ t =
  w ++ 32 :: print_redirs rs ++ concat (print_arg <$> args) ++ t.
Proof.
  change (concat (print_arg <$> (w, rs) :: args)) with ((w ++ [32] ++ print_redirs rs) ++ concat (print_arg <$> args)).
  by rewrite <- !app_assoc.
Qed.

Lemma args_print args : forall n argv rs t, Forall (fun a => is_word a.1 /\ redirs_wf a.2) args ->
  (length argv + length args < MAXARGS)%nat -> stops_at "|)&;" t -> (length (concat (print_arg <$> args) ++ t) + 1 < n)%nat ->
  exists c, parseargs n argv rs (concat (print_arg <$> args) ++ t) = Ok c t /\
    cmd_map text c = add_redirs (EXEC ((text <$> argv) ++ args.*1)) ((redir_map text <$> rs) ++ (mean_redir <$> concat args.*2)).
Proof.
  induction args as [|[w rs1] args IH]; intros n argv rs t Hwf Hmax Ht Hn; (destruct n as [|n]; [lia|]).
  - exists (add_redirs (EXEC argv) rs). cbn [fmap list_fmap concat app parseargs]. rewrite !(right_id_L [] (++)), cmd_map_redirs. split; [|done].
    destruct t as [|c t]; [done|]. cbn in Ht. rewrite peek_yes; [done|exact Ht| |];
      (unfold chars in Ht; cbn in Ht; repeat (apply elem_of_cons in Ht as [->|Ht]; [by vm_compute|]); by apply not_elem_of_nil in Ht).
  - apply Forall_cons in Hwf as [[Hw Hrs] Hwf]. cbn [fst snd] in Hw, Hrs. cbn [length] in Hmax.
    destruct (peek_stop t "<>" "|)&;" Ht) as [Hpt Hct]; [all_chars|].
    set (s2 := concat (print_arg <$> args) ++ t). assert (Hs2 : clean s2) by by apply clean_args.
    assert (Hp2 : peek s2 "<>" = (false, s2)).
    { unfold s2. destruct args as [|[w2 rs2] args]; [exact Hpt|]. apply Forall_cons in Hwf as [[Hw2 _] _]. rewrite print_args_cons.
      apply peek_word; [done|all_chars]. }
    set (s1 := print_redirs rs1 ++ s2). assert (Hs1 : clean s1) by by apply clean_redirs.
    assert (Es : concat (print_arg <$> (w, rs1) :: args) ++ t = w ++ 32 :: s1) by apply print_args_cons.
    rewrite Es in *. rewrite length_app in Hn. cbn [length] in Hn. cbn [parseargs]. rewrite peek_word by (done || all_chars).
    rewrite gettoken_word by done. cbn [negb]. rewrite (proj2 (Nat.leb_gt _ _)) by (rewrite length_app; cbn; lia).
    destruct (redirs_print rs1 n rs s2 Hrs Hs2 Hp2) as (rs' & E & Hrs'); [unfold s1 in Hn; lia|]. unfold s1 at 2. rewrite E. cbn [obind].
    destruct (IH n (argv ++ [Word (w ++ 32 :: s1) (32 :: s1)]) (rs ++ rs') t Hwf) as (c & Ec & Hc); [rewrite length_app; cbn; lia|done| |].
    { fold s2. unfold s1 in Hn. rewrite length_app in Hn. lia. }
    exists c. split; [exact Ec|]. rewrite Hc, !fmap_app, Hrs', list_fmap_singleton, text_word.
    change (concat ((w, rs1) :: args).*2) with (rs1 ++ concat args.*2). rewrite fmap_app, <- !app_assoc. done.
Qed.

Lemma back_print k : forall n c t, clean t -> peek t "&" = (false, t) -> (length (print_back k ++ t) < n)%nat ->
  parseback n c (print_back k ++ t) = Ok (Nat.iter k BACK c) t.
Proof.
  induction k as [|k IH]; intros n c t Ht Hp Hn; (destruct n as [|n]; [lia|]).
  - cbn [print_back replicate concat app parseback]. by rewrite Hp.
  - change (print_back (S k) ++ t) with (ch "&" :: 32 :: print_back k ++ t) in *. cbn [parseback].
    rewrite peek_yes by (done || by left). rewrite gettoken_symbol; [|by vm_compute; repeat constructor|by destruct k].
    rewrite IH; [|done|done|cbn [length] in Hn; lia]. f_equal. by rewrite Nat.iter_succ_r.
Qed.

Lemma cmd_map_back k (c : cmd word) : cmd_map text (Nat.iter k BACK c) = Nat.iter k BACK (cmd_map text c).
Proof. induction k as [|k IH]; [done|]. rewrite !Nat.iter_succ. cbn [cmd_map]. by rewrite IH. Qed.

Definition prints_line (l : sline) : Prop := line_wf l -> forall n t, stops_at ")" t -> (4 * length (print_line l ++ t) + 6 <= n)%nat ->
  exists c, parseline n (print_line l ++ t) = Ok c t /\ cmd_map text c = mean_line l.
Definition prints_pipe (p : spipe) : Prop := pipe_wf p -> forall n t, stops_at ")&;" t -> (4 * length (print_pipe p ++ t) + 5 <= n)%nat ->
  exists c, parsepipe n (print_pipe p ++ t) = Ok c t /\ cmd_map text c = mean_pipe p.
Definition prints_exec (e : sexec) : Prop := exec_wf e -> forall n t, stops_at "|)&;" t -> (4 * length (print_exec e ++ t) + 4 <= n)%nat ->
  exists c, parseexec n (print_exec e ++ t) = Ok c t /\ cmd_map text c = mean_exec e.

Lemma clean_back k s : clean s -> clean (print_back k ++ s).
Proof. by destruct k. Qed.

Lemma clean_print : (forall l, line_wf l -> forall s, clean s -> clean (print_line l ++ s)) /\
  (forall p, pipe_wf p -> forall s, clean s -> clean (print_pipe p ++ s)) /\
  (forall e, exec_wf e -> forall s, clean s -> clean (print_exec e ++ s)).
Proof.
  apply syntax_ind; cbn [print_line print_pipe print_exec line_wf pipe_wf exec_wf].
  - intros p IH k Hwf s Hs. rewrite <- app_assoc. by apply IH, clean_back.
  - intros p IH k l _ [Hwf _] s Hs. rewrite <- !app_assoc. apply IH, clean_back; done.
  - intros e IH Hwf s Hs. by apply IH.
  - intros e IH p _ [Hwf _] s Hs. rewrite <- !app_assoc. by apply IH.
  - done.
  - intros rs args (Hrs & Hargs & _) s Hs. rewrite <- app_assoc. by apply clean_redirs, clean_args.
Qed.

Lemma peek_args args t toks : Forall (fun a => is_word a.1 /\ redirs_wf a.2) args -> Forall (fun c => c ∈ symbols) (chars toks) ->
  peek t toks = (false, t) -> peek (concat (print_arg <$> args) ++ t) toks = (false, concat (print_arg <$> args) ++ t).
Proof.
  intros Ha Hs Ht. destruct args as [|[w rs] args]; [done|]. apply Forall_cons in Ha as [[Hw _] _]. rewrite print_args_cons.
  by apply peek_word.
Qed.

Lemma exec_simple rs args : prints_exec (SSimple rs args).
Proof.
  intros (Hrs & Hargs & Hmax) n t Ht Hn. destruct n as [|n]; [lia|]. cbn [print_exec] in *. rewrite <- app_assoc in *.
  destruct (peek_stop t "<>" "|)&;" Ht) as [Hpt Hct]; [all_chars|]. destruct (peek_stop t "(" "|)&;" Ht) as [Hpt' _]; [all_chars|].
  set (s2 := concat (print_arg <$> args) ++ t) in *. assert (Hs2 : clean s2) by by apply clean_args.
  assert (Hp2 : peek s2 "<>" = (false, s2)) by (apply peek_args; [done|all_chars|done]).
  assert (Hp : peek (print_redirs rs ++ s2) "(" = (false, print_redirs rs ++ s2)).
  { destruct rs as [|[[] f] rs]; [|by rewrite peek_clean..]. apply peek_args; [done|all_chars|done]. }
  cbn [parseexec]. rewrite Hp. destruct (redirs_print rs n [] s2 Hrs Hs2 Hp2) as (rs' & E & Hrs'); [lia|]. rewrite E. cbn [obind app].
  rewrite length_app in Hn. destruct (args_print args n [] rs' t Hargs) as (c & Ec & Hc); [cbn; lia|done|fold s2; lia|].
  exists c. split; [exact Ec|]. rewrite Hc, Hrs'. cbn [mean_exec]. by rewrite fmap_app.
Qed.

Lemma exec_block l rs : prints_line l -> prints_exec (SBlock l rs).
Proof.
  intros IH [Hl Hrs] n t Ht Hn. destruct n as [|[|n]]; [lia|lia|]. cbn [print_exec] in *. rewrite <- !app_assoc in *.
  destruct (peek_stop t "<>" "|)&;" Ht) as [Hpt Hct]; [all_chars|].
  set (s3 := print_redirs rs ++ t) in *. assert (Hs3 : clean s3) by by apply clean_redirs.
  change (tok ")" ++ s3) with (ch ")" :: 32 :: s3) in *. set (s2 := ch ")" :: 32 :: s3) in *.
  assert (Hs2 : clean (print_line l ++ s2)) by (apply clean_print; done).
  change (tok "(" ++ print_line l ++ s2) with (ch "(" :: 32 :: print_line l ++ s2) in *.
  assert (Hlen : (length (print_line l ++ s2) >= length s3 + 2)%nat) by (rewrite length_app; cbn; lia). cbn [length] in Hn.
  cbn [parseexec parseblock]. rewrite !peek_yes by (done || by left). cbn [negb]. rewrite gettoken_symbol; [|by vm_compute; repeat constructor|done].
  destruct (IH Hl n s2) as (c & Ec & Hc); [by left|lia|]. rewrite Ec. cbn [obind]. unfold s2. rewrite peek_yes by (done || by left). cbn [negb].
  rewrite gettoken_symbol; [|by vm_compute; repeat constructor|done].
  destruct (redirs_print rs n [] t Hrs Hct Hpt) as (rs' & E & Hrs'); [fold s3; lia|]. unfold s3. rewrite E. cbn [obind app].
  eexists. split; [reflexivity|]. by rewrite cmd_map_redirs, Hc, Hrs'.
Qed.

Lemma pipe_one e : prints_exec e -> prints_pipe (SOne e).
Proof.
  intros IH Hwf n t Ht Hn. destruct n as [|n]; [lia|]. cbn [print_pipe parsepipe] in *.
  destruct (peek_stop t "|" ")&;" Ht) as [Hpt _]; [all_chars|].
  destruct (IH Hwf n t) as (c & Ec & Hc); [destruct t; [done|by right]|lia|]. rewrite Ec. cbn [obind]. rewrite Hpt. by exists c.
Qed.

Lemma pipe_bar e p : prints_exec e -> prints_pipe p -> prints_pipe (SBar e p).
Proof.
  intros IHe IHp [Hwe Hwp] n t Ht Hn. destruct n as [|n]; [lia|]. cbn [print_pipe parsepipe] in *. rewrite <- !app_assoc in *.
  destruct (peek_stop t "|" ")&;" Ht) as [_ Hct]; [all_chars|]. assert (Hs : clean (print_pipe p ++ t)) by (apply clean_print; done).
  change (tok "|" ++ print_pipe p ++ t) with (ch "|" :: 32 :: print_pipe p ++ t) in *. set (s := ch "|" :: 32 :: print_pipe p ++ t) in *.
  assert (Hlen : (length (print_exec e ++ s) >= length (print_pipe p ++ t) + 2)%nat) by (rewrite length_app; cbn; lia).
  destruct (IHe Hwe n s) as (c & Ec & Hc); [by left|lia|]. rewrite Ec. cbn [obind]. unfold s. rewrite peek_yes by (done || by left).
  rewrite gettoken_symbol; [|by vm_compute; repeat constructor|done].
  destruct (IHp Hwp n t Ht) as (c' & Ec' & Hc'); [lia|]. rewrite Ec'. cbn [obind]. eexists. split; [reflexivity|]. cbn. by rewrite Hc, Hc'.
Qed.

(** What follows the pipeline of a line. *)
Lemma line_end p k n t (s : cmd word -> list Z -> outcome (cmd word)) : prints_pipe p -> pipe_wf p -> stops_at ");" t -> (4 * length (print_pipe p ++ print_back k ++ t) + 6 <= S n)%nat ->
  exists c, cmd_map text c = Nat.iter k BACK (mean_pipe p) /\
    obind (parsepipe n (print_pipe p ++ print_back k ++ t)) (fun c s1 => obind (parseback n c s1) s) = s c t.
Proof.
  intros IH Hwf Ht Hn. destruct (peek_stop t "&" ");" Ht) as [Hpt Hct]; [all_chars|].
  destruct (IH Hwf n (print_back k ++ t)) as (c & Ec & Hc); [|lia|].
  { destruct k; [|by right; left]. cbn. destruct t as [|x t]; [done|]. cbn in *. set_solver. }
  exists (Nat.iter k BACK c). rewrite cmd_map_back, Hc. split; [done|]. rewrite Ec. cbn [obind]. rewrite length_app in Hn.
  rewrite back_print by (done || lia). done.
Qed.

Lemma line_last p k : prints_pipe p -> prints_line (SEnd p k).
Proof.
  intros IH Hwf n t Ht Hn. destruct n as [|n]; [lia|]. cbn [print_line parseline] in *. rewrite <- app_assoc in *.
  destruct (line_end p k n t (fun c s => let '(b, s) := peek s ";" in if b then let '(_, _, s) := gettoken s in
    obind (parseline n s) (fun r s => Ok (LIST c r) s) else Ok c s) IH Hwf) as (c & Hc & Ec); [destruct t; [done|cbn in *; set_solver]|lia|].
  rewrite Ec. destruct (peek_stop t ";" ")" Ht) as [Hpt _]; [all_chars|]. rewrite Hpt. by exists c.
Qed.

Lemma line_seq p k l : prints_pipe p -> prints_line l -> prints_line (SSeq p k l).
Proof.
  intros IH IHl [Hwf Hwl] n t Ht Hn. destruct n as [|n]; [lia|]. cbn [print_line parseline] in *. rewrite <- !app_assoc in *.
  destruct (peek_stop t ";" ")" Ht) as [_ Hct]; [all_chars|]. assert (Hs : clean (print_line l ++ t)) by (apply clean_print; done).
  change (tok ";" ++ print_line l ++ t) with (ch ";" :: 32 :: print_line l ++ t) in *. set (s := ch ";" :: 32 :: print_line l ++ t) in *.
  assert (Hlen : (length (print_pipe p ++ print_back k ++ s) >= length (print_line l ++ t) + 2)%nat) by (rewrite !length_app; cbn; rewrite length_app; lia).
  destruct (line_end p k n s (fun c s => let '(b, s) := peek s ";" in if b then let '(_, _, s) := gettoken s in
    obind (parseline n s) (fun r s => Ok (LIST c r) s) else Ok c s) IH Hwf) as (c & Hc & Ec); [by right; left|lia|].
  rewrite Ec. unfold s. rewrite peek_yes by (done || by left). rewrite gettoken_symbol; [|by vm_compute; repeat constructor|done].
  destruct (IHl Hwl n t Ht) as (c' & Ec' & Hc'); [lia|]. rewrite Ec'. cbn [obind]. eexists. split; [reflexivity|]. cbn. by rewrite Hc, Hc'.
Qed.

Lemma all_print : (forall l, prints_line l) /\ (forall p, prints_pipe p) /\ (forall e, prints_exec e).
Proof.
  apply syntax_ind; auto using line_last, line_seq, pipe_one, pipe_bar, exec_block, exec_simple.
Qed.

(** ** Ending the words with NULs *)

Fixpoint words {W} (c : cmd W) : list W :=
  match c with
  | EXEC argv => argv
  | REDIR c r => words c ++ [r_file r]
  | PIPE l r | LIST l r => words l ++ words r
  | BACK c => words c
  end.

Definition separator (c : Z) : bool := strchr whitespace c || strchr symbols c.

(** A word of the line [s]: it ends at a separator or at the end of the line. *)
Definition word_of (s : list Z) (w : word) : Prop :=
  w_q w `suffix_of` s /\ exists t, w_q w = t ++ w_eq w /\ Forall (fun c => separator c = false) t /\
  match w_eq w with [] => True | c :: _ => separator c = true end.

Lemma word_of_suffix s s' w : s' `suffix_of` s -> word_of s' w -> word_of s w.
Proof. intros Hs (Hq & Hw). split; [by etrans|done]. Qed.

Lemma skip_ws_suffix s : skip_ws s `suffix_of` s.
Proof. induction s as [|c s IH]; cbn [skip_ws]; [done|]. destruct (strchr whitespace c); [by apply suffix_cons_r|done]. Qed.

Lemma skip_word_spec s : exists t, s = t ++ skip_word s /\ Forall (fun c => separator c = false) t /\
  match skip_word s with [] => True | c :: _ => separator c = true end.
Proof.
  induction s as [|c s IH]; cbn [skip_word]; [by exists []|]. fold (separator c). destruct (separator c) eqn:E; [exists []; by rewrite E|].
  destruct IH as (t & Et & Ht & Hs). exists (c :: t). cbn. rewrite <- Et. split; [done|]. split; [by constructor|done].
Qed.

Lemma gettoken_sound s tok w s' : gettoken s = (tok, w, s') -> s' `suffix_of` s /\ (tok = TOK_WORD -> word_of s w).
Proof.
  unfold gettoken. pose proof (skip_ws_suffix s) as Hq. destruct (skip_ws s) as [|c s1] eqn:Eq; [intros E; injection E as <- _ <-; done|].
  assert (H1 : forall r, r `suffix_of` c :: s1 -> skip_ws r `suffix_of` s) by (intros r Hr; etrans; [apply skip_ws_suffix|by etrans]).
  destruct (c =? 0); [intros E; injection E as <- _ <-; split; [by apply (H1 (c :: s1))|done]|].
  destruct (strchr (chars "|();&<") c) eqn:Es.
  { intros E. injection E as <- _ <-. split; [apply H1; by apply suffix_cons_r|]. intros ->. by vm_compute in Es. }
  destruct (Z.eqb_spec c (ch ">")) as [->|_].
  - destruct s1 as [|c' s2]; [intros E; injection E as <- _ <-; split; [apply suffix_nil|done]|].
    destruct (c' =? ch ">"); intros E; injection E as <- _ <-; (split; [|done]).
    + apply H1. by do 2 apply suffix_cons_r.
    + apply (H1 (c' :: s2)). by apply suffix_cons_r.
  - intros E. injection E as _ <- <-. destruct (skip_word_spec (c :: s1)) as (t & Et & Ht & Hs). split.
    + apply (H1 (skip_word (c :: s1))). exists t. exact Et.
    + intros _. split; [exact Hq|]. by exists t.
Qed.

Lemma peek_suffix s toks b s1 : peek s toks = (b, s1) -> s1 `suffix_of` s.
Proof. unfold peek. intros E. injection E as _ <-. apply skip_ws_suffix. Qed.

(** The words [f a] of what the parser returns are words of the line. *)
Definition sound {A} (f : A -> list word) (m : outcome A) (s : list Z) : Prop :=
  match m with Ok a s' => s' `suffix_of` s /\ Forall (word_of s) (f a) | _ => True end.

Lemma sound_le {A} (f : A -> list word) m s s' : sound f m s' -> s' `suffix_of` s -> sound f m s.
Proof.
  destruct m as [a r|msg|]; cbn; [|done|done]. intros [Hr Hf] Hs. split; [by etrans|]. eapply Forall_impl; [exact Hf|].
  intros w. by apply word_of_suffix.
Qed.

Lemma sound_bind {A B} (f : A -> list word) (g : B -> list word) (m : outcome A) (k : A -> list Z -> outcome B) s :
  sound f m s -> (forall a s', s' `suffix_of` s -> Forall (word_of s) (f a) -> sound g (k a s') s) -> sound g (obind m k) s.
Proof. intros Hm Hk. destruct m as [a s'|msg|]; cbn in *; [|done|done]. destruct Hm as [H1 H2]. by apply Hk. Qed.

Definition files (rs : list (redir word)) : list word := r_file <$> rs.

Lemma words_redirs (c : cmd word) rs : words (add_redirs c rs) = words c ++ files rs.
Proof.
  revert c. induction rs as [|r rs IH]; intros c; [cbn; by rewrite (right_id_L [] (++))|].
  change (add_redirs c (r :: rs)) with (add_redirs (REDIR c r) rs). rewrite IH. cbn [words]. by rewrite <- app_assoc.
Qed.

Lemma parseredirs_sound n s0 : forall rs s, s `suffix_of` s0 -> Forall (word_of s0) (files rs) -> sound files (parseredirs n rs s) s0.
Proof.
  induction n as [|n IH]; intros rs s Hs Hrs; [done|]. cbn [parseredirs]. destruct (peek s "<>") as [b s1] eqn:Hp. apply peek_suffix in Hp.
  assert (H1 : s1 `suffix_of` s0) by by etrans. destruct b; [|done]. destruct (gettoken s1) as [[tok w] s2] eqn:Hg.
  apply gettoken_sound in Hg as [H2 _]. assert (H2' : s2 `suffix_of` s0) by by etrans.
  destruct (gettoken s2) as [[tok' w'] s3] eqn:Hg'. apply gettoken_sound in Hg' as [H3 Hw]. destruct (Z.eqb_spec tok' TOK_WORD) as [Et|]; [|done].
  assert (Hw' : word_of s0 w') by (eapply word_of_suffix; [exact H2'|by apply Hw]). cbn [negb]. apply IH; [by etrans|].
  destruct (tok =? ch "<"); [|destruct (tok =? ch ">"); [|destruct (tok =? TOK_APPEND); [|done]]];
    unfold files; rewrite fmap_app; apply Forall_app; (split; [done|by constructor]).
Qed.

Lemma parseargs_sound n s0 : forall argv rs s, s `suffix_of` s0 -> Forall (word_of s0) argv -> Forall (word_of s0) (files rs) ->
  sound words (parseargs n argv rs s) s0.
Proof.
  induction n as [|n IH]; intros argv rs s Hs Ha Hrs; [done|]. cbn [parseargs].
  assert (Hdone : forall s', s' `suffix_of` s0 -> sound words (Ok (add_redirs (EXEC argv) rs) s') s0).
  { intros s' Hs'. split; [done|]. rewrite words_redirs. by apply Forall_app. }
  destruct (peek s "|)&;") as [b s1] eqn:Hp. apply peek_suffix in Hp. assert (H1 : s1 `suffix_of` s0) by by etrans.
  destruct b; [by apply Hdone|]. destruct (gettoken s1) as [[tok w] s2] eqn:Hg. apply gettoken_sound in Hg as [H2 Hw].
  assert (H2' : s2 `suffix_of` s0) by by etrans. destruct (tok =? 0); [by apply Hdone|]. destruct (Z.eqb_spec tok TOK_WORD) as [Et|]; [|done].
  cbn [negb]. destruct (_ <=? _)%nat; [done|]. eapply sound_bind; [by apply parseredirs_sound|]. intros rs' s' Hs' Hrs'. apply IH; [done| |done].
  apply Forall_app. split; [done|]. constructor; [|constructor]. eapply word_of_suffix; [exact H1|by apply Hw].
Qed.

Lemma parseback_sound n s0 : forall c s, s `suffix_of` s0 -> Forall (word_of s0) (words c) -> sound words (parseback n c s) s0.
Proof.
  induction n as [|n IH]; intros c s Hs Hc; [done|]. cbn [parseback]. destruct (peek s "&") as [b s1] eqn:Hp. apply peek_suffix in Hp.
  assert (H1 : s1 `suffix_of` s0) by by etrans. destruct b; [|done]. destruct (gettoken s1) as [[tok w] s2] eqn:Hg.
  apply gettoken_sound in Hg as [H2 _]. apply IH; [by etrans|done].
Qed.

Lemma parser_sound n s0 : forall s, s `suffix_of` s0 -> sound words (parseline n s) s0 /\ sound words (parsepipe n s) s0 /\
  sound words (parseexec n s) s0 /\ sound words (parseblock n s) s0.
Proof.
  induction n as [|n IH]; intros s Hs; [done|].
  assert (Htwo : forall p x (g : cmd word -> cmd word -> cmd word) c s1, (forall c r, words (g c r) = words c ++ words r) ->
    (forall s, s `suffix_of` s0 -> sound words (p s) s0) -> s1 `suffix_of` s0 -> Forall (word_of s0) (words c) ->
    sound words (let '(b, s) := peek s1 x in if b then let '(_, _, s) := gettoken s in obind (p s) (fun r s => Ok (g c r) s) else Ok c s) s0).
  { intros p x g c s1 Hg Hp H1 Hc. destruct (peek s1 x) as [b s2] eqn:Hx. apply peek_suffix in Hx. assert (H2 : s2 `suffix_of` s0) by by etrans.
    destruct b; [|done]. destruct (gettoken s2) as [[tok w] s3] eqn:Ht. apply gettoken_sound in Ht as [H3 _].
    eapply sound_bind; [apply Hp; by etrans|]. intros r s4 H4 Hr. split; [done|]. rewrite Hg. by apply Forall_app. }
  split_and!.
  - cbn [parseline]. eapply sound_bind; [by apply IH|]. intros c s1 H1 Hc. eapply sound_bind; [by apply parseback_sound|].
    intros c' s2 H2 Hc'. apply (Htwo (parseline n) ";"%string LIST); [done|intros; by apply IH|done|done].
  - cbn [parsepipe]. eapply sound_bind; [by apply IH|]. intros c s1 H1 Hc. apply (Htwo (parsepipe n) "|"%string PIPE); [done|intros; by apply IH|done|done].
  - cbn [parseexec]. destruct (peek s "(") as [b s1] eqn:Hp. apply peek_suffix in Hp. assert (H1 : s1 `suffix_of` s0) by by etrans.
    destruct b; [by apply IH|]. eapply sound_bind; [apply parseredirs_sound; [done|constructor]|]. intros rs s2 H2 Hrs.
    by apply parseargs_sound; [|constructor|].
  - cbn [parseblock]. destruct (peek s "(") as [b s1] eqn:Hp. apply peek_suffix in Hp. assert (H1 : s1 `suffix_of` s0) by by etrans.
    destruct b; [|done]. cbn [negb]. destruct (gettoken s1) as [[tok w] s2] eqn:Hg. apply gettoken_sound in Hg as [H2 _].
    eapply sound_bind; [apply IH; by etrans|]. intros c s3 H3 Hc. destruct (peek s3 ")") as [b s4] eqn:Hp'. apply peek_suffix in Hp'.
    destruct b; [|done]. cbn [negb]. destruct (gettoken s4) as [[tok' w'] s5] eqn:Hg'. apply gettoken_sound in Hg' as [H5 _].
    eapply sound_bind; [apply parseredirs_sound; [by etrans; [|etrans]|constructor]|]. intros rs s6 H6 Hrs. split; [done|].
    rewrite words_redirs. by apply Forall_app.
Qed.

Lemma nulterminate_words es c : forall buf, nulterminate es c buf = foldl (fun buf w => terminate es w buf) buf (words c).
Proof. induction c; intros buf; cbn [nulterminate words]; rewrite ?foldl_app; cbn; congruence. Qed.

Definition end_of (es : nat) (w : word) : nat := (es - length (w_eq w))%nat.

Lemma terminated_lookup es ws : forall buf i, (i < length buf)%nat ->
  foldl (fun buf w => terminate es w buf) buf ws !! i = if decide (i ∈ end_of es <$> ws) then Some 0 else buf !! i.
Proof.
  induction ws as [|w ws IH]; intros buf i Hi; cbn [foldl]; [by rewrite decide_False by apply not_elem_of_nil|].
  rewrite IH by (unfold terminate; by rewrite length_insert). unfold terminate. fold (end_of es w). cbn [fmap list_fmap].
  destruct (decide (i ∈ end_of es <$> ws)) as [Hin|Hn]; [by rewrite decide_True by (by right)|]. destruct (decide (i = end_of es w)) as [->|Hne].
  - rewrite decide_True by (by left). by apply list_lookup_insert_eq.
  - rewrite decide_False by (rewrite elem_of_cons; tauto). by rewrite list_lookup_insert_ne.
Qed.

Lemma terminated_length es ws : forall buf, length (foldl (fun buf w => terminate es w buf) buf ws) = length buf.
Proof. induction ws as [|w ws IH]; intros buf; [done|]. cbn [foldl]. rewrite IH. unfold terminate. apply length_insert. Qed.

Lemma cstring_app t r : 0 ∉ t -> cstring (t ++ r) = t ++ cstring r.
Proof.
  induction t as [|c t IH]; intros Ht; [done|]. apply not_elem_of_cons in Ht as [Hc Ht]. cbn. rewrite (proj2 (Z.eqb_neq c 0)) by congruence.
  by rewrite IH.
Qed.

Lemma word_text s w : word_of s w -> exists pre, s = pre ++ text w ++ w_eq w /\ w_q w = text w ++ w_eq w /\
  Forall (fun c => separator c = false) (text w).
Proof.
  intros ([pre Hp] & t & Ht & Hs & _). assert (Et : text w = t) by (unfold text; rewrite Ht, length_app; apply take_app_length'; lia).
  exists pre. rewrite Et, <- Ht. done.
Qed.

(** A word does not reach over the end of another. *)
Lemma end_not_inside s w w' pre i : word_of s w' -> s = pre ++ text w ++ w_eq w -> Forall (fun c => separator c = false) (text w) ->
  (i < length (text w))%nat -> end_of (length s) w' <> (length pre + i)%nat.
Proof.
  intros Hw' Es Hsep Hi E. destruct (lookup_lt_is_Some_2 (text w) i Hi) as [c Hc]. rewrite Forall_lookup in Hsep. specialize (Hsep i c Hc).
  assert (Hsc : s !! (length pre + i)%nat = Some c).
  { rewrite Es, lookup_app_r by lia. replace (length pre + i - length pre)%nat with i by lia. by apply lookup_app_l_Some. }
  destruct Hw' as ([p Hp] & t & Ht & _ & He). rewrite Ht, app_assoc in Hp. unfold end_of in E. rewrite Hp, length_app in E.
  assert (E' : (length pre + i)%nat = length (p ++ t)) by (rewrite <- E; lia). rewrite E', Hp, lookup_app_r, Nat.sub_diag in Hsc by lia.
  destruct (w_eq w') as [|x r]; [done|]. cbn in Hsc. injection Hsc as ->. congruence.
Qed.

Lemma terminated_word s ws w : 0 ∉ s -> Forall (word_of s) ws -> w ∈ ws ->
  cstring (drop (length s - length (w_q w)) (foldl (fun buf w => terminate (length s) w buf) s ws)) = text w.
Proof.
  intros Hz Hws Hw. set (buf := foldl _ s ws). pose proof (terminated_length (length s) ws s) as Hlen. fold buf in Hlen.
  rewrite Forall_forall in Hws. destruct (word_text s w (Hws w Hw)) as (pre & Es & Eq & Hsep).
  assert (Hp : (length s - length (w_q w))%nat = length pre) by (rewrite Eq; rewrite Es at 1; rewrite !length_app; lia). rewrite Hp.
  assert (Hls : length s = (length pre + length (text w) + length (w_eq w))%nat) by (rewrite Es at 1; rewrite !length_app; lia).
  assert (Hbuf : forall i, (i < length s)%nat -> buf !! i = if decide (i ∈ end_of (length s) <$> ws) then Some 0 else s !! i)
    by (intros i Hi; by apply terminated_lookup).
  assert (Htext : take (length (text w)) (drop (length pre) buf) = text w).
  { apply list_eq. intros i. destruct (decide (i < length (text w))%nat) as [Hi|Hi].
    - rewrite lookup_take_lt, lookup_drop by done. rewrite Hbuf by lia. rewrite decide_False.
      + rewrite Es, lookup_app_r by lia. replace (length pre + i - length pre)%nat with i by lia. by apply lookup_app_l.
      + intros (w' & E & Hw')%list_elem_of_fmap. by eapply (end_not_inside s w w' pre i (Hws w' Hw') Es Hsep Hi).
    - rewrite lookup_take_ge, lookup_ge_None_2 by lia. done. }
  assert (Hzt : 0 ∉ text w) by (intros Hin; apply Hz; rewrite Es; apply elem_of_app; right; apply elem_of_app; by left).
  rewrite <- (take_drop (length (text w)) (drop (length pre) buf)), Htext, cstring_app, drop_drop by done.
  destruct (w_eq w) as [|x r] eqn:Ee.
  - rewrite drop_ge by (rewrite Hlen; cbn in Hls; lia). cbn. by rewrite (right_id_L [] (++)).
  - assert (Hx : buf !! (length pre + length (text w))%nat = Some 0).
    { rewrite Hbuf by (cbn in Hls; lia). rewrite decide_True; [done|]. apply list_elem_of_fmap. exists w. split; [|done].
      unfold end_of. rewrite Ee. cbn in *. lia. }
    rewrite (drop_S _ 0 _ Hx). cbn. by rewrite (right_id_L [] (++)).
Qed.

(** ** The file descriptors of a pipeline *)

Section fds.
(** What descriptors refer to; a pipe has a read end and a write end. *)
Context {obj : Type} (rd wr : obj).

Definition NOFILE : nat := 16.

(** The kernel hands out the lowest descriptor that is free. *)
Fixpoint fdalloc (n : nat) (fd : Z) (t : gmap Z obj) : Z :=
  match n with
  | O => -1
  | S n' => match t !! fd with None => fd | Some _ => fdalloc n' (fd + 1) t end
  end.
Definition lowest (t : gmap Z obj) : Z := fdalloc NOFILE 0 t.

Inductive fd_step : gmap Z obj * prog -> gmap Z obj * prog -> Prop :=
| fd_close t fd k r : fd_step (t, Call (Close fd) k) (delete fd t, k r)
| fd_dup t fd k o : t !! fd = Some o -> lowest t <> -1 ->
    fd_step (t, Call (Dup fd) k) (<[lowest t := o]> t, k (lowest t))
| fd_open t file mode k o : lowest t <> -1 -> fd_step (t, Call (Open file mode) k) (<[lowest t := o]> t, k (lowest t))
| fd_full t file mode k : lowest t = -1 -> fd_step (t, Call (Open file mode) k) (t, k (-1))
| fd_pipe t k : let t1 := <[lowest t := rd]> t in lowest t <> -1 -> lowest t1 <> -1 ->
    fd_step (t, Pipe k) (<[lowest t1 := wr]> t1, k (Some (lowest t, lowest t1)))
| fd_printf t fd msg a k r : fd_step (t, Call (Printf fd msg a) k) (t, k r)
| fd_child t p k : fd_step (t, Fork p k) (t, p)
| fd_parent t p k pid : 0 < pid -> fd_step (t, Fork p k) (t, k pid).

Lemma fdalloc_free n : forall fd t, fdalloc n fd t <> -1 -> t !! fdalloc n fd t = None /\ fd <= fdalloc n fd t.
Proof using Type.
  induction n as [|n IH]; intros fd t; cbn; [done|]. destruct (t !! fd) as [o|] eqn:E; [|intros _; split; [done|lia]].
  intros Hne. destruct (IH (fd + 1) t Hne). split; [done|lia].
Qed.

Lemma lowest_free t : lowest t <> -1 -> t !! lowest t = None /\ 0 <= lowest t.
Proof using Type. apply fdalloc_free. Qed.

Lemma lowest_0 t : t !! 0 = None -> lowest t = 0.
Proof using Type. intros E. unfold lowest, NOFILE. cbn [fdalloc]. by rewrite E. Qed.

Lemma lowest_1 t : is_Some (t !! 0) -> t !! 1 = None -> lowest t = 1.
Proof using Type. intros [o Eo] E. unfold lowest, NOFILE. cbn [fdalloc Z.add]. rewrite Eo. change (0 + 1) with 1. by rewrite E. Qed.

Lemma fd_calls t c k t' p : fd_step (t, Call c k) (t', k 0) -> rtc fd_step (t', k 0) p -> rtc fd_step (t, Call c k) p.
Proof using Type. apply rtc_l. Qed.

Section wiring.
Context (t : gmap Z obj) (H0 : is_Some (t !! 0)) (H1 : is_Some (t !! 1)).
Let p0 := lowest t.
Let p1 := lowest (<[p0 := rd]> t).
Context (Hp0 : p0 <> -1) (Hp1 : p1 <> -1).
Let tp := <[p1 := wr]> (<[p0 := rd]> t).

Lemma ends_new : t !! p0 = None /\ t !! p1 = None /\ p0 <> p1 /\ p0 <> 0 /\ p0 <> 1 /\ p1 <> 0 /\ p1 <> 1.
Proof using H0 H1 Hp0 Hp1.
  destruct (lowest_free _ Hp0) as [E0 _]. destruct (lowest_free _ Hp1) as [E1 _]. fold p0 in E0. fold p1 in E1.
  assert (Hne : p0 <> p1) by (intros E; rewrite <- E, lookup_insert_eq in E1; done). rewrite lookup_insert_ne in E1 by done.
  destruct H0 as [o0 Eo0], H1 as [o1 Eo1]. split_and!; try done; intros E; rewrite E in *; congruence.
Qed.

Lemma close_dup fd src o : tp !! src = Some o -> src <> fd -> fd <> p0 -> fd <> p1 -> lowest (delete fd tp) = fd -> fd <> -1 -> forall k : prog,
  rtc fd_step (tp, then_ (Close fd) (then_ (Dup src) (then_ (Close p0) (then_ (Close p1) k)))) (<[fd := o]> t, k).
Proof using H0 H1 Hp0 Hp1.
  intros Es Hsf Hf0 Hf1 Hl Hne k. destruct ends_new as (E0 & E1 & Hd & _).
  eapply rtc_l; [apply (fd_close _ _ _ 0)|]. cbv beta. eapply rtc_l; [apply (fd_dup _ _ _ o); [by rewrite lookup_delete_ne by congruence|congruence]|].
  rewrite Hl. eapply rtc_l; [apply (fd_close _ _ _ 0)|]. eapply rtc_l; [apply (fd_close _ _ _ 0)|]. cbv beta.
  match goal with |- rtc _ (?x, _) _ => assert (Ex : x = <[fd := o]> t) end; [|by rewrite Ex].
  apply map_eq. intros x. destruct (decide (x = p1)) as [->|Hx1].
  { rewrite lookup_delete_eq, lookup_insert_ne by done. by rewrite E1. }
  rewrite lookup_delete_ne by congruence. destruct (decide (x = p0)) as [->|Hx0].
  { rewrite lookup_delete_eq, lookup_insert_ne by done. by rewrite E0. }
  rewrite lookup_delete_ne by congruence. destruct (decide (x = fd)) as [->|Hx]; [by rewrite !lookup_insert_eq|].
  rewrite !lookup_insert_ne, lookup_delete_ne by congruence. unfold tp. by rewrite !lookup_insert_ne by congruence.
Qed.

Lemma pipe_start l r q : (forall a b, a = p0 -> b = p1 -> rtc fd_step (tp,
    fork1 (then_ (Close 1) (then_ (Dup b) (then_ (Close a) (then_ (Close b) (runcmd l)))))
      (fork1 (then_ (Close 0) (then_ (Dup a) (then_ (Close a) (then_ (Close b) (runcmd r)))))
         (then_ (Close a) (then_ (Close b) (then_ Wait (then_ Wait Exit)))))) q) -> rtc fd_step (t, runcmd (PIPE l r)) q.
Proof using Hp0 Hp1. intros Hq. cbn [runcmd]. eapply rtc_l; [by apply fd_pipe|]. by apply Hq. Qed.

Lemma pipe_left l r : rtc fd_step (t, runcmd (PIPE l r)) (<[1 := wr]> t, runcmd l).
Proof using H0 H1 Hp0 Hp1.
  destruct ends_new as (E0 & E1 & Hd & N0 & N1 & M0 & M1). apply pipe_start. intros a b -> ->. eapply rtc_l; [apply fd_child|].
  apply close_dup; [unfold tp; by rewrite lookup_insert_eq|congruence|congruence|congruence| |lia].
  apply lowest_1; [|apply lookup_delete_eq]. rewrite lookup_delete_ne by done. unfold tp. by rewrite !lookup_insert_ne.
Qed.

Lemma pipe_right l r : rtc fd_step (t, runcmd (PIPE l r)) (<[0 := rd]> t, runcmd r).
Proof using H0 H1 Hp0 Hp1.
  destruct ends_new as (E0 & E1 & Hd & N0 & N1 & M0 & M1). apply pipe_start. intros a b -> ->. eapply rtc_l; [by apply (fd_parent _ _ _ 1)|].
  eapply rtc_l; [apply fd_child|].
  apply close_dup; [unfold tp; by rewrite lookup_insert_ne, lookup_insert_eq by congruence|congruence|congruence|congruence| |lia].
  apply lowest_0, lookup_delete_eq.
Qed.

Lemma pipe_parent l r : rtc fd_step (t, runcmd (PIPE l r)) (t, then_ Wait (then_ Wait Exit)).
Proof using H0 H1 Hp0 Hp1.
  destruct ends_new as (E0 & E1 & Hd & _). apply pipe_start. intros a b -> ->. eapply rtc_l; [by apply (fd_parent _ _ _ 1)|].
  eapply rtc_l; [by apply (fd_parent _ _ _ 1)|]. eapply rtc_l; [apply (fd_close _ _ _ 0)|]. eapply rtc_l; [apply (fd_close _ _ _ 0)|].
  cbv beta. unfold tp. rewrite delete_insert_ne by done. by rewrite (delete_insert_id t p0 rd E0), (delete_insert_id t p1 wr E1).
Qed.
End wiring.

(** *** The descriptors of the shell itself *)

Lemma fdalloc_least n : forall fd t x, fd <= x < fd + Z.of_nat n -> fdalloc n fd t = -1 \/ x < fdalloc n fd t -> 0 <= fd -> is_Some (t !! x).
Proof using Type.
  induction n as [|n IH]; intros fd t x Hx H Hfd; [lia|]. cbn [fdalloc] in H. destruct (t !! fd) as [o|] eqn:E; [|lia].
  destruct (decide (x = fd)) as [->|Hne]; [by exists o|]. apply (IH (fd + 1)); [lia|done|lia].
Qed.

Lemma lowest_below t x : 0 <= x < 16 -> lowest t = -1 \/ x < lowest t -> is_Some (t !! x).
Proof using Type. intros Hx H. by apply (fdalloc_least NOFILE 0); [unfold NOFILE; lia|..]. Qed.

Definition extends (t t' : gmap Z obj) : Prop := forall fd, is_Some (t !! fd) -> t' !! fd = t !! fd.

Lemma extends_open t o : lowest t <> -1 -> extends t (<[lowest t := o]> t).
Proof using Type. intros H fd [o' Ho]. rewrite lookup_insert_ne; [done|]. intros E. rewrite <- E, (proj1 (lowest_free t H)) in Ho. done. Qed.

(** The loop that opens the console ends with descriptors 0, 1 and 2 in use. *)
Lemma open_console_run (o : obj) k n : forall t, (forall x, 0 <= x < 4 - Z.of_nat n -> is_Some (t !! x)) -> (n <= 4)%nat -> (0 < n)%nat ->
  exists t', rtc fd_step (t, open_console n k) (t', k) /\ (forall fd, 0 <= fd < 3 -> is_Some (t' !! fd)) /\ extends t t'.
Proof using Type.
  induction n as [|n IH]; intros t Ht Hn Hpos; [lia|]. cbn [open_console].
  destruct (decide (lowest t = -1)) as [E|E].
  { exists t. split; [by eapply rtc_l; [by apply fd_full|]|]. split; [|done]. intros fd Hfd. apply lowest_below; [lia|by left]. }
  destruct (lowest_free t E) as [Hf H0]. pose proof (extends_open t o E) as Hx.
  set (t1 := <[lowest t := o]> t) in *. destruct (Z.geb_spec (lowest t) 3) as [H3|H3].
  - exists t. split; [|split; [intros fd Hfd; apply lowest_below; [lia|right; lia]|done]].
    eapply rtc_l; [by apply (fd_open _ _ _ _ o)|]. cbv beta. rewrite (proj2 (Z.geb_le _ _) H0), (proj2 (Z.geb_le _ _) H3).
    eapply rtc_l; [apply (fd_close _ _ _ 0)|]. by rewrite delete_insert_id.
  - assert (Hl : 4 - Z.of_nat (S n) <= lowest t).
    { destruct (Z.lt_ge_cases (lowest t) (4 - Z.of_nat (S n))) as [Hlt|]; [|done]. destruct (Ht (lowest t)) as [o' Ho]; [lia|congruence]. }
    destruct (IH t1) as (t' & Hr & H' & Hx'); [|lia|lia|].
    { intros x Hx0. destruct (decide (x = lowest t)) as [->|Hne]; [exists o; apply lookup_insert_eq|].
      unfold t1. rewrite lookup_insert_ne by done. destruct (Z.lt_ge_cases x (lowest t)); [apply lowest_below; [lia|by right]|]. apply Ht. lia. }
    exists t'. split; [|split; [done|]].
    + eapply rtc_l; [by apply (fd_open _ _ _ _ o)|]. cbv beta. rewrite (proj2 (Z.geb_le _ _) H0).
      replace (lowest t >=? 3) with false by (symmetry; rewrite Z.geb_leb; apply Z.leb_gt; lia). exact Hr.
    + intros fd Hs. rewrite Hx'; [by apply Hx|]. rewrite (Hx fd Hs). done.
Qed.
End fds.

(** ** The lines the shell reads *)

(** A line as it is typed: text and the end of the line, short enough for [buf]. *)
Definition typed_line (l : list Z) : Prop :=
  exists body, l = body ++ [NEWLINE] /\ (length body < NBUF - 1)%nat /\ Forall (fun c => c <> NEWLINE /\ c <> CR /\ c <> 0) body.

(** The shell's part of running lines: each has its prompt. *)
Definition run_lines (ls : list (list Z)) : prog :=
  foldr (fun l k => then_ (Printf 2 "$ " []) (command l k)) (then_ (Printf 2 "$ " []) Exit) ls.

Lemma gets_line body rest : Forall (fun c => c <> NEWLINE /\ c <> CR /\ c <> 0) body -> forall n, (length body < n)%nat ->
  gets n (body ++ NEWLINE :: rest) = (body ++ [NEWLINE], rest).
Proof.
  induction 1 as [|c body [Hn [Hc _]] _ IH]; intros n Hlen; (destruct n as [|n]; [cbn in Hlen; lia|]); cbn [gets app length] in *; [done|].
  rewrite (proj2 (Z.eqb_neq _ _) Hn), (proj2 (Z.eqb_neq _ _) Hc). cbn [orb]. by rewrite IH by lia.
Qed.

Lemma cstring_line body : Forall (fun c => c <> NEWLINE /\ c <> CR /\ c <> 0) body -> cstring (body ++ [NEWLINE]) = body ++ [NEWLINE].
Proof. induction 1 as [|c body (_ & _ & Hc) _ IH]; [done|]. cbn [app cstring]. by rewrite (proj2 (Z.eqb_neq _ _) Hc), IH. Qed.

Lemma getcmd_line l rest : typed_line l -> getcmd (l ++ rest) = Some (l, rest).
Proof.
  intros (body & -> & Hlen & Hb). unfold getcmd. rewrite <- app_assoc. cbn [app]. rewrite gets_line, cstring_line by done.
  by destruct body.
Qed.

Lemma main_loop_lines ls : Forall typed_line ls -> forall n, (length ls <= n)%nat -> main_loop n (concat ls) = run_lines ls.
Proof.
  induction 1 as [|l ls Hl _ IH]; intros n Hn; [by destruct n|]. destruct n as [|n]; [cbn in Hn; lia|].
  cbn [main_loop concat run_lines foldr]. rewrite getcmd_line by done. rewrite IH by (cbn in Hn; lia). done.
Qed.

Lemma lines_length ls : Forall typed_line ls -> (length ls <= length (concat ls))%nat.
Proof.
  induction 1 as [|l ls (body & -> & _) _ IH]; [done|]. cbn [concat]. rewrite !length_app. cbn [length]. lia.
Qed.

(** ** Theorems *)

(** The shell runs the lines it is given, each once and in order.  Whatever
    descriptors it starts with, it keeps them and sees to it that 0, 1 and 2 are
    open; then it prompts for, reads and runs the lines that were typed - a [cd]
    itself, anything else in a child that it waits for - and exits at the end of
    the file. *)
Theorem shell_runs_lines {obj : Type} (rd wr console : obj) (t : gmap Z obj) (ls : list (list Z)) : Forall typed_line ls ->
  exists t', rtc (fd_step rd wr) (t, main (concat ls)) (t', run_lines ls) /\
    (forall fd, 0 <= fd < 3 -> is_Some (t' !! fd)) /\ (forall fd, is_Some (t !! fd) -> t' !! fd = t !! fd).
Proof.
  intros Hls. unfold main. rewrite main_loop_lines by (done || by apply lines_length).
  apply (open_console_run rd wr console (run_lines ls) 4); [|lia|lia]. intros x Hx. lia.
Qed.

Lemma shell_runs_lines_witness : let ls := [chars "cd /" ++ [NEWLINE]; chars "ls" ++ [NEWLINE]] in
  exists t', rtc (fd_step 1%nat 2%nat) (∅, main (concat ls)) (t', run_lines ls) /\
    (forall fd, 0 <= fd < 3 -> is_Some (t' !! fd)) /\ (forall fd, is_Some ((∅ : gmap Z nat) !! fd) -> t' !! fd = (∅ : gmap Z nat) !! fd).
Proof.
  intros ls. apply (shell_runs_lines 1%nat 2%nat 3%nat ∅ ls).
  assert (H : forall body, (length body < NBUF - 1)%nat -> forallb (fun c => negb ((c =? NEWLINE) || (c =? CR) || (c =? 0))) body = true -> typed_line (body ++ [NEWLINE])).
  { intros body Hl Hb. exists body. split; [reflexivity|]. split; [exact Hl|]. apply Forall_forall. intros c Hc.
    rewrite forallb_forall in Hb. specialize (Hb c (proj1 (list_elem_of_In _ _) Hc)). lia. }
  apply Forall_cons. split; [apply H; [vm_compute; lia|reflexivity]|].
  apply Forall_cons. split; [apply H; [vm_compute; lia|reflexivity]|apply Forall_nil; exact I].
Defined.

(** C11: Parsing undoes printing.  Every command line of the grammar (pipelines,
    lists, background commands, blocks and redirections in any nesting) parses
    to the command it stands for, with the words it was printed with. *)
Theorem parse_print (l : sline) : line_wf l ->
  exists c, parsecmd (print_line l) = Ok c [] /\ cmd_map text c = mean_line l.
Proof.
  intros Hwf. destruct (proj1 all_print l Hwf (enough (print_line l)) []) as (c & Ec & Hc); [done|rewrite (right_id_L [] (++)); unfold enough; lia|].
  rewrite (right_id_L [] (++)) in Ec. exists c. split; [|exact Hc]. unfold parsecmd. rewrite Ec. reflexivity.
Qed.

Lemma parse_print_witness : let l := SSeq (SBar (SSimple [] [(chars "ls", [])]) (SOne (SSimple [] [(chars "wc", [SRedir Out (chars "f")])]))) 1
    (SEnd (SOne (SBlock (SEnd (SOne (SSimple [] [(chars "a", [])])) 0) [])) 0) in
  exists c, parsecmd (print_line l) = Ok c [] /\ cmd_map text c = mean_line l.
Proof.
  intros l. apply (parse_print l). assert (Hw : forall w, w <> [] -> forallb word_char w = true -> is_word w).
  { intros w Hne Hw. split; [exact Hne|]. apply Forall_forall. intros c Hc. rewrite forallb_forall in Hw. apply Hw. by apply list_elem_of_In. }
  cbn. split_and!; try (apply Forall_nil; exact I); unfold MAXARGS; try lia;
    repeat (apply Forall_cons; split; [|apply Forall_nil; exact I]); cbn; repeat split; try (apply Forall_nil; exact I);
    try (apply Hw; [discriminate|reflexivity]).
  apply Forall_cons. split; [apply Hw; [discriminate|reflexivity]|apply Forall_nil; exact I].
Defined.

(** C32: The recursive descent parser terminates on every line, with a command
    or with one of its panics: calls and rounds of loops nest no deeper than the fuel
    [parsecmd] gives them, which is linear in the length of the line. *)
Theorem parser_terminates (s : list Z) : parsecmd s <> Stuck.
Proof.
  unfold parsecmd. pose proof (proj1 (parser_returns (enough s) s)) as Hr. specialize (Hr ltac:(unfold enough; lia)).
  destruct (parseline (enough s) s) as [c s'|msg|]; cbn in *; [|done|done]. by case_bool_decide.
Qed.

(** [nulterminate] makes strings of the words.  It writes a NUL at the end of
    each word of the command into the line itself; afterwards each word, read
    from its start, is the text the parser saw, since no such end lies inside
    another word. *)
Theorem nulterminate_strings (s r : list Z) (c : cmd word) (w : word) :
  0 ∉ s -> parsecmd s = Ok c r -> w ∈ words c ->
  cstring (drop (length s - length (w_q w)) (nulterminate (length s) c s)) = text w.
Proof.
  intros Hz Hp Hw. rewrite nulterminate_words. apply terminated_word; [done| |done]. unfold parsecmd in Hp.
  pose proof (proj1 (parser_sound (enough s) s s (reflexivity _))) as Hs.
  destruct (parseline (enough s) s) as [c' s'|msg|]; cbn in *; [|done|done]. case_bool_decide; [|done]. injection Hp as <- _. apply Hs.
Qed.

Lemma nulterminate_strings_witness : let s := chars "ls|wc>f" in exists c, parsecmd s = Ok c [] /\
  cstring (nulterminate 7 c s) = chars "ls".
Proof.
  cbn zeta. destruct (parsecmd (chars "ls|wc>f")) as [c r|msg|] eqn:E; [|vm_compute in E; discriminate..].
  assert (Er : r = []) by (vm_compute in E; injection E as _ <-; reflexivity). subst r. exists c. split; [reflexivity|].
  set (w := Word (chars "ls|wc>f") (chars "|wc>f")). apply (nulterminate_strings (chars "ls|wc>f") [] c w).
  - refine (bool_decide_unpack _ _). vm_compute. exact I.
  - exact E.
  - vm_compute in E. injection E as <-. left.
Defined.

(** In a pipeline the shell connects its two commands and nothing else.  If
    descriptors 0 and 1 are open, the left command runs with its output, and
    the right one with its input, replaced by the end of the pipe and all other
    descriptors as they were; the shell that waits for them keeps no end of the
    pipe open. *)
Theorem pipeline_descriptors {obj : Type} (rd wr : obj) (t : gmap Z obj) (l r : cmd (list Z)) :
  is_Some (t !! 0) -> is_Some (t !! 1) -> lowest t <> -1 -> lowest (<[lowest t := rd]> t) <> -1 ->
  let runs := fun t' p => rtc (fd_step rd wr) (t, runcmd (PIPE l r)) (t', p) in
  runs (<[1 := wr]> t) (runcmd l) /\ runs (<[0 := rd]> t) (runcmd r) /\ runs t (then_ Wait (then_ Wait Exit)).
Proof. intros H0 H1 Hp0 Hp1. split_and!; [by apply pipe_left|by apply pipe_right|by apply pipe_parent]. Qed.

Lemma pipeline_descriptors_witness : let t : gmap Z nat := <[0 := 7%nat]> (<[1 := 7%nat]> ∅) in
  rtc (fd_step 8%nat 9%nat) (t, runcmd (PIPE (EXEC []) (EXEC []))) (<[1 := 9%nat]> t, Exit).
Proof.
  intros t. apply (pipeline_descriptors 8%nat 9%nat t (EXEC []) (EXEC [])).
  - exists 7%nat. reflexivity.
  - exists 7%nat. reflexivity.
  - vm_compute. discriminate.
  - vm_compute. discriminate.
Defined.
