(* ===== verification/Utils.v ===== *)
(** * User programs: printf, wc, cat and find

    src/printf.c, src/wc.c, src/cat.c and src/find.c.  A program is a function
    from what its system calls return to what it prints; a print is a pair of a
    file descriptor and the characters written to it. *)

From S2P Require Import Prelude Layout CString State Fs Console.

(** ** printf *)

(** The digits are upper case here. *)
Definition udigit (d : Z) : Z := if d <? 10 then 48 + d else 55 + d.
Fixpoint udigits_loop (fuel : nat) (x base : Z) : list Z :=
  match fuel with
  | O => []
  | S fuel' => udigit (x mod base) :: (if x / base =? 0 then [] else udigits_loop fuel' (x / base) base)
  end.
Definition uprintint (xx base : Z) (sgn : bool) : list Z :=
  let neg := sgn && (xx <? 0) in
  let x := if neg then u32 (- xx) else u32 xx in
  rev (udigits_loop 32 x base ++ (if neg then [45] else [])).

(** The loop over the format, [state] being whether a ['%'] has been read;
    [None] when an argument is missing or of the wrong type. *)
Fixpoint printf_loop (fmt : list Z) (state : bool) (ap : list arg) : option (list Z) :=
  match fmt with
  | [] => Some []
  | c :: fmt' =>
    let c := Z.land c 0xff in
    if negb state then
      if c =? 37 then printf_loop fmt' true ap else cons c <$> printf_loop fmt' false ap
    else if c =? 100 then
      a ← head ap; v ← as_int a; app (uprintint v 10 true) <$> printf_loop fmt' false (tail ap)
    else if (c =? 120) || (c =? 112) then
      a ← head ap; v ← as_int a; app (uprintint v 16 false) <$> printf_loop fmt' false (tail ap)
    else if c =? 115 then
      a ← head ap; s ← as_str a; app s <$> printf_loop fmt' false (tail ap)
    else if c =? 99 then
      a ← head ap; v ← as_int a; cons (Z.land v 0xff) <$> printf_loop fmt' false (tail ap)
    else if c =? 37 then cons c <$> printf_loop fmt' false ap
    else (fun l => 37 :: c :: l) <$> printf_loop fmt' false ap
  end.
Definition print := (Z * list Z)%type.
Definition printf (fd : Z) (fmt : list Z) (ap : list arg) : option print := pair fd <$> printf_loop fmt false ap.

(** ** wc *)

Definition wspace (c : Z) : bool :=
  match strchr [32; 13; 9; 10; 11; 0] c with Some (Some _) => true | _ => false end.

Record wcount := WCount { wc_l : Z; wc_w : Z; wc_c : Z; wc_inword : bool }.

Definition wc_char (k : wcount) (ch : Z) : wcount :=
  let c := i32 (wc_c k + 1) in
  let l := if ch =? 10 then i32 (wc_l k + 1) else wc_l k in
  if wspace ch then WCount l (wc_w k) c false
  else if negb (wc_inword k) then WCount l (i32 (wc_w k + 1)) c true
  else WCount l (wc_w k) c (wc_inword k).

(** The calls of [read] return the pieces [reads] and then [n]. *)
Definition wc_loop (reads : list (list Z)) : wcount :=
  foldl (fun k buf => foldl wc_char k buf) (WCount 0 0 0 false) reads.
Definition wc (reads : list (list Z)) (n : Z) (name : list Z) : option print :=
  if n <? 0 then printf 1 [119; 99; 58; 32; 114; 101; 97; 100; 32; 101; 114; 114; 111; 114; 10] []
  else
    let k := wc_loop reads in
    printf 1 [37; 100; 32; 37; 100; 32; 37; 100; 32; 37; 115; 10]
      [AInt (wc_l k); AInt (wc_w k); AInt (wc_c k); AStr (Some name)].

(** ** cat *)

(** [written] are the results of the calls of [write], in order. *)
Fixpoint cat (reads : list (list Z)) (written : list Z) (n : Z) : list print :=
  match reads, written with
  | buf :: reads', w :: written' =>
    (1, take (Z.to_nat w) buf) ::
    (if negb (w =? Z.of_nat (length buf))
     then [(1, [99; 97; 116; 58; 32; 119; 114; 105; 116; 101; 32; 101; 114; 114; 111; 114; 10])]
     else cat reads' written' n)
  | _, _ =>
    if n <? 0 then [(1, [99; 97; 116; 58; 32; 114; 101; 97; 100; 32; 101; 114; 114; 111; 114; 10])] else []
  end.

(** ** find *)

(** What the system calls of find return for a path: the entries that reading
    the open file brings, 16 bytes each ([None] if it cannot be opened), whether
    [fstat] succeeds, and type and inode number of [stat]. *)
Record world := World {
  w_read : list Z -> option (list (list Z));
  w_fstat : list Z -> bool;
  w_stat : list Z -> option (Z * Z);
}.

(** What has been printed, and how it goes on: [Bad] is undefined behaviour. *)
Inductive flow := Next | Exited | Bad.
Definition act := (list print * flow)%type.
Definition andthen (a k : act) : act :=
  match snd a with Next => (fst a ++ fst k, snd k) | _ => a end.
Definition skip : act := ([], Next).
Definition say (p : option print) : act := match p with Some p => ([p], Next) | None => ([], Bad) end.

(** [strcmp(s, t) == 0] of an array [s] with a string [t]. *)
Definition same (s t : list Z) : option bool := (fun r => r =? 0) <$> strcmp s (t ++ [0]).
Definition test (b : option bool) (yes no : act) : act :=
  match b with Some true => yes | Some false => no | None => ([], Bad) end.

Definition line_fmt : list Z := [37; 115; 10].
Definition inum_fmt : list Z := [37; 100; 32; 37; 115; 10].

(** The strings f, d, dot and dotdot. *)
Definition str_f : list Z := [102].
Definition str_d : list Z := [100].
Definition str_dot : list Z := [46].
Definition str_dotdot : list Z := [46; 46].

Section find.
Context (w : world) (name : list Z) (printi : Z).

(** [strcmp(de.name,".")!=0 && strcmp(de.name,"..")!=0] *)
Definition unless_dots (n : list Z) (k : act) : act := test (same n str_dot) skip (test (same n str_dotdot) skip k).

(** The body of the loop once [stat] has succeeded; [rec path ino] is the
    recursive call, with the same [name], [printi] and [type]. *)
Definition visit (rec : list Z -> list Z -> act) (type ino buf n : list Z) (st_type st_ino : Z) : act :=
  let show := say (printf 1 line_fmt [AStr (Some buf)]) in
  let matches k no := test (same n name) k no in
  if bool_decide (type = str_f) then
    if st_type =? 2 then unless_dots n (matches show skip)
    else if st_type =? 1 then unless_dots n (rec buf [])
    else skip
  else if bool_decide (type = str_d) then
    if st_type =? 1 then unless_dots n (andthen (matches show skip) (rec buf [])) else skip
  else
    match ino with
    | sign :: rest =>
      unless_dots n
        (if sign =? 43 then
           match atoi (rest ++ [0]) with
           | None => ([], Bad)
           | Some number =>
             if st_type =? 2 then if st_ino >? u32 number then matches show skip else skip
             else if st_type =? 1 then rec buf ino else skip
           end
         else
           let below := sign =? 45 in
           match atoi ((if below then rest else ino) ++ [0]) with
           | None => ([], Bad)
           | Some number =>
             let next := if st_type =? 1 then rec buf ino else skip in
             if (if below then st_ino <? u32 number else st_ino =? u32 number) then matches show next else next
           end)
    | [] =>
      if bool_decide (type = []) then
        unless_dots n
          (andthen
             (matches (if printi =? 1 then say (printf 1 inum_fmt [AInt st_ino; AStr (Some buf)]) else show) skip)
             (if st_type =? 1 then rec buf [] else skip))
      else skip
    end.

(** The [while] loop over the entries. *)
Fixpoint find_loop (rec : list Z -> list Z -> act) (type ino path : list Z) (des : list (list Z)) : act :=
  match des with
  | [] => skip
  | de :: des' =>
    if de_inum de =? 0 then find_loop rec type ino path des'
    else
      let buf := path ++ [slash] ++ cprefix (Z.to_nat DIRSIZ) (de_name de) in
      match w_stat w buf with
      | None =>
        andthen (say (printf 1 [102; 105; 110; 100; 58; 32; 99; 97; 110; 110; 111; 116; 32; 115; 116; 97; 116; 32; 37; 115; 10] [AStr (Some buf)]))
          (find_loop rec type ino path des')
      | Some (st_type, st_ino) =>
        andthen (visit rec type ino buf (de_name de) st_type st_ino) (find_loop rec type ino path des')
      end
  end.

(** The depth of the recursion is at most [fuel]. *)
Fixpoint findname (fuel : nat) (type path ino : list Z) : act :=
  match fuel with
  | O => ([], Bad)
  | S fuel' =>
    match w_read w path with
    | None => say (printf 2 [102; 105; 110; 100; 58; 32; 99; 97; 110; 110; 111; 116; 32; 111; 112; 101; 110; 32; 37; 115; 10] [AStr (Some path)])
    | Some des =>
      if negb (w_fstat w path) then
        say (printf 2 [102; 105; 110; 100; 58; 32; 99; 97; 110; 110; 111; 116; 32; 115; 116; 97; 116; 32; 37; 115; 10] [AStr (Some path)])
      else if Z.of_nat (length path) + 1 + DIRSIZ + 1 >? 512 then
        say (printf 1 [102; 105; 110; 100; 58; 32; 112; 97; 116; 104; 32; 116; 111; 111; 32; 108; 111; 110; 103; 10] [])
      else andthen (find_loop (findname fuel' type) type ino path des) ([], Exited)
    end
  end.
End find.

(** [main] of find, for the strings of [argv]. *)
Definition flag_name : list Z := [45; 110; 97; 109; 101].
Definition flag_printi : list Z := [45; 112; 114; 105; 110; 116; 105].
Definition flag_type : list Z := [45; 116; 121; 112; 101].
Definition flag_inum : list Z := [45; 105; 110; 117; 109].
Definition find_main (w : world) (fuel : nat) (argv : list (list Z)) : act :=
  let exit := ([], Exited) in
  match argv with
  | [_] =>
    ([(2, [112; 108; 101; 97; 115; 101; 32; 103; 105; 118; 101; 32; 116; 104; 101; 32; 112; 97; 116; 104; 32; 116; 111; 32; 102; 105; 110; 100; 32; 116; 104; 101; 32; 102; 105; 108; 101; 10])], Exited)
  | [_; _] =>
    ([(2, [112; 108; 101; 97; 115; 101; 32; 103; 105; 118; 101; 32; 116; 104; 101; 32; 102; 105; 108; 101; 32; 110; 97; 109; 101; 32; 10])], Exited)
  | [_; _; _] =>
    ([(1, [112; 108; 101; 97; 115; 101; 32; 103; 105; 118; 101; 32; 116; 104; 101; 32; 102; 105; 108; 101; 32; 110; 97; 109; 101; 32; 97; 102; 116; 101; 114; 32; 45; 110; 97; 109; 101; 10])], Exited)
  | [_; path; f; name] =>
    if bool_decide (f = flag_name) then andthen (findname w name 0 fuel [] path []) exit else exit
  | [_; path; f; name; g] =>
    if bool_decide (f = flag_name) && bool_decide (g = flag_printi)
    then andthen (findname w name 1 fuel [] path []) exit else exit
  | [_; path; f; name; g; x] =>
    if bool_decide (f = flag_name) && bool_decide (g = flag_type) then andthen (findname w name 0 fuel x path []) exit
    else if bool_decide (f = flag_name) && bool_decide (g = flag_inum)
    then andthen (findname w name 0 fuel [] path x) exit else exit
  | _ => exit
  end.

(** ** Counting *)

(** The words of a text, [cur] being the beginning of one. *)
Fixpoint words (cur t : list Z) : list (list Z) :=
  match t with
  | [] => if bool_decide (cur = []) then [] else [cur]
  | c :: t' =>
    if wspace c then (if bool_decide (cur = []) then [] else [cur]) ++ words [] t' else words (cur ++ [c]) t'
  end.

Lemma words_concat t : forall cur, concat (words cur t) = cur ++ List.filter (fun c => negb (wspace c)) t.
Proof.
  induction t as [|c t IH]; intros cur; cbn [words List.filter].
  - case_bool_decide as E; cbn; [by rewrite E|]. done.
  - destruct (wspace c); cbn [negb].
    + rewrite concat_app, IH. case_bool_decide as E; cbn; [by rewrite E|by rewrite app_nil_r].
    + rewrite IH, <- app_assoc. done.
Qed.

Lemma words_words t : forall cur, Forall (fun c => wspace c = false) cur ->
  Forall (fun w => w <> [] /\ Forall (fun c => wspace c = false) w) (words cur t).
Proof.
  induction t as [|c t IH]; intros cur Hc; cbn [words].
  - case_bool_decide; [constructor|]. by repeat constructor.
  - destruct (wspace c) eqn:E.
    + apply Forall_app. split; [|by apply IH]. case_bool_decide; [constructor|]. by repeat constructor.
    + apply IH, Forall_app. split; [done|]. by repeat constructor.
Qed.

Definition newlines (t : list Z) : Z := Z.of_nat (length (List.filter (fun c => c =? 10) t)).

(** The counters, as long as they do not overflow. *)
Lemma wc_text t : forall k cur, wc_inword k = negb (bool_decide (cur = [])) ->
  0 <= wc_l k -> 0 <= wc_w k -> 0 <= wc_c k -> wc_l k <= wc_c k -> wc_w k <= wc_c k -> wc_c k + Z.of_nat (length t) < 2 ^ 31 ->
  let k' := foldl wc_char k t in
  wc_l k' = wc_l k + newlines t /\ wc_c k' = wc_c k + Z.of_nat (length t) /\
  wc_w k' = wc_w k + Z.of_nat (length (words cur t)) - (if bool_decide (cur = []) then 0 else 1).
Proof.
  induction t as [|ch t IH]; intros k cur Hin Hl Hw Hc Hlc Hwc Hn; cbn [foldl words length].
  - unfold newlines. cbn. case_bool_decide; cbn; lia.
  - set (k1 := wc_char k ch). cbn [length] in Hn.
    assert (Hi : forall x, 0 <= x <= wc_c k -> i32 (x + 1) = x + 1) by (intros x Hx; unfold i32; word).
    assert (Ec : wc_c k1 = wc_c k + 1) by (unfold k1, wc_char; rewrite (Hi (wc_c k)) by lia; by destruct (wspace ch), (wc_inword k)).
    assert (El : wc_l k1 = wc_l k + (if ch =? 10 then 1 else 0)) by (unfold k1, wc_char; rewrite (Hi (wc_l k)) by lia; destruct (wspace ch), (wc_inword k), (ch =? 10); cbn; lia).
    assert (En : newlines (ch :: t) = (if ch =? 10 then 1 else 0) + newlines t) by (unfold newlines; cbn; destruct (ch =? 10); cbn; lia).
    assert (Ew : wc_w k1 = wc_w k + (if wspace ch then 0 else if wc_inword k then 0 else 1) /\ wc_inword k1 = negb (wspace ch)).
    { unfold k1, wc_char. rewrite (Hi (wc_w k)) by lia. destruct (wspace ch), (wc_inword k); cbn; split; lia || done. }
    destruct Ew as [Ew Ei]. rewrite En.
    destruct (IH k1 (if wspace ch then [] else cur ++ [ch])) as (I1 & I2 & I3).
    + rewrite Ei. destruct (wspace ch); [done|]. rewrite bool_decide_eq_false_2; [done|]. by destruct cur.
    + rewrite El. destruct (_ =? _); lia. + rewrite Ew. destruct (wspace ch), (wc_inword k); lia. + lia. + rewrite El, Ec. destruct (_ =? _); lia.
    + rewrite Ew, Ec. destruct (wspace ch), (wc_inword k); lia. + lia.
    + split_and!; [rewrite I1, El; lia|rewrite I2, Ec; lia|]. rewrite I3, Ew, Hin. destruct (wspace ch); cbn [negb].
      * rewrite length_app. destruct (bool_decide (cur = [])); cbn; lia.
      * rewrite (bool_decide_eq_false_2 (cur ++ [ch] = [])) by (by destruct cur). destruct (bool_decide (cur = [])); cbn; lia.
Qed.

Lemma foldl_concat reads k : foldl (fun k buf => foldl wc_char k buf) k reads = foldl wc_char k (concat reads).
Proof. revert k. induction reads as [|r reads IH]; intros k; cbn; [done|]. by rewrite IH, foldl_app. Qed.

(** Wc counts the lines, words and characters of its input, however [read]
    cuts it into pieces: it prints the number of newlines, of words (the maximal
    runs of characters that are not white space) and of characters of all the
    pieces together, for an input of less than 2^31 characters. *)
Theorem wc_counts (reads : list (list Z)) (n : Z) (name : list Z) :
  0 <= n -> Z.of_nat (length (concat reads)) < 2 ^ 31 ->
  let t := concat reads in
  wc reads n name = printf 1 [37; 100; 32; 37; 100; 32; 37; 100; 32; 37; 115; 10]
    [AInt (newlines t); AInt (Z.of_nat (length (words [] t))); AInt (Z.of_nat (length t)); AStr (Some name)] /\
  concat (words [] t) = List.filter (fun c => negb (wspace c)) t /\
  Forall (fun w => w <> [] /\ Forall (fun c => wspace c = false) w) (words [] t).
Proof.
  intros Hn Hlen t. split; [|split; [apply words_concat|by apply words_words]].
  unfold wc. assert ((n <? 0) = false) as -> by lia. unfold wc_loop. rewrite foldl_concat. fold t.
  destruct (wc_text t (WCount 0 0 0 false) []) as (E1 & E2 & E3); [done|cbn [wc_l wc_w wc_c]; subst t; lia..|].
  rewrite E1, E2, E3. cbn [wc_l wc_w wc_c]. rewrite bool_decide_eq_true_2 by done. by rewrite !Z.add_0_l, Z.sub_0_r.
Qed.

(** A word in two pieces: [printf] prints "1 2 6 x". *)
Lemma wc_counts_witness : wc [[97; 98]; [99; 32; 100; 10]] 0 [120] = Some (1, [49; 32; 50; 32; 54; 32; 120; 10]).
Proof. destruct (wc_counts [[97; 98]; [99; 32; 100; 10]] 0 [120]) as [E _]; [lia|done|]. rewrite E. reflexivity. Defined.

(** ** What find leaves out *)

(** Once it reads entries, [findname] does not return. *)
Lemma andthen_stuck a k : snd a <> Next -> andthen a k = a.
Proof. unfold andthen. destruct a as [o [| |]]; cbn; done. Qed.

Lemma andthen_flow a k : snd k <> Next -> snd (andthen a k) <> Next.
Proof. unfold andthen. destruct a as [o [| |]]; cbn; done. Qed.

Section stops.
Context (w : world) (name : list Z) (printi : Z).

Lemma findname_exits fuel type path ino des : w_read w path = Some des -> w_fstat w path = true ->
  Z.of_nat (length path) + 1 + DIRSIZ + 1 <= 512 -> snd (findname w name printi fuel type path ino) <> Next.
Proof.
  intros Hr Hs Hl. destruct fuel as [|fuel]; cbn [findname]; [done|]. rewrite Hr, Hs. cbn [negb].
  assert ((Z.of_nat (length path) + 1 + DIRSIZ + 1 >? 512) = false) as -> by lia. by apply andthen_flow.
Qed.
End stops.

(** Find stops after the first directory.  When an entry of the directory
    being read is itself a directory that can be opened, the entries after it
    are never looked at, whatever they are: the recursive call ends with
    [exit()].  (The comment on the loop says that it visits all files and
    directories.) *)
Theorem find_stops (w : world) (name : list Z) (printi : Z) (fuel : nat) (path de : list Z) (pre post des : list (list Z)) (st_ino : Z) :
  let buf := path ++ [slash] ++ cprefix (Z.to_nat DIRSIZ) (de_name de) in
  de_inum de <> 0 -> same (de_name de) str_dot = Some false -> same (de_name de) str_dotdot = Some false ->
  w_stat w buf = Some (1, st_ino) -> w_read w buf = Some des -> w_fstat w buf = true ->
  Z.of_nat (length buf) + 1 + DIRSIZ + 1 <= 512 ->
  find_loop w name printi (findname w name printi fuel []) [] [] path (pre ++ de :: post) =
  find_loop w name printi (findname w name printi fuel []) [] [] path (pre ++ [de]).
Proof.
  intros buf Hi Hd Hdd Hst Hr Hf Hl. induction pre as [|e pre IH]; cbn [app find_loop].
  - assert ((de_inum de =? 0) = false) as -> by lia.
    change (path ++ slash :: cprefix (Z.to_nat DIRSIZ) (de_name de)) with buf. rewrite Hst. rewrite !andthen_stuck; [done|..].
    all: unfold visit; rewrite !bool_decide_eq_false_2 by done; rewrite bool_decide_eq_true_2 by done; unfold unless_dots, test; rewrite Hd, Hdd;
      apply andthen_flow; by apply (findname_exits _ _ _ _ _ _ _ des).
  - destruct (de_inum e =? 0); [exact IH|]. by destruct (w_stat w _) as [[]|]; rewrite IH.
Qed.

(** The directory "a" comes before the file "b", which is not found. *)
Definition ex_world : world := World
  (fun p => if bool_decide (p = [47]) then Some [mk_dirent 2 [97]; mk_dirent 3 [98]] else if bool_decide (p = [47; 47; 97]) then Some [] else None)
  (fun _ => true)
  (fun p => if bool_decide (p = [47; 47; 97]) then Some (1, 2) else Some (2, 3)).

Lemma find_stops_witness :
  findname ex_world [98] 0 5 [] [47] [] = ([], Exited) /\
  find_loop ex_world [98] 0 (findname ex_world [98] 0 4 []) [] [] [47] ([] ++ mk_dirent 2 [97] :: [mk_dirent 3 [98]]) =
  find_loop ex_world [98] 0 (findname ex_world [98] 0 4 []) [] [] [47] ([] ++ [mk_dirent 2 [97]]).
Proof.
  split; [reflexivity|]. apply (find_stops ex_world [98] 0 4 [47] (mk_dirent 2 [97]) [] [mk_dirent 3 [98]] [] 2); reflexivity || discriminate.
Defined.
