(* ===== verification/Progs.v ===== *)
(** * User programs: uniq, ls and the small commands

    src/uniq.c, src/ls.c, src/echo.c, src/kill.c, src/ln.c, src/mkdir.c,
    src/rm.c and src/sleep.c, on top of the [printf] of Utils.  A program is a
    function from its arguments and from what its system calls return to what it
    prints and calls. *)

From Stdlib Require Import Ascii String.
From S2P Require Import Prelude Layout CString State Fs Console Utils.
Local Open Scope list_scope.

(** The characters of a literal. *)
Definition str (s : string) : list Z := (fun a => Z.of_N (N_of_ascii a)) <$> list_ascii_of_string s.

(** ** uniq *)

Definition MAX_LINE_LENGTH : Z := 1000.
Definition LINE_BUF : Z := 512.

(** [strncpy] as uniq.c defines it. *)
Definition uniq_strncpy (t : list Z) (n : Z) : list Z := cprefix (Z.to_nat n) t.

(** The options: [argv[1]], and the number that [-w] takes from [argv[2]]. *)
Inductive umode := Plain | Counts | Unique | Width (n : Z).

(** [Curr_linehidden], [Prev_linehidden], [count_dup] and [count_w_0]; a buffer
    is the characters stored in it. *)
Record ust := Ust { u_cur : list Z; u_prev : list Z; u_dup : Z; u_lines : Z }.

(** The string in a buffer, and printing. *)
Definition cstr (l : list Z) : list Z := cprefix (length l) l.
Definition print_line (l : list Z) : option print := printf 1 (str "%s" ++ [10]) [AStr (Some (cstr l))].
Definition print_count (n : Z) (l : list Z) : option print := printf 1 ([9] ++ str "%d %s" ++ [10]) [AInt n; AStr (Some (cstr l))].
Definition print_group (m : umode) (n : Z) (l : list Z) : option (list print) :=
  match m with
  | Counts => p ← print_count n l; Some [p]
  | Unique => if n =? 1 then p ← print_line l; Some [p] else Some []
  | _ => p ← print_line l; Some [p]
  end.

(** The end of a line. *)
Definition uniq_newline (m : umode) (u : ust) : option (list print * ust) :=
  let lines := u_lines u + 1 in
  match m with
  | Width n =>
    if n =? 0 then
      ps ← (if lines =? 1 then p ← print_line (u_cur u); Some [p] else Some []);
      Some (ps, Ust [] (u_prev u) (u_dup u) lines)
    else if negb (bool_decide (uniq_strncpy (cstr (u_cur u)) n = uniq_strncpy (cstr (u_prev u)) n)) then
      p ← print_line (u_cur u);
      Some ([p], Ust [] (cstr (u_cur u)) (u_dup u) lines)
    else Some ([], Ust [] (u_prev u) (u_dup u) lines)
  | _ =>
    if bool_decide (cstr (u_cur u) = cstr (u_prev u)) then Some ([], Ust [] (u_prev u) (i32 (u_dup u + 1)) lines)
    else
      ps ← (if bool_decide (cstr (u_prev u) = []) then Some [] else print_group m (u_dup u) (u_prev u));
      Some (ps, Ust [] (cstr (u_cur u)) 1 lines)
  end.

(** One character; a line that does not fit into its buffer is undefined. *)
Definition uniq_char (m : umode) (u : ust) (ch : Z) : option (list print * ust) :=
  if ch =? 10 then uniq_newline m u
  else if Z.of_nat (length (u_cur u)) <? LINE_BUF - 1 then Some ([], Ust (u_cur u ++ [ch]) (u_prev u) (u_dup u) (u_lines u))
  else None.

Fixpoint uniq_chars (m : umode) (u : ust) (text : list Z) : option (list print * ust) :=
  match text with
  | [] => Some ([], u)
  | ch :: text' =>
    '(ps, u) ← uniq_char m u ch;
    '(ps', u) ← uniq_chars m u text';
    Some (ps ++ ps', u)
  end.

(** What is printed for the bytes that [read] has given: not none, and room for
    a newline and a null after them. *)
Definition uniq (m : umode) (data : list Z) : option (list print) :=
  let n := Z.of_nat (length data) in
  if n =? 0 then None
  else if bool_decide (last data = Some 10) || (n + 1 <? MAX_LINE_LENGTH) then
    let text := if bool_decide (last data = Some 10) then data ++ [0] else data ++ [10] in
    '(ps, u) ← uniq_chars m (Ust [] [] 1 0) text;
    rest ← match m with Width _ => Some [] | _ => print_group m (u_dup u) (u_prev u) end;
    Some (ps ++ rest)
  else None.

(** [main]: the first argument that passes the test is the file.  [opens] says
    whether a path can be opened, [reads] what [read] gives for standard input
    ([None]) or a path; the result is undefined when an argument that is not there
    is used. *)
Definition is_flag (a : list Z) : bool := bool_decide (a = str "-c") || bool_decide (a = str "-u") || bool_decide (a = str "-w").
Definition uniq_mode (argv : list (list Z)) : option umode :=
  a ← argv !! 1%nat;
  if bool_decide (a = str "-w") then n ← argv !! 2%nat; Width <$> atoi (n ++ [0])
  else if bool_decide (a = str "-c") then Some Counts
  else if bool_decide (a = str "-u") then Some Unique
  else Some Plain.
Definition uniq_stdin (argv : list (list Z)) : bool :=
  let argc := Z.of_nat (length argv) in
  match argv !! 1%nat with
  | None => true
  | Some a => (argc =? 2) && is_flag a || (argc =? 3) && bool_decide (a = str "-w")
  end.
Fixpoint uniq_path (rest argv : list (list Z)) : option (list Z) :=
  match rest with
  | [] => None
  | a :: rest' =>
    let argc := Z.of_nat (length argv) in
    if (Z.of_nat (length a) >? 4) || (argc =? 1) || (argc =? 2) && match argv !! 1%nat with Some f => is_flag f | None => false end
    then Some a else uniq_path rest' argv
  end.
Definition uniq_main (opens : list Z -> bool) (reads : option (list Z) -> list Z) (argv : list (list Z)) : option (list print) :=
  path ← uniq_path argv argv;
  if negb (opens path) then p ← printf 1 (str "Error: Cannot open file %s" ++ [10]) [AStr (Some path)]; Some [p]
  else
    m ← uniq_mode argv;
    uniq m (take 999 (reads (if uniq_stdin argv then None else Some path))).

(** *** Groups of lines *)

(** The lines that follow each other and are equal, with their number. *)
Fixpoint groups (cur : list Z) (n : Z) (lines : list (list Z)) : list (Z * list Z) :=
  match lines with
  | [] => [(n, cur)]
  | l :: lines' => if bool_decide (l = cur) then groups cur (n + 1) lines' else (n, cur) :: groups l 1 lines'
  end.

(** What uniq prints for a group. *)
Definition group_text (m : umode) (g : Z * list Z) : list print :=
  match m with
  | Counts => [(1, [9] ++ uprintint (fst g) 10 true ++ [32] ++ snd g ++ [10])]
  | Unique => if fst g =? 1 then [(1, snd g ++ [10])] else []
  | _ => [(1, snd g ++ [10])]
  end.

Definition line_ok (l : list Z) : Prop := l <> [] /\ 0 ∉ l /\ 10 ∉ l /\ Z.of_nat (length l) < LINE_BUF.

Lemma cstr_id l : 0 ∉ l -> cstr l = l.
Proof.
  unfold cstr. induction l as [|a l IH]; intros H; [done|]. cbn. rewrite (proj2 (Z.eqb_neq a 0)) by set_solver. f_equal. apply IH. set_solver.
Qed.

Lemma print_line_eq l : 0 ∉ l -> print_line l = Some (1, l ++ [10]).
Proof. intros H. unfold print_line. rewrite cstr_id by done. done. Qed.

Lemma print_group_eq m n l : match m with Width _ => False | _ => True end -> 0 ∉ l -> print_group m n l = Some (group_text m (n, l)).
Proof.
  intros Hm H. destruct m; cbn [print_group group_text fst snd]; [by rewrite print_line_eq by done| |destruct (n =? 1); [by rewrite print_line_eq by done|done]|done].
  unfold print_count. rewrite cstr_id by done. unfold printf. cbn -[uprintint]. done.
Qed.

Lemma uniq_chars_app m u t1 t2 ps1 u1 : uniq_chars m u t1 = Some (ps1, u1) ->
  uniq_chars m u (t1 ++ t2) = ('(ps2, u2) ← uniq_chars m u1 t2; Some (ps1 ++ ps2, u2)).
Proof.
  revert u ps1. induction t1 as [|ch t1 IH]; intros u ps1 E; cbn [uniq_chars app] in *.
  - injection E as <- <-. by destruct (uniq_chars m u t2) as [[]|].
  - destruct (uniq_char m u ch) as [[ps u']|]; [|done]. cbn [mbind option_bind] in *. destruct (uniq_chars m u' t1) as [[ps' u'']|] eqn:E'; [|done]. cbn in E. injection E as <- <-.
    rewrite (IH _ _ E'). destruct (uniq_chars m u'' t2) as [[ps2 u2]|]; [|done]. cbn. by rewrite app_assoc.
Qed.

(** The characters of a line go into the buffer. *)
Lemma uniq_line m u l : 10 ∉ l -> Z.of_nat (length (u_cur u) + length l) < LINE_BUF ->
  uniq_chars m u l = Some ([], Ust (u_cur u ++ l) (u_prev u) (u_dup u) (u_lines u)).
Proof.
  revert u. induction l as [|ch l IH]; intros u Hn Hl; cbn [uniq_chars].
  - rewrite app_nil_r. by destruct u.
  - cbn [length] in Hl. unfold uniq_char. rewrite (proj2 (Z.eqb_neq ch 10)) by set_solver. rewrite (proj2 (Z.ltb_lt _ _)) by lia. cbn [mbind option_bind].
    rewrite IH; [|set_solver|cbn [u_cur]; rewrite length_app; cbn [length]; lia]. cbn. by rewrite <- app_assoc.
Qed.

Lemma groups_app cur n lines : exists gs k l, groups cur n lines = gs ++ [(k, l)].
Proof.
  revert cur n. induction lines as [|l lines IH]; intros cur n; cbn [groups]; [by exists [], n, cur|]. case_bool_decide; [apply IH|].
  destruct (IH l 1) as (gs & k & l' & ->). by exists ((n, cur) :: gs), k, l'.
Qed.

(** Lines with their newlines: all groups but the last are printed, and the last
    is remembered. *)
Lemma uniq_text m lines : forall u gs k l, match m with Width _ => False | _ => True end -> Forall line_ok lines -> u_cur u = [] -> line_ok (u_prev u) ->
  0 <= u_dup u -> u_dup u + Z.of_nat (length lines) < 2 ^ 31 -> groups (u_prev u) (u_dup u) lines = gs ++ [(k, l)] ->
  exists c, uniq_chars m u (concat ((fun l => l ++ [10]) <$> lines)) = Some (concat (group_text m <$> gs), Ust [] l k c).
Proof.
  induction lines as [|ln lines IH]; intros u gs k l Hm Hok Hc Hp Hd Hmax Hg; cbn [groups fmap list_fmap concat] in *.
  - assert (gs = [] /\ k = u_dup u /\ l = u_prev u) as (-> & -> & ->) by (destruct gs as [|g [|g' gs]]; injection Hg; try done; intros; subst; done).
    exists (u_lines u). cbn. by destruct u as [? ? ? ?]; cbn in Hc; subst.
  - apply Forall_cons in Hok as [(L1 & L2 & L3 & L4) Hok]. destruct Hp as (P1 & P2 & P3 & P4). cbn [length] in Hmax.
    rewrite <- app_assoc. rewrite (uniq_chars_app m u ln _ [] (Ust ln (u_prev u) (u_dup u) (u_lines u))) by (rewrite uniq_line by (rewrite ?Hc; done || lia); by rewrite Hc).
    cbn [app uniq_chars]. unfold uniq_char. rewrite Z.eqb_refl. unfold uniq_newline. cbn [u_cur u_prev u_dup u_lines]. rewrite !cstr_id by done. destruct (bool_decide (ln = u_prev u)) eqn:E.
    + assert (Ed : i32 (u_dup u + 1) = u_dup u + 1) by (change (2 ^ 31) with 2147483648 in Hmax; word). rewrite Ed.
      destruct (IH (Ust [] (u_prev u) (u_dup u + 1) (u_lines u + 1)) gs k l Hm Hok) as (c & Hc'); [done|by split_and!|cbn; lia|cbn; lia|done|]. exists c.
      destruct m; try done; cbn [mbind option_bind]; rewrite Hc'; done.
    + rewrite (bool_decide_false (u_prev u = [])) by done. destruct gs as [|g gs]; [destruct (groups_app ln 1 lines) as (? & ? & ? & Eg); rewrite Eg in Hg; injection Hg; intros; by destruct x|]. injection Hg as <- Hg.
      destruct (IH (Ust [] ln 1 (u_lines u + 1)) gs k l Hm Hok) as (c & Hc'); [done|by split_and!|cbn; lia|cbn; lia|done|]. exists c. cbn [fmap list_fmap concat].
      destruct m; try done; cbn -[print_group group_text]; rewrite print_group_eq by done; cbn -[group_text]; rewrite Hc'; done.
Qed.

(** The first line makes the first group. *)
Lemma uniq_first m ln : match m with Width _ => False | _ => True end -> line_ok ln ->
  uniq_chars m (Ust [] [] 1 0) (ln ++ [10]) = Some ([], Ust [] ln 1 1).
Proof.
  intros Hm (L1 & L2 & L3 & L4). rewrite (uniq_chars_app m _ ln [10] [] (Ust ln [] 1 0)) by (rewrite uniq_line by (done || cbn; lia); done).
  cbn [uniq_chars]. unfold uniq_char. rewrite Z.eqb_refl. unfold uniq_newline. cbn [u_cur u_prev u_dup u_lines]. rewrite !cstr_id by (done || set_solver).
  rewrite (bool_decide_false (ln = [])), bool_decide_true by done. by destruct m.
Qed.

Definition text_of (lines : list (list Z)) : list Z := concat ((fun l => l ++ [10]) <$> lines).

Lemma text_last ln lines : last (text_of (ln :: lines)) = Some 10.
Proof.
  unfold text_of. revert ln. induction lines as [|l lines IH]; intros ln; cbn [fmap list_fmap concat].
  - rewrite app_nil_r. apply last_snoc.
  - rewrite last_app. specialize (IH l). cbn [fmap list_fmap concat] in IH. by rewrite IH.
Qed.

Lemma text_unfinished ln lines data : Forall line_ok (ln :: lines) -> data ++ [10] = text_of (ln :: lines) -> last data <> Some 10.
Proof.
  intros Hok E Hl. assert (H : exists pre l, text_of (ln :: lines) = pre ++ l ++ [10] /\ line_ok l).
  { clear -Hok. revert ln Hok. induction lines as [|l lines IH]; intros ln Hok.
    - exists [], ln. split; [unfold text_of; cbn; by rewrite app_nil_r|]. by apply Forall_cons in Hok as [? _].
    - apply Forall_cons in Hok as [_ Hok]. destruct (IH l Hok) as (pre & l' & E & Hl'). exists (ln ++ [10] ++ pre), l'. split; [|done]. unfold text_of in *. cbn [fmap list_fmap concat] in *. rewrite E. by rewrite <- !app_assoc. }
  destruct H as (pre & l & E' & L1 & _ & L3 & _). rewrite E', app_assoc in E. apply app_inj_tail in E as [-> _]. rewrite last_app in Hl. destruct (last l) as [x|] eqn:Ex.
  - injection Hl as ->. apply last_Some in Ex as [l' ->]. set_solver.
  - by apply last_None in Ex.
Qed.

Lemma groups_prints m gs k l : concat (group_text m <$> gs) ++ group_text m (k, l) = concat (group_text m <$> (gs ++ [(k, l)])).
Proof. rewrite fmap_app, concat_app. cbn. by rewrite app_nil_r. Qed.

(** C30: uniq prints one line for each group of equal lines that follow each
    other; with the option -c with the number of lines before it, with -u only if
    the group has one line; for an input that one [read] gives, of lines that are
    not empty and fit into the buffer, whether the last line ends with a newline
    or not. *)
Theorem uniq_groups (m : umode) (ln : list Z) (lines : list (list Z)) (data : list Z) :
  match m with Width _ => False | _ => True end -> Forall line_ok (ln :: lines) ->
  data = text_of (ln :: lines) /\ Z.of_nat (length data) <= 999 \/ data ++ [10] = text_of (ln :: lines) /\ Z.of_nat (length data) <= 998 ->
  uniq m data = Some (concat (group_text m <$> groups ln 1 lines)).
Proof.
  intros Hm Hok Hdata. destruct (groups_app ln 1 lines) as (gs & k & l & Eg). rewrite Eg, <- groups_prints. pose proof Hok as [Hl Hok']%Forall_cons.
  assert (Hlen : Z.of_nat (length (text_of (ln :: lines))) <= 999) by (destruct Hdata as [[<- ?]|[<- ?]]; rewrite ?length_app; cbn [length]; lia).
  assert (Hnl : (length lines <= length (text_of (ln :: lines)))%nat).
  { assert (Hge : (length lines <= length (text_of lines))%nat) by (clear; unfold text_of; induction lines as [|l lines IH]; cbn; [lia|]; rewrite !length_app; cbn [length]; lia).
    unfold text_of in *. cbn [fmap list_fmap concat]. rewrite length_app. lia. }
  assert (Hprev : line_ok l).
  { assert (Hin : Forall (fun g => line_ok (snd g)) (groups ln 1 lines)) by (clear -Hl Hok'; revert ln Hl; generalize 1; induction lines as [|a lines IH]; intros n ln Hl; cbn [groups]; [by apply Forall_singleton|]; apply Forall_cons in Hok' as [Ha Hok']; case_bool_decide; [by apply IH|]; constructor; [done|]; by apply IH).
    rewrite Eg in Hin. apply Forall_app in Hin as [_ Hin]. by apply Forall_cons in Hin as [? _]. }
  assert (Hrun : exists c, uniq_chars m (Ust [] [] 1 0) (text_of (ln :: lines)) = Some (concat (group_text m <$> gs), Ust [] l k c)).
  { unfold text_of. cbn [fmap list_fmap concat]. rewrite (uniq_chars_app m _ (ln ++ [10]) _ [] _ (uniq_first m ln Hm Hl)).
    destruct (uniq_text m lines (Ust [] ln 1 1) gs k l Hm Hok') as (c & E); [done|done|cbn; lia|cbn; lia|done|]. exists c. by rewrite E. }
  destruct Hrun as (c & Hrun). assert (Hg : print_group m k l = Some (group_text m (k, l))) by (apply print_group_eq; [done|apply Hprev]).
  assert (Hrest : match m with Width _ => Some [] | _ => print_group m k l end = Some (group_text m (k, l))) by (by destruct m).
  unfold uniq. destruct Hdata as [[-> Hd]|[E Hd]].
  - assert (Hne : Z.of_nat (length (text_of (ln :: lines))) <> 0) by (unfold text_of; cbn [fmap list_fmap concat]; rewrite !length_app; cbn [length]; lia).
    rewrite (proj2 (Z.eqb_neq _ _) Hne), text_last. rewrite bool_decide_true by done. cbn [orb]. rewrite (uniq_chars_app _ _ _ [0] _ _ Hrun). cbn [uniq_chars]. unfold uniq_char. cbn [Z.eqb u_cur length Z.of_nat app].
    change (Z.of_nat 0 <? LINE_BUF - 1) with true. cbn -[group_text print_group]. rewrite app_nil_r. by rewrite Hrest.
  - pose proof (text_unfinished _ _ _ Hok E) as Hlast. assert (Hne : Z.of_nat (length data) <> 0).
    { intros E0. assert (data = []) as -> by (destruct data; [done|cbn in E0; lia]). unfold text_of in E. cbn [fmap list_fmap concat app] in E. destruct Hl as (L1 & _). destruct ln as [|a [|b ln]]; [done|..]; cbn in E; injection E; intros; done. }
    rewrite (proj2 (Z.eqb_neq _ _) Hne). rewrite (bool_decide_false (last data = Some 10)) by done. rewrite (proj2 (Z.ltb_lt _ _)) by (unfold MAX_LINE_LENGTH; lia). cbn [orb]. rewrite E, Hrun. cbn -[group_text print_group]. by rewrite Hrest.
Qed.

Lemma uniq_groups_witness : uniq Counts (str "ab" ++ [10] ++ str "ab" ++ [10] ++ str "c") = Some [(1, [9; 50; 32; 97; 98; 10]); (1, [9; 49; 32; 99; 10])].
Proof.
  rewrite (uniq_groups Counts [97; 98] [[97; 98]; [99]]); [reflexivity|done| |by right].
  repeat (apply Forall_cons; split; [split_and!; [done|set_unfold; lia|set_unfold; lia|done]|]). done.
Defined.

(** ** ls *)

(** The characters after the last slash of a path. *)
Fixpoint after_slash (path : list Z) : list Z :=
  match path with
  | [] => []
  | c :: path' => if bool_decide (slash ∈ path) then (if bool_decide (slash ∈ path') then after_slash path' else path') else path
  end.
(** [fmtname]: the name, padded with blanks if it is shorter than an entry's. *)
Definition fmtname (path : list Z) : list Z :=
  let p := after_slash path in
  if Z.of_nat (length p) >=? DIRSIZ then p else p ++ replicate (Z.to_nat DIRSIZ - length p) 32.

(** What the system calls return for a path: whether [open] and [fstat] succeed,
    type, number and size; the entries of a directory. *)
Record lsworld := LsWorld {
  l_open : list Z -> bool;
  l_stat : list Z -> option (Z * Z * Z);
  l_read : list Z -> list (list Z);
}.

Definition ls_entry (w : lsworld) (path : list Z) (hidden : bool) (de : list Z) : act :=
  if negb hidden && (byte_at (de_name de) 0 =? 46) then skip
  else if de_inum de =? 0 then skip
  else
    let buf := path ++ [slash] ++ cprefix (Z.to_nat DIRSIZ) (de_name de) in
    match l_stat w buf with
    | None => say (printf 1 (str "ls: cannot stat %s" ++ [10]) [AStr (Some buf)])
    | Some (ty, ino, size) =>
      if ty =? 2 then say (printf 1 (str "%s %d %d %d" ++ [10]) [AStr (Some (fmtname buf)); AInt ty; AInt ino; AInt size])
      else if ty =? 1 then say (printf 1 (str "%s/ %d %d %d" ++ [10]) [AStr (Some (fmtname buf)); AInt ty; AInt ino; AInt size])
      else skip
    end.
Definition ls (w : lsworld) (path : list Z) (hidden : bool) : act :=
  if negb (l_open w path) then say (printf 2 (str "ls: cannot open %s" ++ [10]) [AStr (Some path)])
  else match l_stat w path with
  | None => say (printf 2 (str "ls: cannot stat %s" ++ [10]) [AStr (Some path)])
  | Some (ty, ino, size) =>
    if ty =? T_FILE then say (printf 1 (str "%s %d %d %d" ++ [10]) [AStr (Some (fmtname path)); AInt ty; AInt ino; AInt size])
    else if ty =? T_DIR then
      if Z.of_nat (length path) + 1 + DIRSIZ + 1 >? 512 then say (printf 1 (str "ls: path too long" ++ [10]) [])
      else foldr andthen skip (ls_entry w path hidden <$> l_read w path)
    else skip
  end.
Definition ls_main (w : lsworld) (argv : list (list Z)) : act :=
  match tail argv with
  | [] => ls w [46] false
  | a :: args =>
    if bool_decide (a = str "-a") then
      match args with
      | [] => ls w [46] true
      | _ => foldr andthen skip ((fun p => ls w p true) <$> args)
      end
    else foldr andthen skip ((fun p => ls w p false) <$> a :: args)
  end.

Lemma after_slash_elem dir name : slash ∉ name -> after_slash (dir ++ [slash] ++ name) = name.
Proof.
  intros Hn. induction dir as [|c dir IH]; cbn [app after_slash].
  - rewrite bool_decide_true by set_solver. by rewrite bool_decide_false by done.
  - rewrite !bool_decide_true by set_solver. exact IH.
Qed.

(** The entries that ls shows: those in use and, without -a, not hidden. *)
Definition visible (hidden : bool) (de : list Z) : bool := (hidden || negb (byte_at (de_name de) 0 =? 46)) && negb (de_inum de =? 0).
Definition entry_name (de : list Z) : list Z := cprefix (Z.to_nat DIRSIZ) (de_name de).

(** The line for an entry. *)
Definition ls_line (w : lsworld) (path : list Z) (de : list Z) : list print :=
  match l_stat w (path ++ [slash] ++ entry_name de) with
  | Some (ty, ino, size) =>
    if (ty =? T_FILE) || (ty =? T_DIR) then
      [(1, fmtname (entry_name de) ++ (if ty =? T_DIR then [slash] else []) ++ [32] ++ uprintint ty 10 true ++ [32] ++ uprintint ino 10 true ++ [32] ++ uprintint size 10 true ++ [10])]
    else []
  | None => [(1, str "ls: cannot stat " ++ path ++ [slash] ++ entry_name de ++ [10])]
  end.

Lemma fmtname_elem path name : slash ∉ name -> fmtname (path ++ [slash] ++ name) = fmtname name.
Proof.
  intros Hn. unfold fmtname. rewrite after_slash_elem by done.
  assert (E : after_slash name = name) by (destruct name as [|c name]; [done|]; cbn [after_slash]; by rewrite bool_decide_false by done). by rewrite E.
Qed.

Lemma printf_stat name a b c : printf 1 (str "%s %d %d %d" ++ [10]) [AStr (Some name); AInt a; AInt b; AInt c] =
  Some (1, name ++ [32] ++ uprintint a 10 true ++ [32] ++ uprintint b 10 true ++ [32] ++ uprintint c 10 true ++ [10]).
Proof. reflexivity. Qed.

Lemma printf_stat_dir name a b c : printf 1 (str "%s/ %d %d %d" ++ [10]) [AStr (Some name); AInt a; AInt b; AInt c] =
  Some (1, name ++ [slash] ++ [32] ++ uprintint a 10 true ++ [32] ++ uprintint b 10 true ++ [32] ++ uprintint c 10 true ++ [10]).
Proof. reflexivity. Qed.

Lemma printf_nostat name : printf 1 (str "ls: cannot stat %s" ++ [10]) [AStr (Some name)] = Some (1, str "ls: cannot stat " ++ name ++ [10]).
Proof. reflexivity. Qed.

Lemma ls_entry_line w path hidden de : slash ∉ entry_name de ->
  ls_entry w path hidden de = (if visible hidden de then ls_line w path de else [], Next).
Proof.
  intros Hn. unfold ls_entry, visible. destruct (negb hidden && (byte_at (de_name de) 0 =? 46)) eqn:E1.
  - apply andb_prop in E1 as [E1 E2]. destruct hidden; [done|]. by rewrite E2.
  - assert (Ev : hidden || negb (byte_at (de_name de) 0 =? 46) = true) by (destruct hidden, (byte_at (de_name de) 0 =? 46); done). rewrite Ev. cbn [andb].
    destruct (de_inum de =? 0); [done|]. cbn [negb]. change (cprefix (Z.to_nat DIRSIZ) (de_name de)) with (entry_name de). unfold ls_line. rewrite fmtname_elem by done.
    change T_FILE with 2. change T_DIR with 1. generalize (fmtname (entry_name de)). intros shown.
    destruct (l_stat w (path ++ [slash] ++ entry_name de)) as [[[ty ino] size]|].
    + rewrite printf_stat, printf_stat_dir. destruct (Z.eqb_spec ty 2) as [->|Hty]; [done|]. by destruct (Z.eqb_spec ty 1) as [->|Hty1].
    + rewrite printf_nostat. by rewrite <- !app_assoc.
Qed.

(** [ls] of a directory prints, in the order of the entries, one line for each
    entry that is in use and, without the option -a, does not begin with a dot:
    the name, padded, with a slash for a directory, and type, number and size. *)
Theorem ls_lists (w : lsworld) (path : list Z) (hidden : bool) (ino size : Z) :
  l_open w path = true -> l_stat w path = Some (T_DIR, ino, size) -> Z.of_nat (length path) + 1 + DIRSIZ + 1 <= 512 ->
  Forall (fun de => slash ∉ entry_name de) (l_read w path) ->
  ls w path hidden = (concat (ls_line w path <$> List.filter (visible hidden) (l_read w path)), Next).
Proof.
  intros Ho Hs Hl Hn. unfold ls. rewrite Ho, Hs. cbn [negb]. change (T_DIR =? T_FILE) with false. rewrite Z.eqb_refl. rewrite Z.gtb_ltb, (proj2 (Z.ltb_ge _ _)) by lia.
  induction (l_read w path) as [|de des IH]; cbn [fmap list_fmap foldr List.filter]; [done|]. apply Forall_cons in Hn as [Hd Hn]. change (list_fmap _ _ (ls_entry w path hidden) des) with (ls_entry w path hidden <$> des).
  rewrite (IH Hn), ls_entry_line by done. unfold andthen. cbn [fst snd]. by destruct (visible hidden de).
Qed.

(** ** The small commands *)

(** [args] are the arguments after the name of the program. *)
Fixpoint echo (args : list (list Z)) : option (list print) :=
  match args with
  | [] => Some []
  | a :: args' =>
    p ← printf 1 (str "%s%s") [AStr (Some a); AStr (Some (if bool_decide (args' = []) then [10] else [32]))];
    ps ← echo args';
    Some (p :: ps)
  end.

(** The loop of mkdir and rm: [call] says whether the system call succeeds;
    the arguments it is made for, and the message. *)
Fixpoint each (call : list Z -> bool) (msg : list Z) (args : list (list Z)) : list (list Z) * list (option print) :=
  match args with
  | [] => ([], [])
  | a :: args' =>
    if negb (call a) then ([a], [printf 2 msg [AStr (Some a)]])
    else let r := each call msg args' in (a :: fst r, snd r)
  end.
Definition mkdir (call : list Z -> bool) (args : list (list Z)) : list (list Z) * list (option print) :=
  if bool_decide (args = []) then ([], [printf 2 (str "Usage: mkdir files..." ++ [10]) []])
  else each call (str "mkdir: %s failed to create" ++ [10]) args.
Definition rm (call : list Z -> bool) (args : list (list Z)) : list (list Z) * list (option print) :=
  if bool_decide (args = []) then ([], [printf 2 (str "Usage: rm files..." ++ [10]) []])
  else each call (str "rm: %s failed to delete" ++ [10]) args.

(** The numbers of the processes that [kill] is called for. *)
Definition kill_main (args : list (list Z)) : list (option Z) * list (option print) :=
  if bool_decide (args = []) then ([], [printf 2 (str "usage: kill pid..." ++ [10]) []])
  else ((fun a => atoi (a ++ [0])) <$> args, []).

(** The call of [link], if any. *)
Definition ln (call : list Z -> list Z -> bool) (args : list (list Z)) : option (list Z * list Z) * list (option print) :=
  match args with
  | [old; new] =>
    (Some (old, new), if negb (call old new) then [printf 2 (str "link %s %s: failed" ++ [10]) [AStr (Some old); AStr (Some new)]] else [])
  | _ => (None, [printf 2 (str "Usage: ln old new" ++ [10]) []])
  end.

(** The ticks that [sleep] is called with, if it is. *)
Definition sleep_main (args : list (list Z)) : option (option Z * list (option print)) :=
  match args with
  | [] => Some (None, [printf 2 (str "usage: give the number of seconds the process should pause" ++ [10]) []])
  | a :: _ =>
    let neg := printf 2 (str "Error: time cannot be negative %s" ++ [10]) [AStr (Some a)] in
    let warn := if byte_at a 0 =? 45 then [neg] else [] in
    ticks ← atoi (a ++ [0]);
    if ticks <? 0 then Some (None, warn ++ [neg]) else Some (Some ticks, warn)
  end.

Lemma echo_cons a args : echo (a :: args) = (ps ← echo args; Some ((1, a ++ if bool_decide (args = []) then [10] else [32]) :: ps)).
Proof.
  cbn [echo]. generalize (if bool_decide (args = []) then [10] else [32]) as sep. intros sep.
  assert (E : printf 1 (str "%s%s") [AStr (Some a); AStr (Some sep)] = Some (1, a ++ sep ++ [])) by reflexivity. by rewrite E, app_nil_r.
Qed.

(** echo prints its arguments with a blank between two and a newline at the end. *)
Theorem echo_joins (a : list Z) (args : list (list Z)) : exists ps, echo (a :: args) = Some ps /\ Forall (fun p => fst p = 1) ps /\
  concat (snd <$> ps) = a ++ concat ((fun b => [32] ++ b) <$> args) ++ [10].
Proof.
  revert a. induction args as [|b args IH]; intros a; rewrite echo_cons.
  - exists [(1, a ++ [10])]. split; [done|]. split; [by repeat constructor|]. cbn. by rewrite app_nil_r.
  - destruct (IH b) as (ps & -> & Hf & Hc). exists ((1, a ++ [32]) :: ps). split; [done|]. split; [by constructor|].
    rewrite !fmap_cons. cbn [concat snd]. rewrite Hc. by rewrite <- !app_assoc.
Qed.

(** mkdir and rm make the call for every argument up to the first for which it
    fails, and report that one. *)
Theorem each_stops (call : list Z -> bool) (msg : list Z) (args : list (list Z)) : exists rest,
  args = fst (each call msg args) ++ rest /\
  ((rest = [] /\ Forall (fun a => call a = true) args /\ snd (each call msg args) = []) \/
   exists pre a, fst (each call msg args) = pre ++ [a] /\ Forall (fun a => call a = true) pre /\ call a = false /\ snd (each call msg args) = [printf 2 msg [AStr (Some a)]]).
Proof.
  induction args as [|a args (rest & E & H)]; cbn [each].
  - exists []. split; [done|]. by left.
  - destruct (call a) eqn:Ea; cbn [negb fst snd].
    + exists rest. split; [cbn; by f_equal|]. destruct H as [(-> & Hf & Hs)|(pre & b & E1 & Hf & Hb & Hs)]; [left; split; [done|]; split; [by constructor|done]|].
      right. exists (a :: pre), b. split; [by rewrite E1|]. split; [by constructor|]. done.
    + exists args. split; [done|]. right. exists [], a. done.
Qed.
